(* ===== verification/_CoqProject ===== *)
-Q . S2P
Prelude.v
Bytes.v
MemoryMap.v
Crc32.v
AbRecord.v
BootMetadata.v
UpdateHandoff.v
DownloadCheckpoint.v
BackupImage.v
FullImage.v
Progress.v
Device.v
Sim.v
Logic.v
MetadataStorage.v
BootDecision.v
ApplicationJump.v
TrialBoot.v
SpiFlash.v
ExternalFlashStorage.v
AbStorage.v
SectorRecords.v
BackupImageStorage.v
ChipIdle.v
Recovery.v
Chunks.v
PatchFormat.v
DeltaEngine.v
Janpatch.v
JanpatchTheorems.v
FirmwareContainer.v
Primes.v
U256.v
Curve.v
EcdsaP256.v
EcdsaTheorems.v
EcdsaScenarios.v
Sha256.v
SecureContainer.v
DeltaPatcher.v
ImageInstaller.v
CopySteps.v
InstallSafety.v
InstallTheorems.v
BootManager.v
BootSafety.v
TrialConfirmation.v
Buffer.v
Uart.v
Cobs.v
OtaPacket.v
OtaParser.v
OtaLink.v
OtaResponse.v
OtaReceiver.v
Reception.v
Download.v
Resume.v
StartAbort.v
OtaAgent.v
Scenarios.v
DownloadScenarios.v
GatewayProtocol.v
GatewayClient.v
GatewayRuns.v
Delivery.v
GatewayLink.v
GatewayTransfer.v
EndToEnd.v
SecureContainerMeta.v
ArtifactCache.v
ArtifactTheorems.v
HttpsDownload.v
HttpsTheorems.v
MqttOrchestrator.v
GatewayManager.v
ManagerTheorems.v
GatewayCache.v
GatewayScenarios.v
CacheScenarios.v
