(* ===== verification/Prelude.v ===== *)
(** * Secure delta OTA bootloader: verification library

    The repository is an over-the-air update system for an STM32F103 node: a
    24 KiB bootloader and a 38 KiB application in the internal flash, a W25Q
    SPI NOR chip that holds downloads and backups, a gateway and a server.
    This library models the code that decides whether the node survives an
    update: the shared record and container formats, the storage drivers, the
    bootloader, the application's UART protocol and download session, and the
    client of the gateway at the other end of that UART.

    ** How the program works

    The application parses COBS frames from the UART into packets, answers
    each, receives a signed container into the incoming partition of the W25Q
    (START, DATA, FINISH), checkpoints the transfer at every flash sector so
    that it can be resumed after a reset, and on INSTALL commits a boot-metadata record in state ARTIFACT_READY.  At
    the next reset BootManager_Run loads the current record of the two metadata
    pages, asks BootDecision_Evaluate what to do, does it and repeats.
    SecureContainer_Process authenticates the container and reconstructs the
    image (VERIFYING_CONTAINER, VERIFYING_BASE, PATCHING, IMAGE_READY).
    ImageInstaller_ProcessBasicFull copies the running application to the
    backup partition (BACKING_UP), the new image over the application
    (INSTALLING, VERIFYING_INSTALL) and leaves TRIAL_BOOT.  The candidate runs
    under a watchdog, at most three times; it confirms itself (CONFIRMED, then
    IDLE at the new version) or ImageInstaller_ProcessRollback copies the
    backup back (ROLLBACK, then IDLE at the old version).  Power may fail at
    any instruction of all this.

    ** The model

    [Device] is the machine: a world is the two memories and the RAM variables
    the code keeps; a statement is [World -> World * Outcome], where the
    outcome is a value, a power loss or an exhausted loop bound.  The hardware
    is the class [Hw]: single operations of the SPI port and of the flash
    controller with their documented effect, where each of them may also lose
    power or report an error and leave a partial effect.  [Sim] is a concrete,
    executable instance of the class.  [wp m Q C w] says that [m] terminates
    from [w], that a result satisfies [Q], and that the memories a power loss
    leaves behind satisfy [C]; [Logic] and [ChipIdle] are its proof rules (what
    a call may write, what it leaves of the SPI session).  Every loop of the
    sources is [loop fuel body]; each use proves its bound enough, since [wp]
    excludes the exhausted outcome.

    Integers are [Z]; the unsigned arithmetic that can wrap is written with
    [u8], [u16], [u32] and [u64].  A struct is a Record.  A function that
    returns a status and fills an out-parameter returns a pair or a sum.  A
    pointer argument the source tests for NULL is an option.

    ** The files

    - Prelude, Bytes, MemoryMap: widths, byte strings, the address map and its
      range tests (shared/include/memory_map.h, shared/src/ext_flash_layout.c).
    - Crc32, Sha256: shared/src/crc32.c and sha256.c.
    - AbRecord: the two type classes every persistent record meets (magic
      first, CRC last; two slots chosen by generation); BootMetadata,
      UpdateHandoff, DownloadCheckpoint and BackupImage, the record sources of
      shared/src, discharge them.
    - FullImage, Progress, FirmwareContainer: shared/src/full_image_validation.c,
      install_progress.c, backup_progress.c, firmware_container.c.
    - SpiFlash, ExternalFlashStorage, AbStorage, SectorRecords,
      BackupImageStorage: node-stm32f103/common.  AbStorage is the program that
      update_handoff_storage.c and download_checkpoint_storage.c both are.
    - MetadataStorage, BootDecision, ApplicationJump, TrialBoot,
      SecureContainer, ImageInstaller, BootManager: node-stm32f103/bootloader.
    - Janpatch: bootloader/patch/janpatch_port.c, the streaming interpreter of
      delta patches.  PatchFormat is the reference semantics of the format,
      JanpatchTheorems the equivalence, DeltaEngine the interface the secure
      container is proved against, which Janpatch implements.
    - DeltaPatcher: bootloader/src/delta_patcher.c and shared/src/delta_patch.c,
      the handler of unsigned D13P artifacts, which only builds with
      SECURE_CONTAINER_ALLOW_UNSIGNED_LEGACY contain.
    - U256 and EcdsaP256: bootloader/crypto/ecdsa_p256.c, its multi-precision
      arithmetic and its curve.  Primes proves the two moduli of P-256 prime by
      Pocklington's criterion, Curve is the affine group law over a prime field,
      EcdsaTheorems shows that the code computes it.
    - TrialConfirmation, Cobs, OtaPacket, OtaParser, OtaResponse, OtaReceiver,
      OtaAgent (with SendPacket in OtaLink) and Uart: node-stm32f103/application,
      protocol/, src/ and drivers/uart.c.  Buffer is the write into a C array.
    - Reception: the specification of a download.  [transfer h s data] says
      that the chip holds the bytes [data] the session [s] has acknowledged and
      that the sectors it will write next are known to be erased or not yet
      used; Download, Resume and StartAbort prove it of every handler, of
      start-up and of power loss.
    - Recovery: the abstract specification of the bootloader.  An [Image] is what must never be
      lost; [safe orig h] says that the current record of [h] leads back to
      [orig], in the application region or in a validated backup.
    - Chunks, CopySteps, InstallSafety, InstallTheorems, BootSafety: the proofs
      that the installer and the boot manager keep it.
    - GatewayProtocol and GatewayClient: gateway-esp32/components/uart_ota, its
      protocol, plan and client.  The client runs in the environment of the class
      EspIdf (the calls of ESP-IDF and FreeRTOS and whatever is behind the UART)
      and is a function to [option]: [None] only when a wait runs out of [fuel].
      GatewayRuns is the program logic of its runs.
    - GatewayLink: the client against the agent of the node over an arbitrary
      link.  Delivery is the node's side of one transfer, GatewayTransfer the
      invariant of both ends and the wire, EndToEnd its preservation by every
      function of the client.
    - SecureContainerMeta, ArtifactCache and HttpsDownload: the components
      secure_container_meta, artifact_cache and https_download of the gateway,
      over the classes EspPartition and EspHttp.  ArtifactTheorems specifies the
      cache by what the partition publishes ([published]) and by the invariant of
      a write under way ([writing]); HttpsTheorems proves the download against
      it; GatewayCache joins the cache to the transfer of EndToEnd.
    - MqttOrchestrator: components/mqtt_orchestrator, the
      contract and the event handler, over the class CJson; GatewayManager and
      ManagerTheorems: its publishing functions (class EspMqtt) and
      ProcessCommand of main/gateway_manager.c.
    - Scenarios, EcdsaScenarios, DownloadScenarios, GatewayScenarios,
      CacheScenarios: concrete devices, keys, packets, sessions, UARTs, servers
      and partitions on which the theorems are applied.

    ** What the theorems show

    The safety group (BootSafety, InstallTheorems, SecureContainer): from a
    safe memory every boot keeps the memory safe wherever power fails,
    terminates, starts only checked vector tables, counts every trial first,
    and makes only authenticated images ready; the unsigned handler
    (DeltaPatcher) makes ready only what an intact patch for the running image
    gives.  The
    cryptography and patch group (EcdsaTheorems, U256, Sha256,
    JanpatchTheorems): the signature check is ECDSA over P-256, down from the
    32-bit limbs; the patch interpreter computes the reference and fails only
    with it or with the flash.  The storage group
    (MetadataStorage, SectorRecords, TrialBoot): commits are atomic and write
    one slot.  The download group (Download, Resume, StartAbort,
    TrialConfirmation): no packet writes outside the partitions of the
    download, acknowledged bytes are in flash and survive power loss, FINISH
    and INSTALL promise what the bootloader relies on.  The link group (Cobs,
    OtaPacket, OtaLink): frames round-trip, garbage is skipped, damaged packets
    are refused; Uart: every interleaving of the interrupt with the reader is a
    queue; OtaAgent: bytes in, calls and answers out.  The gateway group
    (GatewayProtocol, GatewayRuns, EndToEnd): both ends speak the same protocol,
    the client returns whatever the node does, ESP_OK means the node said so, and
    over any link a transfer that reports success has delivered the image.  The
    artifact group (SecureContainerMeta, HttpsTheorems, GatewayCache,
    MqttOrchestrator, ManagerTheorems): commands come from whole messages, a download
    that succeeds publishes exactly the bytes received and one that fails nothing
    new, unless an erase fails, the cache exports that image, and a command is
    confirmed, by its status and on MQTT, only when the described image was handed
    over and the node was seen running it.  The format group (Crc32, Sha256,
    FirmwareContainer, FullImage, Progress): streaming equals hashing, bursts are detected, accepted headers
    fit their partition, vectors are runnable, copy loops end.

    ** Bounds

    The iteration bound of each loop is derived from its own counter (a length
    plus one, or the number of polls plus one); the transition loop of the boot
    manager has the bound of its source, eight, and is proved to need four.  A
    wait of the gateway's client ends when the clock of its environment reaches a
    deadline; a pass costs at least one tick, so that more fuel than the longest
    time-out has microseconds is enough.  A download may wait that long for each
    byte, so that its fuel covers the product ([body_fuel]); the wait for an MQTT
    acknowledgement ends after those of a full outbox.

    ** Assumptions

    There are two assumptions on what a power loss leaves of a record.
    [erases_detected] (in Recovery), for the internal metadata pages: an
    interrupted erase of a page does not happen to leave another record with a
    valid CRC; it holds of every device whose erase is all or nothing
    ([sim_erase_detected]).  [torn_detected] (in Resume), for the sectors of the
    download checkpoint: a sector whose rewriting was cut short holds the old
    record, the new one, or none with a valid CRC; DownloadScenarios shows it of a
    sector after every prefix of its programming ([torn_prefixes_detected]).  The class TrustedKey of SecureContainer
    stands for the generated trusted_key.h, 64 bytes of key.  ECDSA is stated by
    the double-and-add of the affine law: that the law is associative is not
    proved.  The uninitialised local arrays of the gateway's client are one
    arbitrary record (ClientLocals), the same in every call.  The classes
    PartitionLaws, HttpLaws and MqttLaws state the documented behaviour of the
    ESP-IDF calls: a write clears bits in its range, a read of the HTTP client
    returns at most what is asked for and takes time, MQTT touches neither.
    EraseCount and MqttTraffic only observe: the erases that reported an error,
    and the messages handed to MQTT.  CacheScenarios has an instance of each.  EndToEnd says
    nothing about runs in which damage of the link goes undetected by the CRC of a
    packet: [ne_undetected] marks them.  In it the node stays silent after a reset
    or a power loss.

    ** Not modelled

    The register set-up of clocks, pins and the SPI port, LED and delay code,
    the watchdog registers and the final branch (their calls are visible in the
    result of BootManager_Run); the fault-injection branches and the calls of
    unsigned-legacy code in the boot manager, the installer and the receiver,
    which the production build leaves out; the vendored
    STM32 peripheral library and CMSIS, which are the hardware contract; the
    application's main loop; the gateway's start-up, Wi-Fi and clock, the loop of GatewayManager_Run
    and the functions that create and destroy the MQTT client; the server and the
    Python tools. *)

From Stdlib Require Export ZArith Lia.
From stdpp Require Export base tactics option list numbers gmap.

#[global] Open Scope Z_scope.

(** ** Machine-width integers

    A C [uintN_t] is a [Z]; the operations that can leave the range are
    written with the explicit wrap-around of the type. *)

Definition u8 (x : Z) : Z := x mod 2 ^ 8.
Definition u16 (x : Z) : Z := x mod 2 ^ 16.
Definition u32 (x : Z) : Z := x mod 2 ^ 32.
Definition u64 (x : Z) : Z := x mod 2 ^ 64.

Definition is_byte (x : Z) : Prop := 0 <= x < 2 ^ 8.
Definition is_u16 (x : Z) : Prop := 0 <= x < 2 ^ 16.
Definition is_u32 (x : Z) : Prop := 0 <= x < 2 ^ 32.

Abbreviation bytes_ok := (Forall is_byte).
Abbreviation words_ok := (Forall is_u32).

Declare Scope word_scope.
Delimit Scope word_scope with word.
Notation "a +w b" := (u32 (a + b)) (at level 50, left associativity) : word_scope.
Notation "a -w b" := (u32 (a - b)) (at level 50, left associativity) : word_scope.
#[global] Open Scope word_scope.

Notation "a <>? b" := (negb (Z.eqb a b)) (at level 70, no associativity) : Z_scope.

(** Assignments to a struct, in the order of the code. *)
Notation "x |> f" := (f x) (at level 50, left associativity, only parsing).

(** [len l]: the length of a list as the program counts it. *)
Abbreviation len l := (Z.of_nat (length l)).

(** [byte_at l i] is [l[i]]; the model never relies on the out-of-range value. *)
Definition byte_at (l : list Z) (i : Z) : Z := nth (Z.to_nat i) l 0.

(** [slice off n l] is the [n] bytes at [&l[off]]. *)
Definition slice (off n : Z) (l : list Z) : list Z :=
  take (Z.to_nat n) (drop (Z.to_nat off) l).

(** ** Hint databases of the development *)

Create HintDb ota.
Create Rewrite HintDb ota_word.

(** ** Tactics *)

(** Split every conjunction of the goal and the context, simplify equations. *)
Ltac crush_conj := repeat match goal with
  | H : _ /\ _ |- _ => destruct H
  | |- _ /\ _ => split
  end; simplify_eq/=.

(** Turn boolean tests on [Z] into propositions, everywhere. *)
Ltac to_prop := repeat match goal with
  | H : (_ && _)%bool = true |- _ => apply andb_true_iff in H; destruct H
  | H : (_ || _)%bool = false |- _ => apply orb_false_iff in H; destruct H
  | H : is_true _ |- _ => unfold is_true in H
  | H : negb _ = true |- _ => apply negb_true_iff in H
  | H : negb _ = false |- _ => apply negb_false_iff in H
  | H : (_ =? _) = true |- _ => apply Z.eqb_eq in H
  | H : (_ =? _) = false |- _ => apply Z.eqb_neq in H
  | H : (_ <? _) = true |- _ => apply Z.ltb_lt in H
  | H : (_ <? _) = false |- _ => apply Z.ltb_ge in H
  | H : (_ <=? _) = true |- _ => apply Z.leb_le in H
  | H : (_ <=? _) = false |- _ => apply Z.leb_gt in H
  end.

(** Destruct the condition of the first [if] of the goal. *)
Ltac case_if := match goal with
  | |- context [if ?b then _ else _] => let E := fresh "E" in destruct b eqn:E
  end.

Ltac case_if_in H := match type of H with
  | context [if ?b then _ else _] => let E := fresh "E" in destruct b eqn:E
  end.

(** ** Words *)

Lemma u32_range x : is_u32 (u32 x).
Proof. unfold is_u32, u32. apply Z.mod_pos_bound. lia. Qed.

Lemma u32_small x : is_u32 x -> u32 x = x.
Proof. intros H. apply Z.mod_small. exact H. Qed.

Lemma u32_idem x : u32 (u32 x) = u32 x.
Proof. apply u32_small, u32_range. Qed.

Lemma u8_range x : is_byte (u8 x).
Proof. unfold is_byte, u8. apply Z.mod_pos_bound. lia. Qed.

Lemma u8_small x : is_byte x -> u8 x = x.
Proof. intros H. apply Z.mod_small. exact H. Qed.

Lemma u16_range x : is_u16 (u16 x).
Proof. unfold is_u16, u16. apply Z.mod_pos_bound. lia. Qed.

Lemma u16_small x : is_u16 x -> u16 x = x.
Proof. intros H. apply Z.mod_small. exact H. Qed.

Lemma u16_u32 x : is_u16 x -> is_u32 x.
Proof. unfold is_u16, is_u32. lia. Qed.

#[export] Hint Resolve u32_range u8_range u16_range : ota.
#[export] Hint Rewrite u32_idem : ota_word.

(** ** Bitwise facts shared by the components *)

(** Masking with [2^n - 1] is the remainder. *)
Lemma land_mask x n : 0 <= n -> Z.land x (2 ^ n - 1) = x mod 2 ^ n.
Proof.
  intros Hn. rewrite <- (Z.land_ones x n Hn). f_equal.
  rewrite Z.ones_equiv. lia.
Qed.

(** A bitwise or of two numbers without common bits is their sum. *)
Lemma lor_disjoint_add a b n :
  0 <= n -> 0 <= a < 2 ^ n -> Z.lor a (Z.shiftl b n) = a + b * 2 ^ n.
Proof.
  intros Hn Ha.
  rewrite Z.shiftl_mul_pow2 by lia.
  assert (Hdisj : Z.land a (b * 2 ^ n) = 0).
  { apply Z.bits_inj'. intros i Hi. rewrite Z.land_spec, Z.bits_0.
    destruct (Z.lt_ge_cases i n).
    - rewrite (Z.mul_pow2_bits_low b n i) by lia. apply andb_false_r.
    - rewrite <- (Z.mod_small a (2 ^ n)) by lia.
      rewrite Z.mod_pow2_bits_high by lia. reflexivity. }
  pose proof (Z.add_lor_land a (b * 2 ^ n)). lia.
Qed.

Lemma testbit_out_u32 x i : is_u32 x -> 32 <= i -> Z.testbit x i = false.
Proof.
  intros Hx Hi. rewrite <- (Z.mod_small x (2 ^ 32)) by exact Hx.
  apply Z.mod_pow2_bits_high. lia.
Qed.

(** [Z] numbers whose bits from [n] upward are clear are below [2^n]. *)
Lemma bits_bound x n :
  0 <= n -> 0 <= x -> (forall i, n <= i -> Z.testbit x i = false) -> x < 2 ^ n.
Proof.
  intros Hn Hx Hb.
  assert (x = x mod 2 ^ n) as ->.
  { apply Z.bits_inj'. intros i Hi. destruct (Z.lt_ge_cases i n).
    - rewrite Z.mod_pow2_bits_low by lia. reflexivity.
    - rewrite Z.mod_pow2_bits_high by lia. apply Hb. lia. }
  apply Z.mod_pos_bound. lia.
Qed.

Lemma lxor_u32 a b : is_u32 a -> is_u32 b -> is_u32 (Z.lxor a b).
Proof.
  intros Ha Hb. unfold is_u32 in *. split.
  - apply Z.lxor_nonneg. lia.
  - apply bits_bound; [lia | apply Z.lxor_nonneg; lia |].
    intros i Hi. rewrite Z.lxor_spec, !testbit_out_u32 by (done || lia). done.
Qed.

Lemma shiftr_u32 a n : 0 <= n -> is_u32 a -> is_u32 (Z.shiftr a n).
Proof.
  intros Hn Ha. unfold is_u32 in *. rewrite Z.shiftr_div_pow2 by lia. split.
  - apply Z.div_pos; lia.
  - apply Z.le_lt_trans with a; [|lia]. apply Z.div_le_upper_bound; [lia|].
    assert (1 <= 2 ^ n) by (apply (Z.pow_le_mono_r 2 0 n); lia). nia.
Qed.

Lemma lxor_cancel_r a b c : Z.lxor a c = Z.lxor b c -> a = b.
Proof.
  intros H. apply Z.bits_inj'. intros i Hi.
  apply (f_equal (fun x => Z.testbit x i)) in H. rewrite !Z.lxor_spec in H.
  destruct (Z.testbit a i), (Z.testbit b i), (Z.testbit c i); done.
Qed.

(** A bitwise combination of two bytes is a byte. *)
Lemma byte_high_bits a i : is_byte a -> 8 <= i -> Z.testbit a i = false.
Proof.
  intros Ha Hi. rewrite <- (Z.mod_small a (2 ^ 8)) by exact Ha.
  apply Z.mod_pow2_bits_high. lia.
Qed.

Lemma lxor_byte a b : is_byte a -> is_byte b -> is_byte (Z.lxor a b).
Proof.
  intros Ha Hb. split; [apply Z.lxor_nonneg; unfold is_byte in *; lia|].
  apply bits_bound; [lia|apply Z.lxor_nonneg; unfold is_byte in *; lia|].
  intros i Hi. by rewrite Z.lxor_spec, !byte_high_bits.
Qed.

Lemma lor_byte a b : is_byte a -> is_byte b -> is_byte (Z.lor a b).
Proof.
  intros Ha Hb. split; [apply Z.lor_nonneg; unfold is_byte in *; lia|].
  apply bits_bound; [lia|apply Z.lor_nonneg; unfold is_byte in *; lia|].
  intros i Hi. by rewrite Z.lor_spec, !byte_high_bits.
Qed.

Lemma lor_u32 a b : is_u32 a -> is_u32 b -> is_u32 (Z.lor a b).
Proof.
  intros Ha Hb. split; [apply Z.lor_nonneg; unfold is_u32 in *; lia|].
  apply bits_bound; [lia|apply Z.lor_nonneg; unfold is_u32 in *; lia|].
  intros i Hi. by rewrite Z.lor_spec, !testbit_out_u32.
Qed.

#[export] Hint Resolve lxor_u32 lxor_byte lor_byte lor_u32 : ota.

(** ** Lists *)

Lemma len_app {A} (l k : list A) : len (l ++ k) = len l + len k.
Proof. rewrite length_app. lia. Qed.

(** Unfolding one step with the function abstract keeps conversion cheap. *)
Lemma fold_left_cons {A B} (f : A -> B -> A) b bs a :
  fold_left f (b :: bs) a = fold_left f bs (f a b).
Proof. done. Qed.

Lemma prefix_take {A} i j (l : list A) : (i <= j)%nat -> take i l `prefix_of` take j l.
Proof.
  intros H. exists (drop i (take j l)). rewrite <- (take_drop i (take j l)) at 1.
  by rewrite take_take, Nat.min_l.
Qed.

(** One more element, as the byte loops of the program take it. *)
Lemma take_byte_at i (l : list Z) :
  0 <= i < len l -> take (Z.to_nat (i + 1)) l = take (Z.to_nat i) l ++ [byte_at l i].
Proof.
  intros Hi. replace (Z.to_nat (i + 1)) with (S (Z.to_nat i)) by lia.
  apply take_S_r. unfold byte_at.
  destruct (lookup_lt_is_Some_2 l (Z.to_nat i)) as [v Hv]; [lia|].
  rewrite Hv. f_equal. symmetry. by apply nth_lookup_Some.
Qed.

Lemma slice_length off n l :
  0 <= off -> 0 <= n -> off + n <= len l -> len (slice off n l) = n.
Proof.
  intros. unfold slice. rewrite length_take, length_drop. lia.
Qed.

Lemma slice_all n l : len l = n -> slice 0 n l = l.
Proof. intros <-. unfold slice. rewrite Nat2Z.id. cbn. apply take_ge. lia. Qed.

Lemma slice_bytes_ok off n l : bytes_ok l -> bytes_ok (slice off n l).
Proof. intros. unfold slice. apply Forall_take, Forall_drop. done. Qed.

(** Two adjacent slices concatenate. *)
Lemma slice_app_adjacent off n m l :
  0 <= off -> 0 <= n -> 0 <= m ->
  slice off n l ++ slice (off + n) m l = slice off (n + m) l.
Proof.
  intros. unfold slice.
  rewrite (Z2Nat.inj_add n m), (Z2Nat.inj_add off n) by lia.
  rewrite <- drop_drop. apply take_take_drop.
Qed.
