(* ===== verification/Bytes.v ===== *)
(** * Bytes: little-endian encoding of words and of persistent records

    The firmware stores every persistent record as the raw bytes of a packed
    struct of 32-bit fields on a little-endian core, and reads multi-byte
    fields of wire formats with [GetU16Le]/[GetU32Le].  This file holds the
    byte/word conversions both views share, with their round trips. *)

From S2P Require Import Prelude.

(** ** Encoding *)

Fixpoint le_bytes (n : nat) (x : Z) : list Z :=
  match n with
  | O => []
  | S n => x mod 2 ^ 8 :: le_bytes n (x / 2 ^ 8)
  end.

Fixpoint le_word (bs : list Z) : Z :=
  match bs with
  | [] => 0
  | b :: bs => b + 2 ^ 8 * le_word bs
  end.

(** The bytes of a struct whose fields are all [uint32_t]. *)
Definition words_to_bytes (ws : list Z) : list Z := ws ≫= le_bytes 4.

(** The first [n] 32-bit fields of a struct stored at [bs]. *)
Fixpoint bytes_to_words (n : nat) (bs : list Z) : list Z :=
  match n with
  | O => []
  | S n => le_word (take 4 bs) :: bytes_to_words n (drop 4 bs)
  end.

(** [GetU16Le]: the helper the sources define once per file. *)
Definition GetU16Le (src : list Z) : Z :=
  u16 (Z.lor (byte_at src 0) (Z.shiftl (byte_at src 1) 8)).

(** [GetU32Le], likewise. *)
Definition GetU32Le (src : list Z) : Z :=
  Z.lor (Z.lor (Z.lor (byte_at src 0) (u32 (Z.shiftl (byte_at src 1) 8)))
               (u32 (Z.shiftl (byte_at src 2) 16)))
        (u32 (Z.shiftl (byte_at src 3) 24)).

(** [PutU16Le] and [PutU32Le] as the bytes they store. *)
Definition PutU16Le (value : Z) : list Z :=
  [u8 value; u8 (Z.shiftr value 8)].

Definition PutU32Le (value : Z) : list Z :=
  [u8 value; u8 (Z.shiftr value 8); u8 (Z.shiftr value 16); u8 (Z.shiftr value 24)].

(** ** Round trips *)

Lemma le_bytes_length n x : length (le_bytes n x) = n.
Proof. revert x. induction n; intros; cbn; congruence. Qed.

Lemma le_bytes_ok n x : bytes_ok (le_bytes n x).
Proof.
  revert x. induction n as [|n IH]; intros; constructor; [|done].
  apply Z.mod_pos_bound. lia.
Qed.

Lemma le_word_le_bytes n x : le_word (le_bytes n x) = x mod 2 ^ (8 * Z.of_nat n).
Proof.
  revert x. induction n as [|n IH]; intros x; cbn [le_bytes le_word].
  - rewrite Z.mul_0_r. cbn. symmetry. apply Z.mod_1_r.
  - rewrite IH. replace (8 * Z.of_nat (S n)) with (8 + 8 * Z.of_nat n) by lia.
    rewrite Z.pow_add_r by lia. symmetry.
    apply Z.rem_mul_r; [lia|]. apply Z.pow_pos_nonneg; lia.
Qed.

Lemma le_word_bound bs :
  bytes_ok bs -> 0 <= le_word bs < 2 ^ (8 * len bs).
Proof.
  induction 1 as [|b bs Hb _ IH]; cbn [le_word length]; [cbn; lia|].
  replace (8 * Z.of_nat (S (length bs))) with (8 + 8 * len bs) by lia.
  rewrite Z.pow_add_r by lia. unfold is_byte in Hb. nia.
Qed.

Lemma le_bytes_le_word bs :
  bytes_ok bs -> le_bytes (length bs) (le_word bs) = bs.
Proof.
  induction 1 as [|b bs Hb _ IH]; [done|]. cbn [length le_word le_bytes].
  unfold is_byte in Hb.
  replace ((b + 2 ^ 8 * le_word bs) mod 2 ^ 8) with b.
  2:{ rewrite Z.mul_comm, Z.mod_add by lia. symmetry. apply Z.mod_small. lia. }
  replace ((b + 2 ^ 8 * le_word bs) / 2 ^ 8) with (le_word bs).
  2:{ rewrite Z.mul_comm, Z.div_add, Z.div_small by lia. lia. }
  congruence.
Qed.

Lemma le_word_inj bs bs' :
  bytes_ok bs -> bytes_ok bs' -> length bs = length bs' ->
  le_word bs = le_word bs' -> bs = bs'.
Proof.
  intros H H' Hl Heq. rewrite <- (le_bytes_le_word bs H), Heq, Hl.
  by apply le_bytes_le_word.
Qed.

Lemma words_to_bytes_cons w ws :
  words_to_bytes (w :: ws) = le_bytes 4 w ++ words_to_bytes ws.
Proof. done. Qed.

Lemma words_to_bytes_app ws ws' :
  words_to_bytes (ws ++ ws') = words_to_bytes ws ++ words_to_bytes ws'.
Proof. unfold words_to_bytes. apply bind_app. Qed.

Lemma words_to_bytes_length ws : length (words_to_bytes ws) = (4 * length ws)%nat.
Proof.
  induction ws as [|w ws IH]; [done|].
  rewrite words_to_bytes_cons, length_app, le_bytes_length, IH. cbn [length]. lia.
Qed.

Lemma words_to_bytes_ok ws : bytes_ok (words_to_bytes ws).
Proof.
  induction ws; [constructor|]. rewrite words_to_bytes_cons.
  apply Forall_app; split; [apply le_bytes_ok | done].
Qed.

Lemma bytes_to_words_length n bs : length (bytes_to_words n bs) = n.
Proof. revert bs. induction n; intros; cbn; congruence. Qed.

Lemma bytes_to_words_to_bytes ws :
  words_ok ws -> bytes_to_words (length ws) (words_to_bytes ws) = ws.
Proof.
  induction 1 as [|w ws Hw _ IH]; [done|].
  rewrite words_to_bytes_cons. cbn [length bytes_to_words].
  rewrite take_app_length', drop_app_length' by (symmetry; apply le_bytes_length).
  rewrite IH, le_word_le_bytes. f_equal. apply Z.mod_small. exact Hw.
Qed.

Lemma words_to_bytes_to_words n bs :
  bytes_ok bs -> length bs = (4 * n)%nat ->
  words_to_bytes (bytes_to_words n bs) = bs.
Proof.
  revert bs. induction n as [|n IH]; intros bs Hok Hl; cbn [bytes_to_words].
  - destruct bs; [done | cbn in Hl; lia].
  - rewrite words_to_bytes_cons, IH; [|by apply Forall_drop|rewrite length_drop; lia].
    transitivity (take 4 bs ++ drop 4 bs); [|apply take_drop]. f_equal.
    assert (length (take 4 bs) = 4%nat) as H4 by (rewrite length_take; lia).
    rewrite <- H4 at 1. apply le_bytes_le_word. by apply Forall_take.
Qed.

Lemma bytes_to_words_ok n bs :
  bytes_ok bs -> (4 * n <= length bs)%nat -> words_ok (bytes_to_words n bs).
Proof.
  revert bs. induction n as [|n IH]; intros bs Hok Hl; cbn; constructor.
  - pose proof (le_word_bound (take 4 bs) ltac:(by apply Forall_take)) as Hb.
    rewrite length_take, Nat.min_l in Hb by lia. exact Hb.
  - apply IH; [by apply Forall_drop | rewrite length_drop; lia].
Qed.

(** ** The readers of the source are little-endian words *)

Lemma byte_at_ok bs i : bytes_ok bs -> is_byte (byte_at bs i).
Proof.
  intros H. unfold byte_at. destruct (nth_in_or_default (Z.to_nat i) bs 0) as [Hin| ->].
  - rewrite Forall_forall in H. apply H. by apply list_elem_of_In.
  - unfold is_byte. lia.
Qed.

Lemma byte_at_take bs n i : 0 <= i < n -> byte_at (take (Z.to_nat n) bs) i = byte_at bs i.
Proof. intros Hi. unfold byte_at. rewrite !nth_lookup, lookup_take_lt by lia. done. Qed.

Lemma byte_at_drop bs n i : 0 <= n -> 0 <= i -> byte_at (drop (Z.to_nat n) bs) i = byte_at bs (n + i).
Proof.
  intros. unfold byte_at. rewrite !nth_lookup, lookup_drop. do 2 f_equal. lia.
Qed.

Lemma byte_at_0 b bs : byte_at (b :: bs) 0 = b.
Proof. done. Qed.
Lemma byte_at_1 b c bs : byte_at (b :: c :: bs) 1 = c.
Proof. done. Qed.
Lemma byte_at_2 b c d bs : byte_at (b :: c :: d :: bs) 2 = d.
Proof. done. Qed.
Lemma byte_at_3 b c d e bs : byte_at (b :: c :: d :: e :: bs) 3 = e.
Proof. done. Qed.

Lemma GetU16Le_word b0 b1 bs :
  is_byte b0 -> is_byte b1 -> GetU16Le (b0 :: b1 :: bs) = le_word [b0; b1].
Proof.
  unfold is_byte. intros. unfold GetU16Le. rewrite byte_at_0, byte_at_1. cbn [le_word].
  rewrite lor_disjoint_add by lia. rewrite u16_small by (unfold is_u16; lia). lia.
Qed.

Lemma GetU32Le_word b0 b1 b2 b3 bs :
  is_byte b0 -> is_byte b1 -> is_byte b2 -> is_byte b3 ->
  GetU32Le (b0 :: b1 :: b2 :: b3 :: bs) = le_word [b0; b1; b2; b3].
Proof.
  unfold is_byte. intros. unfold GetU32Le.
  rewrite byte_at_0, byte_at_1, byte_at_2, byte_at_3. cbn [le_word].
  rewrite !u32_small by (unfold is_u32; rewrite Z.shiftl_mul_pow2 by lia; lia).
  rewrite (lor_disjoint_add b0 b1 8) by lia.
  rewrite (lor_disjoint_add (b0 + b1 * 2 ^ 8) b2 16) by lia.
  rewrite (lor_disjoint_add (b0 + b1 * 2 ^ 8 + b2 * 2 ^ 16) b3 24) by lia. lia.
Qed.

Lemma GetU32Le_range bs : bytes_ok bs -> is_u32 (GetU32Le bs).
Proof.
  intros H.
  assert (forall i, is_byte (byte_at bs i)) as Hb by (intros; by apply byte_at_ok).
  pose proof (Hb 0). pose proof (Hb 1). pose proof (Hb 2). pose proof (Hb 3).
  change (GetU32Le bs) with
    (GetU32Le [byte_at bs 0; byte_at bs 1; byte_at bs 2; byte_at bs 3]).
  rewrite GetU32Le_word by done. cbn. unfold is_byte, is_u32 in *. lia.
Qed.

Lemma GetU16Le_range bs : bytes_ok bs -> is_u16 (GetU16Le bs).
Proof.
  intros H.
  assert (forall i, is_byte (byte_at bs i)) as Hb by (intros; by apply byte_at_ok).
  pose proof (Hb 0). pose proof (Hb 1).
  change (GetU16Le bs) with (GetU16Le [byte_at bs 0; byte_at bs 1]).
  rewrite GetU16Le_word by done. cbn. unfold is_byte, is_u16 in *. lia.
Qed.

Lemma PutU32Le_bytes x : is_u32 x -> PutU32Le x = le_bytes 4 x.
Proof.
  intros. unfold PutU32Le, u8. cbn [le_bytes].
  rewrite !Z.shiftr_div_pow2, !Z.div_div by lia. done.
Qed.

Lemma PutU16Le_bytes x : is_u16 x -> PutU16Le x = le_bytes 2 x.
Proof.
  intros. unfold PutU16Le, u8. cbn [le_bytes].
  rewrite !Z.shiftr_div_pow2 by lia. done.
Qed.

(** [GetU32Le] inverts [PutU32Le], whatever bytes follow. *)
Lemma GetU32Le_PutU32Le x bs : is_u32 x -> GetU32Le (PutU32Le x ++ bs) = x.
Proof.
  intros Hx. unfold PutU32Le. cbn [app].
  rewrite GetU32Le_word by apply u8_range.
  change [_; _; _; _] with (PutU32Le x). rewrite PutU32Le_bytes by done.
  rewrite le_word_le_bytes. apply Z.mod_small. exact Hx.
Qed.

Lemma GetU16Le_PutU16Le x bs : is_u16 x -> GetU16Le (PutU16Le x ++ bs) = x.
Proof.
  intros Hx. unfold PutU16Le. cbn [app].
  rewrite GetU16Le_word by apply u8_range.
  change [_; _] with (PutU16Le x). rewrite PutU16Le_bytes by done.
  rewrite le_word_le_bytes. apply Z.mod_small. exact Hx.
Qed.

(** And the other way round, on the bytes it read. *)
Lemma PutU32Le_GetU32Le b0 b1 b2 b3 bs :
  bytes_ok [b0; b1; b2; b3] -> PutU32Le (GetU32Le (b0 :: b1 :: b2 :: b3 :: bs)) = [b0; b1; b2; b3].
Proof.
  intros Hb. pose proof Hb as Hb'. rewrite !Forall_cons in Hb'. destruct Hb' as (?&?&?&?&_).
  pose proof (le_word_bound _ Hb). rewrite GetU32Le_word by done.
  rewrite PutU32Le_bytes by done. by apply (le_bytes_le_word [b0; b1; b2; b3]).
Qed.

Lemma PutU16Le_GetU16Le b0 b1 bs :
  bytes_ok [b0; b1] -> PutU16Le (GetU16Le (b0 :: b1 :: bs)) = [b0; b1].
Proof.
  intros Hb. pose proof Hb as Hb'. rewrite !Forall_cons in Hb'. destruct Hb' as (?&?&_).
  pose proof (le_word_bound _ Hb). rewrite GetU16Le_word by done.
  rewrite PutU16Le_bytes by done. by apply (le_bytes_le_word [b0; b1]).
Qed.

(** ** Single bytes of a word struct *)

Lemma le_bytes_byte_at n x j :
  0 <= j < Z.of_nat n -> byte_at (le_bytes n x) j = (x / 2 ^ (8 * j)) mod 2 ^ 8.
Proof.
  revert x j. induction n as [|n IH]; intros x j Hj; [lia|].
  destruct (Z.eq_dec j 0) as [->|Hne].
  - rewrite Z.mul_0_r, Z.pow_0_r, Z.div_1_r. done.
  - cbn [le_bytes]. unfold byte_at. replace (Z.to_nat j) with (S (Z.to_nat (j - 1))) by lia.
    cbn [nth]. fold (byte_at (le_bytes n (x / 2 ^ 8)) (j - 1)). rewrite IH by lia.
    rewrite Z.div_div by lia. do 2 f_equal.
    replace (8 * j) with (8 + 8 * (j - 1)) by lia. by rewrite Z.pow_add_r by lia.
Qed.

Lemma words_byte_at ws i j :
  (i < length ws)%nat -> 0 <= j < 4 ->
  byte_at (words_to_bytes ws) (4 * Z.of_nat i + j) = (nth i ws 0 / 2 ^ (8 * j)) mod 2 ^ 8.
Proof.
  revert i. induction ws as [|w ws IH]; intros [|i] Hi Hj; cbn in Hi; try lia;
    rewrite words_to_bytes_cons; unfold byte_at.
  - rewrite app_nth1 by (rewrite le_bytes_length; lia). cbn [nth].
    rewrite <- le_bytes_byte_at with (n := 4%nat) by lia. done.
  - rewrite app_nth2 by (rewrite le_bytes_length; lia). rewrite le_bytes_length. cbn [nth].
    rewrite <- IH by lia. unfold byte_at. f_equal. lia.
Qed.

(** A 32-bit word is determined by its four bytes. *)
Lemma word_eq_bytes x y :
  is_u32 x -> is_u32 y ->
  (forall j, 0 <= j < 4 -> (x / 2 ^ (8 * j)) mod 2 ^ 8 = (y / 2 ^ (8 * j)) mod 2 ^ 8) ->
  x = y.
Proof.
  intros Hx Hy H. rewrite <- (Z.mod_small x (2 ^ 32)), <- (Z.mod_small y (2 ^ 32)) by done.
  change 32 with (8 * Z.of_nat 4). rewrite <- !le_word_le_bytes. f_equal.
  apply list_eq_same_length with 4%nat; [apply le_bytes_length..|].
  intros i a b Hi Ha Hb.
  apply (nth_lookup_Some _ _ 0) in Ha. apply (nth_lookup_Some _ _ 0) in Hb.
  specialize (H (Z.of_nat i) ltac:(lia)).
  rewrite <- !(le_bytes_byte_at 4) in H by lia. unfold byte_at in H. rewrite Nat2Z.id in H. congruence.
Qed.

(** The two high bytes of a 16-bit value are clear. *)
Lemma small_high_bytes x j : 0 <= x < 2 ^ 16 -> 2 <= j < 4 -> (x / 2 ^ (8 * j)) mod 2 ^ 8 = 0.
Proof.
  intros Hx Hj. rewrite Z.div_small; [done|].
  assert (2 ^ 16 <= 2 ^ (8 * j)) by (apply Z.pow_le_mono_r; lia). lia.
Qed.

#[export] Hint Resolve le_bytes_ok words_to_bytes_ok GetU32Le_range GetU16Le_range : ota.

(** ** Big-endian numbers *)

(** A number, its first byte the most significant. *)
Definition be_number (bs : list Z) : Z := fold_left (fun a b => a * 2 ^ 8 + b) bs 0.

Lemma be_number_app a b : be_number (a ++ b) = be_number a * 2 ^ (8 * len b) + be_number b.
Proof.
  unfold be_number. rewrite fold_left_app. generalize (fold_left (fun x y => x * 2 ^ 8 + y) a 0).
  induction b as [|x b IH] using rev_ind; intros acc; [cbn; lia|].
  rewrite !fold_left_app, length_app. cbn [fold_left]. rewrite IH. cbn [length].
  rewrite Nat2Z.inj_add, Z.mul_add_distr_l, Z.pow_add_r by lia. change (2 ^ (8 * Z.of_nat 1)) with (2 ^ 8). ring.
Qed.

(** The shifts of the source build the big-endian number. *)
Lemma be_number_2 b0 b1 :
  is_byte b0 -> is_byte b1 -> Z.lor (Z.shiftl b0 8) b1 = be_number [b0; b1].
Proof.
  intros H0 H1. rewrite Z.lor_comm, lor_disjoint_add by (done || lia).
  unfold be_number. cbn [fold_left]. lia.
Qed.

Lemma be_number_4 b0 b1 b2 b3 :
  is_byte b0 -> is_byte b1 -> is_byte b2 -> is_byte b3 ->
  Z.lor (Z.lor (Z.lor (Z.shiftl b0 24) (Z.shiftl b1 16)) (Z.shiftl b2 8)) b3 =
  be_number [b0; b1; b2; b3].
Proof.
  unfold is_byte. intros H0 H1 H2 H3.
  rewrite (Z.lor_comm (Z.shiftl b0 24)), (lor_disjoint_add (Z.shiftl b1 16)) by (rewrite ?Z.shiftl_mul_pow2; lia).
  replace (Z.shiftl b1 16 + b0 * 2 ^ 24) with (Z.shiftl (b1 + b0 * 2 ^ 8) 16)
    by (rewrite !Z.shiftl_mul_pow2; lia).
  rewrite (Z.lor_comm (Z.shiftl _ 16)), lor_disjoint_add by (rewrite ?Z.shiftl_mul_pow2; lia).
  replace (Z.shiftl b2 8 + (b1 + b0 * 2 ^ 8) * 2 ^ 16)
    with (Z.shiftl (b2 + (b1 + b0 * 2 ^ 8) * 2 ^ 8) 8) by (rewrite !Z.shiftl_mul_pow2; lia).
  rewrite Z.lor_comm, lor_disjoint_add by lia. unfold be_number. cbn [fold_left]. lia.
Qed.
