(* ===== verification/MemoryMap.v ===== *)
(** * MemoryMap: shared/include/memory_map.h and shared/src/ext_flash_layout.c

    Internal flash, SRAM and W25Q layout.  The constants are plain numbers; the
    lemmas after them record the arithmetic facts the components rely on, and
    the range tests of the external flash follow. *)

From S2P Require Import Prelude.

Definition INTERNAL_FLASH_BASE : Z := 0x08000000.
Definition INTERNAL_SRAM_BASE : Z := 0x20000000.
Definition INTERNAL_SRAM_SIZE : Z := 20 * 1024.
Definition INTERNAL_SRAM_END : Z := INTERNAL_SRAM_BASE + INTERNAL_SRAM_SIZE.
Definition INTERNAL_FLASH_END : Z := 0x0800FFFF.
Definition INTERNAL_FLASH_PAGE_SIZE : Z := 1 * 1024.

Definition BOOTLOADER_START_ADDRESS : Z := 0x08000000.
Definition BOOTLOADER_MAX_SIZE : Z := 24 * 1024.

Definition APPLICATION_START_ADDRESS : Z := 0x08006000.
Definition APPLICATION_MAX_SIZE : Z := 38 * 1024.
Definition APPLICATION_END_ADDRESS : Z :=
  APPLICATION_START_ADDRESS + APPLICATION_MAX_SIZE.

Definition BOOT_METADATA_A_ADDRESS : Z := 0x0800F800.
Definition BOOT_METADATA_B_ADDRESS : Z := 0x0800FC00.
Definition BOOT_METADATA_SLOT_SIZE : Z := INTERNAL_FLASH_PAGE_SIZE.
Definition BOOT_METADATA_ADDRESS : Z := BOOT_METADATA_A_ADDRESS.
Definition BOOT_METADATA_SIZE : Z := 2 * INTERNAL_FLASH_PAGE_SIZE.
Definition BOOT_METADATA_END_ADDRESS : Z := 0x08010000.

Definition EXT_FLASH_SIZE : Z := 0x400000.
Definition EXT_FLASH_SECTOR_SIZE : Z := 0x1000.
Definition EXT_FLASH_PAGE_SIZE : Z := 0x0100.
Definition EXT_METADATA_A_ADDRESS : Z := 0x000000.
Definition EXT_METADATA_B_ADDRESS : Z := 0x001000.
Definition EXT_METADATA_HANDOFF_OFFSET : Z := 0x0000.
Definition EXT_METADATA_DOWNLOAD_OFFSET : Z := 0x0100.
Definition EXT_INCOMING_ADDRESS : Z := 0x002000.
Definition EXT_INCOMING_SIZE : Z := 0x020000.
Definition EXT_RECONSTRUCTED_ADDRESS : Z := 0x022000.
Definition EXT_RECONSTRUCTED_SIZE : Z := 0x020000.
Definition EXT_BACKUP_ADDRESS : Z := 0x042000.
Definition EXT_BACKUP_SIZE : Z := 0x020000.
Definition EXT_LOG_ADDRESS : Z := 0x062000.
Definition EXT_LOG_SIZE : Z := 0x010000.

Definition EXT_SELF_TEST_ADDRESS : Z := EXT_FLASH_SIZE - EXT_FLASH_SECTOR_SIZE.
Definition EXT_SELF_TEST_SIZE : Z := EXT_FLASH_SECTOR_SIZE.

(** ** Regions of the internal flash *)

(** The 38 KiB application region. *)
Definition in_application (a : Z) : Prop :=
  APPLICATION_START_ADDRESS <= a < APPLICATION_END_ADDRESS.

(** The two boot-metadata pages. *)
Definition in_boot_metadata (a : Z) : Prop :=
  BOOT_METADATA_A_ADDRESS <= a < BOOT_METADATA_END_ADDRESS.

(** Unfold every constant of the map, for [lia]. *)
Ltac unfold_map := unfold in_application, in_boot_metadata,
  EXT_SELF_TEST_SIZE, EXT_SELF_TEST_ADDRESS,
  INTERNAL_SRAM_END, INTERNAL_SRAM_BASE, INTERNAL_SRAM_SIZE,
  APPLICATION_END_ADDRESS, APPLICATION_START_ADDRESS, APPLICATION_MAX_SIZE,
  BOOT_METADATA_ADDRESS, BOOT_METADATA_A_ADDRESS, BOOT_METADATA_B_ADDRESS,
  BOOT_METADATA_END_ADDRESS, BOOT_METADATA_SLOT_SIZE, INTERNAL_FLASH_PAGE_SIZE,
  EXT_FLASH_SIZE, EXT_FLASH_SECTOR_SIZE, EXT_FLASH_PAGE_SIZE,
  EXT_METADATA_A_ADDRESS, EXT_METADATA_B_ADDRESS, EXT_METADATA_HANDOFF_OFFSET,
  EXT_METADATA_DOWNLOAD_OFFSET, EXT_INCOMING_ADDRESS, EXT_INCOMING_SIZE,
  EXT_RECONSTRUCTED_ADDRESS, EXT_RECONSTRUCTED_SIZE, EXT_BACKUP_ADDRESS,
  EXT_BACKUP_SIZE, EXT_LOG_ADDRESS, EXT_LOG_SIZE in *.

(** Arithmetic goals about the map. *)
Ltac map_lia := unfold_map; lia.

(** The metadata pages lie above the application region. *)
Lemma application_metadata_disjoint a : in_application a -> in_boot_metadata a -> False.
Proof. map_lia. Qed.

(** The alignment tests of the sources are remainders. *)
Lemma flash_page_mask x :
  Z.land x (INTERNAL_FLASH_PAGE_SIZE - 1) = x mod INTERNAL_FLASH_PAGE_SIZE.
Proof. exact (land_mask x 10 ltac:(lia)). Qed.

Lemma sector_mask x : Z.land x (EXT_FLASH_SECTOR_SIZE - 1) = x mod EXT_FLASH_SECTOR_SIZE.
Proof. exact (land_mask x 12 ltac:(lia)). Qed.

Lemma ext_page_mask x : Z.land x (EXT_FLASH_PAGE_SIZE - 1) = x mod EXT_FLASH_PAGE_SIZE.
Proof. exact (land_mask x 8 ltac:(lia)). Qed.

#[export] Hint Rewrite flash_page_mask sector_mask ext_page_mask : ota_word.

(** ** shared/src/ext_flash_layout.c

    Range and alignment tests of the external flash, and the split of a write
    at 256-byte page boundaries. *)

Definition ExtFlash_IsRangeValid (region_size offset length : Z) : bool :=
  if region_size <? offset then false
  else length <=? u32 (region_size - offset).

Definition ExtFlash_IsAbsoluteRangeValid (address length : Z) : bool :=
  ExtFlash_IsRangeValid EXT_FLASH_SIZE address length.

Definition ExtFlash_IsSectorAligned (address : Z) : bool :=
  Z.land address (EXT_FLASH_SECTOR_SIZE - 1) =? 0.

Definition ExtFlash_PageChunkLength (address remaining_length : Z) : Z :=
  let page_offset := Z.land address (EXT_FLASH_PAGE_SIZE - 1) in
  let page_remaining := u32 (EXT_FLASH_PAGE_SIZE - page_offset) in
  if remaining_length <? page_remaining then remaining_length else page_remaining.

(** The range test has no wrap-around hole: it is exactly containment. *)
Lemma ExtFlash_IsRangeValid_spec size offset length :
  is_u32 size -> 0 <= offset ->
  ExtFlash_IsRangeValid size offset length = true <-> offset <= size /\ offset + length <= size.
Proof.
  intros Hs Ho. unfold ExtFlash_IsRangeValid. unfold is_u32 in Hs.
  destruct (Z.ltb_spec size offset); [split; [done|lia]|].
  rewrite u32_small by (unfold is_u32; lia). rewrite Z.leb_le. lia.
Qed.

Lemma ExtFlash_IsAbsoluteRangeValid_spec address length :
  0 <= address -> 0 <= length ->
  ExtFlash_IsAbsoluteRangeValid address length = true <-> address + length <= EXT_FLASH_SIZE.
Proof.
  intros. unfold ExtFlash_IsAbsoluteRangeValid.
  rewrite ExtFlash_IsRangeValid_spec by (unfold is_u32; map_lia). lia.
Qed.

Lemma ExtFlash_IsSectorAligned_spec address :
  ExtFlash_IsSectorAligned address = true <-> address mod EXT_FLASH_SECTOR_SIZE = 0.
Proof. unfold ExtFlash_IsSectorAligned. rewrite sector_mask. apply Z.eqb_eq. Qed.

Lemma ExtFlash_PageChunkLength_eq address remaining :
  ExtFlash_PageChunkLength address remaining =
  Z.min remaining (EXT_FLASH_PAGE_SIZE - address mod EXT_FLASH_PAGE_SIZE).
Proof.
  unfold ExtFlash_PageChunkLength. cbv zeta. rewrite ext_page_mask.
  pose proof (Z.mod_pos_bound address EXT_FLASH_PAGE_SIZE ltac:(map_lia)).
  rewrite u32_small by (unfold is_u32; map_lia).
  destruct (Z.ltb_spec remaining (EXT_FLASH_PAGE_SIZE - address mod EXT_FLASH_PAGE_SIZE)); lia.
Qed.

(** A chunk makes progress, fits what remains, and stays in one page. *)
Lemma ExtFlash_PageChunkLength_bounds address remaining :
  0 < remaining ->
  let chunk := ExtFlash_PageChunkLength address remaining in
  1 <= chunk <= remaining /\
  address mod EXT_FLASH_PAGE_SIZE + chunk <= EXT_FLASH_PAGE_SIZE.
Proof.
  intros Hr chunk. subst chunk. rewrite ExtFlash_PageChunkLength_eq.
  pose proof (Z.mod_pos_bound address EXT_FLASH_PAGE_SIZE ltac:(map_lia)). lia.
Qed.
