(* ===== verification/Crc32.v ===== *)
(** * Crc32: shared/src/crc32.c

    The bitwise reflected CRC-32 every record, packet and image is checked
    with, and the algebra that makes the check mean something: the update is
    linear over exclusive or, injective in the running register, composes over
    chunks, and therefore detects every error confined to four consecutive
    bytes. *)

From S2P Require Import Prelude Bytes.

Definition CRC32_IEEE_INITIAL_VALUE : Z := 0xFFFFFFFF.
Definition CRC32_IEEE_FINAL_XOR : Z := 0xFFFFFFFF.
Definition CRC32_IEEE_REVERSED_POLYNOMIAL : Z := 0xEDB88320.

(** One iteration of the inner loop: [mask] is 0 or all ones. *)
Definition crc32_bit (crc : Z) : Z :=
  let mask := u32 (0 - Z.land crc 1) in
  Z.lxor (Z.shiftr crc 1) (Z.land CRC32_IEEE_REVERSED_POLYNOMIAL mask).

(** One iteration of the outer loop. *)
Definition crc32_byte (crc b : Z) : Z := Nat.iter 8 crc32_bit (Z.lxor crc b).

(** [None] is a null [data] pointer. *)
Definition Crc32_Update (running_crc : Z) (data : option (list Z)) (length : Z) : Z :=
  match data with
  | None => running_crc
  | Some bytes => fold_left crc32_byte (take (Z.to_nat length) bytes) running_crc
  end.

Definition Crc32_Calculate (data : option (list Z)) (length : Z) : Z :=
  let running := Crc32_Update CRC32_IEEE_INITIAL_VALUE data length in
  Z.lxor running CRC32_IEEE_FINAL_XOR.

(** The CRC of a whole buffer. *)
Definition crc_of (bs : list Z) : Z := Crc32_Calculate (Some bs) (len bs).

Lemma crc_of_fold bs :
  crc_of bs = Z.lxor (fold_left crc32_byte bs CRC32_IEEE_INITIAL_VALUE) CRC32_IEEE_FINAL_XOR.
Proof. unfold crc_of, Crc32_Calculate, Crc32_Update. by rewrite Nat2Z.id, firstn_all. Qed.

(** ** The bit step *)

Lemma crc32_bit_alt s :
  crc32_bit s = Z.lxor (Z.shiftr s 1) (if Z.odd s then CRC32_IEEE_REVERSED_POLYNOMIAL else 0).
Proof.
  unfold crc32_bit. change 1 with (2 ^ 1 - 1) at 2. rewrite land_mask by lia.
  change (2 ^ 1) with 2. rewrite Zmod_odd. by destruct (Z.odd s).
Qed.

Lemma crc32_bit_range s : is_u32 s -> is_u32 (crc32_bit s).
Proof.
  intros H. rewrite crc32_bit_alt. apply lxor_u32; [by apply shiftr_u32|].
  destruct (Z.odd s); vm_compute; split; congruence.
Qed.

Lemma crc32_bit_lxor a b : crc32_bit (Z.lxor a b) = Z.lxor (crc32_bit a) (crc32_bit b).
Proof.
  rewrite !crc32_bit_alt, Z.shiftr_lxor.
  rewrite <- !Z.bit0_odd, Z.lxor_spec.
  destruct (Z.testbit a 0), (Z.testbit b 0); cbn [xorb]; apply Z.bits_inj'; intros i _;
    rewrite !Z.lxor_spec, ?Z.bits_0;
    destruct (Z.testbit (Z.shiftr a 1) i), (Z.testbit (Z.shiftr b 1) i);
    destruct (Z.testbit CRC32_IEEE_REVERSED_POLYNOMIAL i); done.
Qed.

Lemma crc32_bit_zero s : is_u32 s -> crc32_bit s = 0 -> s = 0.
Proof.
  intros Hs. rewrite crc32_bit_alt, Z.shiftr_div_pow2 by lia. change (2 ^ 1) with 2.
  unfold is_u32 in Hs. intros H. apply Z.lxor_eq in H.
  pose proof (Z.div_mod s 2 ltac:(lia)) as Hd. rewrite Zmod_odd in Hd.
  unfold CRC32_IEEE_REVERSED_POLYNOMIAL in H. destruct (Z.odd s); lia.
Qed.

(** A register whose low bit is clear is only shifted. *)
Lemma crc32_bit_double y : crc32_bit (2 * y) = y.
Proof.
  rewrite crc32_bit_alt, Z.odd_mul. cbn [Z.odd andb]. rewrite Z.lxor_0_r.
  rewrite Z.shiftr_div_pow2 by lia. change (2 ^ 1) with 2. rewrite Z.mul_comm.
  apply Z.div_mul. lia.
Qed.

Lemma crc32_byte_eq s b : crc32_byte s b = Nat.iter 8 crc32_bit (Z.lxor s b).
Proof. done. Qed.

(** The bit step mentions the register twice: keep it folded in proofs. *)
#[global] Opaque crc32_bit crc32_byte.

Section iterated.
Implicit Types n : nat.

Lemma iter_bit_range n s : is_u32 s -> is_u32 (Nat.iter n crc32_bit s).
Proof. intros. apply Nat.iter_invariant; auto using crc32_bit_range. Qed.

Lemma iter_bit_lxor n a b :
  Nat.iter n crc32_bit (Z.lxor a b) =
  Z.lxor (Nat.iter n crc32_bit a) (Nat.iter n crc32_bit b).
Proof.
  induction n as [|n IH]; [done|].
  by rewrite !Nat.iter_succ, IH, crc32_bit_lxor.
Qed.

Lemma iter_bit_zero n s : is_u32 s -> Nat.iter n crc32_bit s = 0 -> s = 0.
Proof.
  intros Hs. induction n as [|n IH]; [done|]. rewrite Nat.iter_succ.
  intros H. apply IH, crc32_bit_zero; [|done]. by apply iter_bit_range.
Qed.

Lemma iter_bit_shift n y : Nat.iter n crc32_bit (2 ^ Z.of_nat n * y) = y.
Proof.
  revert y. induction n as [|n IH]; intros y; [cbn; lia|].
  replace (2 ^ Z.of_nat (S n) * y) with (2 ^ Z.of_nat n * (2 * y)).
  2:{ rewrite Nat2Z.inj_succ, Z.pow_succ_r by lia. lia. }
  rewrite Nat.iter_succ, IH. apply crc32_bit_double.
Qed.
End iterated.

(** ** The byte step and the whole update *)

Lemma byte_u32 b : is_byte b -> is_u32 b.
Proof. unfold is_byte, is_u32. lia. Qed.

Lemma crc32_byte_range s b : is_u32 s -> is_byte b -> is_u32 (crc32_byte s b).
Proof. intros. rewrite crc32_byte_eq. apply iter_bit_range, lxor_u32; [done|]. by apply byte_u32. Qed.

Lemma crc_fold_range bs s :
  is_u32 s -> bytes_ok bs -> is_u32 (fold_left crc32_byte bs s).
Proof.
  intros Hs Hbs. revert s Hs. induction Hbs as [|b bs Hb _ IH]; intros; [done|].
  rewrite fold_left_cons. apply IH. by apply crc32_byte_range.
Qed.

Lemma initial_u32 : is_u32 CRC32_IEEE_INITIAL_VALUE.
Proof. vm_compute. split; congruence. Qed.

Lemma final_u32 : is_u32 CRC32_IEEE_FINAL_XOR.
Proof. vm_compute. split; congruence. Qed.

#[export] Hint Resolve initial_u32 final_u32 crc_fold_range : ota.

Lemma crc32_byte_lxor s t b c :
  Z.lxor (crc32_byte s b) (crc32_byte t c) = crc32_byte (Z.lxor s t) (Z.lxor b c).
Proof.
  rewrite !crc32_byte_eq, <- iter_bit_lxor. f_equal.
  rewrite !Z.lxor_assoc. f_equal. rewrite <- !Z.lxor_assoc. f_equal. apply Z.lxor_comm.
Qed.

(** The register after a window of at most four bytes only depends on the
    exclusive or of the incoming register and the little-endian window. *)
Lemma crc_fold_window ds s :
  (length ds <= 4)%nat -> bytes_ok ds ->
  fold_left crc32_byte ds s = Nat.iter (8 * length ds) crc32_bit (Z.lxor s (le_word ds)).
Proof.
  intros Hl Hds. revert s Hl.
  induction Hds as [|d ds Hd Hds IH]; intros s Hl.
  { cbn. by rewrite Z.lxor_0_r. }
  rewrite fold_left_cons. cbn [le_word length]. rewrite IH by (cbn in Hl; lia). rewrite crc32_byte_eq.
  replace (8 * S (length ds))%nat with (8 * length ds + 8)%nat by lia.
  rewrite Nat.iter_add. f_equal.
  rewrite <- (iter_bit_shift 8 (le_word ds)) at 1.
  rewrite <- iter_bit_lxor. f_equal. rewrite Z.lxor_assoc. f_equal.
  unfold is_byte in Hd. change (2 ^ Z.of_nat 8) with (2 ^ 8).
  assert (Hdisj : Z.land d (2 ^ 8 * le_word ds) = 0).
  { pose proof (lor_disjoint_add d (le_word ds) 8 ltac:(lia) Hd) as H.
    rewrite Z.shiftl_mul_pow2, (Z.mul_comm (le_word ds)) in H by lia.
    pose proof (Z.add_lor_land d (2 ^ 8 * le_word ds)). lia. }
  by rewrite Z.add_nocarry_lxor.
Qed.

(** Equal suffixes keep different registers different. *)
Lemma crc_fold_suffix post s t :
  is_u32 s -> is_u32 t -> bytes_ok post ->
  fold_left crc32_byte post s = fold_left crc32_byte post t -> s = t.
Proof.
  intros Hs Ht Hp. revert s t Hs Ht.
  induction Hp as [|b post Hb _ IH]; intros s t Hs Ht; [done|].
  rewrite !fold_left_cons. intros H. apply IH in H; [|by apply crc32_byte_range..].
  apply Z.lxor_eq, (iter_bit_zero 8); [by apply lxor_u32|].
  assert (Z.lxor (crc32_byte s b) (crc32_byte t b) = 0) as H0 by (rewrite H; apply Z.lxor_nilpotent).
  rewrite crc32_byte_lxor, Z.lxor_nilpotent, crc32_byte_eq, Z.lxor_0_r in H0. done.
Qed.

Lemma crc_fold_burst mid mid' s :
  is_u32 s -> (length mid <= 4)%nat -> length mid = length mid' ->
  bytes_ok mid -> bytes_ok mid' ->
  fold_left crc32_byte mid s = fold_left crc32_byte mid' s -> mid = mid'.
Proof.
  intros Hs Hl Hll Hm Hm' H.
  assert (forall ds, bytes_ok ds -> (length ds <= 4)%nat -> is_u32 (le_word ds)) as Hw.
  { intros ds Hds Hl4. pose proof (le_word_bound ds Hds). unfold is_u32.
    assert (2 ^ (8 * len ds) <= 2 ^ 32) by (apply Z.pow_le_mono_r; lia). lia. }
  rewrite !crc_fold_window, <- Hll in H by (done || lia).
  apply le_word_inj; [done..|].
  apply Z.lxor_eq, (iter_bit_zero (8 * length mid)).
  { apply lxor_u32; apply Hw; (done || lia). }
  assert (Z.lxor (le_word mid) (le_word mid') =
          Z.lxor (Z.lxor s (le_word mid)) (Z.lxor s (le_word mid'))) as ->.
  { apply Z.bits_inj'. intros i _. rewrite !Z.lxor_spec.
    by destruct (Z.testbit s i), (Z.testbit (le_word mid) i), (Z.testbit (le_word mid') i). }
  rewrite iter_bit_lxor, H. apply Z.lxor_nilpotent.
Qed.

Lemma crc_of_range bs : bytes_ok bs -> is_u32 (crc_of bs).
Proof. intros. rewrite crc_of_fold. apply lxor_u32; auto with ota. Qed.

#[export] Hint Resolve crc_of_range : ota.

(** Chunked computation: the register after a prefix continues the buffer. *)
Lemma Crc32_Update_app s a b :
  Crc32_Update (Crc32_Update s (Some a) (len a)) (Some b) (len b) =
  Crc32_Update s (Some (a ++ b)) (len (a ++ b)).
Proof. unfold Crc32_Update. by rewrite !Nat2Z.id, !firstn_all, fold_left_app. Qed.

(** A CRC over a prefix of a buffer. *)
Lemma Crc32_Calculate_prefix a b n :
  len a = n -> Crc32_Calculate (Some (a ++ b)) n = crc_of a.
Proof.
  intros <-. unfold crc_of, Crc32_Calculate, Crc32_Update.
  by rewrite Nat2Z.id, take_app_length, firstn_all.
Qed.

(** Equal CRCs of two messages that differ only in four consecutive bytes. *)
Lemma crc_of_burst pre mid mid' post :
  bytes_ok (pre ++ mid ++ post) -> bytes_ok mid' ->
  (length mid <= 4)%nat -> length mid = length mid' ->
  crc_of (pre ++ mid ++ post) = crc_of (pre ++ mid' ++ post) -> mid = mid'.
Proof.
  rewrite !Forall_app. intros (Hpre & Hmid & Hpost) Hmid' Hl Hll Heq.
  rewrite !crc_of_fold, !fold_left_app in Heq.
  apply lxor_cancel_r, crc_fold_suffix in Heq; [|eauto 7 with ota..].
  eapply crc_fold_burst; [..|exact Heq]; eauto with ota.
Qed.

(** The CRC of any message followed by its own CRC. *)
Definition crc_residue : Z := crc_of (le_bytes 4 (crc_of [])).

Lemma crc_of_residue bs : bytes_ok bs -> crc_of (bs ++ le_bytes 4 (crc_of bs)) = crc_residue.
Proof.
  assert (forall bs, bytes_ok bs -> crc_of (bs ++ le_bytes 4 (crc_of bs)) =
    Z.lxor (Nat.iter 32 crc32_bit CRC32_IEEE_FINAL_XOR) CRC32_IEEE_FINAL_XOR) as H.
  { intros cs Hcs. rewrite crc_of_fold, fold_left_app, crc_fold_window by (done || apply le_bytes_ok).
    rewrite le_word_le_bytes, Z.mod_small by (by apply crc_of_range).
    change (8 * length (le_bytes 4 (crc_of cs)))%nat with 32%nat.
    rewrite crc_of_fold, <- Z.lxor_assoc, Z.lxor_nilpotent, Z.lxor_0_l. reflexivity. }
  intros Hbs. rewrite H by done. symmetry. apply (H []). constructor.
Qed.

(** So a burst of at most four bytes never turns one checked message into
    another. *)
Lemma crc_residue_burst a b pre mid mid' post :
  bytes_ok a -> bytes_ok b ->
  a ++ le_bytes 4 (crc_of a) = pre ++ mid ++ post ->
  b ++ le_bytes 4 (crc_of b) = pre ++ mid' ++ post ->
  (length mid <= 4)%nat -> length mid = length mid' -> mid = mid'.
Proof.
  intros Ha Hb Ea Eb Hl Hll.
  assert (bytes_ok (pre ++ mid ++ post) /\ bytes_ok (pre ++ mid' ++ post)) as [Hm Hm'].
  { rewrite <- Ea, <- Eb. split; apply Forall_app_2; (done || apply le_bytes_ok). }
  eapply crc_of_burst; [exact Hm|by rewrite !Forall_app in Hm'; destruct Hm' as (_ & ? & _)|done|done|].
  rewrite <- Ea, <- Eb. by rewrite !crc_of_residue.
Qed.

(** ** Properties *)

(** Two messages of equal length that differ only inside four consecutive
    bytes have different CRCs. *)
Theorem Crc32_detects_burst (pre mid mid' post : list Z) :
  bytes_ok (pre ++ mid ++ post) -> bytes_ok mid' ->
  (length mid <= 4)%nat -> length mid = length mid' -> mid <> mid' ->
  Crc32_Calculate (Some (pre ++ mid ++ post)) (len (pre ++ mid ++ post)) <>
  Crc32_Calculate (Some (pre ++ mid' ++ post)) (len (pre ++ mid' ++ post)).
Proof.
  intros Hok Hmid' Hl Hll Hne Heq. apply Hne. exact (crc_of_burst _ _ _ _ Hok Hmid' Hl Hll Heq).
Qed.

Lemma Crc32_detects_burst_witness :
  Crc32_Calculate (Some ([1] ++ [2; 3] ++ [4])) (len ([1] ++ [2; 3] ++ [4])) <>
  Crc32_Calculate (Some ([1] ++ [2; 255] ++ [4])) (len ([1] ++ [2; 255] ++ [4])).
Proof.
  apply (Crc32_detects_burst [1] [2; 3] [2; 255] [4]);
    [repeat constructor; vm_compute; congruence..| | |discriminate]; vm_compute; lia.
Defined.
