(* ===== verification/AbRecord.v ===== *)
(** * AbRecord: what every persistent record promises

    Boot metadata, install handoff, download checkpoint and backup header are
    packed structs of 32-bit fields: a magic first, a CRC-32 of everything
    before it last.  [Record32] is that contract; the first three also live in
    two redundant slots selected by generation, which is [AbRecord].  The
    record files discharge the two classes, the storage files use them. *)

From S2P Require Import Prelude Bytes Crc32.

(** The three slot enums of the sources: none, A, B. *)
Inductive AbSlot := SLOT_NONE | SLOT_A | SLOT_B.

#[export] Instance AbSlot_eq : EqDecision AbSlot.
Proof. solve_decision. Defined.

Class Record32 (R : Type) := {
  rec_words : nat;
  rec_magic : Z;
  rec_fields : R -> list Z;
  rec_of_fields : list Z -> R;
  rec_validb : R -> bool;

  rec_fields_length : forall r, length (rec_fields r) = rec_words;
  rec_of_fields_fields : forall r, rec_of_fields (rec_fields r) = r;
  rec_fields_of_fields : forall ws,
    length ws = rec_words -> rec_fields (rec_of_fields ws) = ws;
  (** The lowest magic byte differs from that of an erased cell. *)
  rec_magic_programmed : rec_magic mod 2 ^ 8 <> 0xFF;
  rec_valid_magic : forall r, rec_validb r = true -> hd 0 (rec_fields r) = rec_magic;
  rec_valid_crc : forall r, rec_validb r = true ->
    exists ws, rec_fields r = ws ++ [crc_of (words_to_bytes ws)]
}.

(** The CRC a record computes over its leading words. *)
Lemma crc_words_prefix ws n :
  (n <= length ws)%nat ->
  Crc32_Calculate (Some (words_to_bytes ws)) (4 * Z.of_nat n) = crc_of (words_to_bytes (take n ws)).
Proof.
  intros Hn. rewrite <- (take_drop n ws) at 1. rewrite words_to_bytes_app.
  apply Crc32_Calculate_prefix. rewrite words_to_bytes_length, length_take. lia.
Qed.

Section record32.
Context {R : Type} {HR : Record32 R}.
Implicit Types r : R.

Definition rec_size : Z := 4 * Z.of_nat rec_words.

(** The bytes of a record in memory, and the record in some bytes. *)
Definition rec_encode r : list Z := words_to_bytes (rec_fields r).
Definition rec_decode (bs : list Z) : R := rec_of_fields (bytes_to_words rec_words bs).

(** Every field is a [uint32_t]. *)
Definition rec_wf r : Prop := words_ok (rec_fields r).

Lemma rec_encode_length r : len (rec_encode r) = rec_size.
Proof. unfold rec_encode, rec_size. rewrite words_to_bytes_length, rec_fields_length. lia. Qed.

Lemma rec_encode_ok r : bytes_ok (rec_encode r).
Proof. apply words_to_bytes_ok. Qed.

Lemma rec_decode_encode r : rec_wf r -> rec_decode (rec_encode r) = r.
Proof.
  intros H. unfold rec_decode, rec_encode.
  rewrite <- (rec_fields_length r), bytes_to_words_to_bytes by done.
  apply rec_of_fields_fields.
Qed.

Lemma rec_encode_decode bs :
  bytes_ok bs -> len bs = rec_size -> rec_encode (rec_decode bs) = bs.
Proof.
  unfold rec_size. intros Hok Hl. unfold rec_encode, rec_decode.
  rewrite rec_fields_of_fields by apply bytes_to_words_length.
  apply words_to_bytes_to_words; [done|lia].
Qed.

Lemma rec_decode_wf bs : bytes_ok bs -> len bs = rec_size -> rec_wf (rec_decode bs).
Proof.
  unfold rec_size. intros Hok Hl. unfold rec_wf, rec_decode.
  rewrite rec_fields_of_fields by apply bytes_to_words_length.
  apply bytes_to_words_ok; [done|lia].
Qed.

(** The CRC register after a record that ends in its own CRC is a constant. *)
Definition crc_residue : Z := Nat.iter 32 crc32_bit CRC32_IEEE_FINAL_XOR.

Lemma crc_fold_residue ws :
  fold_left crc32_byte (words_to_bytes (ws ++ [crc_of (words_to_bytes ws)]))
    CRC32_IEEE_INITIAL_VALUE = crc_residue.
Proof.
  rewrite words_to_bytes_app, fold_left_app.
  set (s := fold_left crc32_byte (words_to_bytes ws) CRC32_IEEE_INITIAL_VALUE).
  rewrite words_to_bytes_cons. change (words_to_bytes []) with (@nil Z). rewrite app_nil_r.
  rewrite crc_fold_window, le_word_le_bytes, le_bytes_length by (apply le_bytes_ok || by rewrite le_bytes_length).
  rewrite Z.mod_small by (apply crc_of_range, words_to_bytes_ok).
  rewrite crc_of_fold. fold s. unfold crc_residue. f_equal.
  by rewrite <- Z.lxor_assoc, Z.lxor_nilpotent, Z.lxor_0_l.
Qed.

Lemma rec_valid_residue r :
  rec_validb r = true ->
  fold_left crc32_byte (rec_encode r) CRC32_IEEE_INITIAL_VALUE = crc_residue.
Proof.
  intros H. destruct (rec_valid_crc r H) as [ws Hws]. unfold rec_encode.
  rewrite Hws. apply crc_fold_residue.
Qed.

(** No two valid records differ only inside four consecutive bytes, the CRC
    field included. *)
Lemma rec_burst r r' pre mid mid' post :
  rec_validb r = true -> rec_validb r' = true ->
  rec_encode r = pre ++ mid ++ post -> rec_encode r' = pre ++ mid' ++ post ->
  length mid = length mid' -> (length mid <= 4)%nat -> mid = mid'.
Proof.
  intros Hr Hr' He He' Hll Hl.
  pose proof (rec_encode_ok r) as Hok. pose proof (rec_encode_ok r') as Hok'.
  apply rec_valid_residue in Hr, Hr'. rewrite He in *. rewrite He' in *.
  rewrite !Forall_app in Hok, Hok'. destruct_and!.
  rewrite !fold_left_app in Hr, Hr'. rewrite <- Hr' in Hr.
  apply crc_fold_suffix in Hr; [|eauto 7 with ota..].
  eapply crc_fold_burst; [..|exact Hr]; eauto with ota.
Qed.

Lemma rec_fields_cons r : rec_validb r = true -> exists ws, rec_fields r = rec_magic :: ws.
Proof.
  intros H. pose proof (rec_valid_magic r H) as Hm.
  destruct (rec_valid_crc r H) as [ws Hws].
  destruct (rec_fields r) as [|w ws']; [by destruct ws|]. cbn in Hm. subst. eauto.
Qed.

(** A valid record starts with the lowest byte of the magic. *)
Lemma rec_valid_first_byte r :
  rec_validb r = true -> hd 0 (rec_encode r) = rec_magic mod 2 ^ 8.
Proof. intros H. unfold rec_encode. by destruct (rec_fields_cons r H) as [ws ->]. Qed.

Lemma rec_erased_invalid bs :
  bytes_ok bs -> len bs = rec_size -> hd 0 bs = 0xFF -> rec_validb (rec_decode bs) = false.
Proof.
  intros Hok Hl Hh. apply not_true_iff_false. intros H.
  apply rec_valid_first_byte in H. rewrite rec_encode_decode in H by done.
  pose proof rec_magic_programmed. congruence.
Qed.

End record32.

#[export] Hint Resolve rec_encode_ok : ota.

(** The byte-wise comparison every storage file does on two records. *)
Fixpoint bytes_equal (a b : list Z) : bool :=
  match a, b with
  | [], [] => true
  | x :: a, y :: b => if x <>? y then false else bytes_equal a b
  | _, _ => false
  end.

Definition RecordsEqual {R} {HR : Record32 R} (left right : R) : bool :=
  bytes_equal (rec_encode left) (rec_encode right).

Lemma bytes_equal_spec a b : bytes_equal a b = true <-> a = b.
Proof.
  revert b. induction a as [|x a IH]; intros [|y b]; cbn; try done.
  destruct (Z.eqb_spec x y) as [->|Hne]; cbn; [rewrite IH|split; [done|by intros [= ]]].
  split; [by intros ->|by intros [= ->]].
Qed.

Lemma RecordsEqual_spec {R} {HR : Record32 R} (a b : R) :
  rec_wf a -> rec_wf b -> RecordsEqual a b = true <-> a = b.
Proof.
  intros Ha Hb. unfold RecordsEqual. rewrite bytes_equal_spec. split; [|by intros ->].
  intros H. by rewrite <- (rec_decode_encode a Ha), H, rec_decode_encode.
Qed.

(** ** Two slots and generations *)

Class AbRecord (R : Type) {HR : Record32 R} := {
  rec_generation : R -> Z;
  (** The copy a commit prepares: new generation, magic, version, CRC. *)
  rec_candidate : Z -> R -> R;
  rec_generation_newer : Z -> Z -> bool;
  rec_next_generation : Z -> Z;
  rec_select_newest : R -> R -> AbSlot;
  rec_select_write_slot : R -> R -> AbSlot;

  rec_valid_generation : forall r, rec_validb r = true -> rec_generation r <> 0;
  rec_generation_wf : forall r, rec_wf r -> is_u32 (rec_generation r);
  rec_candidate_generation : forall g r, rec_generation (rec_candidate g r) = g;
  rec_candidate_wf : forall g r, is_u32 g -> rec_wf r -> rec_wf (rec_candidate g r);
  rec_newer_spec : forall candidate reference,
    rec_generation_newer candidate reference = true <->
    0 < u32 (candidate - reference) < 0x80000000;
  rec_next_spec : forall g,
    rec_next_generation g = (if u32 (g + 1) =? 0 then 1 else u32 (g + 1));
  rec_newest_spec : forall a b,
    rec_select_newest a b =
      match rec_validb a, rec_validb b with
      | false, false => SLOT_NONE
      | false, true => SLOT_B
      | true, false => SLOT_A
      | true, true =>
          if rec_generation_newer (rec_generation b) (rec_generation a)
          then SLOT_B else SLOT_A
      end;
  rec_write_slot_spec : forall a b,
    rec_select_write_slot a b =
      match rec_select_newest a b with SLOT_A => SLOT_B | _ => SLOT_A end
}.

Section ab_record.
Context {R : Type} {HR : Record32 R} {HAB : AbRecord R}.
Implicit Types a b r : R.

(** The record the pair of slots stands for. *)
Definition ab_current a b : option R :=
  match rec_select_newest a b with
  | SLOT_NONE => None
  | SLOT_A => Some a
  | SLOT_B => Some b
  end.

(** Writing a record to the slot the selector picks. *)
Definition ab_write a b r : R * R :=
  match rec_select_write_slot a b with
  | SLOT_B => (a, r)
  | _ => (r, b)
  end.

(** The generation a commit starts from. *)
Definition ab_generation a b : Z :=
  match rec_select_newest a b with
  | SLOT_NONE => 0
  | SLOT_A => rec_generation a
  | SLOT_B => rec_generation b
  end.

Lemma rec_newer_next g : is_u32 g -> rec_generation_newer (rec_next_generation g) g = true.
Proof.
  intros Hg. apply rec_newer_spec. rewrite rec_next_spec. unfold u32, is_u32 in *.
  destruct (Z.eq_dec g (2 ^ 32 - 1)) as [->|]; [done|].
  rewrite (Z.mod_small (g + 1)) by lia.
  destruct (Z.eqb_spec (g + 1) 0); [lia|].
  replace (g + 1 - g) with 1 by lia. done.
Qed.

Lemma rec_older_next g : is_u32 g -> rec_generation_newer g (rec_next_generation g) = false.
Proof.
  intros Hg. apply not_true_iff_false. rewrite rec_newer_spec, rec_next_spec.
  unfold u32, is_u32 in *.
  destruct (Z.eq_dec g (2 ^ 32 - 1)) as [->|]; [vm_compute; intros [_ H]; discriminate H|].
  rewrite (Z.mod_small (g + 1)) by lia.
  destruct (Z.eqb_spec (g + 1) 0); [lia|].
  replace (g - (g + 1)) with (-1) by lia. vm_compute; intros [_ H]; discriminate H.
Qed.

Lemma rec_next_range g : is_u32 g -> is_u32 (rec_next_generation g).
Proof.
  intros Hg. rewrite rec_next_spec. destruct (_ =? _); [by vm_compute|]. apply u32_range.
Qed.

Lemma rec_next_nonzero g : rec_next_generation g <> 0.
Proof. rewrite rec_next_spec. destruct (Z.eqb_spec (u32 (g + 1)) 0); lia. Qed.

Lemma ab_generation_range a b : rec_wf a -> rec_wf b -> is_u32 (ab_generation a b).
Proof.
  intros. unfold ab_generation. case_match; [by vm_compute|by apply rec_generation_wf..].
Qed.

(** The slot written is never the current one, and the new record wins. *)
Lemma ab_write_current a b r :
  is_u32 (rec_generation a) -> is_u32 (rec_generation b) ->
  rec_validb r = true -> rec_generation r = rec_next_generation (ab_generation a b) ->
  ab_current (ab_write a b r).1 (ab_write a b r).2 = Some r.
Proof.
  intros Ha Hb Hr Hg. unfold ab_write, ab_generation, ab_current in *.
  rewrite rec_write_slot_spec. rewrite (rec_newest_spec a b) in *.
  destruct (rec_validb a) eqn:Va, (rec_validb b) eqn:Vb;
    try destruct (rec_generation_newer (rec_generation b) (rec_generation a)) eqn:Hn;
    cbn; rewrite rec_newest_spec, ?Hr, ?Va, ?Vb, ?Hg; try done;
    rewrite ?rec_older_next, ?rec_newer_next by done; done.
Qed.

(** While the written slot holds no valid record, the current one still wins. *)
Lemma ab_torn_current a b r :
  rec_validb r = false ->
  ab_current (ab_write a b r).1 (ab_write a b r).2 = ab_current a b.
Proof.
  intros Hr. unfold ab_write, ab_current.
  rewrite rec_write_slot_spec. rewrite (rec_newest_spec a b).
  destruct (rec_validb a) eqn:Va, (rec_validb b) eqn:Vb;
    try destruct (rec_generation_newer (rec_generation b) (rec_generation a)) eqn:Hn;
    cbn; rewrite rec_newest_spec, ?Hr, ?Va, ?Vb; done.
Qed.

(** The current record is one of the two slots and is valid. *)
Lemma ab_current_valid a b r : ab_current a b = Some r -> rec_validb r = true.
Proof.
  unfold ab_current. rewrite rec_newest_spec.
  destruct (rec_validb a) eqn:Va, (rec_validb b) eqn:Vb; try case_match; naive_solver.
Qed.

End ab_record.
