(* ===== verification/BootMetadata.v ===== *)
(** * BootMetadata: shared/src/boot_metadata.c and shared/include/boot_metadata.h

    The 52-byte record of the two internal-flash slots: the update state
    machine's position, its progress fields and a CRC.  The slot and generation
    logic is that of [AbRecord]. *)

From S2P Require Import Prelude Bytes MemoryMap Crc32 AbRecord.

Definition BOOT_METADATA_MAGIC : Z := 0x424D4554.
Definition BOOT_METADATA_FORMAT_VERSION : Z := 1.
Definition BOOT_METADATA_FIRST_GENERATION : Z := 1.
Definition BOOT_METADATA_MAX_BOOT_ATTEMPTS : Z := 3.

Inductive UpdateState_t :=
  | UPDATE_IDLE
  | UPDATE_RECEIVING
  | UPDATE_ARTIFACT_READY
  | UPDATE_VERIFYING_CONTAINER
  | UPDATE_VERIFYING_BASE
  | UPDATE_PATCHING
  | UPDATE_IMAGE_READY
  | UPDATE_BACKING_UP
  | UPDATE_INSTALLING
  | UPDATE_VERIFYING_INSTALL
  | UPDATE_TRIAL_BOOT
  | UPDATE_CONFIRMED
  | UPDATE_ROLLBACK
  | UPDATE_FAILED.

#[export] Instance UpdateState_eq : EqDecision UpdateState_t.
Proof. solve_decision. Defined.

(** The enumerators in order; a state is stored as its index. *)
Definition update_states : list UpdateState_t :=
  [UPDATE_IDLE; UPDATE_RECEIVING; UPDATE_ARTIFACT_READY; UPDATE_VERIFYING_CONTAINER;
   UPDATE_VERIFYING_BASE; UPDATE_PATCHING; UPDATE_IMAGE_READY; UPDATE_BACKING_UP;
   UPDATE_INSTALLING; UPDATE_VERIFYING_INSTALL; UPDATE_TRIAL_BOOT; UPDATE_CONFIRMED;
   UPDATE_ROLLBACK; UPDATE_FAILED].

(** The cast [(uint32_t)state]. *)
Definition state_word (s : UpdateState_t) : Z :=
  match s with
  | UPDATE_IDLE => 0 | UPDATE_RECEIVING => 1 | UPDATE_ARTIFACT_READY => 2
  | UPDATE_VERIFYING_CONTAINER => 3 | UPDATE_VERIFYING_BASE => 4 | UPDATE_PATCHING => 5
  | UPDATE_IMAGE_READY => 6 | UPDATE_BACKING_UP => 7 | UPDATE_INSTALLING => 8
  | UPDATE_VERIFYING_INSTALL => 9 | UPDATE_TRIAL_BOOT => 10 | UPDATE_CONFIRMED => 11
  | UPDATE_ROLLBACK => 12 | UPDATE_FAILED => 13
  end.

(** The cast [(UpdateState_t)word] of a switch; [None] takes its default. *)
Definition state_of_word (w : Z) : option UpdateState_t :=
  if (0 <=? w) && (w <=? 13) then update_states !! Z.to_nat w else None.

Record BootMetadata_t := mkBootMetadata {
  bm_magic : Z;
  bm_generation : Z;
  bm_metadata_version : Z;
  bm_state : Z;
  bm_active_version : Z;
  bm_pending_version : Z;
  bm_active_update_id : Z;
  bm_received_size : Z;
  bm_expected_size : Z;
  bm_copy_offset : Z;
  bm_boot_attempts : Z;
  bm_last_error : Z;
  bm_crc32 : Z
}.

(** The struct as its 32-bit words, and back. *)
Definition BootMetadata_fields (r : BootMetadata_t) : list Z :=
  [bm_magic r; bm_generation r; bm_metadata_version r; bm_state r; bm_active_version r;
   bm_pending_version r; bm_active_update_id r; bm_received_size r; bm_expected_size r;
   bm_copy_offset r; bm_boot_attempts r; bm_last_error r; bm_crc32 r].

Definition BootMetadata_of_fields (ws : list Z) : BootMetadata_t :=
  match ws with
  | [w0; w1; w2; w3; w4; w5; w6; w7; w8; w9; w10; w11; w12] =>
      mkBootMetadata w0 w1 w2 w3 w4 w5 w6 w7 w8 w9 w10 w11 w12
  | _ => mkBootMetadata 0 0 0 0 0 0 0 0 0 0 0 0 0
  end.

(** Assignment to a field. *)
Definition BootMetadata_assign (i : nat) (v : Z) (r : BootMetadata_t) : BootMetadata_t :=
  BootMetadata_of_fields (<[i := v]> (BootMetadata_fields r)).

Definition bm_set_magic (v : Z) : BootMetadata_t -> BootMetadata_t := BootMetadata_assign 0
 v.
Definition bm_set_generation (v : Z) : BootMetadata_t -> BootMetadata_t :=
 BootMetadata_assign 1 v.
Definition bm_set_metadata_version (v : Z) : BootMetadata_t -> BootMetadata_t :=
 BootMetadata_assign 2 v.
Definition bm_set_state (v : Z) : BootMetadata_t -> BootMetadata_t := BootMetadata_assign 3
 v.
Definition bm_set_active_version (v : Z) : BootMetadata_t -> BootMetadata_t :=
 BootMetadata_assign 4 v.
Definition bm_set_pending_version (v : Z) : BootMetadata_t -> BootMetadata_t :=
 BootMetadata_assign 5 v.
Definition bm_set_active_update_id (v : Z) : BootMetadata_t -> BootMetadata_t :=
 BootMetadata_assign 6 v.
Definition bm_set_received_size (v : Z) : BootMetadata_t -> BootMetadata_t :=
 BootMetadata_assign 7 v.
Definition bm_set_expected_size (v : Z) : BootMetadata_t -> BootMetadata_t :=
 BootMetadata_assign 8 v.
Definition bm_set_copy_offset (v : Z) : BootMetadata_t -> BootMetadata_t :=
 BootMetadata_assign 9 v.
Definition bm_set_boot_attempts (v : Z) : BootMetadata_t -> BootMetadata_t :=
 BootMetadata_assign 10 v.
Definition bm_set_last_error (v : Z) : BootMetadata_t -> BootMetadata_t :=
 BootMetadata_assign 11 v.
Definition bm_set_crc32 (v : Z) : BootMetadata_t -> BootMetadata_t := BootMetadata_assign 12
 v.

Inductive BootMetadataValidationStatus_t :=
  | BOOT_METADATA_VALID
  | BOOT_METADATA_INVALID_ARGUMENT
  | BOOT_METADATA_INVALID_MAGIC
  | BOOT_METADATA_INVALID_VERSION
  | BOOT_METADATA_INVALID_GENERATION
  | BOOT_METADATA_INVALID_STATE
  | BOOT_METADATA_INVALID_PROGRESS
  | BOOT_METADATA_INVALID_STATE_FIELDS
  | BOOT_METADATA_INVALID_CRC.

#[export] Instance BootMetadataValidationStatus_eq : EqDecision BootMetadataValidationStatus_t.
Proof. solve_decision. Defined.

(** [BootMetadataSlot_t] *)
Abbreviation BOOT_METADATA_SLOT_NONE := SLOT_NONE.
Abbreviation BOOT_METADATA_SLOT_A := SLOT_A.
Abbreviation BOOT_METADATA_SLOT_B := SLOT_B.

Definition BootMetadata_StateIsValid (state : Z) : bool := state <=? state_word UPDATE_FAILED.

Definition BootMetadata_UpdatePayloadIsComplete (m : BootMetadata_t) : bool :=
  (bm_active_update_id m <>? 0) && (bm_expected_size m <>? 0)
  && (bm_received_size m =? bm_expected_size m).

Definition BootMetadata_StateFieldsAreConsistent (m : BootMetadata_t) : bool :=
  match state_of_word (bm_state m) with
  | Some UPDATE_IDLE =>
      (bm_pending_version m =? 0) && (bm_active_update_id m =? 0)
      && (bm_received_size m =? 0) && (bm_expected_size m =? 0)
      && (bm_copy_offset m =? 0) && (bm_boot_attempts m =? 0)
  | Some UPDATE_RECEIVING =>
      (bm_active_update_id m <>? 0) && (bm_expected_size m <>? 0)
      && (bm_pending_version m <>? 0)
  | Some UPDATE_ARTIFACT_READY =>
      BootMetadata_UpdatePayloadIsComplete m && (bm_copy_offset m =? 0)
  | Some (UPDATE_VERIFYING_CONTAINER | UPDATE_VERIFYING_BASE
         | UPDATE_PATCHING | UPDATE_IMAGE_READY) =>
      BootMetadata_UpdatePayloadIsComplete m
  | Some UPDATE_BACKING_UP =>
      BootMetadata_UpdatePayloadIsComplete m && (bm_pending_version m <>? 0)
      && (bm_boot_attempts m =? 0) && (bm_copy_offset m <=? APPLICATION_MAX_SIZE)
      && ((bm_copy_offset m =? APPLICATION_MAX_SIZE)
          || (Z.land (bm_copy_offset m) (EXT_FLASH_SECTOR_SIZE - 1) =? 0))
  | Some UPDATE_INSTALLING =>
      BootMetadata_UpdatePayloadIsComplete m
      && (bm_copy_offset m <=? bm_expected_size m)
      && ((bm_copy_offset m =? bm_expected_size m)
          || (Z.land (bm_copy_offset m) (INTERNAL_FLASH_PAGE_SIZE - 1) =? 0))
  | Some UPDATE_VERIFYING_INSTALL =>
      BootMetadata_UpdatePayloadIsComplete m
      && (bm_copy_offset m =? bm_expected_size m)
  | Some UPDATE_TRIAL_BOOT =>
      BootMetadata_UpdatePayloadIsComplete m && (bm_pending_version m <>? 0)
      && (bm_copy_offset m =? 0)
      && (bm_boot_attempts m <=? BOOT_METADATA_MAX_BOOT_ATTEMPTS)
  | Some UPDATE_CONFIRMED =>
      BootMetadata_UpdatePayloadIsComplete m && (bm_pending_version m <>? 0)
      && (bm_copy_offset m =? 0) && (0 <? bm_boot_attempts m)
      && (bm_boot_attempts m <=? BOOT_METADATA_MAX_BOOT_ATTEMPTS)
  | Some UPDATE_ROLLBACK =>
      BootMetadata_UpdatePayloadIsComplete m && (bm_pending_version m <>? 0)
      && (bm_boot_attempts m <=? BOOT_METADATA_MAX_BOOT_ATTEMPTS)
      && (bm_copy_offset m <=? APPLICATION_MAX_SIZE)
      && ((bm_copy_offset m =? APPLICATION_MAX_SIZE)
          || (Z.land (bm_copy_offset m) (INTERNAL_FLASH_PAGE_SIZE - 1) =? 0))
  | Some UPDATE_FAILED => true
  | None => false
  end.

(** The zero-filled record with its four initialised fields. *)
Definition BootMetadata_Init (active_version : Z) : BootMetadata_t :=
  mkBootMetadata 0 0 0 0 0 0 0 0 0 0 0 0 0
  |> bm_set_magic BOOT_METADATA_MAGIC
  |> bm_set_metadata_version BOOT_METADATA_FORMAT_VERSION
  |> bm_set_state (state_word UPDATE_IDLE)
  |> bm_set_active_version active_version.

(** The bytes of the record in memory; the CRC field is the last word. *)
Definition BootMetadata_bytes (m : BootMetadata_t) : list Z :=
  words_to_bytes (BootMetadata_fields m).

Definition BootMetadata_CRC_OFFSET : Z := 48.
Definition BootMetadata_SIZE : Z := 52.

Definition BootMetadata_CalculateCrc (metadata : option BootMetadata_t) : Z :=
  match metadata with
  | None => 0
  | Some m => Crc32_Calculate (Some (BootMetadata_bytes m)) BootMetadata_CRC_OFFSET
  end.

Definition BootMetadata_Finalize (m : BootMetadata_t) : BootMetadata_t :=
  let m := bm_set_metadata_version BOOT_METADATA_FORMAT_VERSION
             (bm_set_magic BOOT_METADATA_MAGIC m) in
  bm_set_crc32 (BootMetadata_CalculateCrc (Some m)) m.

Definition BootMetadata_Validate (metadata : option BootMetadata_t)
    : BootMetadataValidationStatus_t :=
  match metadata with
  | None => BOOT_METADATA_INVALID_ARGUMENT
  | Some m =>
      if bm_magic m <>? BOOT_METADATA_MAGIC then BOOT_METADATA_INVALID_MAGIC
      else if bm_metadata_version m <>? BOOT_METADATA_FORMAT_VERSION
      then BOOT_METADATA_INVALID_VERSION
      else if bm_generation m =? 0 then BOOT_METADATA_INVALID_GENERATION
      else if negb (BootMetadata_StateIsValid (bm_state m)) then BOOT_METADATA_INVALID_STATE
      else if (bm_expected_size m <? bm_received_size m)
           || (EXT_INCOMING_SIZE <? bm_expected_size m)
           || (APPLICATION_MAX_SIZE <? bm_copy_offset m)
      then BOOT_METADATA_INVALID_PROGRESS
      else if negb (BootMetadata_StateFieldsAreConsistent m)
      then BOOT_METADATA_INVALID_STATE_FIELDS
      else if bm_crc32 m <>? BootMetadata_CalculateCrc (Some m)
      then BOOT_METADATA_INVALID_CRC
      else BOOT_METADATA_VALID
  end.

Definition BootMetadata_IsGenerationNewer (candidate reference : Z) : bool :=
  let difference := u32 (candidate - reference) in
  (difference <>? 0) && (difference <? 0x80000000).

Definition BootMetadata_NextGeneration (current_generation : Z) : Z :=
  let next := u32 (current_generation + 1) in
  if next =? 0 then BOOT_METADATA_FIRST_GENERATION else next.

Definition BootMetadata_SelectNewestSlot (slot_a slot_b : BootMetadata_t) : AbSlot :=
  let valid_a := bool_decide (BootMetadata_Validate (Some slot_a) = BOOT_METADATA_VALID) in
  let valid_b := bool_decide (BootMetadata_Validate (Some slot_b) = BOOT_METADATA_VALID) in
  if negb valid_a && negb valid_b then BOOT_METADATA_SLOT_NONE
  else if negb valid_a then BOOT_METADATA_SLOT_B
  else if negb valid_b then BOOT_METADATA_SLOT_A
  else if BootMetadata_IsGenerationNewer (bm_generation slot_b) (bm_generation slot_a)
  then BOOT_METADATA_SLOT_B
  else BOOT_METADATA_SLOT_A.

Definition BootMetadata_SelectWriteSlot (slot_a slot_b : BootMetadata_t) : AbSlot :=
  let newest := BootMetadata_SelectNewestSlot slot_a slot_b in
  if bool_decide (newest = BOOT_METADATA_SLOT_A) then BOOT_METADATA_SLOT_B
  else BOOT_METADATA_SLOT_A.

(** ** The record contract *)

Definition BootMetadata_validb (m : BootMetadata_t) : bool :=
  bool_decide (BootMetadata_Validate (Some m) = BOOT_METADATA_VALID).

Lemma state_of_word_state_word s : state_of_word (state_word s) = Some s.
Proof. by destruct s. Qed.

Lemma state_word_of_word w s : state_of_word w = Some s -> state_word s = w.
Proof.
  unfold state_of_word. case_if; [|done]. to_prop. intros Hs.
  assert (w = Z.of_nat (Z.to_nat w)) as Hw by lia.
  rewrite Hw. clear Hw. revert Hs. generalize (Z.to_nat w). clear.
  intros n Hs. do 14 (destruct n as [|n]; [by injection Hs as <-|]). done.
Qed.

(** What a valid record satisfies; the converse also holds. *)
Lemma BootMetadata_Validate_spec m :
  BootMetadata_Validate (Some m) = BOOT_METADATA_VALID <->
  bm_magic m = BOOT_METADATA_MAGIC /\
  bm_metadata_version m = BOOT_METADATA_FORMAT_VERSION /\
  bm_generation m <> 0 /\
  bm_state m <= 13 /\
  bm_received_size m <= bm_expected_size m /\
  bm_expected_size m <= EXT_INCOMING_SIZE /\
  bm_copy_offset m <= APPLICATION_MAX_SIZE /\
  BootMetadata_StateFieldsAreConsistent m = true /\
  bm_crc32 m = BootMetadata_CalculateCrc (Some m).
Proof.
  unfold BootMetadata_Validate, BootMetadata_StateIsValid.
  change (state_word UPDATE_FAILED) with 13.
  split.
  - intros H. repeat (case_if_in H; [done|]). to_prop. split_and!; done.
  - intros. destruct_and!. repeat case_if; try done; exfalso;
      rewrite ?orb_true_iff, ?negb_true_iff, ?Z.eqb_neq, ?Z.eqb_eq, ?Z.ltb_lt, ?Z.leb_gt in *;
      (congruence || lia).
Qed.

Lemma BootMetadata_validb_spec m :
  BootMetadata_validb m = true <-> BootMetadata_Validate (Some m) = BOOT_METADATA_VALID.
Proof. apply bool_decide_eq_true. Qed.

(** The CRC covers every field but itself. *)
Lemma BootMetadata_CalculateCrc_eq m :
  BootMetadata_CalculateCrc (Some m) = crc_of (words_to_bytes (take 12 (BootMetadata_fields m))).
Proof. exact (crc_words_prefix (BootMetadata_fields m) 12 ltac:(cbn; lia)). Qed.

#[export, refine] Instance BootMetadata_record : Record32 BootMetadata_t := {|
  rec_words := 13;
  rec_magic := BOOT_METADATA_MAGIC;
  rec_fields := BootMetadata_fields;
  rec_of_fields := BootMetadata_of_fields;
  rec_validb := BootMetadata_validb
|}.
Proof.
  - done.
  - by intros [].
  - intros ws Hl. do 13 (destruct ws as [|? ws]; [done|]). by destruct ws.
  - done.
  - intros m H. by apply BootMetadata_validb_spec, BootMetadata_Validate_spec in H as [].
  - intros m H. apply BootMetadata_validb_spec, BootMetadata_Validate_spec in H.
    destruct_and!. exists (take 12 (BootMetadata_fields m)).
    rewrite <- BootMetadata_CalculateCrc_eq. unfold BootMetadata_fields. cbn [take app]. congruence.
Defined.

(** A candidate has 32-bit fields when the request has. *)
Lemma BootMetadata_candidate_wf g r :
  is_u32 g -> rec_wf r -> rec_wf (BootMetadata_Finalize (bm_set_generation g r)).
Proof.
  intros Hg Hr. unfold BootMetadata_Finalize. cbv zeta. rewrite BootMetadata_CalculateCrc_eq.
  match goal with |- context [crc_of ?bs] =>
    assert (is_u32 (crc_of bs)) as Hc by auto with ota; generalize dependent (crc_of bs) end.
  intros c Hc. unfold rec_wf in *. cbn in *. repeat (apply Forall_cons in Hr as [? Hr]).
  repeat (apply Forall_cons; split); try assumption; try apply Forall_nil;
    vm_compute; split; congruence.
Qed.

#[export, refine] Instance BootMetadata_ab : AbRecord BootMetadata_t := {|
  rec_generation := bm_generation;
  rec_candidate g r := BootMetadata_Finalize (bm_set_generation g r);
  rec_generation_newer := BootMetadata_IsGenerationNewer;
  rec_next_generation := BootMetadata_NextGeneration;
  rec_select_newest := BootMetadata_SelectNewestSlot;
  rec_select_write_slot := BootMetadata_SelectWriteSlot
|}.
Proof.
  - intros m H. by apply BootMetadata_validb_spec, BootMetadata_Validate_spec in H as (_ & _ & ? & _).
  - intros r Hr. unfold rec_wf in Hr. cbn in Hr. by repeat (apply Forall_cons in Hr as [? Hr]).
  - done.
  - intros g r Hg Hr. by apply BootMetadata_candidate_wf.
  - intros c r. unfold BootMetadata_IsGenerationNewer. cbv zeta.
    rewrite andb_true_iff, negb_true_iff, Z.eqb_neq, Z.ltb_lt.
    pose proof (u32_range (c - r)) as []. lia.
  - done.
  - intros a b. unfold BootMetadata_SelectNewestSlot. cbn [rec_validb BootMetadata_record].
    unfold BootMetadata_validb. by repeat case_match.
  - intros a b. unfold BootMetadata_SelectWriteSlot. by destruct (BootMetadata_SelectNewestSlot a b).
Defined.
