(* ===== verification/UpdateHandoff.v ===== *)
(** * UpdateHandoff: shared/src/update_handoff.c and its header

    The 36-byte record through which the application hands a downloaded
    artifact to the bootloader.  Slot and generation logic: [AbRecord]. *)

From S2P Require Import Prelude Bytes MemoryMap Crc32 AbRecord.

Definition UPDATE_HANDOFF_MAGIC : Z := 0x3641544F.
Definition UPDATE_HANDOFF_FORMAT_VERSION : Z := 1.
Definition UPDATE_HANDOFF_FIRST_GENERATION : Z := 1.

Record UpdateHandoffRecord_t := mkUpdateHandoff {
  ho_magic : Z;
  ho_generation : Z;
  ho_format_version : Z;
  ho_update_id : Z;
  ho_target_version : Z;
  ho_image_size : Z;
  ho_image_crc32 : Z;
  ho_target_load_address : Z;
  ho_crc32 : Z
}.

(** The struct as its 32-bit words, and back. *)
Definition UpdateHandoff_fields (r : UpdateHandoffRecord_t) : list Z :=
  [ho_magic r; ho_generation r; ho_format_version r; ho_update_id r; ho_target_version r;
   ho_image_size r; ho_image_crc32 r; ho_target_load_address r; ho_crc32 r].

Definition UpdateHandoff_of_fields (ws : list Z) : UpdateHandoffRecord_t :=
  match ws with
  | [w0; w1; w2; w3; w4; w5; w6; w7; w8] =>
      mkUpdateHandoff w0 w1 w2 w3 w4 w5 w6 w7 w8
  | _ => mkUpdateHandoff 0 0 0 0 0 0 0 0 0
  end.

(** Assignment to a field. *)
Definition UpdateHandoff_assign (i : nat) (v : Z) (r : UpdateHandoffRecord_t) :
 UpdateHandoffRecord_t :=
  UpdateHandoff_of_fields (<[i := v]> (UpdateHandoff_fields r)).

Definition ho_set_magic (v : Z) : UpdateHandoffRecord_t -> UpdateHandoffRecord_t :=
 UpdateHandoff_assign 0 v.
Definition ho_set_generation (v : Z) : UpdateHandoffRecord_t -> UpdateHandoffRecord_t :=
 UpdateHandoff_assign 1 v.
Definition ho_set_format_version (v : Z) : UpdateHandoffRecord_t -> UpdateHandoffRecord_t :=
 UpdateHandoff_assign 2 v.
Definition ho_set_update_id (v : Z) : UpdateHandoffRecord_t -> UpdateHandoffRecord_t :=
 UpdateHandoff_assign 3 v.
Definition ho_set_target_version (v : Z) : UpdateHandoffRecord_t -> UpdateHandoffRecord_t :=
 UpdateHandoff_assign 4 v.
Definition ho_set_image_size (v : Z) : UpdateHandoffRecord_t -> UpdateHandoffRecord_t :=
 UpdateHandoff_assign 5 v.
Definition ho_set_image_crc32 (v : Z) : UpdateHandoffRecord_t -> UpdateHandoffRecord_t :=
 UpdateHandoff_assign 6 v.
Definition ho_set_target_load_address (v : Z) : UpdateHandoffRecord_t ->
 UpdateHandoffRecord_t := UpdateHandoff_assign 7 v.
Definition ho_set_crc32 (v : Z) : UpdateHandoffRecord_t -> UpdateHandoffRecord_t :=
 UpdateHandoff_assign 8 v.

Inductive UpdateHandoffValidationStatus_t :=
  | UPDATE_HANDOFF_VALID
  | UPDATE_HANDOFF_INVALID_ARGUMENT
  | UPDATE_HANDOFF_INVALID_MAGIC
  | UPDATE_HANDOFF_INVALID_VERSION
  | UPDATE_HANDOFF_INVALID_GENERATION
  | UPDATE_HANDOFF_INVALID_UPDATE_ID
  | UPDATE_HANDOFF_INVALID_TARGET_VERSION
  | UPDATE_HANDOFF_INVALID_IMAGE_SIZE
  | UPDATE_HANDOFF_INVALID_LOAD_ADDRESS
  | UPDATE_HANDOFF_INVALID_CRC.

#[export] Instance UpdateHandoffValidationStatus_eq :
  EqDecision UpdateHandoffValidationStatus_t.
Proof. solve_decision. Defined.

(** [UpdateHandoffSlot_t] *)
Abbreviation UPDATE_HANDOFF_SLOT_NONE := SLOT_NONE.
Abbreviation UPDATE_HANDOFF_SLOT_A := SLOT_A.
Abbreviation UPDATE_HANDOFF_SLOT_B := SLOT_B.

(** The zero-filled record of [ClearRecord] with its initialised fields. *)
Definition UpdateHandoff_Init (update_id target_version image_size image_crc32 : Z)
    : UpdateHandoffRecord_t :=
  mkUpdateHandoff 0 0 0 0 0 0 0 0 0
  |> ho_set_magic UPDATE_HANDOFF_MAGIC
  |> ho_set_format_version UPDATE_HANDOFF_FORMAT_VERSION
  |> ho_set_update_id update_id
  |> ho_set_target_version target_version
  |> ho_set_image_size image_size
  |> ho_set_image_crc32 image_crc32
  |> ho_set_target_load_address APPLICATION_START_ADDRESS.

(** The bytes of the record in memory; the CRC field is the last word. *)
Definition UpdateHandoff_bytes (r : UpdateHandoffRecord_t) : list Z := words_to_bytes (UpdateHandoff_fields r).

Definition UpdateHandoff_CRC_OFFSET : Z := 32.
Definition UpdateHandoff_SIZE : Z := 36.

Definition UpdateHandoff_CalculateCrc (record : option UpdateHandoffRecord_t) : Z :=
  match record with
  | None => 0
  | Some r => Crc32_Calculate (Some (UpdateHandoff_bytes r)) UpdateHandoff_CRC_OFFSET
  end.

Definition UpdateHandoff_Finalize (r : UpdateHandoffRecord_t) : UpdateHandoffRecord_t :=
  let r := ho_set_format_version UPDATE_HANDOFF_FORMAT_VERSION (ho_set_magic UPDATE_HANDOFF_MAGIC r) in
  ho_set_crc32 (UpdateHandoff_CalculateCrc (Some r)) r.

Definition UpdateHandoff_Validate (record : option UpdateHandoffRecord_t)
    : UpdateHandoffValidationStatus_t :=
  match record with
  | None => UPDATE_HANDOFF_INVALID_ARGUMENT
  | Some r =>
      if ho_magic r <>? UPDATE_HANDOFF_MAGIC then UPDATE_HANDOFF_INVALID_MAGIC
      else if ho_format_version r <>? UPDATE_HANDOFF_FORMAT_VERSION
      then UPDATE_HANDOFF_INVALID_VERSION
      else if ho_generation r =? 0 then UPDATE_HANDOFF_INVALID_GENERATION
      else if ho_update_id r =? 0 then UPDATE_HANDOFF_INVALID_UPDATE_ID
      else if ho_target_version r =? 0 then UPDATE_HANDOFF_INVALID_TARGET_VERSION
      else if (ho_image_size r <? 8) || (APPLICATION_MAX_SIZE <? ho_image_size r)
      then UPDATE_HANDOFF_INVALID_IMAGE_SIZE
      else if ho_target_load_address r <>? APPLICATION_START_ADDRESS
      then UPDATE_HANDOFF_INVALID_LOAD_ADDRESS
      else if ho_crc32 r <>? UpdateHandoff_CalculateCrc (Some r)
      then UPDATE_HANDOFF_INVALID_CRC
      else UPDATE_HANDOFF_VALID
  end.

Definition UpdateHandoff_IsGenerationNewer (candidate reference : Z) : bool :=
  let difference := u32 (candidate - reference) in
  (difference <>? 0) && (difference <? 0x80000000).

Definition UpdateHandoff_NextGeneration (current_generation : Z) : Z :=
  let next := u32 (current_generation + 1) in
  if next =? 0 then UPDATE_HANDOFF_FIRST_GENERATION else next.

Definition UpdateHandoff_SelectNewest (slot_a slot_b : UpdateHandoffRecord_t) : AbSlot :=
  let valid_a := bool_decide (UpdateHandoff_Validate (Some slot_a) = UPDATE_HANDOFF_VALID) in
  let valid_b := bool_decide (UpdateHandoff_Validate (Some slot_b) = UPDATE_HANDOFF_VALID) in
  if negb valid_a && negb valid_b then UPDATE_HANDOFF_SLOT_NONE
  else if negb valid_a then UPDATE_HANDOFF_SLOT_B
  else if negb valid_b then UPDATE_HANDOFF_SLOT_A
  else if UpdateHandoff_IsGenerationNewer (ho_generation slot_b) (ho_generation slot_a)
  then UPDATE_HANDOFF_SLOT_B
  else UPDATE_HANDOFF_SLOT_A.

Definition UpdateHandoff_SelectWriteSlot (slot_a slot_b : UpdateHandoffRecord_t) : AbSlot :=
  if bool_decide (UpdateHandoff_SelectNewest slot_a slot_b = UPDATE_HANDOFF_SLOT_A)
  then UPDATE_HANDOFF_SLOT_B
  else UPDATE_HANDOFF_SLOT_A.

Definition UpdateHandoff_validb (r : UpdateHandoffRecord_t) : bool :=
  bool_decide (UpdateHandoff_Validate (Some r) = UPDATE_HANDOFF_VALID).

Lemma UpdateHandoff_Validate_spec r :
  UpdateHandoff_Validate (Some r) = UPDATE_HANDOFF_VALID <->
  ho_magic r = UPDATE_HANDOFF_MAGIC /\
  ho_format_version r = UPDATE_HANDOFF_FORMAT_VERSION /\
  ho_generation r <> 0 /\
  ho_update_id r <> 0 /\
  ho_target_version r <> 0 /\
  8 <= ho_image_size r <= APPLICATION_MAX_SIZE /\
  ho_target_load_address r = APPLICATION_START_ADDRESS /\
  ho_crc32 r = UpdateHandoff_CalculateCrc (Some r).
Proof.
  unfold UpdateHandoff_Validate. split.
  - intros H. repeat (case_if_in H; [done|]). to_prop. split_and!; done || lia.
  - intros. destruct_and!. repeat case_if; try done; exfalso;
      rewrite ?orb_true_iff, ?negb_true_iff, ?Z.eqb_neq, ?Z.eqb_eq, ?Z.ltb_lt in *;
      (congruence || lia).
Qed.

(** ** The record contract *)

Lemma UpdateHandoff_validb_spec r :
  UpdateHandoff_validb r = true <-> UpdateHandoff_Validate (Some r) = UPDATE_HANDOFF_VALID.
Proof. apply bool_decide_eq_true. Qed.

(** The CRC covers every field but itself. *)
Lemma UpdateHandoff_CalculateCrc_eq r :
  UpdateHandoff_CalculateCrc (Some r) = crc_of (words_to_bytes (take 8 (UpdateHandoff_fields r))).
Proof. exact (crc_words_prefix (UpdateHandoff_fields r) 8 ltac:(cbn; lia)). Qed.

#[export, refine] Instance UpdateHandoff_record : Record32 UpdateHandoffRecord_t := {|
  rec_words := 9;
  rec_magic := UPDATE_HANDOFF_MAGIC;
  rec_fields := UpdateHandoff_fields;
  rec_of_fields := UpdateHandoff_of_fields;
  rec_validb := UpdateHandoff_validb
|}.
Proof.
  - done.
  - by intros [].
  - intros ws Hl. do 9 (destruct ws as [|? ws]; [done|]). by destruct ws.
  - done.
  - intros r H. by apply UpdateHandoff_validb_spec, UpdateHandoff_Validate_spec in H as [].
  - intros r H. apply UpdateHandoff_validb_spec, UpdateHandoff_Validate_spec in H.
    destruct_and!. exists (take 8 (UpdateHandoff_fields r)).
    rewrite <- UpdateHandoff_CalculateCrc_eq. unfold UpdateHandoff_fields. cbn [take app]. congruence.
Defined.

(** A candidate has 32-bit fields when the request has. *)
Lemma UpdateHandoff_candidate_wf g r :
  is_u32 g -> rec_wf r -> rec_wf (UpdateHandoff_Finalize (ho_set_generation g r)).
Proof.
  intros Hg Hr. unfold UpdateHandoff_Finalize. cbv zeta. rewrite UpdateHandoff_CalculateCrc_eq.
  match goal with |- context [crc_of ?bs] =>
    assert (is_u32 (crc_of bs)) as Hc by auto with ota; generalize dependent (crc_of bs) end.
  intros c Hc. unfold rec_wf in *. cbn in *. repeat (apply Forall_cons in Hr as [? Hr]).
  repeat (apply Forall_cons; split); try assumption; try apply Forall_nil;
    vm_compute; split; congruence.
Qed.

#[export, refine] Instance UpdateHandoff_ab : AbRecord UpdateHandoffRecord_t := {|
  rec_generation := ho_generation;
  rec_candidate g r := UpdateHandoff_Finalize (ho_set_generation g r);
  rec_generation_newer := UpdateHandoff_IsGenerationNewer;
  rec_next_generation := UpdateHandoff_NextGeneration;
  rec_select_newest := UpdateHandoff_SelectNewest;
  rec_select_write_slot := UpdateHandoff_SelectWriteSlot
|}.
Proof.
  - intros r H. by apply UpdateHandoff_validb_spec, UpdateHandoff_Validate_spec in H as (_ & _ & ? & _).
  - intros r Hr. unfold rec_wf in Hr. cbn in Hr. by repeat (apply Forall_cons in Hr as [? Hr]).
  - done.
  - intros g r Hg Hr. by apply UpdateHandoff_candidate_wf.
  - intros c r. unfold UpdateHandoff_IsGenerationNewer. cbv zeta.
    rewrite andb_true_iff, negb_true_iff, Z.eqb_neq, Z.ltb_lt.
    pose proof (u32_range (c - r)) as []. lia.
  - done.
  - intros a b. unfold UpdateHandoff_SelectNewest. cbn [rec_validb UpdateHandoff_record].
    unfold UpdateHandoff_validb. by repeat case_match.
  - intros a b. unfold UpdateHandoff_SelectWriteSlot. by destruct (UpdateHandoff_SelectNewest a b).
Defined.
