(* ===== verification/DownloadCheckpoint.v ===== *)
(** * DownloadCheckpoint: shared/src/download_checkpoint.c and its header

    The 40-byte record that lets an interrupted download resume at a sector
    boundary.  Slot and generation logic: [AbRecord]. *)

From S2P Require Import Prelude Bytes MemoryMap Crc32 AbRecord.

Definition DOWNLOAD_CHECKPOINT_MAGIC : Z := 0x37504344.
Definition DOWNLOAD_CHECKPOINT_FORMAT_VERSION : Z := 1.
Definition DOWNLOAD_CHECKPOINT_FIRST_GENERATION : Z := 1.

Inductive DownloadCheckpointState_t :=
  | DOWNLOAD_CHECKPOINT_IDLE
  | DOWNLOAD_CHECKPOINT_RECEIVING
  | DOWNLOAD_CHECKPOINT_ARTIFACT_READY.

#[export] Instance DownloadCheckpointState_eq : EqDecision DownloadCheckpointState_t.
Proof. solve_decision. Defined.

(** The cast [(uint32_t)state]. *)
Definition checkpoint_state_word (s : DownloadCheckpointState_t) : Z :=
  match s with
  | DOWNLOAD_CHECKPOINT_IDLE => 0
  | DOWNLOAD_CHECKPOINT_RECEIVING => 1
  | DOWNLOAD_CHECKPOINT_ARTIFACT_READY => 2
  end.

Record DownloadCheckpointRecord_t := mkDownloadCheckpoint {
  dc_magic : Z;
  dc_generation : Z;
  dc_format_version : Z;
  dc_state : Z;
  dc_update_id : Z;
  dc_target_version : Z;
  dc_image_size : Z;
  dc_image_crc32 : Z;
  dc_next_offset : Z;
  dc_crc32 : Z
}.

(** The struct as its 32-bit words, and back. *)
Definition DownloadCheckpoint_fields (r : DownloadCheckpointRecord_t) : list Z :=
  [dc_magic r; dc_generation r; dc_format_version r; dc_state r; dc_update_id r;
   dc_target_version r; dc_image_size r; dc_image_crc32 r; dc_next_offset r; dc_crc32 r].

Definition DownloadCheckpoint_of_fields (ws : list Z) : DownloadCheckpointRecord_t :=
  match ws with
  | [w0; w1; w2; w3; w4; w5; w6; w7; w8; w9] =>
      mkDownloadCheckpoint w0 w1 w2 w3 w4 w5 w6 w7 w8 w9
  | _ => mkDownloadCheckpoint 0 0 0 0 0 0 0 0 0 0
  end.

(** Assignment to a field. *)
Definition DownloadCheckpoint_assign (i : nat) (v : Z) (r :
 DownloadCheckpointRecord_t) : DownloadCheckpointRecord_t :=
  DownloadCheckpoint_of_fields (<[i := v]> (DownloadCheckpoint_fields r)).

Definition dc_set_magic (v : Z) : DownloadCheckpointRecord_t -> DownloadCheckpointRecord_t
 := DownloadCheckpoint_assign 0 v.
Definition dc_set_generation (v : Z) : DownloadCheckpointRecord_t ->
 DownloadCheckpointRecord_t := DownloadCheckpoint_assign 1 v.
Definition dc_set_format_version (v : Z) : DownloadCheckpointRecord_t ->
 DownloadCheckpointRecord_t := DownloadCheckpoint_assign 2 v.
Definition dc_set_state (v : Z) : DownloadCheckpointRecord_t -> DownloadCheckpointRecord_t
 := DownloadCheckpoint_assign 3 v.
Definition dc_set_update_id (v : Z) : DownloadCheckpointRecord_t ->
 DownloadCheckpointRecord_t := DownloadCheckpoint_assign 4 v.
Definition dc_set_target_version (v : Z) : DownloadCheckpointRecord_t ->
 DownloadCheckpointRecord_t := DownloadCheckpoint_assign 5 v.
Definition dc_set_image_size (v : Z) : DownloadCheckpointRecord_t ->
 DownloadCheckpointRecord_t := DownloadCheckpoint_assign 6 v.
Definition dc_set_image_crc32 (v : Z) : DownloadCheckpointRecord_t ->
 DownloadCheckpointRecord_t := DownloadCheckpoint_assign 7 v.
Definition dc_set_next_offset (v : Z) : DownloadCheckpointRecord_t ->
 DownloadCheckpointRecord_t := DownloadCheckpoint_assign 8 v.
Definition dc_set_crc32 (v : Z) : DownloadCheckpointRecord_t -> DownloadCheckpointRecord_t
 := DownloadCheckpoint_assign 9 v.

Inductive DownloadCheckpointValidationStatus_t :=
  | DOWNLOAD_CHECKPOINT_VALID
  | DOWNLOAD_CHECKPOINT_INVALID_ARGUMENT
  | DOWNLOAD_CHECKPOINT_INVALID_MAGIC
  | DOWNLOAD_CHECKPOINT_INVALID_VERSION
  | DOWNLOAD_CHECKPOINT_INVALID_GENERATION
  | DOWNLOAD_CHECKPOINT_INVALID_STATE
  | DOWNLOAD_CHECKPOINT_INVALID_FIELDS
  | DOWNLOAD_CHECKPOINT_INVALID_CRC.

#[export] Instance DownloadCheckpointValidationStatus_eq :
  EqDecision DownloadCheckpointValidationStatus_t.
Proof. solve_decision. Defined.

(** [DownloadCheckpointSlot_t] *)
Abbreviation DOWNLOAD_CHECKPOINT_SLOT_NONE := SLOT_NONE.
Abbreviation DOWNLOAD_CHECKPOINT_SLOT_A := SLOT_A.
Abbreviation DOWNLOAD_CHECKPOINT_SLOT_B := SLOT_B.

(** The zero-filled record of [ClearRecord]. *)
Definition DownloadCheckpoint_ClearRecord : DownloadCheckpointRecord_t :=
  mkDownloadCheckpoint 0 0 0 0 0 0 0 0 0 0.

Definition DownloadCheckpoint_InitIdle : DownloadCheckpointRecord_t :=
  DownloadCheckpoint_ClearRecord
  |> dc_set_magic DOWNLOAD_CHECKPOINT_MAGIC
  |> dc_set_format_version DOWNLOAD_CHECKPOINT_FORMAT_VERSION
  |> dc_set_state (checkpoint_state_word DOWNLOAD_CHECKPOINT_IDLE).

Definition DownloadCheckpoint_InitSession (state : DownloadCheckpointState_t)
    (update_id target_version image_size image_crc32 next_offset : Z)
    : DownloadCheckpointRecord_t :=
  DownloadCheckpoint_ClearRecord
  |> dc_set_magic DOWNLOAD_CHECKPOINT_MAGIC
  |> dc_set_format_version DOWNLOAD_CHECKPOINT_FORMAT_VERSION
  |> dc_set_state (checkpoint_state_word state)
  |> dc_set_update_id update_id
  |> dc_set_target_version target_version
  |> dc_set_image_size image_size
  |> dc_set_image_crc32 image_crc32
  |> dc_set_next_offset next_offset.

(** The bytes of the record in memory; the CRC field is the last word. *)
Definition DownloadCheckpoint_bytes (r : DownloadCheckpointRecord_t) : list Z := words_to_bytes (DownloadCheckpoint_fields r).

Definition DownloadCheckpoint_CRC_OFFSET : Z := 36.
Definition DownloadCheckpoint_SIZE : Z := 40.

Definition DownloadCheckpoint_CalculateCrc (record : option DownloadCheckpointRecord_t) : Z :=
  match record with
  | None => 0
  | Some r => Crc32_Calculate (Some (DownloadCheckpoint_bytes r)) DownloadCheckpoint_CRC_OFFSET
  end.

Definition DownloadCheckpoint_Finalize (r : DownloadCheckpointRecord_t) : DownloadCheckpointRecord_t :=
  let r := dc_set_format_version DOWNLOAD_CHECKPOINT_FORMAT_VERSION (dc_set_magic DOWNLOAD_CHECKPOINT_MAGIC r) in
  dc_set_crc32 (DownloadCheckpoint_CalculateCrc (Some r)) r.

Definition DownloadCheckpoint_SessionFieldsValid (r : DownloadCheckpointRecord_t) : bool :=
  if (dc_update_id r =? 0) || (dc_image_size r =? 0)
     || (EXT_INCOMING_SIZE <? dc_image_size r) || (dc_image_size r <? dc_next_offset r)
  then false
  else if dc_state r =? checkpoint_state_word DOWNLOAD_CHECKPOINT_RECEIVING
  then Z.land (dc_next_offset r) (EXT_FLASH_SECTOR_SIZE - 1) =? 0
  else if dc_state r =? checkpoint_state_word DOWNLOAD_CHECKPOINT_ARTIFACT_READY
  then dc_next_offset r =? dc_image_size r
  else false.

(** The field test of [Validate], by state. *)
Definition DownloadCheckpoint_FieldsValid (r : DownloadCheckpointRecord_t) : bool :=
  if dc_state r =? checkpoint_state_word DOWNLOAD_CHECKPOINT_IDLE
  then negb ((dc_update_id r <>? 0) || (dc_target_version r <>? 0)
             || (dc_image_size r <>? 0) || (dc_image_crc32 r <>? 0)
             || (dc_next_offset r <>? 0))
  else DownloadCheckpoint_SessionFieldsValid r.

Definition DownloadCheckpoint_Validate (record : option DownloadCheckpointRecord_t)
    : DownloadCheckpointValidationStatus_t :=
  match record with
  | None => DOWNLOAD_CHECKPOINT_INVALID_ARGUMENT
  | Some r =>
      if dc_magic r <>? DOWNLOAD_CHECKPOINT_MAGIC then DOWNLOAD_CHECKPOINT_INVALID_MAGIC
      else if dc_format_version r <>? DOWNLOAD_CHECKPOINT_FORMAT_VERSION
      then DOWNLOAD_CHECKPOINT_INVALID_VERSION
      else if dc_generation r =? 0 then DOWNLOAD_CHECKPOINT_INVALID_GENERATION
      else if checkpoint_state_word DOWNLOAD_CHECKPOINT_ARTIFACT_READY <? dc_state r
      then DOWNLOAD_CHECKPOINT_INVALID_STATE
      else if negb (DownloadCheckpoint_FieldsValid r)
      then DOWNLOAD_CHECKPOINT_INVALID_FIELDS
      else if dc_crc32 r <>? DownloadCheckpoint_CalculateCrc (Some r)
      then DOWNLOAD_CHECKPOINT_INVALID_CRC
      else DOWNLOAD_CHECKPOINT_VALID
  end.

Definition DownloadCheckpoint_IsGenerationNewer (candidate reference : Z) : bool :=
  let difference := u32 (candidate - reference) in
  (difference <>? 0) && (difference <? 0x80000000).

Definition DownloadCheckpoint_NextGeneration (current_generation : Z) : Z :=
  let next := u32 (current_generation + 1) in
  if next =? 0 then DOWNLOAD_CHECKPOINT_FIRST_GENERATION else next.

Definition DownloadCheckpoint_SelectNewest (slot_a slot_b : DownloadCheckpointRecord_t) : AbSlot :=
  let valid_a := bool_decide (DownloadCheckpoint_Validate (Some slot_a) = DOWNLOAD_CHECKPOINT_VALID) in
  let valid_b := bool_decide (DownloadCheckpoint_Validate (Some slot_b) = DOWNLOAD_CHECKPOINT_VALID) in
  if negb valid_a && negb valid_b then DOWNLOAD_CHECKPOINT_SLOT_NONE
  else if negb valid_a then DOWNLOAD_CHECKPOINT_SLOT_B
  else if negb valid_b then DOWNLOAD_CHECKPOINT_SLOT_A
  else if DownloadCheckpoint_IsGenerationNewer (dc_generation slot_b) (dc_generation slot_a)
  then DOWNLOAD_CHECKPOINT_SLOT_B
  else DOWNLOAD_CHECKPOINT_SLOT_A.

Definition DownloadCheckpoint_SelectWriteSlot (slot_a slot_b : DownloadCheckpointRecord_t) : AbSlot :=
  if bool_decide (DownloadCheckpoint_SelectNewest slot_a slot_b = DOWNLOAD_CHECKPOINT_SLOT_A)
  then DOWNLOAD_CHECKPOINT_SLOT_B
  else DOWNLOAD_CHECKPOINT_SLOT_A.

Definition DownloadCheckpoint_validb (r : DownloadCheckpointRecord_t) : bool :=
  bool_decide (DownloadCheckpoint_Validate (Some r) = DOWNLOAD_CHECKPOINT_VALID).

Lemma DownloadCheckpoint_Validate_spec r :
  DownloadCheckpoint_Validate (Some r) = DOWNLOAD_CHECKPOINT_VALID <->
  dc_magic r = DOWNLOAD_CHECKPOINT_MAGIC /\
  dc_format_version r = DOWNLOAD_CHECKPOINT_FORMAT_VERSION /\
  dc_generation r <> 0 /\
  dc_state r <= 2 /\
  DownloadCheckpoint_FieldsValid r = true /\
  dc_crc32 r = DownloadCheckpoint_CalculateCrc (Some r).
Proof.
  unfold DownloadCheckpoint_Validate. change (checkpoint_state_word DOWNLOAD_CHECKPOINT_ARTIFACT_READY) with 2.
  split.
  - intros H. repeat (case_if_in H; [done|]). to_prop. split_and!; done || lia.
  - intros. destruct_and!. repeat case_if; try done; exfalso;
      rewrite ?orb_true_iff, ?negb_true_iff, ?Z.eqb_neq, ?Z.eqb_eq, ?Z.ltb_lt in *;
      (congruence || lia).
Qed.

(** ** The record contract *)

Lemma DownloadCheckpoint_validb_spec r :
  DownloadCheckpoint_validb r = true <-> DownloadCheckpoint_Validate (Some r) = DOWNLOAD_CHECKPOINT_VALID.
Proof. apply bool_decide_eq_true. Qed.

(** The CRC covers every field but itself. *)
Lemma DownloadCheckpoint_CalculateCrc_eq r :
  DownloadCheckpoint_CalculateCrc (Some r) = crc_of (words_to_bytes (take 9 (DownloadCheckpoint_fields r))).
Proof. exact (crc_words_prefix (DownloadCheckpoint_fields r) 9 ltac:(cbn; lia)). Qed.

#[export, refine] Instance DownloadCheckpoint_record : Record32 DownloadCheckpointRecord_t := {|
  rec_words := 10;
  rec_magic := DOWNLOAD_CHECKPOINT_MAGIC;
  rec_fields := DownloadCheckpoint_fields;
  rec_of_fields := DownloadCheckpoint_of_fields;
  rec_validb := DownloadCheckpoint_validb
|}.
Proof.
  - done.
  - by intros [].
  - intros ws Hl. do 10 (destruct ws as [|? ws]; [done|]). by destruct ws.
  - done.
  - intros r H. by apply DownloadCheckpoint_validb_spec, DownloadCheckpoint_Validate_spec in H as [].
  - intros r H. apply DownloadCheckpoint_validb_spec, DownloadCheckpoint_Validate_spec in H.
    destruct_and!. exists (take 9 (DownloadCheckpoint_fields r)).
    rewrite <- DownloadCheckpoint_CalculateCrc_eq. unfold DownloadCheckpoint_fields. cbn [take app]. congruence.
Defined.

(** A candidate has 32-bit fields when the request has. *)
Lemma DownloadCheckpoint_candidate_wf g r :
  is_u32 g -> rec_wf r -> rec_wf (DownloadCheckpoint_Finalize (dc_set_generation g r)).
Proof.
  intros Hg Hr. unfold DownloadCheckpoint_Finalize. cbv zeta. rewrite DownloadCheckpoint_CalculateCrc_eq.
  match goal with |- context [crc_of ?bs] =>
    assert (is_u32 (crc_of bs)) as Hc by auto with ota; generalize dependent (crc_of bs) end.
  intros c Hc. unfold rec_wf in *. cbn in *. repeat (apply Forall_cons in Hr as [? Hr]).
  repeat (apply Forall_cons; split); try assumption; try apply Forall_nil;
    vm_compute; split; congruence.
Qed.

#[export, refine] Instance DownloadCheckpoint_ab : AbRecord DownloadCheckpointRecord_t := {|
  rec_generation := dc_generation;
  rec_candidate g r := DownloadCheckpoint_Finalize (dc_set_generation g r);
  rec_generation_newer := DownloadCheckpoint_IsGenerationNewer;
  rec_next_generation := DownloadCheckpoint_NextGeneration;
  rec_select_newest := DownloadCheckpoint_SelectNewest;
  rec_select_write_slot := DownloadCheckpoint_SelectWriteSlot
|}.
Proof.
  - intros r H. by apply DownloadCheckpoint_validb_spec, DownloadCheckpoint_Validate_spec in H as (_ & _ & ? & _).
  - intros r Hr. unfold rec_wf in Hr. cbn in Hr. by repeat (apply Forall_cons in Hr as [? Hr]).
  - done.
  - intros g r Hg Hr. by apply DownloadCheckpoint_candidate_wf.
  - intros c r. unfold DownloadCheckpoint_IsGenerationNewer. cbv zeta.
    rewrite andb_true_iff, negb_true_iff, Z.eqb_neq, Z.ltb_lt.
    pose proof (u32_range (c - r)) as []. lia.
  - done.
  - intros a b. unfold DownloadCheckpoint_SelectNewest. cbn [rec_validb DownloadCheckpoint_record].
    unfold DownloadCheckpoint_validb. by repeat case_match.
  - intros a b. unfold DownloadCheckpoint_SelectWriteSlot. by destruct (DownloadCheckpoint_SelectNewest a b).
Defined.
