(* ===== verification/BackupImage.v ===== *)
(** * BackupImage: shared/src/backup_image.c and its header

    The 28-byte header of the W25Q backup partition: it is written after the
    copy of the old application, so a valid header means a complete copy. *)

From S2P Require Import Prelude Bytes MemoryMap Crc32 AbRecord.

Definition BACKUP_IMAGE_MAGIC : Z := 0x38504B42.
Definition BACKUP_IMAGE_FORMAT_VERSION : Z := 1.
Definition BACKUP_IMAGE_DATA_OFFSET : Z := 0x1000.

Record BackupImageRecord_t := mkBackupImage {
  bk_magic : Z;
  bk_format_version : Z;
  bk_active_version : Z;
  bk_image_size : Z;
  bk_image_crc32 : Z;
  bk_load_address : Z;
  bk_crc32 : Z
}.

(** The struct as its 32-bit words, and back. *)
Definition BackupImage_fields (r : BackupImageRecord_t) : list Z :=
  [bk_magic r; bk_format_version r; bk_active_version r; bk_image_size r; bk_image_crc32 r;
   bk_load_address r; bk_crc32 r].

Definition BackupImage_of_fields (ws : list Z) : BackupImageRecord_t :=
  match ws with
  | [w0; w1; w2; w3; w4; w5; w6] =>
      mkBackupImage w0 w1 w2 w3 w4 w5 w6
  | _ => mkBackupImage 0 0 0 0 0 0 0
  end.

(** Assignment to a field. *)
Definition BackupImage_assign (i : nat) (v : Z) (r : BackupImageRecord_t) :
 BackupImageRecord_t :=
  BackupImage_of_fields (<[i := v]> (BackupImage_fields r)).

Definition bk_set_magic (v : Z) : BackupImageRecord_t -> BackupImageRecord_t :=
 BackupImage_assign 0 v.
Definition bk_set_format_version (v : Z) : BackupImageRecord_t -> BackupImageRecord_t :=
 BackupImage_assign 1 v.
Definition bk_set_active_version (v : Z) : BackupImageRecord_t -> BackupImageRecord_t :=
 BackupImage_assign 2 v.
Definition bk_set_image_size (v : Z) : BackupImageRecord_t -> BackupImageRecord_t :=
 BackupImage_assign 3 v.
Definition bk_set_image_crc32 (v : Z) : BackupImageRecord_t -> BackupImageRecord_t :=
 BackupImage_assign 4 v.
Definition bk_set_load_address (v : Z) : BackupImageRecord_t -> BackupImageRecord_t :=
 BackupImage_assign 5 v.
Definition bk_set_crc32 (v : Z) : BackupImageRecord_t -> BackupImageRecord_t :=
 BackupImage_assign 6 v.

Inductive BackupImageValidationStatus_t :=
  | BACKUP_IMAGE_VALID
  | BACKUP_IMAGE_INVALID_ARGUMENT
  | BACKUP_IMAGE_INVALID_MAGIC
  | BACKUP_IMAGE_INVALID_VERSION
  | BACKUP_IMAGE_INVALID_ACTIVE_VERSION
  | BACKUP_IMAGE_INVALID_SIZE
  | BACKUP_IMAGE_INVALID_LOAD_ADDRESS
  | BACKUP_IMAGE_INVALID_CRC.

#[export] Instance BackupImageValidationStatus_eq : EqDecision BackupImageValidationStatus_t.
Proof. solve_decision. Defined.

Definition BackupImage_Init (active_version image_crc32 : Z) : BackupImageRecord_t :=
  mkBackupImage 0 0 0 0 0 0 0
  |> bk_set_magic BACKUP_IMAGE_MAGIC
  |> bk_set_format_version BACKUP_IMAGE_FORMAT_VERSION
  |> bk_set_active_version active_version
  |> bk_set_image_size APPLICATION_MAX_SIZE
  |> bk_set_image_crc32 image_crc32
  |> bk_set_load_address APPLICATION_START_ADDRESS.

(** The bytes of the record in memory; the CRC field is the last word. *)
Definition BackupImage_bytes (r : BackupImageRecord_t) : list Z := words_to_bytes (BackupImage_fields r).

Definition BackupImage_CRC_OFFSET : Z := 24.
Definition BackupImage_SIZE : Z := 28.

Definition BackupImage_CalculateCrc (record : option BackupImageRecord_t) : Z :=
  match record with
  | None => 0
  | Some r => Crc32_Calculate (Some (BackupImage_bytes r)) BackupImage_CRC_OFFSET
  end.

Definition BackupImage_Finalize (r : BackupImageRecord_t) : BackupImageRecord_t :=
  let r := bk_set_format_version BACKUP_IMAGE_FORMAT_VERSION (bk_set_magic BACKUP_IMAGE_MAGIC r) in
  bk_set_crc32 (BackupImage_CalculateCrc (Some r)) r.

Definition BackupImage_Validate (record : option BackupImageRecord_t)
    : BackupImageValidationStatus_t :=
  match record with
  | None => BACKUP_IMAGE_INVALID_ARGUMENT
  | Some r =>
      if bk_magic r <>? BACKUP_IMAGE_MAGIC then BACKUP_IMAGE_INVALID_MAGIC
      else if bk_format_version r <>? BACKUP_IMAGE_FORMAT_VERSION
      then BACKUP_IMAGE_INVALID_VERSION
      else if bk_active_version r =? 0 then BACKUP_IMAGE_INVALID_ACTIVE_VERSION
      else if bk_image_size r <>? APPLICATION_MAX_SIZE then BACKUP_IMAGE_INVALID_SIZE
      else if bk_load_address r <>? APPLICATION_START_ADDRESS
      then BACKUP_IMAGE_INVALID_LOAD_ADDRESS
      else if bk_crc32 r <>? BackupImage_CalculateCrc (Some r) then BACKUP_IMAGE_INVALID_CRC
      else BACKUP_IMAGE_VALID
  end.

Definition BackupImage_validb (r : BackupImageRecord_t) : bool :=
  bool_decide (BackupImage_Validate (Some r) = BACKUP_IMAGE_VALID).

Lemma BackupImage_Validate_spec r :
  BackupImage_Validate (Some r) = BACKUP_IMAGE_VALID <->
  bk_magic r = BACKUP_IMAGE_MAGIC /\
  bk_format_version r = BACKUP_IMAGE_FORMAT_VERSION /\
  bk_active_version r <> 0 /\
  bk_image_size r = APPLICATION_MAX_SIZE /\
  bk_load_address r = APPLICATION_START_ADDRESS /\
  bk_crc32 r = BackupImage_CalculateCrc (Some r).
Proof.
  unfold BackupImage_Validate. split.
  - intros H. repeat (case_if_in H; [done|]). to_prop. split_and!; done || lia.
  - intros. destruct_and!. repeat case_if; try done; exfalso;
      rewrite ?orb_true_iff, ?negb_true_iff, ?Z.eqb_neq, ?Z.eqb_eq, ?Z.ltb_lt in *;
      (congruence || lia).
Qed.

(** ** The record contract *)

Lemma BackupImage_validb_spec r :
  BackupImage_validb r = true <-> BackupImage_Validate (Some r) = BACKUP_IMAGE_VALID.
Proof. apply bool_decide_eq_true. Qed.

(** The CRC covers every field but itself. *)
Lemma BackupImage_CalculateCrc_eq r :
  BackupImage_CalculateCrc (Some r) = crc_of (words_to_bytes (take 6 (BackupImage_fields r))).
Proof. exact (crc_words_prefix (BackupImage_fields r) 6 ltac:(cbn; lia)). Qed.

#[export, refine] Instance BackupImage_record : Record32 BackupImageRecord_t := {|
  rec_words := 7;
  rec_magic := BACKUP_IMAGE_MAGIC;
  rec_fields := BackupImage_fields;
  rec_of_fields := BackupImage_of_fields;
  rec_validb := BackupImage_validb
|}.
Proof.
  - done.
  - by intros [].
  - intros ws Hl. do 7 (destruct ws as [|? ws]; [done|]). by destruct ws.
  - done.
  - intros r H. by apply BackupImage_validb_spec, BackupImage_Validate_spec in H as [].
  - intros r H. apply BackupImage_validb_spec, BackupImage_Validate_spec in H.
    destruct_and!. exists (take 6 (BackupImage_fields r)).
    rewrite <- BackupImage_CalculateCrc_eq. unfold BackupImage_fields. cbn [take app]. congruence.
Defined.
