(* ===== verification/FullImage.v ===== *)
(** * FullImage: shared/src/full_image_validation.c

    The vector-table test every image passes before it is installed or run. *)

From S2P Require Import Prelude MemoryMap.

Inductive FullImageValidationStatus_t :=
  | FULL_IMAGE_VALID
  | FULL_IMAGE_TOO_SMALL
  | FULL_IMAGE_TOO_LARGE
  | FULL_IMAGE_BAD_STACK_RANGE
  | FULL_IMAGE_BAD_STACK_ALIGNMENT
  | FULL_IMAGE_BAD_RESET_THUMB_BIT
  | FULL_IMAGE_BAD_RESET_RANGE.

#[export] Instance FullImageValidationStatus_eq : EqDecision FullImageValidationStatus_t.
Proof. solve_decision. Defined.

Definition THUMB_STATE_BIT : Z := 1.
Definition ADDRESS_WITHOUT_THUMB_MASK : Z := 0xFFFFFFFE.
Definition REQUIRED_STACK_ALIGNMENT : Z := 8.

Definition FullImage_ValidateVector
    (image_size initial_stack_pointer reset_handler_address : Z)
    : FullImageValidationStatus_t :=
  if image_size <? 8 then FULL_IMAGE_TOO_SMALL
  else if APPLICATION_MAX_SIZE <? image_size then FULL_IMAGE_TOO_LARGE
  else if (initial_stack_pointer <? INTERNAL_SRAM_BASE)
       || (INTERNAL_SRAM_END <? initial_stack_pointer)
  then FULL_IMAGE_BAD_STACK_RANGE
  else if Z.land initial_stack_pointer (REQUIRED_STACK_ALIGNMENT - 1) <>? 0
  then FULL_IMAGE_BAD_STACK_ALIGNMENT
  else if Z.land reset_handler_address THUMB_STATE_BIT =? 0
  then FULL_IMAGE_BAD_RESET_THUMB_BIT
  else
    let reset_code := Z.land reset_handler_address ADDRESS_WITHOUT_THUMB_MASK in
    let image_end := u32 (APPLICATION_START_ADDRESS + image_size) in
    if (reset_code <? APPLICATION_START_ADDRESS) || (image_end <=? reset_code)
    then FULL_IMAGE_BAD_RESET_RANGE
    else FULL_IMAGE_VALID.

(** What a runnable image is: an 8-byte aligned stack top in SRAM, and an odd
    (Thumb) entry point whose instruction lies inside the image. *)
Record RunnableVector (image_size sp reset : Z) : Prop := {
  rv_size : 8 <= image_size <= APPLICATION_MAX_SIZE;
  rv_stack : INTERNAL_SRAM_BASE <= sp <= INTERNAL_SRAM_END;
  rv_stack_aligned : sp mod 8 = 0;
  rv_thumb : Z.odd reset = true;
  rv_entry : APPLICATION_START_ADDRESS <= reset - 1 < APPLICATION_START_ADDRESS + image_size
}.

(** Clearing bit 0 of a 32-bit address. *)
Lemma clear_thumb_bit x : is_u32 x ->
  Z.land x ADDRESS_WITHOUT_THUMB_MASK = x - x mod 2.
Proof.
  intros Hx. transitivity (Z.ldiff x (Z.ones 1)).
  - apply Z.bits_inj'. intros i Hi. rewrite Z.ldiff_spec, Z.land_spec.
    change ADDRESS_WITHOUT_THUMB_MASK with (Z.shiftl (Z.ones 31) 1).
    rewrite Z.shiftl_spec by lia.
    destruct (Z.eq_dec i 0) as [->|Hi0].
    { rewrite (Z.testbit_neg_r (Z.ones 31)) by lia. rewrite (Z.ones_spec_low 1) by lia. by rewrite !andb_false_r. }
    rewrite (Z.ones_spec_high 1) by lia.
    destruct (Z.lt_ge_cases i 32).
    + by rewrite Z.ones_spec_low by lia.
    + by rewrite testbit_out_u32.
  - rewrite Z.ldiff_ones_r, Z.shiftl_mul_pow2, Z.shiftr_div_pow2 by lia.
    change (2 ^ 1) with 2. pose proof (Z.div_mod x 2 ltac:(lia)). lia.
Qed.

Lemma FullImage_ValidateVector_iff (image_size sp reset : Z) :
  is_u32 image_size -> is_u32 sp -> is_u32 reset ->
  FullImage_ValidateVector image_size sp reset = FULL_IMAGE_VALID <->
  RunnableVector image_size sp reset.
Proof.
  intros Hsize Hsp Hreset. unfold FullImage_ValidateVector. cbv zeta.
  change (REQUIRED_STACK_ALIGNMENT - 1) with (2 ^ 3 - 1).
  change THUMB_STATE_BIT with (2 ^ 1 - 1).
  rewrite clear_thumb_bit by done. rewrite !land_mask by lia.
  change (2 ^ 3) with 8. change (2 ^ 1) with 2.
  pose proof (Zmod_odd reset) as Hodd.
  split.
  - intros H. repeat (case_if_in H; [done|]). to_prop.
    rewrite (u32_small (APPLICATION_START_ADDRESS + image_size)) in * by (unfold is_u32; map_lia).
    destruct (Z.odd reset) eqn:Ho; [|done]. split; [lia..|done|lia].
  - intros [H1 H2 H3 H4 H5]. rewrite H4 in Hodd. rewrite H3, Hodd.
    rewrite (u32_small (APPLICATION_START_ADDRESS + image_size)) by (unfold is_u32; map_lia).
    repeat case_if; try done; exfalso;
      rewrite ?orb_true_iff, ?Z.ltb_lt, ?Z.leb_le, ?Z.eqb_eq in *; try done; map_lia.
Qed.

(** FullImage_ValidateVector accepts exactly the images whose size fits the
    application region, whose stack pointer is an aligned SRAM address and whose
    entry point is a Thumb address inside the image. *)
Theorem FullImage_ValidateVector_spec (image_size sp reset : Z) :
  is_u32 image_size -> is_u32 sp -> is_u32 reset ->
  FullImage_ValidateVector image_size sp reset = FULL_IMAGE_VALID <->
  RunnableVector image_size sp reset.
Proof. apply FullImage_ValidateVector_iff. Qed.

Lemma FullImage_ValidateVector_spec_witness :
  RunnableVector 0x1000 0x20005000 0x08006101 <->
  FullImage_ValidateVector 0x1000 0x20005000 0x08006101 = FULL_IMAGE_VALID.
Proof. symmetry. apply (FullImage_ValidateVector_spec 0x1000 0x20005000 0x08006101); by vm_compute. Defined.
