(* ===== verification/Progress.v ===== *)
(** * Progress: shared/src/install_progress.c and shared/src/backup_progress.c

    The resumable checkpoints of the two copy loops: page by page from the W25Q
    into the application region, and sector by sector from the application
    region into the backup partition. *)

From S2P Require Import Prelude MemoryMap.

Inductive InstallProgressStatus_t :=
  | INSTALL_PROGRESS_VALID
  | INSTALL_PROGRESS_INVALID_IMAGE_SIZE
  | INSTALL_PROGRESS_INVALID_OFFSET
  | INSTALL_PROGRESS_INVALID_ALIGNMENT.

#[export] Instance InstallProgressStatus_eq : EqDecision InstallProgressStatus_t.
Proof. solve_decision. Defined.

Definition InstallProgress_Validate (image_size copy_offset : Z) : InstallProgressStatus_t :=
  if (image_size <? 8) || (APPLICATION_MAX_SIZE <? image_size)
  then INSTALL_PROGRESS_INVALID_IMAGE_SIZE
  else if image_size <? copy_offset then INSTALL_PROGRESS_INVALID_OFFSET
  else if (copy_offset <>? image_size)
       && (Z.land copy_offset (INTERNAL_FLASH_PAGE_SIZE - 1) <>? 0)
  then INSTALL_PROGRESS_INVALID_ALIGNMENT
  else INSTALL_PROGRESS_VALID.

Definition InstallProgress_PageLength (image_size copy_offset : Z) : Z :=
  if bool_decide (InstallProgress_Validate image_size copy_offset <> INSTALL_PROGRESS_VALID)
  then 0
  else if copy_offset =? image_size then 0
  else
    let remaining := u32 (image_size - copy_offset) in
    if INTERNAL_FLASH_PAGE_SIZE <? remaining then INTERNAL_FLASH_PAGE_SIZE else remaining.

Definition InstallProgress_NextCheckpoint (image_size copy_offset : Z) : Z :=
  let page_length := InstallProgress_PageLength image_size copy_offset in
  if page_length =? 0 then copy_offset else u32 (copy_offset + page_length).

Inductive BackupProgressStatus_t :=
  | BACKUP_PROGRESS_VALID
  | BACKUP_PROGRESS_INVALID_OFFSET
  | BACKUP_PROGRESS_INVALID_ALIGNMENT.

#[export] Instance BackupProgressStatus_eq : EqDecision BackupProgressStatus_t.
Proof. solve_decision. Defined.

Definition BackupProgress_Validate (copy_offset : Z) : BackupProgressStatus_t :=
  if APPLICATION_MAX_SIZE <? copy_offset then BACKUP_PROGRESS_INVALID_OFFSET
  else if (copy_offset <>? APPLICATION_MAX_SIZE)
       && (Z.land copy_offset (EXT_FLASH_SECTOR_SIZE - 1) <>? 0)
  then BACKUP_PROGRESS_INVALID_ALIGNMENT
  else BACKUP_PROGRESS_VALID.

Definition BackupProgress_ChunkLength (copy_offset : Z) : Z :=
  if bool_decide (BackupProgress_Validate copy_offset <> BACKUP_PROGRESS_VALID)
  then 0
  else if copy_offset =? APPLICATION_MAX_SIZE then 0
  else
    let remaining := u32 (APPLICATION_MAX_SIZE - copy_offset) in
    if EXT_FLASH_SECTOR_SIZE <? remaining then EXT_FLASH_SECTOR_SIZE else remaining.

Definition BackupProgress_NextCheckpoint (copy_offset : Z) : Z :=
  u32 (copy_offset + BackupProgress_ChunkLength copy_offset).

(** ** Copying in blocks

    The shape both progress modules share: a position is a checkpoint when it
    is a multiple of the block size [B] or the end [size]. *)

Definition checkpoint (B size off : Z) : Prop :=
  0 <= off <= size /\ (off = size \/ off mod B = 0).

Definition block_next (B size off : Z) : Z := off + Z.min B (size - off).

Section blocks.
Context (B : Z) (HB : 0 < B).

Lemma checkpoint_next size off :
  checkpoint B size off -> checkpoint B size (block_next B size off).
Proof using HB.
  intros [Hr Ha]. unfold block_next. split; [lia|].
  destruct (Z.le_gt_cases B (size - off)).
  - rewrite Z.min_l by lia. destruct Ha as [->|Ha]; [lia|]. right.
    rewrite <- Z.add_mod_idemp_l, Ha by lia. apply Z.mod_same. lia.
  - rewrite Z.min_r by lia. left. lia.
Qed.

Lemma checkpoint_iter n size off :
  checkpoint B size off -> checkpoint B size (Nat.iter n (block_next B size) off).
Proof using HB. intros H. apply Nat.iter_invariant; [apply checkpoint_next | done]. Qed.

Lemma block_iter n size off :
  0 <= off <= size ->
  Nat.iter n (block_next B size) off = Z.min size (off + Z.of_nat n * B).
Proof using HB.
  intros Ho. induction n as [|n IH]; [cbn; lia|].
  rewrite Nat.iter_succ, IH. unfold block_next. lia.
Qed.
End blocks.

(** ** The two modules are instances *)

Lemma InstallProgress_Validate_spec size off :
  0 <= off ->
  InstallProgress_Validate size off = INSTALL_PROGRESS_VALID <->
  8 <= size <= APPLICATION_MAX_SIZE /\ checkpoint INTERNAL_FLASH_PAGE_SIZE size off.
Proof.
  intros Ho. unfold InstallProgress_Validate, checkpoint. rewrite flash_page_mask.
  split.
  - intros H. repeat (case_if_in H; [done|]). to_prop.
    apply andb_false_iff in E1. rewrite !negb_false_iff, !Z.eqb_eq in E1. lia.
  - intros ([H1 H2] & [H3 H4] & H5).
    repeat case_if; try done; exfalso;
      rewrite ?orb_true_iff, ?andb_true_iff, ?negb_true_iff, ?Z.eqb_neq, ?Z.ltb_lt in *; lia.
Qed.

Lemma InstallProgress_PageLength_eq size off :
  is_u32 size -> 0 <= off ->
  InstallProgress_Validate size off = INSTALL_PROGRESS_VALID ->
  InstallProgress_PageLength size off = Z.min INTERNAL_FLASH_PAGE_SIZE (size - off).
Proof.
  intros Hs Ho HV. unfold InstallProgress_PageLength. rewrite HV.
  apply InstallProgress_Validate_spec in HV as (? & [] & _); [|done].
  rewrite bool_decide_eq_false_2 by auto. cbv zeta. unfold is_u32 in Hs.
  rewrite u32_small by (unfold is_u32; lia).
  destruct (Z.eqb_spec off size); [map_lia|].
  destruct (Z.ltb_spec INTERNAL_FLASH_PAGE_SIZE (size - off)); lia.
Qed.

Lemma InstallProgress_Next_eq size off :
  0 <= off ->
  InstallProgress_Validate size off = INSTALL_PROGRESS_VALID ->
  InstallProgress_NextCheckpoint size off = block_next INTERNAL_FLASH_PAGE_SIZE size off.
Proof.
  intros Ho HV. unfold InstallProgress_NextCheckpoint, block_next. cbv zeta.
  pose proof (proj1 (InstallProgress_Validate_spec size off Ho) HV) as (Hs & Hr & _).
  rewrite InstallProgress_PageLength_eq by (done || unfold is_u32; map_lia).
  destruct (Z.eqb_spec (Z.min INTERNAL_FLASH_PAGE_SIZE (size - off)) 0); [lia|].
  apply u32_small. unfold is_u32. map_lia.
Qed.

Lemma BackupProgress_Validate_spec off :
  0 <= off ->
  BackupProgress_Validate off = BACKUP_PROGRESS_VALID <->
  checkpoint EXT_FLASH_SECTOR_SIZE APPLICATION_MAX_SIZE off.
Proof.
  intros Ho. unfold BackupProgress_Validate, checkpoint. rewrite sector_mask.
  split.
  - intros H. repeat (case_if_in H; [done|]). to_prop.
    apply andb_false_iff in E0. rewrite !negb_false_iff, !Z.eqb_eq in E0. lia.
  - intros ([H3 H4] & H5).
    repeat case_if; try done; exfalso;
      rewrite ?orb_true_iff, ?andb_true_iff, ?negb_true_iff, ?Z.eqb_neq, ?Z.ltb_lt in *; lia.
Qed.

Lemma BackupProgress_ChunkLength_eq off :
  0 <= off -> BackupProgress_Validate off = BACKUP_PROGRESS_VALID ->
  BackupProgress_ChunkLength off = Z.min EXT_FLASH_SECTOR_SIZE (APPLICATION_MAX_SIZE - off).
Proof.
  intros Ho HV. unfold BackupProgress_ChunkLength. rewrite HV.
  apply BackupProgress_Validate_spec in HV as ([] & _); [|done].
  rewrite bool_decide_eq_false_2 by auto. cbv zeta.
  rewrite u32_small by (unfold is_u32; map_lia).
  destruct (Z.eqb_spec off APPLICATION_MAX_SIZE); [map_lia|].
  destruct (Z.ltb_spec EXT_FLASH_SECTOR_SIZE (APPLICATION_MAX_SIZE - off)); lia.
Qed.

Lemma BackupProgress_Next_eq off :
  0 <= off -> BackupProgress_Validate off = BACKUP_PROGRESS_VALID ->
  BackupProgress_NextCheckpoint off =
  block_next EXT_FLASH_SECTOR_SIZE APPLICATION_MAX_SIZE off.
Proof.
  intros Ho HV. unfold BackupProgress_NextCheckpoint, block_next.
  rewrite BackupProgress_ChunkLength_eq by done.
  apply BackupProgress_Validate_spec in HV as ([] & _); [|done].
  apply u32_small. unfold is_u32. map_lia.
Qed.

Lemma InstallProgress_iter size off n :
  0 <= off -> InstallProgress_Validate size off = INSTALL_PROGRESS_VALID ->
  Nat.iter n (InstallProgress_NextCheckpoint size) off =
    Z.min size (off + Z.of_nat n * INTERNAL_FLASH_PAGE_SIZE) /\
  InstallProgress_Validate size (Nat.iter n (InstallProgress_NextCheckpoint size) off)
    = INSTALL_PROGRESS_VALID.
Proof.
  intros Ho HV. pose proof (proj1 (InstallProgress_Validate_spec size off Ho) HV) as [Hs Hc].
  assert (Nat.iter n (InstallProgress_NextCheckpoint size) off =
          Nat.iter n (block_next INTERNAL_FLASH_PAGE_SIZE size) off) as ->.
  { clear -Hs Hc. induction n as [|n IH]; [done|]. rewrite !Nat.iter_succ, IH.
    pose proof (checkpoint_iter INTERNAL_FLASH_PAGE_SIZE ltac:(done) n _ _ Hc) as Hn.
    apply InstallProgress_Next_eq; [apply Hn|].
    apply InstallProgress_Validate_spec; [apply Hn | done]. }
  pose proof (checkpoint_iter INTERNAL_FLASH_PAGE_SIZE ltac:(done) n _ _ Hc) as Hn.
  split; [apply block_iter; [done|apply Hc]|].
  apply InstallProgress_Validate_spec; [apply Hn | done].
Qed.

Lemma BackupProgress_iter off n :
  0 <= off -> BackupProgress_Validate off = BACKUP_PROGRESS_VALID ->
  Nat.iter n BackupProgress_NextCheckpoint off =
    Z.min APPLICATION_MAX_SIZE (off + Z.of_nat n * EXT_FLASH_SECTOR_SIZE) /\
  BackupProgress_Validate (Nat.iter n BackupProgress_NextCheckpoint off)
    = BACKUP_PROGRESS_VALID.
Proof.
  intros Ho HV. pose proof (proj1 (BackupProgress_Validate_spec off Ho) HV) as Hc.
  assert (Nat.iter n BackupProgress_NextCheckpoint off =
          Nat.iter n (block_next EXT_FLASH_SECTOR_SIZE APPLICATION_MAX_SIZE) off) as ->.
  { clear -Hc. induction n as [|n IH]; [done|]. rewrite !Nat.iter_succ, IH.
    pose proof (checkpoint_iter EXT_FLASH_SECTOR_SIZE ltac:(done) n _ _ Hc) as Hn.
    apply BackupProgress_Next_eq; [apply Hn|].
    apply BackupProgress_Validate_spec; [apply Hn | done]. }
  pose proof (checkpoint_iter EXT_FLASH_SECTOR_SIZE ltac:(done) n _ _ Hc) as Hn.
  split; [apply block_iter; [done|apply Hc]|].
  apply BackupProgress_Validate_spec; [apply Hn | done].
Qed.

(** ** Properties *)

(** From every valid checkpoint the copy loops pass only through valid
    checkpoints and end: at the image size within 38 pages, at the end of the
    application region within 10 sectors. *)
Theorem copy_loops_terminate :
  (forall image_size off,
     0 <= off -> InstallProgress_Validate image_size off = INSTALL_PROGRESS_VALID ->
     (forall n, InstallProgress_Validate image_size
                  (Nat.iter n (InstallProgress_NextCheckpoint image_size) off)
                = INSTALL_PROGRESS_VALID) /\
     Nat.iter 38 (InstallProgress_NextCheckpoint image_size) off = image_size) /\
  (forall off,
     0 <= off -> BackupProgress_Validate off = BACKUP_PROGRESS_VALID ->
     (forall n, BackupProgress_Validate (Nat.iter n BackupProgress_NextCheckpoint off)
                = BACKUP_PROGRESS_VALID) /\
     Nat.iter 10 BackupProgress_NextCheckpoint off = APPLICATION_MAX_SIZE).
Proof.
  split; intros * Ho HV; (split; [intros n|]).
  - by apply InstallProgress_iter.
  - destruct (InstallProgress_iter image_size off 38 Ho HV) as [-> _].
    apply InstallProgress_Validate_spec in HV as (? & ? & _); [map_lia|done].
  - by apply BackupProgress_iter.
  - destruct (BackupProgress_iter off 10 Ho HV) as [-> _].
    apply BackupProgress_Validate_spec in HV as (? & _); [map_lia|done].
Qed.
