(* ===== verification/Device.v ===== *)
(** * Device: hardware interface, effect monad and crash-aware program logic

    The firmware talks to two persistent memories: the W25Q SPI NOR flash,
    through SPI transactions, and the internal flash, through the vendor
    routines [FLASH_ErasePage] and [FLASH_ProgramHalfWord].  The class [Hw] is
    the contract of that hardware: what a transaction may change, and that a
    completed read returns the stored bytes.  Every operation may also fail or
    be cut by a power loss at any point, which ends the run with the persistent
    state as it then is.  [M] is the state monad the firmware is written in;
    [wp] is its weakest precondition with a separate condition for the crash
    states; [modifies] is the footprint judgement the safety proofs compose. *)

From S2P Require Import Prelude Bytes MemoryMap.

(** ** Outcomes *)

(** [PowerLost] ends the run; [OutOfFuel] never happens in a modelled loop. *)
Inductive Outcome (A : Type) : Type :=
  | Ret (a : A)
  | PowerLost
  | OutOfFuel.
Arguments Ret {A} a.
Arguments PowerLost {A}.
Arguments OutOfFuel {A}.

(** [FLASH_Status] of the vendor flash driver. *)
Inductive FLASH_Status :=
  FLASH_BUSY | FLASH_ERROR_PG | FLASH_ERROR_WRP | FLASH_COMPLETE | FLASH_TIMEOUT.

#[export] Instance FLASH_Status_eq : EqDecision FLASH_Status.
Proof. solve_decision. Defined.

(** ** The SPI NOR command set *)

(** The 24-bit address the chip decodes from three transmitted bytes. *)
Definition addr24 (a2 a1 a0 : Z) : Z := a2 * 2 ^ 16 + a1 * 2 ^ 8 + a0.

(** The NOR bytes that closing a transaction may alter, given the bytes the
    chip received while it was selected.  Page program wraps inside its 256-byte
    page, so data that does not fit exposes the whole page; a sector erase
    exposes the 4 KiB sector of its address; the read, status, write enable and
    identification commands alter nothing; any other command could alter
    everything. *)
Definition nor_footprint (tx : list Z) (a : Z) : Prop :=
  match tx with
  | [] => False
  | op :: args =>
      if op =? 0x02 then
        match args with
        | a2 :: a1 :: a0 :: data =>
            let base := addr24 a2 a1 a0 in
            if base mod EXT_FLASH_PAGE_SIZE + len data <=? EXT_FLASH_PAGE_SIZE
            then base <= a < base + len data
            else base / EXT_FLASH_PAGE_SIZE = a / EXT_FLASH_PAGE_SIZE
        | _ => False
        end
      else if op =? 0x20 then
        match args with
        | a2 :: a1 :: a0 :: _ =>
            addr24 a2 a1 a0 / EXT_FLASH_SECTOR_SIZE = a / EXT_FLASH_SECTOR_SIZE
        | _ => False
        end
      else if (op =? 0x03) || (op =? 0x05) || (op =? 0x06) || (op =? 0x9F)
      then False
      else True
  end.

(** ** The hardware contract *)

Class Hw := {
  (** The whole hardware state, and what can be observed of it: the bytes of
      the NOR chip, the internal flash, the bytes the NOR chip has received
      since it was selected. *)
  hw : Type;
  nor : hw -> Z -> Z;
  flash : hw -> Z -> Z;
  spi_session : hw -> list Z;

  (** Chip select low; exchange one byte ([None] is a register-poll timeout);
      chip select high, which starts a program or erase command. *)
  spi_select : hw -> hw * Outcome unit;
  spi_exchange : Z -> hw -> hw * Outcome (option Z);
  spi_deselect : hw -> hw * Outcome unit;

  flash_erase_page : Z -> hw -> hw * Outcome FLASH_Status;
  flash_program_half_word : Z -> Z -> hw -> hw * Outcome FLASH_Status;

  nor_byte : forall h a, is_byte (nor h a);
  flash_byte : forall h a, is_byte (flash h a);

  select_terminates : forall h, snd (spi_select h) <> OutOfFuel;
  select_nor : forall h a, nor (fst (spi_select h)) a = nor h a;
  select_flash : forall h a, flash (fst (spi_select h)) a = flash h a;
  select_session : forall h, snd (spi_select h) = Ret tt ->
    spi_session (fst (spi_select h)) = [];

  exchange_terminates : forall tx h, snd (spi_exchange tx h) <> OutOfFuel;
  exchange_nor : forall tx h a, nor (fst (spi_exchange tx h)) a = nor h a;
  exchange_flash : forall tx h a, flash (fst (spi_exchange tx h)) a = flash h a;
  (** A byte whose exchange times out may or may not have reached the chip. *)
  exchange_session : forall tx h r, snd (spi_exchange tx h) = Ret r ->
    spi_session (fst (spi_exchange tx h)) = spi_session h ++ [tx] \/
    (r = None /\ spi_session (fst (spi_exchange tx h)) = spi_session h);
  exchange_byte : forall tx h rx, snd (spi_exchange tx h) = Ret (Some rx) -> is_byte rx;
  (** The read command answers with the stored bytes. *)
  exchange_read : forall tx h rx a2 a1 a0 dummies,
    spi_session h = 0x03 :: a2 :: a1 :: a0 :: dummies ->
    addr24 a2 a1 a0 + len dummies < EXT_FLASH_SIZE ->
    snd (spi_exchange tx h) = Ret (Some rx) ->
    rx = nor h (addr24 a2 a1 a0 + len dummies);

  deselect_terminates : forall h, snd (spi_deselect h) <> OutOfFuel;
  deselect_flash : forall h a, flash (fst (spi_deselect h)) a = flash h a;
  deselect_nor : forall h a, ~ nor_footprint (spi_session h) a ->
    nor (fst (spi_deselect h)) a = nor h a;
  deselect_session : forall h, snd (spi_deselect h) = Ret tt ->
    spi_session (fst (spi_deselect h)) = [];

  erase_terminates : forall p h, snd (flash_erase_page p h) <> OutOfFuel;
  erase_nor : forall p h a, nor (fst (flash_erase_page p h)) a = nor h a;
  erase_session : forall p h, spi_session (fst (flash_erase_page p h)) = spi_session h;
  erase_frame : forall p h a,
    a / INTERNAL_FLASH_PAGE_SIZE <> p / INTERNAL_FLASH_PAGE_SIZE ->
    flash (fst (flash_erase_page p h)) a = flash h a;
  (** An interrupted erase has erased some of the page's bytes. *)
  erase_bytes : forall p h a,
    flash (fst (flash_erase_page p h)) a = flash h a \/
    flash (fst (flash_erase_page p h)) a = 0xFF;
  erase_complete : forall p h a,
    snd (flash_erase_page p h) = Ret FLASH_COMPLETE ->
    a / INTERNAL_FLASH_PAGE_SIZE = p / INTERNAL_FLASH_PAGE_SIZE ->
    flash (fst (flash_erase_page p h)) a = 0xFF;

  program_terminates : forall p v h, snd (flash_program_half_word p v h) <> OutOfFuel;
  program_nor : forall p v h a,
    nor (fst (flash_program_half_word p v h)) a = nor h a;
  program_session : forall p v h,
    spi_session (fst (flash_program_half_word p v h)) = spi_session h;
  program_frame : forall p v h a,
    a <> p -> a <> p + 1 -> flash (fst (flash_program_half_word p v h)) a = flash h a;
  (** Each of the two bytes is the old one or the requested one. *)
  program_bytes : forall p v h i,
    i = 0 \/ i = 1 ->
    flash (fst (flash_program_half_word p v h)) (p + i) = flash h (p + i) \/
    flash (fst (flash_program_half_word p v h)) (p + i) = (v / 2 ^ (8 * i)) mod 2 ^ 8;
  program_complete : forall p v h i,
    snd (flash_program_half_word p v h) = Ret FLASH_COMPLETE ->
    i = 0 \/ i = 1 ->
    flash (fst (flash_program_half_word p v h)) (p + i) = (v / 2 ^ (8 * i)) mod 2 ^ 8
}.

(** ** Driver status codes kept in RAM *)

(** [SpiFlashStatus_t] *)
Inductive SpiFlashStatus_t :=
  | SPI_FLASH_STATUS_OK
  | SPI_FLASH_STATUS_NOT_INITIALIZED
  | SPI_FLASH_STATUS_INVALID_ARGUMENT
  | SPI_FLASH_STATUS_RANGE_ERROR
  | SPI_FLASH_STATUS_ALIGNMENT_ERROR
  | SPI_FLASH_STATUS_TRANSFER_TIMEOUT
  | SPI_FLASH_STATUS_BUSY_TIMEOUT
  | SPI_FLASH_STATUS_WRITE_ENABLE_FAILED
  | SPI_FLASH_STATUS_UNSUPPORTED_DEVICE
  | SPI_FLASH_STATUS_NEEDS_ERASE
  | SPI_FLASH_STATUS_VERIFY_FAILED.

#[export] Instance SpiFlashStatus_eq : EqDecision SpiFlashStatus_t.
Proof. solve_decision. Defined.

(** The file-scope variables and core registers the modelled code keeps in
    RAM; a power loss forgets all of them. *)
Record Ram := mkRam {
  g_initialized : bool;                 (* spi_flash.c *)
  g_jedec_id : Z;                       (* spi_flash.c *)
  g_last_status : SpiFlashStatus_t;     (* spi_flash.c *)
  PRIMASK : Z;                          (* interrupt mask of the core *)
  flash_unlocked : bool                 (* FLASH_CR lock bit of the controller *)
}.

(** The RAM right after reset: C zero initialisation, [g_last_status] its
    initialiser, interrupts enabled, flash controller locked. *)
Definition reset_ram : Ram :=
  mkRam false 0 SPI_FLASH_STATUS_NOT_INITIALIZED 0 false.

Section device.
Context {HW : Hw}.

Record World := mkWorld { w_hw : hw; w_ram : Ram }.

(** ** The monad *)

Definition M (A : Type) : Type := World -> World * Outcome A.

Definition ret {A} (a : A) : M A := fun w => (w, Ret a).

Definition bind {A B} (m : M A) (k : A -> M B) : M B := fun w =>
  match m w with
  | (w', Ret a) => k a w'
  | (w', PowerLost) => (w', PowerLost)
  | (w', OutOfFuel) => (w', OutOfFuel)
  end.

Definition get_ram : M Ram := fun w => (w, Ret (w_ram w)).
Definition put_ram (r : Ram) : M unit := fun w => (mkWorld (w_hw w) r, Ret tt).

(** Run a hardware operation. *)
Definition hw_op {A} (f : hw -> hw * Outcome A) : M A := fun w =>
  let '(h, o) := f (w_hw w) in (mkWorld h (w_ram w), o).

(** Memory-mapped reads of the internal flash. *)
Definition flash_read (a n : Z) : M (list Z) := fun w =>
  (w, Ret (flash (w_hw w) <$> seqZ a n)).

(** At most [p] iterations of a body that either continues with a new state
    or leaves with a result.  Binary, so that a large bound costs nothing to a
    loop that leaves early. *)
Fixpoint iterate {S R} (p : positive) (body : S -> M (S + R)) (s : S) : M (S + R) :=
  match p with
  | xH => body s
  | xO p => bind (iterate p body s) (fun x =>
      match x with inl s => iterate p body s | inr r => ret (inr r) end)
  | xI p => bind (body s) (fun x =>
      match x with
      | inl s => bind (iterate p body s) (fun x =>
          match x with inl s => iterate p body s | inr r => ret (inr r) end)
      | inr r => ret (inr r)
      end)
  end.

(** A loop with a bound on its iterations; every use proves the bound
    suffices. *)
Definition loop {S R} (fuel : Z) (body : S -> M (S + R)) (s : S) : M R :=
  match fuel with
  | Zpos p => bind (iterate p body s) (fun x =>
      match x with inl _ => fun w => (w, OutOfFuel) | inr r => ret r end)
  | _ => fun w => (w, OutOfFuel)
  end.

(** ** Weakest preconditions with a crash condition

    [wp m Q C w]: from [w], [m] terminates; if it returns [a] in [w'], [Q a w']
    holds; if power is lost, the persistent state left behind satisfies [C]. *)
Definition wp {A} (m : M A) (Q : A -> World -> Prop) (C : hw -> Prop) (w : World) : Prop :=
  match m w with
  | (w', Ret a) => Q a w'
  | (w', PowerLost) => C (w_hw w')
  | (_, OutOfFuel) => False
  end.

Lemma wp_ret {A} (a : A) Q C w : Q a w -> wp (ret a) Q C w.
Proof. done. Qed.

Lemma wp_bind {A B} (m : M A) (k : A -> M B) Q C w :
  wp m (fun a => wp (k a) Q C) C w -> wp (bind m k) Q C w.
Proof. unfold wp, bind. destruct (m w) as [w' []]; done. Qed.

Lemma wp_mono {A} (m : M A) (Q Q' : A -> World -> Prop) (C C' : hw -> Prop) w :
  wp m Q C w -> (forall a w', Q a w' -> Q' a w') -> (forall h, C h -> C' h) ->
  wp m Q' C' w.
Proof. unfold wp. destruct (m w) as [w' []]; auto. Qed.

Lemma wp_and {A} (m : M A) (Q Q' : A -> World -> Prop) (C C' : hw -> Prop) w :
  wp m Q C w -> wp m Q' C' w ->
  wp m (fun a w' => Q a w' /\ Q' a w') (fun h => C h /\ C' h) w.
Proof. unfold wp. destruct (m w) as [w' []]; auto. Qed.

Lemma wp_get_ram Q C w : Q (w_ram w) w -> wp get_ram Q C w.
Proof. done. Qed.

Lemma wp_put_ram r Q C w : Q tt (mkWorld (w_hw w) r) -> wp (put_ram r) Q C w.
Proof. done. Qed.

Lemma wp_flash_read a n Q C w :
  Q (flash (w_hw w) <$> seqZ a n) w -> wp (flash_read a n) Q C w.
Proof. done. Qed.

(** The loop rule: an invariant of state and world, and a measure of the state
    that every continuing iteration decreases. *)
Section loop_rule.
Context {S R : Type} (I : S -> World -> Prop) (mu : S -> Z).
Context (body : S -> M (S + R)) (Q : R -> World -> Prop) (C : hw -> Prop).

Definition step_post (s : S) (n : Z) (x : S + R) (w' : World) : Prop :=
  match x with
  | inl s' => I s' w' /\ 0 <= mu s' <= mu s - n
  | inr r => Q r w'
  end.

Context (Hbody : forall s w, I s w -> 0 <= mu s -> wp (body s) (step_post s 1) C w).

Lemma wp_iterate p s w :
  I s w -> 0 <= mu s -> wp (iterate p body s) (step_post s (Zpos p)) C w.
Proof using Hbody.
  revert s w. induction p as [p IH|p IH|]; intros s w HI Hmu; cbn [iterate].
  - apply wp_bind. eapply wp_mono; [by apply Hbody| |done].
    intros [s1|r] w1 H1; [|done]. destruct H1 as [HI1 Hm1].
    apply wp_bind. eapply wp_mono; [by apply IH; [|lia]| |done].
    intros [s2|r] w2 H2; [|done]. destruct H2 as [HI2 Hm2].
    eapply wp_mono; [by apply IH; [|lia]| |done].
    intros [s3|r] w3 H3; [|done]. destruct H3 as [HI3 Hm3]. split; [done|lia].
  - apply wp_bind. eapply wp_mono; [by apply IH; [|lia]| |done].
    intros [s2|r] w2 H2; [|done]. destruct H2 as [HI2 Hm2].
    eapply wp_mono; [by apply IH; [|lia]| |done].
    intros [s3|r] w3 H3; [|done]. destruct H3 as [HI3 Hm3]. split; [done|lia].
  - by apply Hbody.
Qed.

Lemma wp_loop fuel s w :
  I s w -> 0 <= mu s < fuel -> wp (loop fuel body s) Q C w.
Proof using Hbody.
  intros HI Hmu. destruct fuel as [|p|p]; [lia| |lia]. cbn [loop].
  apply wp_bind. eapply wp_mono; [apply wp_iterate; [done|lia]| |done].
  intros [s'|r] w' H; [|by apply wp_ret]. destruct H as [_ Hm]. lia.
Qed.
End loop_rule.

(** ** Footprints *)

(** [frame N F h h']: only NOR bytes in [N] and flash bytes in [F] differ. *)
Definition frame (N F : Z -> Prop) (h h' : hw) : Prop :=
  (forall a, ~ N a -> nor h' a = nor h a) /\
  (forall a, ~ F a -> flash h' a = flash h a).

Definition nowhere : Z -> Prop := fun _ => False.

Lemma frame_refl N F h : frame N F h h.
Proof. done. Qed.

Lemma frame_trans N F h1 h2 h3 :
  frame N F h1 h2 -> frame N F h2 h3 -> frame N F h1 h3.
Proof.
  intros [Hn Hf] [Hn' Hf']. split; intros a Ha; [by rewrite Hn', Hn|by rewrite Hf', Hf].
Qed.

Lemma frame_mono (N N' F F' : Z -> Prop) h h' :
  (forall a, N a -> N' a) -> (forall a, F a -> F' a) ->
  frame N F h h' -> frame N' F' h h'.
Proof. intros HN HF [Hn Hf]. split; intros a Ha; [apply Hn | apply Hf]; auto. Qed.

(** [modifies N F m]: wherever [m] stops, by return or by power loss, it has
    changed nothing outside [N] and [F]; and it always stops. *)
Definition modifies {A} (N F : Z -> Prop) (m : M A) : Prop :=
  forall w, wp m (fun _ w' => frame N F (w_hw w) (w_hw w'))
                 (fun h => frame N F (w_hw w) h) w.

Lemma modifies_ret {A} N F (a : A) : modifies N F (ret a).
Proof. intros w. apply wp_ret, frame_refl. Qed.

Lemma modifies_bind {A B} N F (m : M A) (k : A -> M B) :
  modifies N F m -> (forall a, modifies N F (k a)) -> modifies N F (bind m k).
Proof.
  intros Hm Hk w. apply wp_bind. eapply wp_mono; [apply Hm| |done].
  intros a w1 H1. cbv beta. eapply wp_mono; [apply Hk|..].
  - intros b w2 H2. exact (frame_trans _ _ _ _ _ H1 H2).
  - intros h H2. exact (frame_trans _ _ _ _ _ H1 H2).
Qed.

Lemma modifies_mono {A} (N N' F F' : Z -> Prop) (m : M A) :
  (forall a, N a -> N' a) -> (forall a, F a -> F' a) ->
  modifies N F m -> modifies N' F' m.
Proof.
  intros HN HF Hm w. eapply wp_mono; [apply Hm|..].
  - intros a w' H. by eapply frame_mono.
  - intros h H. by eapply frame_mono.
Qed.

Lemma modifies_get_ram N F : modifies N F get_ram.
Proof. intros w. apply wp_get_ram, frame_refl. Qed.

Lemma modifies_put_ram N F r : modifies N F (put_ram r).
Proof. intros w. apply wp_put_ram, frame_refl. Qed.

Lemma modifies_flash_read N F a n : modifies N F (flash_read a n).
Proof. intros w. apply wp_flash_read, frame_refl. Qed.

Lemma modifies_if {A} N F (b : bool) (m m' : M A) :
  (b = true -> modifies N F m) -> (b = false -> modifies N F m') ->
  modifies N F (if b then m else m').
Proof. destruct b; auto. Qed.

(** The footprint rule for loops: the state invariant [J] may be used to bound
    the footprint of an iteration. *)
Lemma modifies_loop {S R} N F (J : S -> Prop) (mu : S -> Z) fuel
    (body : S -> M (S + R)) s :
  (forall s w, J s -> 0 <= mu s ->
     wp (body s) (fun x w' => frame N F (w_hw w) (w_hw w') /\
                    match x with
                    | inl s' => J s' /\ 0 <= mu s' <= mu s - 1
                    | inr _ => True
                    end) (fun h => frame N F (w_hw w) h) w) ->
  J s -> 0 <= mu s < fuel -> modifies N F (loop fuel body s).
Proof.
  intros Hbody HJ Hmu w.
  apply (wp_loop (fun s w' => J s /\ frame N F (w_hw w) (w_hw w')) mu);
    [|split; [done | apply frame_refl]|done].
  clear s HJ Hmu. intros s w1 [HJ Hf] Hmu.
  eapply wp_mono; [by apply Hbody| |].
  - intros [s'|r] w2 [Hf2 Hx]; [|exact (frame_trans _ _ _ _ _ Hf Hf2)].
    destruct Hx. split_and!; [done | exact (frame_trans _ _ _ _ _ Hf Hf2) | lia..].
  - intros h Hh. exact (frame_trans _ _ _ _ _ Hf Hh).
Qed.

(** ** Hardware operations *)

Definition FLASH_ErasePage (page : Z) : M FLASH_Status := hw_op (flash_erase_page page).
Definition FLASH_ProgramHalfWord (address value : Z) : M FLASH_Status :=
  hw_op (flash_program_half_word address value).

Lemma wp_hw_op {A} (f : hw -> hw * Outcome A) (Q : A -> World -> Prop) (C : hw -> Prop) w :
  snd (f (w_hw w)) <> OutOfFuel ->
  (forall a, snd (f (w_hw w)) = Ret a -> Q a (mkWorld (fst (f (w_hw w))) (w_ram w))) ->
  (snd (f (w_hw w)) = PowerLost -> C (fst (f (w_hw w)))) ->
  wp (hw_op f) Q C w.
Proof.
  intros Hn HQ HC. unfold wp, hw_op.
  destruct (f (w_hw w)) as [h [a| |]]; cbn in *; auto.
Qed.

Lemma modifies_erase_page (N F : Z -> Prop) p :
  (forall a, a / INTERNAL_FLASH_PAGE_SIZE = p / INTERNAL_FLASH_PAGE_SIZE -> F a) ->
  modifies N F (FLASH_ErasePage p).
Proof.
  intros HF w.
  assert (frame N F (w_hw w) (fst (flash_erase_page p (w_hw w)))) as Hf.
  { split; intros; [apply erase_nor | apply erase_frame; eauto]. }
  apply wp_hw_op; [apply erase_terminates | done | done].
Qed.

Lemma modifies_program_half_word (N F : Z -> Prop) p v :
  F p -> F (p + 1) -> modifies N F (FLASH_ProgramHalfWord p v).
Proof.
  intros HF HF1 w.
  assert (frame N F (w_hw w) (fst (flash_program_half_word p v (w_hw w)))) as Hf.
  { split; intros; [apply program_nor|].
    apply program_frame; intros ->; done. }
  apply wp_hw_op; [apply program_terminates | done | done].
Qed.

(** ** The core registers around flash programming *)

Definition get_primask : M Z := bind get_ram (fun r => ret (PRIMASK r)).

Definition set_primask (v : Z) : M unit := bind get_ram (fun r =>
  put_ram (mkRam (g_initialized r) (g_jedec_id r) (g_last_status r) v (flash_unlocked r))).

(** [__disable_irq] and [__enable_irq]. *)
Definition disable_irq : M unit := set_primask 1.
Definition enable_irq : M unit := set_primask 0.

Definition set_unlocked (b : bool) : M unit := bind get_ram (fun r =>
  put_ram (mkRam (g_initialized r) (g_jedec_id r) (g_last_status r)
             (PRIMASK r) b)).

Definition FLASH_Unlock : M unit := set_unlocked true.
Definition FLASH_Lock : M unit := set_unlocked false.

End device.

Arguments World HW : clear implicits.
Arguments M HW A : clear implicits.

(** Reading the world without changing its memories. *)
Abbreviation preserves m := (modifies nowhere nowhere m).

Declare Scope m_scope.
Delimit Scope m_scope with m.
Notation "x <- c ;; k" := (bind c (fun x => k))
  (at level 100, c at next level, right associativity) : m_scope.
Notation "c ;; k" := (bind c (fun _ => k))
  (at level 100, right associativity) : m_scope.
#[global] Open Scope m_scope.

#[export] Hint Resolve frame_refl modifies_ret modifies_get_ram modifies_put_ram
  modifies_flash_read : ota.

(** Peel binds and conditionals off a [modifies] goal. *)
Ltac modifies_step := first
  [ progress intros
  | apply modifies_ret | apply modifies_get_ram | apply modifies_put_ram
  | apply modifies_flash_read
  | apply modifies_bind
  | apply modifies_if
  | match goal with |- modifies _ _ (match ?x with _ => _ end) => destruct x end
  | solve [eauto 3 with ota] ].
Ltac modifies_auto := repeat modifies_step.

Lemma modifies_set_primask {HW : Hw} N F v : modifies N F (set_primask v).
Proof. unfold set_primask. modifies_auto. Qed.
Lemma modifies_set_unlocked {HW : Hw} N F v : modifies N F (set_unlocked v).
Proof. unfold set_unlocked. modifies_auto. Qed.
Lemma modifies_get_primask {HW : Hw} N F : modifies N F get_primask.
Proof. unfold get_primask. modifies_auto. Qed.
#[export] Hint Resolve modifies_set_primask modifies_set_unlocked modifies_get_primask : ota.
#[export] Hint Unfold disable_irq enable_irq FLASH_Unlock FLASH_Lock : ota.
