(* ===== verification/Sim.v ===== *)
(** * Sim: a concrete, executable device

    A W25Q chip and an STM32 internal flash that satisfy the contract of
    [Device]: page program clears bits and wraps inside its page, erase sets
    them, both need the write-enable latch; the internal flash refuses to
    program a half-word that is not erased.  [sim_budget] cuts the power after
    that many hardware operations.  The witnesses of the development run on it. *)

From S2P Require Import Prelude Bytes MemoryMap Device.

Record SimState := mkSim {
  sim_nor : Z -> Z;
  sim_flash : Z -> Z;
  sim_session : list Z;
  sim_wel : bool;
  sim_budget : option nat
}.

(** Count one operation; [None] when the power is gone. *)
Definition sim_tick (s : SimState) : option SimState :=
  match sim_budget s with
  | None => Some s
  | Some O => None
  | Some (S n) => Some (mkSim (sim_nor s) (sim_flash s) (sim_session s) (sim_wel s) (Some n))
  end.

Definition sim_op {A} (f : SimState -> SimState * A) (s : SimState) : SimState * Outcome A :=
  match sim_tick s with
  | None => (s, PowerLost)
  | Some s => let '(s, a) := f s in (s, Ret a)
  end.

Definition sim_nor_byte (s : SimState) (a : Z) : Z := sim_nor s a mod 2 ^ 8.
Definition sim_flash_byte (s : SimState) (a : Z) : Z := sim_flash s a mod 2 ^ 8.

Definition sim_select : SimState -> SimState * Outcome unit :=
  sim_op (fun s => (mkSim (sim_nor s) (sim_flash s) [] (sim_wel s) (sim_budget s), tt)).

Definition sim_reply (s : SimState) : Z :=
  match sim_session s with
  | 0x03 :: a2 :: a1 :: a0 :: dummies => sim_nor_byte s (addr24 a2 a1 a0 + len dummies)
  | 0x05 :: _ => if sim_wel s then 0x02 else 0x00
  | [0x9F] => 0xEF
  | [0x9F; _] => 0x40
  | [0x9F; _; _] => 0x16
  | _ => 0xFF
  end.

Definition sim_exchange (tx : Z) : SimState -> SimState * Outcome (option Z) :=
  sim_op (fun s =>
    (mkSim (sim_nor s) (sim_flash s) (sim_session s ++ [tx]) (sim_wel s) (sim_budget s),
     Some (sim_reply s))).

(** Bytes [data] programmed at [base], wrapping inside the page. *)
Fixpoint sim_program (base i : Z) (data : list Z) (m : Z -> Z) : Z -> Z :=
  match data with
  | [] => m
  | d :: data =>
      let p := base / EXT_FLASH_PAGE_SIZE * EXT_FLASH_PAGE_SIZE +
               (base + i) mod EXT_FLASH_PAGE_SIZE in
      sim_program base (i + 1) data (fun a => if a =? p then Z.land (m a) d else m a)
  end.

Definition sim_erase (base : Z) (m : Z -> Z) : Z -> Z := fun a =>
  if a / EXT_FLASH_SECTOR_SIZE =? base / EXT_FLASH_SECTOR_SIZE then 0xFF else m a.

(** The nor bytes and the latch after chip select goes high. *)
Definition sim_close (s : SimState) : (Z -> Z) * bool :=
  match sim_session s with
  | 0x06 :: _ => (sim_nor s, true)
  | 0x02 :: a2 :: a1 :: a0 :: data =>
      if sim_wel s then (sim_program (addr24 a2 a1 a0) 0 data (sim_nor s), false)
      else (sim_nor s, false)
  | 0x20 :: a2 :: a1 :: a0 :: _ =>
      if sim_wel s then (sim_erase (addr24 a2 a1 a0) (sim_nor s), false)
      else (sim_nor s, false)
  | _ => (sim_nor s, sim_wel s)
  end.

Definition sim_deselect : SimState -> SimState * Outcome unit :=
  sim_op (fun s => let '(m, wel) := sim_close s in
    (mkSim m (sim_flash s) [] wel (sim_budget s), tt)).

Definition sim_set_flash (f : Z -> Z) (s : SimState) : SimState :=
  mkSim (sim_nor s) f (sim_session s) (sim_wel s) (sim_budget s).

Definition sim_erase_page (p : Z) : SimState -> SimState * Outcome FLASH_Status :=
  sim_op (fun s => (sim_set_flash (fun a =>
    if a / INTERNAL_FLASH_PAGE_SIZE =? p / INTERNAL_FLASH_PAGE_SIZE then 0xFF
    else sim_flash s a) s, FLASH_COMPLETE)).

Definition sim_program_half_word (p v : Z) : SimState -> SimState * Outcome FLASH_Status :=
  sim_op (fun s =>
    if (sim_flash_byte s p =? 0xFF) && (sim_flash_byte s (p + 1) =? 0xFF)
    then (sim_set_flash (fun a => if a =? p then u8 v
            else if a =? p + 1 then u8 (v / 2 ^ 8) else sim_flash s a) s, FLASH_COMPLETE)
    else (s, FLASH_ERROR_PG)).

(** ** It satisfies the contract *)

Lemma sim_op_total {A} (f : SimState -> SimState * A) s : snd (sim_op f s) <> OutOfFuel.
Proof. unfold sim_op. destruct (sim_tick s) as [s'|]; [|done]. by destruct (f s'). Qed.

(** What an operation that runs does, up to the tick. *)
Lemma sim_op_inv {A} (f : SimState -> SimState * A) s (P : SimState -> Prop) (Q : A -> Prop) :
  P s ->
  (forall b, let s1 := mkSim (sim_nor s) (sim_flash s) (sim_session s) (sim_wel s) b in
     P (fst (f s1)) /\ Q (snd (f s1))) ->
  P (fst (sim_op f s)) /\ (forall a, snd (sim_op f s) = Ret a -> Q a).
Proof.
  intros HP Hf. unfold sim_op, sim_tick.
  destruct s as [n fl se wl [[|b]|]]; cbn [sim_budget]; [done| |];
    [specialize (Hf (Some b))|specialize (Hf None)]; cbn in *; revert Hf;
    destruct (f _) as [s' a]; cbn; intros [HP' HQ];
    (split; [done|]); by intros ? [= <-].
Qed.

Lemma sim_program_frame base i data m a :
  0 <= i -> base mod EXT_FLASH_PAGE_SIZE + i + len data <= EXT_FLASH_PAGE_SIZE ->
  ~ (base + i <= a < base + i + len data) -> sim_program base i data m a = m a.
Proof.
  revert i m. induction data as [|d data IH]; intros i m Hi Hfit Ha; [done|].
  cbn [sim_program length] in *. cbv zeta. rewrite IH by lia.
  assert (base / EXT_FLASH_PAGE_SIZE * EXT_FLASH_PAGE_SIZE + (base + i) mod EXT_FLASH_PAGE_SIZE
          = base + i) as ->.
  { pose proof (Z.div_mod base EXT_FLASH_PAGE_SIZE ltac:(done)).
    pose proof (Z.mod_pos_bound base EXT_FLASH_PAGE_SIZE ltac:(done)).
    rewrite <- (Z.mod_unique (base + i) EXT_FLASH_PAGE_SIZE (base / EXT_FLASH_PAGE_SIZE)
      (base mod EXT_FLASH_PAGE_SIZE + i)); map_lia. }
  destruct (Z.eqb_spec a (base + i)); [lia|done].
Qed.

Lemma sim_program_page base i data m a :
  base / EXT_FLASH_PAGE_SIZE <> a / EXT_FLASH_PAGE_SIZE -> sim_program base i data m a = m a.
Proof.
  intros Ha. revert i m. induction data as [|d data IH]; intros i m; [done|].
  cbn [sim_program]. cbv zeta. rewrite IH.
  destruct (Z.eqb_spec a (base / EXT_FLASH_PAGE_SIZE * EXT_FLASH_PAGE_SIZE +
    (base + i) mod EXT_FLASH_PAGE_SIZE)) as [->|]; [|done].
  exfalso. apply Ha. rewrite Z.div_add_l by done.
  rewrite (Z.div_small ((base + i) mod _)) by (apply Z.mod_pos_bound; done). lia.
Qed.

Lemma sim_close_frame s a :
  ~ nor_footprint (sim_session s) a -> fst (sim_close s) a mod 2 ^ 8 = sim_nor s a mod 2 ^ 8.
Proof.
  unfold sim_close, nor_footprint.
  destruct (sim_session s) as [|op args]; [done|]. intros Hn.
  destruct (Z.eq_dec op 2) as [->|]; [|destruct (Z.eq_dec op 32) as [->|]].
  - destruct args as [|a2 [|a1 [|a0 data]]]; [done..|].
    destruct (sim_wel s); [|done]. cbn [fst]. cbn [Z.eqb Pos.eqb] in Hn. cbv zeta in Hn.
    f_equal. destruct (Z.leb_spec (addr24 a2 a1 a0 mod EXT_FLASH_PAGE_SIZE + len data)
      EXT_FLASH_PAGE_SIZE).
    + apply sim_program_frame; lia.
    + by apply sim_program_page.
  - destruct args as [|a2 [|a1 [|a0 data]]]; [done..|].
    destruct (sim_wel s); [|done]. cbn [fst]. cbn [Z.eqb Pos.eqb] in Hn. unfold sim_erase.
    destruct (Z.eqb_spec (a / EXT_FLASH_SECTOR_SIZE) (addr24 a2 a1 a0 / EXT_FLASH_SECTOR_SIZE));
      [congruence|done].
  - destruct op as [|op|op]; try done. repeat (destruct op as [op|op|]; try done).
Qed.

#[export, refine] Instance SimHw : Hw := {|
  hw := SimState;
  nor := sim_nor_byte;
  flash := sim_flash_byte;
  spi_session := sim_session;
  Device.spi_select := sim_select;
  spi_exchange := sim_exchange;
  spi_deselect := sim_deselect;
  flash_erase_page := sim_erase_page;
  flash_program_half_word := sim_program_half_word
|}.
Proof.
  all: try (intros; apply sim_op_total).
  all: try (intros; by apply Z.mod_pos_bound).
  - intros h a. apply (sim_op_inv _ h (fun s => sim_nor_byte s a = sim_nor_byte h a) (fun _ => True)); done.
  - intros h a. apply (sim_op_inv _ h (fun s => sim_flash_byte s a = sim_flash_byte h a) (fun _ => True)); done.
  - intros [n f se wl [[|b]|]]; done.
  - intros tx h a. apply (sim_op_inv _ h (fun s => sim_nor_byte s a = sim_nor_byte h a) (fun _ => True)); done.
  - intros tx h a. apply (sim_op_inv _ h (fun s => sim_flash_byte s a = sim_flash_byte h a) (fun _ => True)); done.
  - intros tx [n f se wl [[|b]|]] r H; by left.
  - intros tx h rx. unfold sim_exchange. intros H.
    destruct (sim_op_inv (fun s => (mkSim (sim_nor s) (sim_flash s) (sim_session s ++ [tx])
      (sim_wel s) (sim_budget s), Some (sim_reply s))) h (fun _ => True)
      (fun r => forall x, r = Some x -> is_byte x) I) as [_ Hq].
    + intros b. split; [done|]. intros x [= <-]. unfold sim_reply.
      repeat case_match; try (split; [done|reflexivity]); try apply Z.mod_pos_bound; done.
    + by apply (Hq _ H).
  - intros tx [n f se wl [[|b]|]] rx a2 a1 a0 d Hs Hr H; cbn in *; [done|..];
      injection H as <-; unfold sim_reply; cbn; by rewrite Hs.
  - intros h a. unfold sim_deselect.
    apply (sim_op_inv _ h (fun s => sim_flash_byte s a = sim_flash_byte h a) (fun _ => True)); [done|].
    intros b. cbn. by destruct (sim_close _).
  - intros h a Ha. unfold sim_deselect.
    apply (sim_op_inv _ h (fun s => sim_nor_byte s a = sim_nor_byte h a) (fun _ => True)); [done|].
    intros b s1. split; [|done]. pose proof (sim_close_frame s1 a Ha) as Hc.
    destruct (sim_close s1) as [m wel]. exact Hc.
  - intros [n f se wl [[|b]|]] H; cbn in *; [done|..]; unfold sim_deselect, sim_op; cbn;
      by destruct (sim_close _).
  - intros p h a. apply (sim_op_inv _ h (fun s => sim_nor_byte s a = sim_nor_byte h a) (fun _ => True)); done.
  - intros p [n f se wl [[|b]|]]; done.
  - intros p h a Ha.
    apply (sim_op_inv _ h (fun s => sim_flash_byte s a = sim_flash_byte h a) (fun _ => True)); [done|].
    intros b. split; [|done]. unfold sim_flash_byte. cbn. by rewrite (proj2 (Z.eqb_neq _ _) Ha).
  - intros p h a. apply (sim_op_inv _ h (fun s => sim_flash_byte s a = sim_flash_byte h a \/
      sim_flash_byte s a = 0xFF) (fun _ => True)); [by left|].
    intros b. split; [|done]. unfold sim_flash_byte. cbn. case_if; [by right|by left].
  - intros p [n f se wl [[|b]|]] a H Ha; cbn in *; [done|..]; unfold sim_flash_byte; cbn;
      by rewrite (proj2 (Z.eqb_eq _ _) Ha).
  - intros p v h a. apply (sim_op_inv _ h (fun s => sim_nor_byte s a = sim_nor_byte h a) (fun _ => True));
      [done|]. intros b. cbn. by case_if.
  - intros p v [n f se wl [[|b]|]]; [done|..]; cbn; unfold sim_program_half_word, sim_op; cbn;
      by case_if.
  - intros p v h a H0 H1.
    apply (sim_op_inv _ h (fun s => sim_flash_byte s a = sim_flash_byte h a) (fun _ => True)); [done|].
    intros b. cbn. case_if; [|done]. unfold sim_flash_byte. cbn.
    by rewrite (proj2 (Z.eqb_neq _ _) H0), (proj2 (Z.eqb_neq _ _) H1).
  - intros p v h i Hi.
    apply (sim_op_inv _ h (fun s => sim_flash_byte s (p + i) = sim_flash_byte h (p + i) \/
      sim_flash_byte s (p + i) = (v / 2 ^ (8 * i)) mod 2 ^ 8) (fun _ => True)); [by left|].
    intros b. cbn. case_if; [|by split; [left|]]. split; [right|done]. unfold sim_flash_byte. cbn.
    destruct Hi as [-> | ->].
    + rewrite Z.add_0_r, Z.eqb_refl, Z.div_1_r. apply Z.mod_mod. done.
    + rewrite (proj2 (Z.eqb_neq _ _)) by lia. rewrite Z.eqb_refl. apply Z.mod_mod. done.
  - intros p v [n f se wl [[|b]|]] i H Hi; cbn in *; [done|..]; revert H; case_if; try done;
      intros _; unfold sim_flash_byte; cbn; destruct Hi as [-> | ->].
    + rewrite Z.add_0_r, Z.eqb_refl, Z.div_1_r. apply Z.mod_mod. done.
    + rewrite (proj2 (Z.eqb_neq _ _)) by lia. rewrite Z.eqb_refl. apply Z.mod_mod. done.
    + rewrite Z.add_0_r, Z.eqb_refl, Z.div_1_r. apply Z.mod_mod. done.
    + rewrite (proj2 (Z.eqb_neq _ _)) by lia. rewrite Z.eqb_refl. apply Z.mod_mod. done.
Defined.

(** A blank device with unlimited power, after reset. *)
Definition sim_blank : SimState := mkSim (fun _ => 0xFF) (fun _ => 0xFF) [] false None.
Definition sim_world (s : SimState) : World SimHw := mkWorld s reset_ram.
