(* ===== verification/Logic.v ===== *)
(** * Logic: triples with a footprint

    [triple N F P m Q]: started in [P], the call [m] stops; it alters no NOR
    byte outside [N] and no flash byte outside [F], whether it returns or power
    is lost; and if it returns [a], [Q a] holds.  Facts about bytes outside the
    footprint survive a call ([triple_stable]). *)

From S2P Require Import Prelude Bytes MemoryMap Device.

Section logic.
Context {HW : Hw}.
Implicit Types w : World HW.

Definition triple {A} (N F : Z -> Prop) (P : World HW -> Prop) (m : M HW A)
    (Q : A -> World HW -> Prop) : Prop :=
  forall w, P w ->
    wp m (fun a w' => frame N F (w_hw w) (w_hw w') /\ Q a w')
         (fun h => frame N F (w_hw w) h) w.

Lemma triple_modifies {A} N F P (m : M HW A) Q :
  triple N F P m Q -> (forall w, P w) -> modifies N F m.
Proof. intros H HP w. eapply wp_mono; [by apply H| |done]. by intros a w' []. Qed.

Lemma modifies_triple {A} N F (m : M HW A) P :
  modifies N F m -> triple N F P m (fun _ _ => True).
Proof. intros H w _. eapply wp_mono; [apply H| |done]. done. Qed.

Lemma triple_ret {A} N F (P : World HW -> Prop) (a : A) (Q : A -> World HW -> Prop) :
  (forall w, P w -> Q a w) -> triple N F P (ret a) Q.
Proof. intros H w HP. apply wp_ret. split; [apply frame_refl | auto]. Qed.

Lemma triple_bind {A B} N F P (m : M HW A) R (k : A -> M HW B) Q :
  triple N F P m R -> (forall a, triple N F (R a) (k a) Q) ->
  triple N F P (x <- m ;; k x) Q.
Proof.
  intros Hm Hk w HP. apply wp_bind. eapply wp_mono; [by apply Hm| |done].
  intros a w1 [Hf1 HR]. cbv beta. eapply wp_mono; [by apply Hk|..].
  - intros b w2 [Hf2 HQ]. split; [exact (frame_trans _ _ _ _ _ Hf1 Hf2) | done].
  - intros h Hf2. exact (frame_trans _ _ _ _ _ Hf1 Hf2).
Qed.

Lemma triple_conseq {A} (N N' F F' : Z -> Prop) (P P' : World HW -> Prop) (m : M HW A)
    (Q Q' : A -> World HW -> Prop) :
  triple N F P m Q ->
  (forall a, N a -> N' a) -> (forall a, F a -> F' a) ->
  (forall w, P' w -> P w) -> (forall a w, Q a w -> Q' a w) ->
  triple N' F' P' m Q'.
Proof.
  intros H HN HF HP HQ w HP'. eapply wp_mono; [apply H; auto|..].
  - intros a w' [Hf HQ1]. split; [by eapply frame_mono | auto].
  - intros h Hf. by eapply frame_mono.
Qed.

(** Strengthen the precondition or weaken the postcondition only. *)
Lemma triple_pre {A} N F (P P' : World HW -> Prop) (m : M HW A) Q :
  triple N F P m Q -> (forall w, P' w -> P w) -> triple N F P' m Q.
Proof. intros. by eapply triple_conseq. Qed.

Lemma triple_post {A} N F (P : World HW -> Prop) (m : M HW A) (Q Q' : A -> World HW -> Prop) :
  triple N F P m Q -> (forall a w, Q a w -> Q' a w) -> triple N F P m Q'.
Proof. intros. by eapply triple_conseq. Qed.

(** Facts of the precondition that do not depend on the state. *)
Lemma triple_pure {A} N F (P : World HW -> Prop) (phi : Prop) (m : M HW A) Q :
  (forall w, P w -> phi) -> (phi -> triple N F P m Q) -> triple N F P m Q.
Proof. intros Hp H w HP. apply H; eauto. Qed.

Lemma triple_exists {A B} N F (P : B -> World HW -> Prop) (m : M HW A) Q :
  (forall b, triple N F (P b) m Q) -> triple N F (fun w => exists b, P b w) m Q.
Proof. intros H w [b HP]. by apply (H b). Qed.

Lemma triple_if {A} N F P (b : bool) (m m' : M HW A) Q :
  (b = true -> triple N F P m Q) -> (b = false -> triple N F P m' Q) ->
  triple N F P (if b then m else m') Q.
Proof. destruct b; auto. Qed.

(** A fact that no change inside the footprint can break. *)
Definition stable (N F : Z -> Prop) (Phi : hw -> Prop) : Prop :=
  forall h h', frame N F h h' -> Phi h -> Phi h'.

Lemma triple_stable {A} N F (Phi : hw -> Prop) P (m : M HW A) Q :
  stable N F Phi -> triple N F P m Q ->
  triple N F (fun w => P w /\ Phi (w_hw w)) m (fun a w => Q a w /\ Phi (w_hw w)).
Proof.
  intros HS H w [HP HPhi]. eapply wp_mono; [by apply H| |done].
  intros a w' [Hf HQ]. split_and!; [done..|]. by eapply HS.
Qed.

Lemma triple_loop {S R} N F (I : S -> World HW -> Prop) (mu : S -> Z) fuel
    (body : S -> M HW (S + R)) s (Q : R -> World HW -> Prop) :
  (forall s, 0 <= mu s -> triple N F (I s) (body s) (fun x w =>
     match x with
     | inl s' => I s' w /\ 0 <= mu s' < mu s
     | inr r => Q r w
     end)) ->
  0 <= mu s < fuel -> triple N F (I s) (loop fuel body s) Q.
Proof.
  intros Hbody Hmu w HI.
  apply (wp_loop (fun s w' => I s w' /\ frame N F (w_hw w) (w_hw w')) mu);
    [|by split; [|apply frame_refl]|done].
  clear s Hmu HI. intros s w1 [HI Hf] Hmu.
  eapply wp_mono; [by apply Hbody| |].
  - intros [s'|r] w2 [Hf2 HQ]; cbn.
    + destruct HQ. split_and!; [done|exact (frame_trans _ _ _ _ _ Hf Hf2)|lia..].
    + split; [exact (frame_trans _ _ _ _ _ Hf Hf2)|done].
  - intros h Hh. exact (frame_trans _ _ _ _ _ Hf Hh).
Qed.

(** RAM accesses see and change no memory. *)
Definition mem_only (P : World HW -> Prop) : Prop :=
  forall h r r', P (mkWorld h r) -> P (mkWorld h r').

Lemma triple_get_ram N F (P : World HW -> Prop) : triple N F P get_ram (fun r w => P w /\ r = w_ram w).
Proof. intros w HP. apply wp_get_ram. split; [apply frame_refl|done]. Qed.

Lemma triple_put_ram N F (P : hw -> Prop) r :
  triple N F (fun w => P (w_hw w)) (put_ram r) (fun _ w => P (w_hw w) /\ w_ram w = r).
Proof. intros w HP. apply wp_put_ram. split; [apply frame_refl|done]. Qed.

Lemma triple_flash_read N F P a n :
  triple N F P (flash_read a n) (fun bs w => P w /\ bs = flash (w_hw w) <$> seqZ a n).
Proof. intros w HP. apply wp_flash_read. split; [apply frame_refl|done]. Qed.

(** ** Contents of the memories *)

Definition nor_slice (h : hw) (a n : Z) : list Z := nor h <$> seqZ a n.
Definition flash_slice (h : hw) (a n : Z) : list Z := flash h <$> seqZ a n.

Lemma nor_slice_length h a n : 0 <= n -> len (nor_slice h a n) = n.
Proof. intros. unfold nor_slice. rewrite length_fmap, length_seqZ. lia. Qed.

Lemma flash_slice_length h a n : 0 <= n -> len (flash_slice h a n) = n.
Proof. intros. unfold flash_slice. rewrite length_fmap, length_seqZ. lia. Qed.

Lemma nor_slice_ok h a n : bytes_ok (nor_slice h a n).
Proof. apply Forall_fmap, Forall_true. intros. apply nor_byte. Qed.

Lemma flash_slice_ok h a n : bytes_ok (flash_slice h a n).
Proof. apply Forall_fmap, Forall_true. intros. apply flash_byte. Qed.

Lemma nor_slice_app h a n m :
  0 <= n -> 0 <= m -> nor_slice h a (n + m) = nor_slice h a n ++ nor_slice h (a + n) m.
Proof.
  intros. unfold nor_slice. rewrite seqZ_app, fmap_app by done. done.
Qed.

Lemma flash_slice_app h a n m :
  0 <= n -> 0 <= m -> flash_slice h a (n + m) = flash_slice h a n ++ flash_slice h (a + n) m.
Proof.
  intros. unfold flash_slice. rewrite seqZ_app, fmap_app by done. done.
Qed.

Lemma nor_slice_ext h h' a n :
  (forall i, a <= i < a + n -> nor h' i = nor h i) -> nor_slice h' a n = nor_slice h a n.
Proof.
  intros H. unfold nor_slice. apply list_fmap_ext. intros k x Hx.
  apply lookup_seqZ in Hx. apply H. lia.
Qed.

Lemma flash_slice_ext h h' a n :
  (forall i, a <= i < a + n -> flash h' i = flash h i) -> flash_slice h' a n = flash_slice h a n.
Proof.
  intros H. unfold flash_slice. apply list_fmap_ext. intros k x Hx.
  apply lookup_seqZ in Hx. apply H. lia.
Qed.

Lemma nor_slice_frame N F h h' a n :
  frame N F h h' -> (forall i, a <= i < a + n -> ~ N i) -> nor_slice h' a n = nor_slice h a n.
Proof. intros [Hn _] HN. apply nor_slice_ext. intros. by apply Hn, HN. Qed.

Lemma flash_slice_frame N F h h' a n :
  frame N F h h' -> (forall i, a <= i < a + n -> ~ F i) ->
  flash_slice h' a n = flash_slice h a n.
Proof. intros [_ Hf] HF. apply flash_slice_ext. intros. by apply Hf, HF. Qed.

Lemma nor_slice_stable (N F : Z -> Prop) a n (Phi : list Z -> Prop) :
  (forall i, a <= i < a + n -> ~ N i) -> stable N F (fun h => Phi (nor_slice h a n)).
Proof. intros HN h h' Hf H. by rewrite (nor_slice_frame N F h h'). Qed.

Lemma flash_slice_stable (N F : Z -> Prop) a n (Phi : list Z -> Prop) :
  (forall i, a <= i < a + n -> ~ F i) -> stable N F (fun h => Phi (flash_slice h a n)).
Proof. intros HN h h' Hf H. by rewrite (flash_slice_frame N F h h'). Qed.

(** A region is a list of bytes when it is so byte by byte. *)
Lemma map_eq_bytes (f : Z -> Z) a data :
  (forall i, 0 <= i < len data -> f (a + i) = byte_at data i) -> f <$> seqZ a (len data) = data.
Proof.
  intros H. apply list_eq_same_length with (length data); [done| |].
  { rewrite length_fmap, length_seqZ. lia. }
  intros i x y Hi Hx Hy.
  apply list_lookup_fmap_Some in Hx as (z & -> & Hz). apply lookup_seqZ in Hz as [-> ?].
  rewrite (H (Z.of_nat i)) by lia. unfold byte_at. rewrite Nat2Z.id. by apply nth_lookup_Some.
Qed.

Lemma nor_slice_eq_bytes h a n data :
  n = len data -> (forall i, 0 <= i < n -> nor h (a + i) = byte_at data i) ->
  nor_slice h a n = data.
Proof. intros ->. apply map_eq_bytes. Qed.

Lemma flash_slice_eq_bytes h a n data :
  n = len data -> (forall i, 0 <= i < n -> flash h (a + i) = byte_at data i) ->
  flash_slice h a n = data.
Proof. intros ->. apply map_eq_bytes. Qed.

(** Slices of slices. *)
Lemma slice_nor_slice h a n off m :
  0 <= off -> 0 <= m -> off + m <= n ->
  slice off m (nor_slice h a n) = nor_slice h (a + off) m.
Proof.
  intros. unfold slice.
  replace n with (off + (m + (n - off - m))) by lia.
  rewrite nor_slice_app, drop_app_length' by
    (lia || (pose proof (nor_slice_length h a off); lia)).
  rewrite nor_slice_app, take_app_length' by
    (lia || (pose proof (nor_slice_length h (a + off) m); lia)). done.
Qed.

End logic.

Arguments triple {HW A} N F P m Q.

(** One step of a [triple] proof on a bind, given the callee's triple; the
    second form also widens the footprint. *)
Tactic Notation "triple_step" uconstr(L) :=
  eapply triple_bind; [eapply triple_pre; [eapply L|] | cbv beta].
Tactic Notation "triple_wide" uconstr(L) :=
  eapply triple_bind;
  [eapply triple_conseq; [eapply L| | | |let H := fresh in intros ? ? H; exact H] | cbv beta].

#[export] Hint Resolve nor_slice_ok flash_slice_ok : ota.
