(* ===== verification/MetadataStorage.v ===== *)
(** * MetadataStorage: node-stm32f103/bootloader/storage/metadata_storage.c

    The A/B boot-metadata record in the last two pages of the internal flash:
    erase the page that does not hold the current record, program the new one
    half-word by half-word, read it back.  The theorems describe every state an
    interruption can leave: an interrupted commit never loses the current
    record, and a half-written record that still passes its checks differs from
    the requested one in nothing the boot decision looks at. *)

From S2P Require Import Prelude Bytes MemoryMap Crc32 AbRecord BootMetadata Device Sim.
From S2P Require Import Logic.

Inductive MetadataStorageStatus_t :=
  | METADATA_STORAGE_OK
  | METADATA_STORAGE_DEFAULTS_USED
  | METADATA_STORAGE_INVALID_ARGUMENT
  | METADATA_STORAGE_ERASE_FAILED
  | METADATA_STORAGE_PROGRAM_FAILED
  | METADATA_STORAGE_VERIFY_FAILED.

#[export] Instance MetadataStorageStatus_eq : EqDecision MetadataStorageStatus_t.
Proof. solve_decision. Defined.

(** shared/include/firmware_version.h; a build may redefine it. *)
Definition APPLICATION_VERSION : Z := 1.

Definition MetadataStorage_SlotAddress (slot : AbSlot) : Z :=
  match slot with
  | SLOT_A => BOOT_METADATA_A_ADDRESS
  | SLOT_B => BOOT_METADATA_B_ADDRESS
  | SLOT_NONE => 0
  end.

Section metadata_storage.
Context {HW : Hw}.
Implicit Types w : World HW.

Definition MetadataStorage_CopyFromFlash (address : Z) : M HW BootMetadata_t :=
  bytes <- flash_read address BootMetadata_SIZE ;;
  ret (rec_decode bytes).

Definition MetadataStorage_GetPrimask : M HW Z := get_primask.
Definition MetadataStorage_RestorePrimask (primask : Z) : M HW unit := set_primask primask.

Definition MetadataStorage_ReadSlot (slot : AbSlot)
    : M HW (BootMetadataValidationStatus_t * option BootMetadata_t) :=
  let address := MetadataStorage_SlotAddress slot in
  if address =? 0 then ret (BOOT_METADATA_INVALID_ARGUMENT, None) else
  m <- MetadataStorage_CopyFromFlash address ;;
  ret (BootMetadata_Validate (Some m), Some m).

(** The status, the record and the slot written to the out-parameters. *)
Definition MetadataStorage_Load : M HW (MetadataStorageStatus_t * BootMetadata_t * AbSlot) :=
  slot_a <- MetadataStorage_CopyFromFlash BOOT_METADATA_A_ADDRESS ;;
  slot_b <- MetadataStorage_CopyFromFlash BOOT_METADATA_B_ADDRESS ;;
  let newest := BootMetadata_SelectNewestSlot slot_a slot_b in
  ret (match newest with
       | SLOT_A => (METADATA_STORAGE_OK, slot_a, newest)
       | SLOT_B => (METADATA_STORAGE_OK, slot_b, newest)
       | SLOT_NONE =>
           (METADATA_STORAGE_DEFAULTS_USED, BootMetadata_Init APPLICATION_VERSION, SLOT_NONE)
       end).

(** The half-word loop of [ProgramSlot]. *)
Definition ProgramHalfWords (address : Z) (bytes : list Z) : M HW bool :=
  loop (BootMetadata_SIZE + 1) (fun offset =>
    if offset <? BootMetadata_SIZE then
      let value := u16 (Z.lor (byte_at bytes offset)
                              (Z.shiftl (byte_at bytes (offset + 1)) 8)) in
      flash_status <- FLASH_ProgramHalfWord (address + offset) value ;;
      if bool_decide (flash_status <> FLASH_COMPLETE) then ret (inr false)
      else ret (inl (offset + 2))
    else ret (inr true)) 0.

(** [FLASH_ClearFlag] only touches the controller's status flags. *)
Definition MetadataStorage_ProgramSlot (slot : AbSlot) (metadata : BootMetadata_t)
    : M HW MetadataStorageStatus_t :=
  let address := MetadataStorage_SlotAddress slot in
  if (address =? 0)
     || ((address <>? BOOT_METADATA_A_ADDRESS) && (address <>? BOOT_METADATA_B_ADDRESS))
  then ret METADATA_STORAGE_INVALID_ARGUMENT else
  primask <- MetadataStorage_GetPrimask ;;
  disable_irq ;;
  FLASH_Unlock ;;
  flash_status <- FLASH_ErasePage address ;;
  if bool_decide (flash_status <> FLASH_COMPLETE) then
    FLASH_Lock ;;
    MetadataStorage_RestorePrimask primask ;;
    ret METADATA_STORAGE_ERASE_FAILED
  else
  ok <- ProgramHalfWords address (rec_encode metadata) ;;
  if negb ok then
    FLASH_Lock ;;
    (if primask =? 0 then enable_irq else ret tt) ;;
    ret METADATA_STORAGE_PROGRAM_FAILED
  else
  FLASH_Lock ;;
  MetadataStorage_RestorePrimask primask ;;
  ret METADATA_STORAGE_OK.

Definition MetadataStorage_Commit (requested : option BootMetadata_t)
    : M HW (MetadataStorageStatus_t * option BootMetadata_t * AbSlot) :=
  let fail status := ret (status, None, SLOT_NONE) in
  match requested with
  | None => fail METADATA_STORAGE_INVALID_ARGUMENT
  | Some requested =>
      slot_a <- MetadataStorage_CopyFromFlash BOOT_METADATA_A_ADDRESS ;;
      slot_b <- MetadataStorage_CopyFromFlash BOOT_METADATA_B_ADDRESS ;;
      let current_slot := BootMetadata_SelectNewestSlot slot_a slot_b in
      let target_slot := BootMetadata_SelectWriteSlot slot_a slot_b in
      let current_generation :=
        match current_slot with
        | SLOT_A => bm_generation slot_a
        | SLOT_B => bm_generation slot_b
        | SLOT_NONE => 0
        end in
      let candidate := BootMetadata_Finalize
        (bm_set_generation (BootMetadata_NextGeneration current_generation) requested) in
      if bool_decide (BootMetadata_Validate (Some candidate) <> BOOT_METADATA_VALID)
      then fail METADATA_STORAGE_INVALID_ARGUMENT else
      status <- MetadataStorage_ProgramSlot target_slot candidate ;;
      if bool_decide (status <> METADATA_STORAGE_OK) then fail status else
      verification <- MetadataStorage_CopyFromFlash (MetadataStorage_SlotAddress target_slot) ;;
      if bool_decide (BootMetadata_Validate (Some verification) <> BOOT_METADATA_VALID)
         || negb (RecordsEqual candidate verification)
      then fail METADATA_STORAGE_VERIFY_FAILED
      else ret (METADATA_STORAGE_OK, Some verification, target_slot)
  end.

(** ** The metadata in the flash *)

Definition metadata_at (h : hw) (slot : AbSlot) : BootMetadata_t :=
  rec_decode (flash_slice h (MetadataStorage_SlotAddress slot) BootMetadata_SIZE).

Definition current_metadata (h : hw) : option BootMetadata_t :=
  ab_current (metadata_at h SLOT_A) (metadata_at h SLOT_B).

Definition metadata_page (slot : AbSlot) (a : Z) : Prop :=
  MetadataStorage_SlotAddress slot <= a <
  MetadataStorage_SlotAddress slot + INTERNAL_FLASH_PAGE_SIZE.

Definition real_slot (slot : AbSlot) : Prop := slot = SLOT_A \/ slot = SLOT_B.

Lemma metadata_at_wf h slot : rec_wf (metadata_at h slot).
Proof. apply rec_decode_wf; [auto with ota|]. by apply flash_slice_length. Qed.

Lemma metadata_page_div slot a : real_slot slot ->
  a / INTERNAL_FLASH_PAGE_SIZE = MetadataStorage_SlotAddress slot / INTERNAL_FLASH_PAGE_SIZE ->
  metadata_page slot a.
Proof.
  intros [-> | ->] Ha; unfold metadata_page; cbn [MetadataStorage_SlotAddress] in *;
    pose proof (Z.div_mod a INTERNAL_FLASH_PAGE_SIZE ltac:(done));
    pose proof (Z.mod_pos_bound a INTERNAL_FLASH_PAGE_SIZE ltac:(done)).
  - change (BOOT_METADATA_A_ADDRESS / INTERNAL_FLASH_PAGE_SIZE) with (131134) in Ha. map_lia.
  - change (BOOT_METADATA_B_ADDRESS / INTERNAL_FLASH_PAGE_SIZE) with (131135) in Ha. map_lia.
Qed.

Lemma metadata_page_div' slot a : real_slot slot -> metadata_page slot a ->
  a / INTERNAL_FLASH_PAGE_SIZE = MetadataStorage_SlotAddress slot / INTERNAL_FLASH_PAGE_SIZE.
Proof.
  intros [-> | ->] Ha; unfold metadata_page in Ha; cbn [MetadataStorage_SlotAddress] in *;
    symmetry.
  - apply (Z.div_unique a _ 131134 (a - BOOT_METADATA_A_ADDRESS)); map_lia.
  - apply (Z.div_unique a _ 131135 (a - BOOT_METADATA_B_ADDRESS)); map_lia.
Qed.

Lemma metadata_pages_disjoint a : metadata_page SLOT_A a -> metadata_page SLOT_B a -> False.
Proof. unfold metadata_page. cbn. map_lia. Qed.

(** ** Interrupted page writes *)

(** The state a page erase of the slot leaves, complete or cut short. *)
Definition erase_outcome (h : hw) (slot : AbSlot) : hw :=
  fst (flash_erase_page (MetadataStorage_SlotAddress slot) h).

(** The slot's bytes are those the page erase left. *)
Definition erasing (h0 h : hw) (slot : AbSlot) : Prop :=
  forall i, 0 <= i < BootMetadata_SIZE ->
    let a := MetadataStorage_SlotAddress slot + i in
    flash h a = flash (erase_outcome h0 slot) a.

(** The slot's bytes after [k] half-words of [bytes] and a possibly torn one. *)
Definition programming (h : hw) (slot : AbSlot) (bytes : list Z) (k : Z) : Prop :=
  forall i, 0 <= i < BootMetadata_SIZE ->
    let b := flash h (MetadataStorage_SlotAddress slot + i) in
    (i < 2 * k -> b = byte_at bytes i) /\
    (2 * k <= i < 2 * k + 2 -> b = byte_at bytes i \/ b = 0xFF) /\
    (2 * k + 2 <= i -> b = 0xFF).

Definition torn (h0 h : hw) (slot : AbSlot) (bytes : list Z) : Prop :=
  frame nowhere (metadata_page slot) h0 h /\
  (erasing h0 h slot \/ exists k, programming h slot bytes k).

Lemma half_word_bytes b0 b1 i : is_byte b0 -> is_byte b1 -> i = 0 \/ i = 1 ->
  (u16 (Z.lor b0 (Z.shiftl b1 8)) / 2 ^ (8 * i)) mod 2 ^ 8 = (if i =? 0 then b0 else b1).
Proof.
  unfold is_byte. intros H0 H1 Hi. rewrite lor_disjoint_add by lia.
  rewrite u16_small by (unfold is_u16; lia).
  destruct Hi as [-> | ->]; cbn [Z.eqb].
  - rewrite Z.mul_0_r, Z.pow_0_r, Z.div_1_r, Z.mod_add by lia. apply Z.mod_small. lia.
  - rewrite Z.mul_1_r, Z.div_add, Z.div_small by lia. apply Z.mod_small. lia.
Qed.

(** One half-word of the loop. *)
Lemma wp_program_step slot bytes k h0 w :
  real_slot slot -> bytes_ok bytes -> 0 <= k < 26 ->
  frame nowhere (metadata_page slot) h0 (w_hw w) ->
  (forall i, 0 <= i < BootMetadata_SIZE ->
     flash (w_hw w) (MetadataStorage_SlotAddress slot + i) =
       if i <? 2 * k then byte_at bytes i else 0xFF) ->
  wp (FLASH_ProgramHalfWord (MetadataStorage_SlotAddress slot + 2 * k)
        (u16 (Z.lor (byte_at bytes (2 * k)) (Z.shiftl (byte_at bytes (2 * k + 1)) 8))))
    (fun st w' =>
       w_ram w' = w_ram w /\ torn h0 (w_hw w') slot bytes /\
       (st = FLASH_COMPLETE -> forall i, 0 <= i < BootMetadata_SIZE ->
          flash (w_hw w') (MetadataStorage_SlotAddress slot + i) =
            if i <? 2 * k + 2 then byte_at bytes i else 0xFF))
    (fun h => torn h0 h slot bytes) w.
Proof.
  intros Hs Hb Hk Hf Hold. unfold FLASH_ProgramHalfWord.
  set (v := u16 _). set (p := MetadataStorage_SlotAddress slot + 2 * k).
  assert (Hv : forall i, i = 0 \/ i = 1 -> (v / 2 ^ (8 * i)) mod 2 ^ 8 = byte_at bytes (2 * k + i)).
  { intros i Hi. unfold v. rewrite half_word_bytes by (done || by apply byte_at_ok).
    destruct Hi as [-> | ->]; cbn [Z.eqb]; f_equal; lia. }
  assert (Hpage : forall i, 0 <= i < BootMetadata_SIZE ->
    metadata_page slot (MetadataStorage_SlotAddress slot + i)).
  { intros i Hi. unfold metadata_page, BootMetadata_SIZE in *. map_lia. }
  set (h' := fst (flash_program_half_word p v (w_hw w))).
  assert (Hf' : frame nowhere (metadata_page slot) h0 h').
  { unfold h'. split; intros a Ha; [rewrite program_nor; by apply Hf|].
    rewrite program_frame; [by apply Hf|..]; intros ->; apply Ha.
    - apply Hpage. unfold BootMetadata_SIZE. lia.
    - unfold p. rewrite <- Z.add_assoc. apply Hpage. unfold BootMetadata_SIZE. lia. }
  assert (Hother : forall i, 0 <= i < BootMetadata_SIZE -> ~ (2 * k <= i < 2 * k + 2) ->
    flash h' (MetadataStorage_SlotAddress slot + i) =
      if i <? 2 * k then byte_at bytes i else 0xFF).
  { intros i Hi Hne. unfold h'. rewrite program_frame by (unfold p; lia). by apply Hold. }
  assert (Htorn : torn h0 h' slot bytes).
  { split; [done|]. right. exists k. intros i Hi b. split_and!; intros Hik.
    - unfold b. rewrite Hother by lia. by rewrite (proj2 (Z.ltb_lt _ _)).
    - destruct (program_bytes p v (w_hw w) (i - 2 * k) ltac:(lia)) as [He|He];
        fold h' in He; replace (p + (i - 2 * k)) with (MetadataStorage_SlotAddress slot + i) in He
          by (unfold p; lia); unfold b; rewrite He.
      + right. rewrite Hold by done. by rewrite (proj2 (Z.ltb_ge _ _)) by lia.
      + left. rewrite Hv by lia. f_equal. lia.
    - unfold b. rewrite Hother by lia. by rewrite (proj2 (Z.ltb_ge _ _)) by lia. }
  apply wp_hw_op; [apply program_terminates| |intros _; exact Htorn].
  intros st Hst. split_and!; [done|exact Htorn|]. intros -> i Hi. cbn [w_hw]. fold h'.
  destruct (decide (2 * k <= i < 2 * k + 2)) as [Hin|Hin].
  - pose proof (program_complete p v (w_hw w) (i - 2 * k) Hst ltac:(lia)) as He.
    fold h' in He. replace (p + (i - 2 * k)) with (MetadataStorage_SlotAddress slot + i) in He
      by (unfold p; lia). rewrite He, Hv by lia.
    rewrite (proj2 (Z.ltb_lt _ _)) by lia. f_equal. lia.
  - rewrite Hother by done.
    destruct (Z.ltb_spec i (2 * k)), (Z.ltb_spec i (2 * k + 2)); done || lia.
Qed.

(** The whole loop, from an erased slot. *)
Lemma wp_ProgramHalfWords slot bytes h0 w :
  real_slot slot -> bytes_ok bytes -> len bytes = BootMetadata_SIZE ->
  frame nowhere (metadata_page slot) h0 (w_hw w) ->
  (forall i, 0 <= i < BootMetadata_SIZE ->
     flash (w_hw w) (MetadataStorage_SlotAddress slot + i) = 0xFF) ->
  wp (ProgramHalfWords (MetadataStorage_SlotAddress slot) bytes)
    (fun ok w' =>
       w_ram w' = w_ram w /\ torn h0 (w_hw w') slot bytes /\
       (ok = true -> flash_slice (w_hw w') (MetadataStorage_SlotAddress slot) BootMetadata_SIZE
                     = bytes))
    (fun h => torn h0 h slot bytes) w.
Proof.
  intros Hs Hb Hl Hf Herased. unfold ProgramHalfWords.
  apply (wp_loop (fun off w' => exists k, off = 2 * k /\ 0 <= k <= 26 /\
      w_ram w' = w_ram w /\ torn h0 (w_hw w') slot bytes /\
      forall i, 0 <= i < BootMetadata_SIZE ->
        flash (w_hw w') (MetadataStorage_SlotAddress slot + i) =
          if i <? 2 * k then byte_at bytes i else 0xFF)
    (fun off => BootMetadata_SIZE - off)); [| |done].
  - intros off w1 (k & -> & Hk & Hram & Ht & Hold) _. destruct (Z.ltb_spec (2 * k) BootMetadata_SIZE).
    + cbv zeta. apply wp_bind. unfold BootMetadata_SIZE in *.
      eapply wp_mono; [apply (wp_program_step slot bytes k h0); [done|done|lia|apply Ht|done]| |done].
      intros st w2 (Hram2 & Ht2 & Hc). cbv beta. rewrite Hram in Hram2. destruct (bool_decide_reflect (st <> FLASH_COMPLETE)) as [|Hst];
        apply wp_ret; [done|].
      apply dec_stable in Hst. split; [|lia]. exists (k + 1). split_and!; [lia..|done|done|].
      replace (2 * (k + 1)) with (2 * k + 2) by lia. by apply Hc.
    + apply wp_ret. split_and!; [done..|]. intros _. unfold flash_slice.
      apply list_eq_same_length with (length bytes); [done| |].
      { rewrite length_fmap, length_seqZ. unfold BootMetadata_SIZE in *. lia. }
      intros i x y Hi Hx Hy. apply list_lookup_fmap_Some in Hx as (z & -> & Hz).
      apply lookup_seqZ in Hz as [-> Hi2]. rewrite Hold by (unfold BootMetadata_SIZE in *; lia).
      rewrite (proj2 (Z.ltb_lt _ _)) by (unfold BootMetadata_SIZE in *; lia).
      unfold byte_at. rewrite Nat2Z.id. by apply nth_lookup_Some.
  - exists 0. split_and!; [done..| |].
    + split; [done|]. right. exists 0. intros i Hi b. split_and!; intros; [lia| |]; unfold b.
      * right. by apply Herased.
      * by apply Herased.
    + intros i Hi. rewrite (proj2 (Z.ltb_ge _ _)) by lia. by apply Herased.
Qed.

(** A slot write: success means the slot holds exactly the record; failure and
    power loss leave it torn.  Interrupts and the flash lock are restored. *)
Lemma wp_ProgramSlot slot m w :
  real_slot slot ->
  wp (MetadataStorage_ProgramSlot slot m)
    (fun st w' =>
       torn (w_hw w) (w_hw w') slot (rec_encode m) /\
       (st = METADATA_STORAGE_OK ->
          flash_slice (w_hw w') (MetadataStorage_SlotAddress slot) BootMetadata_SIZE = rec_encode m) /\
       flash_unlocked (w_ram w') = false /\
       (PRIMASK (w_ram w) = 0 \/ PRIMASK (w_ram w) = 1 ->
        PRIMASK (w_ram w') = PRIMASK (w_ram w)))
    (fun h => torn (w_hw w) h slot (rec_encode m)) w.
Proof.
  intros Hs. unfold MetadataStorage_ProgramSlot.
  assert ((MetadataStorage_SlotAddress slot =? 0)
     || ((MetadataStorage_SlotAddress slot <>? BOOT_METADATA_A_ADDRESS)
         && (MetadataStorage_SlotAddress slot <>? BOOT_METADATA_B_ADDRESS)) = false) as ->
    by (by destruct Hs as [-> | ->]).
  cbv zeta. apply wp_bind, wp_bind, wp_get_ram, wp_ret.
  set (primask := PRIMASK (w_ram w)).
  unfold disable_irq, set_primask, FLASH_Unlock, set_unlocked.
  apply wp_bind, wp_bind, wp_get_ram, wp_put_ram.
  apply wp_bind, wp_bind, wp_get_ram, wp_put_ram. cbn [w_hw w_ram].
  set (r1 := mkRam _ _ _ _ true). set (w1 := mkWorld (w_hw w) r1).
  set (p := MetadataStorage_SlotAddress slot).
  set (h' := fst (flash_erase_page p (w_hw w))).
  assert (Hf : frame nowhere (metadata_page slot) (w_hw w) h').
  { unfold h'. split; intros a Ha; [apply erase_nor|apply erase_frame].
    intros Hd. by apply Ha, metadata_page_div. }
  assert (Htorn : torn (w_hw w) h' slot (rec_encode m)).
  { split; [done|]. left. intros i Hi a. reflexivity. }
  (* The register restoring tail of every branch. *)
  assert (Hend : forall st (h : hw) (b : bool), torn (w_hw w) h slot (rec_encode m) ->
    (st = METADATA_STORAGE_OK -> flash_slice h p BootMetadata_SIZE = rec_encode m) ->
    wp (FLASH_Lock ;; (if b then set_primask primask
                       else if primask =? 0 then enable_irq else ret tt) ;; ret st)
      (fun st' w' => torn (w_hw w) (w_hw w') slot (rec_encode m) /\
         (st' = METADATA_STORAGE_OK -> flash_slice (w_hw w') p BootMetadata_SIZE = rec_encode m) /\
         flash_unlocked (w_ram w') = false /\
         (primask = 0 \/ primask = 1 -> PRIMASK (w_ram w') = primask))
      (fun h => torn (w_hw w) h slot (rec_encode m)) (mkWorld h r1)).
  { intros st h b Ht Hok. unfold FLASH_Lock, set_unlocked.
    apply wp_bind, wp_bind, wp_get_ram, wp_put_ram, wp_bind. cbn [w_hw w_ram].
    destruct b; [|destruct (Z.eqb_spec primask 0)].
    - apply wp_bind, wp_get_ram, wp_put_ram, wp_ret. by split_and!.
    - apply wp_bind, wp_get_ram, wp_put_ram, wp_ret. split_and!; [done..|]. intros _. done.
    - apply wp_ret, wp_ret. split_and!; [done..|]. cbn. intros []; [done|congruence]. }
  apply wp_bind, wp_hw_op; [apply erase_terminates| |intros _; exact Htorn].
  intros st Hst. cbn [w_hw w_ram w1] in *. fold h'.
  destruct (bool_decide_reflect (st <> FLASH_COMPLETE)) as [Hne|Heq].
  { by apply (Hend METADATA_STORAGE_ERASE_FAILED h' true). }
  apply dec_stable in Heq as ->. apply wp_bind.
  eapply wp_mono; [apply (wp_ProgramHalfWords slot _ (w_hw w)); [done|auto with ota| |done|]| |done].
  - exact (rec_encode_length m).
  - intros i Hi. apply erase_complete; [done|]. apply metadata_page_div'; [done|].
    unfold metadata_page, BootMetadata_SIZE in *. map_lia.
  - intros ok [h2 r2] (Hram & Ht & Hok). cbn [w_ram] in Hram. rewrite Hram.
    destruct ok; cbn [negb].
    + apply (Hend METADATA_STORAGE_OK h2 true); [done|]. intros _. by apply Hok.
    + by apply (Hend METADATA_STORAGE_PROGRAM_FAILED h2 false).
Qed.

(** ** What a torn record can be *)

(** [r] differs from [c] in nothing the boot decision and the progress of the
    update depend on; only the error code, the CRC and, in states that do not
    use it, the attempt counter may differ. *)
Definition same_decision (c r : BootMetadata_t) : Prop :=
  (forall i, (i < 10)%nat -> nth i (BootMetadata_fields r) 0 = nth i (BootMetadata_fields c) 0) /\
  (bm_state c = state_word UPDATE_TRIAL_BOOT \/ bm_state c = state_word UPDATE_CONFIRMED \/
   bm_state c = state_word UPDATE_ROLLBACK -> bm_boot_attempts r = bm_boot_attempts c).

Lemma same_decision_refl c : same_decision c c.
Proof. done. Qed.

Lemma metadata_encode h slot :
  rec_encode (metadata_at h slot) = flash_slice h (MetadataStorage_SlotAddress slot) BootMetadata_SIZE.
Proof. apply rec_encode_decode; [auto with ota|]. by apply flash_slice_length. Qed.

Lemma flash_slice_byte_at h a n i :
  0 <= i < n -> byte_at (flash_slice h a n) i = flash h (a + i).
Proof.
  intros Hi. unfold byte_at, flash_slice. rewrite nth_lookup.
  rewrite list_lookup_fmap, lookup_seqZ_lt by lia. cbn. f_equal. lia.
Qed.

(** If field [i] is a 16-bit value on both sides, everything up to it has been
    programmed. *)
Lemma programming_fields h slot c k i :
  rec_wf c -> programming h slot (rec_encode c) k -> (i < 13)%nat ->
  nth i (BootMetadata_fields (metadata_at h slot)) 0 < 2 ^ 16 ->
  nth i (BootMetadata_fields c) 0 < 2 ^ 16 ->
  forall m, (m <= i)%nat ->
    nth m (BootMetadata_fields (metadata_at h slot)) 0 = nth m (BootMetadata_fields c) 0.
Proof.
  intros Hc Hp Hi Hr16 Hc16.
  set (r := metadata_at h slot) in *.
  assert (Hr : rec_wf r) by apply metadata_at_wf.
  assert (Hrange : forall x, rec_wf x -> forall m, (m < 13)%nat ->
    is_u32 (nth m (BootMetadata_fields x) 0)).
  { intros x Hx m Hm. unfold rec_wf in Hx. rewrite Forall_forall in Hx.
    apply Hx, list_elem_of_In, nth_In. exact Hm. }
  assert (Hbyte : forall x, rec_wf x -> forall m j, (m < 13)%nat -> 0 <= j < 4 ->
    byte_at (rec_encode x) (4 * Z.of_nat m + j) =
    (nth m (BootMetadata_fields x) 0 / 2 ^ (8 * j)) mod 2 ^ 8).
  { intros x Hx m j Hm Hj. apply words_byte_at; done. }
  assert (Hflash : forall q, 0 <= q < BootMetadata_SIZE ->
    byte_at (rec_encode r) q = flash h (MetadataStorage_SlotAddress slot + q)).
  { intros q Hq. unfold r. rewrite metadata_encode. by apply flash_slice_byte_at. }
  assert (Hhigh : forall x, rec_wf x -> nth i (BootMetadata_fields x) 0 < 2 ^ 16 ->
    forall j, 2 <= j < 4 -> byte_at (rec_encode x) (4 * Z.of_nat i + j) = 0).
  { intros x Hx Hs j Hj. rewrite Hbyte by (done || lia).
    apply small_high_bytes; [|lia]. split; [apply Hrange; done|done]. }
  assert (Hk : 4 * Z.of_nat i + 3 < 2 * k + 2).
  { apply Z.lt_nge. intros Hge.
    destruct (Hp (4 * Z.of_nat i + 3) ltac:(unfold BootMetadata_SIZE; lia)) as (_ & _ & H).
    rewrite <- Hflash in H by (unfold BootMetadata_SIZE; lia).
    rewrite Hhigh in H by (done || lia). discriminate (H Hge). }
  assert (Heq : forall q, 0 <= q < 4 * Z.of_nat i + 4 ->
    byte_at (rec_encode r) q = byte_at (rec_encode c) q).
  { intros q Hq. destruct (decide (4 * Z.of_nat i + 2 <= q)) as [Hhi|Hlo].
    - replace q with (4 * Z.of_nat i + (q - 4 * Z.of_nat i)) by lia.
      rewrite !Hhigh by (done || lia). done.
    - rewrite Hflash by (unfold BootMetadata_SIZE; lia).
      destruct (Hp q ltac:(unfold BootMetadata_SIZE; lia)) as (H & _). apply H. lia. }
  intros m Hm. apply word_eq_bytes; [apply Hrange; (done || lia)..|].
  intros j Hj. rewrite <- !Hbyte by (done || lia). apply Heq. lia.
Qed.

Lemma valid_attempts m :
  BootMetadata_validb m = true ->
  bm_state m = state_word UPDATE_TRIAL_BOOT \/ bm_state m = state_word UPDATE_CONFIRMED \/
  bm_state m = state_word UPDATE_ROLLBACK ->
  bm_boot_attempts m <= BOOT_METADATA_MAX_BOOT_ATTEMPTS.
Proof.
  intros Hv Hs. apply BootMetadata_validb_spec, BootMetadata_Validate_spec in Hv.
  destruct Hv as (_ & _ & _ & _ & _ & _ & _ & Hc & _).
  unfold BootMetadata_StateFieldsAreConsistent in Hc.
  destruct Hs as [Hs|[Hs|Hs]]; rewrite Hs, state_of_word_state_word in Hc; to_prop; done.
Qed.

(** A half-programmed record that passes its checks decides like the one being
    written. *)
Lemma programming_valid h slot c k :
  rec_wf c -> BootMetadata_validb c = true ->
  programming h slot (rec_encode c) k ->
  BootMetadata_validb (metadata_at h slot) = true ->
  same_decision c (metadata_at h slot).
Proof.
  intros Hwf Hc Hp Hr.
  assert (Hcopy : forall x, BootMetadata_validb x = true ->
    nth 9 (BootMetadata_fields x) 0 < 2 ^ 16).
  { intros x Hx. apply BootMetadata_validb_spec, BootMetadata_Validate_spec in Hx.
    destruct_and!. cbn. map_lia. }
  pose proof (programming_fields h slot c k 9 Hwf Hp ltac:(lia) (Hcopy _ Hr) (Hcopy _ Hc)) as H9.
  split; [intros i Hi; apply H9; lia|]. intros Hs.
  assert (Hstate : bm_state (metadata_at h slot) = bm_state c) by apply (H9 3%nat ltac:(lia)).
  pose proof (valid_attempts _ Hc Hs) as Hca.
  rewrite <- Hstate in Hs. pose proof (valid_attempts _ Hr Hs) as Hra.
  unfold BOOT_METADATA_MAX_BOOT_ATTEMPTS in *.
  exact (programming_fields h slot c k 10 Hwf Hp ltac:(lia)
    (Z.le_lt_trans _ 3 (2 ^ 16) Hra eq_refl) (Z.le_lt_trans _ 3 (2 ^ 16) Hca eq_refl)
    10%nat ltac:(lia)).
Qed.

(** What a commit asks of the hardware: a slot whose page erase was cut short
    never reads as a valid record other than the one it held.  Every such
    record fails its CRC or its magic unless the erase stopped exactly on a
    different valid record; a device whose erase is all-or-nothing satisfies it
    always ([sim_erase_detected]). *)
Definition erase_detected (h0 : hw) (slot : AbSlot) : Prop :=
  let h := erase_outcome h0 slot in
  BootMetadata_validb (metadata_at h slot) = true -> metadata_at h slot = metadata_at h0 slot.

Lemma erased_same h0 h slot :
  erase_detected h0 slot -> erasing h0 h slot ->
  BootMetadata_validb (metadata_at h slot) = true ->
  metadata_at h slot = metadata_at h0 slot.
Proof.
  intros He Ht. assert (metadata_at h slot = metadata_at (erase_outcome h0 slot) slot) as ->.
  { unfold metadata_at. f_equal. apply flash_slice_ext. intros i Hi.
    replace i with (MetadataStorage_SlotAddress slot + (i - MetadataStorage_SlotAddress slot))
      by lia. apply Ht. lia. }
  exact He.
Qed.

(** The slot a commit writes, given the memory. *)
Definition target_slot (h : hw) : AbSlot :=
  BootMetadata_SelectWriteSlot (metadata_at h SLOT_A) (metadata_at h SLOT_B).

Definition commit_candidate (h : hw) (requested : BootMetadata_t) : BootMetadata_t :=
  rec_candidate
    (rec_next_generation (ab_generation (metadata_at h SLOT_A) (metadata_at h SLOT_B)))
    requested.

Lemma commit_candidate_wf h requested : rec_wf requested -> rec_wf (commit_candidate h requested).
Proof.
  intros Hwf. apply rec_candidate_wf; [|done].
  apply rec_next_range, ab_generation_range; apply metadata_at_wf.
Qed.

Lemma target_slot_real h : real_slot (target_slot h).
Proof. unfold target_slot, BootMetadata_SelectWriteSlot. cbv zeta. case_if; [by right|by left]. Qed.

(** Only the target slot's record can change. *)
Lemma slots_after h0 h :
  frame nowhere (metadata_page (target_slot h0)) h0 h ->
  (metadata_at h SLOT_A, metadata_at h SLOT_B) =
  ab_write (metadata_at h0 SLOT_A) (metadata_at h0 SLOT_B) (metadata_at h (target_slot h0)).
Proof.
  intros Hf.
  assert (Hkeep : forall s, (forall a, metadata_page s a -> ~ metadata_page (target_slot h0) a) ->
    metadata_at h s = metadata_at h0 s).
  { intros s Hs. unfold metadata_at. f_equal. eapply flash_slice_frame; [exact Hf|].
    intros i Hi. apply Hs. unfold metadata_page, BootMetadata_SIZE in *. map_lia. }
  unfold ab_write. cbn [rec_select_write_slot BootMetadata_ab]. fold (target_slot h0).
  destruct (target_slot_real h0) as [Ht|Ht]; rewrite Ht in *; f_equal; apply Hkeep;
    intros a Ha Hb; by eapply metadata_pages_disjoint.
Qed.

(** What the memory stands for after an interrupted commit. *)
Definition after_interruption (h0 : hw) (requested : BootMetadata_t) (h : hw) : Prop :=
  current_metadata h = current_metadata h0 \/
  exists r, current_metadata h = Some r /\ same_decision (commit_candidate h0 requested) r.

Lemma torn_after h0 requested h :
  rec_wf requested ->
  BootMetadata_validb (commit_candidate h0 requested) = true ->
  erase_detected h0 (target_slot h0) ->
  torn h0 h (target_slot h0) (rec_encode (commit_candidate h0 requested)) ->
  after_interruption h0 requested h.
Proof.
  intros Hwf Hc He [Hf Ht]. pose proof (slots_after h0 h Hf) as Hs.
  set (a := metadata_at h0 SLOT_A) in *. set (b := metadata_at h0 SLOT_B) in *.
  set (r := metadata_at h (target_slot h0)) in *.
  assert (Hcur : current_metadata h = ab_current (ab_write a b r).1 (ab_write a b r).2).
  { unfold current_metadata. pose proof (f_equal fst Hs) as H1. pose proof (f_equal snd Hs) as H2.
    cbn [fst snd] in H1, H2. by rewrite H1, H2. }
  pose proof (commit_candidate_wf h0 _ Hwf) as Hcwf.
  destruct (BootMetadata_validb r) eqn:Hr.
  - destruct Ht as [Ht|[k Ht]].
    + left. rewrite Hcur. unfold r. rewrite (erased_same h0 h _ He Ht Hr). unfold ab_write.
      change (rec_select_write_slot a b) with (target_slot h0).
      destruct (target_slot_real h0) as [-> | ->]; reflexivity.
    + right. exists r. pose proof (programming_valid h _ _ k Hcwf Hc Ht Hr) as Hsd.
      split; [|done]. rewrite Hcur.
      apply ab_write_current; [apply rec_generation_wf, metadata_at_wf..|exact Hr|].
      exact (proj1 Hsd 1%nat ltac:(lia)).
  - left. rewrite Hcur. by apply ab_torn_current.
Qed.

(** ** Commit *)

Lemma wp_CopyFromFlash a Q C w :
  Q (rec_decode (flash_slice (w_hw w) a BootMetadata_SIZE)) w ->
  wp (MetadataStorage_CopyFromFlash a) Q C w.
Proof. intros HQ. apply wp_bind, wp_flash_read, wp_ret. exact HQ. Qed.

(** The commit in terms of the slot write. *)
Lemma wp_Commit_slot requested (Q : _ -> World HW -> Prop) (C : hw -> Prop) w :
  let c := commit_candidate (w_hw w) requested in
  let target := target_slot (w_hw w) in
  (BootMetadata_validb c = false ->
     Q (METADATA_STORAGE_INVALID_ARGUMENT, None, SLOT_NONE) w) ->
  (BootMetadata_validb c = true ->
   wp (MetadataStorage_ProgramSlot target c)
     (fun st w' =>
        (st <> METADATA_STORAGE_OK -> Q (st, None, SLOT_NONE) w') /\
        (st = METADATA_STORAGE_OK ->
           (metadata_at (w_hw w') target = c -> Q (METADATA_STORAGE_OK, Some c, target) w') /\
           Q (METADATA_STORAGE_VERIFY_FAILED, None, SLOT_NONE) w')) C w) ->
  rec_wf c ->
  wp (MetadataStorage_Commit (Some requested)) Q C w.
Proof.
  intros c target Hinv Hprog Hwf. unfold MetadataStorage_Commit. cbv zeta.
  apply wp_bind, wp_CopyFromFlash, wp_bind, wp_CopyFromFlash.
  fold (metadata_at (w_hw w) SLOT_A). fold (metadata_at (w_hw w) SLOT_B).
  match goal with |- context [BootMetadata_Finalize ?x] =>
    assert (BootMetadata_Finalize x = c) as -> end.
  { unfold c, commit_candidate, ab_generation.
    cbn [rec_candidate rec_next_generation rec_select_newest rec_generation BootMetadata_ab].
    reflexivity. }
  fold (target_slot (w_hw w)). fold target.
  destruct (bool_decide_reflect (BootMetadata_Validate (Some c) <> BOOT_METADATA_VALID)) as [Hv|Hv].
  { apply wp_ret, Hinv. by apply bool_decide_eq_false. }
  apply dec_stable, BootMetadata_validb_spec in Hv. apply wp_bind.
  eapply wp_mono; [by apply Hprog| |done]. intros st w' [Hne Heq].
  destruct (bool_decide_reflect (st <> METADATA_STORAGE_OK)) as [Hst|Hst]; [by apply wp_ret, Hne|].
  apply dec_stable in Hst as ->. destruct (Heq eq_refl) as [Hok Hbad].
  apply wp_bind, wp_CopyFromFlash. fold (metadata_at (w_hw w') target).
  case_if; apply wp_ret; [done|]. to_prop.
  match goal with H : RecordsEqual _ _ = true |- _ =>
    apply RecordsEqual_spec in H as Hcv; [|done|apply metadata_at_wf] end.
  rewrite <- Hcv. by apply Hok.
Qed.

(** The contract of a commit, as its callers use it. *)
Lemma wp_MetadataStorage_Commit (requested : BootMetadata_t) w :
  rec_wf requested -> erase_detected (w_hw w) (target_slot (w_hw w)) ->
  wp (MetadataStorage_Commit (Some requested))
    (fun '(status, committed, _) w' =>
       frame nowhere (metadata_page (target_slot (w_hw w))) (w_hw w) (w_hw w') /\
       (status = METADATA_STORAGE_OK ->
          committed = Some (commit_candidate (w_hw w) requested) /\
          current_metadata (w_hw w') = Some (commit_candidate (w_hw w) requested)) /\
       (status <> METADATA_STORAGE_OK -> after_interruption (w_hw w) requested (w_hw w')))
    (fun h => frame nowhere (metadata_page (target_slot (w_hw w))) (w_hw w) h /\
              after_interruption (w_hw w) requested h) w.
Proof.
  intros Hwf He. set (c := commit_candidate (w_hw w) requested).
  apply wp_Commit_slot; [| |exact (commit_candidate_wf _ _ Hwf)].
  - intros _. split; [apply frame_refl|]. split; [discriminate|]. intros _. by left.
  - intros Hv. eapply wp_mono; [apply wp_ProgramSlot, target_slot_real| |].
    + intros st w' (Ht & Hok & _). pose proof (torn_after _ _ _ Hwf Hv He Ht) as Ha.
      split; [intros Hst; split; [apply Ht|split; [intros Hst'; by destruct Hst|intros _; exact Ha]]|].
      intros ->. split; [|split; [apply Ht|split; [discriminate|intros _; exact Ha]]].
      intros Hat. split; [apply Ht|]. split; [|intros Hne; by destruct Hne].
      intros _. split; [reflexivity|].
      pose proof (slots_after _ _ (proj1 Ht)) as Hs. rewrite Hat in Hs.
      unfold current_metadata.
      pose proof (f_equal fst Hs) as H1. pose proof (f_equal snd Hs) as H2.
      cbn [fst snd] in H1, H2. rewrite H1, H2.
      apply ab_write_current; [apply rec_generation_wf, metadata_at_wf..|exact Hv|].
      apply rec_candidate_generation.
    + intros h Ht. split; [apply Ht|]. exact (torn_after _ _ _ Hwf Hv He Ht).
Qed.

(** C6: A metadata commit is atomic.  It writes only the page of the slot that
    does not hold the current record.  OK means that the current record is the
    request with the next generation, its CRC and the returned copy.  On any
    error, and wherever power fails, the current record is the one from before
    or one that agrees with the request on every field a decision reads. *)
Theorem MetadataStorage_Commit_atomic (requested : BootMetadata_t) w :
  rec_wf requested -> erase_detected (w_hw w) (target_slot (w_hw w)) ->
  wp (MetadataStorage_Commit (Some requested))
    (fun '(status, committed, _) w' =>
       frame nowhere (metadata_page (target_slot (w_hw w))) (w_hw w) (w_hw w') /\
       (status = METADATA_STORAGE_OK ->
          committed = Some (commit_candidate (w_hw w) requested) /\
          current_metadata (w_hw w') = Some (commit_candidate (w_hw w) requested)) /\
       (status <> METADATA_STORAGE_OK -> after_interruption (w_hw w) requested (w_hw w')))
    (fun h => frame nowhere (metadata_page (target_slot (w_hw w))) (w_hw w) h /\
              after_interruption (w_hw w) requested h) w.
Proof. apply wp_MetadataStorage_Commit. Qed.

(** C7: A commit that returns, successfully or not, leaves the interrupt mask as
    it found it and the flash controller locked. *)
Theorem MetadataStorage_Commit_restores (requested : BootMetadata_t) w :
  rec_wf requested ->
  PRIMASK (w_ram w) = 0 \/ PRIMASK (w_ram w) = 1 -> flash_unlocked (w_ram w) = false ->
  wp (MetadataStorage_Commit (Some requested))
    (fun _ w' => PRIMASK (w_ram w') = PRIMASK (w_ram w) /\ flash_unlocked (w_ram w') = false)
    (fun _ => True) w.
Proof.
  intros Hwf Hmask Hlock. apply wp_Commit_slot; [by intros _| |].
  - intros _. eapply wp_mono; [apply wp_ProgramSlot, target_slot_real| |done].
    intros st w' (_ & _ & Hl & Hm). auto.
  - by apply commit_candidate_wf.
Qed.

(** [Load] reports the current record, or the defaults when there is none. *)
Lemma wp_Load w :
  wp MetadataStorage_Load
    (fun '(status, m, slot) w' => w' = w /\
       match current_metadata (w_hw w) with
       | Some r => status = METADATA_STORAGE_OK /\ m = r
       | None => status = METADATA_STORAGE_DEFAULTS_USED /\
                 m = BootMetadata_Init APPLICATION_VERSION
       end) (fun _ => False) w.
Proof.
  unfold MetadataStorage_Load. apply wp_bind, wp_CopyFromFlash, wp_bind, wp_CopyFromFlash, wp_ret.
  unfold current_metadata, ab_current. cbn [rec_select_newest BootMetadata_ab].
  unfold metadata_at. cbn [MetadataStorage_SlotAddress].
  by destruct (BootMetadata_SelectNewestSlot _ _).
Qed.

(** Whatever happens, only the two metadata pages are written. *)
Lemma metadata_page_in slot a : real_slot slot -> metadata_page slot a -> in_boot_metadata a.
Proof. intros [-> | ->]; unfold metadata_page; cbn; map_lia. Qed.

Lemma modifies_Commit requested :
  modifies nowhere in_boot_metadata (MetadataStorage_Commit requested).
Proof.
  intros w. destruct requested as [requested|]; [|apply wp_ret, frame_refl].
  unfold MetadataStorage_Commit. cbv zeta.
  apply wp_bind, wp_CopyFromFlash, wp_bind, wp_CopyFromFlash.
  fold (metadata_at (w_hw w) SLOT_A). fold (metadata_at (w_hw w) SLOT_B).
  case_if; [apply wp_ret, frame_refl|]. apply wp_bind. fold (target_slot (w_hw w)).
  assert (Hw : forall h slot bs, real_slot slot -> torn (w_hw w) h slot bs ->
    frame nowhere in_boot_metadata (w_hw w) h).
  { intros h slot bs Hs [Hf _]. eapply frame_mono; [done| |exact Hf].
    intros a. by apply metadata_page_in. }
  pose proof (target_slot_real (w_hw w)) as Hs.
  eapply wp_mono; [by apply wp_ProgramSlot| |].
  - intros st w' (Ht & _). pose proof (Hw _ _ _ Hs Ht) as Hf.
    case_if; [by apply wp_ret|]. apply wp_bind, wp_CopyFromFlash.
    case_if; by apply wp_ret.
  - intros h Ht. by apply (Hw _ _ _ Hs Ht).
Qed.

End metadata_storage.

(** The simulated device erases a page completely or not at all. *)
Lemma sim_erase_detected (s : SimState) (slot : AbSlot) :
  real_slot slot -> erase_detected (HW := SimHw) s slot.
Proof.
  intros Hs. unfold erase_detected. cbv zeta.
  assert (erase_outcome (HW := SimHw) s slot = s \/
          forall a, metadata_page slot a -> flash (erase_outcome (HW := SimHw) s slot) a = 0xFF)
    as [-> | He].
  { destruct s as [n f se wl [[|k]|]]; [by left|right..]; intros a Ha; cbn;
      unfold sim_flash_byte; cbn;
      by rewrite (proj2 (Z.eqb_eq _ _) (metadata_page_div' slot a Hs Ha)). }
  - done.
  - intros Hv. exfalso. revert Hv. apply not_true_iff_false.
    change (rec_validb (metadata_at (HW := SimHw) (erase_outcome (HW := SimHw) s slot) slot) = false).
    unfold metadata_at.
    rewrite rec_erased_invalid; [done|auto with ota|by apply flash_slice_length|].
    unfold flash_slice. rewrite seqZ_cons by done. apply He. unfold metadata_page. map_lia.
Qed.
