(* ===== verification/BootDecision.v ===== *)
(** * BootDecision: node-stm32f103/bootloader/src/boot_decision.c

    The pure function that turns the current metadata and the state of the
    application's vector table into the bootloader's next action. *)

From S2P Require Import Prelude MemoryMap AbRecord BootMetadata.

Inductive BootAction_t :=
  | BOOT_ACTION_JUMP_ACTIVE
  | BOOT_ACTION_RESUME_DOWNLOAD
  | BOOT_ACTION_PROCESS_ARTIFACT
  | BOOT_ACTION_RESTART_VALIDATION
  | BOOT_ACTION_RESTART_PATCH
  | BOOT_ACTION_CONTINUE_BACKUP
  | BOOT_ACTION_RESUME_INSTALL
  | BOOT_ACTION_VERIFY_INSTALL
  | BOOT_ACTION_BOOT_TRIAL
  | BOOT_ACTION_FINALIZE_CONFIRMATION
  | BOOT_ACTION_RESUME_ROLLBACK
  | BOOT_ACTION_STAY_RECOVERY.

Inductive BootDecisionReason_t :=
  | BOOT_DECISION_REASON_NONE
  | BOOT_DECISION_REASON_APPLICATION_INVALID
  | BOOT_DECISION_REASON_METADATA_INVALID
  | BOOT_DECISION_REASON_TRIAL_LIMIT_REACHED
  | BOOT_DECISION_REASON_FAILED_STATE.

#[export] Instance BootAction_eq : EqDecision BootAction_t.
Proof. solve_decision. Defined.
#[export] Instance BootDecisionReason_eq : EqDecision BootDecisionReason_t.
Proof. solve_decision. Defined.

Record BootDecision_t := mkDecision {
  action : BootAction_t;
  reason : BootDecisionReason_t
}.

(** The switch on the state. *)
Definition BootDecision_Switch (m : BootMetadata_t) : BootDecision_t :=
  let act a := mkDecision a BOOT_DECISION_REASON_NONE in
  match state_of_word (bm_state m) with
  | Some UPDATE_IDLE => act BOOT_ACTION_JUMP_ACTIVE
  | Some UPDATE_RECEIVING => act BOOT_ACTION_RESUME_DOWNLOAD
  | Some UPDATE_ARTIFACT_READY => act BOOT_ACTION_PROCESS_ARTIFACT
  | Some (UPDATE_VERIFYING_CONTAINER | UPDATE_VERIFYING_BASE) =>
      act BOOT_ACTION_RESTART_VALIDATION
  | Some UPDATE_PATCHING => act BOOT_ACTION_RESTART_PATCH
  | Some (UPDATE_IMAGE_READY | UPDATE_BACKING_UP) => act BOOT_ACTION_CONTINUE_BACKUP
  | Some UPDATE_INSTALLING => act BOOT_ACTION_RESUME_INSTALL
  | Some UPDATE_VERIFYING_INSTALL => act BOOT_ACTION_VERIFY_INSTALL
  | Some UPDATE_TRIAL_BOOT =>
      if BOOT_METADATA_MAX_BOOT_ATTEMPTS <=? bm_boot_attempts m
      then mkDecision BOOT_ACTION_RESUME_ROLLBACK BOOT_DECISION_REASON_TRIAL_LIMIT_REACHED
      else act BOOT_ACTION_BOOT_TRIAL
  | Some UPDATE_CONFIRMED => act BOOT_ACTION_FINALIZE_CONFIRMATION
  | Some UPDATE_ROLLBACK => act BOOT_ACTION_RESUME_ROLLBACK
  | Some UPDATE_FAILED | None =>
      mkDecision BOOT_ACTION_STAY_RECOVERY BOOT_DECISION_REASON_FAILED_STATE
  end.

Definition BootDecision_Evaluate (metadata : option BootMetadata_t)
    (application_valid : bool) : BootDecision_t :=
  match metadata with
  | Some m =>
      if bool_decide (BootMetadata_Validate metadata <> BOOT_METADATA_VALID)
      then mkDecision BOOT_ACTION_STAY_RECOVERY BOOT_DECISION_REASON_METADATA_INVALID else
      let decision := BootDecision_Switch m in
      if negb application_valid && bool_decide (action decision = BOOT_ACTION_BOOT_TRIAL)
      then mkDecision BOOT_ACTION_RESUME_ROLLBACK BOOT_DECISION_REASON_APPLICATION_INVALID
      else if negb application_valid
           && (bool_decide (action decision = BOOT_ACTION_JUMP_ACTIVE)
               || bool_decide (action decision = BOOT_ACTION_RESUME_DOWNLOAD))
      then mkDecision BOOT_ACTION_STAY_RECOVERY BOOT_DECISION_REASON_APPLICATION_INVALID
      else decision
  | None => mkDecision BOOT_ACTION_STAY_RECOVERY BOOT_DECISION_REASON_METADATA_INVALID
  end.

(** The actions that end in a jump to the application. *)
Definition jumps (a : BootAction_t) : bool :=
  match a with
  | BOOT_ACTION_JUMP_ACTIVE | BOOT_ACTION_RESUME_DOWNLOAD | BOOT_ACTION_BOOT_TRIAL => true
  | _ => false
  end.

(** When each action is due: the specification, by action. *)
Definition due (m : BootMetadata_t) (application_valid : bool) (a : BootAction_t) : Prop :=
  let valid := BootMetadata_validb m = true in
  let in_state s := bm_state m = state_word s in
  let attempts_left := bm_boot_attempts m < BOOT_METADATA_MAX_BOOT_ATTEMPTS in
  match a with
  | BOOT_ACTION_JUMP_ACTIVE => valid /\ application_valid = true /\ in_state UPDATE_IDLE
  | BOOT_ACTION_RESUME_DOWNLOAD => valid /\ application_valid = true /\ in_state UPDATE_RECEIVING
  | BOOT_ACTION_BOOT_TRIAL =>
      valid /\ application_valid = true /\ in_state UPDATE_TRIAL_BOOT /\ attempts_left
  | BOOT_ACTION_PROCESS_ARTIFACT => valid /\ in_state UPDATE_ARTIFACT_READY
  | BOOT_ACTION_RESTART_VALIDATION =>
      valid /\ (in_state UPDATE_VERIFYING_CONTAINER \/ in_state UPDATE_VERIFYING_BASE)
  | BOOT_ACTION_RESTART_PATCH => valid /\ in_state UPDATE_PATCHING
  | BOOT_ACTION_CONTINUE_BACKUP => valid /\ (in_state UPDATE_IMAGE_READY \/ in_state UPDATE_BACKING_UP)
  | BOOT_ACTION_RESUME_INSTALL => valid /\ in_state UPDATE_INSTALLING
  | BOOT_ACTION_VERIFY_INSTALL => valid /\ in_state UPDATE_VERIFYING_INSTALL
  | BOOT_ACTION_FINALIZE_CONFIRMATION => valid /\ in_state UPDATE_CONFIRMED
  | BOOT_ACTION_RESUME_ROLLBACK =>
      valid /\ (in_state UPDATE_ROLLBACK \/
        in_state UPDATE_TRIAL_BOOT /\ (application_valid = false \/ ~ attempts_left))
  | BOOT_ACTION_STAY_RECOVERY =>
      BootMetadata_validb m = false \/ in_state UPDATE_FAILED \/
      application_valid = false /\ (in_state UPDATE_IDLE \/ in_state UPDATE_RECEIVING)
  end.

(** When each reason is reported. *)
Definition reported (m : BootMetadata_t) (application_valid : bool) (r : BootDecisionReason_t) : Prop :=
  let valid := BootMetadata_validb m = true in
  let in_state s := bm_state m = state_word s in
  let spent := BOOT_METADATA_MAX_BOOT_ATTEMPTS <= bm_boot_attempts m in
  match r with
  | BOOT_DECISION_REASON_METADATA_INVALID => BootMetadata_validb m = false
  | BOOT_DECISION_REASON_FAILED_STATE => valid /\ in_state UPDATE_FAILED
  | BOOT_DECISION_REASON_TRIAL_LIMIT_REACHED => valid /\ in_state UPDATE_TRIAL_BOOT /\ spent
  | BOOT_DECISION_REASON_APPLICATION_INVALID =>
      valid /\ application_valid = false /\
      (in_state UPDATE_IDLE \/ in_state UPDATE_RECEIVING \/ in_state UPDATE_TRIAL_BOOT /\ ~ spent)
  | BOOT_DECISION_REASON_NONE =>
      valid /\ bm_state m <> state_word UPDATE_FAILED /\ ~ (in_state UPDATE_TRIAL_BOOT /\ spent) /\
      (application_valid = true \/
       ~ in_state UPDATE_IDLE /\ ~ in_state UPDATE_RECEIVING /\ ~ in_state UPDATE_TRIAL_BOOT)
  end.

(** A valid record is in one of the states of the code. *)
Lemma valid_state m : BootMetadata_validb m = true -> exists s, bm_state m = state_word s.
Proof.
  unfold BootMetadata_validb. intros Hv. apply bool_decide_eq_true in Hv.
  apply BootMetadata_Validate_spec in Hv as (_ & _ & _ & _ & _ & _ & _ & Hf & _).
  unfold BootMetadata_StateFieldsAreConsistent in Hf.
  destruct (state_of_word (bm_state m)) as [s|] eqn:E; [|done].
  exists s. symmetry. by apply state_word_of_word.
Qed.

(** Evaluate the comparisons of known actions. *)
Ltac known_decisions :=
  repeat first [rewrite bool_decide_eq_true_2 by done | rewrite bool_decide_eq_false_2 by done];
  cbn [andb orb negb action reason].

(** The decision takes exactly the action that is due, for exactly the reason
    that is reported. *)
Lemma decision_due m application_valid :
  let d := BootDecision_Evaluate (Some m) application_valid in
  (forall a, action d = a <-> due m application_valid a) /\
  (forall r, reason d = r <-> reported m application_valid r).
Proof.
  intros d. subst d. unfold BootDecision_Evaluate.
  destruct (BootMetadata_validb m) eqn:Hv.
  2: { pose proof Hv as Hv'. unfold BootMetadata_validb in Hv'. apply bool_decide_eq_false in Hv'.
    rewrite (bool_decide_eq_true_2 _ Hv'). cbn [action reason].
    split; [intros []|intros []]; cbn [due reported]; rewrite Hv; intuition congruence. }
  destruct (valid_state _ Hv) as [s Hs]. pose proof Hv as Hv'. unfold BootMetadata_validb in Hv'.
  apply bool_decide_eq_true in Hv'. rewrite bool_decide_eq_false_2 by (intros H; by apply H).
  unfold BootDecision_Switch. rewrite Hs, state_of_word_state_word.
  unfold BOOT_METADATA_MAX_BOOT_ATTEMPTS.
  destruct (Z.leb_spec 3 (bm_boot_attempts m)), s, application_valid;
    cbn; known_decisions; split; intros []; cbn [due reported]; rewrite ?Hs, ?Hv;
    unfold BOOT_METADATA_MAX_BOOT_ATTEMPTS; cbn [state_word]; intuition (first [lia | congruence]).
Qed.

(** C10: The boot decision.  For every record and verdict on the application,
    the action is exactly the one that is due and the reason exactly the one
    that is reported: each of the twelve actions and five reasons is tied to the
    validity of the record, its state, its attempts and the verdict.  In
    particular the decision never jumps without a valid record and a valid
    vector table; it starts a trial exactly when the record is a valid
    TRIAL_BOOT with attempts left and the application is valid; a trial without
    attempts or without a valid application is rolled back; recovery is chosen
    exactly for an invalid record, a FAILED state, or an idle or receiving state
    without a valid application. *)
Theorem BootDecision_safe (m : BootMetadata_t) (application_valid : bool) :
  let d := BootDecision_Evaluate (Some m) application_valid in
  (* the action and the reason, for every record *)
  (forall a, action d = a <-> due m application_valid a) /\
  (forall r, reason d = r <-> reported m application_valid r) /\
  (* nothing jumps without valid metadata and a valid vector table *)
  (jumps (action d) = true ->
     application_valid = true /\ BootMetadata_validb m = true /\
     (bm_state m = state_word UPDATE_IDLE \/ bm_state m = state_word UPDATE_RECEIVING \/
      bm_state m = state_word UPDATE_TRIAL_BOOT)) /\
  (* a trial jump has attempts left *)
  (action d = BOOT_ACTION_BOOT_TRIAL <->
     application_valid = true /\ BootMetadata_validb m = true /\
     bm_state m = state_word UPDATE_TRIAL_BOOT /\ bm_boot_attempts m < BOOT_METADATA_MAX_BOOT_ATTEMPTS) /\
  (* a trial that used up its attempts, or lost its image, is rolled back *)
  (BootMetadata_validb m = true -> bm_state m = state_word UPDATE_TRIAL_BOOT ->
     application_valid = false \/ BOOT_METADATA_MAX_BOOT_ATTEMPTS <= bm_boot_attempts m ->
     action d = BOOT_ACTION_RESUME_ROLLBACK) /\
  (* recovery is entered only for a reason *)
  (action d = BOOT_ACTION_STAY_RECOVERY <->
     BootMetadata_validb m = false \/ bm_state m = state_word UPDATE_FAILED \/
     (application_valid = false /\
      (bm_state m = state_word UPDATE_IDLE \/ bm_state m = state_word UPDATE_RECEIVING))).
Proof.
  destruct (decision_due m application_valid) as [Ha Hr]. cbv zeta.
  split; [exact Ha|]. split; [exact Hr|]. clear Hr.
  pose proof (proj1 (Ha _) eq_refl) as Hdue.
  split_and!.
  - destruct (action _); try discriminate; intros _; cbn [due] in Hdue; tauto.
  - rewrite Ha. cbn [due]. tauto.
  - intros Hv Hs Hor. apply Ha. cbn [due]. unfold BOOT_METADATA_MAX_BOOT_ATTEMPTS in *.
    split; [done|]. right. split; [done|]. destruct Hor; [by left|right; lia].
  - rewrite Ha. cbn [due]. tauto.
Qed.
