(* ===== verification/ApplicationJump.v ===== *)
(** * ApplicationJump: node-stm32f103/bootloader/src/application_jump.c

    The last test before the bootloader leaves for the application, on the
    vector table as it is in the internal flash.  The register clean-up and the
    branch itself ([ApplicationJump_Execute]) are the hardware's; the boot
    manager's result records the vector it is given. *)

From S2P Require Import Prelude Bytes MemoryMap FullImage Device Logic.

Inductive ApplicationValidationStatus_t :=
  | APPLICATION_VALIDATION_OK
  | APPLICATION_VALIDATION_BAD_VECTOR_ALIGNMENT
  | APPLICATION_VALIDATION_BAD_VECTOR_RANGE
  | APPLICATION_VALIDATION_BAD_STACK_RANGE
  | APPLICATION_VALIDATION_BAD_STACK_ALIGNMENT
  | APPLICATION_VALIDATION_BAD_RESET_THUMB_BIT
  | APPLICATION_VALIDATION_BAD_RESET_RANGE.

#[export] Instance ApplicationValidationStatus_eq : EqDecision ApplicationValidationStatus_t.
Proof. solve_decision. Defined.

Record ApplicationVector_t := mkVector {
  vector_table_address : Z;
  initial_stack_pointer : Z;
  reset_handler_address : Z
}.

Definition VECTOR_TABLE_ALIGNMENT : Z := 0x200.

Definition ApplicationJump_IsStackPointerInRange (stack_pointer : Z) : bool :=
  (INTERNAL_SRAM_BASE <=? stack_pointer) && (stack_pointer <=? INTERNAL_SRAM_END).

Definition ApplicationJump_IsResetHandlerInRange (reset_handler : Z) : bool :=
  let code_address := Z.land reset_handler ADDRESS_WITHOUT_THUMB_MASK in
  (APPLICATION_START_ADDRESS <=? code_address) && (code_address <? BOOT_METADATA_ADDRESS).

Section jump.
Context {HW : Hw}.
Implicit Types w : World HW.

(** A 32-bit load from the internal flash. *)
Definition flash_word (a : Z) : M HW Z := bytes <- flash_read a 4 ;; ret (le_word bytes).

Definition ApplicationJump_Validate (vta : Z)
    : M HW (ApplicationValidationStatus_t * option ApplicationVector_t) :=
  if Z.land vta (VECTOR_TABLE_ALIGNMENT - 1) <>? 0
  then ret (APPLICATION_VALIDATION_BAD_VECTOR_ALIGNMENT, None)
  else if (vta <? APPLICATION_START_ADDRESS) || (BOOT_METADATA_ADDRESS - 2 * 4 <? vta)
  then ret (APPLICATION_VALIDATION_BAD_VECTOR_RANGE, None) else
  initial_stack_pointer <- flash_word vta ;;
  reset_handler_address <- flash_word (vta + 4) ;;
  if negb (ApplicationJump_IsStackPointerInRange initial_stack_pointer)
  then ret (APPLICATION_VALIDATION_BAD_STACK_RANGE, None)
  else if Z.land initial_stack_pointer (REQUIRED_STACK_ALIGNMENT - 1) <>? 0
  then ret (APPLICATION_VALIDATION_BAD_STACK_ALIGNMENT, None)
  else if Z.land reset_handler_address THUMB_STATE_BIT =? 0
  then ret (APPLICATION_VALIDATION_BAD_RESET_THUMB_BIT, None)
  else if negb (ApplicationJump_IsResetHandlerInRange reset_handler_address)
  then ret (APPLICATION_VALIDATION_BAD_RESET_RANGE, None)
  else ret (APPLICATION_VALIDATION_OK,
            Some (mkVector vta initial_stack_pointer reset_handler_address)).

(** The word the flash holds at an address. *)
Definition flash_word_at (h : hw) (a : Z) : Z := le_word (flash_slice h a 4).

Lemma flash_word_at_range h a : is_u32 (flash_word_at h a).
Proof.
  unfold flash_word_at, is_u32. pose proof (le_word_bound (flash_slice h a 4)
    ltac:(auto with ota)) as Hb. by rewrite flash_slice_length in Hb.
Qed.

(** A vector the processor may start from. *)
Record SafeVector (h : hw) (v : ApplicationVector_t) : Prop := {
  sv_table : vector_table_address v = APPLICATION_START_ADDRESS;
  sv_sp : initial_stack_pointer v = flash_word_at h APPLICATION_START_ADDRESS;
  sv_reset : reset_handler_address v = flash_word_at h (APPLICATION_START_ADDRESS + 4);
  sv_stack : INTERNAL_SRAM_BASE <= initial_stack_pointer v <= INTERNAL_SRAM_END;
  sv_aligned : initial_stack_pointer v mod 8 = 0;
  sv_thumb : Z.odd (reset_handler_address v) = true;
  sv_entry : in_application (reset_handler_address v - 1)
}.

Definition vector_at (h : hw) : ApplicationVector_t :=
  mkVector APPLICATION_START_ADDRESS (flash_word_at h APPLICATION_START_ADDRESS)
    (flash_word_at h (APPLICATION_START_ADDRESS + 4)).

(** The test reads the vector and changes nothing. *)
Lemma wp_ApplicationJump_Validate w :
  wp (ApplicationJump_Validate APPLICATION_START_ADDRESS)
    (fun '(status, v) w' => w' = w /\
       (status = APPLICATION_VALIDATION_OK <-> SafeVector (w_hw w) (vector_at (w_hw w))) /\
       (status = APPLICATION_VALIDATION_OK -> v = Some (vector_at (w_hw w))))
    (fun _ => False) w.
Proof.
  unfold ApplicationJump_Validate.
  change (Z.land APPLICATION_START_ADDRESS (VECTOR_TABLE_ALIGNMENT - 1) <>? 0) with false.
  change ((APPLICATION_START_ADDRESS <? APPLICATION_START_ADDRESS)
    || (BOOT_METADATA_ADDRESS - 2 * 4 <? APPLICATION_START_ADDRESS)) with false. cbv iota.
  apply wp_bind, wp_bind, wp_flash_read, wp_ret.
  apply wp_bind, wp_bind, wp_flash_read, wp_ret.
  fold (flash_slice (w_hw w) APPLICATION_START_ADDRESS 4).
  fold (flash_slice (w_hw w) (APPLICATION_START_ADDRESS + 4) 4).
  fold (flash_word_at (w_hw w) APPLICATION_START_ADDRESS).
  fold (flash_word_at (w_hw w) (APPLICATION_START_ADDRESS + 4)).
  set (v := vector_at (w_hw w)).
  set (sp := flash_word_at (w_hw w) APPLICATION_START_ADDRESS).
  set (rst := flash_word_at (w_hw w) (APPLICATION_START_ADDRESS + 4)).
  change (REQUIRED_STACK_ALIGNMENT - 1) with (2 ^ 3 - 1).
  change THUMB_STATE_BIT with (2 ^ 1 - 1).
  unfold ApplicationJump_IsResetHandlerInRange, ApplicationJump_IsStackPointerInRange.
  rewrite clear_thumb_bit by apply flash_word_at_range. rewrite !land_mask by lia.
  change (2 ^ 3) with 8. change (2 ^ 1) with 2. cbv zeta.
  pose proof (Zmod_odd rst) as Hodd. pose proof (Z.mod_pos_bound rst 2 ltac:(done)) as Hbit.
  assert (Hspec : SafeVector (w_hw w) v <->
    (INTERNAL_SRAM_BASE <= sp <= INTERNAL_SRAM_END /\ sp mod 8 = 0 /\ rst mod 2 = 1 /\
     APPLICATION_START_ADDRESS <= rst - rst mod 2 < BOOT_METADATA_ADDRESS)).
  { split.
    - intros [_ _ _ H1 H2 H3 H4].
      change (INTERNAL_SRAM_BASE <= sp <= INTERNAL_SRAM_END) in H1. change (sp mod 8 = 0) in H2.
      change (Z.odd rst = true) in H3. change (in_application (rst - 1)) in H4.
      rewrite H3 in Hodd. split_and!; [apply H1|apply H1|exact H2|exact Hodd|map_lia..].
    - intros (H1 & H2 & H3 & H4). destruct (Z.odd rst) eqn:Ho; [|lia].
      split; [reflexivity..|exact H1|exact H2|exact Ho|].
      change (in_application (rst - 1)). map_lia. }
  repeat case_if; to_prop; apply wp_ret; (split; [reflexivity|rewrite Hspec; clear Hspec];
      split; [split; [try discriminate|]|try discriminate]);
    intros; rewrite ?andb_true_iff, ?andb_false_iff, ?Z.leb_le, ?Z.leb_gt, ?Z.ltb_lt, ?Z.ltb_ge in *;
    first [reflexivity | (exfalso; lia) | (split_and!; lia)].
Qed.

End jump.
