(* ===== verification/TrialBoot.v ===== *)
(** * TrialBoot: node-stm32f103/bootloader/src/trial_boot.c

    The attempt counter of a trial image, persisted before the jump, and the
    transition that makes a confirmed image the active one.  The watchdog
    set-up of [TrialBoot_StartWatchdog] is register writes only. *)

From S2P Require Import Prelude Bytes MemoryMap AbRecord BootMetadata Device Logic.
From S2P Require Import MetadataStorage.

Inductive TrialBootStatus_t :=
  | TRIAL_BOOT_STATUS_OK
  | TRIAL_BOOT_STATUS_INVALID_STATE
  | TRIAL_BOOT_STATUS_ATTEMPT_LIMIT
  | TRIAL_BOOT_STATUS_METADATA_COMMIT_FAILED.

#[export] Instance TrialBootStatus_eq : EqDecision TrialBootStatus_t.
Proof. solve_decision. Defined.

Section trial_boot.
Context {HW : Hw}.
Implicit Types w : World HW.

(** The committed record, when the status is OK. *)
Definition TrialBoot_Commit (metadata : BootMetadata_t)
    : M HW (MetadataStorageStatus_t * option BootMetadata_t) :=
  r <- MetadataStorage_Commit (Some metadata) ;;
  let '(status, result, _) := r in
  if bool_decide (status = METADATA_STORAGE_OK) then ret (status, result)
  else ret (status, None).

Definition TrialBoot_PrepareAttempt (metadata : option BootMetadata_t)
    : M HW (TrialBootStatus_t * option BootMetadata_t) :=
  match metadata with
  | None => ret (TRIAL_BOOT_STATUS_INVALID_STATE, None)
  | Some m =>
      if bm_state m <>? state_word UPDATE_TRIAL_BOOT
      then ret (TRIAL_BOOT_STATUS_INVALID_STATE, None)
      else if BOOT_METADATA_MAX_BOOT_ATTEMPTS <=? bm_boot_attempts m
      then ret (TRIAL_BOOT_STATUS_ATTEMPT_LIMIT, None)
      else
        let working := m
          |> bm_set_boot_attempts (u32 (bm_boot_attempts m + 1))
          |> bm_set_last_error 0 in
        r <- TrialBoot_Commit working ;;
        let '(status, committed) := r in
        if bool_decide (status <> METADATA_STORAGE_OK)
        then ret (TRIAL_BOOT_STATUS_METADATA_COMMIT_FAILED, None)
        else ret (TRIAL_BOOT_STATUS_OK, committed)
  end.

Definition TrialBoot_FinalizeConfirmation (metadata : option BootMetadata_t)
    : M HW (TrialBootStatus_t * option BootMetadata_t) :=
  match metadata with
  | None => ret (TRIAL_BOOT_STATUS_INVALID_STATE, None)
  | Some m =>
      if (bm_state m <>? state_word UPDATE_CONFIRMED) || (bm_pending_version m =? 0)
      then ret (TRIAL_BOOT_STATUS_INVALID_STATE, None)
      else
        let working := m
          |> bm_set_state (state_word UPDATE_IDLE)
          |> bm_set_active_version (bm_pending_version m)
          |> bm_set_pending_version 0
          |> bm_set_active_update_id 0
          |> bm_set_received_size 0
          |> bm_set_expected_size 0
          |> bm_set_copy_offset 0
          |> bm_set_boot_attempts 0
          |> bm_set_last_error 0 in
        r <- TrialBoot_Commit working ;;
        let '(status, committed) := r in
        if bool_decide (status <> METADATA_STORAGE_OK)
        then ret (TRIAL_BOOT_STATUS_METADATA_COMMIT_FAILED, None)
        else ret (TRIAL_BOOT_STATUS_OK, committed)
  end.

(** ** Properties *)

Lemma wf_fields m : rec_wf m <-> words_ok (BootMetadata_fields m).
Proof. done. Qed.

(** Updating one field of a well-formed record. *)
Lemma assign_wf i v m : is_u32 v -> rec_wf m -> rec_wf (BootMetadata_assign i v m).
Proof.
  intros Hv Hm. unfold rec_wf, BootMetadata_assign.
  change (words_ok (rec_fields (rec_of_fields (<[i:=v]> (BootMetadata_fields m))))).
  rewrite rec_fields_of_fields by (rewrite length_insert; done).
  by apply Forall_insert.
Qed.

Lemma wp_TrialBoot_Commit requested w :
  rec_wf requested -> erase_detected (w_hw w) (target_slot (w_hw w)) ->
  wp (TrialBoot_Commit requested)
    (fun '(status, committed) w' =>
       (status = METADATA_STORAGE_OK ->
          committed = Some (commit_candidate (w_hw w) requested) /\
          current_metadata (w_hw w') = Some (commit_candidate (w_hw w) requested)) /\
       (status <> METADATA_STORAGE_OK -> committed = None /\
          after_interruption (w_hw w) requested (w_hw w')))
    (fun h => after_interruption (w_hw w) requested h) w.
Proof.
  intros Hwf He. apply wp_bind. eapply wp_mono; [by apply wp_MetadataStorage_Commit| |by intros h []].
  intros [[status r] slot] w' (Hf & Hok & Hbad). cbv beta iota.
  destruct (bool_decide_reflect (status = METADATA_STORAGE_OK)) as [->|Hne]; apply wp_ret.
  - split; [auto|]. intros Hne. by destruct Hne.
  - split; [intros ->; by destruct Hne|]. auto.
Qed.

(** What the counter of a trial may read after an interrupted attempt. *)
Definition trial_counted (m : BootMetadata_t) (h : hw) : Prop :=
  exists r, current_metadata h = Some r /\ bm_state r = state_word UPDATE_TRIAL_BOOT /\
    (bm_boot_attempts r = bm_boot_attempts m \/ bm_boot_attempts r = bm_boot_attempts m + 1).

Lemma wp_PrepareAttempt m w :
  current_metadata (w_hw w) = Some m -> rec_wf m ->
  erase_detected (w_hw w) (target_slot (w_hw w)) ->
  bm_state m = state_word UPDATE_TRIAL_BOOT ->
  wp (TrialBoot_PrepareAttempt (Some m))
    (fun '(status, committed) w' =>
       (status = TRIAL_BOOT_STATUS_OK ->
          exists c, committed = Some c /\ current_metadata (w_hw w') = Some c /\
            bm_state c = state_word UPDATE_TRIAL_BOOT /\
            bm_boot_attempts c = bm_boot_attempts m + 1 /\
            bm_boot_attempts c <= BOOT_METADATA_MAX_BOOT_ATTEMPTS) /\
       (status <> TRIAL_BOOT_STATUS_OK -> trial_counted m (w_hw w')) /\
       (BOOT_METADATA_MAX_BOOT_ATTEMPTS <= bm_boot_attempts m ->
          status = TRIAL_BOOT_STATUS_ATTEMPT_LIMIT /\ w' = w))
    (trial_counted m) w.
Proof.
  intros Hcur Hwf He Hst. unfold TrialBoot_PrepareAttempt.
  rewrite Hst, Z.eqb_refl. cbn [negb].
  assert (Hold : trial_counted m (w_hw w)) by (exists m; auto).
  destruct (Z.leb_spec BOOT_METADATA_MAX_BOOT_ATTEMPTS (bm_boot_attempts m)) as [Hl|Hl].
  { apply wp_ret. split_and!; [discriminate|auto|auto]. }
  assert (is_u32 (bm_boot_attempts m)) as Hatt.
  { apply (proj1 (Forall_forall _ _) Hwf). cbn. set_solver. }
  rewrite u32_small by (unfold BOOT_METADATA_MAX_BOOT_ATTEMPTS, is_u32 in *; lia).
  cbv zeta. set (working := bm_set_last_error 0 _).
  assert (Hw : rec_wf working).
  { apply assign_wf; [by vm_compute|]. apply assign_wf; [|done].
    unfold BOOT_METADATA_MAX_BOOT_ATTEMPTS, is_u32 in *. lia. }
  assert (Hc : forall h, bm_state (commit_candidate h working) = state_word UPDATE_TRIAL_BOOT /\
    bm_boot_attempts (commit_candidate h working) = bm_boot_attempts m + 1).
  { intros h. split; [|reflexivity]. rewrite <- Hst. reflexivity. }
  assert (Hafter : forall h, after_interruption (w_hw w) working h -> trial_counted m h).
  { intros h [Ha|(r & Hr & Hsd)]; [exists m; rewrite Ha; auto|].
    destruct (Hc (w_hw w)) as [Hc1 Hc2]. exists r. split; [done|].
    split; [rewrite <- Hc1; apply (proj1 Hsd 3%nat); lia|].
    right. rewrite <- Hc2. apply (proj2 Hsd). by left. }
  apply wp_bind. eapply wp_mono; [by apply wp_TrialBoot_Commit| |exact Hafter].
  intros [status c] w' [Hok Hbad].
  destruct (bool_decide_reflect (status <> METADATA_STORAGE_OK)) as [Hne|Heq]; apply wp_ret.
  - split; [discriminate|]. split; [intros _; by apply Hafter, Hbad|lia].
  - apply dec_stable in Heq. destruct (Hok Heq) as [-> Hcur'].
    split; [|split; [intros []; reflexivity|lia]]. intros _.
    destruct (Hc (w_hw w)) as [Hc1 Hc2].
    eexists. split; [reflexivity|]. split; [exact Hcur'|]. rewrite Hc1, Hc2.
    unfold BOOT_METADATA_MAX_BOOT_ATTEMPTS in *. split_and!; [done..|lia].
Qed.

(** C9: A trial is counted before it runs.  OK means that the current record is
    TRIAL_BOOT with one attempt more, at most the limit; after an error or a
    power failure the count is the old one or one more; at the limit the call is
    refused and nothing is written. *)
Theorem TrialBoot_PrepareAttempt_persists (m : BootMetadata_t) w :
  current_metadata (w_hw w) = Some m -> rec_wf m ->
  erase_detected (w_hw w) (target_slot (w_hw w)) ->
  bm_state m = state_word UPDATE_TRIAL_BOOT ->
  wp (TrialBoot_PrepareAttempt (Some m))
    (fun '(status, committed) w' =>
       (status = TRIAL_BOOT_STATUS_OK ->
          exists c, committed = Some c /\ current_metadata (w_hw w') = Some c /\
            bm_state c = state_word UPDATE_TRIAL_BOOT /\
            bm_boot_attempts c = bm_boot_attempts m + 1 /\
            bm_boot_attempts c <= BOOT_METADATA_MAX_BOOT_ATTEMPTS) /\
       (status <> TRIAL_BOOT_STATUS_OK -> trial_counted m (w_hw w')) /\
       (BOOT_METADATA_MAX_BOOT_ATTEMPTS <= bm_boot_attempts m ->
          status = TRIAL_BOOT_STATUS_ATTEMPT_LIMIT /\ w' = w))
    (trial_counted m) w.
Proof. apply wp_PrepareAttempt. Qed.

(** The record a confirmation leaves: idle, running the confirmed version. *)
Definition confirmed_idle (m r : BootMetadata_t) : Prop :=
  bm_state r = state_word UPDATE_IDLE /\ bm_active_version r = bm_pending_version m /\
  bm_pending_version r = 0 /\ bm_active_update_id r = 0 /\ bm_expected_size r = 0.

(** Finalising a confirmed trial is atomic: at every moment the current
    record is the CONFIRMED one or the IDLE one whose active version is the
    pending version, and OK means the latter. *)
Theorem TrialBoot_FinalizeConfirmation_atomic (m : BootMetadata_t) w :
  current_metadata (w_hw w) = Some m -> rec_wf m ->
  erase_detected (w_hw w) (target_slot (w_hw w)) ->
  let settled h := current_metadata h = Some m \/
                   exists r, current_metadata h = Some r /\ confirmed_idle m r in
  wp (TrialBoot_FinalizeConfirmation (Some m))
    (fun '(status, committed) w' =>
       settled (w_hw w') /\
       (status = TRIAL_BOOT_STATUS_OK ->
          exists c, committed = Some c /\ current_metadata (w_hw w') = Some c /\
            confirmed_idle m c))
    settled w.
Proof.
  intros Hcur Hwf He settled. unfold TrialBoot_FinalizeConfirmation.
  case_if; [apply wp_ret; split; [by left|discriminate]|]. cbv zeta.
  set (working := bm_set_last_error 0 _).
  assert (is_u32 (bm_pending_version m)) as Hp.
  { apply (proj1 (Forall_forall _ _) Hwf). cbn. set_solver. }
  assert (Hw : rec_wf working).
  { repeat first [exact Hwf | exact Hp | apply assign_wf; [first [exact Hp|by vm_compute]|]]. }
  assert (Hc : forall h, confirmed_idle m (commit_candidate h working)) by (intros; done).
  assert (Hafter : forall h, after_interruption (w_hw w) working h -> settled h).
  { intros h [Ha|(r & Hr & Hsd)]; [left; by rewrite Ha|]. right. exists r. split; [done|].
    destruct Hsd as [Hsd _]. unfold confirmed_idle.
    pose proof (Hsd 3%nat ltac:(lia)) as H3. pose proof (Hsd 4%nat ltac:(lia)) as H4.
    pose proof (Hsd 5%nat ltac:(lia)) as H5. pose proof (Hsd 6%nat ltac:(lia)) as H6.
    pose proof (Hsd 8%nat ltac:(lia)) as H8. cbn in H3, H4, H5, H6, H8. done. }
  apply wp_bind. eapply wp_mono; [by apply wp_TrialBoot_Commit| |exact Hafter].
  intros [status c] w' [Hok Hbad].
  destruct (bool_decide_reflect (status <> METADATA_STORAGE_OK)) as [Hne|Heq]; apply wp_ret.
  - split; [by apply Hafter, Hbad|discriminate].
  - apply dec_stable in Heq. destruct (Hok Heq) as [-> Hcur'].
    split; [right; eauto|]. intros _. eauto.
Qed.

End trial_boot.
