(* ===== verification/SpiFlash.v ===== *)
(** * SpiFlash: node-stm32f103/common/drivers/spi_flash.c

    The W25Q driver: each command is a chip-select transaction of byte
    exchanges.  The chip, the SPI registers and the pin set-up are the [Hw]
    parameter; everything the driver decides is modelled.  The lemmas show that
    a read returns the stored bytes, that a write and an erase only reach the
    bytes they name, and that a successful write or verify means the bytes are
    stored. *)

From S2P Require Import Prelude Bytes MemoryMap Device Logic.

Definition SPI_FLASH_CMD_WRITE_ENABLE : Z := 0x06.
Definition SPI_FLASH_CMD_READ_STATUS1 : Z := 0x05.
Definition SPI_FLASH_CMD_READ_DATA : Z := 0x03.
Definition SPI_FLASH_CMD_PAGE_PROGRAM : Z := 0x02.
Definition SPI_FLASH_CMD_SECTOR_ERASE_4K : Z := 0x20.
Definition SPI_FLASH_CMD_JEDEC_ID : Z := 0x9F.
Definition SPI_FLASH_STATUS1_BUSY : Z := 1.
Definition SPI_FLASH_STATUS1_WEL : Z := 2.
Definition SPI_FLASH_PROGRAM_TIMEOUT_LOOPS : Z := 3000000.
Definition SPI_FLASH_ERASE_TIMEOUT_LOOPS : Z := 30000000.
Definition SPI_FLASH_PREFLIGHT_BUFFER_SIZE : Z := 32.
Definition SPI_FLASH_JEDEC_ID_W25Q32 : Z := 0xEF4016.
Definition SPI_FLASH_JEDEC_ID_W25Q64 : Z := 0xEF4017.

Section spi_flash.
Context {HW : Hw}.
Implicit Types w : World HW.

Definition put_spi (initialized : bool) (jedec : Z) (status : SpiFlashStatus_t) : M HW unit :=
  r <- get_ram ;;
  put_ram (mkRam initialized jedec status (PRIMASK r) (flash_unlocked r)).

Definition SetStatus (status : SpiFlashStatus_t) : M HW unit :=
  r <- get_ram ;; put_spi (g_initialized r) (g_jedec_id r) status.

Definition Select : M HW unit := hw_op spi_select.
Definition Deselect : M HW unit := hw_op spi_deselect.

(** [Some rx] is the [true] return with the received byte. *)
Definition Transfer (tx : Z) : M HW (option Z) :=
  rx <- hw_op (spi_exchange tx) ;;
  match rx with
  | Some rx => ret (Some rx)
  | None => SetStatus SPI_FLASH_STATUS_TRANSFER_TIMEOUT ;; ret None
  end.

(** [Transfer(tx, NULL)]: only the success flag is used. *)
Definition Transmit (tx : Z) : M HW bool :=
  rx <- Transfer tx ;; ret (bool_decide (is_Some rx)).

(** The short-circuit [a && b] of two calls. *)
Definition andM (a b : M HW bool) : M HW bool := ok <- a ;; if ok then b else ret false.

Definition SendAddress24 (address : Z) : M HW bool :=
  andM (Transmit (u8 (Z.shiftr address 16)))
    (andM (Transmit (u8 (Z.shiftr address 8))) (Transmit (u8 address))).

Definition ReadStatus1 : M HW (option Z) :=
  Select ;;
  ok <- Transmit SPI_FLASH_CMD_READ_STATUS1 ;;
  value <- (if (ok : bool) then Transfer 0xFF else ret None) ;;
  Deselect ;;
  ret value.

Definition WaitReady (timeout : Z) : M HW bool :=
  loop (timeout + 1) (fun timeout =>
    if 0 <? timeout then
      status <- ReadStatus1 ;;
      match status with
      | None => ret (inr false)
      | Some status =>
          if Z.land status SPI_FLASH_STATUS1_BUSY =? 0 then ret (inr true)
          else ret (inl (timeout - 1))
      end
    else SetStatus SPI_FLASH_STATUS_BUSY_TIMEOUT ;; ret (inr false)) timeout.

Definition WriteEnable : M HW bool :=
  Select ;;
  ok <- Transmit SPI_FLASH_CMD_WRITE_ENABLE ;;
  if negb ok then Deselect ;; ret false else
  Deselect ;;
  status <- ReadStatus1 ;;
  match status with
  | None => ret false
  | Some status =>
      if Z.land status SPI_FLASH_STATUS1_WEL =? 0
      then SetStatus SPI_FLASH_STATUS_WRITE_ENABLE_FAILED ;; ret false
      else ret true
  end.

Definition ReadJedecIdRaw : M HW (option Z) :=
  Select ;;
  ok <- Transmit SPI_FLASH_CMD_JEDEC_ID ;;
  manufacturer <- (if (ok : bool) then Transfer 0xFF else ret None) ;;
  memory_type <- (if manufacturer is Some _ then Transfer 0xFF else ret None) ;;
  capacity <- (if memory_type is Some _ then Transfer 0xFF else ret None) ;;
  Deselect ;;
  ret (match manufacturer, memory_type, capacity with
       | Some m, Some t, Some c => Some (Z.lor (Z.lor (Z.shiftl m 16) (Z.shiftl t 8)) c)
       | _, _, _ => None
       end).

Definition SpiFlash_IsSupportedJedecId (jedec_id : Z) : bool :=
  (jedec_id =? SPI_FLASH_JEDEC_ID_W25Q32) || (jedec_id =? SPI_FLASH_JEDEC_ID_W25Q64).

(** The pin, clock and SPI peripheral set-up of the source changes neither
    memory and is not modelled, apart from the deselection it contains. *)
Definition SpiFlash_Init : M HW bool :=
  put_spi false 0 SPI_FLASH_STATUS_NOT_INITIALIZED ;;
  Deselect ;;
  jedec <- ReadJedecIdRaw ;;
  match jedec with
  | None => ret false
  | Some jedec_id =>
      put_spi false jedec_id SPI_FLASH_STATUS_NOT_INITIALIZED ;;
      if negb (SpiFlash_IsSupportedJedecId jedec_id)
      then SetStatus SPI_FLASH_STATUS_UNSUPPORTED_DEVICE ;; ret false else
      ready <- WaitReady SPI_FLASH_ERASE_TIMEOUT_LOOPS ;;
      if negb ready then ret false else
      put_spi true jedec_id SPI_FLASH_STATUS_OK ;;
      ret true
  end.

Definition SpiFlash_GetJedecId : M HW Z := r <- get_ram ;; ret (g_jedec_id r).
Definition SpiFlash_GetLastStatus : M HW SpiFlashStatus_t :=
  r <- get_ram ;; ret (g_last_status r).

(** The argument checks common to the operations: [Some true] to go on,
    otherwise the value to return. *)
Definition CheckArguments (null : bool) (address length : Z) : M HW (option bool) :=
  r <- get_ram ;;
  if negb (g_initialized r)
  then SetStatus SPI_FLASH_STATUS_NOT_INITIALIZED ;; ret (Some false)
  else if (length <>? 0) && null
  then SetStatus SPI_FLASH_STATUS_INVALID_ARGUMENT ;; ret (Some false)
  else if negb (ExtFlash_IsAbsoluteRangeValid address length)
  then SetStatus SPI_FLASH_STATUS_RANGE_ERROR ;; ret (Some false)
  else if length =? 0
  then SetStatus SPI_FLASH_STATUS_OK ;; ret (Some true)
  else ret None.

(** Open a read command; [false] is a timeout, with the chip deselected. *)
Definition OpenRead (address : Z) : M HW bool :=
  Select ;;
  ok <- andM (Transmit SPI_FLASH_CMD_READ_DATA) (SendAddress24 address) ;;
  if (ok : bool) then ret true else Deselect ;; ret false.

(** The byte loop: [step index value] says whether the byte is accepted;
    [Some bytes] when all were, [None] after a timeout or a rejected byte, for
    which [step] set its status. *)
Definition ReadBytes (length : Z) (check : Z -> Z -> bool) : M HW (option (list Z)) :=
  loop (length + 1) (fun '(index, received) =>
    if index <? length then
      rx <- Transfer 0xFF ;;
      match rx with
      | None => Deselect ;; ret (inr None)
      | Some value =>
          if check index value then ret (inl (index + 1, value :: received))
          else Deselect ;; SetStatus SPI_FLASH_STATUS_VERIFY_FAILED ;; ret (inr None)
      end
    else
      Deselect ;; SetStatus SPI_FLASH_STATUS_OK ;; ret (inr (Some (rev received))))
    (0, []).

(** The bytes read, or [None] for [false]. *)
Definition SpiFlash_Read (address length : Z) : M HW (option (list Z)) :=
  early <- CheckArguments false address length ;;
  match early with
  | Some ok => ret (if (ok : bool) then Some [] else None)
  | None =>
      ok <- OpenRead address ;;
      if negb ok then ret None else ReadBytes length (fun _ _ => true)
  end.

Definition SpiFlash_Verify (address : Z) (data : option (list Z)) (length : Z) : M HW bool :=
  early <- CheckArguments (bool_decide (data = None)) address length ;;
  match early with
  | Some ok => ret ok
  | None =>
      ok <- OpenRead address ;;
      if negb ok then ret false else
      r <- ReadBytes length (fun index value => value =? byte_at (default [] data) index) ;;
      ret (bool_decide (is_Some r))
  end.

Definition SpiFlash_IsErased (address length : Z) : M HW bool :=
  early <- CheckArguments false address length ;;
  match early with
  | Some ok => ret ok
  | None =>
      ok <- OpenRead address ;;
      if negb ok then ret false else
      r <- ReadBytes length (fun _ value => value =? 0xFF) ;;
      ret (bool_decide (is_Some r))
  end.

(** No byte of the data needs a 0 bit turned back to 1. *)
Definition programmable (existing data : list Z) : bool :=
  forallb (fun '(e, d) => Z.land e d =? d) (zip existing data).

Definition PreflightProgrammable (address : Z) (data : list Z) (length : Z) : M HW bool :=
  loop (length + 1) (fun offset =>
    if offset <? length then
      let chunk := Z.min (length - offset) SPI_FLASH_PREFLIGHT_BUFFER_SIZE in
      existing <- SpiFlash_Read (u32 (address + offset)) chunk ;;
      match existing with
      | None => ret (inr false)
      | Some existing =>
          if programmable existing (slice offset chunk data)
          then ret (inl (offset + chunk))
          else SetStatus SPI_FLASH_STATUS_NEEDS_ERASE ;; ret (inr false)
      end
    else ret (inr true)) 0.

(** The data phase of a page program: [true] when every byte went out. *)
Definition SendBytes (data : list Z) (length : Z) : M HW bool :=
  loop (length + 1) (fun index =>
    if index <? length then
      ok <- Transmit (byte_at data index) ;;
      if (ok : bool) then ret (inl (index + 1)) else ret (inr false)
    else ret (inr true)) 0.

Definition ProgramPageChunk (address : Z) (data : list Z) (length : Z) : M HW bool :=
  if (length =? 0) || (ExtFlash_PageChunkLength address length <? length)
  then SetStatus SPI_FLASH_STATUS_INVALID_ARGUMENT ;; ret false else
  enabled <- WriteEnable ;;
  if negb enabled then ret false else
  Select ;;
  ok <- andM (Transmit SPI_FLASH_CMD_PAGE_PROGRAM)
          (andM (SendAddress24 address) (SendBytes data length)) ;;
  Deselect ;;
  if negb ok then ret false else
  ready <- WaitReady SPI_FLASH_PROGRAM_TIMEOUT_LOOPS ;;
  if negb ready then ret false else
  SpiFlash_Verify address (Some data) length.

Definition SpiFlash_Write (address : Z) (data : option (list Z)) (length : Z) : M HW bool :=
  early <- CheckArguments (bool_decide (data = None)) address length ;;
  match early with
  | Some ok => ret ok
  | None =>
      let data := default [] data in
      ok <- PreflightProgrammable address data length ;;
      if negb ok then ret false else
      loop (length + 1) (fun offset =>
        if offset <? length then
          let chunk := ExtFlash_PageChunkLength (u32 (address + offset)) (length - offset) in
          ok <- ProgramPageChunk (u32 (address + offset))
                  (drop (Z.to_nat offset) data) chunk ;;
          if (ok : bool) then ret (inl (offset + chunk)) else ret (inr false)
        else SetStatus SPI_FLASH_STATUS_OK ;; ret (inr true)) 0
  end.

Definition SpiFlash_EraseSector (address : Z) : M HW bool :=
  r <- get_ram ;;
  if negb (g_initialized r)
  then SetStatus SPI_FLASH_STATUS_NOT_INITIALIZED ;; ret false
  else if negb (ExtFlash_IsSectorAligned address)
  then SetStatus SPI_FLASH_STATUS_ALIGNMENT_ERROR ;; ret false
  else if negb (ExtFlash_IsAbsoluteRangeValid address EXT_FLASH_SECTOR_SIZE)
  then SetStatus SPI_FLASH_STATUS_RANGE_ERROR ;; ret false else
  enabled <- WriteEnable ;;
  if negb enabled then ret false else
  Select ;;
  ok <- andM (Transmit SPI_FLASH_CMD_SECTOR_ERASE_4K) (SendAddress24 address) ;;
  if negb ok then Deselect ;; ret false else
  Deselect ;;
  ready <- WaitReady SPI_FLASH_ERASE_TIMEOUT_LOOPS ;;
  if negb ready then ret false else
  SetStatus SPI_FLASH_STATUS_OK ;;
  ret true.

(** ** Transactions *)

Abbreviation session w := (spi_session (w_hw w)).

(** What the chip received up to now only ever grows the footprint. *)
Lemma nor_footprint_prefix s t a : s `prefix_of` t -> nor_footprint s a -> nor_footprint t a.
Proof.
  intros [k ->]. destruct s as [|op args]; [done|]. cbn [app nor_footprint].
  destruct (op =? 2); [|destruct (op =? 32)].
  - destruct args as [|a2 [|a1 [|a0 data]]]; [done..|]. cbn [app]. cbv zeta.
    rewrite length_app.
    set (base := addr24 a2 a1 a0).
    pose proof (Z.div_mod base EXT_FLASH_PAGE_SIZE ltac:(done)) as Hd.
    destruct (Z.leb_spec (base mod EXT_FLASH_PAGE_SIZE + len data) EXT_FLASH_PAGE_SIZE);
      destruct (Z.leb_spec (base mod EXT_FLASH_PAGE_SIZE + Z.of_nat (length data + length k))
                  EXT_FLASH_PAGE_SIZE); try lia.
    intros Ha. pose proof (Z.mod_pos_bound base EXT_FLASH_PAGE_SIZE ltac:(done)).
    apply (Z.div_unique a _ _ (a - EXT_FLASH_PAGE_SIZE * (base / EXT_FLASH_PAGE_SIZE))); map_lia.
  - by destruct args as [|a2 [|a1 [|a0 data]]].
  - done.
Qed.

Lemma addr24_bytes a : 0 <= a < 2 ^ 24 ->
  addr24 (u8 (Z.shiftr a 16)) (u8 (Z.shiftr a 8)) (u8 a) = a.
Proof.
  intros Ha. unfold addr24, u8. rewrite !Z.shiftr_div_pow2 by lia.
  change (2 ^ 16) with (2 ^ 8 * 2 ^ 8) at 1. rewrite <- Z.div_div by lia.
  rewrite (Z.mod_small (a / 2 ^ 8 / 2 ^ 8)).
  2:{ rewrite Z.div_div by lia. split; [apply Z.div_pos; lia|apply Z.div_lt_upper_bound; lia]. }
  pose proof (Z.div_mod a (2 ^ 8) ltac:(done)).
  pose proof (Z.div_mod (a / 2 ^ 8) (2 ^ 8) ltac:(done)). lia.
Qed.

Lemma triple_SetStatus N F (P : hw -> Prop) st :
  triple N F (fun w => P (w_hw w)) (SetStatus st) (fun _ w => P (w_hw w)).
Proof. intros w HP. split; [apply frame_refl|done]. Qed.

Lemma triple_put_spi N F (P : hw -> Prop) i j st :
  triple N F (fun w => P (w_hw w)) (put_spi i j st) (fun _ w => P (w_hw w)).
Proof. intros w HP. split; [apply frame_refl|done]. Qed.

Lemma triple_Select :
  triple nowhere nowhere (fun _ => True) Select (fun _ w => session w = []).
Proof.
  intros w _.
  assert (frame nowhere nowhere (w_hw w) (fst (spi_select (w_hw w)))) as Hf.
  { split; intros; [apply select_nor|apply select_flash]. }
  apply wp_hw_op; [apply select_terminates| |done].
  intros [] H. split; [done|]. by apply select_session.
Qed.

Lemma triple_Deselect (N : Z -> Prop) :
  triple N nowhere (fun w => forall a, nor_footprint (session w) a -> N a) Deselect
    (fun _ _ => True).
Proof.
  intros w HN.
  assert (frame N nowhere (w_hw w) (fst (spi_deselect (w_hw w)))) as Hf.
  { split; intros; [apply deselect_nor; auto|apply deselect_flash]. }
  apply wp_hw_op; [apply deselect_terminates|done|done].
Qed.

(** One byte.  [Phi] carries what is known of the memories. *)
Lemma triple_Transfer s tx :
  triple nowhere nowhere (fun w => session w = s) (Transfer tx)
    (fun r w => match r with
                | Some rx => session w = s ++ [tx] /\ is_byte rx /\
                    forall a2 a1 a0 dummies, s = 0x03 :: a2 :: a1 :: a0 :: dummies ->
                      addr24 a2 a1 a0 + len dummies < EXT_FLASH_SIZE ->
                      rx = nor (w_hw w) (addr24 a2 a1 a0 + len dummies)
                | None => session w `prefix_of` s ++ [tx]
                end).
Proof.
  intros w Hs. unfold Transfer. apply wp_bind.
  assert (frame nowhere nowhere (w_hw w) (fst (spi_exchange tx (w_hw w)))) as Hf.
  { split; intros; [apply exchange_nor|apply exchange_flash]. }
  apply wp_hw_op; [apply exchange_terminates| |done].
  intros [rx|] H; split; try done.
  - pose proof (exchange_session _ _ _ H) as [Hx|[]]; [|done].
    split_and!; cbn; [congruence|by eapply exchange_byte|].
    intros. rewrite exchange_nor. eapply exchange_read; [congruence|done..].
  - cbn. pose proof (exchange_session _ _ _ H) as [->|[_ ->]]; rewrite Hs; [done|].
    by apply prefix_app_r.
Qed.

(** [Sends x m]: [m] appends the bytes [x] to the session, or some of them and
    reports failure. *)
Definition Sends (x : list Z) (m : M HW bool) : Prop :=
  forall s, triple nowhere nowhere (fun w => session w = s) m
    (fun ok w => if (ok : bool) then session w = s ++ x else session w `prefix_of` s ++ x).

Lemma Sends_Transmit tx : Sends [tx] (Transmit tx).
Proof.
  intros s. eapply triple_bind; [apply triple_Transfer|]. cbv beta.
  intros [rx|]; apply triple_ret; cbn; [by intros w []|done].
Qed.

Lemma Sends_andM x y a b : Sends x a -> Sends y b -> Sends (x ++ y) (andM a b).
Proof.
  intros Ha Hb s. eapply triple_bind; [apply Ha|]. intros [].
  - eapply triple_post; [apply Hb|]. intros ok w. by rewrite app_assoc.
  - apply triple_ret. intros w. rewrite app_assoc. apply prefix_app_r.
Qed.

Definition address_bytes (a : Z) : list Z :=
  [u8 (Z.shiftr a 16); u8 (Z.shiftr a 8); u8 a].

Lemma Sends_address a : Sends (address_bytes a) (SendAddress24 a).
Proof.
  apply (Sends_andM [_] [_; _]); [apply Sends_Transmit|].
  apply (Sends_andM [_] [_]); apply Sends_Transmit.
Qed.

Lemma Sends_bytes data n :
  0 <= n <= len data -> Sends (take (Z.to_nat n) data) (SendBytes data n).
Proof.
  intros Hn s. unfold SendBytes.
  eapply triple_pre.
  - apply (triple_loop _ _
      (fun i w => 0 <= i <= n /\ session w = s ++ take (Z.to_nat i) data)
      (fun i => n - i)); [|lia].
    intros i Hi. apply (triple_pure _ _ _ (0 <= i <= n)); [by intros w []|]. intros Hi'.
    apply triple_if; intros E; to_prop.
    + triple_step Sends_Transmit; [by intros w []|].
      pose proof (take_byte_at i data ltac:(lia)) as Ht.
      intros []; apply triple_ret; intros w; cbn.
      * intros ->. rewrite Ht, app_assoc. split_and!; (done || lia).
      * intros Hp. etrans; [exact Hp|]. rewrite <- app_assoc, <- Ht.
        apply prefix_app, prefix_take. lia.
    + apply triple_ret. intros w [_ ->]. by replace n with i by lia.
  - intros w Hs. cbn. rewrite Hs, app_nil_r. split; [lia|done].
Qed.

(** ** Status polling and command set-up *)

(** A call that leaves both memories alone, wherever it stops. *)
Abbreviation quiet m := (triple nowhere nowhere (fun _ => True) m (fun _ _ => True)).

(** Transactions of one of the harmless opcodes. *)
Lemma harmless_prefix op s t a :
  op = 0x03 \/ op = 0x05 \/ op = 0x06 \/ op = 0x9F ->
  s `prefix_of` op :: t -> ~ nor_footprint s a.
Proof.
  intros Hop Hs Ha. apply (nor_footprint_prefix _ _ _ Hs) in Ha.
  by destruct Hop as [->|[->|[->| ->]]].
Qed.

Lemma harmless_Deselect op :
  op = 0x03 \/ op = 0x05 \/ op = 0x06 \/ op = 0x9F ->
  triple nowhere nowhere (fun w => exists t, session w `prefix_of` op :: t) Deselect
    (fun _ _ => True).
Proof.
  intros Hop. eapply triple_pre; [apply triple_Deselect|]. intros w [t Ht] a Ha.
  by apply (harmless_prefix op _ _ _ Hop Ht) in Ha.
Qed.

(** The session starts with [op], or nothing was sent. *)
Definition opened (op : Z) w : Prop := exists t, session w `prefix_of` op :: t.

Lemma opened_Transfer op tx :
  triple nowhere nowhere (fun w => exists s, session w = op :: s) (Transfer tx)
    (fun r w => match r with
                | Some rx => (exists s, session w = op :: s) /\ is_byte rx
                | None => opened op w
                end).
Proof.
  apply triple_exists. intros s. eapply triple_post; [apply triple_Transfer|].
  intros [rx|] w; cbn; [|intros H; by exists (s ++ [tx])].
  intros (? & ? & _). eauto.
Qed.

Lemma open_opcode op :
  triple nowhere nowhere (fun w => session w = []) (Transmit op)
    (fun ok w => if (ok : bool) then exists s, session w = op :: s else opened op w).
Proof.
  eapply triple_post; [apply Sends_Transmit|].
  intros [] w; cbn; [eauto|]. intros H. by exists [].
Qed.

Lemma opened_of op w : (exists s, session w = op :: s) -> opened op w.
Proof. intros [s Hs]. exists s. by rewrite Hs. Qed.

Lemma quiet_ReadStatus1 : quiet ReadStatus1.
Proof.
  unfold ReadStatus1. triple_step triple_Select; [done|]. intros _.
  triple_step (open_opcode SPI_FLASH_CMD_READ_STATUS1); [done|]. intros ok.
  eapply (triple_bind _ _ _ _ (fun _ => opened SPI_FLASH_CMD_READ_STATUS1)).
  - destruct ok; [|by apply triple_ret].
    eapply triple_post; [apply opened_Transfer|].
    intros [v|] w; [intros [? _]; by apply opened_of|done].
  - intros r. triple_step (harmless_Deselect SPI_FLASH_CMD_READ_STATUS1); [auto|done|].
    intros _. by apply triple_ret.
Qed.

Lemma quiet_SetStatus st : quiet (SetStatus st).
Proof. exact (triple_SetStatus _ _ (fun _ => True) st). Qed.

Lemma quiet_WaitReady timeout : 0 <= timeout -> quiet (WaitReady timeout).
Proof.
  intros Ht. apply (triple_loop _ _ (fun _ _ => True) (fun t => t)); [|lia].
  intros t H0. apply triple_if; intros E; to_prop.
  - triple_step quiet_ReadStatus1; [done|]. intros [st|]; [|by apply triple_ret].
    apply triple_if; intros _; apply triple_ret; [done|]. intros. split; [done|lia].
  - triple_step quiet_SetStatus; [done|]. intros _. by apply triple_ret.
Qed.

Lemma quiet_WriteEnable : quiet WriteEnable.
Proof.
  unfold WriteEnable. triple_step triple_Select; [done|]. intros _.
  triple_step (open_opcode SPI_FLASH_CMD_WRITE_ENABLE); [done|].
  intros []; cbn [negb];
    (triple_step (harmless_Deselect SPI_FLASH_CMD_WRITE_ENABLE);
      [auto|intros w Hw; cbv beta in Hw; try apply opened_of in Hw; exact Hw|]);
    intros _; [|by apply triple_ret].
  triple_step quiet_ReadStatus1; [done|]. intros [st|]; [|by apply triple_ret].
  apply triple_if; intros _; [|by apply triple_ret].
  triple_step quiet_SetStatus; [done|]. intros _. by apply triple_ret.
Qed.

Lemma quiet_ReadJedecIdRaw : quiet ReadJedecIdRaw.
Proof.
  unfold ReadJedecIdRaw. triple_step triple_Select; [done|]. intros _.
  triple_step (open_opcode SPI_FLASH_CMD_JEDEC_ID); [done|]. intros ok.
  set (I := fun (r : option Z) w => if r is Some _ then exists s, session w = SPI_FLASH_CMD_JEDEC_ID :: s
                         else opened SPI_FLASH_CMD_JEDEC_ID w).
  assert (Hread : forall (b : bool) (P : World HW -> Prop),
    (forall w, P w -> if b then exists s, session w = SPI_FLASH_CMD_JEDEC_ID :: s
                      else opened SPI_FLASH_CMD_JEDEC_ID w) ->
    triple nowhere nowhere P (if b then Transfer 0xFF else ret None) I).
  { intros [] P HP; [|by apply triple_ret].
    eapply triple_conseq; [apply opened_Transfer|done..|exact HP|].
    intros [v|] w; [by intros [? _]|done]. }
  eapply triple_bind; [by apply Hread|]. intros m.
  assert (Hnext : forall (m : option Z),
    triple nowhere nowhere (I m) (if m is Some _ then Transfer 0xFF else ret None) I).
  { intros [v|]; [apply (Hread true)|apply (Hread false)]; done. }
  eapply triple_bind; [by apply Hnext|]. intros t.
  eapply triple_bind; [by apply Hnext|]. intros c.
  triple_step (harmless_Deselect SPI_FLASH_CMD_JEDEC_ID); [auto| |].
  { intros w Hw. destruct c; [by apply opened_of|done]. }
  intros _. by apply triple_ret.
Qed.

(** ** Reading *)

(** The early exits: only [None] continues, with the range checked. *)
Lemma triple_CheckArguments null a n P :
  0 <= a -> 0 <= n ->
  triple nowhere nowhere (fun w => P (w_hw w)) (CheckArguments null a n)
    (fun r w => P (w_hw w) /\
       match r with
       | None => 0 < n /\ a + n <= EXT_FLASH_SIZE /\ null = false
       | Some true => n = 0 /\ a + n <= EXT_FLASH_SIZE
       | Some false => True
       end).
Proof.
  intros Ha Hn. unfold CheckArguments.
  assert (Hset : forall st (r : option bool) (Q : Prop), Q ->
    triple nowhere nowhere (fun w => P (w_hw w)) (SetStatus st ;; ret r)
      (fun r' w => P (w_hw w) /\ r' = r /\ Q)).
  { intros. triple_step (triple_SetStatus _ _ P); [done|]. intros _. by apply triple_ret. }
  eapply triple_bind; [apply (triple_get_ram _ _ (fun w => P (w_hw w)))|]. cbv beta. intros r.
  eapply triple_pre with (P := fun w => P (w_hw w)); [|by intros w []].
  apply triple_if; intros _; [by eapply triple_post; [exact (Hset _ _ True I)|intros ? w (? & -> & _)]|].
  apply triple_if; intros E1; [by eapply triple_post; [exact (Hset _ _ True I)|intros ? w (? & -> & _)]|].
  apply triple_if; intros E2; [by eapply triple_post; [exact (Hset _ _ True I)|intros ? w (? & -> & _)]|].
  apply negb_false_iff, ExtFlash_IsAbsoluteRangeValid_spec in E2; [|done..].
  apply triple_if; intros E3; to_prop.
  - eapply triple_post; [by apply (Hset _ _ True)|]. by intros ? w (? & -> & _).
  - apply triple_ret. intros w HP. split_and!; [done|lia|done|].
    apply andb_false_iff in E1 as [E1|E1]; [|done]. to_prop. lia.
Qed.

Definition read_command (a : Z) : list Z := SPI_FLASH_CMD_READ_DATA :: address_bytes a.

Lemma triple_OpenRead a :
  triple nowhere nowhere (fun _ => True) (OpenRead a)
    (fun ok w => (ok : bool) = true -> session w = read_command a).
Proof.
  unfold OpenRead. triple_step triple_Select; [done|]. intros _.
  triple_step (Sends_andM _ _ _ _ (Sends_Transmit SPI_FLASH_CMD_READ_DATA) (Sends_address a));
    [intros w Hw; exact Hw|].
  intros []; [by apply triple_ret|].
  triple_step (harmless_Deselect SPI_FLASH_CMD_READ_DATA); [auto| |].
  { intros w Hw. by exists (address_bytes a). }
  intros _. by apply triple_ret.
Qed.

(** The read loop returns the stored bytes, every one of them checked. *)
Definition read_back h a n (check : Z -> Z -> bool) (bs : list Z) : Prop :=
  bs = nor_slice h a n /\ forall i, 0 <= i < n -> check i (nor h (a + i)) = true.

Lemma read_back_snoc h a i check bs v :
  0 <= i -> read_back h a i check bs -> v = nor h (a + i) -> check i v = true ->
  read_back h a (i + 1) check (bs ++ [v]).
Proof.
  intros Hi [-> Hc] -> Hv. split.
  - by rewrite nor_slice_app by lia.
  - intros j Hj. destruct (decide (j = i)) as [->|]; [done|]. apply Hc. lia.
Qed.

Lemma read_back_stable N F a n check bs :
  0 <= n -> (forall i, a <= i < a + n -> ~ N i) ->
  stable N F (fun h => read_back h a n check bs).
Proof.
  intros Hn HN h h' Hf [-> Hc]. split.
  - symmetry. by eapply nor_slice_frame.
  - intros i Hi. destruct Hf as [Hf _]. rewrite Hf; [by apply Hc|]. apply HN. lia.
Qed.

Definition read_dummies (i : Z) : list Z := replicate (Z.to_nat i) 0xFF.

Lemma close_read (P : hw -> Prop) :
  stable nowhere nowhere P ->
  triple nowhere nowhere (fun w => opened SPI_FLASH_CMD_READ_DATA w /\ P (w_hw w)) Deselect
    (fun _ w => P (w_hw w)).
Proof.
  intros HP. eapply triple_post.
  - apply (triple_stable _ _ P); [done|]. apply harmless_Deselect. auto.
  - by intros _ w [].
Qed.

Lemma triple_ReadBytes a n check :
  0 <= a < 2 ^ 24 -> 0 <= n -> a + n <= EXT_FLASH_SIZE ->
  triple nowhere nowhere (fun w => session w = read_command a) (ReadBytes n check)
    (fun r w => forall bs, r = Some bs -> read_back (w_hw w) a n check bs).
Proof.
  intros Ha Hn Han. unfold ReadBytes. eapply triple_pre.
  - apply (triple_loop _ _ (fun '(i, received) w => 0 <= i <= n /\
        session w = read_command a ++ read_dummies i /\
        read_back (w_hw w) a i check (rev received)) (fun '(i, _) => n - i)); [|cbn; lia].
    intros [i received] _. apply (triple_pure _ _ _ (0 <= i <= n)); [by intros w []|]. intros Hi.
    assert (Hstab : forall j bs, 0 <= j -> stable nowhere nowhere (fun h => read_back h a j check bs))
      by (intros; apply read_back_stable; [done|by intros ? ? []]).
    apply triple_if; intros E; to_prop.
    + eapply triple_bind.
      { eapply triple_pre; [apply (triple_stable _ _ _ _ _ _ (Hstab i (rev received) ltac:(lia))
            (triple_Transfer (read_command a ++ read_dummies i) 0xFF))|by intros w (_ & ? & ?)]. }
      cbv beta. intros [rx|].
      * apply triple_if; intros Hc.
        -- apply triple_ret. intros w [(Hs & _ & Hrx) Hback]. split_and!; try lia.
           ++ rewrite Hs, <- app_assoc. f_equal. unfold read_dummies.
              rewrite Z2Nat.inj_add, replicate_add by lia. done.
           ++ cbn. apply read_back_snoc; [lia|done| |done].
              specialize (Hrx _ _ _ _ eq_refl). rewrite addr24_bytes in Hrx by done.
              unfold read_dummies in Hrx. rewrite length_replicate, Z2Nat.id in Hrx by lia.
              apply Hrx. lia.
        -- triple_step (close_read (fun _ => True)); [done| |].
           { intros w [(Hs & _) _]. split; [|done]. apply opened_of. rewrite Hs. by eexists. }
           intros _. triple_step quiet_SetStatus; [done|]. intros _. by apply triple_ret.
      * triple_step (close_read (fun _ => True)); [done| |].
        { intros w [Hs _]. split; [|done].
          exists (address_bytes a ++ read_dummies i ++ [0xFF]). exact Hs. }
        intros _. by apply triple_ret.
    + assert (i = n) as -> by lia.
      triple_step (close_read _ (Hstab n (rev received) Hn)).
      { intros w (_ & Hs & Hb). split; [|done]. apply opened_of. rewrite Hs. by eexists. }
      intros _. triple_step (triple_SetStatus _ _ (fun h => read_back h a n check (rev received)));
        [done|].
      intros _. apply triple_ret. intros w Hb bs [= <-]. done.
  - intros w Hs. cbn. rewrite Hs. split_and!; [lia|lia|done|].
    split; [|lia]. unfold nor_slice. by rewrite seqZ_nil by lia.
Qed.

(** A successful read returns what the chip stores. *)
Lemma triple_SpiFlash_Read a n :
  0 <= a -> 0 <= n ->
  triple nowhere nowhere (fun _ => True) (SpiFlash_Read a n)
    (fun r w => forall bs, r = Some bs ->
       a + n <= EXT_FLASH_SIZE /\ bs = nor_slice (w_hw w) a n).
Proof.
  intros Ha Hn. unfold SpiFlash_Read.
  triple_step (triple_CheckArguments false a n (fun _ => True)); [done..|].
  intros [[]|].
  - apply triple_ret. intros w (_ & -> & Hr) bs [= <-]. split; [done|].
    unfold nor_slice. by rewrite seqZ_nil.
  - by apply triple_ret.
  - apply (triple_pure _ _ _ (0 < n /\ a + n <= EXT_FLASH_SIZE)); [by intros w (_ & ? & ? & _)|].
    intros [Hn0 Hr].
    triple_step triple_OpenRead; [done|]. intros [].
    + eapply triple_conseq; [apply (triple_ReadBytes a n); map_lia|done..| |].
      * intros w Hw. by apply Hw.
      * intros r w Hb bs ->. by destruct (Hb bs eq_refl).
    + by apply triple_ret.
Qed.

(** A successful verify means the bytes are stored. *)
Lemma triple_SpiFlash_Verify a data n :
  0 <= a -> 0 <= n <= len data ->
  triple nowhere nowhere (fun _ => True) (SpiFlash_Verify a (Some data) n)
    (fun r w => r = true ->
       a + n <= EXT_FLASH_SIZE /\ nor_slice (w_hw w) a n = take (Z.to_nat n) data).
Proof.
  intros Ha Hn. unfold SpiFlash_Verify.
  triple_step (triple_CheckArguments _ a n (fun _ => True)); [lia..|done|].
  intros [[]|].
  - apply triple_ret. intros w (_ & -> & Hr) _. split; [done|]. unfold nor_slice.
    by rewrite seqZ_nil.
  - by apply triple_ret.
  - apply (triple_pure _ _ _ (0 < n /\ a + n <= EXT_FLASH_SIZE)); [by intros w (_ & ? & ? & _)|].
    intros [Hn0 Hr].
    triple_step triple_OpenRead; [done|]. intros []; cbn [negb]; [|by apply triple_ret].
    triple_step (triple_ReadBytes a n); [map_lia..|intros w Hw; by apply Hw|].
    intros r. apply triple_ret. intros w Hb Hs. split; [done|].
    apply bool_decide_eq_true in Hs as [bs ->]. destruct (Hb bs eq_refl) as [-> Hc].
    apply nor_slice_eq_bytes; [rewrite length_take; lia|].
    intros i Hi. rewrite byte_at_take by lia. apply Z.eqb_eq. by apply Hc.
Qed.

(** A successful erase check means the bytes are all erased. *)
Lemma triple_SpiFlash_IsErased a n :
  0 <= a -> 0 <= n ->
  triple nowhere nowhere (fun _ => True) (SpiFlash_IsErased a n)
    (fun r w => r = true -> a + n <= EXT_FLASH_SIZE /\
       forall i, a <= i < a + n -> nor (w_hw w) i = 0xFF).
Proof.
  intros Ha Hn. unfold SpiFlash_IsErased.
  triple_step (triple_CheckArguments _ a n (fun _ => True)); [lia..|done|].
  intros [[]|].
  - apply triple_ret. intros w (_ & -> & Hr) _. split; [done|lia].
  - by apply triple_ret.
  - apply (triple_pure _ _ _ (0 < n /\ a + n <= EXT_FLASH_SIZE)); [by intros w (_ & ? & ? & _)|].
    intros [Hn0 Hr].
    triple_step triple_OpenRead; [done|]. intros []; cbn [negb]; [|by apply triple_ret].
    triple_step (triple_ReadBytes a n); [map_lia..|intros w Hw; by apply Hw|].
    intros r. apply triple_ret. intros w Hb Hs. split; [done|].
    apply bool_decide_eq_true in Hs as [bs ->]. destruct (Hb bs eq_refl) as [_ Hc].
    intros i Hi. replace i with (a + (i - a)) by lia. apply Z.eqb_eq. apply Hc. lia.
Qed.

(** ** Programming and erasing *)

Lemma quiet_Preflight a data n : 0 <= n -> quiet (PreflightProgrammable a data n).
Proof.
  intros Hn. unfold PreflightProgrammable.
  apply (triple_pre _ _ (fun _ => 0 <= 0)); [|done].
  apply (triple_loop _ _ (fun o _ => 0 <= o) (fun o => Z.max 0 (n - o))); [|lia].
  intros o _. apply (triple_pure _ _ _ (0 <= o)); [done|]. intros Ho.
  apply triple_if; intros E; to_prop; [|by apply triple_ret].
  assert (0 < Z.min (n - o) SPI_FLASH_PREFLIGHT_BUFFER_SIZE) as Hc
    by (unfold SPI_FLASH_PREFLIGHT_BUFFER_SIZE; lia).
  cbv zeta. triple_step triple_SpiFlash_Read; [apply u32_range|lia|done|].
  intros [bs|]; [|by apply triple_ret].
  apply triple_if; intros _.
  - apply triple_ret. intros. lia.
  - triple_step quiet_SetStatus; [done|]. intros _. by apply triple_ret.
Qed.

(** The bytes a page program can reach are the ones it was given. *)
Lemma page_program_footprint a data b :
  0 <= a < 2 ^ 24 ->
  a mod EXT_FLASH_PAGE_SIZE + len data <= EXT_FLASH_PAGE_SIZE ->
  nor_footprint ([SPI_FLASH_CMD_PAGE_PROGRAM] ++ address_bytes a ++ data) b ->
  a <= b < a + len data.
Proof.
  intros Ha Hp. cbn [app address_bytes nor_footprint Z.eqb]. 
  change (SPI_FLASH_CMD_PAGE_PROGRAM =? 2) with true. cbv zeta iota.
  rewrite addr24_bytes by done. rewrite (proj2 (Z.leb_le _ _)) by done. done.
Qed.

Lemma sector_erase_footprint a b :
  0 <= a < 2 ^ 24 ->
  nor_footprint ([SPI_FLASH_CMD_SECTOR_ERASE_4K] ++ address_bytes a) b ->
  a / EXT_FLASH_SECTOR_SIZE = b / EXT_FLASH_SECTOR_SIZE.
Proof.
  intros Ha. cbn [app address_bytes nor_footprint].
  change (SPI_FLASH_CMD_SECTOR_ERASE_4K =? 2) with false.
  change (SPI_FLASH_CMD_SECTOR_ERASE_4K =? 32) with true. cbv iota.
  by rewrite addr24_bytes.
Qed.

(** Closing a command, sent whole or cut short, reaches its footprint only. *)
Lemma close_command (N : Z -> Prop) x (ok : bool) :
  (forall a, nor_footprint x a -> N a) ->
  triple N nowhere
    (fun w => if ok then session w = [] ++ x else session w `prefix_of` [] ++ x) Deselect
    (fun _ _ => True).
Proof.
  intros HN. eapply triple_pre; [apply (triple_Deselect N)|].
  intros w Hw a Ha. apply HN. eapply nor_footprint_prefix; [|exact Ha].
  destruct ok; [by rewrite Hw|done].
Qed.

Lemma triple_ProgramPageChunk a data n :
  0 <= a < 2 ^ 24 -> 0 <= n <= len data ->
  triple (fun b => a <= b < a + n) nowhere (fun _ => True) (ProgramPageChunk a data n)
    (fun ok w => ok = true ->
       a + n <= EXT_FLASH_SIZE /\ nor_slice (w_hw w) a n = take (Z.to_nat n) data).
Proof.
  intros Ha Hn. unfold ProgramPageChunk. apply triple_if; intros E.
  { triple_wide quiet_SetStatus; [done..|]. intros _. by apply triple_ret. }
  to_prop. rewrite ExtFlash_PageChunkLength_eq in *.
  triple_wide quiet_WriteEnable; [done..|]. intros []; cbn [negb]; [|by apply triple_ret].
  set (N := fun b => a <= b < a + n).
  triple_wide triple_Select; [done..|]. intros _.
  triple_wide (Sends_andM _ _ _ _ (Sends_Transmit SPI_FLASH_CMD_PAGE_PROGRAM)
       (Sends_andM _ _ _ _ (Sends_address a) (Sends_bytes data n Hn)));
    [done|done|intros w Hw; exact Hw|]. intros ok.
  triple_step (close_command N); [|intros w Hw; exact Hw|].
  { assert (len (take (Z.to_nat n) data) = n) as Hl by (rewrite length_take; lia).
    intros b Hb. apply page_program_footprint in Hb; [subst N; cbn; lia|done|lia]. }
  intros _. destruct ok; cbn [negb]; [|by apply triple_ret].
  triple_wide quiet_WaitReady; [done..|]. intros []; cbn [negb]; [|by apply triple_ret].
  eapply triple_conseq; [apply triple_SpiFlash_Verify; lia|done..].
Qed.

(** A write reaches only its range, and succeeds only if the range holds the
    data. *)
Lemma triple_SpiFlash_Write a data n :
  0 <= a -> n = len data ->
  triple (fun b => a <= b < a + n) nowhere (fun _ => True) (SpiFlash_Write a (Some data) n)
    (fun ok w => ok = true -> a + n <= EXT_FLASH_SIZE /\ nor_slice (w_hw w) a n = data).
Proof.
  intros Ha Hn. unfold SpiFlash_Write. set (N := fun b => a <= b < a + n).
  triple_wide (triple_CheckArguments _ a n (fun _ => True)); [lia..|done|done|done|].
  intros [[]|].
  - apply triple_ret. intros w (_ & -> & Hr) _. split; [done|].
    destruct data; [done|]. cbn in Hn. lia.
  - by apply triple_ret.
  - apply (triple_pure _ _ _ (0 < n /\ a + n <= EXT_FLASH_SIZE)); [by intros w (_ & ? & ? & _)|].
    intros [Hn0 Hr]. cbn [default].
    triple_wide quiet_Preflight; [lia|done..|]. intros []; cbn [negb]; [|by apply triple_ret].
    eapply triple_pre.
    + apply (triple_loop _ _ (fun o w => 0 <= o <= n /\
          nor_slice (w_hw w) a o = take (Z.to_nat o) data) (fun o => n - o)); [|lia].
      intros o _. apply (triple_pure _ _ _ (0 <= o <= n)); [by intros w []|]. intros Ho.
      apply triple_if; intros E; to_prop.
      * rewrite u32_small by (unfold is_u32; map_lia). cbv zeta.
        pose proof (ExtFlash_PageChunkLength_bounds (a + o) (n - o) ltac:(lia)) as Hc.
        cbv zeta in Hc. revert Hc. generalize (ExtFlash_PageChunkLength (a + o) (n - o)).
        intros chunk [Hc _].
        eapply triple_bind.
        { eapply triple_conseq.
          - eapply (triple_stable (fun b => a + o <= b < a + o + chunk) nowhere
              (fun h => nor_slice h a o = take (Z.to_nat o) data)).
            { apply (nor_slice_stable _ _ a o (fun bs => bs = _)). intros; lia. }
            apply (triple_ProgramPageChunk (a + o) (drop (Z.to_nat o) data) chunk);
              [map_lia|rewrite length_drop; lia].
          - subst N. cbn. intros; lia.
          - done.
          - by intros w (_ & ?).
          - intros ? ? Hq; exact Hq. }
        cbv beta. intros []; apply triple_ret; [|done].
        intros w [Hok Hold]. destruct (Hok eq_refl) as [_ Hnew]. split_and!; [lia..| |lia|lia].
        rewrite nor_slice_app, Hold, Hnew, Z2Nat.inj_add by lia.
        apply take_take_drop.
      * assert (o = n) as -> by lia.
        triple_step (triple_SetStatus _ _ (fun h => nor_slice h a n = take (Z.to_nat n) data));
          [by intros w []|].
        intros _. apply triple_ret. intros w -> _. split; [done|]. apply take_ge. lia.
    + intros w _. split; [lia|]. unfold nor_slice. by rewrite seqZ_nil by lia.
Qed.

(** An erase only reaches its sector. *)
Lemma triple_SpiFlash_EraseSector a :
  0 <= a ->
  triple (fun b => a <= b < a + EXT_FLASH_SECTOR_SIZE) nowhere (fun _ => True)
    (SpiFlash_EraseSector a)
    (fun ok _ => ok = true ->
       a mod EXT_FLASH_SECTOR_SIZE = 0 /\ a + EXT_FLASH_SECTOR_SIZE <= EXT_FLASH_SIZE).
Proof.
  intros Ha. unfold SpiFlash_EraseSector.
  set (N := fun b => a <= b < a + EXT_FLASH_SECTOR_SIZE).
  eapply triple_bind; [apply triple_get_ram|]. cbv beta. intros r.
  eapply triple_pre with (P := fun _ => True); [|done].
  assert (Hset : forall st, triple N nowhere (fun _ => True) (SetStatus st ;; ret false)
    (fun ok _ => ok = true -> a mod EXT_FLASH_SECTOR_SIZE = 0 /\
       a + EXT_FLASH_SECTOR_SIZE <= EXT_FLASH_SIZE)).
  { intros. triple_wide quiet_SetStatus; [done..|]. intros _. by apply triple_ret. }
  apply triple_if; intros _; [apply Hset|].
  apply triple_if; intros E1; [apply Hset|].
  apply triple_if; intros E2; [apply Hset|].
  apply negb_false_iff, ExtFlash_IsSectorAligned_spec in E1.
  apply negb_false_iff, ExtFlash_IsAbsoluteRangeValid_spec in E2; [|map_lia..].
  triple_wide quiet_WriteEnable; [done..|]. intros []; cbn [negb]; [|by apply triple_ret].
  triple_wide triple_Select; [done..|]. intros _.
  triple_wide (Sends_andM _ _ _ _ (Sends_Transmit SPI_FLASH_CMD_SECTOR_ERASE_4K)
                 (Sends_address a)); [done|done|intros w Hw; exact Hw|].
  assert (HN : forall b,
    nor_footprint ([SPI_FLASH_CMD_SECTOR_ERASE_4K] ++ address_bytes a) b -> N b).
  { intros b Hb. apply sector_erase_footprint in Hb; [|map_lia]. subst N. cbn.
    pose proof (Z.div_mod a EXT_FLASH_SECTOR_SIZE ltac:(done)).
    pose proof (Z.div_mod b EXT_FLASH_SECTOR_SIZE ltac:(done)).
    pose proof (Z.mod_pos_bound b EXT_FLASH_SECTOR_SIZE ltac:(done)).
    rewrite Hb, E1 in *. lia. }
  intros ok. destruct ok; cbn [negb].
  - triple_step (close_command N _ true HN); [intros w Hw; exact Hw|]. intros _.
    triple_wide quiet_WaitReady; [done..|]. intros []; cbn [negb]; [|by apply triple_ret].
    triple_wide quiet_SetStatus; [done..|]. intros _. by apply triple_ret.
  - triple_step (close_command N _ false HN); [intros w Hw; exact Hw|]. intros _.
    by apply triple_ret.
Qed.

(** The driver start-up alters nothing, provided the chip holds no open
    transaction: the first deselection would otherwise commit it. *)
Lemma triple_SpiFlash_Init :
  triple nowhere nowhere (fun w => forall a, ~ nor_footprint (session w) a) SpiFlash_Init
    (fun ok w => ok = true -> g_initialized (w_ram w) = true /\
       SpiFlash_IsSupportedJedecId (g_jedec_id (w_ram w)) = true).
Proof.
  unfold SpiFlash_Init.
  triple_step (triple_put_spi _ _ (fun h => forall a, ~ nor_footprint (spi_session h) a)); [done|].
  intros _. triple_step (triple_Deselect nowhere); [intros w Hw a Ha; by apply Hw in Ha|].
  intros _. triple_step quiet_ReadJedecIdRaw; [done|]. intros [j|]; [|by apply triple_ret].
  triple_step (triple_put_spi _ _ (fun _ => True)); [done|]. intros _.
  apply triple_if; intros E; to_prop.
  { triple_step quiet_SetStatus; [done|]. intros _. by apply triple_ret. }
  triple_step quiet_WaitReady; [done|done|]. intros []; cbn [negb]; [|by apply triple_ret].
  eapply (triple_bind _ _ _ _ (fun _ w => g_initialized (w_ram w) = true /\
            g_jedec_id (w_ram w) = j)).
  - intros w _. split; [apply frame_refl|done].
  - intros _. apply triple_ret. intros w [-> ->] _. done.
Qed.

End spi_flash.

Arguments SpiFlash_Read {HW} : simpl never.
Arguments SpiFlash_Write {HW} : simpl never.
Arguments SpiFlash_Verify {HW} : simpl never.
Arguments SpiFlash_EraseSector {HW} : simpl never.
