(* ===== verification/ExternalFlashStorage.v ===== *)
(** * ExternalFlashStorage: node-stm32f103/common/storage/external_flash_storage.c

    The W25Q partition table and the range-checked operations on a partition.
    The lemmas show that no operation on a partition reaches a byte of another
    one, whatever offset and length it is given. *)

From S2P Require Import Prelude MemoryMap Device Logic SpiFlash.

Inductive ExternalFlashPartition_t :=
  | EXTERNAL_FLASH_PARTITION_METADATA_A
  | EXTERNAL_FLASH_PARTITION_METADATA_B
  | EXTERNAL_FLASH_PARTITION_INCOMING
  | EXTERNAL_FLASH_PARTITION_RECONSTRUCTED
  | EXTERNAL_FLASH_PARTITION_BACKUP
  | EXTERNAL_FLASH_PARTITION_LOG
  | EXTERNAL_FLASH_PARTITION_SELF_TEST
  | EXTERNAL_FLASH_PARTITION_COUNT.

#[export] Instance ExternalFlashPartition_eq : EqDecision ExternalFlashPartition_t.
Proof. solve_decision. Defined.

Record ExternalFlashPartitionInfo_t := mkPartitionInfo {
  info_address : Z;
  info_size : Z
}.

Definition g_partitions : list ExternalFlashPartitionInfo_t :=
  [mkPartitionInfo EXT_METADATA_A_ADDRESS EXT_FLASH_SECTOR_SIZE;
   mkPartitionInfo EXT_METADATA_B_ADDRESS EXT_FLASH_SECTOR_SIZE;
   mkPartitionInfo EXT_INCOMING_ADDRESS EXT_INCOMING_SIZE;
   mkPartitionInfo EXT_RECONSTRUCTED_ADDRESS EXT_RECONSTRUCTED_SIZE;
   mkPartitionInfo EXT_BACKUP_ADDRESS EXT_BACKUP_SIZE;
   mkPartitionInfo EXT_LOG_ADDRESS EXT_LOG_SIZE;
   mkPartitionInfo EXT_SELF_TEST_ADDRESS EXT_SELF_TEST_SIZE].

(** The cast [(uint32_t)partition]. *)
Definition partition_index (p : ExternalFlashPartition_t) : nat :=
  match p with
  | EXTERNAL_FLASH_PARTITION_METADATA_A => 0
  | EXTERNAL_FLASH_PARTITION_METADATA_B => 1
  | EXTERNAL_FLASH_PARTITION_INCOMING => 2
  | EXTERNAL_FLASH_PARTITION_RECONSTRUCTED => 3
  | EXTERNAL_FLASH_PARTITION_BACKUP => 4
  | EXTERNAL_FLASH_PARTITION_LOG => 5
  | EXTERNAL_FLASH_PARTITION_SELF_TEST => 6
  | EXTERNAL_FLASH_PARTITION_COUNT => 7
  end%nat.

Definition ExternalFlashStorage_GetPartition (p : ExternalFlashPartition_t)
    : option ExternalFlashPartitionInfo_t :=
  if bool_decide (partition_index EXTERNAL_FLASH_PARTITION_COUNT <= partition_index p)%nat
  then None
  else g_partitions !! partition_index p.

Definition ResolveRange (p : ExternalFlashPartition_t) (offset length : Z) : option Z :=
  match ExternalFlashStorage_GetPartition p with
  | None => None
  | Some info =>
      if negb (ExtFlash_IsRangeValid (info_size info) offset length) then None
      else Some (u32 (info_address info + offset))
  end.

Section storage.
Context {HW : Hw}.
Implicit Types w : World HW.

Definition ExternalFlashStorage_Init : M HW bool := SpiFlash_Init.

Definition ExternalFlashStorage_Read (p : ExternalFlashPartition_t) (offset length : Z)
    : M HW (option (list Z)) :=
  match ResolveRange p offset length with
  | None => ret None
  | Some address => SpiFlash_Read address length
  end.

Definition ExternalFlashStorage_Write (p : ExternalFlashPartition_t) (offset : Z)
    (data : option (list Z)) (length : Z) : M HW bool :=
  match ResolveRange p offset length with
  | None => ret false
  | Some address => SpiFlash_Write address data length
  end.

Definition ExternalFlashStorage_Verify (p : ExternalFlashPartition_t) (offset : Z)
    (data : option (list Z)) (length : Z) : M HW bool :=
  match ResolveRange p offset length with
  | None => ret false
  | Some address => SpiFlash_Verify address data length
  end.

Definition ExternalFlashStorage_EraseRange (p : ExternalFlashPartition_t)
    (offset length : Z) : M HW bool :=
  match ExternalFlashStorage_GetPartition p with
  | None => ret false
  | Some info =>
      if (length =? 0)
         || negb (ExtFlash_IsRangeValid (info_size info) offset length)
         || negb (ExtFlash_IsSectorAligned offset)
         || (Z.land length (EXT_FLASH_SECTOR_SIZE - 1) <>? 0)
      then ret false else
      let address := u32 (info_address info + offset) in
      if negb (ExtFlash_IsSectorAligned address) then ret false else
      loop (length + 1) (fun erased =>
        if erased <? length then
          ok <- SpiFlash_EraseSector (u32 (address + erased)) ;;
          if (ok : bool) then ret (inl (u32 (erased + EXT_FLASH_SECTOR_SIZE)))
          else ret (inr false)
        else ret (inr true)) 0
  end.

Definition ExternalFlashStorage_ErasePartition (p : ExternalFlashPartition_t) : M HW bool :=
  match ExternalFlashStorage_GetPartition p with
  | None => ret false
  | Some info =>
      if negb (ExtFlash_IsSectorAligned (info_address info))
         || (Z.land (info_size info) (EXT_FLASH_SECTOR_SIZE - 1) <>? 0)
      then ret false else
      loop (info_size info + 1) (fun offset =>
        if offset <? info_size info then
          ok <- SpiFlash_EraseSector (u32 (info_address info + offset)) ;;
          if (ok : bool) then ret (inl (u32 (offset + EXT_FLASH_SECTOR_SIZE)))
          else ret (inr false)
        else ret (inr true)) 0
  end.

Definition ExternalFlashStorage_IsErased (p : ExternalFlashPartition_t)
    (offset length : Z) : M HW bool :=
  match ResolveRange p offset length with
  | None => ret false
  | Some address => SpiFlash_IsErased address length
  end.

(** ** The table *)

(** Base and size of a partition, 0 and 0 for the sentinel. *)
Definition part_base (p : ExternalFlashPartition_t) : Z :=
  from_option info_address 0 (ExternalFlashStorage_GetPartition p).
Definition part_size (p : ExternalFlashPartition_t) : Z :=
  from_option info_size 0 (ExternalFlashStorage_GetPartition p).

Definition in_partition (p : ExternalFlashPartition_t) (a : Z) : Prop :=
  part_base p <= a < part_base p + part_size p.

(** Every partition is sector aligned and lies inside the 4 MiB window. *)
Lemma partition_bounds p :
  0 <= part_base p /\ 0 <= part_size p /\ part_base p + part_size p <= EXT_FLASH_SIZE /\
  part_base p mod EXT_FLASH_SECTOR_SIZE = 0 /\ part_size p mod EXT_FLASH_SECTOR_SIZE = 0.
Proof. destruct p; vm_compute; repeat split; congruence. Qed.

Lemma GetPartition_cases p :
  (p = EXTERNAL_FLASH_PARTITION_COUNT /\ ExternalFlashStorage_GetPartition p = None) \/
  ExternalFlashStorage_GetPartition p = Some (mkPartitionInfo (part_base p) (part_size p)).
Proof. by destruct p; [right..|left]. Qed.

Lemma ResolveRange_spec p offset n a :
  0 <= offset -> 0 <= n -> ResolveRange p offset n = Some a ->
  a = part_base p + offset /\ offset + n <= part_size p.
Proof.
  intros Ho Hn. unfold ResolveRange. destruct (partition_bounds p) as (? & ? & ? & _).
  destruct (GetPartition_cases p) as [[_ ->]| ->]; [done|]. cbn [info_size info_address].
  destruct (ExtFlash_IsRangeValid (part_size p) offset n) eqn:E; [|done].
  apply ExtFlash_IsRangeValid_spec in E; [|unfold is_u32; map_lia|done].
  intros [= <-]. split; [|lia]. apply u32_small. unfold is_u32. map_lia.
Qed.

(** ** The operations *)

Lemma triple_Storage_Read p offset n :
  0 <= offset -> 0 <= n ->
  triple nowhere nowhere (fun _ => True) (ExternalFlashStorage_Read p offset n)
    (fun r w => forall bs, r = Some bs ->
       offset + n <= part_size p /\ bs = nor_slice (w_hw w) (part_base p + offset) n).
Proof.
  intros Ho Hn. unfold ExternalFlashStorage_Read.
  destruct (ResolveRange p offset n) as [a|] eqn:E; [|by apply triple_ret].
  apply ResolveRange_spec in E as [-> Hr]; [|done..].
  destruct (partition_bounds p) as (? & _).
  eapply triple_post; [apply triple_SpiFlash_Read; lia|].
  intros r w Hb bs ->. by destruct (Hb bs eq_refl).
Qed.

Lemma triple_Storage_Write p offset data n :
  0 <= offset -> n = len data ->
  triple (fun b => part_base p + offset <= b < part_base p + offset + n /\ in_partition p b)
    nowhere (fun _ => True) (ExternalFlashStorage_Write p offset (Some data) n)
    (fun ok w => ok = true ->
       offset + n <= part_size p /\ nor_slice (w_hw w) (part_base p + offset) n = data).
Proof.
  intros Ho Hn. unfold ExternalFlashStorage_Write.
  destruct (ResolveRange p offset n) as [a|] eqn:E; [|by apply triple_ret].
  apply ResolveRange_spec in E as [-> Hr]; [|lia..].
  destruct (partition_bounds p) as (? & _).
  eapply triple_conseq; [apply triple_SpiFlash_Write; lia|..]; cbn.
  - unfold in_partition. intros b Hb. lia.
  - done.
  - done.
  - intros ok w Hok Ht. by destruct (Hok Ht).
Qed.

Lemma triple_Storage_Verify p offset data n :
  0 <= offset -> 0 <= n <= len data ->
  triple nowhere nowhere (fun _ => True) (ExternalFlashStorage_Verify p offset (Some data) n)
    (fun ok w => ok = true -> offset + n <= part_size p /\
       nor_slice (w_hw w) (part_base p + offset) n = take (Z.to_nat n) data).
Proof.
  intros Ho Hn. unfold ExternalFlashStorage_Verify.
  destruct (ResolveRange p offset n) as [a|] eqn:E; [|by apply triple_ret].
  apply ResolveRange_spec in E as [-> Hr]; [|lia..].
  destruct (partition_bounds p) as (? & _).
  eapply triple_post; [apply triple_SpiFlash_Verify; lia|].
  intros ok w Hok Ht. by destruct (Hok Ht).
Qed.

(** The shape of the two erase loops. *)
Lemma triple_erase_loop (N : Z -> Prop) base n :
  0 <= base -> 0 <= n -> n mod EXT_FLASH_SECTOR_SIZE = 0 -> base + n <= EXT_FLASH_SIZE ->
  (forall b, base <= b < base + n -> N b) ->
  triple N nowhere (fun _ => True)
    (loop (n + 1) (fun erased =>
        if erased <? n then
          ok <- SpiFlash_EraseSector (u32 (base + erased)) ;;
          if (ok : bool) then ret (inl (u32 (erased + EXT_FLASH_SECTOR_SIZE)))
          else ret (inr false)
        else ret (inr true)) 0) (fun (_ : bool) _ => True).
Proof.
  intros Hb Hn Ha Hr HN.
  apply (triple_pre _ _ (fun _ => 0 <= 0 <= n /\ 0 mod EXT_FLASH_SECTOR_SIZE = 0)); [|done].
  apply (triple_loop _ _ (fun e _ => 0 <= e <= n /\ e mod EXT_FLASH_SECTOR_SIZE = 0)
           (fun e => n - e)); [|lia].
  intros e _. apply (triple_pure _ _ _ (0 <= e <= n /\ e mod EXT_FLASH_SECTOR_SIZE = 0)); [done|].
  intros [He Hm]. apply triple_if; intros E; to_prop; [|by apply triple_ret].
  assert (e + EXT_FLASH_SECTOR_SIZE <= n) as He'.
  { pose proof (Z.div_mod e EXT_FLASH_SECTOR_SIZE ltac:(done)).
    pose proof (Z.div_mod n EXT_FLASH_SECTOR_SIZE ltac:(done)). map_lia. }
  rewrite !u32_small by (unfold is_u32; map_lia).
  triple_wide triple_SpiFlash_EraseSector; [lia|cbn; intros; apply HN; lia|done|done|].
  intros []; apply triple_ret; [|done]. intros w _. split; [split; [map_lia|]|map_lia].
  rewrite <- Z.add_mod_idemp_l, Hm by done. done.
Qed.

Lemma triple_Storage_EraseRange p offset n :
  0 <= offset -> 0 <= n ->
  triple (fun b => part_base p + offset <= b < part_base p + offset + n /\ in_partition p b)
    nowhere (fun _ => True) (ExternalFlashStorage_EraseRange p offset n) (fun _ _ => True).
Proof.
  intros Ho Hn. unfold ExternalFlashStorage_EraseRange.
  destruct (partition_bounds p) as (? & ? & ? & _).
  destruct (GetPartition_cases p) as [[_ ->]| ->]; [by apply triple_ret|].
  cbn [info_size info_address].
  apply triple_if; intros E; [by apply triple_ret|]. to_prop.
  rewrite sector_mask in *.
  match goal with H : ExtFlash_IsRangeValid _ _ _ = true |- _ =>
    apply ExtFlash_IsRangeValid_spec in H; [|unfold is_u32; map_lia|done] end.
  rewrite (u32_small (part_base p + offset)) by (unfold is_u32; map_lia).
  apply triple_if; intros _; [by apply triple_ret|].
  apply triple_erase_loop; try map_lia. unfold in_partition. lia.
Qed.

Lemma triple_Storage_ErasePartition p :
  triple (in_partition p) nowhere (fun _ => True) (ExternalFlashStorage_ErasePartition p)
    (fun _ _ => True).
Proof.
  unfold ExternalFlashStorage_ErasePartition.
  destruct (partition_bounds p) as (? & ? & ? & ? & ?).
  destruct (GetPartition_cases p) as [[_ ->]| ->]; [by apply triple_ret|].
  cbn [info_size info_address]. apply triple_if; intros E; [by apply triple_ret|].
  by apply triple_erase_loop.
Qed.

End storage.
