(* ===== verification/AbStorage.v ===== *)
(** * AbStorage: records in the two W25Q metadata sectors

    node-stm32f103/common/storage/update_handoff_storage.c and
    download_checkpoint_storage.c are the same program for two record types:
    handoff and download checkpoint live at different offsets of the same two
    sectors, so committing one erases a sector that may hold the other, which
    is read first and written back last.  The section below is that program,
    over any two record types; the two storage files are its instances.  The
    theorems give the atomicity of a commit: the sector of the current record
    is not touched, and success means the new record is the current one. *)

From S2P Require Import Prelude Bytes MemoryMap Crc32 AbRecord Device Logic SpiFlash.
From S2P Require Import ExternalFlashStorage.

(** [UpdateHandoffStorageStatus_t] and [DownloadCheckpointStorageStatus_t]. *)
Inductive AbStorageStatus :=
  | STORAGE_OK
  | STORAGE_NOT_FOUND
  | STORAGE_INVALID_ARGUMENT
  | STORAGE_READ_FAILED
  | STORAGE_ERASE_FAILED
  | STORAGE_WRITE_FAILED
  | STORAGE_VERIFY_FAILED.

#[export] Instance AbStorageStatus_eq : EqDecision AbStorageStatus.
Proof. solve_decision. Defined.

Definition PartitionForSlot (slot : AbSlot) : ExternalFlashPartition_t :=
  if bool_decide (slot = SLOT_B) then EXTERNAL_FLASH_PARTITION_METADATA_B
  else EXTERNAL_FLASH_PARTITION_METADATA_A.

Section ab_storage.
Context {HW : Hw} {R Q : Type} {HR : Record32 R} {HA : AbRecord R} {HQ : Record32 Q}.
(** Where the two record types live in a sector. *)
Context (own_offset other_offset : Z).
Implicit Types w : World HW.

Definition ReadRecord {T} {HT : Record32 T} (p : ExternalFlashPartition_t) (offset : Z)
    : M HW (option T) :=
  bytes <- ExternalFlashStorage_Read p offset (rec_size (R := T)) ;;
  ret (rec_decode <$> bytes).

Definition ReadSlot (slot : AbSlot) : M HW (option R) :=
  ReadRecord (PartitionForSlot slot) own_offset.

(** The status with the record and slot written to the out-parameters. *)
Definition AbStorage_Load : M HW (AbStorageStatus * option R * AbSlot) :=
  a <- ReadSlot SLOT_A ;;
  match a with
  | None => ret (STORAGE_READ_FAILED, None, SLOT_NONE)
  | Some a =>
      b <- ReadSlot SLOT_B ;;
      match b with
      | None => ret (STORAGE_READ_FAILED, None, SLOT_NONE)
      | Some b =>
          let newest := rec_select_newest a b in
          if bool_decide (newest = SLOT_NONE)
          then ret (STORAGE_NOT_FOUND, None, newest)
          else ret (STORAGE_OK, Some (if bool_decide (newest = SLOT_A) then a else b), newest)
      end
  end.

(** From the erase on: the preserved record is [None] when the target sector
    held no valid one. *)
Definition AbStorage_Rewrite (target : AbSlot) (candidate : R) (preserved : option Q)
    : M HW (AbStorageStatus * option R * AbSlot) :=
  let partition := PartitionForSlot target in
  let crc_offset := rec_size (R := R) - 4 in
  let fail status := ret (status, None, SLOT_NONE) in
  erased <- ExternalFlashStorage_ErasePartition partition ;;
  if negb erased then fail STORAGE_ERASE_FAILED else
  written <- andM
    (ExternalFlashStorage_Write partition own_offset
       (Some (slice 0 crc_offset (rec_encode candidate))) crc_offset)
    (ExternalFlashStorage_Write partition (own_offset + crc_offset)
       (Some (slice crc_offset 4 (rec_encode candidate))) 4) ;;
  if negb written then fail STORAGE_WRITE_FAILED else
  rewritten <- match preserved with
    | Some q => ExternalFlashStorage_Write partition other_offset
                  (Some (rec_encode q)) (rec_size (R := Q))
    | None => ret true
    end ;;
  if negb rewritten then fail STORAGE_WRITE_FAILED else
  verify <- ReadRecord partition own_offset ;;
  match verify with
  | None => fail STORAGE_VERIFY_FAILED
  | Some verify =>
      if negb (rec_validb verify) || negb (RecordsEqual candidate verify)
      then fail STORAGE_VERIFY_FAILED
      else ret (STORAGE_OK, Some verify, target)
  end.

Definition AbStorage_Commit (requested : option R) : M HW (AbStorageStatus * option R * AbSlot) :=
  let fail status := ret (status, None, SLOT_NONE) in
  match requested with
  | None => fail STORAGE_INVALID_ARGUMENT
  | Some requested =>
      a <- ReadSlot SLOT_A ;;
      match a with
      | None => fail STORAGE_READ_FAILED
      | Some a =>
          b <- ReadSlot SLOT_B ;;
          match b with
          | None => fail STORAGE_READ_FAILED
          | Some b =>
              let current := rec_select_newest a b in
              let target := rec_select_write_slot a b in
              let current_generation :=
                match current with
                | SLOT_A => rec_generation a
                | SLOT_B => rec_generation b
                | SLOT_NONE => 0
                end in
              let candidate := rec_candidate (rec_next_generation current_generation) requested in
              if negb (rec_validb candidate) then fail STORAGE_INVALID_ARGUMENT else
              other <- ReadRecord (PartitionForSlot target) other_offset ;;
              let preserved :=
                match other with
                | Some q => if rec_validb q then Some q else None
                | None => None
                end in
              AbStorage_Rewrite target candidate preserved
          end
      end
  end.

(** ** The records in the chip *)

Definition record_at {T} {HT : Record32 T} (h : hw) (slot : AbSlot) (offset : Z) : T :=
  rec_decode (nor_slice h (part_base (PartitionForSlot slot) + offset) (rec_size (R := T))).

(** The record the chip stands for. *)
Definition stored_current (h : hw) : option R :=
  ab_current (record_at h SLOT_A own_offset) (record_at h SLOT_B own_offset).

Definition sector (slot : AbSlot) : Z -> Prop := in_partition (PartitionForSlot slot).

(** The layout facts the two instances discharge by computation. *)
Context (Hown : 0 <= own_offset) (Hother : 0 <= other_offset)
        (Hwords : (1 <= rec_words (R := R))%nat)
        (Hfit : own_offset + rec_size (R := R) <= EXT_FLASH_SECTOR_SIZE).

Lemma size_pos : 4 <= rec_size (R := R).
Proof using All. unfold rec_size. lia. Qed.

Lemma size_nonneg {T} {HT : Record32 T} : 0 <= rec_size (R := T).
Proof. unfold rec_size. lia. Qed.

Lemma sectors_disjoint a : sector SLOT_A a -> sector SLOT_B a -> False.
Proof.
  change (0 <= a < 0 + 4096 -> 4096 <= a < 4096 + 4096 -> False). lia.
Qed.

Lemma record_at_wf {T} {HT : Record32 T} h slot offset : rec_wf (record_at (T := T) h slot offset).
Proof.
  apply rec_decode_wf; [auto with ota|]. apply nor_slice_length, size_nonneg.
Qed.

Lemma record_at_frame {T} {HT : Record32 T} (N F : Z -> Prop) h h' slot offset :
  0 <= offset -> offset + rec_size (R := T) <= EXT_FLASH_SECTOR_SIZE ->
  (forall a, sector slot a -> ~ N a) -> frame N F h h' ->
  record_at (T := T) h' slot offset = record_at h slot offset.
Proof.
  intros Ho Hf HN Hfr. unfold record_at. f_equal. eapply nor_slice_frame; [exact Hfr|].
  intros i Hi. apply HN. unfold sector, in_partition.
  assert (part_size (PartitionForSlot slot) = EXT_FLASH_SECTOR_SIZE) as ->
    by (destruct slot; reflexivity). lia.
Qed.

Lemma triple_ReadRecord {T} {HT : Record32 T} slot offset :
  0 <= offset ->
  triple nowhere nowhere (fun _ => True) (ReadRecord (T := T) (PartitionForSlot slot) offset)
    (fun r w => forall t, r = Some t -> t = record_at (w_hw w) slot offset).
Proof.
  intros Ho. triple_step triple_Storage_Read; [done|apply size_nonneg|done|].
  intros bytes. apply triple_ret. intros w Hb t Ht.
  destruct bytes as [bs|]; [|done]. injection Ht as <-. by destruct (Hb bs eq_refl) as [_ ->].
Qed.

(** [Load] reports what the chip stands for. *)
Lemma triple_Load :
  triple nowhere nowhere (fun _ => True) AbStorage_Load
    (fun '(status, r, _) w =>
       (status = STORAGE_OK /\ r = stored_current (w_hw w) /\ is_Some r) \/
       (status = STORAGE_NOT_FOUND /\ r = None /\ stored_current (w_hw w) = None) \/
       (status = STORAGE_READ_FAILED /\ r = None)).
Proof using All.
  unfold AbStorage_Load. triple_step triple_ReadRecord; [done|done|].
  intros [a|]; [|apply triple_ret; auto].
  eapply triple_bind.
  { eapply triple_pre.
    - eapply (triple_stable _ _ (fun h => a = record_at h SLOT_A own_offset)).
      + intros h h' Hf ->. symmetry. eapply record_at_frame; [done|done| |exact Hf]. by intros ? _ [].
      + by apply (triple_ReadRecord SLOT_B own_offset).
    - intros w Hw. split; [done|by apply Hw]. }
  cbv beta. intros [b|]; [|apply triple_ret; auto].
  cbv zeta. apply triple_if; intros E; apply bool_decide_eq_true in E || apply bool_decide_eq_false in E;
    apply triple_ret; intros w [Hb ->]; specialize (Hb b eq_refl); subst b;
    unfold stored_current, ab_current.
  - right; left. by rewrite E.
  - left. by destruct (rec_select_newest _ _).
Qed.

(** ** A commit *)

(** The rewrite only reaches the target sector; on success the sector holds
    exactly the candidate. *)
Lemma triple_Rewrite target candidate preserved :
  rec_wf candidate ->
  triple (sector target) nowhere (fun _ => True)
    (AbStorage_Rewrite target candidate preserved)
    (fun '(status, r, slot) w => status = STORAGE_OK ->
       r = Some candidate /\ slot = target /\ rec_validb candidate = true /\
       record_at (w_hw w) target own_offset = candidate).
Proof using All.
  intros Hwf. pose proof size_pos. unfold AbStorage_Rewrite.
  triple_wide triple_Storage_ErasePartition; [done..|].
  intros []; cbn [negb]; [|by apply triple_ret].
  assert (Hw1 : forall (off : Z) bs n, 0 <= off -> n = len bs ->
    triple (sector target) nowhere (fun _ => True)
      (ExternalFlashStorage_Write (PartitionForSlot target) off (Some bs) n) (fun _ _ => True)).
  { intros. eapply triple_conseq; [by apply triple_Storage_Write|..]; cbn; [|done..].
    by intros ? []. }
  assert (Hlen : forall off m, 0 <= off -> 0 <= m -> off + m <= rec_size (R := R) ->
    m = len (slice off m (rec_encode candidate))).
  { intros. rewrite slice_length; rewrite ?rec_encode_length; done. }
  eapply (triple_bind _ _ _ _ (fun _ _ => True)).
  { triple_step Hw1; [done|apply Hlen; lia|done|]. intros []; [|by apply triple_ret].
    apply Hw1; [lia|apply Hlen; lia]. }
  intros []; cbn [negb]; [|by apply triple_ret].
  eapply (triple_bind _ _ _ _ (fun _ _ => True)).
  { destruct preserved; [|by apply triple_ret]. apply Hw1; [done|].
    symmetry. apply rec_encode_length. }
  intros []; cbn [negb]; [|by apply triple_ret].
  triple_wide triple_ReadRecord; [done..|].
  intros [v|]; [|by apply triple_ret].
  apply triple_if; intros E; apply triple_ret; [done|]. intros w Hv _. to_prop.
  specialize (Hv v eq_refl).
  assert (candidate = v) as ->.
  { apply RecordsEqual_spec; [done|rewrite Hv; apply record_at_wf|done]. }
  done.
Qed.

(** What a commit promises, from any state: power loss or failure leaves the
    sector of the current record alone, and success makes the prepared record
    current. *)
Lemma wp_Commit requested w :
  rec_wf requested ->
  let a := record_at (w_hw w) SLOT_A own_offset in
  let b := record_at (w_hw w) SLOT_B own_offset in
  let target := rec_select_write_slot a b in
  wp (AbStorage_Commit (Some requested))
    (fun '(status, r, slot) w' =>
       frame (sector target) nowhere (w_hw w) (w_hw w') /\
       (status = STORAGE_OK ->
          let candidate := rec_candidate (rec_next_generation (ab_generation a b)) requested in
          r = Some candidate /\ slot = target /\
          stored_current (w_hw w') = Some candidate))
    (fun h => frame (sector target) nowhere (w_hw w) h) w.
Proof using All.
  intros Hreq a b target.
  set (candidate := rec_candidate (rec_next_generation (ab_generation a b)) requested).
  assert (Hcwf : rec_wf candidate).
  { apply rec_candidate_wf; [|done]. apply rec_next_range, ab_generation_range; apply record_at_wf. }
  set (same := fun w' : World HW => record_at (w_hw w') SLOT_A own_offset = a /\
                                    record_at (w_hw w') SLOT_B own_offset = b).
  assert (Hread : forall slot, triple nowhere nowhere same (ReadSlot slot)
    (fun r w' => same w' /\ forall t, r = Some t -> t = record_at (w_hw w') slot own_offset)).
  { intros slot. eapply triple_conseq;
      [eapply (triple_stable _ _ (fun h => record_at h SLOT_A own_offset = a /\
                                           record_at h SLOT_B own_offset = b));
       [|by apply triple_ReadRecord]|done|done| |].
    - intros h h' Hf [<- <-].
      split; (eapply record_at_frame; [done|done| |exact Hf]); intros ? _ [].
    - intros w' Hs. by split.
    - cbn. intros r w' [? ?]. by split. }
  assert (Htr : triple (sector target) nowhere same (AbStorage_Commit (Some requested))
    (fun '(status, r, slot) w' => status = STORAGE_OK ->
        r = Some candidate /\ slot = target /\ rec_validb candidate = true /\
        record_at (w_hw w') target own_offset = candidate)).
  { unfold AbStorage_Commit.
    triple_wide (Hread SLOT_A); [done..|]. intros [a'|]; [|by apply triple_ret].
    apply (triple_pure _ _ _ (a' = a)); [intros w' [[<- _] Ha]; by apply Ha|]. intros ->.
    triple_wide (Hread SLOT_B); [done|done|by intros w' []|].
    intros [b'|]; [|by apply triple_ret].
    apply (triple_pure _ _ _ (b' = b)); [intros w' [[_ <-] Hb]; by apply Hb|]. intros ->.
    cbv zeta. fold target.
    change (match rec_select_newest a b with SLOT_A => rec_generation a
            | SLOT_B => rec_generation b | SLOT_NONE => 0 end) with (ab_generation a b).
    fold candidate. apply triple_if; intros E; [by apply triple_ret|].
    triple_wide triple_ReadRecord; [done..|]. intros other.
    eapply triple_pre; [by apply triple_Rewrite|done]. }
  eapply wp_mono; [by apply Htr|..].
  - intros [[status r] slot] w' [Hf Hok]. split; [done|]. intros ->.
    destruct (Hok eq_refl) as (-> & -> & Hv & Hat). split_and!; [done..|].
    unfold stored_current.
    assert (Hab : (record_at (w_hw w') SLOT_A own_offset, record_at (w_hw w') SLOT_B own_offset)
                  = ab_write a b candidate).
    { unfold ab_write. fold target. subst a b.
      assert (target = SLOT_A \/ target = SLOT_B) as Ht.
      { unfold target. rewrite rec_write_slot_spec. case_match; auto. }
      destruct Ht as [Ht|Ht]; rewrite Ht in *; rewrite Hat; f_equal;
        (eapply record_at_frame; [done|done| |exact Hf]).
      - intros x Hx Hy. by eapply sectors_disjoint.
      - intros x Hx Hy. by eapply sectors_disjoint. }
    pose proof (f_equal fst Hab) as Ha1. pose proof (f_equal snd Hab) as Hb1.
    cbn [fst snd] in Ha1, Hb1. rewrite Ha1, Hb1.
    apply ab_write_current; [apply rec_generation_wf, record_at_wf..|done|].
    apply rec_candidate_generation.
  - done.
Qed.

End ab_storage.
