(* ===== verification/SectorRecords.v ===== *)
(** * SectorRecords: the handoff and the download checkpoint in the W25Q

    The two instances of [AbStorage]: node-stm32f103/common/storage/
    update_handoff_storage.c (handoff at offset 0 of a metadata sector) and
    download_checkpoint_storage.c (checkpoint at offset 0x100). *)

From S2P Require Import Prelude Bytes MemoryMap Crc32 AbRecord UpdateHandoff.
From S2P Require Import DownloadCheckpoint Device Logic SpiFlash ExternalFlashStorage.
From S2P Require Import AbStorage.

Section records.
Context {HW : Hw}.
Implicit Types w : World HW.

(** [UpdateHandoffStorage_Load] *)
Definition UpdateHandoffStorage_Load
    : M HW (AbStorageStatus * option UpdateHandoffRecord_t * AbSlot) :=
  AbStorage_Load EXT_METADATA_HANDOFF_OFFSET.

(** [UpdateHandoffStorage_Commit]: a valid checkpoint of the target sector is
    carried over. *)
Definition UpdateHandoffStorage_Commit (requested : option UpdateHandoffRecord_t)
    : M HW (AbStorageStatus * option UpdateHandoffRecord_t * AbSlot) :=
  AbStorage_Commit (Q := DownloadCheckpointRecord_t)
    EXT_METADATA_HANDOFF_OFFSET EXT_METADATA_DOWNLOAD_OFFSET requested.

Definition CHECKPOINT_RECORD_OFFSET : Z := EXT_METADATA_DOWNLOAD_OFFSET.

(** [DownloadCheckpointStorage_Load] *)
Definition DownloadCheckpointStorage_Load
    : M HW (AbStorageStatus * option DownloadCheckpointRecord_t * AbSlot) :=
  AbStorage_Load CHECKPOINT_RECORD_OFFSET.

(** [DownloadCheckpointStorage_Commit]: a valid handoff of the target sector is
    carried over. *)
Definition DownloadCheckpointStorage_Commit (requested : option DownloadCheckpointRecord_t)
    : M HW (AbStorageStatus * option DownloadCheckpointRecord_t * AbSlot) :=
  AbStorage_Commit (Q := UpdateHandoffRecord_t)
    CHECKPOINT_RECORD_OFFSET EXT_METADATA_HANDOFF_OFFSET requested.

Definition DownloadCheckpointStorage_Clear : M HW AbStorageStatus :=
  r <- DownloadCheckpointStorage_Commit (Some DownloadCheckpoint_InitIdle) ;;
  ret (fst (fst r)).

(** The current handoff and the current checkpoint of the chip. *)
Definition current_handoff (h : hw) : option UpdateHandoffRecord_t :=
  stored_current EXT_METADATA_HANDOFF_OFFSET h.
Definition current_checkpoint (h : hw) : option DownloadCheckpointRecord_t :=
  stored_current CHECKPOINT_RECORD_OFFSET h.

(** The metadata sectors hold no application, image or backup byte. *)
Definition in_ext_metadata (a : Z) : Prop :=
  EXT_METADATA_A_ADDRESS <= a < EXT_METADATA_B_ADDRESS + EXT_FLASH_SECTOR_SIZE.

Lemma sector_in_metadata slot a : sector slot a -> in_ext_metadata a.
Proof.
  assert (sector slot a -> 0 <= a < 0 + 4096 \/ 4096 <= a < 4096 + 4096) as H
    by (destruct slot; [left|left|right]; assumption).
  intros Hs. apply H in Hs. unfold in_ext_metadata. map_lia.
Qed.

(** Clearing the checkpoint writes the metadata sectors only. *)
Lemma triple_Clear :
  triple in_ext_metadata nowhere (fun _ => True) DownloadCheckpointStorage_Clear
    (fun _ _ => True).
Proof.
  unfold DownloadCheckpointStorage_Clear. eapply (triple_bind _ _ _ _ (fun _ _ => True));
    [|intros r; by apply triple_ret].
  intros w _.
  eapply wp_mono; [apply (wp_Commit (R := DownloadCheckpointRecord_t) (Q := UpdateHandoffRecord_t)
    CHECKPOINT_RECORD_OFFSET EXT_METADATA_HANDOFF_OFFSET); [done|done|cbn; lia|done|]| |].
  - repeat constructor; vm_compute; congruence.
  - intros [[status r] slot] w' [Hf _]. split; [|done].
    eapply frame_mono; [|done|exact Hf]. apply sector_in_metadata.
  - intros h Hf. eapply frame_mono; [|done|exact Hf]. apply sector_in_metadata.
Qed.

Lemma ext_metadata_off_backup a :
  in_ext_metadata a -> ~ (EXT_BACKUP_ADDRESS <= a < EXT_BACKUP_ADDRESS + EXT_BACKUP_SIZE).
Proof. unfold in_ext_metadata. map_lia. Qed.

(** C36: A handoff commit touches only the metadata sector that does not hold
    the current handoff, wherever power fails; OK means that the current handoff
    is the request with the next generation and CRC, and that it is the returned
    one. *)
Theorem UpdateHandoffStorage_Commit_atomic (requested : UpdateHandoffRecord_t) w :
  rec_wf requested ->
  let a : UpdateHandoffRecord_t := record_at (w_hw w) SLOT_A EXT_METADATA_HANDOFF_OFFSET in
  let b : UpdateHandoffRecord_t := record_at (w_hw w) SLOT_B EXT_METADATA_HANDOFF_OFFSET in
  let written := sector (UpdateHandoff_SelectWriteSlot a b) in
  let candidate := UpdateHandoff_Finalize (ho_set_generation
    (UpdateHandoff_NextGeneration (ab_generation a b)) requested) in
  wp (UpdateHandoffStorage_Commit (Some requested))
    (fun '(status, committed, _) w' =>
       frame written nowhere (w_hw w) (w_hw w') /\
       (status = STORAGE_OK ->
          committed = Some candidate /\ current_handoff (w_hw w') = Some candidate))
    (fun h => frame written nowhere (w_hw w) h) w.
Proof.
  intros Hwf a b written candidate.
  eapply wp_mono; [apply (wp_Commit (R := UpdateHandoffRecord_t) (Q := DownloadCheckpointRecord_t)
    EXT_METADATA_HANDOFF_OFFSET EXT_METADATA_DOWNLOAD_OFFSET); [done|done|cbn; lia|done|exact Hwf]| |].
  - intros [[status r] slot] w' [Hf Hok]. split; [exact Hf|].
    intros ->. by destruct (Hok eq_refl) as (-> & _ & ?).
  - intros h Hh. exact Hh.
Qed.

(** A checkpoint commit touches only the metadata sector that does not hold
    the current checkpoint, wherever power fails; OK means that the current
    checkpoint is the request with the next generation and CRC, and that it is
    the returned one. *)
Theorem DownloadCheckpointStorage_Commit_atomic (requested : DownloadCheckpointRecord_t) w :
  rec_wf requested ->
  let a : DownloadCheckpointRecord_t := record_at (w_hw w) SLOT_A CHECKPOINT_RECORD_OFFSET in
  let b : DownloadCheckpointRecord_t := record_at (w_hw w) SLOT_B CHECKPOINT_RECORD_OFFSET in
  let written := sector (DownloadCheckpoint_SelectWriteSlot a b) in
  let candidate := DownloadCheckpoint_Finalize (dc_set_generation
    (DownloadCheckpoint_NextGeneration (ab_generation a b)) requested) in
  wp (DownloadCheckpointStorage_Commit (Some requested))
    (fun '(status, committed, _) w' =>
       frame written nowhere (w_hw w) (w_hw w') /\
       (status = STORAGE_OK ->
          committed = Some candidate /\ current_checkpoint (w_hw w') = Some candidate))
    (fun h => frame written nowhere (w_hw w) h) w.
Proof.
  intros Hwf a b written candidate.
  eapply wp_mono; [apply (wp_Commit (R := DownloadCheckpointRecord_t) (Q := UpdateHandoffRecord_t)
    CHECKPOINT_RECORD_OFFSET EXT_METADATA_HANDOFF_OFFSET); [done|done|cbn; lia|done|exact Hwf]| |].
  - intros [[status r] slot] w' [Hf Hok]. split; [exact Hf|].
    intros ->. by destruct (Hok eq_refl) as (-> & _ & ?).
  - intros h Hh. exact Hh.
Qed.

End records.
