(* ===== verification/BackupImageStorage.v ===== *)
(** * BackupImageStorage: node-stm32f103/common/storage/backup_image_storage.c

    The backup partition: a header sector written last, and the image data one
    sector above it. *)

From S2P Require Import Prelude Bytes MemoryMap Crc32 AbRecord BackupImage Device Logic.
From S2P Require Import SpiFlash ExternalFlashStorage.

Inductive BackupImageStorageStatus_t :=
  | BACKUP_IMAGE_STORAGE_OK
  | BACKUP_IMAGE_STORAGE_INVALID_ARGUMENT
  | BACKUP_IMAGE_STORAGE_NOT_FOUND
  | BACKUP_IMAGE_STORAGE_READ_FAILED
  | BACKUP_IMAGE_STORAGE_ERASE_FAILED
  | BACKUP_IMAGE_STORAGE_WRITE_FAILED
  | BACKUP_IMAGE_STORAGE_VERIFY_FAILED.

#[export] Instance BackupImageStorageStatus_eq : EqDecision BackupImageStorageStatus_t.
Proof. solve_decision. Defined.

Section backup_storage.
Context {HW : Hw}.
Implicit Types w : World HW.

(** The status with the record written to the out-parameter. *)
Definition BackupImageStorage_LoadHeader
    : M HW (BackupImageStorageStatus_t * option BackupImageRecord_t) :=
  bytes <- ExternalFlashStorage_Read EXTERNAL_FLASH_PARTITION_BACKUP 0 BackupImage_SIZE ;;
  match bytes with
  | None => ret (BACKUP_IMAGE_STORAGE_READ_FAILED, None)
  | Some bytes =>
      let record := rec_decode bytes in
      if bool_decide (BackupImage_Validate (Some record) <> BACKUP_IMAGE_VALID)
      then ret (BACKUP_IMAGE_STORAGE_NOT_FOUND, Some record)
      else ret (BACKUP_IMAGE_STORAGE_OK, Some record)
  end.

Definition BackupImageStorage_InvalidateHeader : M HW BackupImageStorageStatus_t :=
  ok <- ExternalFlashStorage_EraseRange EXTERNAL_FLASH_PARTITION_BACKUP 0
          EXT_FLASH_SECTOR_SIZE ;;
  ret (if (ok : bool) then BACKUP_IMAGE_STORAGE_OK else BACKUP_IMAGE_STORAGE_ERASE_FAILED).

Definition BackupImageStorage_CommitHeader (requested : option BackupImageRecord_t)
    : M HW (BackupImageStorageStatus_t * option BackupImageRecord_t) :=
  let fail status := ret (status, None) in
  let crc_offset := BackupImage_CRC_OFFSET in
  match requested with
  | None => fail BACKUP_IMAGE_STORAGE_INVALID_ARGUMENT
  | Some requested =>
      let candidate := BackupImage_Finalize requested in
      if bool_decide (BackupImage_Validate (Some candidate) <> BACKUP_IMAGE_VALID)
      then fail BACKUP_IMAGE_STORAGE_INVALID_ARGUMENT else
      invalidated <- BackupImageStorage_InvalidateHeader ;;
      if bool_decide (invalidated <> BACKUP_IMAGE_STORAGE_OK)
      then fail BACKUP_IMAGE_STORAGE_ERASE_FAILED else
      written <- andM
        (ExternalFlashStorage_Write EXTERNAL_FLASH_PARTITION_BACKUP 0
           (Some (slice 0 crc_offset (rec_encode candidate))) crc_offset)
        (ExternalFlashStorage_Write EXTERNAL_FLASH_PARTITION_BACKUP crc_offset
           (Some (slice crc_offset 4 (rec_encode candidate))) 4) ;;
      if negb written then fail BACKUP_IMAGE_STORAGE_WRITE_FAILED else
      bytes <- ExternalFlashStorage_Read EXTERNAL_FLASH_PARTITION_BACKUP 0 BackupImage_SIZE ;;
      match bytes with
      | None => fail BACKUP_IMAGE_STORAGE_VERIFY_FAILED
      | Some bytes =>
          let verify := rec_decode bytes in
          if bool_decide (BackupImage_Validate (Some verify) <> BACKUP_IMAGE_VALID)
             || negb (RecordsEqual candidate verify)
          then fail BACKUP_IMAGE_STORAGE_VERIFY_FAILED
          else ret (BACKUP_IMAGE_STORAGE_OK, Some verify)
      end
  end.

Definition ImageRangeValid (offset length : Z) : bool :=
  if APPLICATION_MAX_SIZE <? offset then false
  else length <=? u32 (APPLICATION_MAX_SIZE - offset).

Definition BackupImageStorage_Read (offset length : Z) : M HW (option (list Z)) :=
  if negb (ImageRangeValid offset length) then ret None
  else ExternalFlashStorage_Read EXTERNAL_FLASH_PARTITION_BACKUP
         (u32 (BACKUP_IMAGE_DATA_OFFSET + offset)) length.

Definition BackupImageStorage_Write (offset : Z) (data : option (list Z)) (length : Z)
    : M HW bool :=
  if negb (ImageRangeValid offset length) then ret false
  else ExternalFlashStorage_Write EXTERNAL_FLASH_PARTITION_BACKUP
         (u32 (BACKUP_IMAGE_DATA_OFFSET + offset)) data length.

Definition BackupImageStorage_Verify (offset : Z) (data : option (list Z)) (length : Z)
    : M HW bool :=
  if negb (ImageRangeValid offset length) then ret false
  else ExternalFlashStorage_Verify EXTERNAL_FLASH_PARTITION_BACKUP
         (u32 (BACKUP_IMAGE_DATA_OFFSET + offset)) data length.

Definition BackupImageStorage_EraseSector (image_offset : Z) : M HW bool :=
  let partition_offset := u32 (BACKUP_IMAGE_DATA_OFFSET + image_offset) in
  if (APPLICATION_MAX_SIZE <=? image_offset)
     || (Z.land image_offset (EXT_FLASH_SECTOR_SIZE - 1) <>? 0)
  then ret false
  else ExternalFlashStorage_EraseRange EXTERNAL_FLASH_PARTITION_BACKUP partition_offset
         EXT_FLASH_SECTOR_SIZE.

(** ** The backup in the chip *)

Definition backup_header_at (h : hw) : BackupImageRecord_t :=
  rec_decode (nor_slice h EXT_BACKUP_ADDRESS BackupImage_SIZE).

Definition BACKUP_DATA_ADDRESS : Z := EXT_BACKUP_ADDRESS + BACKUP_IMAGE_DATA_OFFSET.

(** The [n] backup image bytes from [off] on. *)
Definition backup_slice (h : hw) (off n : Z) : list Z :=
  nor_slice h (BACKUP_DATA_ADDRESS + off) n.

Definition in_backup_header (a : Z) : Prop :=
  EXT_BACKUP_ADDRESS <= a < EXT_BACKUP_ADDRESS + EXT_FLASH_SECTOR_SIZE.

Definition in_backup_data (a : Z) : Prop :=
  BACKUP_DATA_ADDRESS <= a < EXT_BACKUP_ADDRESS + EXT_BACKUP_SIZE.

Lemma backup_base : part_base EXTERNAL_FLASH_PARTITION_BACKUP = EXT_BACKUP_ADDRESS.
Proof. done. Qed.
Lemma backup_size : part_size EXTERNAL_FLASH_PARTITION_BACKUP = EXT_BACKUP_SIZE.
Proof. done. Qed.

Lemma ImageRangeValid_spec offset n :
  0 <= offset -> ImageRangeValid offset n = true <->
  offset <= APPLICATION_MAX_SIZE /\ offset + n <= APPLICATION_MAX_SIZE.
Proof.
  intros Ho. unfold ImageRangeValid.
  destruct (Z.ltb_spec APPLICATION_MAX_SIZE offset); [split; [done|lia]|].
  rewrite u32_small by (unfold is_u32; map_lia). rewrite Z.leb_le. lia.
Qed.

Lemma triple_Backup_LoadHeader :
  triple nowhere nowhere (fun _ => True) BackupImageStorage_LoadHeader
    (fun '(status, r) w => status = BACKUP_IMAGE_STORAGE_OK ->
       r = Some (backup_header_at (w_hw w)) /\
       BackupImage_validb (backup_header_at (w_hw w)) = true).
Proof.
  unfold BackupImageStorage_LoadHeader.
  triple_step triple_Storage_Read; [done..|]. intros [bs|]; [|by apply triple_ret].
  cbv zeta. apply triple_if; intros E; apply triple_ret; intros w Hb; [done|intros _].
  destruct (Hb bs eq_refl) as [_ ->]. split; [done|].
  apply bool_decide_eq_false in E. apply BackupImage_validb_spec. by apply dec_stable in E.
Qed.

Lemma triple_Backup_InvalidateHeader :
  triple in_backup_header nowhere (fun _ => True) BackupImageStorage_InvalidateHeader
    (fun _ _ => True).
Proof.
  unfold BackupImageStorage_InvalidateHeader.
  triple_wide triple_Storage_EraseRange; [done|done| |done|done|].
  - rewrite backup_base. intros a [Ha _]. unfold in_backup_header. lia.
  - intros ok. by apply triple_ret.
Qed.

Lemma triple_Backup_CommitHeader requested :
  rec_wf (BackupImage_Finalize requested) ->
  triple in_backup_header nowhere (fun _ => True)
    (BackupImageStorage_CommitHeader (Some requested))
    (fun '(status, r) w => status = BACKUP_IMAGE_STORAGE_OK ->
       r = Some (BackupImage_Finalize requested) /\
       backup_header_at (w_hw w) = BackupImage_Finalize requested /\
       BackupImage_validb (backup_header_at (w_hw w)) = true).
Proof.
  intros Hwf. unfold BackupImageStorage_CommitHeader. cbv zeta.
  set (c := BackupImage_Finalize requested) in *.
  apply triple_if; intros _; [by apply triple_ret|].
  triple_step triple_Backup_InvalidateHeader; [done|]. intros inv.
  apply triple_if; intros _; [by apply triple_ret|].
  assert (Hw1 : forall off n, 0 <= off -> 0 <= n -> off + n <= BackupImage_SIZE ->
    triple in_backup_header nowhere (fun _ => True)
      (ExternalFlashStorage_Write EXTERNAL_FLASH_PARTITION_BACKUP off
         (Some (slice off n (rec_encode c))) n) (fun _ _ => True)).
  { intros off n Ho Hn Hr.
    assert (n = len (slice off n (rec_encode c))) as Hl.
    { rewrite slice_length; [done..|]. rewrite rec_encode_length. exact Hr. }
    eapply triple_conseq; [apply triple_Storage_Write; [done|exact Hl]| |done..].
    rewrite backup_base. unfold in_backup_header, BackupImage_SIZE in *.
    intros a [Ha _]. map_lia. }
  eapply (triple_bind _ _ _ _ (fun _ _ => True)).
  { unfold andM. triple_step Hw1; [done..|]. intros []; [|by apply triple_ret]. by apply Hw1. }
  intros []; cbn [negb]; [|by apply triple_ret].
  triple_wide triple_Storage_Read; [done..|]. intros [bs|]; [|by apply triple_ret].
  apply triple_if; intros E; apply triple_ret; intros w Hb; [done|intros _]. to_prop.
  destruct (Hb bs eq_refl) as [_ ->].
  change (rec_decode (nor_slice (w_hw w) (part_base EXTERNAL_FLASH_PARTITION_BACKUP + 0)
    BackupImage_SIZE)) with (backup_header_at (w_hw w)) in *.
  assert (c = backup_header_at (w_hw w)) as Heq.
  { apply RecordsEqual_spec; [done| |done].
    apply rec_decode_wf; [auto with ota|]. by apply nor_slice_length. }
  rewrite <- Heq in *. split_and!; [done..|]. apply BackupImage_validb_spec.
  match goal with H : bool_decide _ = false |- _ => by apply bool_decide_eq_false, dec_stable in H end.
Qed.

Lemma triple_Backup_Read off n :
  0 <= off -> 0 <= n ->
  triple nowhere nowhere (fun _ => True) (BackupImageStorage_Read off n)
    (fun r w => forall bs, r = Some bs ->
       off + n <= APPLICATION_MAX_SIZE /\ bs = backup_slice (w_hw w) off n).
Proof.
  intros Ho Hn. unfold BackupImageStorage_Read.
  apply triple_if; intros E; [by apply triple_ret|].
  apply negb_false_iff, ImageRangeValid_spec in E; [|done].
  unfold BACKUP_IMAGE_DATA_OFFSET. rewrite u32_small by (unfold is_u32; map_lia).
  eapply triple_post; [apply triple_Storage_Read; lia|].
  intros r w Hb bs ->. destruct (Hb bs eq_refl) as [_ ->]. split; [lia|].
  rewrite backup_base. unfold backup_slice, BACKUP_DATA_ADDRESS, BACKUP_IMAGE_DATA_OFFSET.
  f_equal. lia.
Qed.

Lemma triple_Backup_Write off data n :
  0 <= off -> n = len data ->
  triple (fun a => BACKUP_DATA_ADDRESS + off <= a < BACKUP_DATA_ADDRESS + off + n /\
                   in_backup_data a) nowhere (fun _ => True)
    (BackupImageStorage_Write off (Some data) n)
    (fun ok w => ok = true ->
       off + n <= APPLICATION_MAX_SIZE /\ backup_slice (w_hw w) off n = data).
Proof.
  intros Ho Hn. unfold BackupImageStorage_Write.
  apply triple_if; intros E; [by apply triple_ret|].
  apply negb_false_iff, ImageRangeValid_spec in E; [|done].
  unfold BACKUP_IMAGE_DATA_OFFSET. rewrite u32_small by (unfold is_u32; map_lia).
  eapply triple_conseq; [apply triple_Storage_Write; lia| |done|done|]; rewrite backup_base.
  - unfold in_backup_data, BACKUP_DATA_ADDRESS, BACKUP_IMAGE_DATA_OFFSET.
    intros a [Ha _]. map_lia.
  - intros ok w Hok Ht. destruct (Hok Ht) as [_ <-]. split; [lia|].
    unfold backup_slice, BACKUP_DATA_ADDRESS, BACKUP_IMAGE_DATA_OFFSET. f_equal. lia.
Qed.

Lemma triple_Backup_Verify off data n :
  0 <= off -> n = len data ->
  triple nowhere nowhere (fun _ => True) (BackupImageStorage_Verify off (Some data) n)
    (fun ok w => ok = true ->
       off + n <= APPLICATION_MAX_SIZE /\ backup_slice (w_hw w) off n = data).
Proof.
  intros Ho Hn. unfold BackupImageStorage_Verify.
  apply triple_if; intros E; [by apply triple_ret|].
  apply negb_false_iff, ImageRangeValid_spec in E; [|done].
  unfold BACKUP_IMAGE_DATA_OFFSET. rewrite u32_small by (unfold is_u32; map_lia).
  eapply triple_post; [apply triple_Storage_Verify; lia|]. rewrite backup_base.
  intros ok w Hok Ht. destruct (Hok Ht) as [_ Hc]. rewrite take_ge in Hc by lia.
  split; [lia|]. rewrite <- Hc.
  unfold backup_slice, BACKUP_DATA_ADDRESS, BACKUP_IMAGE_DATA_OFFSET. f_equal. lia.
Qed.

Lemma triple_Backup_EraseSector off :
  0 <= off ->
  triple (fun a => BACKUP_DATA_ADDRESS + off <= a < BACKUP_DATA_ADDRESS + off + EXT_FLASH_SECTOR_SIZE
                   /\ in_backup_data a) nowhere (fun _ => True)
    (BackupImageStorage_EraseSector off) (fun _ _ => True).
Proof.
  intros Ho. unfold BackupImageStorage_EraseSector. cbv zeta.
  apply triple_if; intros E; [by apply triple_ret|]. to_prop.
  unfold BACKUP_IMAGE_DATA_OFFSET. rewrite u32_small by (unfold is_u32; map_lia).
  eapply triple_conseq; [apply triple_Storage_EraseRange; map_lia| |done..].
  unfold in_partition. rewrite backup_base, backup_size.
  unfold in_backup_data, BACKUP_DATA_ADDRESS, BACKUP_IMAGE_DATA_OFFSET.
  intros a [Ha Hb]. map_lia.
Qed.

End backup_storage.
