(* ===== verification/ChipIdle.v ===== *)
(** * ChipIdle: every driver and storage call leaves the W25Q deselected

    A call that returns has closed its transaction, so no command is pending
    when the next call selects the chip; in particular the deselection in
    [SpiFlash_Init] never commits one.  [keeps] is the judgement, [keeps_auto]
    its automation; the storage layers follow from the driver. *)

From S2P Require Import Prelude MemoryMap AbRecord BootMetadata UpdateHandoff.
From S2P Require Import DownloadCheckpoint.
From S2P Require Import BackupImage Device Logic MetadataStorage SpiFlash.
From S2P Require Import ExternalFlashStorage.
From S2P Require Import AbStorage SectorRecords BackupImageStorage.

Section idle.
Context {HW : Hw}.
Implicit Types w : World HW.

(** The chip has received nothing: it is not selected. *)
Definition idle (h : hw) : Prop := spi_session h = [].

(** If [m] returns from a state with [I], its result satisfies [Q]. *)
Definition ends {A} (I : hw -> Prop) (m : M HW A) (Q : A -> hw -> Prop) : Prop :=
  forall w, I (w_hw w) ->
    match m w with (w', Ret a) => Q a (w_hw w') | _ => True end.

Lemma ends_ret {A} (I : hw -> Prop) (a : A) Q : (forall h, I h -> Q a h) -> ends I (ret a) Q.
Proof. intros H w HI. cbn. auto. Qed.

Lemma ends_bind {A B} I R Q (m : M HW A) (k : A -> M HW B) :
  ends I m R -> (forall a, ends (R a) (k a) Q) -> ends I (bind m k) Q.
Proof.
  intros Hm Hk w HI. unfold bind. specialize (Hm w HI). destruct (m w) as [w1 [a| |]]; [|done..].
  by apply Hk.
Qed.

Lemma ends_mono {A} (I I' : hw -> Prop) (Q Q' : A -> hw -> Prop) m :
  ends I m Q -> (forall h, I' h -> I h) -> (forall a h, Q a h -> Q' a h) -> ends I' m Q'.
Proof.
  intros H HI HQ w Hw. specialize (H w (HI _ Hw)). destruct (m w) as [w1 [a| |]]; auto.
Qed.

Lemma ends_iterate {S R} (J : S -> hw -> Prop) (Q : R -> hw -> Prop) (body : S -> M HW (S + R)) p s :
  (forall s, ends (J s) (body s) (fun x h => match x with inl s' => J s' h | inr r => Q r h end)) ->
  ends (J s) (iterate p body s)
    (fun x h => match x with inl s' => J s' h | inr r => Q r h end).
Proof.
  intros Hb. revert s. induction p as [p IH|p IH|]; intros s; cbn [iterate]; [..|apply Hb].
  - eapply ends_bind; [apply Hb|]. intros [s1|r]; [|by apply ends_ret].
    eapply ends_bind; [apply IH|]. intros [s2|r]; [apply IH|by apply ends_ret].
  - eapply ends_bind; [apply IH|]. intros [s1|r]; [apply IH|by apply ends_ret].
Qed.

Lemma ends_loop {S R} (J : S -> hw -> Prop) (Q : R -> hw -> Prop) (body : S -> M HW (S + R)) n s :
  (forall s, ends (J s) (body s) (fun x h => match x with inl s' => J s' h | inr r => Q r h end)) ->
  ends (J s) (loop n body s) Q.
Proof.
  intros Hb. destruct n as [|p|p]; [done| |done]. cbn [loop].
  eapply ends_bind; [apply ends_iterate, Hb|]. intros [s1|r]; [done|by apply ends_ret].
Qed.

(** [closes m]: [m] returns with the chip idle; [keeps m]: it does so when it
    starts with the chip idle. *)
Definition closes {A} (m : M HW A) : Prop := ends (fun _ => True) m (fun _ => idle).
Definition keeps {A} (m : M HW A) : Prop := ends idle m (fun _ => idle).

Lemma keeps_ret {A} (a : A) : keeps (ret a).
Proof. by apply ends_ret. Qed.

Lemma keeps_bind {A B} (m : M HW A) (k : A -> M HW B) :
  keeps m -> (forall a, keeps (k a)) -> keeps (bind m k).
Proof. apply ends_bind. Qed.

Lemma keeps_loop {S R} n (body : S -> M HW (S + R)) s :
  (forall s, keeps (body s)) -> keeps (loop n body s).
Proof.
  intros H. apply (ends_loop (fun _ => idle)). intros s1. eapply ends_mono; [apply H|done|].
  by intros [].
Qed.

Lemma keeps_get_ram : keeps get_ram.
Proof. by intros w. Qed.
Lemma keeps_put_ram r : keeps (put_ram r).
Proof. by intros w. Qed.
Lemma keeps_flash_read a n : keeps (flash_read a n).
Proof. by intros w. Qed.

Lemma keeps_erase_page p : keeps (FLASH_ErasePage p).
Proof.
  intros w Hw. unfold FLASH_ErasePage, hw_op, idle in *. pose proof (erase_session p (w_hw w)) as H.
  destruct (flash_erase_page p (w_hw w)) as [h []]; [|done..]. cbn in *. congruence.
Qed.

Lemma keeps_program_half_word p v : keeps (FLASH_ProgramHalfWord p v).
Proof.
  intros w Hw. unfold FLASH_ProgramHalfWord, hw_op, idle in *.
  pose proof (program_session p v (w_hw w)) as H.
  destruct (flash_program_half_word p v (w_hw w)) as [h []]; [|done..]. cbn in *. congruence.
Qed.

Lemma closes_keeps {A} (m : M HW A) : closes m -> keeps m.
Proof. intros H. by eapply ends_mono. Qed.

Lemma closes_bind_l {A B} (m : M HW A) (k : A -> M HW B) :
  closes m -> (forall a, keeps (k a)) -> closes (bind m k).
Proof. apply ends_bind. Qed.

Lemma closes_bind_r {A B} (m : M HW A) (k : A -> M HW B) :
  (forall a, closes (k a)) -> closes (bind m k).
Proof. intros H. apply (ends_bind _ (fun _ _ => True)); [|exact H]. intros w _. by destruct (m w) as [w' []]. Qed.

Lemma closes_Deselect : closes Deselect.
Proof.
  intros w _. unfold Deselect, hw_op, idle. pose proof (deselect_session (w_hw w)) as H.
  destruct (spi_deselect (w_hw w)) as [h [[]| |]]; [|done..]. cbn in *. auto.
Qed.

Lemma keeps_Deselect : keeps Deselect.
Proof. apply closes_keeps, closes_Deselect. Qed.

End idle.

#[export] Hint Resolve keeps_ret keeps_get_ram keeps_put_ram keeps_flash_read keeps_erase_page
  keeps_program_half_word keeps_Deselect : ota.

(** Decompose a [keeps] or [closes] goal along the program. *)
Ltac keeps_step := first
  [ match goal with |- forall _, _ => intro end
  | solve [eauto 2 with ota nocore]
  | apply keeps_loop
  | apply keeps_bind
  | match goal with
    | |- keeps (if ?b then _ else _) => destruct b
    | |- keeps (match ?x with _ => _ end) => destruct x
    end ].
Ltac keeps_auto := repeat keeps_step.

Ltac closes_step := first
  [ match goal with |- forall _, _ => intro end
  | apply closes_bind_l; [solve [apply closes_Deselect]|]
  | apply closes_bind_r
  | match goal with
    | |- closes (if ?b then _ else _) => destruct b
    | |- closes (match ?x with _ => _ end) => destruct x
    end ].
Ltac closes_auto := repeat closes_step; keeps_auto.

Section driver.
Context {HW : Hw}.
Implicit Types w : World HW.

Lemma keeps_SetStatus st : keeps (SetStatus st).
Proof. unfold SetStatus, put_spi. keeps_auto. Qed.
Lemma keeps_put_spi i j st : keeps (put_spi i j st).
Proof. unfold put_spi. keeps_auto. Qed.
#[local] Hint Resolve keeps_SetStatus keeps_put_spi : ota.

Lemma closes_ReadStatus1 : closes ReadStatus1.
Proof. unfold ReadStatus1. closes_auto. Qed.

Lemma keeps_ReadStatus1 : keeps ReadStatus1.
Proof. apply closes_keeps, closes_ReadStatus1. Qed.
#[local] Hint Resolve keeps_ReadStatus1 : ota.

Lemma keeps_WaitReady n : keeps (WaitReady n).
Proof. unfold WaitReady. keeps_auto. Qed.

Lemma keeps_WriteEnable : keeps WriteEnable.
Proof. apply closes_keeps. unfold WriteEnable. closes_auto. Qed.

Lemma keeps_ReadJedecIdRaw : keeps ReadJedecIdRaw.
Proof. apply closes_keeps. unfold ReadJedecIdRaw. closes_auto. Qed.
#[local] Hint Resolve keeps_WaitReady keeps_WriteEnable keeps_ReadJedecIdRaw : ota.

Lemma keeps_SpiFlash_Init : keeps SpiFlash_Init.
Proof. unfold SpiFlash_Init. keeps_auto. Qed.

Lemma keeps_CheckArguments b a n : keeps (CheckArguments b a n).
Proof. unfold CheckArguments. keeps_auto. Qed.
#[local] Hint Resolve keeps_CheckArguments : ota.

(** A refused read command has closed its transaction. *)
Lemma ends_OpenRead a : ends (fun _ => True) (OpenRead a) (fun ok h => ok = false -> idle h).
Proof.
  unfold OpenRead. apply (ends_bind _ (fun _ _ => True)).
  { intros w _. by destruct (Select w) as [? []]. }
  intros _. apply (ends_bind _ (fun _ _ => True)).
  { intros w _. by destruct (andM _ _ w) as [? []]. }
  intros [].
  - by apply ends_ret.
  - eapply ends_mono; [apply closes_bind_l; [apply closes_Deselect|intros; apply keeps_ret]|done|].
    done.
Qed.

Lemma closes_ReadBytes n check : closes (ReadBytes n check).
Proof.
  unfold ReadBytes. apply (ends_loop (fun _ _ => True)). intros [index received].
  destruct (index <? n).
  - apply (ends_bind _ (fun _ _ => True)).
    { intros w _. by destruct (Transfer _ w) as [? []]. }
    intros [v|].
    + destruct (check index v); [by apply ends_ret|].
      apply (ends_bind _ (fun _ => idle)); [apply closes_Deselect|]. intros _.
      apply (ends_bind _ (fun _ => idle)); [apply keeps_SetStatus|]. intros _. by apply ends_ret.
    + apply (ends_bind _ (fun _ => idle)); [apply closes_Deselect|]. intros _. by apply ends_ret.
  - apply (ends_bind _ (fun _ => idle)); [apply closes_Deselect|]. intros _.
    apply (ends_bind _ (fun _ => idle)); [apply keeps_SetStatus|]. intros _. by apply ends_ret.
Qed.

(** The read-type operations: open, then the byte loop. *)
Lemma keeps_open_read {A} a (k : M HW A) (x : A) :
  closes k -> keeps (bind (OpenRead a) (fun ok => if negb ok then ret x else k)).
Proof.
  intros Hk. eapply ends_bind; [eapply ends_mono; [apply ends_OpenRead|done|intros ? ? H; exact H]|].
  intros []; cbn [negb].
  - eapply ends_mono; [exact Hk|done|done].
  - apply ends_ret. auto.
Qed.

Lemma keeps_SpiFlash_Read a n : keeps (SpiFlash_Read a n).
Proof.
  unfold SpiFlash_Read. apply keeps_bind; [apply keeps_CheckArguments|]. intros [[]|]; [apply keeps_ret..|].
  apply keeps_open_read, closes_ReadBytes.
Qed.

Lemma closes_then {A B} (m : M HW A) (f : A -> B) : closes m -> closes (bind m (fun a => ret (f a))).
Proof. intros H. apply closes_bind_l; [exact H|]. intros. apply keeps_ret. Qed.

Lemma keeps_SpiFlash_Verify a d n : keeps (SpiFlash_Verify a d n).
Proof.
  unfold SpiFlash_Verify. apply keeps_bind; [apply keeps_CheckArguments|]. intros [[]|]; [apply keeps_ret..|].
  apply keeps_open_read, (closes_then _ (fun r => bool_decide (is_Some r))), closes_ReadBytes.
Qed.

Lemma keeps_SpiFlash_IsErased a n : keeps (SpiFlash_IsErased a n).
Proof.
  unfold SpiFlash_IsErased. apply keeps_bind; [apply keeps_CheckArguments|]. intros [[]|]; [apply keeps_ret..|].
  apply keeps_open_read, (closes_then _ (fun r => bool_decide (is_Some r))), closes_ReadBytes.
Qed.
#[local] Hint Resolve keeps_SpiFlash_Read keeps_SpiFlash_Verify : ota.

Lemma keeps_ProgramPageChunk a d n : keeps (ProgramPageChunk a d n).
Proof.
  unfold ProgramPageChunk. destruct (_ || _); [keeps_auto|].
  apply keeps_bind; [auto with ota|]. intros []; cbn [negb]; [|apply keeps_ret].
  apply closes_keeps. closes_auto.
Qed.
#[local] Hint Resolve keeps_ProgramPageChunk : ota.

Lemma keeps_SpiFlash_Write a d n : keeps (SpiFlash_Write a d n).
Proof. unfold SpiFlash_Write, PreflightProgrammable. keeps_auto. Qed.

Lemma keeps_SpiFlash_EraseSector a : keeps (SpiFlash_EraseSector a).
Proof.
  unfold SpiFlash_EraseSector. apply keeps_bind; [auto with ota|]. intros r.
  destruct (negb _); [keeps_auto|]. destruct (negb _); [keeps_auto|]. destruct (negb _); [keeps_auto|].
  apply keeps_bind; [auto with ota|]. intros []; cbn [negb]; [|apply keeps_ret].
  apply closes_keeps. closes_auto.
Qed.

End driver.

#[export] Hint Resolve keeps_SpiFlash_Init keeps_SpiFlash_Read keeps_SpiFlash_Verify
  keeps_SpiFlash_IsErased keeps_SpiFlash_Write keeps_SpiFlash_EraseSector : ota.

Section storage.
Context {HW : Hw}.
Implicit Types w : World HW.

Lemma keeps_Storage_Init : keeps ExternalFlashStorage_Init.
Proof. apply keeps_SpiFlash_Init. Qed.
Lemma keeps_Storage_Read p o n : keeps (ExternalFlashStorage_Read p o n).
Proof. unfold ExternalFlashStorage_Read. keeps_auto. Qed.
Lemma keeps_Storage_Write p o d n : keeps (ExternalFlashStorage_Write p o d n).
Proof. unfold ExternalFlashStorage_Write. keeps_auto. Qed.
Lemma keeps_Storage_Verify p o d n : keeps (ExternalFlashStorage_Verify p o d n).
Proof. unfold ExternalFlashStorage_Verify. keeps_auto. Qed.
Lemma keeps_Storage_EraseRange p o n : keeps (ExternalFlashStorage_EraseRange p o n).
Proof. unfold ExternalFlashStorage_EraseRange. keeps_auto. Qed.
Lemma keeps_Storage_ErasePartition p : keeps (ExternalFlashStorage_ErasePartition p).
Proof. unfold ExternalFlashStorage_ErasePartition. keeps_auto. Qed.
#[local] Hint Resolve keeps_Storage_Init keeps_Storage_Read keeps_Storage_Write
  keeps_Storage_Verify keeps_Storage_EraseRange keeps_Storage_ErasePartition : ota.

Lemma keeps_ReadRecord {T} {HT : Record32 T} p o : keeps (ReadRecord (T := T) p o).
Proof. unfold ReadRecord. keeps_auto. Qed.
#[local] Hint Resolve keeps_ReadRecord : ota.

Lemma keeps_AbStorage_Commit {R Q} {HR : Record32 R} {HA : AbRecord R} {HQ : Record32 Q} o o' r :
  keeps (AbStorage_Commit (R := R) (Q := Q) o o' r).
Proof. unfold AbStorage_Commit, AbStorage_Rewrite, ReadSlot, andM. keeps_auto. Qed.

Lemma keeps_Clear : keeps DownloadCheckpointStorage_Clear.
Proof.
  apply keeps_bind; [apply keeps_AbStorage_Commit|]. intros. apply keeps_ret.
Qed.

Lemma keeps_Backup_LoadHeader : keeps BackupImageStorage_LoadHeader.
Proof. unfold BackupImageStorage_LoadHeader. keeps_auto. Qed.
Lemma keeps_Backup_InvalidateHeader : keeps BackupImageStorage_InvalidateHeader.
Proof. unfold BackupImageStorage_InvalidateHeader. keeps_auto. Qed.
#[local] Hint Resolve keeps_Backup_InvalidateHeader : ota.
Lemma keeps_Backup_CommitHeader r : keeps (BackupImageStorage_CommitHeader r).
Proof. unfold BackupImageStorage_CommitHeader, andM. keeps_auto. Qed.
Lemma keeps_Backup_Read o n : keeps (BackupImageStorage_Read o n).
Proof. unfold BackupImageStorage_Read. keeps_auto. Qed.
Lemma keeps_Backup_Write o d n : keeps (BackupImageStorage_Write o d n).
Proof. unfold BackupImageStorage_Write. keeps_auto. Qed.
Lemma keeps_Backup_Verify o d n : keeps (BackupImageStorage_Verify o d n).
Proof. unfold BackupImageStorage_Verify. keeps_auto. Qed.
Lemma keeps_Backup_EraseSector o : keeps (BackupImageStorage_EraseSector o).
Proof. unfold BackupImageStorage_EraseSector. keeps_auto. Qed.

Lemma keeps_MetadataStorage_Commit r : keeps (MetadataStorage_Commit r).
Proof.
  unfold MetadataStorage_Commit, MetadataStorage_ProgramSlot, ProgramHalfWords,
    MetadataStorage_CopyFromFlash, MetadataStorage_GetPrimask, MetadataStorage_RestorePrimask,
    get_primask, disable_irq, enable_irq, FLASH_Lock, FLASH_Unlock, set_primask, set_unlocked.
  keeps_auto.
Qed.

(** A footprint triple of a call that keeps the chip idle. *)
Lemma triple_idle {A} N F P (m : M HW A) Q :
  keeps m -> triple N F P m Q ->
  triple N F (fun w => P w /\ idle (w_hw w)) m (fun a w => Q a w /\ idle (w_hw w)).
Proof.
  intros Hk Ht w [HP Hi]. specialize (Hk w Hi). specialize (Ht w HP).
  unfold wp in *. destruct (m w) as [w' [a| |]]; tauto.
Qed.

(** Started with the chip idle, the driver start-up changes nothing. *)
Lemma triple_Storage_Init :
  triple nowhere nowhere (fun w => idle (w_hw w)) ExternalFlashStorage_Init
    (fun _ w => idle (w_hw w)).
Proof.
  eapply triple_conseq; [eapply triple_idle; [apply keeps_Storage_Init|apply triple_SpiFlash_Init]|
    done|done| |].
  - intros w Hi. split; [|exact Hi]. intros a. unfold idle in Hi. rewrite Hi. intros [].
  - intros a w []. done.
Qed.

End storage.

#[export] Hint Resolve keeps_Storage_Init keeps_Storage_Read keeps_Storage_Write
  keeps_Storage_Verify keeps_Storage_EraseRange keeps_Storage_ErasePartition keeps_Clear
  keeps_Backup_LoadHeader keeps_Backup_InvalidateHeader keeps_Backup_CommitHeader
  keeps_Backup_Read keeps_Backup_Write keeps_Backup_Verify keeps_Backup_EraseSector
  keeps_MetadataStorage_Commit : ota.
