(* ===== verification/Recovery.v ===== *)
(** * Recovery: what the memories hold in each state of an update

    The installer and the secure-container processor move the boot metadata
    through the update state machine while they copy images.  [safe orig h]
    says that, whatever state the current metadata is in, the image [orig] that
    was running when the update started can still be run or restored: it is in
    the application region, or it is in a backup whose header is valid.  The
    commit of the next state is the only step that changes the state; its lemma
    is proved here and every handler uses it. *)

From S2P Require Import Prelude Bytes MemoryMap Crc32 AbRecord BootMetadata BackupImage.
From S2P Require Import Device.
From S2P Require Import Logic MetadataStorage TrialBoot ExternalFlashStorage AbStorage.
From S2P Require Import SectorRecords BackupImageStorage ChipIdle.

Lemma state_word_u32 s : is_u32 (state_word s).
Proof. by destruct s; vm_compute. Qed.

Lemma zero_u32 : is_u32 0.
Proof. done. Qed.

(** A record built by assignments to a well-formed one is well formed; leaves
    the ranges of the values that are neither 0 nor a state. *)
Ltac wf_assign :=
  repeat match goal with
  | |- rec_wf ?m => is_var m; first [assumption | progress (unfold m) ]
  | |- rec_wf (_ _ _) =>
      apply assign_wf; [first [exact zero_u32 | apply state_word_u32 | idtac]|]
  end.

Section recovery.
Context {HW : Hw}.
Implicit Types w : World HW.

(** [CommitMetadata] of image_installer.c and of secure_container.c: the
    caller's copy is replaced by the committed record on success only. *)
Definition CommitMetadata (metadata : BootMetadata_t)
    : M HW (MetadataStorageStatus_t * BootMetadata_t) :=
  r <- MetadataStorage_Commit (Some metadata) ;;
  let '(status, committed, _) := r in
  if bool_decide (status = METADATA_STORAGE_OK)
  then ret (status, default metadata committed)
  else ret (status, metadata).

(** ** The images *)

(** The image that was running when the update started, and its version. *)
Record Image := mkImage { im_bytes : list Z; im_version : Z }.

(** [n] bytes of the application region from [off] on. *)
Definition app_slice (h : hw) (off n : Z) : list Z :=
  flash_slice h (APPLICATION_START_ADDRESS + off) n.

Definition app_is (orig : Image) (h : hw) : Prop :=
  app_slice h 0 APPLICATION_MAX_SIZE = im_bytes orig.

(** The first [n] bytes of the region, of the backup, are those of [orig]. *)
Definition app_prefix (orig : Image) (n : Z) (h : hw) : Prop :=
  app_slice h 0 n = take (Z.to_nat n) (im_bytes orig).
Definition backup_prefix (orig : Image) (n : Z) (h : hw) : Prop :=
  backup_slice h 0 n = take (Z.to_nat n) (im_bytes orig).

(** A complete backup under a valid header. *)
Record holds (orig : Image) (h : hw) : Prop := {
  hd_header : BackupImage_validb (backup_header_at h) = true;
  hd_crc : bk_image_crc32 (backup_header_at h) = crc_of (im_bytes orig);
  hd_version : bk_active_version (backup_header_at h) = im_version orig;
  hd_data : backup_slice h 0 APPLICATION_MAX_SIZE = im_bytes orig
}.

(** What each state guarantees; [off] is the record's [copy_offset]. *)
Definition phase_ok (orig : Image) (h : hw) (s : UpdateState_t) (off : Z) : Prop :=
  match s with
  | UPDATE_IDLE | UPDATE_RECEIVING | UPDATE_ARTIFACT_READY | UPDATE_VERIFYING_CONTAINER
  | UPDATE_VERIFYING_BASE | UPDATE_PATCHING | UPDATE_IMAGE_READY => app_is orig h
  | UPDATE_BACKING_UP => app_is orig h /\ backup_prefix orig off h
  | UPDATE_INSTALLING | UPDATE_VERIFYING_INSTALL | UPDATE_TRIAL_BOOT | UPDATE_CONFIRMED =>
      holds orig h
  | UPDATE_ROLLBACK => holds orig h /\ app_prefix orig off h
  | UPDATE_FAILED => app_is orig h \/ holds orig h
  end.

Definition accounted (orig : Image) (m : BootMetadata_t) (h : hw) : Prop :=
  bm_active_version m = im_version orig /\
  exists s, bm_state m = state_word s /\ phase_ok orig h s (bm_copy_offset m).

Definition safe (orig : Image) (h : hw) : Prop :=
  match current_metadata h with
  | Some m => accounted orig m h
  | None => app_is orig h /\ im_version orig = APPLICATION_VERSION
  end.

(** The record a handler works on is the one in the memory. *)
Definition live (orig : Image) (m : BootMetadata_t) (h : hw) : Prop :=
  current_metadata h = Some m /\ accounted orig m h.

Lemma live_safe orig m h : live orig m h -> safe orig h.
Proof. intros [Hc Ha]. unfold safe. by rewrite Hc. Qed.

Lemma current_metadata_wf h m : current_metadata h = Some m -> rec_wf m.
Proof.
  unfold current_metadata, ab_current.
  destruct (rec_select_newest _ _); intros [= <-]; apply metadata_at_wf.
Qed.

Lemma accounted_state orig m h s :
  accounted orig m h -> bm_state m = state_word s -> phase_ok orig h s (bm_copy_offset m).
Proof.
  intros (_ & s' & Hs' & Hp) Hs. assert (s' = s) as <-; [|done].
  enough (Some s' = Some s) by congruence.
  rewrite <- !state_of_word_state_word. congruence.
Qed.

(** ** Frames *)

(** Writes that leave the application region, the backup, or the metadata
    pages alone. *)
Definition off_app (F : Z -> Prop) : Prop := forall a, in_application a -> ~ F a.
Definition off_metadata (F : Z -> Prop) : Prop := forall a, in_boot_metadata a -> ~ F a.
Definition off_backup (N : Z -> Prop) : Prop :=
  forall a, EXT_BACKUP_ADDRESS <= a < EXT_BACKUP_ADDRESS + EXT_BACKUP_SIZE -> ~ N a.

Lemma app_slice_frame N F h h' off n :
  frame N F h h' -> off_app F -> 0 <= off -> off + n <= APPLICATION_MAX_SIZE ->
  app_slice h' off n = app_slice h off n.
Proof.
  intros Hf HF Ho Hn. eapply flash_slice_frame; [exact Hf|]. intros i Hi. apply HF. map_lia.
Qed.

Lemma app_slice_app h off n m :
  0 <= n -> 0 <= m -> app_slice h off (n + m) = app_slice h off n ++ app_slice h (off + n) m.
Proof. intros. unfold app_slice. rewrite flash_slice_app by done. do 2 f_equal. lia. Qed.

Lemma backup_slice_app h off n m :
  0 <= n -> 0 <= m ->
  backup_slice h off (n + m) = backup_slice h off n ++ backup_slice h (off + n) m.
Proof. intros. unfold backup_slice. rewrite nor_slice_app by done. do 2 f_equal. lia. Qed.

Lemma backup_slice_frame N F h h' off n :
  frame N F h h' -> (forall a, BACKUP_DATA_ADDRESS + off <= a < BACKUP_DATA_ADDRESS + off + n -> ~ N a) ->
  backup_slice h' off n = backup_slice h off n.
Proof. intros Hf HN. eapply nor_slice_frame; [exact Hf|exact HN]. Qed.

Lemma app_is_frame N F orig h h' :
  frame N F h h' -> off_app F -> app_is orig h -> app_is orig h'.
Proof. intros Hf HF Ha. unfold app_is. by erewrite app_slice_frame. Qed.

Lemma holds_frame N F orig h h' : frame N F h h' -> off_backup N -> holds orig h -> holds orig h'.
Proof.
  intros Hf HN [H1 H2 Hv H3].
  assert (backup_header_at h' = backup_header_at h) as Hh.
  { unfold backup_header_at. f_equal. eapply nor_slice_frame; [exact Hf|].
    intros i Hi. apply HN. unfold BackupImage_SIZE in Hi. map_lia. }
  split; rewrite ?Hh; [done..|]. rewrite <- H3. eapply backup_slice_frame; [exact Hf|].
  intros a Ha. apply HN. unfold BACKUP_DATA_ADDRESS, BACKUP_IMAGE_DATA_OFFSET in Ha. map_lia.
Qed.

Lemma current_metadata_frame N F h h' :
  frame N F h h' -> off_metadata F -> current_metadata h' = current_metadata h.
Proof.
  intros Hf HF. unfold current_metadata.
  assert (forall s, real_slot s -> metadata_at h' s = metadata_at h s) as Hs.
  { intros s Hs. unfold metadata_at. f_equal. eapply flash_slice_frame; [exact Hf|].
    intros i Hi. apply HF. apply (metadata_page_in s); [done|].
    unfold metadata_page, BootMetadata_SIZE in *. map_lia. }
  by rewrite (Hs SLOT_A (or_introl eq_refl)), (Hs SLOT_B (or_intror eq_refl)).
Qed.

(** A prefix of the image is no longer than the image. *)
Lemma app_slice_length h off n : 0 <= n -> len (app_slice h off n) = n.
Proof. apply flash_slice_length. Qed.

Lemma backup_slice_length h off n : 0 <= n -> len (backup_slice h off n) = n.
Proof. apply nor_slice_length. Qed.

Lemma app_is_length orig h : app_is orig h -> len (im_bytes orig) = APPLICATION_MAX_SIZE.
Proof. intros <-. by apply app_slice_length. Qed.

Lemma holds_length orig h : holds orig h -> len (im_bytes orig) = APPLICATION_MAX_SIZE.
Proof. intros [_ _ _ <-]. by apply backup_slice_length. Qed.

Lemma backup_prefix_bound orig n h : 0 <= n -> backup_prefix orig n h -> n <= len (im_bytes orig).
Proof.
  intros Hn H. apply (f_equal (fun l => len l)) in H. rewrite backup_slice_length in H by done.
  rewrite length_take in H. lia.
Qed.

Lemma app_prefix_bound orig n h : 0 <= n -> app_prefix orig n h -> n <= len (im_bytes orig).
Proof.
  intros Hn H. apply (f_equal (fun l => len l)) in H. rewrite app_slice_length in H by done.
  rewrite length_take in H. lia.
Qed.

(** Writes away from both images keep every state's guarantee. *)
Lemma phase_frame N F orig h h' s off :
  frame N F h h' -> off_app F -> off_backup N -> 0 <= off ->
  phase_ok orig h s off -> phase_ok orig h' s off.
Proof.
  intros Hf HF HN Ho.
  assert (Hai : app_is orig h -> app_is orig h') by (by eapply app_is_frame).
  assert (Hho : holds orig h -> holds orig h') by (by eapply holds_frame).
  assert (Hbp : app_is orig h -> backup_prefix orig off h -> backup_prefix orig off h').
  { intros Ha Hb. pose proof (app_is_length _ _ Ha). pose proof (backup_prefix_bound _ _ _ Ho Hb).
    unfold backup_prefix in *. rewrite <- Hb. eapply backup_slice_frame; [exact Hf|].
    intros a Hr. apply HN. unfold BACKUP_DATA_ADDRESS, BACKUP_IMAGE_DATA_OFFSET in Hr. map_lia. }
  assert (Hap : holds orig h -> app_prefix orig off h -> app_prefix orig off h').
  { intros Hh Ha. pose proof (holds_length _ _ Hh). pose proof (app_prefix_bound _ _ _ Ho Ha).
    unfold app_prefix in *. rewrite <- Ha. eapply app_slice_frame; [exact Hf|done|lia|lia]. }
  destruct s; cbn; tauto.
Qed.

(** ** Committing the next state *)

(** A commit changes neither the application region nor the W25Q. *)
Lemma metadata_off_app slot : real_slot slot -> off_app (metadata_page slot).
Proof.
  intros Hs a Ha Hm. exact (application_metadata_disjoint a Ha (metadata_page_in slot a Hs Hm)).
Qed.

Lemma nowhere_off_backup : off_backup nowhere.
Proof. intros a _ []. Qed.

Lemma nowhere_off_app : off_app nowhere.
Proof. intros a _ []. Qed.

Lemma nowhere_off_metadata : off_metadata nowhere.
Proof. intros a _ []. Qed.

Lemma boot_metadata_off_app : off_app in_boot_metadata.
Proof. intros a Ha Hm. exact (application_metadata_disjoint a Ha Hm). Qed.

(** The fields the committed record takes from the request. *)
Record same_request (m r : BootMetadata_t) : Prop := {
  sr_state : bm_state r = bm_state m;
  sr_active : bm_active_version r = bm_active_version m;
  sr_pending : bm_pending_version r = bm_pending_version m;
  sr_update_id : bm_active_update_id r = bm_active_update_id m;
  sr_received : bm_received_size r = bm_received_size m;
  sr_expected : bm_expected_size r = bm_expected_size m;
  sr_copy_offset : bm_copy_offset r = bm_copy_offset m;
  sr_attempts : bm_boot_attempts r = bm_boot_attempts m;
  sr_error : bm_last_error r = bm_last_error m
}.

Lemma candidate_same_request h m : same_request m (commit_candidate h m).
Proof. by destruct m. Qed.

Lemma accounted_same orig m r h :
  bm_state r = bm_state m -> bm_active_version r = bm_active_version m ->
  bm_copy_offset r = bm_copy_offset m -> accounted orig m h -> accounted orig r h.
Proof. intros Hs Hv Ho (H0 & s & H1 & H2). split; [congruence|]. exists s. rewrite Hs, Ho. done. Qed.

Lemma rec_wf_offset m : rec_wf m -> 0 <= bm_copy_offset m.
Proof.
  intros H. assert (is_u32 (bm_copy_offset m)) as Hu.
  { apply (proj1 (Forall_forall _ _) H). cbn. set_solver. }
  unfold is_u32 in Hu. lia.
Qed.

Lemma accounted_frame N F orig m h h' :
  frame N F h h' -> off_app F -> off_backup N -> rec_wf m ->
  accounted orig m h -> accounted orig m h'.
Proof.
  intros Hf HF HN Hwf (Hv & s & Hs & Hp). split; [done|]. exists s. split; [done|].
  eapply phase_frame; [exact Hf|done|done|by apply rec_wf_offset|done].
Qed.

Lemma safe_frame N F orig h h' :
  frame N F h h' -> off_app F -> off_backup N -> off_metadata F -> safe orig h -> safe orig h'.
Proof.
  intros Hf HF HN HM. unfold safe. rewrite (current_metadata_frame N F h h') by done.
  destruct (current_metadata h) as [m|] eqn:E;
    [|intros [? ?]; split; [by apply (app_is_frame N F orig h)|done]].
  eapply accounted_frame; [exact Hf|done|done|by eapply current_metadata_wf].
Qed.

(** The record a commit was about to write, as far as [safe] looks at it. *)
Lemma committed_safe orig m r N F h h' :
  rec_wf m -> frame N F h h' -> off_app F -> off_backup N -> current_metadata h' = Some r ->
  same_decision (commit_candidate h m) r -> accounted orig m h -> safe orig h'.
Proof.
  intros Hwf Hf HF HN Hr Hsd Hacc. unfold safe. rewrite Hr. apply (accounted_same orig m).
  - exact (proj1 Hsd 3%nat ltac:(lia)).
  - exact (proj1 Hsd 4%nat ltac:(lia)).
  - exact (proj1 Hsd 9%nat ltac:(lia)).
  - by eapply accounted_frame.
Qed.

(** An interrupted commit leaves the old state or the requested one, even when
    the two protect different images. *)
Lemma after_interruption_either orig orig' m h h' :
  rec_wf m -> frame nowhere (metadata_page (target_slot h)) h h' ->
  after_interruption h m h' -> safe orig h -> accounted orig' m h ->
  safe orig h' \/ safe orig' h'.
Proof.
  intros Hwf Hf Ha Hsafe Hacc. pose proof (metadata_off_app _ (target_slot_real h)) as HF.
  destruct Ha as [Hc|(r & Hr & Hsd)].
  - left. unfold safe in *. rewrite Hc. destruct (current_metadata h) as [m0|] eqn:E.
    + eapply accounted_frame; [exact Hf|done|apply nowhere_off_backup|by eapply current_metadata_wf|done].
    + destruct Hsafe. split; [by eapply app_is_frame|done].
  - right. eapply (committed_safe orig' m r); [done|exact Hf|done|apply nowhere_off_backup|done..].
Qed.

Lemma after_interruption_safe orig m h h' :
  rec_wf m -> frame nowhere (metadata_page (target_slot h)) h h' ->
  after_interruption h m h' -> safe orig h -> accounted orig m h -> safe orig h'.
Proof. intros. by destruct (after_interruption_either orig orig m h h'). Qed.

(** An interrupted page erase never leaves another valid record. *)
Definition erases_detected : Prop := forall h slot, real_slot slot -> erase_detected h slot.

Context (Herase : erases_detected).

(** The commit of a state whose guarantee already holds. *)
Lemma wp_CommitMetadata orig m w :
  rec_wf m -> safe orig (w_hw w) -> accounted orig m (w_hw w) ->
  wp (CommitMetadata m)
    (fun '(status, m') w' =>
       frame nowhere in_boot_metadata (w_hw w) (w_hw w') /\ safe orig (w_hw w') /\
       rec_wf m' /\ same_request m m' /\
       (status = METADATA_STORAGE_OK -> current_metadata (w_hw w') = Some m') /\
       (status <> METADATA_STORAGE_OK -> m' = m))
    (safe orig) w.
Proof using Herase.
  intros Hwf Hsafe Hacc. unfold CommitMetadata. apply wp_bind.
  pose proof (target_slot_real (w_hw w)) as Hs.
  assert (Hframe : forall h, frame nowhere (metadata_page (target_slot (w_hw w))) (w_hw w) h ->
    frame nowhere in_boot_metadata (w_hw w) h).
  { intros h Hf. eapply frame_mono; [done| |exact Hf]. intros a. by apply metadata_page_in. }
  eapply wp_mono; [apply wp_MetadataStorage_Commit; [done|by apply Herase]| |].
  - intros [[status c] slot] w' (Hf & Hok & Hbad). cbv beta iota.
    destruct (bool_decide_reflect (status = METADATA_STORAGE_OK)) as [->|Hne]; apply wp_ret.
    + destruct (Hok eq_refl) as [-> Hcur]. cbn [default].
      split; [by apply Hframe|]. split.
      { unfold safe. rewrite Hcur. pose proof (candidate_same_request (w_hw w) m) as Hsr.
        apply (accounted_same orig m); [apply Hsr..|].
        eapply accounted_frame; [exact Hf|by apply metadata_off_app|apply nowhere_off_backup|done|done]. }
      split; [by apply commit_candidate_wf|]. split; [apply candidate_same_request|].
      split; [intros _; exact Hcur|intros Hne; by destruct Hne].
    + split; [by apply Hframe|]. split; [by eapply after_interruption_safe; [| |apply Hbad|..]|].
      split; [done|]. split; [by split|]. split; [intros ->; by destruct Hne|done].
  - intros h [Hf Ha]. by eapply after_interruption_safe.
Qed.

(** ** Calls inside a handler *)

(** A call with a known footprint that keeps the memories safe. *)
Lemma wp_safe_call {A} N F (m : M HW A) Q orig w (R : A -> World HW -> Prop) :
  triple N F (fun _ => True) m Q ->
  (forall h, frame N F (w_hw w) h -> safe orig h) ->
  (forall a w', frame N F (w_hw w) (w_hw w') -> Q a w' -> R a w') ->
  wp m R (safe orig) w.
Proof.
  intros Hm Hc HR. eapply wp_mono; [by apply Hm| |exact Hc].
  intros a w' [Hf HQ]. by apply HR.
Qed.

(** A call that only reads. *)
Lemma wp_read_call {A} (m : M HW A) Q orig w (R : A -> World HW -> Prop) :
  triple nowhere nowhere (fun _ => True) m Q -> safe orig (w_hw w) ->
  (forall a w', frame nowhere nowhere (w_hw w) (w_hw w') -> Q a w' -> R a w') ->
  wp m R (safe orig) w.
Proof.
  intros Hm Hs HR. eapply wp_safe_call; [exact Hm| |exact HR].
  intros h Hf. eapply safe_frame; [exact Hf|apply nowhere_off_app|apply nowhere_off_backup|
    apply nowhere_off_metadata|exact Hs].
Qed.

(** A read-only call that may start the driver. *)
Lemma wp_idle_call {A} (m : M HW A) Q orig w (R : A -> World HW -> Prop) :
  triple nowhere nowhere (fun w => idle (w_hw w)) m Q ->
  idle (w_hw w) -> safe orig (w_hw w) ->
  (forall a w', frame nowhere nowhere (w_hw w) (w_hw w') -> safe orig (w_hw w') ->
     Q a w' -> R a w') ->
  wp m R (safe orig) w.
Proof.
  intros Hm Hi Hs HR.
  assert (Hsafe : forall h, frame nowhere nowhere (w_hw w) h -> safe orig h).
  { intros h Hf. eapply safe_frame; [exact Hf|apply nowhere_off_app|apply nowhere_off_backup|
    apply nowhere_off_metadata|exact Hs]. }
  eapply wp_mono; [by apply Hm| |exact Hsafe]. intros a w' [Hf HQ]. apply HR; auto.
Qed.

End recovery.

(** ** Early returns

    A C [return] in the middle of a function: [inl] leaves with the result,
    [inr] goes on. *)
Section exits.
Context {HW : Hw}.

Definition bind_exit {R A B} (m : M HW (R + A)) (k : A -> M HW (R + B)) : M HW (R + B) :=
  bind m (fun x => match x with inl r => ret (inl r) | inr a => k a end).

Definition go {R A} (a : A) : M HW (R + A) := ret (inr a).
Definition leave {R A} (m : M HW R) : M HW (R + A) := bind m (fun r => ret (inl r)).

(** The function's result, whichever way it ends. *)
Definition run_exit {R} (m : M HW (R + R)) : M HW R :=
  bind m (fun x => match x with inl r => ret r | inr r => ret r end).

Lemma wp_bind_exit {R A B} (m : M HW (R + A)) (k : A -> M HW (R + B)) Q C w :
  wp m (fun x w' => match x with inl r => Q (inl r) w' | inr a => wp (k a) Q C w' end) C w ->
  wp (bind_exit m k) Q C w.
Proof.
  intros H. apply wp_bind. eapply wp_mono; [exact H| |done].
  intros [r|a] w' Hx; [by apply wp_ret|exact Hx].
Qed.

Lemma wp_leave {R A} (m : M HW R) (Q : R + A -> World HW -> Prop) C w :
  wp m (fun r w' => Q (inl r) w') C w -> wp (leave m) Q C w.
Proof. intros H. apply wp_bind. eapply wp_mono; [exact H| |done]. intros r w' Hr. by apply wp_ret. Qed.

Lemma wp_go {R A} (a : A) (Q : R + A -> World HW -> Prop) C w : Q (inr a) w -> wp (go a) Q C w.
Proof. apply wp_ret. Qed.

Lemma wp_run_exit {R} (m : M HW (R + R)) (Q : R -> World HW -> Prop) C w :
  wp m (fun x w' => match x with inl r => Q r w' | inr r => Q r w' end) C w ->
  wp (run_exit m) Q C w.
Proof. intros H. apply wp_bind. eapply wp_mono; [exact H| |done]. intros [r|r] w' Hr; by apply wp_ret. Qed.
End exits.

Notation "x <-! c ;; k" := (bind_exit c (fun x => k))
  (at level 100, c at next level, right associativity) : m_scope.
