(* ===== verification/Chunks.v ===== *)
(** * Chunks: the buffered read loop of the image checks

    Five functions of the bootloader fold a digest over a region they read in
    chunks of a stack buffer.  The loop is modelled once; what it computes is
    the fold over pieces whose concatenation is the region. *)

From S2P Require Import Prelude Bytes MemoryMap Crc32 Device Logic.

Section chunks.
Context {HW : Hw}.
Implicit Types w : World HW.

(** [while (offset < length)]: read a chunk of at most [size] bytes, fold it. *)
Definition ReadChunks {S} (size : Z) (read : Z -> Z -> M HW (option (list Z))) (length : Z)
    (step : S -> list Z -> S) (s : S) : M HW (option S) :=
  loop (length + 1) (fun '(offset, s) =>
    if offset <? length then
      let chunk := u32 (length - offset) in
      let chunk := if size <? chunk then size else chunk in
      bytes <- read offset chunk ;;
      match bytes with
      | None => ret (inr None)
      | Some bs => ret (inl (u32 (offset + chunk), step s bs))
      end
    else ret (inr (Some s))) (0, s).

(** Nothing has changed since [h0]. *)
Definition still (h0 : hw) w : Prop := frame nowhere nowhere h0 (w_hw w).

Lemma still_nor_slice h0 w a n : still h0 w -> nor_slice (w_hw w) a n = nor_slice h0 a n.
Proof. intros H. eapply nor_slice_frame; [exact H|]. by intros ? _ []. Qed.

Lemma still_flash_slice h0 w a n : still h0 w -> flash_slice (w_hw w) a n = flash_slice h0 a n.
Proof. intros H. eapply flash_slice_frame; [exact H|]. by intros ? _ []. Qed.

(** A call that changes nothing, in terms of the memory it started from. *)
Lemma triple_still_pre {A} h0 P (m : M HW A) Q :
  triple nowhere nowhere P m Q ->
  triple nowhere nowhere (fun w => still h0 w /\ P w) m (fun a w => still h0 w /\ Q a w).
Proof.
  intros H w [Hw HP]. eapply wp_mono; [by apply H| |done].
  intros a w' [Hf HQ]. split_and!; [done| |done]. exact (frame_trans _ _ _ _ _ Hw Hf).
Qed.

Lemma triple_still {A} h0 (m : M HW A) Q :
  triple nowhere nowhere (fun _ => True) m Q ->
  triple nowhere nowhere (still h0) m (fun a w => still h0 w /\ Q a w).
Proof. intros H. eapply triple_pre; [by apply triple_still_pre|]. by intros w Hw. Qed.

(** To prove a read-only call, fix the memory it starts from. *)
Lemma triple_fix {A} (P : World HW -> Prop) (m : M HW A) (Q : A -> hw -> Prop) :
  (forall a h h', frame nowhere nowhere h h' -> Q a h -> Q a h') ->
  (forall h0, triple nowhere nowhere (fun w => still h0 w /\ P w) m (fun a _ => Q a h0)) ->
  triple nowhere nowhere P m (fun a w => Q a (w_hw w)).
Proof.
  intros HQ H w HP. eapply wp_mono; [apply (H (w_hw w)); split; [apply frame_refl|exact HP]| |done].
  intros a w' [Hf Ha]. split; [done|]. by eapply HQ.
Qed.

Lemma triple_ReadChunks {S} size (read : Z -> Z -> M HW (option (list Z))) length data
    (step : S -> list Z -> S) s P :
  0 < size -> is_u32 length -> len data = length ->
  (forall off n, 0 <= off -> 0 <= n -> off + n <= length ->
     triple nowhere nowhere P (read off n)
       (fun r w => P w /\ forall bs, r = Some bs -> bs = slice off n data)) ->
  triple nowhere nowhere P (ReadChunks size read length step s)
    (fun r w => P w /\ forall s', r = Some s' ->
       exists pieces, concat pieces = data /\ s' = fold_left step pieces s).
Proof.
  intros Hsize Hlen Hdata Hread. unfold is_u32 in Hlen. unfold ReadChunks.
  set (I := fun (x : Z * S) w => P w /\ exists pieces, concat pieces = slice 0 x.1 data /\
    x.2 = fold_left step pieces s /\ 0 <= x.1 <= length).
  apply (triple_pre _ _ (I (0, s))).
  2: { intros w HP. split; [done|]. exists []. split_and!; [done..|cbn; lia]. }
  apply (triple_loop _ _ I (fun x => length - Z.max 0 (Z.min x.1 length))); [|cbn; lia].
  unfold I. intros [offset s1] _. cbn [fst snd]. apply (triple_pure _ _ _ (0 <= offset <= length));
    [intros w (_ & ? & _ & _ & ?); done|]. intros Ho.
  destruct (Z.ltb_spec offset length) as [Hlt|Hge].
  - cbv zeta. rewrite (u32_small (length - offset)) by (unfold is_u32; lia).
    set (chunk := if size <? length - offset then size else length - offset).
    assert (Hc : 0 < chunk /\ offset + chunk <= length)
      by (unfold chunk; destruct (Z.ltb_spec size (length - offset)); lia).
    clearbody chunk. rewrite (u32_small (offset + chunk)) by (unfold is_u32; lia).
    apply (triple_pre _ _ (fun w => exists pieces, P w /\
      (concat pieces = slice 0 offset data /\ s1 = fold_left step pieces s))).
    2: { intros w (HP & pieces & ? & ? & _). exists pieces. auto. }
    apply triple_exists. intros pieces.
    apply (triple_pure _ _ _ (concat pieces = slice 0 offset data /\
      s1 = fold_left step pieces s)); [by intros w []|]. intros [Hp Hs].
    triple_step Hread; [lia..|by intros w []|].
    intros [bs|]; apply triple_ret; intros w [HP Hb]; [|split; [done|discriminate]].
    rewrite (Hb bs eq_refl). cbn [fst snd]. split; [split; [done|]|lia].
    exists (pieces ++ [slice offset chunk data]).
    rewrite concat_app, fold_left_app, <- Hs, Hp. cbn [concat fold_left]. rewrite app_nil_r.
    split_and!; [|done|lia..].
    rewrite <- (slice_app_adjacent 0 offset chunk) by lia. by rewrite Z.add_0_l.
  - apply triple_ret. intros w (HP & pieces & Hp & Hs & _). split; [done|].
    intros ? [= <-]. exists pieces. split; [|done]. rewrite Hp.
    apply slice_all. lia.
Qed.

(** The CRC fold. *)
Definition crc_step (running : Z) (bs : list Z) : Z := Crc32_Update running (Some bs) (len bs).

Lemma crc_step_pieces pieces :
  Z.lxor (fold_left crc_step pieces CRC32_IEEE_INITIAL_VALUE) CRC32_IEEE_FINAL_XOR =
  crc_of (concat pieces).
Proof.
  assert (forall acc, fold_left crc_step pieces acc = fold_left crc32_byte (concat pieces) acc) as ->.
  { induction pieces as [|p ps IH]; intros acc; [done|]. cbn [fold_left concat].
    rewrite IH, fold_left_app. f_equal. unfold crc_step, Crc32_Update.
    by rewrite Nat2Z.id, firstn_all. }
  symmetry. apply crc_of_fold.
Qed.

(** The slices of a memory region. *)
Lemma slice_flash_slice h a n off m :
  0 <= off -> 0 <= m -> off + m <= n ->
  slice off m (flash_slice h a n) = flash_slice h (a + off) m.
Proof.
  intros. unfold slice.
  replace n with (off + (m + (n - off - m))) by lia.
  rewrite flash_slice_app, drop_app_length' by
    (lia || (pose proof (flash_slice_length h a off); lia)).
  rewrite flash_slice_app, take_app_length' by
    (lia || (pose proof (flash_slice_length h (a + off) m); lia)). done.
Qed.

(** The CRC fold over a region; [None] is a failed read. *)
Definition CrcChunks (size : Z) (read : Z -> Z -> M HW (option (list Z))) (length : Z)
    : M HW (option Z) :=
  running <- ReadChunks size read length crc_step CRC32_IEEE_INITIAL_VALUE ;;
  ret ((fun running => Z.lxor running CRC32_IEEE_FINAL_XOR) <$> running).

(** The fold over a memory the reads do not change. *)
Lemma still_CrcChunks h0 size (read : Z -> Z -> M HW (option (list Z))) n data :
  0 < size -> is_u32 n -> len data = n ->
  (forall off m, 0 <= off -> 0 <= m -> off + m <= n ->
     triple nowhere nowhere (still h0) (read off m)
       (fun r w => still h0 w /\ forall bs, r = Some bs -> bs = slice off m data)) ->
  triple nowhere nowhere (still h0) (CrcChunks size read n)
    (fun r w => still h0 w /\ forall crc, r = Some crc -> crc = crc_of data).
Proof.
  intros Hsize Hn Hl Hread. unfold CrcChunks.
  triple_step (triple_ReadChunks size read n data crc_step CRC32_IEEE_INITIAL_VALUE (still h0));
    [done|done|done|exact Hread|done|].
  intros r. apply triple_ret. intros w [Hw Hr]. split; [done|]. intros crc Hc.
  destruct r as [s|]; [|discriminate]. injection Hc as <-.
  destruct (Hr s eq_refl) as (pieces & <- & ->). apply crc_step_pieces.
Qed.

(** Reads that cannot fail give a result. *)
Lemma triple_ReadChunks_total {S} size (read : Z -> Z -> M HW (option (list Z))) n
    (step : S -> list Z -> S) s :
  0 < size -> is_u32 n ->
  (forall off m, triple nowhere nowhere (fun _ => True) (read off m) (fun r _ => r <> None)) ->
  triple nowhere nowhere (fun _ => True) (ReadChunks size read n step s) (fun r _ => r <> None).
Proof.
  intros Hsize Hn Hread. unfold is_u32 in Hn. unfold ReadChunks.
  set (I := fun (x : Z * S) (_ : World HW) => 0 <= x.1 <= n).
  apply (triple_pre _ _ (I (0, s))); [|unfold I; cbn; lia].
  apply (triple_loop _ _ I (fun x => n - Z.max 0 (Z.min x.1 n))); [|cbn; lia].
  unfold I. intros [offset s1] _. cbn [fst snd]. apply (triple_pure _ _ _ (0 <= offset <= n)); [done|].
  intros Ho. destruct (Z.ltb_spec offset n) as [Hlt|Hge]; [|by apply triple_ret].
  cbv zeta. rewrite (u32_small (n - offset)) by (unfold is_u32; lia).
  set (chunk := if size <? n - offset then size else n - offset).
  assert (Hc : 0 < chunk /\ offset + chunk <= n)
    by (unfold chunk; destruct (Z.ltb_spec size (n - offset)); lia).
  clearbody chunk. rewrite (u32_small (offset + chunk)) by (unfold is_u32; lia).
  triple_step Hread; [done|]. intros [bs|]; apply triple_ret; intros w Hr; [cbn; lia|].
  by destruct Hr.
Qed.

(** Memory-mapped reads always give the checksum; [addr] is the address the
    code computes for an offset. *)
Lemma triple_CrcChunks_flash size base (addr : Z -> Z) n :
  0 < size -> is_u32 n -> (forall off, 0 <= off <= n -> addr off = base + off) ->
  triple nowhere nowhere (fun _ => True)
    (CrcChunks size (fun offset chunk =>
       bytes <- flash_read (addr offset) chunk ;; ret (Some bytes)) n)
    (fun r w => r = Some (crc_of (flash_slice (w_hw w) base n))).
Proof.
  intros Hsize Hu Haddr. set (read := fun offset chunk => bind _ _).
  apply (triple_fix _ _ (fun r h => r = Some (crc_of (flash_slice h base n)))).
  { intros r h h' Hf ->. do 2 f_equal. symmetry. eapply flash_slice_frame; [exact Hf|].
    by intros a _ []. }
  intros h0. assert (Hread : forall off m, 0 <= off -> 0 <= m -> off + m <= n ->
     triple nowhere nowhere (still h0) (read off m)
       (fun r w => still h0 w /\ forall bs, r = Some bs -> bs = slice off m (flash_slice h0 base n))).
  { intros off m Ho Hm Hr. unfold read. eapply triple_bind; [apply triple_flash_read|].
    intros bs. apply triple_ret. intros w [Hw ->]. split; [done|]. intros ? [= <-].
    rewrite Haddr, slice_flash_slice by lia. by apply still_flash_slice. }
  assert (Htot : triple nowhere nowhere (fun _ => True) (CrcChunks size read n) (fun r _ => r <> None)).
  { unfold CrcChunks. eapply triple_bind.
    - apply (triple_ReadChunks_total size); [done|done|]. intros off m. unfold read.
      eapply triple_bind; [apply (triple_flash_read _ _ (fun _ => True))|]. intros bs.
      by apply triple_ret.
    - intros [s|]; apply triple_ret; [done|]. intros w Hw. by destruct Hw. }
  pose proof (still_CrcChunks h0 size read n (flash_slice h0 base n) Hsize Hu
    (flash_slice_length h0 base n (proj1 Hu)) Hread) as Hcrc.
  intros w [Hw _]. eapply wp_mono; [apply wp_and; [by apply Htot|by apply Hcrc]| |].
  - intros r w' [[Hf Hne] [_ [_ Hc]]]. split; [exact Hf|]. destruct r as [crc|]; [|by destruct Hne].
    by rewrite (Hc crc eq_refl).
  - by intros h [].
Qed.

End chunks.
