(* ===== verification/PatchFormat.v ===== *)
(** * PatchFormat: the JojoDiff patches that janpatch_port.c interprets

    A reference for the interpreter, without the flash, the buffers and the
    counters: the lengths, the literals, one operation off the front of the
    patch, its effect on a position in the base and the target so far, and the
    target a whole patch gives. *)

From S2P Require Import Prelude Bytes.

Definition ESC : Z := 0xA7.

(** The letters of the operations behind an escape. *)
Definition letters : list Z := [0xA6; 0xA5; 0xA4; 0xA3; 0xA2].

Definition positive (n : Z) : option Z := if 0 <? n then Some n else None.

(** A length and the patch behind it: one byte up to 252, [252 b] up to 508,
    and 16 or 32 bits behind 253 and 254. *)
Definition read_length (p : list Z) : option (Z * list Z) :=
  match p with
  | [] => None
  | prefix :: p' =>
      if prefix <? 252 then Some (prefix + 1, p')
      else if prefix =? 252 then
        match p' with b :: rest => Some (253 + b, rest) | _ => None end
      else if prefix =? 253 then
        match p' with
        | b0 :: b1 :: rest => n ← positive (be_number [b0; b1]); Some (n, rest)
        | _ => None
        end
      else if prefix =? 254 then
        match p' with
        | b0 :: b1 :: b2 :: b3 :: rest => n ← positive (be_number [b0; b1; b2; b3]); Some (n, rest)
        | _ => None
        end
      else None
  end.

(** A literal and the patch behind it: it ends at an escaped letter or at the
    end of the patch, of which a lone escape is part. *)
Fixpoint literal (p : list Z) : list Z * list Z :=
  match p with
  | [] => ([], [])
  | x :: p' =>
      if x =? ESC then
        match p' with
        | [] => ([], [])
        | y :: p'' =>
            if y =? ESC then let '(l, rest) := literal p'' in (ESC :: l, rest)
            else if bool_decide (y ∈ letters) then ([], p)
            else let '(l, rest) := literal p'' in (ESC :: y :: l, rest)
        end
      else let '(l, rest) := literal p' in (x :: l, rest)
  end.

Inductive JOp :=
  | MOD (bs : list Z)
  | INS (bs : list Z)
  | DEL (n : Z)
  | EQL (n : Z)
  | BKT (n : Z).

(** The operation a letter starts. *)
Definition read_body (letter : Z) (p : list Z) : option (JOp * list Z) :=
  if letter =? 0xA6 then let '(l, rest) := literal p in Some (MOD l, rest)
  else if letter =? 0xA5 then let '(l, rest) := literal p in Some (INS l, rest)
  else if letter =? 0xA4 then '(n, rest) ← read_length p; Some (DEL n, rest)
  else if letter =? 0xA3 then '(n, rest) ← read_length p; Some (EQL n, rest)
  else if letter =? 0xA2 then '(n, rest) ← read_length p; Some (BKT n, rest)
  else None.

(** The letter of the next operation and the patch behind it: without an
    escaped letter the patch goes on with modified bytes. *)
Definition read_letter (p : list Z) : option (Z * list Z) :=
  match p with
  | [] => None
  | x :: p' =>
      if x =? ESC then
        match p' with
        | [] => None
        | y :: p'' => if bool_decide (y ∈ letters) then Some (y, p'') else Some (0xA6, p)
        end
      else Some (0xA6, p)
  end.

Definition read_op (p : list Z) : option (JOp * list Z) :=
  '(letter, p') ← read_letter p; read_body letter p'.

(** What an operation does to the position in the base and to the target: the
    base is the region [base], of which the patch may use [base_size] bytes. *)
Definition apply_op (base : list Z) (base_size target_size : Z) (op : JOp) (x : Z * list Z)
    : option (Z * list Z) :=
  let '(s, t) := x in
  match op with
  | MOD bs => if (s + len bs <=? base_size) && (len t + len bs <=? target_size)
              then Some (s + len bs, t ++ bs) else None
  | INS bs => if len t + len bs <=? target_size then Some (s, t ++ bs) else None
  | DEL n => if s + n <=? base_size then Some (s + n, t) else None
  | EQL n => if (s + n <=? base_size) && (s + n <=? len base) && (len t + n <=? target_size)
             then Some (s + n, t ++ slice s n base) else None
  | BKT n => if n <=? s then Some (s - n, t) else None
  end.

(** The operations of a patch in turn; every one takes a byte at least. *)
Fixpoint run_patch (fuel : nat) (base : list Z) (base_size target_size : Z) (p : list Z)
    (x : Z * list Z) : option (Z * list Z) :=
  match p with
  | [] => Some x
  | _ :: _ =>
      match fuel with
      | O => None
      | S fuel' =>
          '(op, p') ← read_op p;
          x' ← apply_op base base_size target_size op x;
          run_patch fuel' base base_size target_size p' x'
      end
  end.

(** The last position in the base and the target of a patch. *)
Definition patch_result (base : list Z) (base_size target_size : Z) (p : list Z)
    : option (Z * list Z) :=
  '(s, t) ← run_patch (length p) base base_size target_size p (0, []);
  if len t =? target_size then Some (s, t) else None.

(** ** The parser takes bytes off the front *)

Lemma literal_suffix p : exists taken, p = taken ++ (literal p).2.
Proof.
  enough (forall n p, (length p <= n)%nat -> exists taken, p = taken ++ (literal p).2) as H
    by by apply (H (length p)).
  clear p. induction n as [|n IH]; intros p Hn.
  { by destruct p; [exists []|cbn in Hn; lia]. }
  destruct p as [|x p']; [by exists []|]. cbn [literal].
  assert (forall pre q, x :: p' = pre ++ q -> pre <> [] ->
            exists taken, x :: p' = taken ++ (literal q).2) as Hrest.
  { intros pre q Hq Hpre. destruct (IH q) as [taken Ht].
    { apply (f_equal length) in Hq. rewrite length_app in Hq.
      destruct pre; [done|]. cbn in *. lia. }
    exists (pre ++ taken). by rewrite <- app_assoc, <- Ht. }
  destruct (x =? ESC).
  - destruct p' as [|y p'']; [by exists [x]|].
    destruct (y =? ESC); [|case_bool_decide]; [|by exists []|];
      destruct (Hrest [x; y] p'') as [taken Ht]; try done; exists taken; rewrite Ht at 1;
      by destruct (literal p'').
  - destruct (Hrest [x] p') as [taken Ht]; [done..|]. exists taken. rewrite Ht at 1.
    by destruct (literal p').
Qed.

Lemma read_length_shorter p n rest : read_length p = Some (n, rest) -> (length rest < length p)%nat.
Proof.
  unfold read_length. intros H. repeat (case_match; simplify_eq/=; try lia);
    by apply bind_Some in H as (? & _ & [= _ <-]); cbn; lia.
Qed.

Lemma literal_shorter p : (length (literal p).2 <= length p)%nat.
Proof.
  destruct (literal_suffix p) as [taken H]. apply (f_equal length) in H.
  rewrite length_app in H. lia.
Qed.

(** A literal that does not start with an escaped letter takes a byte. *)
Lemma literal_takes p :
  p <> [] -> read_letter p = Some (0xA6, p) -> (length (literal p).2 < length p)%nat.
Proof.
  destruct p as [|x p']; [done|]. intros _. cbn [read_letter literal].
  pose proof (literal_shorter p') as Hp.
  destruct (x =? ESC); [|destruct (literal p'); cbn in *; lia].
  destruct p' as [|y p'']; [done|]. pose proof (literal_shorter p'') as Hp''.
  case_bool_decide as Hl; [intros [= _ H]; by apply (f_equal length) in H; cbn in H; lia|].
  intros _. destruct (y =? ESC); destruct (literal p''); cbn in *; lia.
Qed.

Lemma read_letter_cases p letter p' :
  read_letter p = Some (letter, p') ->
  (length p' < length p)%nat /\ letter ∈ letters \/ letter = 0xA6 /\ p' = p.
Proof.
  destruct p as [|x p1]; [done|]. cbn [read_letter].
  destruct (x =? ESC); [|intros [= <- <-]; auto].
  destruct p1 as [|y p2]; [done|]. case_bool_decide; intros [= <- <-]; [left; cbn; auto|auto].
Qed.

Lemma read_body_shorter letter p op rest :
  read_body letter p = Some (op, rest) -> (length rest <= length p)%nat.
Proof.
  assert (forall (f : Z -> JOp), ('(n, r) ← read_length p; Some (f n, r)) = Some (op, rest) ->
            (length rest <= length p)%nat) as Hf.
  { intros f ([n r] & Hn & [= <- <-])%bind_Some. apply read_length_shorter in Hn. lia. }
  pose proof (literal_shorter p) as Hl. unfold read_body. destruct (literal p) as [l r]. cbn in Hl.
  repeat (destruct (_ =? _); [first [by intros [= _ <-] | apply Hf]|]). done.
Qed.

Lemma read_op_shorter p op rest : read_op p = Some (op, rest) -> (length rest < length p)%nat.
Proof.
  unfold read_op. intros ([letter p'] & Hl & Hb)%bind_Some.
  destruct (read_letter_cases p letter p' Hl) as [[Hs _]|[-> ->]].
  - apply read_body_shorter in Hb. lia.
  - unfold read_body in Hb. cbn in Hb. pose proof (literal_takes p) as Ht.
    destruct (literal p) as [l r]. injection Hb as <- <-. apply Ht; [by destruct p|done].
Qed.

(** Any fuel from the length of the patch on gives the same result. *)
Lemma run_patch_fuel base bsize tsize p x fuel :
  (length p <= fuel)%nat ->
  run_patch fuel base bsize tsize p x = run_patch (length p) base bsize tsize p x.
Proof.
  enough (forall n fuel' p x, (length p <= n)%nat -> (n <= fuel')%nat ->
    run_patch fuel' base bsize tsize p x = run_patch n base bsize tsize p x) as H
    by (intros; by apply H).
  clear. induction n as [|n IH]; intros fuel p x Hp Hf.
  { destruct p; [by destruct fuel|cbn in Hp; lia]. }
  destruct fuel as [|fuel]; [lia|]. destruct p as [|b p1]; [done|]. cbn [run_patch].
  destruct (read_op (b :: p1)) as [[op p2]|] eqn:E; [|done]. cbn.
  destruct (apply_op base bsize tsize op x) as [x'|]; [|done]. cbn.
  apply read_op_shorter in E. apply IH; cbn in *; lia.
Qed.

Lemma run_patch_nil base bsize tsize x : run_patch 0 base bsize tsize [] x = Some x.
Proof. done. Qed.

(** The operations left, by the patch left. *)
Definition rest_result (base : list Z) (bsize tsize : Z) (p : list Z) (x : Z * list Z)
    : option (Z * list Z) := run_patch (length p) base bsize tsize p x.

Lemma rest_result_step base bsize tsize p x :
  p <> [] ->
  rest_result base bsize tsize p x =
    ('(op, p') ← read_op p; x' ← apply_op base bsize tsize op x; rest_result base bsize tsize p' x').
Proof.
  unfold rest_result. destruct p as [|b p1]; [done|]. intros _. cbn [length run_patch].
  destruct (read_op (b :: p1)) as [[op p2]|] eqn:E; [|done]. cbn.
  destruct (apply_op base bsize tsize op x) as [x'|]; [|done]. cbn.
  apply read_op_shorter in E. apply run_patch_fuel. cbn in E. lia.
Qed.

(** ** An example: "secure bootloader" becomes "secure OTA bootloader" *)

Example patch_example :
  let base := [115; 101; 99; 117; 114; 101; 32; 98; 111; 111; 116] in
  patch_result base 11 15
    [0xA7; 0xA3; 6; 0xA7; 0xA5; 79; 84; 65; 32; 0xA7; 0xA3; 3] =
  Some (11, [115; 101; 99; 117; 114; 101; 32; 79; 84; 65; 32; 98; 111; 111; 116]).
Proof. vm_compute. reflexivity. Qed.
