(* ===== verification/DeltaEngine.v ===== *)
(** * DeltaEngine: the interface of node-stm32f103/bootloader/patch/janpatch_port.h

    What the secure container asks of the delta interpreter.  [Janpatch] is the
    implementation and its instance of the class. *)

From S2P Require Import Prelude MemoryMap Device Logic SpiFlash ExternalFlashStorage.
From S2P Require Import AbRecord.
From S2P Require Import BootMetadata UpdateHandoff DownloadCheckpoint BackupImage.
From S2P Require Import MetadataStorage.
From S2P Require Import AbStorage SectorRecords BackupImageStorage ChipIdle.

Inductive JanpatchPortStatus_t :=
  | JANPATCH_PORT_OK
  | JANPATCH_PORT_INVALID_ARGUMENT
  | JANPATCH_PORT_SOURCE_RANGE
  | JANPATCH_PORT_PATCH_RANGE
  | JANPATCH_PORT_TARGET_RANGE
  | JANPATCH_PORT_PATCH_READ_FAILED
  | JANPATCH_PORT_TARGET_WRITE_FAILED
  | JANPATCH_PORT_BAD_OPCODE
  | JANPATCH_PORT_BAD_LENGTH
  | JANPATCH_PORT_TRUNCATED_STREAM
  | JANPATCH_PORT_TARGET_SIZE_MISMATCH.

#[export] Instance JanpatchPortStatus_eq : EqDecision JanpatchPortStatus_t.
Proof. solve_decision. Defined.

Record JanpatchPortStream_t := mkJanpatchStream {
  js_base_image_size : Z;
  js_patch_offset : Z;
  js_patch_size : Z;
  js_target_image_size : Z
}.

Record JanpatchPortResult_t := mkJanpatchResult {
  jr_source_position : Z;
  jr_patch_position : Z;
  jr_target_position : Z;
  jr_operation_count : Z;
  jr_equal_bytes : Z;
  jr_modified_bytes : Z;
  jr_inserted_bytes : Z;
  jr_deleted_bytes : Z;
  jr_backward_bytes : Z
}.

(** The fields are uint32_t, and the patch does not wrap around. *)
Record stream_ok (stream : JanpatchPortStream_t) : Prop := {
  so_base : is_u32 (js_base_image_size stream);
  so_offset : 0 <= js_patch_offset stream;
  so_size : 0 <= js_patch_size stream;
  so_end : is_u32 (js_patch_offset stream + js_patch_size stream);
  so_target : is_u32 (js_target_image_size stream)
}.

(** The promise of janpatch_port.c to its caller: it ends, writes the
    reconstructed partition only, and leaves the chip deselected. *)
Class DeltaEngine {HW : Hw} := {
  DeltaEngine_ApplyStream :
    JanpatchPortStream_t -> M HW (JanpatchPortStatus_t * JanpatchPortResult_t);
  apply_footprint : forall stream, stream_ok stream ->
    modifies (in_partition EXTERNAL_FLASH_PARTITION_RECONSTRUCTED) nowhere
      (DeltaEngine_ApplyStream stream);
  apply_keeps : forall stream, keeps (DeltaEngine_ApplyStream stream)
}.
