(* ===== verification/Janpatch.v ===== *)
(** * Janpatch: node-stm32f103/bootloader/patch/janpatch_port.c

    The streaming interpreter of JojoDiff patches: it reads the patch from the
    incoming partition and the base from the internal flash, and writes the
    target to the reconstructed partition.  The reference is a one-operation
    parser and its effect on a source position and the target so far; the
    theorem is that the interpreter computes it, unless the flash fails. *)

From S2P Require Import Prelude Bytes MemoryMap Device Logic SpiFlash ExternalFlashStorage.
From S2P Require Import AbRecord.
From S2P Require Import BootMetadata UpdateHandoff DownloadCheckpoint BackupImage.
From S2P Require Import MetadataStorage.
From S2P Require Import AbStorage SectorRecords BackupImageStorage ChipIdle Chunks.
From S2P Require Import DeltaEngine.

Definition JDIFF_ESC : Z := 0xA7.
Definition JDIFF_MOD : Z := 0xA6.
Definition JDIFF_INS : Z := 0xA5.
Definition JDIFF_DEL : Z := 0xA4.
Definition JDIFF_EQL : Z := 0xA3.
Definition JDIFF_BKT : Z := 0xA2.

Definition JANPATCH_IO_BUFFER_SIZE : Z := 128.

(** The context without its pointer to the stream. *)
Record JanpatchContext_t := mkJanpatchContext {
  jc_source_position : Z;
  jc_patch_position : Z;
  jc_target_position : Z;
  jc_result : JanpatchPortResult_t
}.

Definition jc_set_source (v : Z) (c : JanpatchContext_t) : JanpatchContext_t :=
  mkJanpatchContext v (jc_patch_position c) (jc_target_position c) (jc_result c).
Definition jc_set_patch (v : Z) (c : JanpatchContext_t) : JanpatchContext_t :=
  mkJanpatchContext (jc_source_position c) v (jc_target_position c) (jc_result c).
Definition jc_set_target (v : Z) (c : JanpatchContext_t) : JanpatchContext_t :=
  mkJanpatchContext (jc_source_position c) (jc_patch_position c) v (jc_result c).
Definition jc_set_result (v : JanpatchPortResult_t) (c : JanpatchContext_t) : JanpatchContext_t :=
  mkJanpatchContext (jc_source_position c) (jc_patch_position c) (jc_target_position c) v.

(** The counters of the result, and [x += n]. *)
Definition jr_add_equal (n : Z) (r : JanpatchPortResult_t) : JanpatchPortResult_t :=
  mkJanpatchResult (jr_source_position r) (jr_patch_position r) (jr_target_position r)
    (jr_operation_count r) (u32 (jr_equal_bytes r + n)) (jr_modified_bytes r) (jr_inserted_bytes r)
    (jr_deleted_bytes r) (jr_backward_bytes r).
Definition jr_add_modified (n : Z) (r : JanpatchPortResult_t) : JanpatchPortResult_t :=
  mkJanpatchResult (jr_source_position r) (jr_patch_position r) (jr_target_position r)
    (jr_operation_count r) (jr_equal_bytes r) (u32 (jr_modified_bytes r + n)) (jr_inserted_bytes r)
    (jr_deleted_bytes r) (jr_backward_bytes r).
Definition jr_add_inserted (n : Z) (r : JanpatchPortResult_t) : JanpatchPortResult_t :=
  mkJanpatchResult (jr_source_position r) (jr_patch_position r) (jr_target_position r)
    (jr_operation_count r) (jr_equal_bytes r) (jr_modified_bytes r) (u32 (jr_inserted_bytes r + n))
    (jr_deleted_bytes r) (jr_backward_bytes r).
Definition jr_add_deleted (n : Z) (r : JanpatchPortResult_t) : JanpatchPortResult_t :=
  mkJanpatchResult (jr_source_position r) (jr_patch_position r) (jr_target_position r)
    (jr_operation_count r) (jr_equal_bytes r) (jr_modified_bytes r) (jr_inserted_bytes r)
    (u32 (jr_deleted_bytes r + n)) (jr_backward_bytes r).
Definition jr_add_backward (n : Z) (r : JanpatchPortResult_t) : JanpatchPortResult_t :=
  mkJanpatchResult (jr_source_position r) (jr_patch_position r) (jr_target_position r)
    (jr_operation_count r) (jr_equal_bytes r) (jr_modified_bytes r) (jr_inserted_bytes r)
    (jr_deleted_bytes r) (u32 (jr_backward_bytes r + n)).
Definition jr_count_operation (r : JanpatchPortResult_t) : JanpatchPortResult_t :=
  mkJanpatchResult (jr_source_position r) (jr_patch_position r) (jr_target_position r)
    (u32 (jr_operation_count r + 1)) (jr_equal_bytes r) (jr_modified_bytes r) (jr_inserted_bytes r)
    (jr_deleted_bytes r) (jr_backward_bytes r).
Definition jr_set_positions (s p t : Z) (r : JanpatchPortResult_t) : JanpatchPortResult_t :=
  mkJanpatchResult s p t (jr_operation_count r) (jr_equal_bytes r) (jr_modified_bytes r)
    (jr_inserted_bytes r) (jr_deleted_bytes r) (jr_backward_bytes r).

Definition IsOpcode (value : Z) : bool :=
  (value =? JDIFF_MOD) || (value =? JDIFF_INS) || (value =? JDIFF_DEL) || (value =? JDIFF_EQL) ||
  (value =? JDIFF_BKT).

(** ** Calls that may fail: [inl] is the status the function returns *)

Section janpatch.
Context {HW : Hw}.
Implicit Types w : World HW.
Implicit Types c : JanpatchContext_t.

Definition E (A : Type) : Type := M HW (JanpatchPortStatus_t + A).

Definition fail {A} (st : JanpatchPortStatus_t) : E A := ret (inl st).
Definition done_ {A} (a : A) : E A := ret (inr a).
Definition try {A B} (m : E A) (k : A -> E B) : E B :=
  r <- m ;; match r with inl st => ret (inl st) | inr a => k a end.

#[local] Notation "x <-? c ;; k" := (try c (fun x => k))
  (at level 100, c at next level, right associativity) : m_scope.
#[local, warnings="-notation-incompatible-prefix"]
Notation "' p <-? c ;; k" := (try c (fun x => match x with p => k end))
  (at level 100, p pattern, c at next level, right associativity) : m_scope.

(** A loop whose body may return from the function. *)
Definition loop_try {S A} (fuel : Z) (body : S -> E (S + A)) (s : S) : E A :=
  loop fuel (fun s => r <- body s ;;
    match r with
    | inl st => ret (inr (inl st))
    | inr (inl s') => ret (inl s')
    | inr (inr a) => ret (inr (inr a))
    end) s.

Definition ReadSource (offset length : Z) : E (list Z) :=
  if (APPLICATION_MAX_SIZE <? offset) || (u32 (APPLICATION_MAX_SIZE - offset) <? length)
  then fail JANPATCH_PORT_SOURCE_RANGE
  else bs <- flash_read (u32 (APPLICATION_START_ADDRESS + offset)) length ;; done_ bs.

Section stream.
Context (stream : JanpatchPortStream_t).

Definition PatchReadByte c : E (JanpatchContext_t * Z) :=
  if js_patch_size stream <=? jc_patch_position c then fail JANPATCH_PORT_TRUNCATED_STREAM else
  value <- ExternalFlashStorage_Read EXTERNAL_FLASH_PARTITION_INCOMING
             (u32 (js_patch_offset stream + jc_patch_position c)) 1 ;;
  match value with
  | None => fail JANPATCH_PORT_PATCH_READ_FAILED
  | Some bs => done_ (jc_set_patch (u32 (jc_patch_position c + 1)) c, byte_at bs 0)
  end.

Definition PatchPeekByte c (relative_offset : Z) : E Z :=
  if u32 (js_patch_size stream - jc_patch_position c) <? relative_offset
  then fail JANPATCH_PORT_PATCH_RANGE else
  let position := u32 (jc_patch_position c + relative_offset) in
  if js_patch_size stream <=? position then fail JANPATCH_PORT_TRUNCATED_STREAM else
  value <- ExternalFlashStorage_Read EXTERNAL_FLASH_PARTITION_INCOMING
             (u32 (js_patch_offset stream + position)) 1 ;;
  match value with
  | None => fail JANPATCH_PORT_PATCH_READ_FAILED
  | Some bs => done_ (byte_at bs 0)
  end.

(** The length prefixes. *)
Definition ReadLength c : E (JanpatchContext_t * Z) :=
  '(c, prefix) <-? PatchReadByte c ;;
  if prefix <=? 251 then done_ (c, prefix + 1) else
  if prefix =? 252 then
    '(c, low) <-? PatchReadByte c ;; done_ (c, 253 + low)
  else if prefix =? 253 then
    '(c, b0) <-? PatchReadByte c ;;
    '(c, b1) <-? PatchReadByte c ;;
    let length := Z.lor (Z.shiftl b0 8) b1 in
    if length <>? 0 then done_ (c, length) else fail JANPATCH_PORT_BAD_LENGTH
  else if prefix =? 254 then
    '(c, b0) <-? PatchReadByte c ;;
    '(c, b1) <-? PatchReadByte c ;;
    '(c, b2) <-? PatchReadByte c ;;
    '(c, b3) <-? PatchReadByte c ;;
    let length := Z.lor (Z.lor (Z.lor (Z.shiftl b0 24) (Z.shiftl b1 16)) (Z.shiftl b2 8)) b3 in
    if length <>? 0 then done_ (c, length) else fail JANPATCH_PORT_BAD_LENGTH
  else fail JANPATCH_PORT_BAD_LENGTH.

Definition TargetWrite c (data : list Z) (length : Z) : E JanpatchContext_t :=
  if (js_target_image_size stream <? jc_target_position c) ||
     (u32 (js_target_image_size stream - jc_target_position c) <? length)
  then fail JANPATCH_PORT_TARGET_RANGE else
  ok <- (if length =? 0 then ret true
         else ExternalFlashStorage_Write EXTERNAL_FLASH_PARTITION_RECONSTRUCTED
                (jc_target_position c) (Some data) length) ;;
  if negb ok then fail JANPATCH_PORT_TARGET_WRITE_FAILED
  else done_ (jc_set_target (u32 (jc_target_position c + length)) c).

(** The range test in front of every advance of the source. *)
Definition source_exceeds c (length : Z) : bool :=
  (js_base_image_size stream <? jc_source_position c) ||
  (u32 (js_base_image_size stream - jc_source_position c) <? length).

Definition CopyEqual c (length : Z) : E JanpatchContext_t :=
  if source_exceeds c length then fail JANPATCH_PORT_SOURCE_RANGE else
  loop_try (length + 1) (fun '(c, length) =>
    if length =? 0 then done_ (inr c) else
    let chunk := if JANPATCH_IO_BUFFER_SIZE <? length then JANPATCH_IO_BUFFER_SIZE else length in
    buffer <-? ReadSource (jc_source_position c) chunk ;;
    c <-? TargetWrite c buffer chunk ;;
    let c := jc_set_source (u32 (jc_source_position c + chunk)) c in
    let c := jc_set_result (jr_add_equal chunk (jc_result c)) c in
    done_ (inl (c, u32 (length - chunk)))) (c, length).

(** Writing the [used] bytes of the literal buffer, with [total += used]. *)
Definition FlushLiteral c (buffer : list Z) (advance_source : bool) (total : Z) : E (JanpatchContext_t * Z) :=
  let used := len buffer in
  c <-? TargetWrite c buffer used ;;
  if advance_source then
    if source_exceeds c used then fail JANPATCH_PORT_SOURCE_RANGE
    else done_ (jc_set_source (u32 (jc_source_position c + used)) c, u32 (total + used))
  else done_ (c, u32 (total + used)).

(** [if (used == sizeof(buffer))]. *)
Definition FlushIfFull c (buffer : list Z) (advance_source : bool) (total : Z)
    : E (JanpatchContext_t * list Z * Z) :=
  if len buffer =? JANPATCH_IO_BUFFER_SIZE then
    '(c, total) <-? FlushLiteral c buffer advance_source total ;; done_ (c, [], total)
  else done_ (c, buffer, total).

(** One pass over the patch: [inr] leaves the loop. *)
Definition LiteralStep (advance_source : bool) (x : JanpatchContext_t * list Z * Z)
    : E (JanpatchContext_t * list Z * Z + JanpatchContext_t * list Z * Z) :=
  let '(c, buffer, total) := x in
  if js_patch_size stream <=? jc_patch_position c then done_ (inr (c, buffer, total)) else
  value <-? PatchPeekByte c 0 ;;
  if value <>? JDIFF_ESC then
    '(c, value) <-? PatchReadByte c ;;
    x <-? FlushIfFull c (buffer ++ [value]) advance_source total ;; done_ (inl x)
  else if js_patch_size stream <=? u32 (jc_patch_position c + 1) then
    done_ (inr (jc_set_patch (u32 (jc_patch_position c + 1)) c, buffer, total))
  else
    next <-? PatchPeekByte c 1 ;;
    if next =? JDIFF_ESC then
      let c := jc_set_patch (u32 (jc_patch_position c + 2)) c in
      x <-? FlushIfFull c (buffer ++ [JDIFF_ESC]) advance_source total ;; done_ (inl x)
    else if IsOpcode next then done_ (inr (c, buffer, total))
    else
      let c := jc_set_patch (u32 (jc_patch_position c + 2)) c in
      '(c, buffer, total) <-? FlushIfFull c (buffer ++ [JDIFF_ESC]) advance_source total ;;
      x <-? FlushIfFull c (buffer ++ [next]) advance_source total ;; done_ (inl x).

(** The context and [*written_out]. *)
Definition ConsumeLiteral c (advance_source : bool) : E (JanpatchContext_t * Z) :=
  '(c, buffer, total) <-? loop_try (js_patch_size stream + 1) (LiteralStep advance_source) (c, [], 0) ;;
  if len buffer <>? 0 then FlushLiteral c buffer advance_source total else done_ (c, total).

(** The opcode of the next operation, behind its two bytes if it has them. *)
Definition NextOpcode c : E (JanpatchContext_t * Z) :=
  first <-? PatchPeekByte c 0 ;;
  if first =? JDIFF_ESC then
    if js_patch_size stream <=? u32 (jc_patch_position c + 1) then fail JANPATCH_PORT_TRUNCATED_STREAM else
    next <-? PatchPeekByte c 1 ;;
    if IsOpcode next then done_ (jc_set_patch (u32 (jc_patch_position c + 2)) c, next)
    else done_ (c, JDIFF_MOD)
  else done_ (c, JDIFF_MOD).

(** The operation itself. *)
Definition ApplyOperation c (opcode : Z) : E JanpatchContext_t :=
  if (opcode =? JDIFF_EQL) || (opcode =? JDIFF_DEL) || (opcode =? JDIFF_BKT) then
    '(c, length) <-? ReadLength c ;;
    if opcode =? JDIFF_EQL then CopyEqual c length
    else if opcode =? JDIFF_DEL then
      if source_exceeds c length then fail JANPATCH_PORT_SOURCE_RANGE else
      let c := jc_set_source (u32 (jc_source_position c + length)) c in
      done_ (jc_set_result (jr_add_deleted length (jc_result c)) c)
    else
      if jc_source_position c <? length then fail JANPATCH_PORT_SOURCE_RANGE else
      let c := jc_set_source (u32 (jc_source_position c - length)) c in
      done_ (jc_set_result (jr_add_backward length (jc_result c)) c)
  else if (opcode =? JDIFF_MOD) || (opcode =? JDIFF_INS) then
    '(c, written) <-? ConsumeLiteral c (opcode =? JDIFF_MOD) ;;
    done_ (jc_set_result ((if opcode =? JDIFF_MOD then jr_add_modified written
                           else jr_add_inserted written) (jc_result c)) c)
  else fail JANPATCH_PORT_BAD_OPCODE.

(** The loop over the operations. *)
Definition ApplyLoop : E JanpatchContext_t :=
  loop_try (js_patch_size stream + 1) (fun c =>
    if jc_patch_position c <? js_patch_size stream then
      '(c, opcode) <-? NextOpcode c ;;
      c <-? ApplyOperation c opcode ;;
      done_ (inl (jc_set_result (jr_count_operation (jc_result c)) c))
    else done_ (inr c)) (mkJanpatchContext 0 0 0 (mkJanpatchResult 0 0 0 0 0 0 0 0 0)).

End stream.

(** The status, and [*result] afterwards. *)
Definition JanpatchPort_ApplyStream (stream : option JanpatchPortStream_t)
    (result : option JanpatchPortResult_t) : M HW (JanpatchPortStatus_t * option JanpatchPortResult_t) :=
  match stream with
  | None => ret (JANPATCH_PORT_INVALID_ARGUMENT, result)
  | Some stream =>
      if (js_base_image_size stream =? 0) || (js_patch_size stream =? 0) ||
         (js_target_image_size stream =? 0)
      then ret (JANPATCH_PORT_INVALID_ARGUMENT, result) else
      r <- ApplyLoop stream ;;
      match r with
      | inl st => ret (st, result)
      | inr c =>
          if jc_target_position c <>? js_target_image_size stream
          then ret (JANPATCH_PORT_TARGET_SIZE_MISMATCH, result)
          else ret (JANPATCH_PORT_OK, (fun _ =>
                 jr_set_positions (jc_source_position c) (jc_patch_position c) (jc_target_position c)
                   (jc_result c)) <$> result)
      end
  end.

End janpatch.
