(* ===== verification/JanpatchTheorems.v ===== *)
(** * JanpatchTheorems: the interpreter computes the reference

    A call that may fail is proved against the value the reference gives to
    the rest of the patch: it fails only if the reference does, or if the
    flash does not answer, with one of two statuses. *)

From S2P Require Import Prelude Bytes MemoryMap Device Logic SpiFlash ExternalFlashStorage.
From S2P Require Import AbRecord.
From S2P Require Import BootMetadata UpdateHandoff DownloadCheckpoint BackupImage.
From S2P Require Import MetadataStorage.
From S2P Require Import AbStorage SectorRecords BackupImageStorage ChipIdle Chunks.
From S2P Require Import DeltaEngine.
From S2P Require Import PatchFormat Janpatch.

#[local] Notation "x <-? c ;; k" := (try c (fun x => k))
  (at level 100, c at next level, right associativity) : m_scope.

Abbreviation RECONSTRUCTED := EXTERNAL_FLASH_PARTITION_RECONSTRUCTED.
Abbreviation INCOMING := EXTERNAL_FLASH_PARTITION_INCOMING.

(** The statuses of a flash that does not answer. *)
Definition io_failure (st : JanpatchPortStatus_t) : Prop :=
  st = JANPATCH_PORT_PATCH_READ_FAILED \/ st = JANPATCH_PORT_TARGET_WRITE_FAILED.

Lemma IsOpcode_letters v : IsOpcode v = bool_decide (v ∈ letters).
Proof.
  unfold IsOpcode, letters, JDIFF_MOD, JDIFF_INS, JDIFF_DEL, JDIFF_EQL, JDIFF_BKT.
  case_bool_decide as H.
  - rewrite !elem_of_cons, elem_of_nil in H. rewrite !orb_true_iff, !Z.eqb_eq. tauto.
  - rewrite !elem_of_cons, elem_of_nil in H. rewrite !orb_false_iff, !Z.eqb_neq. tauto.
Qed.

(** ** Attempts *)

Section attempts.
Context {HW : Hw}.
Implicit Types w : World HW.

(** The flash has failed, or the reference, whose value is [o]. *)
Definition failure {B} (o : option B) (st : JanpatchPortStatus_t) : Prop :=
  st <> JANPATCH_PORT_OK /\ (io_failure st \/ o = None).

Definition attempt {A B} (o : option B) (P : World HW -> Prop) (m : E A)
    (Q : A -> World HW -> Prop) : Prop :=
  triple (in_partition RECONSTRUCTED) nowhere P m (fun r w =>
    match r with inl st => failure o st | inr a => Q a w end).

(** The call itself computes [o]. *)
Definition refines {A B} (P : World HW -> Prop) (m : E A) (o : option B)
    (R : A -> B -> World HW -> Prop) : Prop :=
  attempt o P m (fun a w => exists b, o = Some b /\ R a b w).

Lemma attempt_fail {A B} P st (o : option B) (Q : A -> World HW -> Prop) :
  st <> JANPATCH_PORT_OK -> o = None -> attempt o P (fail st) Q.
Proof. intros ? ->. apply triple_ret. intros w _. split; auto. Qed.

Lemma attempt_io {A B} P st (o : option B) (Q : A -> World HW -> Prop) :
  io_failure st -> attempt o P (fail st) Q.
Proof. intros H. apply triple_ret. intros w _. split; [by destruct H as [-> | ->]|auto]. Qed.

Lemma attempt_done {A B} (P : World HW -> Prop) (a : A) (o : option B) Q :
  (forall w, P w -> Q a w) -> attempt o P (done_ a) Q.
Proof. intros H. apply triple_ret. eauto. Qed.

Lemma attempt_pre {A B} (o : option B) (P P' : World HW -> Prop) (m : E A) Q :
  attempt o P m Q -> (forall w, P' w -> P w) -> attempt o P' m Q.
Proof. apply triple_pre. Qed.

Lemma attempt_pure {A B} (o : option B) (P : World HW -> Prop) (phi : Prop) (m : E A) Q :
  (forall w, P w -> phi) -> (phi -> attempt o P m Q) -> attempt o P m Q.
Proof. apply triple_pure. Qed.

Lemma attempt_exists {X A B} (o : option B) (P : X -> World HW -> Prop) (m : E A) Q :
  (forall x, attempt o (P x) m Q) -> attempt o (fun w => exists x, P x w) m Q.
Proof. apply triple_exists. Qed.

Lemma attempt_if {A B} (o : option B) P (b : bool) (m m' : E A) Q :
  (b = true -> attempt o P m Q) -> (b = false -> attempt o P m' Q) ->
  attempt o P (if b then m else m') Q.
Proof. destruct b; auto. Qed.

(** A weaker reference, that fails where the other one does. *)
Lemma attempt_mono {A B B'} (o : option B) (o' : option B') P (m : E A) Q Q' :
  attempt o P m Q -> (o = None -> o' = None) -> (forall a w, Q a w -> Q' a w) -> attempt o' P m Q'.
Proof.
  intros H Ho HQ. eapply triple_post; [exact H|]. intros [st|a] w; [|auto].
  intros [? Hf]. split; [done|]. destruct Hf; auto.
Qed.

Lemma attempt_try {A A' B} (o : option B) P (m : E A) (k : A -> E A') Q Q' :
  attempt o P m Q -> (forall a, attempt o (Q a) (k a) Q') -> attempt o P (x <-? m ;; k x) Q'.
Proof.
  intros Hm Hk. unfold attempt, try. eapply triple_bind; [exact Hm|]. intros [st|a]; cbv beta.
  - by apply triple_ret.
  - apply Hk.
Qed.

(** After a call that computes its own reference, which fails only if the
    whole does. *)
Lemma attempt_step {A A' B B'} (o : option B) (o' : option B') P (m : E A) (k : A -> E A') R Q :
  refines P m o R -> (o = None -> o' = None) ->
  (forall a b, o = Some b -> attempt o' (R a b) (k a) Q) -> attempt o' P (x <-? m ;; k x) Q.
Proof.
  intros Hm Hn Hk. eapply attempt_try; [by eapply attempt_mono; [exact Hm|..]|]. intros a.
  apply attempt_exists. intros b. apply (attempt_pure _ _ (o = Some b)); [by intros w []|].
  intros Ho. eapply attempt_pre; [by apply (Hk a b)|]. by intros w [].
Qed.

Lemma attempt_bind {X A B} N (P : World HW -> Prop) (m : M HW X) (k : X -> E A) (o : option B) S Q :
  triple N nowhere P m S -> (forall a, N a -> in_partition RECONSTRUCTED a) ->
  (forall x, attempt o (S x) (k x) Q) -> attempt o P (bind m k) Q.
Proof.
  intros Hm HN Hk. unfold attempt. eapply triple_bind; [|exact Hk].
  by eapply triple_conseq; [exact Hm|..].
Qed.

(** A loop whose body is an attempt. *)
Lemma attempt_loop {S A B} (o : option B) (I : S -> World HW -> Prop) (mu : S -> Z) fuel
    (body : S -> E (S + A)) s (Q : A -> World HW -> Prop) :
  (forall s, 0 <= mu s -> attempt o (I s) (body s) (fun x w =>
     match x with inl s' => I s' w /\ 0 <= mu s' < mu s | inr a => Q a w end)) ->
  0 <= mu s < fuel ->
  attempt o (I s) (loop_try fuel body s) Q.
Proof.
  intros Hb Hmu. apply (triple_loop _ _ I mu); [|done]. intros s1 H1.
  eapply triple_bind; [by apply Hb|]. intros [st|[s'|a]]; by apply triple_ret.
Qed.

End attempts.

#[local] Opaque attempt.

(** ** The state of the interpreter and of the reference *)

Section stream.
Context {HW : Hw} (stream : JanpatchPortStream_t) (Hs : stream_ok stream) (h0 : hw).
Implicit Types w : World HW.

(** The patch and the base it starts from. *)
Definition patch_of : list Z :=
  nor_slice h0 (part_base INCOMING + js_patch_offset stream) (js_patch_size stream).
Definition base_of : list Z := flash_slice h0 APPLICATION_START_ADDRESS APPLICATION_MAX_SIZE.

Abbreviation bsize := (js_base_image_size stream).
Abbreviation tsize := (js_target_image_size stream).
Abbreviation psize := (js_patch_size stream).

(** The context stands for the position [s], the target [t] and the patch left [p]. *)
Record ctx_at (c : JanpatchContext_t) (s : Z) (t p : list Z) : Prop := {
  ca_source : jc_source_position c = s;
  ca_base : 0 <= s <= bsize;
  ca_target : jc_target_position c = len t;
  ca_tsize : len t <= tsize;
  ca_patch : 0 <= jc_patch_position c <= psize;
  ca_left : drop (Z.to_nat (jc_patch_position c)) patch_of = p
}.

(** The target so far is in the flash, and nothing else has changed. *)
Definition mem_at (t : list Z) w : Prop :=
  frame (in_partition RECONSTRUCTED) nowhere h0 (w_hw w) /\
  nor_slice (w_hw w) (part_base RECONSTRUCTED) (len t) = t.

Lemma patch_len : len patch_of = psize.
Proof. apply nor_slice_length. apply Hs. Qed.

Lemma base_len : len base_of = APPLICATION_MAX_SIZE.
Proof. by apply flash_slice_length. Qed.

Lemma psize_u32 : is_u32 psize.
Proof. destruct Hs as [_ ? ? He _]. unfold is_u32 in *. lia. Qed.

Lemma ctx_left_len c s t p : ctx_at c s t p -> jc_patch_position c + len p = psize.
Proof.
  intros [_ _ _ _ Hp Hl]. pose proof patch_len as Hlen.
  apply (f_equal length) in Hl. rewrite length_drop in Hl. lia.
Qed.

(** Moving on behind the first bytes of the patch left. *)
Lemma ctx_advance c s t taken p :
  ctx_at c s t (taken ++ p) -> ctx_at (jc_set_patch (u32 (jc_patch_position c + len taken)) c) s t p.
Proof.
  intros Hc. pose proof (ctx_left_len _ _ _ _ Hc) as Hl. pose proof psize_u32 as Hu.
  destruct Hc as [H1 H2 H3 H4 H5 H6]. rewrite length_app in Hl.
  assert (u32 (jc_patch_position c + len taken) = jc_patch_position c + len taken) as He
    by (apply u32_small; unfold is_u32 in *; lia).
  split; cbn; rewrite ?He; [done..|lia|].
  replace (Z.to_nat (jc_patch_position c + len taken))
    with (Z.to_nat (jc_patch_position c) + length taken)%nat by lia.
  by rewrite <- drop_drop, H6, drop_app_length.
Qed.

(** The byte in front. *)
Lemma ctx_byte c s t p k x :
  ctx_at c s t p -> 0 <= k -> p !! Z.to_nat k = Some x ->
  x = nor h0 (part_base INCOMING + js_patch_offset stream + (jc_patch_position c + k)) /\
  jc_patch_position c + k < psize.
Proof.
  intros Hc Hk Hx. pose proof (ctx_left_len _ _ _ _ Hc) as Hl.
  pose proof (lookup_lt_Some _ _ _ Hx) as Hlt. split; [|lia].
  destruct Hc as [_ _ _ _ H5 H6]. rewrite <- H6, lookup_drop in Hx.
  unfold patch_of, nor_slice in Hx. apply list_lookup_fmap_Some in Hx as (z & -> & Hz).
  apply lookup_seqZ in Hz as [-> _]. f_equal. lia.
Qed.

Lemma ctx_left_nil c s t p : ctx_at c s t p -> (psize <=? jc_patch_position c) = bool_decide (p = []).
Proof.
  intros Hc. pose proof (ctx_left_len _ _ _ _ Hc) as Hl.
  case_bool_decide as Hp; [subst p; cbn in Hl; apply Z.leb_le; lia|].
  apply Z.leb_gt. destruct p; [done|]. cbn in Hl. lia.
Qed.

(** ** Reading the patch *)

Lemma nor_slice_1 h a : nor_slice h a 1 = [nor h a].
Proof. unfold nor_slice. change (seqZ a 1) with [0 + a]. by rewrite Z.add_0_l. Qed.

(** The incoming partition is as it was. *)
Lemma incoming_unchanged t w off :
  mem_at t w -> in_partition INCOMING (part_base INCOMING + off) ->
  nor (w_hw w) (part_base INCOMING + off) = nor h0 (part_base INCOMING + off).
Proof.
  intros [[Hn _] _] Hi. apply Hn. revert Hi. unfold in_partition.
  set (x := part_base INCOMING + off). vm_compute part_base. vm_compute part_size. lia.
Qed.

Lemma read_incoming {A B} (o : option B) c s t p k (f : list Z -> E A) Q :
  ctx_at c s t p -> 0 <= k ->
  (forall x, p !! Z.to_nat k = Some x -> attempt o (mem_at t) (f [x]) Q) ->
  jc_patch_position c + k < psize ->
  attempt o (mem_at t)
    (value <- ExternalFlashStorage_Read INCOMING
                (u32 (js_patch_offset stream + (jc_patch_position c + k))) 1 ;;
     match value with None => fail JANPATCH_PORT_PATCH_READ_FAILED | Some bs => f bs end) Q.
Proof.
  intros Hc Hk Hf Hlt. destruct Hs as [_ Ho _ He _]. pose proof (ca_patch _ _ _ _ Hc) as Hp.
  rewrite u32_small by (unfold is_u32 in *; lia).
  destruct (lookup_lt_is_Some_2 p (Z.to_nat k)) as [x Hx].
  { pose proof (ctx_left_len _ _ _ _ Hc). lia. }
  destruct (ctx_byte _ _ _ _ _ _ Hc Hk Hx) as [-> _].
  eapply (attempt_bind nowhere) with (S := fun r w => mem_at t w /\ forall bs, r = Some bs ->
    bs = [nor h0 (part_base INCOMING + js_patch_offset stream + (jc_patch_position c + k))]);
    [|by intros ? []|].
  - intros w Hw. eapply wp_mono; [apply (triple_Storage_Read INCOMING); [lia|lia|done]| |done].
    intros r w' [Hfr Hr]. assert (mem_at t w') as Hw'.
    { destruct Hw as [Hf0 Hn]. split.
      - eapply frame_trans; [exact Hf0|]. by eapply (frame_mono nowhere _ nowhere); [intros ? []|..].
      - rewrite (nor_slice_frame nowhere nowhere (w_hw w)); [done|done|by intros ? _ []]. }
    split_and!; [done..|]. intros bs ->. destruct (Hr bs eq_refl) as [Hb ->].
    rewrite nor_slice_1, (incoming_unchanged t), Z.add_assoc; [done..|].
    unfold in_partition. lia.
  - intros [bs|].
    + eapply attempt_pure with (phi := bs = _); [intros w [_ H]; by apply H|]. intros ->.
      eapply attempt_pre; [by apply Hf|]. by intros w [].
    + apply attempt_io. by left.
Qed.

Lemma refines_Peek c s t p k :
  ctx_at c s t p -> 0 <= k <= 1 ->
  refines (mem_at t) (PatchPeekByte stream c k) (p !! Z.to_nat k) (fun v b w => v = b /\ mem_at t w).
Proof.
  intros Hc Hk. pose proof (ctx_left_len _ _ _ _ Hc) as Hl. pose proof psize_u32 as Hu.
  pose proof (ca_patch _ _ _ _ Hc) as Hp. unfold is_u32 in Hu. unfold refines, PatchPeekByte.
  rewrite (u32_small (psize - _)) by (unfold is_u32; lia).
  destruct (Z.ltb_spec (psize - jc_patch_position c) k) as [Hlt|Hge].
  { apply attempt_fail; [done|]. apply lookup_ge_None_2. lia. }
  cbv zeta. rewrite (u32_small (jc_patch_position c + k)) by (unfold is_u32; lia).
  destruct (Z.leb_spec psize (jc_patch_position c + k)) as [Hle|Hgt].
  - apply attempt_fail; [done|]. apply lookup_ge_None_2. lia.
  - apply (read_incoming _ c s t p k); [done|lia| |done]. intros x Hx.
    rewrite byte_at_0. apply attempt_done. eauto.
Qed.

(** Peeking at a byte that is there. *)
Lemma attempt_peek {A B} (o : option B) c s t p n x (k : Z -> E A) Q :
  ctx_at c s t p -> 0 <= n <= 1 -> p !! Z.to_nat n = Some x ->
  attempt o (mem_at t) (k x) Q ->
  attempt o (mem_at t) (v <-? PatchPeekByte stream c n ;; k v) Q.
Proof.
  intros Hc Hn Hx Hk. eapply attempt_step; [by apply (refines_Peek c s t p n)|by rewrite Hx|].
  intros v y Hy. rewrite Hx in Hy. injection Hy as <-.
  apply (attempt_pure _ _ (v = x)); [by intros w []|]. intros ->.
  eapply attempt_pre; [exact Hk|]. by intros w [].
Qed.

Lemma refines_PatchReadByte c s t p :
  ctx_at c s t p ->
  refines (mem_at t) (PatchReadByte stream c) (match p with [] => None | x :: p' => Some (x, p') end)
    (fun '(c', v) '(x, p') w => v = x /\ c' = jc_set_patch (u32 (jc_patch_position c + 1)) c /\
       ctx_at c' s t p' /\ mem_at t w).
Proof.
  intros Hc. unfold refines, PatchReadByte. rewrite (ctx_left_nil _ _ _ _ Hc).
  pose proof (ctx_left_len _ _ _ _ Hc) as Hl.
  destruct p as [|x p']; cbn [bool_decide]; [by apply attempt_fail|].
  rewrite bool_decide_false by done. rewrite <- (Z.add_0_r (jc_patch_position c)) at 1.
  apply (read_incoming _ c s t (x :: p') 0); [done|lia| |cbn in Hl; lia].
  intros y [= <-]. rewrite byte_at_0. apply attempt_done. intros w Hw. exists (x, p').
  split_and!; [done..| |done]. by apply (ctx_advance c s t [x]).
Qed.

(** Reading a byte on the way to [o], which fails at the end of the patch. *)
Lemma attempt_byte {A B} (o : option B) c s t p (k : JanpatchContext_t * Z -> E A) Q :
  ctx_at c s t p -> (p = [] -> o = None) ->
  (forall c' x p', p = x :: p' -> ctx_at c' s t p' -> attempt o (mem_at t) (k (c', x)) Q) ->
  attempt o (mem_at t) (x <-? PatchReadByte stream c ;; k x) Q.
Proof.
  intros Hc Hn Hk. eapply attempt_step; [by apply refines_PatchReadByte|by destruct p; auto|].
  intros [c' v] [x p'] Hp. destruct p as [|y p1]; [done|]. injection Hp as -> ->.
  apply (attempt_pure _ _ (v = x /\ ctx_at c' s t p')); [intros w (? & _ & ? & _); done|].
  intros [-> Hc']. eapply attempt_pre; [by eapply Hk|]. by intros w (_ & _ & _ & ?).
Qed.

(** The end of a length of two or four bytes. *)
Lemma attempt_positive c' t p' n (R : JanpatchContext_t * Z -> Z * list Z -> World HW -> Prop) :
  0 <= n ->
  (0 < n -> forall w, mem_at t w -> R (c', n) (n, p') w) ->
  attempt (m ← positive n; Some (m, p')) (mem_at t)
    (if n <>? 0 then done_ (c', n) else fail JANPATCH_PORT_BAD_LENGTH)
    (fun a w => exists b, (m ← positive n; Some (m, p')) = Some b /\ R a b w).
Proof.
  intros Hn HR. unfold positive.
  destruct (Z.ltb_spec 0 n); destruct (Z.eqb_spec n 0); try lia; cbn.
  - apply attempt_done. eauto.
  - by apply attempt_fail.
Qed.

Lemma refines_ReadLength c s t p :
  ctx_at c s t p ->
  refines (mem_at t) (ReadLength stream c) (read_length p)
    (fun '(c', n) '(m, p') w => n = m /\ 0 < m < 2 ^ 32 /\ ctx_at c' s t p' /\ mem_at t w).
Proof.
  intros Hc. unfold refines, ReadLength.
  assert (bytes_ok p) as Hb.
  { rewrite <- (ca_left _ _ _ _ Hc). apply Forall_drop, nor_slice_ok. }
  apply (attempt_byte _ c s t p); [done|by intros ->|]. intros c1 x p1 -> Hc1.
  apply Forall_cons in Hb as [Hx Hb]. cbv beta iota. cbn [read_length].
  destruct (Z.leb_spec x 251) as [H251|H251].
  { rewrite (proj2 (Z.ltb_lt x 252)) by lia. apply attempt_done. intros w Hw.
    exists (x + 1, p1). unfold is_byte in Hx. split_and!; auto; lia. }
  rewrite (proj2 (Z.ltb_ge x 252)) by lia.
  destruct (x =? 252) eqn:E252.
  { apply (attempt_byte _ c1 s t p1); [done|by intros ->|]. intros c2 y p2 -> Hc2.
    apply Forall_cons in Hb as [Hy Hb]. apply attempt_done. intros w Hw.
    exists (253 + y, p2). unfold is_byte in Hy. split_and!; auto; lia. }
  destruct (x =? 253) eqn:E253.
  { apply (attempt_byte _ c1 s t p1); [done|by intros ->|]. intros c2 b0 p2 -> Hc2.
    apply Forall_cons in Hb as [H0 Hb].
    apply (attempt_byte _ c2 s t p2); [done|by intros ->|]. intros c3 b1 p3 -> Hc3.
    apply Forall_cons in Hb as [H1 Hb]. cbv beta iota zeta. rewrite be_number_2 by done.
    unfold is_byte in *.
    apply attempt_positive; [cbn; lia|]. intros Hn w Hw. split_and!; auto. cbn. lia. }
  destruct (x =? 254) eqn:E254; [|by apply attempt_fail].
  apply (attempt_byte _ c1 s t p1); [done|by intros ->|]. intros c2 b0 p2 -> Hc2.
  apply Forall_cons in Hb as [H0 Hb].
  apply (attempt_byte _ c2 s t p2); [done|by intros ->|]. intros c3 b1 p3 -> Hc3.
  apply Forall_cons in Hb as [H1 Hb].
  apply (attempt_byte _ c3 s t p3); [done|by intros ->|]. intros c4 b2 p4 -> Hc4.
  apply Forall_cons in Hb as [H2 Hb].
  apply (attempt_byte _ c4 s t p4); [done|by intros ->|]. intros c5 b3 p5 -> Hc5.
  apply Forall_cons in Hb as [H3 Hb]. cbv beta iota zeta. rewrite be_number_4 by done.
  unfold is_byte in *.
  apply attempt_positive; [cbn; lia|]. intros Hn w Hw. split_and!; auto. cbn. lia.
Qed.

(** ** Writing the target *)

Lemma refines_TargetWrite c s t p data :
  ctx_at c s t p ->
  refines (mem_at t) (TargetWrite stream c data (len data))
    (if len t + len data <=? tsize then Some (t ++ data) else None)
    (fun c' t' w => c' = jc_set_target (len t') c /\ ctx_at c' s t' p /\ mem_at t' w).
Proof.
  intros Hc. destruct Hs as [_ _ _ _ Ht]. unfold is_u32 in Ht. destruct Hc as [H1 H2 H3 H4 H5 H6].
  unfold refines, TargetWrite. rewrite H3, (u32_small (tsize - _)) by (unfold is_u32; lia).
  rewrite (proj2 (Z.ltb_ge tsize (len t))) by lia. cbn [orb].
  destruct (Z.ltb_spec (tsize - len t) (len data)) as [Hlt|Hge].
  { apply attempt_fail; [done|]. by rewrite (proj2 (Z.leb_gt _ _)) by lia. }
  rewrite (proj2 (Z.leb_le _ _)) by lia.
  eapply (attempt_bind (in_partition RECONSTRUCTED)) with
    (S := fun ok w => ok = true -> mem_at (t ++ data) w); [|done|].
  - destruct (Z.eqb_spec (len data) 0) as [H0|H0].
    { apply triple_ret. intros w Hw _. destruct data; [|cbn in H0; lia]. by rewrite app_nil_r. }
    intros w [Hf Hn]. eapply wp_mono; [apply (triple_Storage_Write RECONSTRUCTED (len t)); [lia|done|done]| |].
    + intros ok w' [Hf' Hok]. split.
      { eapply frame_mono; [..|exact Hf']; [by intros a []|done]. }
      intros He. destruct (Hok He) as [_ Hd]. split.
      * eapply frame_trans; [exact Hf|]. eapply frame_mono; [..|exact Hf']; [by intros a []|done].
      * rewrite length_app, Nat2Z.inj_add, nor_slice_app, Hd by lia. f_equal.
        rewrite (nor_slice_frame _ _ _ _ _ _ Hf'); [done|]. intros a Ha [? _]. lia.
    + intros h Hf'. eapply frame_mono; [..|exact Hf']; [by intros a []|done].
  - intros [|]; cbn [negb].
    + apply attempt_done. intros w Hw. exists (t ++ data).
      assert (len (t ++ data) = len t + len data) as Hla by (rewrite length_app; lia).
      rewrite Hla, u32_small by (unfold is_u32; lia).
      split_and!; [done|done| |by apply Hw]. split; cbn; try done; lia.
    + apply attempt_io. by right.
Qed.

(** ** The operations *)

Lemma refines_ReadSource t s n :
  0 <= s -> 0 <= n ->
  refines (mem_at t) (ReadSource s n) (if s + n <=? len base_of then Some (slice s n base_of) else None)
    (fun bs b w => bs = b /\ mem_at t w).
Proof.
  intros H0 Hn. unfold refines, ReadSource. rewrite base_len.
  destruct (Z.ltb_spec APPLICATION_MAX_SIZE s) as [Hs'|Hs'].
  { apply attempt_fail; [done|]. by rewrite (proj2 (Z.leb_gt _ _)) by lia. }
  rewrite u32_small by (unfold is_u32; map_lia). cbn [orb].
  destruct (Z.ltb_spec (APPLICATION_MAX_SIZE - s) n) as [Hn'|Hn'].
  { apply attempt_fail; [done|]. by rewrite (proj2 (Z.leb_gt _ _)) by lia. }
  rewrite (proj2 (Z.leb_le _ _)) by lia. rewrite u32_small by (unfold is_u32; map_lia).
  eapply (attempt_bind nowhere); [eapply triple_conseq; [apply (triple_flash_read nowhere nowhere (mem_at t))|..];
    [done|done|done|intros bs w H; exact H]|by intros ? []|].
  intros bs. apply attempt_done. intros w [Hw ->]. exists (slice s n base_of). split_and!; [done| |done].
  unfold base_of. rewrite slice_flash_slice by lia. destruct Hw as [Hf _].
  symmetry. rewrite <- (flash_slice_frame _ _ _ _ _ _ Hf); [done|]. by intros ? _ [].
Qed.

Lemma source_exceeds_spec c s t p n :
  ctx_at c s t p -> source_exceeds stream c n = (bsize <? s + n).
Proof.
  intros [H1 H2 _ _ _ _]. destruct Hs as [Hb _ _ _ _]. unfold is_u32 in Hb.
  unfold source_exceeds. rewrite H1, u32_small by (unfold is_u32; lia).
  destruct (Z.ltb_spec bsize s), (Z.ltb_spec (bsize - s) n), (Z.ltb_spec bsize (s + n)); lia || done.
Qed.

(** The context and the memory after an operation. *)
Definition after_op (p : list Z) (c : JanpatchContext_t) (x : Z * list Z) w : Prop :=
  ctx_at c x.1 x.2 p /\ mem_at x.2 w.

(** Moves of the source, and changes of the counters. *)
Lemma ctx_source c s t p s' :
  ctx_at c s t p -> 0 <= s' <= bsize -> ctx_at (jc_set_source s' c) s' t p.
Proof. intros [H1 H2 H3 H4 H5 H6] ?. by split. Qed.

Lemma ctx_result c s t p r : ctx_at c s t p -> ctx_at (jc_set_result r c) s t p.
Proof. intros [H1 H2 H3 H4 H5 H6]. by split. Qed.

Lemma apply_EQL_None s t n :
  apply_op base_of bsize tsize (EQL n) (s, t) = None <->
  bsize < s + n \/ len base_of < s + n \/ tsize < len t + n.
Proof.
  unfold apply_op.
  destruct (Z.leb_spec (s + n) bsize), (Z.leb_spec (s + n) (len base_of)),
    (Z.leb_spec (len t + n) tsize); cbn; split; try done; try lia; auto.
Qed.

Lemma apply_EQL_Some s t n :
  0 <= s -> 0 < n -> s + n <= bsize -> len (slice s n base_of) = n -> len t + n <= tsize ->
  apply_op base_of bsize tsize (EQL n) (s, t) = Some (s + n, t ++ slice s n base_of).
Proof.
  intros H0 Hn Hb Hl Ht. assert (s + n <= len base_of) as Hle.
  { unfold slice in Hl. rewrite length_take, length_drop in Hl. lia. }
  unfold apply_op. by rewrite !(proj2 (Z.leb_le _ _)) by lia.
Qed.

(** [n - r] bytes have been copied. *)
Definition copied (s n : Z) (t p : list Z) (x : JanpatchContext_t * Z) w : Prop :=
  let got := slice s (n - x.2) base_of in
  0 <= x.2 <= n /\ len got = n - x.2 /\ after_op p x.1 (s + (n - x.2), t ++ got) w.

(** One pass of the loop. *)
Lemma copied_step s n t p (o : option (Z * list Z)) c r :
  o = apply_op base_of bsize tsize (EQL n) (s, t) ->
  0 <= s -> s + n <= bsize -> 0 < r -> n < 2 ^ 32 ->
  let chunk := if JANPATCH_IO_BUFFER_SIZE <? r then JANPATCH_IO_BUFFER_SIZE else r in
  attempt o (copied s n t p (c, r))
    (buffer <-? ReadSource (jc_source_position c) chunk ;;
     c <-? TargetWrite stream c buffer chunk ;;
     let c := jc_set_source (u32 (jc_source_position c + chunk)) c in
     let c := jc_set_result (jr_add_equal chunk (jc_result c)) c in
     done_ (inl (c, u32 (r - chunk))))
    (fun (x : JanpatchContext_t * Z + JanpatchContext_t) w => match x with
       | inl y => copied s n t p y w /\ y.2 < r
       | inr _ => False
       end).
Proof.
  intros Ho Hs0 Hsn Hr Hn chunk. assert (is_u32 bsize) as Hbu by apply Hs. unfold is_u32 in Hbu.
  assert (0 < chunk <= r) as Hck.
  { unfold chunk, JANPATCH_IO_BUFFER_SIZE. destruct (Z.ltb_spec 128 r); lia. }
  clearbody chunk. apply (attempt_pure _ _ (0 <= r <= n /\ len (slice s (n - r) base_of) = n - r /\
    ctx_at c (s + (n - r)) (t ++ slice s (n - r) base_of) p)).
  { by intros w (? & ? & ? & _). }
  intros (Hrn & Hl & Hc). set (got := slice s (n - r) base_of) in *.
  rewrite (ca_source _ _ _ _ Hc).
  apply (attempt_pre _ (mem_at (t ++ got))); [|by intros w (_ & _ & _ & ?)].
  eapply attempt_step; [apply refines_ReadSource; lia| |].
  { destruct (Z.leb_spec (s + (n - r) + chunk) (len base_of)) as [|Hb]; [done|]. intros _.
    rewrite Ho. apply apply_EQL_None. lia. }
  intros buffer b Hb. destruct (Z.leb_spec (s + (n - r) + chunk) (len base_of)) as [Hle|]; [|done].
  injection Hb as <-. set (more := slice (s + (n - r)) chunk base_of).
  assert (len more = chunk) as Hm by (apply slice_length; lia).
  apply (attempt_pure _ _ (buffer = more)); [by intros w []|]. intros ->.
  apply (attempt_pre _ (mem_at (t ++ got))); [|by intros w []].
  rewrite <- Hm at 1. assert (len (t ++ got) = len t + (n - r)) as Htg by (rewrite length_app; lia).
  eapply attempt_step; [by apply refines_TargetWrite| |].
  { rewrite Htg, Hm. destruct (Z.leb_spec (len t + (n - r) + chunk) tsize); [done|]. intros _.
    rewrite Ho. apply apply_EQL_None. lia. }
  intros c' t' Ht'. destruct (_ <=? tsize); [|done]. injection Ht' as <-.
  assert (slice s (n - (r - chunk)) base_of = got ++ more) as Hgm.
  { replace (n - (r - chunk)) with ((n - r) + chunk) by lia. symmetry. apply slice_app_adjacent; lia. }
  apply attempt_done. intros w (-> & Hc' & Hw). cbn [jc_set_target jc_source_position].
  rewrite (ca_source _ _ _ _ Hc), !u32_small by (unfold is_u32; lia).
  unfold copied. cbn [fst snd]. rewrite Hgm. split_and!; [lia|lia| | |lia].
  - rewrite length_app. lia.
  - rewrite app_assoc. split; [|done]. cbn [fst snd].
    replace (s + (n - (r - chunk))) with (s + (n - r) + chunk) by lia.
    apply ctx_result. eapply ctx_source; [done|lia].
Qed.

Lemma refines_CopyEqual c s t p n :
  ctx_at c s t p -> 0 < n < 2 ^ 32 ->
  refines (mem_at t) (CopyEqual stream c n) (apply_op base_of bsize tsize (EQL n) (s, t)) (after_op p).
Proof.
  intros Hc Hn. unfold refines, CopyEqual. rewrite (source_exceeds_spec _ _ _ _ _ Hc).
  set (o := apply_op _ _ _ _ _). assert (o = apply_op base_of bsize tsize (EQL n) (s, t)) as Ho by done.
  clearbody o. apply attempt_if; intros Hb.
  { apply Z.ltb_lt in Hb. apply attempt_fail; [done|]. rewrite Ho. apply apply_EQL_None. lia. }
  apply Z.ltb_ge in Hb. pose proof (ca_base _ _ _ _ Hc) as Hsb.
  apply (attempt_pre _ (copied s n t p (c, n))).
  2: { intros w Hw. unfold copied, after_op. cbn [fst snd]. rewrite Z.sub_diag, Z.add_0_r.
       unfold slice. rewrite take_0, app_nil_r. split_and!; done || lia. }
  apply (attempt_loop _ (copied s n t p) (fun x => Z.max 0 x.2)); [|cbn; lia].
  intros [c1 r] _. destruct (Z.eqb_spec r 0) as [->|Hr].
  - apply attempt_done. intros w (_ & Hl & Hc1 & Hw). cbn [fst snd] in *. rewrite Z.sub_0_r in *.
    exists (s + n, t ++ slice s n base_of). split; [|by split].
    pose proof (ca_tsize _ _ _ _ Hc1) as Ht. rewrite length_app in Ht.
    rewrite Ho. apply apply_EQL_Some; lia.
  - apply (attempt_pure _ _ (0 <= r <= n)); [by intros w []|]. intros Hrn.
    eapply attempt_mono; [apply (copied_step s n t p o c1 r); [done|lia..]|done|].
    intros [y|c2] w; [|done]. cbn [snd]. intros [Hy ?]. split; [done|]. destruct Hy as [? _]. lia.
Qed.

(** ** Literals *)

Section literals.
Context (adv : bool).

Definition lit (bs : list Z) : JOp := if adv then MOD bs else INS bs.

Abbreviation apply_lit bs x := (apply_op base_of bsize tsize (lit bs) x).

(** A literal may be applied in pieces, as the buffer fills. *)
Lemma apply_lit_app a b x :
  apply_lit (a ++ b) x = (x' ← apply_lit a x; apply_lit b x').
Proof.
  destruct x as [s t]. unfold lit. destruct adv; cbn [apply_op]; rewrite length_app, Nat2Z.inj_add.
  - destruct (Z.leb_spec (s + len a) bsize), (Z.leb_spec (len t + len a) tsize); cbn;
      rewrite ?length_app, ?Nat2Z.inj_add, ?app_assoc, ?Z.add_assoc; try done;
      destruct (Z.leb_spec (s + len a + len b) bsize), (Z.leb_spec (len t + len a + len b) tsize);
      cbn; done || lia.
  - destruct (Z.leb_spec (len t + len a) tsize); cbn;
      rewrite ?length_app, ?Nat2Z.inj_add, ?app_assoc, ?Z.add_assoc; try done.
    destruct (Z.leb_spec (len t + len a + len b) tsize); cbn; done || lia.
Qed.

Lemma apply_lit_nil s t : s <= bsize -> len t <= tsize -> apply_lit [] (s, t) = Some (s, t).
Proof.
  intros. unfold lit. destruct adv; cbn [apply_op]; cbn [length];
    rewrite ?Z.add_0_r, ?app_nil_r, ?(proj2 (Z.leb_le s _)), ?(proj2 (Z.leb_le (len t) _)); done.
Qed.

Lemma refines_FlushLiteral c s t p buffer total :
  ctx_at c s t p ->
  refines (mem_at t) (FlushLiteral stream c buffer adv total) (apply_lit buffer (s, t))
    (fun y x w => after_op p y.1 x w).
Proof.
  intros Hc. unfold refines, FlushLiteral. cbv zeta. set (o := apply_lit buffer (s, t)).
  pose proof (ca_base _ _ _ _ Hc) as Hsb. assert (is_u32 bsize) as Hbu by apply Hs. unfold is_u32 in Hbu.
  eapply attempt_step; [by apply refines_TargetWrite| |].
  { unfold o, lit. destruct adv; cbn [apply_op]; destruct (_ <=? tsize); try done.
    by rewrite andb_false_r. }
  intros c' t' Ht. destruct (len t + len buffer <=? tsize) eqn:Et; [|done]. injection Ht as <-.
  apply (attempt_pure _ _ (ctx_at c' s (t ++ buffer) p)); [by intros w (_ & ? & _)|]. intros Hc'.
  apply (attempt_pre _ (mem_at (t ++ buffer))); [|by intros w (_ & _ & ?)].
  unfold o, lit. destruct adv; cbn [apply_op]; rewrite Et.
  - rewrite (source_exceeds_spec _ _ _ _ _ Hc'), andb_true_r.
    destruct (Z.ltb_spec bsize (s + len buffer)) as [Hlt|Hge].
    + apply attempt_fail; [done|]. by rewrite (proj2 (Z.leb_gt _ _)) by lia.
    + rewrite (proj2 (Z.leb_le _ _)) by lia. apply attempt_done. intros w Hw.
      exists (s + len buffer, t ++ buffer). split; [done|]. split; [|done]. cbn [fst snd].
      rewrite (ca_source _ _ _ _ Hc'), u32_small by (unfold is_u32; lia).
      eapply ctx_source; [done|lia].
  - apply attempt_done. intros w Hw. exists (s, t ++ buffer). by split.
Qed.

(** The literal of the patch [p0], read from the state [x0]: a piece has been
    applied, the buffer follows and then [q]; [rest] is behind the literal. *)
Section one_literal.
Context (x0 : Z * list Z) (p0 : list Z).

Definition literal_result : option ((Z * list Z) * list Z) :=
  x ← apply_lit (literal p0).1 x0; Some (x, (literal p0).2).

Definition lit_at (c : JanpatchContext_t) (buffer p q rest : list Z) w : Prop :=
  exists x l, apply_lit l x0 = Some x /\ after_op p c x w /\
    literal p0 = (l ++ buffer ++ q, rest).

Lemma attempt_open {A B} (o : option B) c buffer p q rest (m : E A) Q :
  (forall s t l, apply_lit l x0 = Some (s, t) -> ctx_at c s t p ->
     literal p0 = (l ++ buffer ++ q, rest) -> attempt o (mem_at t) m Q) ->
  attempt o (lit_at c buffer p q rest) m Q.
Proof.
  intros H. apply attempt_exists. intros [s t]. apply attempt_exists. intros l.
  apply (attempt_pure _ _ (apply_lit l x0 = Some (s, t) /\ ctx_at c s t p /\
    literal p0 = (l ++ buffer ++ q, rest))); [intros w (? & [? _] & ?); done|].
  intros (Hl & Hc & Hp). eapply attempt_pre; [by eapply H|]. by intros w (_ & [_ ?] & _).
Qed.

(** If a piece does not fit, the literal does not. *)
Lemma literal_result_None l x buffer q rest :
  apply_lit l x0 = Some x -> literal p0 = (l ++ buffer ++ q, rest) ->
  apply_lit buffer x = None -> literal_result = None.
Proof.
  intros Hl Hp Hb. unfold literal_result. rewrite Hp. cbn [fst snd].
  rewrite apply_lit_app, Hl. cbn. by rewrite apply_lit_app, Hb.
Qed.

Lemma attempt_FlushIfFull c buffer p q rest total :
  len buffer <= JANPATCH_IO_BUFFER_SIZE ->
  attempt literal_result (lit_at c buffer p q rest) (FlushIfFull stream c buffer adv total)
    (fun y w => len y.1.2 < JANPATCH_IO_BUFFER_SIZE /\ lit_at y.1.1 y.1.2 p q rest w).
Proof.
  intros Hb. unfold FlushIfFull. destruct (Z.eqb_spec (len buffer) JANPATCH_IO_BUFFER_SIZE) as [He|He].
  - apply attempt_open. intros s t l Hl Hc Hp.
    eapply attempt_step; [by apply refines_FlushLiteral|by eapply literal_result_None|].
    intros [c' total'] x Hx. apply attempt_done. intros w Hw. cbn [fst snd] in *.
    split; [done|]. exists x, (l ++ buffer). rewrite apply_lit_app, Hl. split_and!; [done|done..|].
    by rewrite <- app_assoc.
  - apply attempt_done. intros w Hw. cbn [fst snd]. split; [lia|done].
Qed.

(** Between two passes, and at the end of the literal. *)
Definition lit_state (x : JanpatchContext_t * list Z * Z) w : Prop :=
  exists p, len x.1.2 < JANPATCH_IO_BUFFER_SIZE /\
    lit_at x.1.1 x.1.2 p (literal p).1 (literal p).2 w.

Definition lit_end (x : JanpatchContext_t * list Z * Z) w : Prop :=
  exists p, lit_at x.1.1 x.1.2 p [] p w.

(** What a pass from the context [c] leaves. *)
Definition literal_post (c : JanpatchContext_t)
    (y : JanpatchContext_t * list Z * Z + JanpatchContext_t * list Z * Z) w : Prop :=
  match y with
  | inl x => lit_state x w /\ jc_patch_position c < jc_patch_position x.1.1 <= psize
  | inr x => lit_end x w
  end.

Lemma lit_at_left c buffer p q rest w :
  lit_at c buffer p q rest w -> jc_patch_position c = psize - len p.
Proof. intros (x & l & _ & [Hc _] & _). pose proof (ctx_left_len _ _ _ _ Hc). lia. Qed.

(** A pass that ends with the test for a full buffer. *)
Lemma attempt_literal_next c c' s t p buffer l total :
  apply_lit l x0 = Some (s, t) -> ctx_at c' s t p ->
  literal p0 = (l ++ buffer ++ (literal p).1, (literal p).2) ->
  len buffer <= JANPATCH_IO_BUFFER_SIZE -> jc_patch_position c < psize - len p ->
  attempt literal_result (mem_at t)
    (x <-? FlushIfFull stream c' buffer adv total ;; done_ (inl x)) (literal_post c).
Proof.
  intros Hl Hc Hp Hb Hpos.
  apply (attempt_pre _ (lit_at c' buffer p (literal p).1 (literal p).2)).
  2: { intros w Hw. exists (s, t), l. by split_and!. }
  eapply attempt_try; [by apply attempt_FlushIfFull|]. intros [[c1 b1] t1]. cbn [fst snd].
  apply attempt_done. intros w [Hb1 Hw]. pose proof (lit_at_left _ _ _ _ _ _ Hw) as Hleft.
  split; [by exists p|]. cbn [fst]. lia.
Qed.

(** An escaped byte that is no letter stands for itself and the escape: the
    buffer may be written between the two. *)
Lemma attempt_escaped_pair c c' buffer p y total P :
  len buffer < JANPATCH_IO_BUFFER_SIZE -> jc_patch_position c < psize - len p ->
  (forall w, P w -> lit_at c' (buffer ++ [ESC]) p (y :: (literal p).1) (literal p).2 w) ->
  attempt literal_result P
    (try (FlushIfFull stream c' (buffer ++ [ESC]) adv total) (fun '(c, buffer, total) =>
       x <-? FlushIfFull stream c (buffer ++ [y]) adv total ;; done_ (inl x))) (literal_post c).
Proof.
  intros Hb Hpos HP. eapply attempt_pre; [|exact HP].
  eapply attempt_try; [apply attempt_FlushIfFull; rewrite length_app; cbn; lia|].
  intros [[c3 b3] t3]. cbn [fst snd].
  apply (attempt_pure _ _ (len b3 < JANPATCH_IO_BUFFER_SIZE)); [by intros w []|]. intros Hb3.
  eapply attempt_pre; [|by intros w [_ Hw]; exact Hw]. apply attempt_open. intros s t l Hl Hc Hp.
  apply (attempt_literal_next c _ s t p _ l); [done|done| |rewrite length_app; cbn; lia|lia].
  by rewrite Hp, <- app_assoc.
Qed.

Lemma attempt_LiteralStep c buffer total :
  attempt literal_result (lit_state (c, buffer, total)) (LiteralStep stream adv (c, buffer, total))
    (literal_post c).
Proof.
  apply attempt_exists. intros p. cbn [fst snd].
  apply (attempt_pure _ _ (len buffer < JANPATCH_IO_BUFFER_SIZE)); [by intros w []|]. intros Hb.
  apply (attempt_pre _ (lit_at c buffer p (literal p).1 (literal p).2)); [|by intros w []].
  apply attempt_open. intros s t l Hl Hc Hp.
  pose proof (ctx_left_len _ _ _ _ Hc) as Hleft. pose proof psize_u32 as Hu. unfold is_u32 in Hu.
  pose proof (ca_patch _ _ _ _ Hc) as Hpos.
  unfold LiteralStep. rewrite (ctx_left_nil _ _ _ _ Hc). destruct p as [|v p1].
  { apply attempt_done. intros w Hw. exists [], (s, t), l. by split_and!. }
  rewrite bool_decide_false by done.
  apply (attempt_peek _ c s t (v :: p1) 0 v); [done|lia|done|].
  change JDIFF_ESC with ESC. cbn [literal] in Hp. destruct (Z.eqb_spec v ESC) as [->|Hv]; cbn [negb].
  2: { destruct (literal p1) as [q rest] eqn:Eq. cbn [fst snd] in Hp.
       eapply attempt_byte; [exact Hc|done|]. intros c1 y p2 [= <- <-] Hc1. cbn [length] in Hleft.
       apply (attempt_literal_next c c1 s t p1 _ l); [done|done| |rewrite length_app; cbn; lia|lia].
       rewrite Eq, Hp. cbn [fst snd]. by rewrite <- app_assoc. }
  pose proof (ctx_advance c s t [ESC] p1 Hc) as Hc1. cbn [length] in Hc1, Hleft.
  change (Z.of_nat 1) with 1 in Hc1.
  pose proof (ctx_left_nil _ _ _ _ Hc1) as Hn1. cbn [jc_set_patch jc_patch_position] in Hn1.
  rewrite Hn1. destruct p1 as [|y p2].
  { apply attempt_done. intros w Hw. exists [], (s, t), l. by split_and!. }
  rewrite bool_decide_false by done. cbn [length] in Hleft.
  apply (attempt_peek _ c s t (ESC :: y :: p2) 1 y); [done|lia|done|].
  pose proof (ctx_advance c s t [ESC; y] p2 Hc) as Hc2. change (len [ESC; y]) with 2 in Hc2.
  rewrite IsOpcode_letters. destruct (y =? ESC).
  { destruct (literal p2) as [q rest] eqn:Eq. cbn [fst snd] in Hp. cbv zeta.
    apply (attempt_literal_next c _ s t p2 _ l); [done|done| |rewrite length_app; cbn; lia|lia].
    rewrite Eq, Hp. cbn [fst snd]. by rewrite <- app_assoc. }
  destruct (bool_decide (y ∈ letters)).
  { apply attempt_done. intros w Hw. exists (ESC :: y :: p2), (s, t), l. cbn [fst snd] in Hp |- *.
    by split_and!. }
  apply (attempt_escaped_pair _ _ _ p2); [done|cbn [length] in *; lia|].
  intros w Hw. exists (s, t), l. split_and!; [done..|]. destruct (literal p2). cbn [fst snd] in Hp |- *.
  by rewrite Hp, <- app_assoc.
Qed.

Lemma refines_ConsumeLiteral c :
  ctx_at c x0.1 x0.2 p0 ->
  refines (mem_at x0.2) (ConsumeLiteral stream c adv) literal_result
    (fun y z w => after_op z.2 y.1 z.1 w).
Proof.
  intros Hc. pose proof (ca_patch _ _ _ _ Hc) as Hpos. unfold refines, ConsumeLiteral.
  eapply attempt_try with (Q := lit_end).
  - apply (attempt_pre _ (lit_state (c, [], 0))).
    2: { intros w Hw. exists p0. split; [done|]. exists x0, []. split_and!; [|done..|].
         - destruct x0 as [s t]. apply apply_lit_nil; [apply (ca_base _ _ _ _ Hc)|apply (ca_tsize _ _ _ _ Hc)].
         - by destruct (literal p0). }
    apply (attempt_loop _ lit_state (fun x => Z.max 0 (psize - jc_patch_position x.1.1))); [|cbn; lia].
    intros [[c1 b1] t1] _. eapply attempt_mono; [apply attempt_LiteralStep|done|].
    intros [x|x] w; [|done]. cbn [literal_post fst snd]. intros [? ?]. split; [done|]. lia.
  - intros [[c1 b1] t1]. apply attempt_exists. intros p. cbn [fst snd].
    apply attempt_open. intros s t l Hl Hc1 Hp. rewrite app_nil_r in Hp.
    unfold literal_result. rewrite Hp. cbn [fst snd]. rewrite apply_lit_app, Hl. cbn [mbind option_bind].
    destruct (Z.eqb_spec (len b1) 0) as [Hb|Hb]; cbn [negb].
    + apply attempt_done. intros w Hw. destruct b1; [|cbn in Hb; lia]. exists ((s, t), p).
      rewrite apply_lit_nil; [split; [done|by split]| |]; [apply (ca_base _ _ _ _ Hc1)|apply (ca_tsize _ _ _ _ Hc1)].
    + eapply attempt_mono; [by apply (refines_FlushLiteral c1 s t p)|by intros ->|].
      intros y w (x & -> & Hx). by exists (x, p).
Qed.

End one_literal.
End literals.

(** ** The loop over the operations *)

Lemma refines_NextOpcode c s t p :
  ctx_at c s t p ->
  refines (mem_at t) (NextOpcode stream c) (read_letter p)
    (fun y z w => y.2 = z.1 /\ ctx_at y.1 s t z.2 /\ mem_at t w).
Proof.
  intros Hc. unfold refines, NextOpcode. destruct p as [|x p1].
  { apply (attempt_step (@None Z) _ _ _ _ (fun v b w => v = b /\ mem_at t w));
      [by apply (refines_Peek c s t [] 0)|done|by intros ? ?]. }
  apply (attempt_peek _ c s t (x :: p1) 0 x); [done|lia|done|]. cbn [read_letter].
  change JDIFF_ESC with ESC. destruct (Z.eqb_spec x ESC) as [->|Hx].
  2: { apply attempt_done. intros w Hw. by exists (0xA6, x :: p1). }
  pose proof (ctx_left_nil _ _ _ _ (ctx_advance c s t [ESC] p1 Hc)) as Hn1.
  change (len [ESC]) with 1 in Hn1. cbn [jc_set_patch jc_patch_position] in Hn1. rewrite Hn1.
  destruct p1 as [|y p2]; [by apply attempt_fail|]. rewrite (bool_decide_false (y :: p2 = [])) by done.
  apply (attempt_peek _ c s t (ESC :: y :: p2) 1 y); [done|lia|done|].
  rewrite IsOpcode_letters. destruct (bool_decide (y ∈ letters)).
  - apply attempt_done. intros w Hw. exists (y, p2). split_and!; [done..| |done].
    by apply (ctx_advance c s t [ESC; y]).
  - apply attempt_done. intros w Hw. by exists (0xA6, ESC :: y :: p2).
Qed.

(** The body of an operation and its effect. *)
Definition body_result (letter : Z) (p : list Z) (x : Z * list Z) : option ((Z * list Z) * list Z) :=
  '(op, rest) ← read_body letter p; x' ← apply_op base_of bsize tsize op x; Some (x', rest).

Lemma body_result_literal (adv : bool) p x :
  body_result (if adv then 0xA6 else 0xA5) p x = literal_result adv x p.
Proof. unfold body_result, literal_result, lit. destruct adv; cbn; by destruct (literal p). Qed.

(** A move of the source by a length. *)
Lemma attempt_move c s t p (b : bool) s' r (x : option (Z * list Z)) :
  ctx_at c s t p -> (b = true -> x = None) -> (b = false -> x = Some (s', t) /\ 0 <= s' <= bsize) ->
  attempt (x' ← x; Some (x', p)) (mem_at t)
    (if b then fail JANPATCH_PORT_SOURCE_RANGE
     else done_ (jc_set_result r (jc_set_source (u32 s') c)))
    (fun c' w => exists z, (x' ← x; Some (x', p)) = Some z /\ after_op z.2 c' z.1 w).
Proof.
  intros Hc Hb Hx. assert (is_u32 bsize) as Hbu by apply Hs. unfold is_u32 in Hbu.
  destruct b; [apply attempt_fail; [done|]; by rewrite Hb|].
  destruct (Hx eq_refl) as [-> Hs']. apply attempt_done. intros w Hw. exists ((s', t), p).
  split; [done|]. split; [|done]. cbn [fst snd]. rewrite u32_small by (unfold is_u32; lia).
  apply ctx_result. by eapply ctx_source.
Qed.

(** [Some a ≫= f] is [f a], and no more is unfolded. *)
Ltac bind_some :=
  repeat (match goal with |- context [Some ?a ≫= ?f] => change (Some a ≫= f) with (f a) end;
          cbv beta iota).

Lemma refines_ApplyOperation c s t p letter :
  ctx_at c s t p ->
  refines (mem_at t) (ApplyOperation stream c letter) (body_result letter p (s, t))
    (fun c' z w => after_op z.2 c' z.1 w).
Proof.
  intros Hc. unfold refines, ApplyOperation.
  unfold JDIFF_EQL, JDIFF_DEL, JDIFF_BKT, JDIFF_MOD, JDIFF_INS.
  destruct (Z.eqb_spec letter 0xA6) as [->|H6]; [|destruct (Z.eqb_spec letter 0xA5) as [->|H5]].
  1: rewrite (body_result_literal true). 2: rewrite (body_result_literal false).
  1,2: cbn [Z.eqb Pos.eqb orb];
    eapply attempt_step; [by apply (refines_ConsumeLiteral _ (s, t) p)|done|];
    intros [c' n] z Hz; apply attempt_done; intros w [Hc' Hw]; exists z; split; [done|];
    split; [by apply ctx_result|done].
  unfold body_result, read_body. rewrite (proj2 (Z.eqb_neq _ _) H6), (proj2 (Z.eqb_neq _ _) H5).
  destruct (_ || _)%bool eqn:Hl.
  2: { apply attempt_fail; [done|]. rewrite !orb_false_iff in Hl. destruct Hl as [[-> ->] ->]. done. }
  eapply attempt_step; [by apply refines_ReadLength|intros ->; by repeat destruct (_ =? _)|].
  intros [c' n] [m p'] Hr. apply (attempt_pure _ _ (n = m /\ 0 < m < 2 ^ 32 /\ ctx_at c' s t p'));
    [intros w (? & ? & ? & _); done|]. intros (-> & Hm & Hc').
  apply (attempt_pre _ (mem_at t)); [|intros w (_ & _ & _ & ?); done]. rewrite Hr.
  pose proof (ca_base _ _ _ _ Hc') as Hsb.
  destruct (letter =? 0xA3) eqn:E3; [apply Z.eqb_eq in E3 as ->; cbn [Z.eqb Pos.eqb]|].
  { bind_some. eapply attempt_mono; [by apply refines_CopyEqual|by intros ->|].
    intros c2 w (x & -> & Hx). by exists (x, p'). }
  destruct (letter =? 0xA4) eqn:E4.
  - bind_some. cbn [apply_op].
    rewrite (source_exceeds_spec _ _ _ _ _ Hc'), (ca_source _ _ _ _ Hc').
    apply (attempt_move _ s); [done|intros Hb|intros Hb].
    + apply Z.ltb_lt in Hb. by rewrite (proj2 (Z.leb_gt _ _)) by lia.
    + apply Z.ltb_ge in Hb. rewrite (proj2 (Z.leb_le _ _)) by lia. split; [done|lia].
  - destruct (letter =? 0xA2) eqn:E2; [|done]. bind_some. cbn [apply_op].
    rewrite (ca_source _ _ _ _ Hc'). apply (attempt_move _ s); [done|intros Hb|intros Hb].
    + apply Z.ltb_lt in Hb. by rewrite (proj2 (Z.leb_gt _ _)) by lia.
    + apply Z.ltb_ge in Hb. rewrite (proj2 (Z.leb_le _ _)) by lia. split; [done|lia].
Qed.

(** Between two operations: what is left of the patch gives the result. *)
Definition running (c : JanpatchContext_t) w : Prop :=
  exists p x, after_op p c x w /\
    rest_result base_of bsize tsize p x = rest_result base_of bsize tsize patch_of (0, []).

(** One operation of the reference, with the letter and the body apart. *)
Lemma rest_result_letter p x :
  p <> [] ->
  rest_result base_of bsize tsize p x =
    ('(letter, p1) ← read_letter p; '(x', p2) ← body_result letter p1 x;
     rest_result base_of bsize tsize p2 x').
Proof.
  intros Hp. rewrite rest_result_step by done. unfold read_op, body_result.
  destruct (read_letter p) as [[letter p1]|]; [|done]. bind_some.
  destruct (read_body letter p1) as [[op p2]|]; [|done]. bind_some.
  by destruct (apply_op base_of bsize tsize op x).
Qed.

Lemma body_shorter p letter p1 x x' p2 :
  read_letter p = Some (letter, p1) -> body_result letter p1 x = Some (x', p2) ->
  (length p2 < length p)%nat.
Proof.
  intros Hl. unfold body_result. destruct (read_body letter p1) as [[op p3]|] eqn:E; [|done].
  bind_some. destruct (apply_op base_of bsize tsize op x); [|done]. intros [= <- <-].
  apply (read_op_shorter p op). unfold read_op. by rewrite Hl.
Qed.

Lemma refines_ApplyLoop :
  refines (mem_at []) (ApplyLoop stream) (rest_result base_of bsize tsize patch_of (0, []))
    (after_op []).
Proof.
  pose proof Hs as [Hb _ Hp _ Ht]. unfold is_u32 in *. unfold refines, ApplyLoop.
  set (c0 := mkJanpatchContext _ _ _ _).
  apply (attempt_pre _ (running c0)).
  2: { intros w Hw. exists patch_of, (0, []). split; [|done]. split; [|done]. by split; cbn; try lia. }
  apply (attempt_loop _ running (fun c => Z.max 0 (psize - jc_patch_position c))); [|cbn; lia].
  clear c0. intros c _. apply attempt_exists. intros p. apply attempt_exists. intros [s t].
  apply (attempt_pure _ _ (ctx_at c s t p /\
    rest_result base_of bsize tsize p (s, t) = rest_result base_of bsize tsize patch_of (0, [])));
    [intros w [[? _] ?]; done|].
  intros [Hc He]. rewrite <- He. apply (attempt_pre _ (mem_at t)); [|by intros w [[_ ?] _]].
  pose proof (ctx_left_len _ _ _ _ Hc) as Hl.
  destruct (Z.ltb_spec (jc_patch_position c) psize) as [Hlt|Hge].
  2: { destruct p; [|cbn in Hl; lia]. apply attempt_done. intros w Hw. by exists (s, t). }
  assert (p <> []) as Hne by (intros ->; cbn in Hl; lia).
  rewrite rest_result_letter by done.
  eapply attempt_step; [by apply (refines_NextOpcode c s t p)|by intros ->|].
  intros [c1 letter1] [letter p1] Hr. rewrite Hr. cbn [fst snd].
  apply (attempt_pure _ _ (letter1 = letter /\ ctx_at c1 s t p1)); [by intros w (? & ? & _)|].
  intros [-> Hc1]. apply (attempt_pre _ (mem_at t)); [|by intros w (_ & _ & ?)]. bind_some.
  eapply attempt_step; [by apply (refines_ApplyOperation c1 s t p1)|by intros ->|].
  intros c2 [[s2 t2] p2] Ho. rewrite Ho. bind_some. cbn [fst snd]. apply attempt_done.
  intros w [Hc2 Hw]. cbn [fst snd] in Hc2, Hw. pose proof (ctx_left_len _ _ _ _ Hc2) as Hl2.
  pose proof (body_shorter p letter p1 (s, t) (s2, t2) p2 Hr Ho) as Hsh. split.
  - exists p2, (s2, t2). split.
    + split; [by apply ctx_result|done].
    + rewrite <- He, (rest_result_letter p), Hr by done. bind_some. by rewrite Ho.
  - cbn [jc_set_result jc_patch_position]. lia.
Qed.

End stream.

#[local] Transparent attempt.

(** ** The interpreter *)

(** What a stream gives from the memories [h]: the last position in the base
    and the target. *)
Definition stream_result {HW : Hw} (stream : JanpatchPortStream_t) (h : hw) : option (Z * list Z) :=
  if (js_base_image_size stream =? 0) || (js_patch_size stream =? 0) ||
     (js_target_image_size stream =? 0)
  then None
  else patch_result (base_of h) (js_base_image_size stream) (js_target_image_size stream)
         (patch_of stream h).

Section theorem.
Context {HW : Hw}.

Lemma triple_ApplyStream stream result h0 :
  stream_ok stream ->
  triple (in_partition RECONSTRUCTED) nowhere (fun w => w_hw w = h0)
    (JanpatchPort_ApplyStream (Some stream) result)
    (fun r w =>
       r.1 = JANPATCH_PORT_OK /\
       (exists s t, stream_result stream h0 = Some (s, t) /\
          len t = js_target_image_size stream /\
          nor_slice (w_hw w) (part_base RECONSTRUCTED) (js_target_image_size stream) = t /\
          (forall rs, r.2 = Some rs -> jr_source_position rs = s /\
             jr_patch_position rs = js_patch_size stream /\
             jr_target_position rs = js_target_image_size stream)) \/
       failure (stream_result stream h0) r.1 /\ r.2 = result).
Proof.
  intros Hs. unfold JanpatchPort_ApplyStream, stream_result. apply triple_if; intros Hz; rewrite Hz.
  { apply triple_ret. intros w _. right. cbn. by repeat (split || right). }
  eapply triple_bind.
  { eapply triple_pre; [by apply (refines_ApplyLoop stream Hs h0)|].
    intros w <-. split; [apply frame_refl|done]. }
  change (rest_result _ _ _ _ _) with
    (run_patch (length (patch_of stream h0)) (base_of h0) (js_base_image_size stream)
       (js_target_image_size stream) (patch_of stream h0) (0, [])).
  unfold patch_result. set (o := run_patch _ _ _ _ _ _). intros [st|c]; cbv beta.
  - apply triple_ret. intros w [Hne Hf]. right. split; [|done]. split; [done|].
    destruct Hf as [Hf|Hf]; [by left|right]. by rewrite Hf.
  - destruct (Z.eqb_spec (jc_target_position c) (js_target_image_size stream)) as [He|He];
      apply triple_ret; intros w ([s t] & Ho & Hc & [_ Hn]); cbn [fst snd] in *; rewrite Ho;
      cbn [mbind option_bind]; rewrite (ca_target _ _ _ _ _ _ Hc) in He.
    + left. split; [done|]. rewrite He, Z.eqb_refl. exists s, t. split_and!; [done|done| |].
      { by rewrite <- He. }
      intros rs Hrs. destruct result; [|done]. injection Hrs as <-. cbn.
      pose proof (ctx_left_len _ Hs _ _ _ _ _ Hc) as Hl. cbn in Hl.
      split_and!; [apply (ca_source _ _ _ _ _ _ Hc)|lia|].
      by rewrite (ca_target _ _ _ _ _ _ Hc).
    + right. rewrite (proj2 (Z.eqb_neq _ _) He). cbn. by repeat (split || right).
Qed.

(** C8: The streaming interpreter always ends, writes the reconstructed
    partition only, reports success only with the target the reference semantics
    of JojoDiff gives for the stored patch and base, and fails, unless the flash
    does, only when the reference gives none. *)
Theorem JanpatchPort_ApplyStream_computes stream result h0 :
  stream_ok stream ->
  triple (in_partition RECONSTRUCTED) nowhere (fun w => w_hw w = h0)
    (JanpatchPort_ApplyStream (Some stream) result)
    (fun r w =>
       match r.1 with
       | JANPATCH_PORT_OK => exists s t, stream_result stream h0 = Some (s, t) /\
           len t = js_target_image_size stream /\
           nor_slice (w_hw w) (part_base RECONSTRUCTED) (js_target_image_size stream) = t /\
           (forall rs, r.2 = Some rs -> jr_source_position rs = s /\
              jr_patch_position rs = js_patch_size stream /\
              jr_target_position rs = js_target_image_size stream)
       | JANPATCH_PORT_PATCH_READ_FAILED | JANPATCH_PORT_TARGET_WRITE_FAILED => r.2 = result
       | _ => stream_result stream h0 = None /\ r.2 = result
       end).
Proof.
  intros Hs. eapply triple_post; [by apply triple_ApplyStream|].
  intros [st r] w [[Hst H]|[[Hne Hf] Hr]]; cbn [fst snd] in *; [by subst st|].
  destruct Hf as [[-> | ->]|Ho]; [done..|]. by destruct st.
Qed.

End theorem.

(** ** The promise to the secure container *)

Section promise.
Context {HW : Hw}.

Lemma modifies_ApplyStream stream result :
  stream_ok stream ->
  modifies (in_partition RECONSTRUCTED) nowhere (JanpatchPort_ApplyStream (Some stream) result).
Proof.
  intros Hs w. eapply wp_mono; [by apply (triple_ApplyStream stream result (w_hw w))| |done].
  by intros r w' [? _].
Qed.

Lemma keeps_fail {A} st : keeps (fail (A := A) st).
Proof. apply keeps_ret. Qed.

Lemma keeps_done {A} (a : A) : keeps (done_ a).
Proof. apply keeps_ret. Qed.

Lemma keeps_try {A B} (m : E A) (k : A -> E B) : keeps m -> (forall a, keeps (k a)) -> keeps (try m k).
Proof. intros Hm Hk. apply keeps_bind; [done|]. intros [st|a]; [apply keeps_ret|done]. Qed.

Lemma keeps_loop_try {S A} n (body : S -> E (S + A)) s :
  (forall s, keeps (body s)) -> keeps (loop_try n body s).
Proof.
  intros Hb. apply keeps_loop. intros s1. apply keeps_bind; [done|].
  intros [st|[s'|a]]; apply keeps_ret.
Qed.

(** Peel the calls that may fail off a [keeps] goal. *)
Create HintDb keeps_db.
Ltac keeps_try_step := first
  [ solve [eauto 2 with keeps_db]
  | progress cbv zeta
  | apply keeps_try; [|intros ?]
  | apply keeps_loop_try; intros ?
  | match goal with
    | |- keeps (if ?b then _ else _) => destruct b
    | |- keeps (let '_ := ?x in _) => destruct x
    end
  | keeps_step ].
Ltac keeps_try_auto := repeat keeps_try_step.
Hint Resolve keeps_fail keeps_done : keeps_db.

Lemma keeps_ReadSource o n : keeps (ReadSource o n).
Proof. unfold ReadSource. keeps_try_auto. Qed.
Lemma keeps_PatchReadByte stream c : keeps (PatchReadByte stream c).
Proof. unfold PatchReadByte. keeps_try_auto. Qed.
Lemma keeps_PatchPeekByte stream c n : keeps (PatchPeekByte stream c n).
Proof. unfold PatchPeekByte. keeps_try_auto. Qed.
Hint Resolve keeps_ReadSource keeps_PatchReadByte keeps_PatchPeekByte : keeps_db.
Lemma keeps_ReadLength stream c : keeps (ReadLength stream c).
Proof. unfold ReadLength. keeps_try_auto. Qed.
Lemma keeps_TargetWrite stream c d n : keeps (TargetWrite stream c d n).
Proof. unfold TargetWrite. keeps_try_auto. Qed.
Hint Resolve keeps_ReadLength keeps_TargetWrite : keeps_db.
Lemma keeps_CopyEqual stream c n : keeps (CopyEqual stream c n).
Proof. unfold CopyEqual. keeps_try_auto. Qed.
Lemma keeps_FlushLiteral stream c b adv n : keeps (FlushLiteral stream c b adv n).
Proof. unfold FlushLiteral. keeps_try_auto. Qed.
Hint Resolve keeps_CopyEqual keeps_FlushLiteral : keeps_db.
Lemma keeps_FlushIfFull stream c b adv n : keeps (FlushIfFull stream c b adv n).
Proof. unfold FlushIfFull. keeps_try_auto. Qed.
Hint Resolve keeps_FlushIfFull : keeps_db.
Lemma keeps_LiteralStep stream adv x : keeps (LiteralStep stream adv x).
Proof. unfold LiteralStep. keeps_try_auto. Qed.
Hint Resolve keeps_LiteralStep : keeps_db.
Lemma keeps_ConsumeLiteral stream c adv : keeps (ConsumeLiteral stream c adv).
Proof. unfold ConsumeLiteral. keeps_try_auto. Qed.
Lemma keeps_NextOpcode stream c : keeps (NextOpcode stream c).
Proof. unfold NextOpcode. keeps_try_auto. Qed.
Hint Resolve keeps_ConsumeLiteral keeps_NextOpcode : keeps_db.
Lemma keeps_ApplyOperation stream c o : keeps (ApplyOperation stream c o).
Proof. unfold ApplyOperation. keeps_try_auto. Qed.
Hint Resolve keeps_ApplyOperation : keeps_db.
Lemma keeps_ApplyLoop stream : keeps (ApplyLoop stream).
Proof. unfold ApplyLoop. keeps_try_auto. Qed.
Hint Resolve keeps_ApplyLoop : keeps_db.
Lemma keeps_ApplyStream stream result : keeps (JanpatchPort_ApplyStream stream result).
Proof. unfold JanpatchPort_ApplyStream. keeps_try_auto. Qed.

(** The caller's result before the call, which the interpreter does not read. *)
Definition no_result : JanpatchPortResult_t := mkJanpatchResult 0 0 0 0 0 0 0 0 0.

Definition ApplyStream (stream : JanpatchPortStream_t) : M HW (JanpatchPortStatus_t * JanpatchPortResult_t) :=
  r <- JanpatchPort_ApplyStream (Some stream) (Some no_result) ;;
  ret (r.1, default no_result r.2).

#[export] Instance janpatch_engine : DeltaEngine.
Proof.
  refine {| DeltaEngine_ApplyStream := ApplyStream |}.
  - intros stream Hs. apply modifies_bind; [by apply modifies_ApplyStream|intros; apply modifies_ret].
  - intros stream. apply keeps_bind; [apply keeps_ApplyStream|intros; apply keeps_ret].
Defined.

End promise.
