(* ===== verification/FirmwareContainer.v ===== *)
(** * FirmwareContainer: shared/src/firmware_container.c and its header

    The 140-byte header of a signed update: a 120-byte fixed part and a 20-byte
    extension.  Parsing it decides where the payload and the signature lie in
    the incoming partition. *)

From S2P Require Import Prelude Bytes MemoryMap.

Definition FW_CONTAINER_MAGIC : Z := 0x544F4453.
Definition FW_CONTAINER_FORMAT_VERSION : Z := 1.
Definition FW_CONTAINER_FIXED_HEADER_SIZE : Z := 120.
Definition FW_CONTAINER_EXTENSION_MAGIC : Z := 0x31584353.
Definition FW_CONTAINER_EXTENSION_VERSION : Z := 1.
Definition FW_CONTAINER_EXTENSION_SIZE : Z := 20.
Definition FW_CONTAINER_HEADER_SIZE : Z :=
  FW_CONTAINER_FIXED_HEADER_SIZE + FW_CONTAINER_EXTENSION_SIZE.
Definition PRODUCT_ID_STM32F103_NODE : Z := 0x00001001.
Definition HARDWARE_REVISION_1 : Z := 0x00000001.
Definition FW_CONTAINER_FLAGS_NONE : Z := 0.
Definition FW_HASH_SHA256 : Z := 1.
Definition FW_SIGNATURE_ECDSA_P256 : Z := 1.
Definition FW_ECDSA_P256_RAW_SIGNATURE_SIZE : Z := 64.
Definition FW_SHA256_SIZE : Z := 32.

Definition FW_IMAGE_FULL : Z := 1.
Definition FW_IMAGE_DELTA : Z := 2.

Record FirmwareContainerHeader_t := mkFwHeader {
  fw_magic : Z;
  fw_format_version : Z;
  fw_header_size : Z;
  fw_product_id : Z;
  fw_hardware_revision : Z;
  fw_image_type : Z;
  fw_flags : Z;
  fw_base_version : Z;
  fw_target_version : Z;
  fw_payload_size : Z;
  fw_target_image_size : Z;
  fw_target_load_address : Z;
  fw_base_image_sha256 : list Z;
  fw_target_image_sha256 : list Z;
  fw_payload_crc32 : Z;
  fw_hash_algorithm : Z;
  fw_signature_algorithm : Z;
  fw_signature_size : Z;
  fw_reserved : Z
}.

Record FirmwareContainerExtensionV1_t := mkFwExtension {
  fx_extension_magic : Z;
  fx_extension_version : Z;
  fx_extension_size : Z;
  fx_key_id : Z;
  fx_base_image_size : Z;
  fx_target_image_crc32 : Z
}.

Record FirmwareContainerInfo_t := mkFwInfo {
  fi_header : FirmwareContainerHeader_t;
  fi_extension : FirmwareContainerExtensionV1_t;
  fi_payload_offset : Z;
  fi_signature_offset : Z;
  fi_total_size : Z
}.

Inductive FirmwareContainerStatus_t :=
  | FW_CONTAINER_VALID
  | FW_CONTAINER_INVALID_ARGUMENT
  | FW_CONTAINER_INVALID_MAGIC
  | FW_CONTAINER_INVALID_FORMAT_VERSION
  | FW_CONTAINER_INVALID_HEADER_SIZE
  | FW_CONTAINER_INVALID_PRODUCT
  | FW_CONTAINER_INVALID_HARDWARE
  | FW_CONTAINER_INVALID_IMAGE_TYPE
  | FW_CONTAINER_INVALID_FLAGS
  | FW_CONTAINER_INVALID_VERSION
  | FW_CONTAINER_INVALID_PAYLOAD_SIZE
  | FW_CONTAINER_INVALID_TARGET_SIZE
  | FW_CONTAINER_INVALID_TARGET_ADDRESS
  | FW_CONTAINER_INVALID_HASH_ALGORITHM
  | FW_CONTAINER_INVALID_SIGNATURE_ALGORITHM
  | FW_CONTAINER_INVALID_SIGNATURE_SIZE
  | FW_CONTAINER_INVALID_RESERVED
  | FW_CONTAINER_INVALID_EXTENSION
  | FW_CONTAINER_INVALID_BASE_SIZE
  | FW_CONTAINER_INVALID_TOTAL_SIZE.

#[export] Instance FirmwareContainerStatus_eq : EqDecision FirmwareContainerStatus_t.
Proof. solve_decision. Defined.

(** ** Parsing *)

(** [None] is a null pointer; [&raw[i]] is the list from position [i] on. *)
Definition FirmwareContainer_GetU16Le (source : option (list Z)) : Z :=
  match source with None => 0 | Some bytes => GetU16Le bytes end.

Definition FirmwareContainer_GetU32Le (source : option (list Z)) : Z :=
  match source with None => 0 | Some bytes => GetU32Le bytes end.

Definition from (i : Z) (raw : list Z) : option (list Z) := Some (drop (Z.to_nat i) raw).

Definition FirmwareContainer_HashIsZero (hash : option (list Z)) : bool :=
  match hash with
  | None => false
  | Some bytes => fold_left Z.lor (take (Z.to_nat FW_SHA256_SIZE) bytes) 0 =? 0
  end.

(** The fields [ParseFixed] reads. *)
Definition ReadFixed (raw : list Z) : FirmwareContainerHeader_t :=
  let u16_at i := FirmwareContainer_GetU16Le (from i raw) in
  let u32_at i := FirmwareContainer_GetU32Le (from i raw) in
  {| fw_magic := u32_at 0;
     fw_format_version := u16_at 4;
     fw_header_size := u16_at 6;
     fw_product_id := u32_at 8;
     fw_hardware_revision := u32_at 12;
     fw_image_type := u32_at 16;
     fw_flags := u32_at 20;
     fw_base_version := u32_at 24;
     fw_target_version := u32_at 28;
     fw_payload_size := u32_at 32;
     fw_target_image_size := u32_at 36;
     fw_target_load_address := u32_at 40;
     fw_base_image_sha256 := slice 44 FW_SHA256_SIZE raw;
     fw_target_image_sha256 := slice 76 FW_SHA256_SIZE raw;
     fw_payload_crc32 := u32_at 108;
     fw_hash_algorithm := u16_at 112;
     fw_signature_algorithm := u16_at 114;
     fw_signature_size := u16_at 116;
     fw_reserved := u16_at 118 |}.

(** The tests [ParseFixed] makes on them, in its order. *)
Definition CheckFixed (h : FirmwareContainerHeader_t) : FirmwareContainerStatus_t :=
  if fw_magic h <>? FW_CONTAINER_MAGIC then FW_CONTAINER_INVALID_MAGIC
  else if fw_format_version h <>? FW_CONTAINER_FORMAT_VERSION
  then FW_CONTAINER_INVALID_FORMAT_VERSION
  else if fw_header_size h <>? FW_CONTAINER_HEADER_SIZE then FW_CONTAINER_INVALID_HEADER_SIZE
  else if fw_product_id h <>? PRODUCT_ID_STM32F103_NODE then FW_CONTAINER_INVALID_PRODUCT
  else if fw_hardware_revision h <>? HARDWARE_REVISION_1 then FW_CONTAINER_INVALID_HARDWARE
  else if (fw_image_type h <>? FW_IMAGE_FULL) && (fw_image_type h <>? FW_IMAGE_DELTA)
  then FW_CONTAINER_INVALID_IMAGE_TYPE
  else if fw_flags h <>? FW_CONTAINER_FLAGS_NONE then FW_CONTAINER_INVALID_FLAGS
  else if fw_target_version h =? 0 then FW_CONTAINER_INVALID_VERSION
  else if (fw_payload_size h =? 0)
       || (EXT_INCOMING_SIZE - FW_CONTAINER_HEADER_SIZE - FW_ECDSA_P256_RAW_SIGNATURE_SIZE
           <? fw_payload_size h)
  then FW_CONTAINER_INVALID_PAYLOAD_SIZE
  else if (fw_target_image_size h <? 8) || (APPLICATION_MAX_SIZE <? fw_target_image_size h)
       || (EXT_RECONSTRUCTED_SIZE <? fw_target_image_size h)
  then FW_CONTAINER_INVALID_TARGET_SIZE
  else if fw_target_load_address h <>? APPLICATION_START_ADDRESS
  then FW_CONTAINER_INVALID_TARGET_ADDRESS
  else if fw_hash_algorithm h <>? FW_HASH_SHA256 then FW_CONTAINER_INVALID_HASH_ALGORITHM
  else if fw_signature_algorithm h <>? FW_SIGNATURE_ECDSA_P256
  then FW_CONTAINER_INVALID_SIGNATURE_ALGORITHM
  else if fw_signature_size h <>? FW_ECDSA_P256_RAW_SIGNATURE_SIZE
  then FW_CONTAINER_INVALID_SIGNATURE_SIZE
  else if fw_reserved h <>? 0 then FW_CONTAINER_INVALID_RESERVED
  else FW_CONTAINER_VALID.

Definition ParseFixed (raw : list Z) : FirmwareContainerStatus_t * FirmwareContainerHeader_t :=
  let header := ReadFixed raw in (CheckFixed header, header).

(** The fields [ParseExtension] reads. *)
Definition ReadExtension (raw : list Z) : FirmwareContainerExtensionV1_t :=
  let offset := FW_CONTAINER_FIXED_HEADER_SIZE in
  let u16_at i := FirmwareContainer_GetU16Le (from (offset + i) raw) in
  let u32_at i := FirmwareContainer_GetU32Le (from (offset + i) raw) in
  {| fx_extension_magic := u32_at 0;
     fx_extension_version := u16_at 4;
     fx_extension_size := u16_at 6;
     fx_key_id := u32_at 8;
     fx_base_image_size := u32_at 12;
     fx_target_image_crc32 := u32_at 16 |}.

Definition ParseExtension (raw : list Z)
    : FirmwareContainerStatus_t * FirmwareContainerExtensionV1_t :=
  let extension := ReadExtension raw in
  if (fx_extension_magic extension <>? FW_CONTAINER_EXTENSION_MAGIC)
     || (fx_extension_version extension <>? FW_CONTAINER_EXTENSION_VERSION)
     || (fx_extension_size extension <>? FW_CONTAINER_EXTENSION_SIZE)
     || (fx_key_id extension =? 0)
  then (FW_CONTAINER_INVALID_EXTENSION, extension)
  else (FW_CONTAINER_VALID, extension).

(** The base-image fields a full and a delta update must have. *)
Definition CheckBase (h : FirmwareContainerHeader_t) (x : FirmwareContainerExtensionV1_t) : bool :=
  let zero_hash := FirmwareContainer_HashIsZero (Some (fw_base_image_sha256 h)) in
  if fw_image_type h =? FW_IMAGE_FULL
  then negb ((fw_base_version h <>? 0) || (fx_base_image_size x <>? 0) || negb zero_hash
             || (fw_payload_size h <>? fw_target_image_size h))
  else negb ((fw_base_version h =? 0) || (fx_base_image_size x <? 8)
             || (APPLICATION_MAX_SIZE <? fx_base_image_size x) || zero_hash).

(** The out-parameter is reported when the status is VALID, the only case in
    which a caller uses it. *)
Definition FirmwareContainer_Parse (raw_header : option (list Z)) (artifact_size : Z)
    : FirmwareContainerStatus_t * option FirmwareContainerInfo_t :=
  match raw_header with
  | None => (FW_CONTAINER_INVALID_ARGUMENT, None)
  | Some raw =>
      let '(status, h) := ParseFixed raw in
      if bool_decide (status <> FW_CONTAINER_VALID) then (status, None) else
      let '(status, x) := ParseExtension raw in
      if bool_decide (status <> FW_CONTAINER_VALID) then (status, None) else
      if negb (CheckBase h x) then (FW_CONTAINER_INVALID_BASE_SIZE, None) else
      if u32 (0xFFFFFFFF - fw_header_size h - fw_signature_size h) <? fw_payload_size h
      then (FW_CONTAINER_INVALID_TOTAL_SIZE, None) else
      let expected_total := u32 (fw_header_size h + fw_payload_size h + fw_signature_size h) in
      if (artifact_size <>? 0) && (artifact_size <>? expected_total)
      then (FW_CONTAINER_INVALID_TOTAL_SIZE, None) else
      let payload_offset := fw_header_size h in
      let signature_offset := u32 (payload_offset + fw_payload_size h) in
      (FW_CONTAINER_VALID, Some (mkFwInfo h x payload_offset signature_offset expected_total))
  end.

(** ** What a parsed container promises *)

(** The header a device accepts: its identity, and the sizes its memories can
    hold. *)
Record AcceptedHeader (h : FirmwareContainerHeader_t) (x : FirmwareContainerExtensionV1_t)
    : Prop := {
  ah_magic : fw_magic h = FW_CONTAINER_MAGIC;
  ah_format : fw_format_version h = FW_CONTAINER_FORMAT_VERSION;
  ah_header_size : fw_header_size h = FW_CONTAINER_HEADER_SIZE;
  ah_product : fw_product_id h = PRODUCT_ID_STM32F103_NODE;
  ah_hardware : fw_hardware_revision h = HARDWARE_REVISION_1;
  ah_flags : fw_flags h = FW_CONTAINER_FLAGS_NONE;
  ah_target_version : fw_target_version h <> 0;
  ah_payload : 0 < fw_payload_size h <=
    EXT_INCOMING_SIZE - FW_CONTAINER_HEADER_SIZE - FW_ECDSA_P256_RAW_SIGNATURE_SIZE;
  ah_target_size : 8 <= fw_target_image_size h <= APPLICATION_MAX_SIZE;
  ah_load : fw_target_load_address h = APPLICATION_START_ADDRESS;
  ah_hash : fw_hash_algorithm h = FW_HASH_SHA256;
  ah_signature : fw_signature_algorithm h = FW_SIGNATURE_ECDSA_P256;
  ah_signature_size : fw_signature_size h = FW_ECDSA_P256_RAW_SIGNATURE_SIZE;
  ah_reserved : fw_reserved h = 0;
  ah_extension : fx_extension_magic x = FW_CONTAINER_EXTENSION_MAGIC /\
    fx_extension_version x = FW_CONTAINER_EXTENSION_VERSION /\
    fx_extension_size x = FW_CONTAINER_EXTENSION_SIZE;
  ah_key : fx_key_id x <> 0;
  (* a full image names no base, a delta names one that fits the device *)
  ah_base :
    (fw_image_type h = FW_IMAGE_FULL /\ fw_base_version h = 0 /\ fx_base_image_size x = 0 /\
     FirmwareContainer_HashIsZero (Some (fw_base_image_sha256 h)) = true /\
     fw_payload_size h = fw_target_image_size h) \/
    (fw_image_type h = FW_IMAGE_DELTA /\ fw_base_version h <> 0 /\
     8 <= fx_base_image_size x <= APPLICATION_MAX_SIZE /\
     FirmwareContainer_HashIsZero (Some (fw_base_image_sha256 h)) = false)
}.

(** The header, the payload and the signature, one after the other. *)
Definition info_of (h : FirmwareContainerHeader_t) (x : FirmwareContainerExtensionV1_t)
    : FirmwareContainerInfo_t :=
  let signature_offset := FW_CONTAINER_HEADER_SIZE + fw_payload_size h in
  mkFwInfo h x FW_CONTAINER_HEADER_SIZE signature_offset
    (signature_offset + FW_ECDSA_P256_RAW_SIGNATURE_SIZE).

Lemma CheckFixed_spec h :
  CheckFixed h = FW_CONTAINER_VALID <->
  fw_magic h = FW_CONTAINER_MAGIC /\ fw_format_version h = FW_CONTAINER_FORMAT_VERSION /\
  fw_header_size h = FW_CONTAINER_HEADER_SIZE /\
  fw_product_id h = PRODUCT_ID_STM32F103_NODE /\ fw_hardware_revision h = HARDWARE_REVISION_1 /\
  (fw_image_type h = FW_IMAGE_FULL \/ fw_image_type h = FW_IMAGE_DELTA) /\
  fw_flags h = FW_CONTAINER_FLAGS_NONE /\ fw_target_version h <> 0 /\
  (fw_payload_size h <> 0 /\ fw_payload_size h <=
    EXT_INCOMING_SIZE - FW_CONTAINER_HEADER_SIZE - FW_ECDSA_P256_RAW_SIGNATURE_SIZE) /\
  8 <= fw_target_image_size h <= APPLICATION_MAX_SIZE /\
  fw_target_load_address h = APPLICATION_START_ADDRESS /\
  fw_hash_algorithm h = FW_HASH_SHA256 /\ fw_signature_algorithm h = FW_SIGNATURE_ECDSA_P256 /\
  fw_signature_size h = FW_ECDSA_P256_RAW_SIGNATURE_SIZE /\ fw_reserved h = 0.
Proof.
  unfold CheckFixed. split.
  - intros H. repeat (case_if_in H; [done|]). to_prop.
    repeat match goal with H : (_ && _)%bool = false |- _ => apply andb_false_iff in H end.
    rewrite !negb_false_iff, !Z.eqb_eq in *. split_and!; done || map_lia.
  - intros H. decompose [and] H. repeat case_if; try done; exfalso;
      repeat match goal with
      | H : (_ || _)%bool = true |- _ => apply orb_true_iff in H
      | H : (_ && _)%bool = true |- _ => apply andb_true_iff in H as []
      end;
      rewrite ?orb_true_iff, ?negb_true_iff, ?Z.eqb_neq, ?Z.eqb_eq, ?Z.ltb_lt in *;
      (congruence || map_lia || (destruct_or?; congruence)).
Qed.

Lemma CheckBase_spec h x :
  fw_image_type h = FW_IMAGE_FULL \/ fw_image_type h = FW_IMAGE_DELTA ->
  CheckBase h x = true <->
    (fw_image_type h = FW_IMAGE_FULL /\ fw_base_version h = 0 /\ fx_base_image_size x = 0 /\
     FirmwareContainer_HashIsZero (Some (fw_base_image_sha256 h)) = true /\
     fw_payload_size h = fw_target_image_size h) \/
    (fw_image_type h = FW_IMAGE_DELTA /\ fw_base_version h <> 0 /\
     8 <= fx_base_image_size x <= APPLICATION_MAX_SIZE /\
     FirmwareContainer_HashIsZero (Some (fw_base_image_sha256 h)) = false).
Proof.
  intros Ht. unfold CheckBase. destruct (FirmwareContainer_HashIsZero _);
    destruct (Z.eqb_spec (fw_image_type h) FW_IMAGE_FULL) as [Hf|Hf];
    rewrite negb_true_iff, !orb_false_iff, ?negb_false_iff, ?Z.eqb_eq, ?Z.eqb_neq, ?Z.ltb_ge;
    unfold FW_IMAGE_FULL, FW_IMAGE_DELTA in *; cbn [negb]; intuition (congruence || lia).
Qed.

Lemma ParseExtension_spec raw :
  fst (ParseExtension raw) = FW_CONTAINER_VALID <->
  let x := ReadExtension raw in
  (fx_extension_magic x = FW_CONTAINER_EXTENSION_MAGIC /\
   fx_extension_version x = FW_CONTAINER_EXTENSION_VERSION /\
   fx_extension_size x = FW_CONTAINER_EXTENSION_SIZE) /\ fx_key_id x <> 0.
Proof.
  unfold ParseExtension. cbv zeta. case_if; cbn [fst]; (split; [intros H|intros ([H1 [H2 H3]] & H4)]).
  - done.
  - exfalso. rewrite !orb_true_iff, !negb_true_iff, !Z.eqb_neq, Z.eqb_eq in E.
    destruct_or!; congruence.
  - to_prop. done.
  - done.
Qed.

Lemma HashIsZero_spec hash :
  len hash = FW_SHA256_SIZE -> bytes_ok hash ->
  FirmwareContainer_HashIsZero (Some hash) = true <-> hash = replicate 32 0.
Proof.
  intros Hl Hok. unfold FirmwareContainer_HashIsZero. rewrite take_ge by (unfold FW_SHA256_SIZE in *; lia).
  rewrite Z.eqb_eq.
  assert (Hz : forall l acc, bytes_ok l -> 0 <= acc ->
    fold_left Z.lor l acc = 0 <-> acc = 0 /\ l = replicate (length l) 0).
  { intros l. induction l as [|b l IH]; intros acc Hb Hacc; cbn [fold_left length replicate].
    { naive_solver. }
    apply Forall_cons in Hb as [Hb Hbs]. unfold is_byte in Hb.
    rewrite IH by (done || (apply Z.lor_nonneg; lia)). rewrite Z.lor_eq_0_iff.
    split; [intros [[-> ->] <-]; done|intros [-> [= -> <-]]; done]. }
  rewrite Hz by done. replace (length hash) with 32%nat by (unfold FW_SHA256_SIZE in *; lia).
  naive_solver.
Qed.

Lemma ReadFixed_payload raw : bytes_ok raw -> is_u32 (fw_payload_size (ReadFixed raw)).
Proof. intros H. apply GetU32Le_range, Forall_drop, H. Qed.

(** Parsing accepts exactly the accepted headers of the announced size. *)
Lemma Parse_accepts raw n info :
  bytes_ok raw ->
  FirmwareContainer_Parse (Some raw) n = (FW_CONTAINER_VALID, Some info) <->
  let h := ReadFixed raw in
  let x := ReadExtension raw in
  AcceptedHeader h x /\ info = info_of h x /\ (n = 0 \/ n = fi_total_size info).
Proof.
  intros Hok. cbv zeta. unfold FirmwareContainer_Parse, ParseFixed.
  pose proof (ReadFixed_payload raw Hok) as Hpay. unfold is_u32 in Hpay.
  pose proof (CheckFixed_spec (ReadFixed raw)) as Hfix.
  pose proof (ParseExtension_spec raw) as Hext. cbv zeta in Hext.
  pose proof (CheckBase_spec (ReadFixed raw) (ReadExtension raw)) as Hbase.
  assert (snd (ParseExtension raw) = ReadExtension raw) as Hx
    by (unfold ParseExtension; cbv zeta; by case_if).
  set (h := ReadFixed raw) in *. set (x := ReadExtension raw) in *.
  destruct (ParseExtension raw) as [st x'] eqn:E. cbn [fst snd] in *. subst x'.
  assert (Hall : AcceptedHeader h x <->
    CheckFixed h = FW_CONTAINER_VALID /\ st = FW_CONTAINER_VALID /\ CheckBase h x = true).
  { split.
    - intros []. assert (Ht : fw_image_type h = FW_IMAGE_FULL \/ fw_image_type h = FW_IMAGE_DELTA)
        by (destruct ah_base0 as [[]|[]]; auto).
      rewrite Hfix, Hext, Hbase by exact Ht. split_and!; done || lia.
    - intros (H1 & H2 & H3). apply Hfix in H1. apply Hext in H2. decompose [and] H1.
      apply Hbase in H3; [|done]. destruct H2. split; done || lia. }
  rewrite Hall. clear Hext Hbase.
  destruct (bool_decide_reflect (CheckFixed h <> FW_CONTAINER_VALID)) as [H1|H1]; [split; [intros [=]; done|intros [(? & _) _]; done]|].
  apply dec_stable in H1.
  destruct (bool_decide_reflect (st <> FW_CONTAINER_VALID)) as [H2|H2]; [split; [intros [=]; done|intros [(_ & ? & _) _]; done]|].
  apply dec_stable in H2.
  destruct (CheckBase h x) eqn:H3; cbn [negb]; [|split; [done|by intros [(_ & _ & ?) _]]].
  apply Hfix in H1 as H4. decompose [and] H4.
  match goal with H : fw_header_size h = _ |- _ => rewrite H end.
  match goal with H : fw_signature_size h = _ |- _ => rewrite H end.
  rewrite (u32_small (0xFFFFFFFF - _ - _)) by done.
  rewrite (proj2 (Z.ltb_ge _ _)) by map_lia.
  unfold info_of, FW_CONTAINER_HEADER_SIZE, FW_CONTAINER_FIXED_HEADER_SIZE,
    FW_CONTAINER_EXTENSION_SIZE, FW_ECDSA_P256_RAW_SIGNATURE_SIZE in *. cbv zeta.
  rewrite !u32_small by (unfold is_u32; map_lia).
  destruct (Z.eqb_spec n 0) as [->|Hn]; cbn [negb andb].
  - split; [intros [= <-]; auto|by intros (_ & -> & _)].
  - destruct (Z.eqb_spec n (120 + 20 + fw_payload_size h + 64)) as [->|Hne]; cbn [negb].
    + split; [intros [= <-]; auto|by intros (_ & -> & _)].
    + split; [done|]. by intros (_ & -> & [?|?]).
Qed.

(** C37: A header that FirmwareContainer_Parse accepts satisfies every rule of
    the format; payload and signature follow the header without overlap, their
    end fits the incoming partition without 32-bit wrap-around, and a non-zero
    artifact size equals that end. *)
Theorem FirmwareContainer_Parse_spec (raw : list Z) (artifact_size : Z)
    (info : FirmwareContainerInfo_t) :
  bytes_ok raw ->
  FirmwareContainer_Parse (Some raw) artifact_size = (FW_CONTAINER_VALID, Some info) ->
  let h := fi_header info in
  let x := fi_extension info in
  AcceptedHeader h x /\
  (* header, payload and signature are adjacent and fit the incoming partition *)
  fi_payload_offset info = FW_CONTAINER_HEADER_SIZE /\
  fi_signature_offset info = fi_payload_offset info + fw_payload_size h /\
  fi_total_size info = fi_signature_offset info + FW_ECDSA_P256_RAW_SIGNATURE_SIZE /\
  fi_total_size info <= EXT_INCOMING_SIZE /\
  (artifact_size <> 0 -> artifact_size = fi_total_size info).
Proof.
  intros Hok H. apply Parse_accepts in H as (Ha & -> & Hn); [|done].
  destruct (ah_payload _ _ Ha). cbn in *.
  split_and!; [done..| |]; unfold FW_CONTAINER_HEADER_SIZE, FW_ECDSA_P256_RAW_SIGNATURE_SIZE in *; lia.
Qed.

Lemma FirmwareContainer_Parse_witness :
  let raw := PutU32Le FW_CONTAINER_MAGIC ++ PutU16Le 1 ++ PutU16Le 140 ++
    PutU32Le PRODUCT_ID_STM32F103_NODE ++ PutU32Le 1 ++ PutU32Le FW_IMAGE_FULL ++ PutU32Le 0 ++
    PutU32Le 0 ++ PutU32Le 2 ++ PutU32Le 1024 ++ PutU32Le 1024 ++
    PutU32Le APPLICATION_START_ADDRESS ++ replicate 32 0 ++ replicate 32 7 ++
    PutU32Le 99 ++ PutU16Le 1 ++ PutU16Le 1 ++ PutU16Le 64 ++ PutU16Le 0 ++
    PutU32Le FW_CONTAINER_EXTENSION_MAGIC ++ PutU16Le 1 ++ PutU16Le 20 ++ PutU32Le 5 ++
    PutU32Le 0 ++ PutU32Le 77 in
  exists info, FirmwareContainer_Parse (Some raw) 1228 = (FW_CONTAINER_VALID, Some info) /\
    fi_signature_offset info = 1164 /\ 1228 = fi_total_size info.
Proof.
  intros raw.
  destruct (FirmwareContainer_Parse (Some raw) 1228) as [st [info|]] eqn:E;
    [|vm_compute in E; discriminate].
  assert (st = FW_CONTAINER_VALID) as -> by (vm_compute in E; congruence).
  exists info. split; [reflexivity|].
  destruct (FirmwareContainer_Parse_spec raw 1228 info) as (_ & H1 & H2 & H3 & _ & H5);
    [repeat constructor; vm_compute; congruence|exact E|].
  split; [vm_compute in E; injection E as <-; reflexivity|apply H5; discriminate].
Defined.
