(* ===== verification/Primes.v ===== *)
(** * Primes: Pocklington's criterion, and the two moduli of P-256

    ecdsa_p256.c inverts by Fermat's theorem and its projective formulas are
    right in a field only: both moduli have to be prime.  A certificate of [n]
    names some primes [q] dividing [n - 1] whose product exceeds the square root
    of [n], and a base; the check is a handful of modular powers. *)

From Stdlib Require Import ZArith Lia List Zmod.
From S2P Require Import Prelude.

Import ListNotations.
#[local] Open Scope Z_scope.

(** Residues by Barrett's method: [mu] is the reciprocal of [n], scaled; the
    quotient may be off by one or two, so that the result is congruent to [x] but
    not always the least. *)
Definition reduce (n k mu x : Z) : Z :=
  x - Z.shiftr (Z.shiftr x (k - 1) * mu) (k + 17) * n.

Lemma reduce_spec n k mu x : reduce n k mu x mod n = x mod n.
Proof.
  unfold reduce. rewrite <- (Z_mod_plus_full x (- Z.shiftr (Z.shiftr x (k - 1) * mu) (k + 17)) n).
  f_equal. ring.
Qed.

(** Square and multiply, from the top bit. *)
Fixpoint power (n k mu a : Z) (e : positive) : Z :=
  match e with
  | xH => a
  | xO e => let z := power n k mu a e in reduce n k mu (Z.square z)
  | xI e =>
      let z := power n k mu a e in
      if a <? 16 then reduce n k mu (Z.square z * a) else reduce n k mu (reduce n k mu (Z.square z) * a)
  end.

Lemma power_spec n k mu a e : power n k mu a e mod n = a ^ Zpos e mod n.
Proof.
  induction e as [e IH|e IH|]; cbn [power]; cbv zeta; rewrite ?Z.square_spec.
  - rewrite Pos2Z.inj_xI, Z.pow_add_r, Z.pow_1_r, <- Z.add_diag, Z.pow_add_r by lia.
    transitivity (power n k mu a e * power n k mu a e * a mod n).
    { destruct (a <? 16); rewrite reduce_spec; [done|].
      by rewrite <- Zmult_mod_idemp_l, reduce_spec, Zmult_mod_idemp_l. }
    rewrite <- Zmult_mod_idemp_l, (Zmult_mod (power _ _ _ _ _)), IH, <- Zmult_mod.
    apply Zmult_mod_idemp_l.
  - rewrite reduce_spec, Pos2Z.inj_xO, <- Z.add_diag, Z.pow_add_r by lia. by rewrite Zmult_mod, IH, <- Zmult_mod.
  - by rewrite Z.pow_1_r.
Qed.

(** A power modulo [n], up to congruence. *)
Definition pow_mod (a : Z) (e : positive) (n : Z) : Z :=
  let k := Z.log2 n + 1 in power n k (2 ^ (2 * k + 16) / n) a e.

Lemma pow_mod_spec a e n : pow_mod a e n mod n = a ^ Zpos e mod n.
Proof. apply power_spec. Qed.

(** Exponents that give 1 are closed under greatest common divisors. *)
Lemma pow_one_gcd a n x y :
  1 < n -> 0 <= x -> 0 <= y -> a ^ x mod n = 1 -> a ^ y mod n = 1 -> a ^ Z.gcd x y mod n = 1.
Proof.
  intros Hn Hx Hy. revert x Hx.
  induction y as [y IH] using (well_founded_induction (Z.lt_wf 0)). intros x Hx H1 H2.
  destruct (decide (y = 0)) as [->|Hne]; [by rewrite Z.gcd_0_r, Z.abs_eq|].
  assert (0 <= x / y) as Hq by (apply Z.div_pos; lia).
  pose proof (Z.mod_pos_bound x y ltac:(lia)) as Hm. pose proof (Z.div_mod x y Hne) as Hd.
  rewrite Z.gcd_comm, <- Z.gcd_mod, Z.gcd_comm by done.
  assert (a ^ (x mod y) mod n = 1) as H3.
  { rewrite Hd, Z.pow_add_r, Z.pow_mul_r, Zmult_mod, <- Z.mod_pow_l, H2, Z.pow_1_l, Z.mod_1_l,
      Z.mul_1_l, Z.mod_mod in H1 by nia. done. }
  apply IH; lia || done.
Qed.

(** Every number above 1 has a prime divisor. *)
Lemma prime_divisor n : 1 < n -> exists r, Z.prime r /\ (r | n).
Proof.
  induction n as [n IH] using (well_founded_induction (Z.lt_wf 0)). intros Hn.
  destruct (Znumtheory.prime_dec n) as [Hp|Hp].
  { exists n. split; [by apply Znumtheory.prime_alt|apply Z.divide_refl]. }
  destruct (Znumtheory.not_prime_divide n Hn Hp) as (d & Hd & Hdn).
  destruct (IH d) as (r & Hr & Hrd); [lia|lia|]. exists r. split; [done|]. by transitivity d.
Qed.

(** A number with no prime divisor up to its square root is prime. *)
Lemma prime_sqrt n : 1 < n -> (forall r, Z.prime r -> (r | n) -> n < r * r) -> Z.prime n.
Proof.
  intros Hn H. split; [done|]. intros d Hd [e He].
  destruct (prime_divisor d) as (r & Hr & Hrd); [lia|].
  destruct (prime_divisor e) as (r' & Hr' & Hre); [nia|].
  pose proof (Z.prime_ge_2 r Hr). pose proof (Z.prime_ge_2 r' Hr').
  assert (n < r * r) by (apply H; [done|]; rewrite He; by apply Z.divide_mul_r).
  assert (n < r' * r') by (apply H; [done|]; rewrite He; by apply Z.divide_mul_l).
  apply Z.divide_pos_le in Hrd; [|lia]. apply Z.divide_pos_le in Hre; [|nia].
  assert (e < d) by nia. assert (d < e) by nia. lia.
Qed.

(** ** The criterion *)

Definition product (qs : list Z) : Z := fold_right Z.mul 1 qs.

(** Distinct primes that divide a number divide it together. *)
Lemma product_divides qs m :
  Forall Z.prime qs -> NoDup qs -> Forall (fun q => (q | m)) qs -> (product qs | m).
Proof.
  induction qs as [|q qs IH]; intros Hp Hnd Hd; [apply Z.divide_1_l|].
  apply Forall_cons in Hp as [Hq Hp], Hd as [Hqm Hd]. apply NoDup_cons in Hnd as [Hn Hnd].
  destruct (IH Hp Hnd Hd) as [k Hk]. rewrite Hk in Hqm.
  destruct (Z.gauss q (product qs) k) as [j Hj]; [by rewrite Z.mul_comm| |].
  - apply Z.coprime_prime_l; [done|]. clear -Hq Hp Hn. induction qs as [|q' qs IH]; cbn.
    + intros H1. apply Z.divide_1_r in H1. pose proof (Z.prime_ge_2 q Hq). lia.
    + apply Forall_cons in Hp as [Hq' Hp]. apply not_elem_of_cons in Hn as [Hne Hn].
      intros [H|H]%(Z.divide_prime_mul _ _ _ Hq); [|by apply IH].
      by apply (Z.divide_prime_prime _ _ Hq Hq') in H.
  - exists j. change (product (q :: qs)) with (q * product qs). rewrite Hk, Hj. ring.
Qed.

(** The power of the base that belongs to a prime [q], and the condition on it:
    the order of [a] modulo any prime divisor of [n] has as many factors [q] as
    [n - 1]. *)
Definition cofactor_power (n a q : Z) : Z := pow_mod a (Z.to_pos ((n - 1) / q)) n.

Definition pocklington_ok (n q b : Z) : bool :=
  ((n - 1) mod q =? 0) && (Z.gcd (b - 1) n =? 1).

Lemma cofactor_power_spec n a q :
  1 < n -> 1 < q -> q < n -> (n - 1) mod q = 0 -> cofactor_power n a q mod n = a ^ ((n - 1) / q) mod n.
Proof.
  intros Hn Hq Hqn Hm. unfold cofactor_power. rewrite pow_mod_spec, Z2Pos.id; [done|].
  pose proof (Z.div_mod (n - 1) q ltac:(lia)). nia.
Qed.

(** Congruence modulo a divisor. *)
Lemma mod_divisor n r x y : 1 < n -> 1 < r -> (r | n) -> x mod n = y mod n -> x mod r = y mod r.
Proof.
  intros Hn Hr [k Hk] H. pose proof (Z.div_mod x n ltac:(lia)) as Hx.
  pose proof (Z.div_mod y n ltac:(lia)) as Hy.
  assert (x = y + (x / n - y / n) * k * r) as -> by (rewrite H, Hk in *; lia).
  apply Z_mod_plus_full.
Qed.

Lemma pocklington_divides n a q b r :
  1 < n -> Z.prime q -> Z.prime r -> (r | n) -> q < n ->
  a ^ (n - 1) mod n = 1 -> b mod n = a ^ ((n - 1) / q) mod n ->
  pocklington_ok n q b = true -> (q | r - 1).
Proof.
  intros Hn Hq Hr Hrn Hqn Ha Hb Hok. unfold pocklington_ok in Hok.
  apply andb_true_iff in Hok as [Hm Hg]. apply Z.eqb_eq in Hm, Hg.
  pose proof (Z.prime_ge_2 q Hq) as Hq2. pose proof (Z.prime_ge_2 r Hr) as Hr2.
  pose proof (Z.div_mod (n - 1) q ltac:(lia)) as Hd. rewrite Hm, Z.add_0_r in Hd.
  set (e := (n - 1) / q) in *. assert (0 < e) as He by nia.
  assert (a ^ (n - 1) mod r = 1) as Har1.
  { transitivity (1 mod r); [|apply Z.mod_1_l; lia]. apply (mod_divisor n); [lia|lia|done|].
    by rewrite Ha, Z.mod_1_l by lia. }
  assert (a mod r <> 0) as Har.
  { intros H0. rewrite <- Z.mod_pow_l, H0, Z.pow_0_l, Z.mod_0_l in Har1 by lia. done. }
  destruct (Z.BoolSpec_divide q (r - 1)) as [|Hnd]; [done|exfalso].
  pose proof (pow_one_gcd a r (n - 1) (r - 1) ltac:(lia) ltac:(lia) ltac:(lia) Har1
    (Z.fermat_nz r a Hr Har)) as H1.
  set (g := Z.gcd (n - 1) (r - 1)) in *.
  assert ((g | e)) as [k Hk].
  { apply (Z.gauss g q e); [rewrite <- Hd; apply Z.gcd_divide_l|].
    rewrite Z.gcd_comm. apply Z.coprime_prime_l; [done|]. intros H. apply Hnd.
    transitivity g; [done|apply Z.gcd_divide_r]. }
  assert (b mod r = 1) as H2.
  { rewrite (mod_divisor n r b (a ^ e)) by (done || lia).
    assert (0 <= g) by apply Z.gcd_nonneg.
    rewrite Hk, Z.mul_comm, Z.pow_mul_r, <- Z.mod_pow_l, H1, Z.pow_1_l by nia. apply Z.mod_1_l. lia. }
  assert ((r | Z.gcd (b - 1) n)) as Hrg.
  { apply Z.gcd_greatest; [|done]. exists (b / r). pose proof (Z.div_mod b r ltac:(lia)). lia. }
  rewrite Hg in Hrg. apply Z.divide_1_r in Hrg. lia.
Qed.

(** A certificate: the number, the base and the primes, of which there is one
    at least. *)
Record Certificate := certify { ce_number : Z; ce_base : Z; ce_first : Z; ce_rest : list Z }.

Definition ce_primes (c : Certificate) : list Z := ce_first c :: ce_rest c.

(** The power [a ^ (n - 1)] is a power of that of the first prime. *)
Definition certificate_ok (known : list Z) (c : Certificate) : bool :=
  let n := ce_number c in
  let a := ce_base c in
  let F := product (ce_primes c) in
  (1 <? n) && (n <? (F + 1) * (F + 1)) && bool_decide (NoDup (ce_primes c)) &&
  forallb (fun q => bool_decide (q ∈ known) && (q <? n)) (ce_primes c) &&
  (let b := cofactor_power n a (ce_first c) in
   pocklington_ok n (ce_first c) b && (pow_mod b (Z.to_pos (ce_first c)) n mod n =? 1)) &&
  forallb (fun q => pocklington_ok n q (cofactor_power n a q)) (ce_rest c).

Lemma certificate_prime known c :
  Forall Z.prime known -> certificate_ok known c = true -> Z.prime (ce_number c).
Proof.
  intros Hk Hok. unfold certificate_ok in Hok. cbv zeta in Hok. rewrite !andb_true_iff in Hok.
  destruct Hok as [[[[[Hn HF] Hnd] Hin] [Hfirst Ha]] Hrest].
  apply Z.ltb_lt in Hn, HF. apply bool_decide_eq_true in Hnd.
  rewrite List.forallb_forall in Hin, Hrest.
  assert (forall q, q ∈ ce_primes c -> Z.prime q /\ q < ce_number c) as Hp.
  { intros q Hq%list_elem_of_In. apply Hin, andb_true_iff in Hq as [H1 H2].
    apply bool_decide_eq_true in H1. apply Z.ltb_lt in H2. split; [|done].
    by apply (proj1 (List.Forall_forall _ _) Hk), list_elem_of_In. }
  destruct (Hp (ce_first c)) as [Hq1 Hq1n]; [by left|]. pose proof (Z.prime_ge_2 _ Hq1) as Hq2.
  assert (forall q, q ∈ ce_primes c -> pocklington_ok (ce_number c) q
            (cofactor_power (ce_number c) (ce_base c) q) = true) as Hok.
  { intros q [-> | Hq]%elem_of_cons; [done|]. by apply Hrest, list_elem_of_In. }
  assert (forall q, q ∈ ce_primes c ->
    cofactor_power (ce_number c) (ce_base c) q mod ce_number c =
    ce_base c ^ ((ce_number c - 1) / q) mod ce_number c) as Hcof.
  { intros q Hq. destruct (Hp q Hq) as [Hqp Hqn]. pose proof (Z.prime_ge_2 q Hqp).
    apply cofactor_power_spec; [done|lia|done|]. apply Hok, andb_true_iff in Hq as [Hm _].
    by apply Z.eqb_eq. }
  assert (ce_base c ^ (ce_number c - 1) mod ce_number c = 1) as Hone.
  { pose proof Hfirst as Hm. apply andb_true_iff in Hm as [Hm _]. apply Z.eqb_eq in Hm, Ha.
    pose proof (pow_mod_spec (cofactor_power (ce_number c) (ce_base c) (ce_first c))
      (Z.to_pos (ce_first c)) (ce_number c)) as Hpow.
    rewrite Ha, Z2Pos.id, <- Z.mod_pow_l, Hcof, Z.mod_pow_l in Hpow by (lia || by left).
    symmetry in Hpow.
    rewrite <- Z.pow_mul_r in Hpow; [|apply Z.div_pos; lia|lia].
    pose proof (Z.div_mod (ce_number c - 1) (ce_first c) ltac:(lia)) as Hd.
    rewrite Hm, Z.add_0_r, Z.mul_comm in Hd. by rewrite <- Hd in Hpow. }
  apply prime_sqrt; [done|]. intros r Hr Hrn.
  assert (forall q, q ∈ ce_primes c -> Z.prime q /\ (q | r - 1)) as Hq.
  { intros q Hq. destruct (Hp q Hq) as [Hqp Hqn]. split; [done|].
    by apply (pocklington_divides (ce_number c) (ce_base c) q
      (cofactor_power (ce_number c) (ce_base c) q) r); auto. }
  assert ((product (ce_primes c) | r - 1)) as Hd.
  { apply product_divides; [| done |]; apply List.Forall_forall; intros q Hi; apply Hq;
      by apply list_elem_of_In. }
  pose proof (Z.prime_ge_2 r Hr). apply Z.divide_pos_le in Hd; [|lia].
  assert (0 < product (ce_primes c)) as Hpos; [|nia].
  assert (Forall (fun q => 0 < q) (ce_primes c)) as Hall.
  { apply List.Forall_forall. intros q Hi. apply list_elem_of_In, Hq in Hi as [Hqp _].
    pose proof (Z.prime_ge_2 q Hqp). lia. }
  clear -Hall. induction Hall as [|q qs Hq0 _ IH]; [done|].
  change (product (q :: qs)) with (q * product qs). nia.
Qed.

(** Small primes by division. *)
Definition trial (n b : Z) : bool :=
  (1 <? n) && (0 <? b) && (n <? (b + 1) * (b + 1)) && forallb (fun d => negb (n mod d =? 0)) (seqZ 2 (b - 1)).

Lemma trial_prime n b : trial n b = true -> Z.prime n.
Proof.
  unfold trial. rewrite !andb_true_iff, !Z.ltb_lt, List.forallb_forall. intros [[[Hn Hb0] Hb] Hd].
  apply prime_sqrt; [done|]. intros r Hr Hrn. pose proof (Z.prime_ge_2 r Hr).
  destruct (Z.lt_ge_cases b r) as [|Hle]; [nia|exfalso].
  specialize (Hd r). rewrite negb_true_iff, Z.eqb_neq in Hd. apply Hd; [|by apply Z.mod0_divide].
  apply list_elem_of_In, elem_of_seqZ. lia.
Qed.

(** Certificates in turn, each over the primes before it. *)
Fixpoint certificates_ok (known : list Z) (cs : list Certificate) : bool :=
  match cs with
  | [] => true
  | c :: cs => certificate_ok known c && certificates_ok (ce_number c :: known) cs
  end.

Lemma certificates_prime known cs :
  Forall Z.prime known -> certificates_ok known cs = true -> Forall Z.prime (map ce_number cs).
Proof.
  revert known. induction cs as [|c cs IH]; intros known Hk Hok; [by constructor|].
  cbn in Hok. apply andb_true_iff in Hok as [H1 H2].
  pose proof (certificate_prime known c Hk H1) as Hc. constructor; [done|].
  apply (IH (ce_number c :: known)); [by constructor|done].
Qed.

(** ** The moduli *)

Definition small_primes : list (Z * Z) :=
  [(5, 2); (197, 14); (313, 17); (3023, 54); (3677, 60); (78283, 279); (104471, 323); (155317, 394)].

Definition p256_certificates : list Certificate :=
  [certify 704251 2 313 [5];
   certify 46076956964474543 2 704251 [78283];
   certify 66417393611 2 3677 [197];
   certify 11290956913871 2 66417393611 [];
   certify 774023187263532362759620327192479577272145303 2 46076956964474543 [11290956913871];
   certify 835945042244614951780389953367877943453916927241 2
     774023187263532362759620327192479577272145303 [];
   certify 115792089210356248762697446949407573530086143415290314195533631308867097853951 2
     835945042244614951780389953367877943453916927241 [];
   certify 191039911 2 155317 [];
   certify 208150935158385979 2 191039911 [3023];
   certify 2624747550333869278416773953 2 208150935158385979 [];
   certify 3969899 2 104471 [];
   certify 1002328039319 2 3969899 [];
   certify 115792089210356248762697446949407573529996955224135760342422259061068512044369 2
     2624747550333869278416773953 [1002328039319]].

Lemma small_primes_ok : forallb (fun '(n, b) => trial n b) small_primes = true.
Proof. vm_compute. reflexivity. Qed.

Lemma small_primes_prime : Forall Z.prime (map fst small_primes).
Proof.
  apply List.Forall_forall. intros n ([n' b] & <- & Hin)%in_map_iff.
  pose proof (proj1 (List.forallb_forall _ _) small_primes_ok _ Hin) as H. exact (trial_prime n' b H).
Qed.

Lemma p256_certificates_ok : certificates_ok (map fst small_primes) p256_certificates = true.
Proof. vm_compute. reflexivity. Qed.

Lemma p256_certificates_prime : Forall Z.prime (map ce_number p256_certificates).
Proof. exact (certificates_prime _ _ small_primes_prime p256_certificates_ok). Qed.

Definition p256_field : Z := 2 ^ 256 - 2 ^ 224 + 2 ^ 192 + 2 ^ 96 - 1.
Definition p256_order : Z :=
  115792089210356248762697446949407573529996955224135760342422259061068512044369.

Lemma p256_field_prime : Z.prime p256_field.
Proof.
  apply (proj1 (List.Forall_forall _ _) p256_certificates_prime). do 6 right. left. vm_compute. reflexivity.
Qed.

Lemma p256_order_prime : Z.prime p256_order.
Proof.
  apply (proj1 (List.Forall_forall _ _) p256_certificates_prime). do 12 right. left. vm_compute. reflexivity.
Qed.
