(* ===== verification/U256.v ===== *)
(** * U256: the multi-precision arithmetic of bootloader/crypto/ecdsa_p256.c

    A [U256_t] is its eight limbs, the least significant first.  The sources
    pass results by pointer, sometimes the same object as an operand; every
    such loop reads a limb before it writes it, so results are values here.
    The theorems say that on reduced operands each routine is the arithmetic
    of the integers modulo the modulus. *)

From Stdlib Require Import ZArith Lia List Zmod.
From S2P Require Import Prelude Bytes.

#[local] Open Scope Z_scope.

Definition U256_LIMBS : Z := 8.
Definition U256_BITS : Z := 256.

Record U256_t := mkU256 { limb : list Z }.

(** ** The routines *)

Definition limb_at (v : U256_t) (i : Z) : Z := nth (Z.to_nat i) (limb v) 0.

Definition U256_Clear : U256_t := mkU256 (replicate (Z.to_nat U256_LIMBS) 0).

Definition U256_IsZero (v : U256_t) : bool := fold_left Z.lor (limb v) 0 =? 0.

(** From the most significant limb down. *)
Fixpoint compare_limbs (ls rs : list Z) : Z :=
  match ls, rs with
  | a :: ls, b :: rs =>
      if b <? a then 1 else if a <? b then -1 else compare_limbs ls rs
  | _, _ => 0
  end.

Definition U256_Compare (left right : U256_t) : Z :=
  compare_limbs (rev (limb left)) (rev (limb right)).

Definition U256_FromBigEndian (bytes : list Z) : U256_t :=
  mkU256 ((fun i =>
    let offset := 28 - i * 4 in
    Z.lor (Z.lor (Z.lor (Z.shiftl (byte_at bytes offset) 24) (Z.shiftl (byte_at bytes (offset + 1)) 16))
                 (Z.shiftl (byte_at bytes (offset + 2)) 8)) (byte_at bytes (offset + 3)))
    <$> seqZ 0 U256_LIMBS).

Definition U256_GetBit (v : U256_t) (bit : Z) : Z :=
  Z.land (Z.shiftr (limb_at v (Z.shiftr bit 5)) (Z.land bit 31)) 1.

(** The loops over the limbs carry the borrow and the carry. *)
Fixpoint sub_limbs (borrow : Z) (ls rs : list Z) : list Z :=
  match ls, rs with
  | a :: ls, b :: rs =>
      let first := u32 (a - b) in
      let borrow1 := Z.b2z (a <? b) in
      let second := u32 (first - borrow) in
      let borrow2 := Z.b2z (first <? borrow) in
      second :: sub_limbs (Z.lor borrow1 borrow2) ls rs
  | _, _ => []
  end.

Definition U256_SubRaw (left right : U256_t) : U256_t := mkU256 (sub_limbs 0 (limb left) (limb right)).

Fixpoint add_limbs (carry : Z) (ls rs : list Z) : list Z :=
  match ls, rs with
  | a :: ls, b :: rs =>
      let first := u32 (a + b) in
      let carry1 := Z.b2z (first <? a) in
      let second := u32 (first + carry) in
      let carry2 := Z.b2z (second <? first) in
      second :: add_limbs (Z.lor carry1 carry2) ls rs
  | _, _ => []
  end.

Definition U256_AddRaw (left right : U256_t) : U256_t := mkU256 (add_limbs 0 (limb left) (limb right)).

Fixpoint sub_small_limbs (borrow : Z) (value : list Z) : list Z :=
  match value with
  | [] => []
  | current :: rest =>
      let next := u32 (current - borrow) in
      if borrow <=? current then next :: rest else next :: sub_small_limbs 1 rest
  end.

Definition U256_SubSmall (value : U256_t) (small : Z) : U256_t :=
  mkU256 (sub_small_limbs small (limb value)).

Definition ModAdd (left right modulus : U256_t) : U256_t :=
  let threshold := U256_SubRaw modulus right in
  if 0 <=? U256_Compare left threshold then U256_SubRaw left threshold else U256_AddRaw left right.

Definition ModSub (left right modulus : U256_t) : U256_t :=
  if 0 <=? U256_Compare left right then U256_SubRaw left right
  else U256_SubRaw modulus (U256_SubRaw right left).

(** One bit of the multiplication: the accumulator and the shifted operand. *)
Definition ModMulStep (right modulus : U256_t) (x : U256_t * U256_t) (bit : Z) : U256_t * U256_t :=
  let '(accumulator, doubled) := x in
  (if U256_GetBit right bit <>? 0 then ModAdd accumulator doubled modulus else accumulator,
   if bit + 1 <? U256_BITS then ModAdd doubled doubled modulus else doubled).

Definition ModMul (left right modulus : U256_t) : U256_t :=
  fst (fold_left (ModMulStep right modulus) (seqZ 0 U256_BITS) (U256_Clear, left)).

Definition ModSquare (value modulus : U256_t) : U256_t := ModMul value value modulus.
Definition ModDouble (value modulus : U256_t) : U256_t := ModAdd value value modulus.
Definition ModTriple (value modulus : U256_t) : U256_t :=
  ModAdd (ModDouble value modulus) value modulus.
Definition ModTimes4 (value modulus : U256_t) : U256_t :=
  ModDouble (ModDouble value modulus) modulus.
Definition ModTimes8 (value modulus : U256_t) : U256_t :=
  ModDouble (ModTimes4 value modulus) modulus.

(** 1, built as the sources do. *)
Definition U256_One : U256_t := mkU256 (<[0%nat := 1]> (limb U256_Clear)).

(** The bits from the top down. *)
Definition bits_down : list Z := (fun i => 255 - i) <$> seqZ 0 256.

Definition ModInverseStep (value modulus exponent accumulator : U256_t) (bit : Z) : U256_t :=
  let accumulator := ModSquare accumulator modulus in
  if U256_GetBit exponent bit <>? 0 then ModMul accumulator value modulus else accumulator.

(** [None] for a return of 0. *)
Definition ModInverse (value modulus : U256_t) : option U256_t :=
  if U256_IsZero value then None else
  let exponent := U256_SubSmall modulus 2 in
  Some (fold_left (ModInverseStep value modulus exponent) bits_down U256_One).

(** ** Values *)

Fixpoint limbs_value (l : list Z) : Z :=
  match l with
  | [] => 0
  | w :: l => w + 2 ^ 32 * limbs_value l
  end.

Definition value (v : U256_t) : Z := limbs_value (limb v).

(** The type: eight 32-bit words. *)
Definition U256_ok (v : U256_t) : Prop := words_ok (limb v) /\ length (limb v) = 8%nat.

Lemma limbs_value_range l : words_ok l -> 0 <= limbs_value l < 2 ^ (32 * len l).
Proof.
  induction 1 as [|w l Hw _ IH]; cbn [limbs_value length]; [done|].
  unfold is_u32 in Hw. rewrite Nat2Z.inj_succ, Z.mul_succ_r, Z.pow_add_r by lia. nia.
Qed.

Lemma value_range v : U256_ok v -> 0 <= value v < 2 ^ 256.
Proof. intros [Hw Hl]. pose proof (limbs_value_range _ Hw) as H. by rewrite Hl in H. Qed.

Lemma limbs_value_app a b : limbs_value (a ++ b) = limbs_value a + 2 ^ (32 * len a) * limbs_value b.
Proof.
  induction a as [|w a IH]; cbn [limbs_value app length]; [lia|].
  rewrite IH, Nat2Z.inj_succ, Z.mul_succ_r, Z.pow_add_r by lia. ring.
Qed.

(** ** Sums and differences *)

Lemma sub_limbs_spec borrow l r :
  words_ok l -> words_ok r -> length l = length r -> 0 <= borrow <= 1 ->
  words_ok (sub_limbs borrow l r) /\ length (sub_limbs borrow l r) = length l /\
  exists b, 0 <= b <= 1 /\
    limbs_value (sub_limbs borrow l r) = limbs_value l - limbs_value r - borrow + b * 2 ^ (32 * len l).
Proof.
  intros Hl. revert r borrow. induction Hl as [|a l Ha Hl IH]; intros [|b r] borrow Hr Hlen Hb; try done.
  - split_and!; [constructor|done|]. exists borrow. split; [done|]. cbn. lia.
  - apply Forall_cons in Hr as [Hb0 Hr]. injection Hlen as Hlen. cbn [sub_limbs].
    set (first := u32 (a - b)). set (second := u32 (first - borrow)).
    set (bo := Z.lor _ _).
    assert (0 <= bo <= 1 /\ second = a - b - borrow + bo * 2 ^ 32) as [Hbo Hsec].
    { unfold bo, second, first. unfold is_u32 in Ha, Hb0.
      destruct (Z.ltb_spec a b) as [H1|H1].
      - assert (u32 (a - b) = a - b + 2 ^ 32) as ->.
        { unfold u32. rewrite <- (Z_mod_plus_full _ 1). apply Z.mod_small. lia. }
        rewrite (proj2 (Z.ltb_ge _ _)) by lia. change (Z.lor _ _) with 1. rewrite u32_small by (unfold is_u32; lia). lia.
      - rewrite (u32_small (a - b)) by (unfold is_u32; lia).
        destruct (Z.ltb_spec (a - b) borrow) as [H2|H2];
          [change (Z.lor _ _) with 1|change (Z.lor _ _) with 0].
        + assert (u32 (a - b - borrow) = a - b - borrow + 2 ^ 32) as ->; [|lia].
          unfold u32. rewrite <- (Z_mod_plus_full _ 1). apply Z.mod_small. lia.
        + rewrite u32_small by (unfold is_u32; lia). lia. }
    destruct (IH r bo) as (Hw & Hn & b' & Hb' & Hv); [done..|]. split_and!.
    + constructor; [|done]. apply u32_range.
    + cbn [length]. by rewrite Hn.
    + exists b'. split; [done|]. cbn [limbs_value length]. rewrite Hv, Hsec, Nat2Z.inj_succ, Z.mul_succ_r, Z.pow_add_r by lia. ring.
Qed.

Lemma add_limbs_spec carry l r :
  words_ok l -> words_ok r -> length l = length r -> 0 <= carry <= 1 ->
  words_ok (add_limbs carry l r) /\ length (add_limbs carry l r) = length l /\
  exists b, 0 <= b <= 1 /\
    limbs_value (add_limbs carry l r) + b * 2 ^ (32 * len l) = limbs_value l + limbs_value r + carry.
Proof.
  intros Hl. revert r carry. induction Hl as [|a l Ha Hl IH]; intros [|b r] carry Hr Hlen Hc; try done.
  - split_and!; [constructor|done|]. exists carry. split; [done|]. cbn. lia.
  - apply Forall_cons in Hr as [Hb0 Hr]. injection Hlen as Hlen. cbn [add_limbs].
    set (first := u32 (a + b)). set (second := u32 (first + carry)).
    set (co := Z.lor _ _).
    assert (0 <= co <= 1 /\ second + co * 2 ^ 32 = a + b + carry) as [Hco Hsec].
    { unfold co, second, first. unfold is_u32 in Ha, Hb0.
      destruct (Z.lt_ge_cases (a + b) (2 ^ 32)) as [H1|H1].
      - rewrite (u32_small (a + b)), (proj2 (Z.ltb_ge _ a)) by (unfold is_u32; lia).
        destruct (Z.lt_ge_cases (a + b + carry) (2 ^ 32)) as [H2|H2].
        + rewrite (u32_small (a + b + carry)), (proj2 (Z.ltb_ge _ _)) by (unfold is_u32; lia).
          change (Z.lor _ _) with 0. lia.
        + assert (u32 (a + b + carry) = a + b + carry - 2 ^ 32) as ->.
          { unfold u32. rewrite <- (Z_mod_plus_full _ (-1)). apply Z.mod_small. lia. }
          rewrite (proj2 (Z.ltb_lt _ _)) by lia. change (Z.lor _ _) with 1. lia.
      - assert (u32 (a + b) = a + b - 2 ^ 32) as ->.
        { unfold u32. rewrite <- (Z_mod_plus_full _ (-1)). apply Z.mod_small. lia. }
        rewrite (proj2 (Z.ltb_lt _ a)), (u32_small (_ + carry)) by (unfold is_u32; lia).
        rewrite (proj2 (Z.ltb_ge _ _)) by lia. change (Z.lor _ _) with 1. lia. }
    destruct (IH r co) as (Hw & Hn & b' & Hb' & Hv); [done..|]. split_and!.
    + constructor; [|done]. apply u32_range.
    + cbn [length]. by rewrite Hn.
    + exists b'. split; [done|]. cbn [limbs_value length].
      rewrite Nat2Z.inj_succ, Z.mul_succ_r, Z.pow_add_r by lia.
      assert (2 ^ 32 * (limbs_value (add_limbs co l r) + b' * 2 ^ (32 * len l)) =
        2 ^ 32 * (limbs_value l + limbs_value r + co)) as Hv' by by rewrite Hv.
      lia.
Qed.

Lemma U256_SubRaw_spec l r :
  U256_ok l -> U256_ok r -> value r <= value l ->
  U256_ok (U256_SubRaw l r) /\ value (U256_SubRaw l r) = value l - value r.
Proof.
  intros Hl Hr Hle. pose proof (value_range _ Hl). pose proof (value_range _ Hr).
  destruct Hl as [Hl Hnl], Hr as [Hr Hnr].
  destruct (sub_limbs_spec 0 (limb l) (limb r)) as (Hw & Hn & b & Hb & Hv); [done|done|by rewrite Hnl|done|].
  split; [split; [done|by rewrite <- Hnl]|]. rewrite Hnl in Hv. unfold value in *. cbn [U256_SubRaw limb].
  assert (0 <= limbs_value (sub_limbs 0 (limb l) (limb r)) < 2 ^ 256) as Hrange.
  { apply (value_range (mkU256 _)). split; [done|by rewrite <- Hnl]. }
  change (2 ^ (32 * Z.of_nat 8)) with (2 ^ 256) in Hv. lia.
Qed.

Lemma U256_AddRaw_spec l r :
  U256_ok l -> U256_ok r -> value l + value r < 2 ^ 256 ->
  U256_ok (U256_AddRaw l r) /\ value (U256_AddRaw l r) = value l + value r.
Proof.
  intros Hl Hr Hle. pose proof (value_range _ Hl). pose proof (value_range _ Hr).
  destruct Hl as [Hl Hnl], Hr as [Hr Hnr].
  destruct (add_limbs_spec 0 (limb l) (limb r)) as (Hw & Hn & b & Hb & Hv); [done|done|by rewrite Hnl|done|].
  split; [split; [done|by rewrite <- Hnl]|]. rewrite Hnl in Hv. unfold value in *. cbn [U256_AddRaw limb].
  assert (0 <= limbs_value (add_limbs 0 (limb l) (limb r)) < 2 ^ 256) as Hrange.
  { apply (value_range (mkU256 _)). split; [done|by rewrite <- Hnl]. }
  change (2 ^ (32 * Z.of_nat 8)) with (2 ^ 256) in Hv. lia.
Qed.

Lemma sub_small_limbs_spec borrow l :
  words_ok l -> 0 <= borrow < 2 ^ 32 -> borrow <= limbs_value l ->
  words_ok (sub_small_limbs borrow l) /\ length (sub_small_limbs borrow l) = length l /\
  limbs_value (sub_small_limbs borrow l) = limbs_value l - borrow.
Proof.
  intros Hl. revert borrow. induction Hl as [|w l Hw Hl IH]; intros borrow Hb Hle.
  { cbn in Hle. split_and!; [constructor|done|cbn; lia]. }
  pose proof (limbs_value_range _ Hl) as Hr. cbn [limbs_value] in Hle. unfold is_u32 in Hw. cbn [sub_small_limbs].
  destruct (Z.leb_spec borrow w) as [H1|H1].
  - rewrite u32_small by (unfold is_u32; lia). cbn [limbs_value length].
    split_and!; [constructor; [unfold is_u32; lia|done]|done|lia].
  - destruct (IH 1) as (Hw' & Hn & Hv); [lia|nia|]. cbn [limbs_value length].
    assert (u32 (w - borrow) = w - borrow + 2 ^ 32) as Hu.
    { unfold u32. rewrite <- (Z_mod_plus_full _ 1). apply Z.mod_small. lia. }
    split_and!; [constructor; [apply u32_range|done]|by rewrite Hn|]. rewrite Hv, Hu. lia.
Qed.

Lemma U256_SubSmall_spec v small :
  U256_ok v -> 0 <= small < 2 ^ 32 -> small <= value v ->
  U256_ok (U256_SubSmall v small) /\ value (U256_SubSmall v small) = value v - small.
Proof.
  intros [Hw Hn] Hs Hle. destruct (sub_small_limbs_spec small (limb v)) as (H1 & H2 & H3); [done..|].
  split; [split; [done|by rewrite <- Hn]|done].
Qed.

(** ** Comparisons and bits *)

Lemma compare_limbs_spec l r :
  words_ok l -> words_ok r -> length l = length r ->
  compare_limbs l r = Z.sgn (limbs_value (rev l) - limbs_value (rev r)).
Proof.
  intros Hl. revert r. induction Hl as [|a l Ha Hl IH]; intros [|b r] Hr Hlen; try done.
  apply Forall_cons in Hr as [Hb Hr]. injection Hlen as Hlen. cbn [compare_limbs rev].
  rewrite !limbs_value_app, !length_rev, <- Hlen. cbn [limbs_value]. rewrite !Z.mul_0_r, !Z.add_0_r.
  pose proof (limbs_value_range (rev l)) as H1. pose proof (limbs_value_range (rev r)) as H2.
  rewrite length_rev in H1, H2. rewrite <- Hlen in H2.
  assert (words_ok (rev l) /\ words_ok (rev r)) as [Hwl Hwr] by by split; apply Forall_rev.
  specialize (H1 Hwl). specialize (H2 Hwr). set (B := 2 ^ (32 * len l)) in *.
  destruct (Z.ltb_spec b a); [rewrite Z.sgn_pos; [done|nia]|].
  destruct (Z.ltb_spec a b); [rewrite Z.sgn_neg; [done|nia]|].
  assert (a = b) as -> by lia. rewrite IH by done. f_equal. lia.
Qed.

Lemma U256_Compare_spec l r :
  U256_ok l -> U256_ok r -> U256_Compare l r = Z.sgn (value l - value r).
Proof.
  intros [Hl Hnl] [Hr Hnr]. unfold U256_Compare.
  rewrite compare_limbs_spec, !rev_involutive; [done|by apply Forall_rev..|].
  by rewrite !length_rev, Hnl, Hnr.
Qed.

Lemma U256_Compare_ge l r :
  U256_ok l -> U256_ok r -> (0 <=? U256_Compare l r) = (value r <=? value l).
Proof. intros. rewrite U256_Compare_spec by done. lia. Qed.

Lemma U256_Compare_eq l r :
  U256_ok l -> U256_ok r -> (U256_Compare l r =? 0) = (value l =? value r).
Proof. intros. rewrite U256_Compare_spec by done. lia. Qed.

Lemma fold_lor_zero l acc :
  words_ok l -> 0 <= acc -> fold_left Z.lor l acc = 0 <-> acc = 0 /\ limbs_value l = 0.
Proof.
  intros Hl. revert acc. induction Hl as [|w l Hw Hl IH]; intros acc Hacc; cbn [fold_left limbs_value]; [lia|].
  unfold is_u32 in Hw. pose proof (limbs_value_range _ Hl). rewrite IH by (apply Z.lor_nonneg; lia).
  rewrite Z.lor_eq_0_iff. lia.
Qed.

Lemma U256_IsZero_spec v : U256_ok v -> U256_IsZero v = (value v =? 0).
Proof.
  intros [Hw _]. unfold U256_IsZero. apply Bool.eq_iff_eq_true. rewrite !Z.eqb_eq.
  rewrite fold_lor_zero by done. unfold value. lia.
Qed.

Lemma limbs_testbit l i j :
  words_ok l -> 0 <= j < 32 -> Z.testbit (limbs_value l) (32 * Z.of_nat i + j) = Z.testbit (nth i l 0) j.
Proof.
  intros Hl Hj. revert i. induction Hl as [|w l Hw Hl IH]; intros i.
  { cbn. destruct i; by rewrite !Z.testbit_0_l. }
  unfold is_u32 in Hw. cbn [limbs_value].
  rewrite (Z.mul_comm (2 ^ 32)), <- lor_disjoint_add by lia. rewrite Z.lor_spec, Z.shiftl_spec by lia.
  destruct i as [|i]; cbn [nth].
  - rewrite (Z.testbit_neg_r (limbs_value l)), orb_false_r by lia. f_equal.
  - rewrite (testbit_out_u32 w) by (unfold is_u32; lia). cbn [orb].
    rewrite <- IH. f_equal. lia.
Qed.

Lemma land_1_testbit x : 0 <= x -> (Z.land x 1 <>? 0) = Z.testbit x 0.
Proof.
  intros Hx. change 1 with (Z.ones 1). rewrite Z.land_ones by lia. change (2 ^ 1) with 2.
  rewrite <- Z.bit0_mod. by destruct (Z.testbit x 0).
Qed.

Lemma U256_GetBit_spec v bit :
  U256_ok v -> 0 <= bit -> (U256_GetBit v bit <>? 0) = Z.testbit (value v) bit.
Proof.
  intros [Hw _] Hb. unfold U256_GetBit, limb_at, value. rewrite land_1_testbit.
  2: { apply Z.shiftr_nonneg. destruct (nth_in_or_default (Z.to_nat (Z.shiftr bit 5)) (limb v) 0) as [H| ->]; [|lia].
       apply (proj1 (List.Forall_forall _ _) Hw) in H. unfold is_u32 in H. lia. }
  change 31 with (Z.ones 5). rewrite Z.land_ones, Z.shiftr_spec, Z.add_0_l, (Z.shiftr_div_pow2 bit 5) by lia.
  rewrite <- limbs_testbit by (done || apply Z.mod_pos_bound; lia).
  rewrite Z2Nat.id by (apply Z.div_pos; lia).
  pose proof (Z.div_mod bit (2 ^ 5) ltac:(lia)) as Hd.
  change (2 ^ 5) with 32 in *. by rewrite <- Hd.
Qed.

(** ** Arithmetic modulo the modulus *)

Section modulus.
Context (modulus : U256_t) (Hok : U256_ok modulus) (Hpos : 2 <= value modulus).

Abbreviation m := (value modulus).

Definition reduced (v : U256_t) : Prop := U256_ok v /\ value v < m.

(** What a routine of two operands computes. *)
Definition computes (v : U256_t) (x : Z) : Prop := reduced v /\ value v = x mod m.

Lemma reduced_value v : reduced v -> 0 <= value v < m.
Proof. intros [Hv Hlt]. pose proof (value_range _ Hv). lia. Qed.

Lemma ModAdd_spec l r : reduced l -> reduced r -> computes (ModAdd l r modulus) (value l + value r).
Proof.
  intros Hl Hr. pose proof (reduced_value _ Hl). pose proof (reduced_value _ Hr).
  pose proof (value_range _ Hok). destruct Hl as [Hlo _], Hr as [Hro _].
  unfold ModAdd. destruct (U256_SubRaw_spec modulus r) as [Ht Hvt]; [done|done|lia|].
  rewrite U256_Compare_ge, Hvt by done. destruct (Z.leb_spec (m - value r) (value l)) as [Hge|Hlt].
  - destruct (U256_SubRaw_spec l (U256_SubRaw modulus r)) as [Hs Hvs]; [done|done|lia|].
    rewrite Hvt in Hvs. split; [split; [done|lia]|].
    rewrite Hvs, <- (Z_mod_plus_full _ (-1)), Z.mod_small; lia.
  - destruct (U256_AddRaw_spec l r) as [Hs Hvs]; [done|done|lia|].
    split; [split; [done|lia]|]. rewrite Hvs, Z.mod_small; lia.
Qed.

Lemma ModSub_spec l r : reduced l -> reduced r -> computes (ModSub l r modulus) (value l - value r).
Proof.
  intros Hl Hr. pose proof (reduced_value _ Hl). pose proof (reduced_value _ Hr).
  destruct Hl as [Hlo _], Hr as [Hro _].
  unfold ModSub. rewrite U256_Compare_ge by done. destruct (Z.leb_spec (value r) (value l)) as [Hge|Hlt].
  - destruct (U256_SubRaw_spec l r) as [Hs Hvs]; [done..|].
    split; [split; [done|lia]|]. rewrite Hvs, Z.mod_small; lia.
  - destruct (U256_SubRaw_spec r l) as [Hs Hvs]; [done|done|lia|].
    destruct (U256_SubRaw_spec modulus (U256_SubRaw r l)) as [Hs' Hvs']; [done|done|lia|].
    split; [split; [done|lia]|]. rewrite Hvs', Hvs, <- (Z_mod_plus_full _ 1), Z.mod_small; lia.
Qed.

Lemma ModDouble_spec v : reduced v -> computes (ModDouble v modulus) (2 * value v).
Proof. intros Hv. rewrite <- Z.add_diag. by apply ModAdd_spec. Qed.

Lemma computes_reduced v x : computes v x -> reduced v.
Proof. by intros []. Qed.

Lemma computes_value v x : computes v x -> value v = x mod m.
Proof. by intros []. Qed.

Lemma computes_eq v x y : computes v x -> x mod m = y mod m -> computes v y.
Proof. intros [Hr Hv] Hxy. split; [done|]. by rewrite Hv. Qed.

Lemma U256_Clear_spec : computes U256_Clear 0.
Proof.
  split; [split; [split; [apply Forall_replicate; unfold is_u32; lia|done]|]|].
  - change (value U256_Clear) with 0. lia.
  - by rewrite Z.mod_0_l by lia.
Qed.

Lemma U256_One_spec : computes U256_One 1.
Proof.
  split; [split; [split; [|done]|]|].
  - change (words_ok (1 :: replicate 7 0)). constructor; [|apply Forall_replicate]; unfold is_u32; lia.
  - change (value U256_One) with 1. lia.
  - by rewrite Z.mod_1_l by lia.
Qed.

(** The bits of [r] from [k] on are left. *)
Lemma ModMul_loop l r n k acc doubled :
  U256_ok r -> k + Z.of_nat n = 256 -> 0 <= k -> computes acc (l * (value r mod 2 ^ k)) ->
  (n <> 0%nat -> computes doubled (l * 2 ^ k)) ->
  computes (fold_left (ModMulStep r modulus) (seqZ k (Z.of_nat n)) (acc, doubled)).1 (l * value r).
Proof.
  intros Hr. revert k acc doubled. induction n as [|n IH]; intros k acc doubled Hk H0 Hacc Hd.
  { cbn. rewrite Z.mod_small in Hacc; [done|]. replace k with 256 by lia. by apply value_range. }
  specialize (Hd ltac:(done)). rewrite Nat2Z.inj_succ, seqZ_cons by lia. cbn [fold_left ModMulStep].
  rewrite Z.pred_succ, U256_GetBit_spec by done. apply IH; [lia|lia| |].
  - rewrite Z.pow_succ_r by done.
    assert (value r mod (2 * 2 ^ k) = value r mod 2 ^ k + 2 ^ k * Z.b2z (Z.testbit (value r) k)) as ->.
    { rewrite (Z.mul_comm 2), Z.rem_mul_r, Z.testbit_spec' by lia. done. }
    destruct (Z.testbit (value r) k); cbn [Z.b2z].
    + eapply computes_eq; [apply ModAdd_spec; by eapply computes_reduced|].
      rewrite (computes_value _ _ Hacc), (computes_value _ _ Hd), <- Zplus_mod. f_equal. ring.
    + by rewrite Z.mul_0_r, Z.add_0_r.
  - intros Hn. rewrite (proj2 (Z.ltb_lt _ _)) by (unfold U256_BITS; lia).
    eapply computes_eq; [apply ModAdd_spec; by eapply computes_reduced|].
    rewrite (computes_value _ _ Hd), <- Zplus_mod, Z.pow_succ_r by done. f_equal. ring.
Qed.

Lemma ModMul_spec l r : reduced l -> U256_ok r -> computes (ModMul l r modulus) (value l * value r).
Proof.
  intros Hl Hr. unfold ModMul. change U256_BITS with (Z.of_nat 256).
  apply (ModMul_loop (value l) r 256 0 U256_Clear l Hr eq_refl (Z.le_refl 0)).
  - rewrite Z.pow_0_r, Z.mod_1_r, Z.mul_0_r. apply U256_Clear_spec.
  - intros _. rewrite Z.pow_0_r, Z.mul_1_r. split; [done|]. symmetry. apply Z.mod_small. by apply reduced_value.
Qed.

Lemma ModSquare_spec v : reduced v -> computes (ModSquare v modulus) (value v * value v).
Proof. intros Hv. exact (ModMul_spec v v Hv (proj1 Hv)). Qed.

(** [n] bits are left, the exponent without them has been used. *)
Lemma ModInverse_loop v e (n : nat) k acc :
  reduced v -> U256_ok e -> k + Z.of_nat n = 256 -> 0 <= k ->
  computes acc (value v ^ (value e / 2 ^ Z.of_nat n)) ->
  computes (fold_left (ModInverseStep v modulus e) ((fun i => 255 - i) <$> seqZ k (Z.of_nat n)) acc)
    (value v ^ value e).
Proof.
  intros Hv He. revert k acc. induction n as [|n IH]; intros k acc Hk H0 Hacc.
  { cbn in *. by rewrite Z.div_1_r in Hacc. }
  rewrite Nat2Z.inj_succ, seqZ_cons by lia. cbn [fmap list_fmap fold_left].
  rewrite Z.pred_succ. apply IH; [lia|lia|]. unfold ModInverseStep.
  replace (255 - k) with (Z.of_nat n) by lia. rewrite U256_GetBit_spec by (done || lia).
  pose proof (value_range _ He) as Her. set (E := value e) in *.
  pose proof (ModSquare_spec acc (computes_reduced _ _ Hacc)) as Hsq.
  assert (computes (ModSquare acc modulus) (value v ^ (2 * (E / 2 ^ Z.of_nat (S n))))) as Hsq'.
  { eapply computes_eq; [exact Hsq|]. rewrite (computes_value _ _ Hacc), <- Zmult_mod, <- Z.pow_add_r
      by (apply Z.div_pos; lia). do 2 f_equal. lia. }
  rewrite Nat2Z.inj_succ, Z.pow_succ_r, (Z.mul_comm 2 (2 ^ _)), <- Z.div_div in Hsq' by lia.
  pose proof (Z.testbit_spec' E (Z.of_nat n) ltac:(lia)) as Hbit.
  pose proof (Z.div_mod (E / 2 ^ Z.of_nat n) 2 ltac:(lia)) as Hd. rewrite <- Hbit in Hd.
  assert (0 <= E / 2 ^ Z.of_nat n / 2) by (apply Z.div_pos; [apply Z.div_pos|]; lia).
  set (X := E / 2 ^ Z.of_nat n) in *. set (Y := X / 2) in *. clearbody Y.
  destruct (Z.testbit E (Z.of_nat n)); cbn [Z.b2z] in Hd; rewrite Hd.
  - eapply computes_eq; [apply ModMul_spec; [by eapply computes_reduced|apply Hv]|].
    by rewrite (computes_value _ _ Hsq'), Zmult_mod_idemp_l, Z.pow_add_r, Z.pow_1_r by lia.
  - by rewrite Z.add_0_r.
Qed.

(** The inverse of Fermat's theorem. *)
Lemma ModInverse_spec v :
  reduced v ->
  match ModInverse v modulus with
  | None => value v = 0
  | Some w => value v <> 0 /\ computes w (value v ^ (m - 2))
  end.
Proof.
  intros Hv. unfold ModInverse. rewrite U256_IsZero_spec by apply Hv.
  destruct (Z.eqb_spec (value v) 0) as [H0|H0]; [done|]. split; [done|].
  pose proof (value_range _ Hok).
  destruct (U256_SubSmall_spec modulus 2) as [He Hve]; [done|lia|lia|]. rewrite <- Hve.
  unfold bits_down. change (seqZ 0 256) with (seqZ 0 (Z.of_nat 256)).
  apply (ModInverse_loop v _ 256 0 U256_One Hv He eq_refl (Z.le_refl 0)).
  rewrite Hve, Z.div_small, Z.pow_0_r by lia. apply U256_One_spec.
Qed.

End modulus.

(** ** Reading a number *)

Lemma U256_FromBigEndian_spec bytes :
  bytes_ok bytes -> length bytes = 32%nat ->
  U256_ok (U256_FromBigEndian bytes) /\ value (U256_FromBigEndian bytes) = be_number bytes.
Proof.
  intros Hb Hlen.
  assert (forall i, is_byte (byte_at bytes i)) as Hbyte by (intros; by apply byte_at_ok).
  assert (forall i, Z.lor (Z.lor (Z.lor (Z.shiftl (byte_at bytes i) 24) (Z.shiftl (byte_at bytes (i + 1)) 16))
      (Z.shiftl (byte_at bytes (i + 2)) 8)) (byte_at bytes (i + 3)) =
    be_number [byte_at bytes i; byte_at bytes (i + 1); byte_at bytes (i + 2); byte_at bytes (i + 3)]) as Hl.
  { intros i. by apply be_number_4. }
  split.
  - split; [|done]. apply Forall_fmap, Forall_true. intros i. unfold compose. cbv beta zeta. rewrite Hl.
    pose proof (Hbyte (28 - i * 4)). pose proof (Hbyte (28 - i * 4 + 1)).
    pose proof (Hbyte (28 - i * 4 + 2)). pose proof (Hbyte (28 - i * 4 + 3)).
    unfold is_byte, is_u32, be_number in *. cbn [fold_left]. lia.
  - unfold value, U256_FromBigEndian. cbn [limb]. change (seqZ 0 U256_LIMBS) with [0; 1; 2; 3; 4; 5; 6; 7].
    cbn [fmap list_fmap]. rewrite !Hl. clear Hl Hbyte Hb.
    do 32 (destruct bytes as [|? bytes]; [done|]). destruct bytes; [|done].
    unfold be_number, byte_at. cbn [fold_left limbs_value].
    repeat match goal with |- context [Z.to_nat ?x] =>
      let v := eval vm_compute in (Z.to_nat x) in change (Z.to_nat x) with v end.
    cbn [nth]. lia.
Qed.

(** ** The contract of the modular routines *)

(** On eight-limb numbers below a modulus the modular addition,
    subtraction, multiplication and inversion compute the sum, difference,
    product and Fermat inverse modulo it, and give eight-limb numbers below it. *)
Theorem modular_arithmetic modulus l r :
  U256_ok modulus -> 2 <= value modulus -> reduced modulus l -> reduced modulus r ->
  computes modulus (ModAdd l r modulus) (value l + value r) /\
  computes modulus (ModSub l r modulus) (value l - value r) /\
  computes modulus (ModMul l r modulus) (value l * value r) /\
  match ModInverse l modulus with
  | None => value l = 0
  | Some w => value l <> 0 /\ computes modulus w (value l ^ (value modulus - 2))
  end.
Proof.
  intros Hok Hpos Hl Hr. split_and!.
  - by apply ModAdd_spec.
  - by apply ModSub_spec.
  - by apply ModMul_spec; [| | |apply Hr].
  - by apply ModInverse_spec.
Qed.
