(* ===== verification/Curve.v ===== *)
(** * Curve: the group law of a short Weierstrass curve with a = -3

    The textbook law on affine points over the field of a prime modulus, the
    reference for the Jacobian formulas of ecdsa_p256.c. *)

From Stdlib Require Import ZArith Zmod Field.
From S2P Require Import Prelude.

#[local] Open Scope Z_scope.

#[export] Instance Zmod_eq_dec m : EqDecision (Zmod m).
Proof.
  intros x y. refine (match Zmod.eqb x y as b return Zmod.eqb x y = b -> Decision (x = y) with
                      | true => fun H => left _ | false => fun H => right _ end eq_refl).
  - by apply Zmod.eqb_eq.
  - intros Hxy. rewrite (proj2 (Zmod.eqb_eq x y) Hxy) in H. done.
Defined.

Declare Scope field_scope.
Delimit Scope field_scope with F.

Section curve.
Context (p : Z) (Hp : Z.prime p) (Hp3 : 3 <= p).

Abbreviation F := (Zmod p).

#[local] Notation "0" := (@Zmod.zero p) : field_scope.
#[local] Notation "1" := (@Zmod.one p) : field_scope.
#[local] Notation "x + y" := (@Zmod.add p x y) : field_scope.
#[local] Notation "x - y" := (@Zmod.sub p x y) : field_scope.
#[local] Notation "x * y" := (@Zmod.mul p x y) : field_scope.
#[local] Notation "x / y" := (@Zmod.mdiv p x y) : field_scope.
#[local] Notation "- x" := (@Zmod.opp p x) : field_scope.
#[local] Open Scope field_scope.

Add Field curve_field : (Zmod.field_theory p Hp).

(** [None] is the point at infinity. *)
Definition Point : Type := option (F * F).

Definition on_curve (b : F) (x y : F) : Prop := y * y = x * x * x - (x + x + x) + b.

(** The third point of a line of slope [l] through a point of abscissa [x1] and
    one of abscissa [x2], reflected. *)
Definition third (l x1 y1 x2 : F) : Point :=
  let x3 := l * l - x1 - x2 in Some (x3, l * (x1 - x3) - y1).

Definition tangent (x y : F) : F := (x * x + x * x + x * x - (1 + 1 + 1)) / (y + y).

Definition pt_double (P : Point) : Point :=
  match P with
  | None => None
  | Some (x, y) => if Zmod.eqb y 0 then None else third (tangent x y) x y x
  end.

Definition pt_add (P Q : Point) : Point :=
  match P, Q with
  | None, _ => Q
  | _, None => P
  | Some (x1, y1), Some (x2, y2) =>
      if Zmod.eqb x1 x2 then if Zmod.eqb y1 y2 then pt_double P else None
      else third ((y2 - y1) / (x2 - x1)) x1 y1 x2
  end.

(** [u1 * G + u2 * Q], both scalars at once from the top bit down. *)
Definition combine_step (u1 u2 : Z) (G Q : Point) (R : Point) (bit : Z) : Point :=
  let R := pt_double R in
  let R := if Z.testbit u1 bit then pt_add R G else R in
  if Z.testbit u2 bit then pt_add R Q else R.

(** ** Facts of the field *)

Lemma two_neq_zero : 1 + 1 <> 0.
Proof.
  intros H. apply (f_equal Zmod.to_Z) in H. rewrite Zmod.to_Z_add, !Zmod.to_Z_1_pos, Zmod.to_Z_0 in H by lia.
  by rewrite Z.mod_small in H by lia.
Qed.

Lemma mul_neq_zero x y : x <> 0 -> y <> 0 -> x * y <> 0.
Proof. intros Hx Hy H. apply (Zmod.mul_0_iff_prime Hp) in H. tauto. Qed.

Lemma double_neq_zero y : y <> 0 -> y + y <> 0.
Proof.
  intros Hy H. apply (mul_neq_zero (1 + 1) y two_neq_zero Hy). by transitivity (y + y); [ring|].
Qed.

Lemma sub_neq_zero x y : x <> y -> x - y <> 0.
Proof. intros H H0. apply H. by apply Zmod.sub_eq_0_iff. Qed.

(** ** Projective coordinates *)

(** [(X, Y, Z)] stands for [(X / Z^2, Y / Z^3)]. *)
Definition stands_for (X Y Z : F) (P : Point) : Prop :=
  match P with
  | None => Z = 0
  | Some (x, y) => Z <> 0 /\ X = x * (Z * Z) /\ Y = y * (Z * (Z * Z))
  end.

Lemma stands_for_double X Y Z x y :
  stands_for X Y Z (Some (x, y)) -> y <> 0 ->
  let delta := Z * Z in
  let gamma := Y * Y in
  let beta := X * gamma in
  let a := (X - delta) * (X + delta) in
  let alpha := a + a + a in
  let beta4 := beta + beta + (beta + beta) in
  let x3 := alpha * alpha - (beta4 + beta4) in
  let z3 := (Y + Z) * (Y + Z) - gamma - delta in
  let g2 := gamma * gamma in
  let g4 := g2 + g2 + (g2 + g2) in
  let y3 := alpha * (beta4 - x3) - (g4 + g4) in
  stands_for x3 y3 z3 (third (tangent x y) x y x).
Proof.
  intros (HZ & -> & ->) Hy. cbv zeta. unfold third, tangent. cbn [stands_for].
  pose proof (double_neq_zero y Hy) as Hyy. pose proof two_neq_zero as H2.
  split_and!.
  - intros H. apply (mul_neq_zero (y + y) (Z * Z * (Z * Z))); [done|by repeat apply mul_neq_zero|].
    rewrite <- H. ring.
  - field. done.
  - field. done.
Qed.

(** The differences of the mixed addition. *)
Lemma stands_for_differences X Y Z x1 y1 x2 y2 :
  stands_for X Y Z (Some (x1, y1)) ->
  let h := x2 * (Z * Z) - X in
  let r := y2 * (Z * (Z * Z)) - Y in
  (h = 0 <-> x1 = x2) /\ (r = 0 <-> y1 = y2).
Proof.
  intros (HZ & -> & ->). cbv zeta. split; (split; [|intros ->; ring]); intros H.
  - symmetry. apply Zmod.sub_eq_0_iff. apply dec_stable. intros Hne.
    apply (mul_neq_zero _ _ Hne (mul_neq_zero _ _ HZ HZ)). rewrite <- H. ring.
  - symmetry. apply Zmod.sub_eq_0_iff. apply dec_stable. intros Hne.
    apply (mul_neq_zero _ _ Hne (mul_neq_zero _ _ HZ (mul_neq_zero _ _ HZ HZ))). rewrite <- H. ring.
Qed.

Lemma stands_for_add X Y Z x1 y1 x2 y2 :
  stands_for X Y Z (Some (x1, y1)) -> x1 <> x2 ->
  let zz := Z * Z in
  let h := x2 * zz - X in
  let r0 := y2 * (Z * zz) - Y in
  let hh := h * h in
  let i4 := hh + hh + (hh + hh) in
  let j := h * i4 in
  let r := r0 + r0 in
  let v := X * i4 in
  let x3 := r * r - j - (v + v) in
  let yj := Y * j in
  let y3 := r * (v - x3) - (yj + yj) in
  let z3 := (Z + h) * (Z + h) - zz - hh in
  stands_for x3 y3 z3 (third ((y2 - y1) / (x2 - x1)) x1 y1 x2).
Proof.
  intros Hs Hx. pose proof (stands_for_differences X Y Z x1 y1 x2 y2 Hs) as [Hh _].
  destruct Hs as (HZ & -> & ->). cbv zeta in *. unfold third. cbn [stands_for].
  assert (Hd : x2 - x1 <> 0) by (apply sub_neq_zero; congruence).
  pose proof two_neq_zero as H2.
  split_and!.
  - intros H. apply (mul_neq_zero (1 + 1) (Z * (x2 * (Z * Z) - x1 * (Z * Z)))); [done| |].
    + apply mul_neq_zero; [done|]. intros H0. by apply Hx, Hh.
    + rewrite <- H. ring.
  - field. done.
  - field. done.
Qed.

(** The abscissa. *)
Lemma stands_for_x X Y Z x y z :
  stands_for X Y Z (Some (x, y)) -> z * Z = 1 -> X * (z * z) = x.
Proof.
  intros (_ & -> & _) Hz. transitivity (x * ((z * Z) * (z * Z))); [ring|]. rewrite Hz. ring.
Qed.

Lemma stands_for_exists X Y Z : Z <> 0 -> exists x y, stands_for X Y Z (Some (x, y)).
Proof.
  intros HZ. exists (X / (Z * Z)), (Y / (Z * (Z * Z))). split_and!; [done|field; done|field; done].
Qed.

(** ** The law stays on the curve *)

Definition pt_on_curve (b : F) (P : Point) : Prop :=
  match P with None => True | Some (x, y) => on_curve b x y end.

(** How far the line of slope [l] through [(x1, y1)] is from the cubic, apart
    from the roots it should have. *)
Definition deviation (b l x1 y1 x2 x : F) : F :=
  let y := y1 + l * (x - x1) in
  y * y - (x * x * x - (x + x + x) + b) + (x - x1) * (x - x2) * (x - (l * l - x1 - x2)).

Lemma third_on_curve b l x1 y1 x2 :
  deviation b l x1 y1 x2 (l * l - x1 - x2) = 0 -> pt_on_curve b (third l x1 y1 x2).
Proof.
  unfold deviation, third, pt_on_curve, on_curve. intros H. apply Zmod.sub_eq_0_iff. rewrite <- H. ring.
Qed.

Lemma chord_on_curve b x1 y1 x2 y2 :
  on_curve b x1 y1 -> on_curve b x2 y2 -> x1 <> x2 ->
  pt_on_curve b (third ((y2 - y1) / (x2 - x1)) x1 y1 x2).
Proof.
  intros H1 H2 Hx. assert (Hd : x2 - x1 <> 0) by (apply sub_neq_zero; congruence).
  set (l := (y2 - y1) / (x2 - x1)). assert (Hl : l * (x2 - x1) = y2 - y1) by (unfold l; by field).
  clearbody l. apply third_on_curve. set (x3 := l * l - x1 - x2).
  apply dec_stable. intros Hne. apply (mul_neq_zero _ _ Hd Hne).
  (* the deviation is linear, and vanishes at both points *)
  transitivity ((x2 - x3) * deviation b l x1 y1 x2 x1 + (x3 - x1) * deviation b l x1 y1 x2 x2);
    [unfold deviation, x3; ring|].
  assert (deviation b l x1 y1 x2 x1 = 0) as ->.
  { transitivity (y1 * y1 - (x1 * x1 * x1 - (x1 + x1 + x1) + b)); [unfold deviation; ring|].
    apply Zmod.sub_eq_0_iff. exact H1. }
  assert (deviation b l x1 y1 x2 x2 = 0) as ->; [|ring].
  transitivity (y2 * y2 - (x2 * x2 * x2 - (x2 + x2 + x2) + b)).
  - unfold deviation. rewrite Hl. ring.
  - apply Zmod.sub_eq_0_iff. exact H2.
Qed.

Lemma tangent_on_curve b x y :
  on_curve b x y -> y <> 0 -> pt_on_curve b (third (tangent x y) x y x).
Proof.
  intros H1 Hy. pose proof (double_neq_zero y Hy) as Hyy. pose proof two_neq_zero as H2.
  set (l := tangent x y).
  assert (Hl : l * (y + y) = x * x + x * x + x * x - (1 + 1 + 1)) by (unfold l, tangent; by field).
  clearbody l. apply third_on_curve. set (x3 := l * l - x - x).
  transitivity ((x3 - x) * (l * (y + y) - (x * x + x * x + x * x - (1 + 1 + 1))) +
                (y * y - (x * x * x - (x + x + x) + b))); [unfold deviation, x3; ring|].
  rewrite Hl. unfold on_curve in H1. rewrite H1. ring.
Qed.

Lemma pt_double_on_curve b P : pt_on_curve b P -> pt_on_curve b (pt_double P).
Proof.
  destruct P as [[x y]|]; [|done]. cbn [pt_double]. intros H.
  destruct (Zmod.eqb_spec y 0); [done|]. by apply tangent_on_curve.
Qed.

Lemma pt_add_on_curve b P Q : pt_on_curve b P -> pt_on_curve b Q -> pt_on_curve b (pt_add P Q).
Proof.
  destruct P as [[x1 y1]|]; [|done]. destruct Q as [[x2 y2]|]; [|done]. intros H1 H2.
  unfold pt_add. destruct (Zmod.eqb_spec x1 x2); [destruct (Zmod.eqb_spec y1 y2)|].
  - by apply pt_double_on_curve.
  - done.
  - by apply chord_on_curve.
Qed.

(** Adding is symmetric. *)
Lemma pt_add_comm b P Q : pt_on_curve b P -> pt_on_curve b Q -> pt_add P Q = pt_add Q P.
Proof.
  destruct P as [[x1 y1]|], Q as [[x2 y2]|]; try done. intros _ _. unfold pt_add.
  destruct (Zmod.eqb_spec x1 x2) as [->|Hx].
  - destruct (Zmod.eqb_spec x2 x2); [|done].
    destruct (Zmod.eqb_spec y1 y2), (Zmod.eqb_spec y2 y1); subst; congruence || done.
  - destruct (Zmod.eqb_spec x2 x1); [congruence|].
    assert (x2 - x1 <> 0) by (apply sub_neq_zero; congruence).
    assert (x1 - x2 <> 0) by (apply sub_neq_zero; congruence).
    unfold third. assert ((y2 - y1) / (x2 - x1) = (y1 - y2) / (x1 - x2)) as Hl by by field.
    rewrite <- Hl. f_equal. f_equal; [ring|]. set (l := (y2 - y1) / (x2 - x1)).
    assert (l * (x2 - x1) = y2 - y1) as Hl' by (unfold l; by field). clearbody l.
    apply Zmod.sub_eq_0_iff. transitivity ((y2 - y1) - l * (x2 - x1)); [ring|]. rewrite Hl'. ring.
Qed.

Lemma combine_on_curve b u1 u2 G Q R bits :
  pt_on_curve b G -> pt_on_curve b Q -> pt_on_curve b R ->
  pt_on_curve b (fold_left (combine_step u1 u2 G Q) bits R).
Proof.
  intros HG HQ. revert R. induction bits as [|bit bits IH]; intros R HR; [done|]. cbn [fold_left].
  apply IH. unfold combine_step. pose proof (pt_double_on_curve b R HR) as Hd.
  assert (pt_on_curve b (if Z.testbit u1 bit then pt_add (pt_double R) G else pt_double R)) as Ha
    by (destruct (Z.testbit u1 bit); [by apply pt_add_on_curve|done]).
  destruct (Z.testbit u2 bit); [by apply pt_add_on_curve|done].
Qed.

End curve.
