(* ===== verification/EcdsaP256.v ===== *)
(** * EcdsaP256: the curve and the verification of bootloader/crypto/ecdsa_p256.c

    Jacobian points on the P-256 curve, the simultaneous double-and-add, and
    EcdsaP256_VerifyDigest, on the arithmetic of U256. *)

From Stdlib Require Import ZArith.
From S2P Require Import Prelude Bytes U256.

#[local] Open Scope Z_scope.

Definition ECDSA_P256_PUBLIC_KEY_SIZE : Z := 64.
Definition ECDSA_P256_SIGNATURE_SIZE : Z := 64.
Definition ECDSA_P256_DIGEST_SIZE : Z := 32.

Inductive EcdsaP256Status_t :=
  | ECDSA_P256_VALID
  | ECDSA_P256_INVALID_ARGUMENT
  | ECDSA_P256_INVALID_PUBLIC_KEY
  | ECDSA_P256_INVALID_SIGNATURE
  | ECDSA_P256_MATH_ERROR.

#[export] Instance EcdsaP256Status_eq : EqDecision EcdsaP256Status_t.
Proof. solve_decision. Defined.

Record AffinePoint_t := mkAffine { ap_x : U256_t; ap_y : U256_t }.
Record JacobianPoint_t := mkJacobian { jp_x : U256_t; jp_y : U256_t; jp_z : U256_t }.

(** The field prime, the order of the group, the coefficient [b], the generator. *)
Definition g_p : U256_t := mkU256
  [0xFFFFFFFF; 0xFFFFFFFF; 0xFFFFFFFF; 0x00000000; 0x00000000; 0x00000000; 0x00000001; 0xFFFFFFFF].
Definition g_n : U256_t := mkU256
  [0xFC632551; 0xF3B9CAC2; 0xA7179E84; 0xBCE6FAAD; 0xFFFFFFFF; 0xFFFFFFFF; 0x00000000; 0xFFFFFFFF].
Definition g_b : U256_t := mkU256
  [0x27D2604B; 0x3BCE3C3E; 0xCC53B0F6; 0x651D06B0; 0x769886BC; 0xB3EBBD55; 0xAA3A93E7; 0x5AC635D8].
Definition g_generator : AffinePoint_t := mkAffine
  (mkU256 [0xD898C296; 0xF4A13945; 0x2DEB33A0; 0x77037D81; 0x63A440F2; 0xF8BCE6E5; 0xE12C4247; 0x6B17D1F2])
  (mkU256 [0x37BF51F5; 0xCBB64068; 0x6B315ECE; 0x2BCE3357; 0x7C0F9E16; 0x8EE7EB4A; 0xFE1A7F9B; 0x4FE342E2]).

(** ** Points *)

Definition PointSetInfinity : JacobianPoint_t := mkJacobian U256_Clear U256_Clear U256_Clear.

Definition PointIsInfinity (point : JacobianPoint_t) : bool := U256_IsZero (jp_z point).

Definition PointSetAffine (affine : AffinePoint_t) : JacobianPoint_t :=
  mkJacobian (ap_x affine) (ap_y affine) U256_One.

Definition PointDouble (point : JacobianPoint_t) : JacobianPoint_t :=
  if PointIsInfinity point || U256_IsZero (jp_y point) then PointSetInfinity else
  let delta := ModSquare (jp_z point) g_p in
  let gamma := ModSquare (jp_y point) g_p in
  let beta := ModMul (jp_x point) gamma g_p in
  let t1 := ModSub (jp_x point) delta g_p in
  let t2 := ModAdd (jp_x point) delta g_p in
  let alpha := ModMul t1 t2 g_p in
  let alpha := ModTriple alpha g_p in
  let x3 := ModSquare alpha g_p in
  let t1 := ModTimes8 beta g_p in
  let x3 := ModSub x3 t1 g_p in
  let t1 := ModAdd (jp_y point) (jp_z point) g_p in
  let z3 := ModSquare t1 g_p in
  let z3 := ModSub z3 gamma g_p in
  let z3 := ModSub z3 delta g_p in
  let t1 := ModTimes4 beta g_p in
  let t1 := ModSub t1 x3 g_p in
  let y3 := ModMul alpha t1 g_p in
  let gamma2 := ModSquare gamma g_p in
  let gamma2 := ModTimes8 gamma2 g_p in
  let y3 := ModSub y3 gamma2 g_p in
  mkJacobian x3 y3 z3.

Definition PointAddAffine (point : JacobianPoint_t) (affine : AffinePoint_t) : JacobianPoint_t :=
  if PointIsInfinity point then PointSetAffine affine else
  let z1z1 := ModSquare (jp_z point) g_p in
  let u2 := ModMul (ap_x affine) z1z1 g_p in
  let t1 := ModMul (jp_z point) z1z1 g_p in
  let s2 := ModMul (ap_y affine) t1 g_p in
  let h := ModSub u2 (jp_x point) g_p in
  let r := ModSub s2 (jp_y point) g_p in
  if U256_IsZero h then
    if U256_IsZero r then PointDouble point else PointSetInfinity
  else
  let hh := ModSquare h g_p in
  let i4 := ModTimes4 hh g_p in
  let j := ModMul h i4 g_p in
  let r := ModDouble r g_p in
  let v := ModMul (jp_x point) i4 g_p in
  let x3 := ModSquare r g_p in
  let x3 := ModSub x3 j g_p in
  let t1 := ModDouble v g_p in
  let x3 := ModSub x3 t1 g_p in
  let t1 := ModSub v x3 g_p in
  let y3 := ModMul r t1 g_p in
  let t2 := ModMul (jp_y point) j g_p in
  let t2 := ModDouble t2 g_p in
  let y3 := ModSub y3 t2 g_p in
  let t1 := ModAdd (jp_z point) h g_p in
  let z3 := ModSquare t1 g_p in
  let z3 := ModSub z3 z1z1 g_p in
  let z3 := ModSub z3 hh g_p in
  mkJacobian x3 y3 z3.

Definition PointIsOnCurve (point : AffinePoint_t) : bool :=
  if (0 <=? U256_Compare (ap_x point) g_p) || (0 <=? U256_Compare (ap_y point) g_p) then false else
  if U256_IsZero (ap_x point) && U256_IsZero (ap_y point) then false else
  let y2 := ModSquare (ap_y point) g_p in
  let x2 := ModSquare (ap_x point) g_p in
  let x3 := ModMul x2 (ap_x point) g_p in
  let three_x := ModTriple (ap_x point) g_p in
  let rhs := ModSub x3 three_x g_p in
  let rhs := ModAdd rhs g_b g_p in
  U256_Compare y2 rhs =? 0.

(** [None] for a return of 0. *)
Definition PointAffineX (point : JacobianPoint_t) : option U256_t :=
  if PointIsInfinity point then None else
  match ModInverse (jp_z point) g_p with
  | None => None
  | Some z_inverse =>
      let z_inverse_squared := ModSquare z_inverse g_p in
      Some (ModMul (jp_x point) z_inverse_squared g_p)
  end.

(** One bit of the simultaneous double-and-add. *)
Definition LinearStep (scalar_g scalar_q : U256_t) (q : AffinePoint_t)
    (result : JacobianPoint_t) (bit : Z) : JacobianPoint_t :=
  let result := if PointIsInfinity result then result else PointDouble result in
  let result := if U256_GetBit scalar_g bit <>? 0 then PointAddAffine result g_generator else result in
  if U256_GetBit scalar_q bit <>? 0 then PointAddAffine result q else result.

Definition PointLinearCombination (scalar_g scalar_q : U256_t) (q : AffinePoint_t) : JacobianPoint_t :=
  fold_left (LinearStep scalar_g scalar_q q) bits_down PointSetInfinity.

(** ** Verification *)

(** One subtraction of the order, where the sources reduce by it. *)
Definition ReduceByOrder (v : U256_t) : U256_t :=
  if 0 <=? U256_Compare v g_n then U256_SubRaw v g_n else v.

Definition EcdsaP256_VerifyDigest (public_key digest signature : option (list Z)) : EcdsaP256Status_t :=
  match public_key, digest, signature with
  | Some public_key, Some digest, Some signature =>
      let q := mkAffine (U256_FromBigEndian (take 32 public_key)) (U256_FromBigEndian (drop 32 public_key)) in
      let r := U256_FromBigEndian (take 32 signature) in
      let s := U256_FromBigEndian (drop 32 signature) in
      let z := U256_FromBigEndian digest in
      if negb (PointIsOnCurve q) then ECDSA_P256_INVALID_PUBLIC_KEY else
      if U256_IsZero r || U256_IsZero s || (0 <=? U256_Compare r g_n) || (0 <=? U256_Compare s g_n)
      then ECDSA_P256_INVALID_SIGNATURE else
      let z := ReduceByOrder z in
      match ModInverse s g_n with
      | None => ECDSA_P256_MATH_ERROR
      | Some w =>
          let u1 := ModMul z w g_n in
          let u2 := ModMul r w g_n in
          let point := PointLinearCombination u1 u2 q in
          match PointAffineX point with
          | None => ECDSA_P256_INVALID_SIGNATURE
          | Some x =>
              let x := ReduceByOrder x in
              if U256_Compare x r =? 0 then ECDSA_P256_VALID else ECDSA_P256_INVALID_SIGNATURE
          end
      end
  | _, _, _ => ECDSA_P256_INVALID_ARGUMENT
  end.
