(* ===== verification/EcdsaTheorems.v ===== *)
(** * EcdsaTheorems: the verifier of ecdsa_p256.c is ECDSA on P-256

    On reduced operands the limb routines are the operations of the field, the
    Jacobian routines are the affine group law, and EcdsaP256_VerifyDigest
    decides the equation of the signature scheme. *)

From Stdlib Require Import ZArith Zmod.
From S2P Require Import Prelude Bytes Primes Curve U256 EcdsaP256.

#[local] Open Scope Z_scope.

Lemma value_g_p : value g_p = p256_field.
Proof. vm_compute. reflexivity. Qed.

Lemma value_g_n : value g_n = p256_order.
Proof. vm_compute. reflexivity. Qed.

(** Concrete limbs. *)
Definition limbs_okb (v : U256_t) : bool :=
  forallb (fun w => (0 <=? w) && (w <? 2 ^ 32)) (limb v) && (length (limb v) =? 8)%nat.

Lemma limbs_okb_spec v : limbs_okb v = true -> U256_ok v.
Proof.
  unfold limbs_okb. rewrite andb_true_iff, List.forallb_forall, Nat.eqb_eq. intros [Hw Hl].
  split; [|done]. apply List.Forall_forall. intros w Hin. apply Hw in Hin.
  rewrite andb_true_iff, Z.leb_le, Z.ltb_lt in Hin. exact Hin.
Qed.

Lemma g_p_ok : U256_ok g_p. Proof. by apply limbs_okb_spec. Qed.
Lemma g_n_ok : U256_ok g_n. Proof. by apply limbs_okb_spec. Qed.
Lemma g_p_large : 2 <= value g_p. Proof. by vm_compute. Qed.
Lemma g_n_large : 2 <= value g_n. Proof. by vm_compute. Qed.

Lemma p256_field_large : 3 <= p256_field. Proof. by vm_compute. Qed.
Lemma p256_order_large : 2 <= p256_order. Proof. by vm_compute. Qed.

Abbreviation Fp := (Zmod p256_field).
Abbreviation prime_p := p256_field_prime.

#[local] Opaque p256_field p256_order.

(** ** Field elements *)

(** The number [v] is the field element [x]. *)
Definition fe (v : U256_t) (x : Fp) : Prop := reduced g_p v /\ Zmod.of_Z p256_field (value v) = x.

Lemma computes_fe v x : computes g_p v x -> fe v (Zmod.of_Z _ x).
Proof.
  intros [Hr Hv]. split; [done|]. rewrite Hv, value_g_p. apply Zmod.of_Z_mod.
Qed.

Lemma fe_add a b x y : fe a x -> fe b y -> fe (ModAdd a b g_p) (Zmod.add x y).
Proof.
  intros [Ha <-] [Hb <-]. rewrite <- Zmod.of_Z_add. apply computes_fe, ModAdd_spec;
    auto using g_p_ok, g_p_large.
Qed.

Lemma fe_sub a b x y : fe a x -> fe b y -> fe (ModSub a b g_p) (Zmod.sub x y).
Proof.
  intros [Ha <-] [Hb <-]. rewrite <- Zmod.of_Z_sub. apply computes_fe, ModSub_spec;
    auto using g_p_ok, g_p_large.
Qed.

Lemma fe_mul a b x y : fe a x -> fe b y -> fe (ModMul a b g_p) (Zmod.mul x y).
Proof.
  intros [Ha <-] [[Hb _] <-]. rewrite <- Zmod.of_Z_mul. apply computes_fe, ModMul_spec;
    auto using g_p_ok, g_p_large.
Qed.

Lemma fe_square a x : fe a x -> fe (ModSquare a g_p) (Zmod.mul x x).
Proof. intros H. exact (fe_mul a a x x H H). Qed.

Lemma fe_double a x : fe a x -> fe (ModDouble a g_p) (Zmod.add x x).
Proof. intros H. exact (fe_add a a x x H H). Qed.

Lemma fe_triple a x : fe a x -> fe (ModTriple a g_p) (Zmod.add (Zmod.add x x) x).
Proof. intros H. exact (fe_add _ a _ x (fe_double a x H) H). Qed.

Lemma fe_times4 a x : fe a x -> fe (ModTimes4 a g_p) (Zmod.add (Zmod.add x x) (Zmod.add x x)).
Proof. intros H. exact (fe_double _ _ (fe_double a x H)). Qed.

Lemma fe_times8 a x :
  fe a x -> fe (ModTimes8 a g_p)
    (Zmod.add (Zmod.add (Zmod.add x x) (Zmod.add x x)) (Zmod.add (Zmod.add x x) (Zmod.add x x))).
Proof. intros H. exact (fe_double _ _ (fe_times4 a x H)). Qed.

Create HintDb field_db.
Hint Resolve fe_add fe_sub fe_mul fe_square fe_double fe_triple fe_times4 fe_times8 : field_db.

(** A reduced number is its element's representative. *)
Lemma fe_value v x : fe v x -> value v = Zmod.to_Z x.
Proof.
  intros [Hr <-]. apply reduced_value in Hr. rewrite value_g_p in Hr.
  by rewrite Zmod.to_Z_of_Z, Z.mod_small.
Qed.

Lemma fe_is_zero v x : fe v x -> U256_IsZero v = Zmod.eqb x Zmod.zero.
Proof.
  intros H. rewrite U256_IsZero_spec by apply H. rewrite (fe_value v x H).
  unfold Zmod.eqb. by rewrite Zmod.to_Z_0.
Qed.

Lemma fe_clear : fe U256_Clear Zmod.zero.
Proof. rewrite <- Zmod.of_Z_0. apply computes_fe, U256_Clear_spec, g_p_large. Qed.

Lemma fe_one : fe U256_One Zmod.one.
Proof. rewrite <- Zmod.of_Z_1. apply computes_fe, U256_One_spec, g_p_large. Qed.

(** ** Points *)

Abbreviation point := (Point p256_field).
Abbreviation pdouble := (pt_double p256_field).
Abbreviation padd := (pt_add p256_field).

(** The Jacobian point [J] is the point [P]; the affine point [A] is [(x, y)]. *)
Definition jacobian (J : JacobianPoint_t) (P : point) : Prop :=
  exists X Y Z, fe (jp_x J) X /\ fe (jp_y J) Y /\ fe (jp_z J) Z /\ stands_for p256_field X Y Z P.

Definition affine (A : AffinePoint_t) (x y : Fp) : Prop := fe (ap_x A) x /\ fe (ap_y A) y.

Lemma jacobian_infinity : jacobian PointSetInfinity None.
Proof. exists Zmod.zero, Zmod.zero, Zmod.zero. split_and!; [apply fe_clear..|done]. Qed.

Lemma PointIsInfinity_spec J P : jacobian J P -> PointIsInfinity J = bool_decide (P = None).
Proof.
  intros (X & Y & Z & _ & _ & HZ & Hs). unfold PointIsInfinity. rewrite (fe_is_zero _ _ HZ).
  destruct P as [[x y]|]; cbn [stands_for] in Hs.
  - rewrite bool_decide_false by done. destruct Hs as [Hs _]. by destruct (Zmod.eqb_spec Z Zmod.zero).
  - subst Z. by rewrite bool_decide_true, Zmod.eqb_refl.
Qed.

Lemma PointSetAffine_spec A x y : affine A x y -> jacobian (PointSetAffine A) (Some (x, y)).
Proof.
  intros [Hx Hy]. exists x, y, Zmod.one. split_and!; [done|done|apply fe_one|].
  split_and!; [apply Zmod.one_neq_zero; pose proof p256_field_large; lia|..];
    by rewrite !Zmod.mul_1_l, Zmod.mul_1_r.
Qed.

Lemma PointDouble_spec J P : jacobian J P -> jacobian (PointDouble J) (pdouble P).
Proof.
  intros HJ. unfold PointDouble. rewrite (PointIsInfinity_spec _ _ HJ).
  destruct HJ as (X & Y & Z & HX & HY & HZ & Hs).
  destruct P as [[x y]|]; [|rewrite bool_decide_true by done; apply jacobian_infinity].
  rewrite bool_decide_false, (fe_is_zero _ _ HY) by done. cbn [orb pt_double].
  assert (Zmod.eqb Y Zmod.zero = Zmod.eqb y Zmod.zero) as ->.
  { destruct Hs as (HZ0 & _ & ->).
    destruct (Zmod.eqb_spec y Zmod.zero) as [->|Hy]; [by rewrite Zmod.mul_0_l, Zmod.eqb_refl|].
    destruct (Zmod.eqb_spec (Zmod.mul y (Zmod.mul Z (Zmod.mul Z Z))) Zmod.zero) as [H|]; [|done].
    exfalso. revert H. by repeat apply (mul_neq_zero _ prime_p). }
  destruct (Zmod.eqb_spec y Zmod.zero) as [|Hy]; [apply jacobian_infinity|].
  pose proof (stands_for_double _ prime_p p256_field_large X Y Z x y Hs Hy) as Hd.
  eexists _, _, _. split_and!; [..|exact Hd]; cbv zeta; cbn [jp_x jp_y jp_z]; auto 20 with field_db.
Qed.

Lemma PointAddAffine_spec J P A x y :
  jacobian J P -> affine A x y -> jacobian (PointAddAffine J A) (padd P (Some (x, y))).
Proof.
  intros HJ HA. pose proof (PointDouble_spec J P HJ) as HD. unfold PointAddAffine.
  rewrite (PointIsInfinity_spec _ _ HJ). destruct P as [[x1 y1]|].
  2: { rewrite bool_decide_true by done. by apply PointSetAffine_spec. }
  rewrite bool_decide_false by done. destruct HJ as (X & Y & Z & HX & HY & HZ & Hs).
  destruct HA as [Hx Hy]. cbv zeta.
  pose proof (stands_for_differences _ prime_p X Y Z x1 y1 x y Hs) as [Hh Hr]. cbv zeta in Hh, Hr.
  assert (fe (ModSub (ModMul (ap_x A) (ModSquare (jp_z J) g_p) g_p) (jp_x J) g_p)
    (Zmod.sub (Zmod.mul x (Zmod.mul Z Z)) X)) as Hfh by auto 20 with field_db.
  assert (fe (ModSub (ModMul (ap_y A) (ModMul (jp_z J) (ModSquare (jp_z J) g_p) g_p) g_p) (jp_y J) g_p)
    (Zmod.sub (Zmod.mul y (Zmod.mul Z (Zmod.mul Z Z))) Y)) as Hfr by auto 20 with field_db.
  rewrite (fe_is_zero _ _ Hfh), (fe_is_zero _ _ Hfr). cbn [pt_add].
  destruct (Zmod.eqb_spec x1 x) as [Hxx|Hxx].
  - rewrite (proj2 Hh Hxx), Zmod.eqb_refl.
    destruct (Zmod.eqb_spec y1 y) as [Hyy|Hyy].
    + by rewrite (proj2 Hr Hyy), Zmod.eqb_refl.
    + destruct (Zmod.eqb_spec (Zmod.sub (Zmod.mul y (Zmod.mul Z (Zmod.mul Z Z))) Y) Zmod.zero) as [H|];
        [by apply Hr in H|apply jacobian_infinity].
  - destruct (Zmod.eqb_spec (Zmod.sub (Zmod.mul x (Zmod.mul Z Z)) X) Zmod.zero) as [H|];
      [by apply Hh in H|].
    pose proof (stands_for_add _ prime_p p256_field_large X Y Z x1 y1 x y Hs Hxx) as Hd.
    eexists _, _, _. split_and!; [..|exact Hd]; cbv zeta; cbn [jp_x jp_y jp_z]; auto 20 with field_db.
Qed.

(** ** The curve *)

Definition curve_b : Fp := Zmod.of_Z _ (value g_b).
Definition G : Fp * Fp :=
  (Zmod.of_Z _ (value (ap_x g_generator)), Zmod.of_Z _ (value (ap_y g_generator))).

(** A concrete number below the prime. *)
Lemma fe_concrete v : limbs_okb v = true -> (value v <? value g_p) = true -> fe v (Zmod.of_Z _ (value v)).
Proof. intros Hv Hlt. split; [|done]. split; [by apply limbs_okb_spec|by apply Z.ltb_lt]. Qed.

Lemma fe_b : fe g_b curve_b.
Proof. by apply fe_concrete; vm_compute. Qed.

Lemma affine_generator : affine g_generator (fst G) (snd G).
Proof. split; by apply fe_concrete; vm_compute. Qed.

(** The public keys the verifier accepts. *)
Definition valid_key (qx qy : Z) : Prop :=
  qx < p256_field /\ qy < p256_field /\
  on_curve p256_field curve_b (Zmod.of_Z _ qx) (Zmod.of_Z _ qy).

Lemma fe_reduced v : U256_ok v -> value v < p256_field -> fe v (Zmod.of_Z _ (value v)).
Proof. intros Hv Hlt. split; [|done]. split; [done|]. by rewrite value_g_p. Qed.

Lemma curve_b_neq_zero : curve_b <> Zmod.zero.
Proof.
  intros H. pose proof (fe_is_zero _ _ fe_b) as Hz. rewrite H, Zmod.eqb_refl in Hz. by vm_compute in Hz.
Qed.

Lemma PointIsOnCurve_spec A :
  U256_ok (ap_x A) -> U256_ok (ap_y A) ->
  PointIsOnCurve A = true <-> valid_key (value (ap_x A)) (value (ap_y A)).
Proof.
  intros Hx Hy. unfold PointIsOnCurve, valid_key.
  rewrite !U256_Compare_ge, value_g_p by auto using g_p_ok.
  destruct (Z.leb_spec p256_field (value (ap_x A))) as [H|Hxp]; [cbn; split; [done|lia]|].
  destruct (Z.leb_spec p256_field (value (ap_y A))) as [H|Hyp]; [cbn; split; [done|lia]|].
  cbn [orb]. set (x := Zmod.of_Z p256_field (value (ap_x A))). set (y := Zmod.of_Z p256_field (value (ap_y A))).
  assert (fe (ap_x A) x) as Hfx by by apply fe_reduced.
  assert (fe (ap_y A) y) as Hfy by by apply fe_reduced.
  rewrite (fe_is_zero _ _ Hfx), (fe_is_zero _ _ Hfy). unfold on_curve.
  destruct (Zmod.eqb x Zmod.zero && Zmod.eqb y Zmod.zero)%bool eqn:E0.
  - split; [done|]. intros (_ & _ & H). apply andb_true_iff in E0 as [->%Zmod.eqb_eq ->%Zmod.eqb_eq].
    exfalso. apply curve_b_neq_zero. revert H.
    rewrite !Zmod.mul_0_l, !Zmod.add_0_l. by intros <-.
  - cbv zeta. pose proof fe_b as Hb.
    assert (fe (ModSquare (ap_y A) g_p) (Zmod.mul y y)) as Hl by auto with field_db.
    assert (fe (ModAdd (ModSub (ModMul (ModSquare (ap_x A) g_p) (ap_x A) g_p) (ModTriple (ap_x A) g_p) g_p) g_b g_p)
      (Zmod.add (Zmod.sub (Zmod.mul (Zmod.mul x x) x) (Zmod.add (Zmod.add x x) x)) curve_b)) as Hr
      by auto 20 with field_db.
    rewrite U256_Compare_eq by (apply Hl || apply Hr). rewrite (fe_value _ _ Hl), (fe_value _ _ Hr), Z.eqb_eq.
    split; [intros H%Zmod.to_Z_inj|intros (_ & _ & ->)]; done.
Qed.

(** ** Scalars *)

Lemma LinearStep_spec u1 u2 A x y J P bit :
  U256_ok u1 -> U256_ok u2 -> affine A x y -> 0 <= bit -> jacobian J P ->
  jacobian (LinearStep u1 u2 A J bit)
    (combine_step p256_field (value u1) (value u2) (Some G) (Some (x, y)) P bit).
Proof.
  intros H1 H2 HA Hbit HJ. unfold LinearStep, combine_step. cbv zeta.
  rewrite !U256_GetBit_spec by done.
  assert (jacobian (if PointIsInfinity J then J else PointDouble J) (pdouble P)) as HD.
  { rewrite (PointIsInfinity_spec _ _ HJ). case_bool_decide as HP; [by subst P|].
    by apply PointDouble_spec. }
  assert (jacobian (if Z.testbit (value u1) bit then PointAddAffine (if PointIsInfinity J then J else PointDouble J) g_generator
     else (if PointIsInfinity J then J else PointDouble J))
     (if Z.testbit (value u1) bit then padd (pdouble P) (Some G) else pdouble P)) as HG.
  { destruct (Z.testbit (value u1) bit); [|done]. apply PointAddAffine_spec; [done|apply affine_generator]. }
  destruct (Z.testbit (value u2) bit); [|done]. by apply PointAddAffine_spec.
Qed.

(** The combination of the generator and the key. *)
Definition combination (u1 u2 : Z) (Q : Fp * Fp) : point :=
  fold_left (combine_step p256_field u1 u2 (Some G) (Some Q)) bits_down None.

Lemma PointLinearCombination_spec u1 u2 A x y :
  U256_ok u1 -> U256_ok u2 -> affine A x y ->
  jacobian (PointLinearCombination u1 u2 A) (combination (value u1) (value u2) (x, y)).
Proof.
  intros H1 H2 HA. unfold PointLinearCombination, combination.
  assert (Forall (fun bit => 0 <= bit) bits_down) as Hbits.
  { apply List.Forall_forall. intros bit Hin. apply list_elem_of_In, list_elem_of_fmap in Hin as (i & -> & Hi).
    apply elem_of_seqZ in Hi. lia. }
  pose proof jacobian_infinity as HJ. revert HJ.
  generalize PointSetInfinity (@None (Fp * Fp)). induction Hbits as [|bit bits Hb _ IH]; intros J P HJ; [done|].
  cbn [fold_left]. apply IH. by apply LinearStep_spec.
Qed.

Lemma PointAffineX_spec J P :
  jacobian J P ->
  match P with
  | None => PointAffineX J = None
  | Some (x, _) => exists v, PointAffineX J = Some v /\ fe v x
  end.
Proof.
  intros HJ. unfold PointAffineX. rewrite (PointIsInfinity_spec _ _ HJ).
  destruct P as [[x y]|]; [rewrite bool_decide_false by done|by rewrite bool_decide_true].
  destruct HJ as (X & Y & Z & HX & HY & HZ & Hs). pose proof Hs as (HZ0 & _ & _).
  pose proof (ModInverse_spec g_p g_p_ok g_p_large (jp_z J) (proj1 HZ)) as Hi.
  destruct (ModInverse (jp_z J) g_p) as [w|].
  - destruct Hi as [_ Hw]. eexists. split; [done|]. apply computes_fe in Hw.
    rewrite (fe_value _ _ HZ), value_g_p, Zmod.of_Z_pow, Zmod.of_Z_to_Z in Hw
      by (pose proof p256_field_large; lia).
    rewrite Zmod.fermat_inv in Hw by (exact HZ0 || exact prime_p).
    rewrite <- (stands_for_x _ prime_p X Y Z x y (Zmod.inv Z) Hs).
    2: { by apply Zmod.mul_inv_same_l_prime; [apply prime_p|]. }
    auto 10 with field_db.
  - exfalso. apply HZ0. rewrite (fe_value _ _ HZ) in Hi. apply Zmod.to_Z_inj. by rewrite Hi, Zmod.to_Z_0.
Qed.

(** ** The signature scheme *)

#[export] Instance valid_key_dec qx qy : Decision (valid_key qx qy).
Proof. unfold valid_key, on_curve. apply _. Defined.

(** The equation of the scheme for a message representative [z]: the abscissa of
    [(z / s) G + (r / s) Q] is [r], modulo the order. *)
Definition ecdsa_equation (Q : Fp * Fp) (z r s : Z) : bool :=
  let e := Zmod.of_Z p256_order in
  let u1 := Zmod.to_Z (Zmod.mdiv (e z) (e s)) in
  let u2 := Zmod.to_Z (Zmod.mdiv (e r) (e s)) in
  match combination u1 u2 Q with
  | None => false
  | Some (x, _) => Zmod.to_Z x mod p256_order =? r
  end.

(** What the verifier should answer: the key and the signature are pairs of
    32-byte big-endian numbers. *)
Definition ecdsa_verify (public_key digest signature : list Z) : EcdsaP256Status_t :=
  let qx := be_number (take 32 public_key) in
  let qy := be_number (drop 32 public_key) in
  let r := be_number (take 32 signature) in
  let s := be_number (drop 32 signature) in
  if negb (bool_decide (valid_key qx qy)) then ECDSA_P256_INVALID_PUBLIC_KEY
  else if (0 <? r) && (r <? p256_order) && (0 <? s) && (s <? p256_order) &&
          ecdsa_equation (Zmod.of_Z _ qx, Zmod.of_Z _ qy) (be_number digest) r s
  then ECDSA_P256_VALID else ECDSA_P256_INVALID_SIGNATURE.

Lemma order_bounds : 2 ^ 255 < p256_order < 2 ^ 256.
Proof. by vm_compute. Qed.

Lemma ReduceByOrder_spec v : U256_ok v -> reduced g_n (ReduceByOrder v) /\ value (ReduceByOrder v) = value v mod p256_order.
Proof.
  intros Hv. pose proof (value_range _ Hv) as Hr. pose proof order_bounds as Hn.
  unfold ReduceByOrder, reduced. rewrite U256_Compare_ge, value_g_n by (done || apply g_n_ok).
  destruct (Z.leb_spec p256_order (value v)) as [Hle|Hlt].
  - destruct (U256_SubRaw_spec v g_n) as [Ho Hs]; [done|apply g_n_ok|by rewrite value_g_n|].
    rewrite Hs, value_g_n. split; [split; [done|lia]|].
    rewrite <- (Z_mod_plus_full _ (-1)), Z.mod_small; lia.
  - split; [done|]. rewrite Z.mod_small; lia.
Qed.

(** A product with the inverse of [s] is the quotient by [s]. *)
Lemma quotient_value a w s :
  reduced g_n a -> computes g_n w (s ^ (p256_order - 2)) -> 0 < s < p256_order ->
  U256_ok (ModMul a w g_n) /\
  value (ModMul a w g_n) = Zmod.to_Z (Zmod.mdiv (Zmod.of_Z p256_order (value a)) (Zmod.of_Z _ s)).
Proof.
  intros Ha Hw Hs. destruct (ModMul_spec g_n g_n_ok g_n_large a w Ha (proj1 (proj1 Hw))) as [[Hok _] Hv].
  split; [done|]. rewrite Hv, (computes_value _ _ _ Hw), value_g_n, Zmult_mod_idemp_r.
  rewrite <- Zmod.to_Z_of_Z. f_equal. unfold Zmod.mdiv. rewrite Zmod.of_Z_mul. f_equal.
  rewrite Zmod.of_Z_pow by (pose proof order_bounds; lia).
  apply Zmod.fermat_inv; [|exact p256_order_prime]. intros H.
  apply (f_equal Zmod.to_Z) in H. rewrite Zmod.to_Z_of_Z, Zmod.to_Z_0, Z.mod_small in H; lia.
Qed.

Lemma EcdsaP256_VerifyDigest_spec public_key digest signature :
  bytes_ok public_key -> bytes_ok digest -> bytes_ok signature ->
  length public_key = 64%nat -> length digest = 32%nat -> length signature = 64%nat ->
  EcdsaP256_VerifyDigest (Some public_key) (Some digest) (Some signature) =
  ecdsa_verify public_key digest signature.
Proof.
  intros Hpk Hd Hsig Hlpk Hld Hlsig.
  assert (forall l, bytes_ok l -> length l = 64%nat ->
    (U256_ok (U256_FromBigEndian (take 32 l)) /\ value (U256_FromBigEndian (take 32 l)) = be_number (take 32 l)) /\
    (U256_ok (U256_FromBigEndian (drop 32 l)) /\ value (U256_FromBigEndian (drop 32 l)) = be_number (drop 32 l))) as Hhalf.
  { intros l Hl Hn. split; apply U256_FromBigEndian_spec;
      [by apply Forall_take|rewrite length_take; lia|by apply Forall_drop|rewrite length_drop; lia]. }
  destruct (Hhalf public_key Hpk Hlpk) as [[Hxo Hxv] [Hyo Hyv]].
  destruct (Hhalf signature Hsig Hlsig) as [[Hro Hrv] [Hso Hsv]]. clear Hhalf.
  destruct (U256_FromBigEndian_spec digest Hd Hld) as [Hzo Hzv].
  unfold EcdsaP256_VerifyDigest, ecdsa_verify. cbv zeta.
  set (A := mkAffine _ _). set (R := U256_FromBigEndian (take 32 signature)) in *.
  set (S := U256_FromBigEndian (drop 32 signature)) in *. set (D := U256_FromBigEndian digest) in *.
  pose proof (PointIsOnCurve_spec A Hxo Hyo) as Hcurve. cbn [A ap_x ap_y] in Hcurve. rewrite Hxv, Hyv in Hcurve.
  set (qx := be_number (take 32 public_key)) in *. set (qy := be_number (drop 32 public_key)) in *.
  destruct (PointIsOnCurve A); cbn [negb].
  2: { rewrite bool_decide_false; [done|]. intros H. by apply Hcurve in H. }
  destruct (proj1 Hcurve eq_refl) as (Hqx & Hqy & Hon). rewrite bool_decide_true by (by apply Hcurve).
  rewrite !U256_IsZero_spec, !U256_Compare_ge, value_g_n, Hrv, Hsv by (done || apply g_n_ok).
  pose proof (value_range _ Hro) as Hrr. pose proof (value_range _ Hso) as Hsr. rewrite Hrv in Hrr. rewrite Hsv in Hsr.
  set (r := be_number (take 32 signature)) in *. set (s := be_number (drop 32 signature)) in *.
  destruct (((r =? 0) || (s =? 0) || (p256_order <=? r) || (p256_order <=? s))%bool) eqn:Hrange.
  { replace ((0 <? r) && (r <? p256_order) && (0 <? s) && (s <? p256_order))%bool with false by lia. done. }
  assert (0 < r < p256_order /\ 0 < s < p256_order) as [Hr Hs] by lia.
  replace ((0 <? r) && (r <? p256_order) && (0 <? s) && (s <? p256_order))%bool with true by lia. cbn [andb].
  assert (reduced g_n S) as HredS by (split; [done|]; rewrite Hsv, value_g_n; lia).
  assert (reduced g_n R) as HredR by (split; [done|]; rewrite Hrv, value_g_n; lia).
  pose proof (ModInverse_spec g_n g_n_ok g_n_large S HredS) as Hinv.
  destruct (ModInverse S g_n) as [W|]; [|rewrite Hsv in Hinv; lia].
  destruct Hinv as [_ HW]. rewrite Hsv, value_g_n in HW.
  destruct (ReduceByOrder_spec D Hzo) as [HredD HD].
  destruct (quotient_value _ W s HredD HW Hs) as [Hu1 Hv1].
  destruct (quotient_value _ W s HredR HW Hs) as [Hu2 Hv2].
  rewrite HD, Hzv, Zmod.of_Z_mod in Hv1. rewrite Hrv in Hv2.
  assert (affine A (Zmod.of_Z _ qx) (Zmod.of_Z _ qy)) as HA.
  { split; cbn [A ap_x ap_y]; [rewrite <- Hxv|rewrite <- Hyv]; apply fe_reduced; by rewrite ?Hxv, ?Hyv. }
  pose proof (PointLinearCombination_spec _ _ A _ _ Hu1 Hu2 HA) as HJ. rewrite Hv1, Hv2 in HJ.
  apply PointAffineX_spec in HJ. unfold ecdsa_equation.
  destruct (combination _ _ _) as [[x y]|]; [|by rewrite HJ].
  destruct HJ as (V & -> & HV). destruct (ReduceByOrder_spec V (proj1 (proj1 HV))) as [[HVo _] HVv].
  rewrite U256_Compare_eq, HVv, (fe_value _ _ HV), Hrv by done. done.
Qed.

(** ** The curve *)

Lemma G_on_curve : pt_on_curve p256_field curve_b (Some G).
Proof.
  apply Zmod.to_Z_inj. vm_compute. reflexivity.
Qed.

(** For an accepted key and any scalars the Jacobian result of the double-
    and-add is a point of the curve, or infinity, and is the combination of
    generator and key that the affine group law gives. *)
Theorem PointLinearCombination_on_curve u1 u2 A :
  U256_ok u1 -> U256_ok u2 -> U256_ok (ap_x A) -> U256_ok (ap_y A) -> PointIsOnCurve A = true ->
  let Q := (Zmod.of_Z p256_field (value (ap_x A)), Zmod.of_Z p256_field (value (ap_y A))) in
  jacobian (PointLinearCombination u1 u2 A) (combination (value u1) (value u2) Q) /\
  pt_on_curve p256_field curve_b (combination (value u1) (value u2) Q).
Proof.
  intros H1 H2 Hx Hy Hon Q. apply PointIsOnCurve_spec in Hon as (Hxp & Hyp & Hon); [|done..]. split.
  - apply PointLinearCombination_spec; [done..|]. split; by apply fe_reduced.
  - apply combine_on_curve; [exact prime_p|exact p256_field_large|exact G_on_curve|exact Hon|done].
Qed.

(** The coordinates of a point are numbers below the field prime. *)
Definition jacobian_ok (J : JacobianPoint_t) : Prop :=
  reduced g_p (jp_x J) /\ reduced g_p (jp_y J) /\ reduced g_p (jp_z J).

Definition affine_ok (A : AffinePoint_t) : Prop := reduced g_p (ap_x A) /\ reduced g_p (ap_y A).

Lemma jacobian_typed J P : jacobian J P -> jacobian_ok J.
Proof. intros (X & Y & Z & [HX _] & [HY _] & [HZ _] & _). by split_and!. Qed.

(** Any coordinates with Z invertible, or zero, are a point. *)
Lemma typed_jacobian J : jacobian_ok J -> exists P, jacobian J P.
Proof.
  intros (HX & HY & HZ). set (e := fun v => Zmod.of_Z p256_field (value v)).
  assert (fe (jp_x J) (e (jp_x J)) /\ fe (jp_y J) (e (jp_y J)) /\ fe (jp_z J) (e (jp_z J))) as (HfX & HfY & HfZ)
    by by split_and!.
  destruct (decide (e (jp_z J) = Zmod.zero)) as [Hz|Hz].
  - exists None, (e (jp_x J)), (e (jp_y J)), (e (jp_z J)). by split_and!.
  - destruct (stands_for_exists p256_field prime_p (e (jp_x J)) (e (jp_y J)) (e (jp_z J)) Hz) as (x & y & Hs).
    exists (Some (x, y)), (e (jp_x J)), (e (jp_y J)), (e (jp_z J)). by split_and!.
Qed.

(** C38: From coordinates of eight 32-bit limbs below the field prime, doubling,
    mixed addition and every bit of the combination give such coordinates again,
    on all their branches. *)
Theorem point_routines_typed J A u1 u2 bit :
  jacobian_ok J -> affine_ok A -> U256_ok u1 -> U256_ok u2 -> 0 <= bit ->
  jacobian_ok (PointDouble J) /\ jacobian_ok (PointAddAffine J A) /\
  jacobian_ok (PointSetAffine A) /\ jacobian_ok (LinearStep u1 u2 A J bit) /\
  jacobian_ok (PointLinearCombination u1 u2 A).
Proof.
  intros HJ [Hx Hy] H1 H2 Hbit. destruct (typed_jacobian J HJ) as [P HP].
  assert (affine A (Zmod.of_Z _ (value (ap_x A))) (Zmod.of_Z _ (value (ap_y A)))) as HA by by split.
  split_and!; eapply jacobian_typed.
  - by apply PointDouble_spec.
  - by apply PointAddAffine_spec.
  - by apply PointSetAffine_spec.
  - by apply LinearStep_spec.
  - by apply PointLinearCombination_spec.
Qed.

(** ** The verifier *)

(** C5: For a key, a digest and a signature of the right sizes the verifier
    answers as the ECDSA scheme over P-256 does: the key must satisfy the curve
    equation, r and s must lie in range and the abscissa of (z/s)G + (r/s)Q must
    be r modulo the order; a missing argument is reported. *)
Theorem EcdsaP256_VerifyDigest_correct public_key digest signature :
  bytes_ok public_key -> bytes_ok digest -> bytes_ok signature ->
  length public_key = 64%nat -> length digest = 32%nat -> length signature = 64%nat ->
  EcdsaP256_VerifyDigest (Some public_key) (Some digest) (Some signature) =
    ecdsa_verify public_key digest signature /\
  EcdsaP256_VerifyDigest None (Some digest) (Some signature) = ECDSA_P256_INVALID_ARGUMENT /\
  EcdsaP256_VerifyDigest (Some public_key) None (Some signature) = ECDSA_P256_INVALID_ARGUMENT /\
  EcdsaP256_VerifyDigest (Some public_key) (Some digest) None = ECDSA_P256_INVALID_ARGUMENT.
Proof. intros. split; [by apply EcdsaP256_VerifyDigest_spec|done]. Qed.

