(* ===== verification/EcdsaScenarios.v ===== *)
(** * EcdsaScenarios: concrete keys, signatures and numbers

    A signature that verifies, and the numbers on which the theorems of the
    arithmetic are applied. *)

From Stdlib Require Import ZArith Zmod.
From S2P Require Import Prelude Bytes Primes Curve U256 EcdsaP256 EcdsaTheorems.

#[local] Open Scope Z_scope.

(** The point of abscissa 5 is five times the key: with s = 1 and a digest of
    zero, r = 5 is a signature. *)
Definition sample_key : list Z :=
  [5; 167; 15; 60; 157; 221; 28; 125; 119; 67; 199; 9; 165; 223; 149; 86; 117; 101; 229; 31; 90; 245;
   184; 31; 123; 56; 210; 68; 101; 157; 240; 123; 167; 93; 57; 135; 246; 217; 200; 95; 235; 23; 130;
   71; 29; 189; 197; 153; 19; 48; 191; 186; 5; 78; 250; 102; 140; 226; 226; 229; 173; 23; 107; 171].
Definition sample_digest : list Z := replicate 32 0.
Definition sample_signature : list Z := (replicate 31 0 ++ [5]) ++ (replicate 31 0 ++ [1]).
Definition other_signature : list Z := (replicate 31 0 ++ [6]) ++ (replicate 31 0 ++ [1]).

Definition bytes_okb (bs : list Z) : bool := forallb (fun b => (0 <=? b) && (b <? 256)) bs.

Lemma bytes_okb_spec bs : bytes_okb bs = true -> bytes_ok bs.
Proof.
  unfold bytes_okb. rewrite List.forallb_forall. intros H. apply List.Forall_forall. intros b Hb.
  apply H in Hb. unfold is_byte. rewrite andb_true_iff, Z.leb_le, Z.ltb_lt in Hb. exact Hb.
Qed.

Lemma sample_key_ok : bytes_ok sample_key.
Proof. apply bytes_okb_spec. reflexivity. Qed.
Lemma sample_digest_ok : bytes_ok sample_digest.
Proof. apply bytes_okb_spec. reflexivity. Qed.
Lemma sample_signature_ok : bytes_ok sample_signature.
Proof. apply bytes_okb_spec. reflexivity. Qed.
Lemma other_signature_ok : bytes_ok other_signature.
Proof. apply bytes_okb_spec. reflexivity. Qed.

Lemma sample_verifies : ecdsa_verify sample_key sample_digest sample_signature = ECDSA_P256_VALID.
Proof. vm_compute. reflexivity. Qed.

Lemma other_refused : ecdsa_verify sample_key sample_digest other_signature = ECDSA_P256_INVALID_SIGNATURE.
Proof. vm_compute. reflexivity. Qed.

Lemma EcdsaP256_VerifyDigest_correct_witness :
  EcdsaP256_VerifyDigest (Some sample_key) (Some sample_digest) (Some sample_signature) = ECDSA_P256_VALID /\
  EcdsaP256_VerifyDigest (Some sample_key) (Some sample_digest) (Some other_signature) =
    ECDSA_P256_INVALID_SIGNATURE.
Proof.
  rewrite <- sample_verifies, <- other_refused. split.
  - exact (proj1 (EcdsaP256_VerifyDigest_correct sample_key sample_digest sample_signature
      sample_key_ok sample_digest_ok sample_signature_ok eq_refl eq_refl eq_refl)).
  - exact (proj1 (EcdsaP256_VerifyDigest_correct sample_key sample_digest other_signature
      sample_key_ok sample_digest_ok other_signature_ok eq_refl eq_refl eq_refl)).
Defined.

(** The generator, as a number and as a key. *)
Lemma generator_reduced :
  reduced g_p (ap_x g_generator) /\ reduced g_p (ap_y g_generator).
Proof. split; (split; [by apply limbs_okb_spec|by apply Z.ltb_lt]). Qed.

Lemma modular_arithmetic_witness :
  let x := ap_x g_generator in
  let y := ap_y g_generator in
  computes g_p (ModAdd x y g_p) (value x + value y) /\ computes g_p (ModMul x y g_p) (value x * value y).
Proof.
  intros x y. destruct generator_reduced as [Hx Hy].
  destruct (modular_arithmetic g_p x y g_p_ok g_p_large Hx Hy) as (H1 & _ & H3 & _). split; [exact H1|exact H3].
Defined.

Lemma generator_accepted : PointIsOnCurve g_generator = true.
Proof.
  destruct generator_reduced as [[Hx Hxp] [Hy Hyp]]. apply PointIsOnCurve_spec; [exact Hx|exact Hy|].
  split_and!; [exact Hxp|exact Hyp|exact G_on_curve].
Qed.

Lemma PointLinearCombination_on_curve_witness :
  let Q := (Zmod.of_Z p256_field (value (ap_x g_generator)), Zmod.of_Z p256_field (value (ap_y g_generator))) in
  PointIsOnCurve g_generator = true /\
  jacobian (PointLinearCombination U256_One U256_Clear g_generator)
    (combination (value U256_One) (value U256_Clear) Q).
Proof.
  intros Q. split; [exact generator_accepted|]. destruct generator_reduced as [[Hx _] [Hy _]].
  exact (proj1 (PointLinearCombination_on_curve U256_One U256_Clear g_generator
    (limbs_okb_spec U256_One eq_refl) (limbs_okb_spec U256_Clear eq_refl) Hx Hy generator_accepted)).
Defined.

Lemma point_routines_typed_witness :
  jacobian_ok (PointDouble PointSetInfinity) /\
  jacobian_ok (PointAddAffine PointSetInfinity g_generator).
Proof.
  assert (jacobian_ok PointSetInfinity) as HJ
    by (split; [|split]; (split; [apply limbs_okb_spec; reflexivity|apply Z.ltb_lt; reflexivity])).
  destruct (point_routines_typed PointSetInfinity g_generator U256_One U256_Clear 0 HJ generator_reduced
    (limbs_okb_spec U256_One eq_refl) (limbs_okb_spec U256_Clear eq_refl) (Z.le_refl 0)) as (H1 & H2 & _).
  split; [exact H1|exact H2].
Defined.
