(* ===== verification/Sha256.v ===== *)
(** * Sha256: shared/src/sha256.c

    The streaming SHA-256 of the firmware, and its equivalence with the
    one-shot definition on the padded message: however a message is cut into
    updates, the digest is that of the whole message. *)

From S2P Require Import Prelude Bytes.

Definition SHA256_BLOCK_SIZE : Z := 64.
Definition SHA256_DIGEST_SIZE : Z := 32.

Record Sha256Context_t := mkSha256 {
  sc_state : list Z;
  sc_total_length : Z;
  sc_buffer : list Z;
  sc_buffer_length : Z
}.

Definition g_sha256_k : list Z :=
  [0x428A2F98; 0x71374491; 0xB5C0FBCF; 0xE9B5DBA5; 0x3956C25B; 0x59F111F1;
   0x923F82A4; 0xAB1C5ED5; 0xD807AA98; 0x12835B01; 0x243185BE; 0x550C7DC3;
   0x72BE5D74; 0x80DEB1FE; 0x9BDC06A7; 0xC19BF174; 0xE49B69C1; 0xEFBE4786;
   0x0FC19DC6; 0x240CA1CC; 0x2DE92C6F; 0x4A7484AA; 0x5CB0A9DC; 0x76F988DA;
   0x983E5152; 0xA831C66D; 0xB00327C8; 0xBF597FC7; 0xC6E00BF3; 0xD5A79147;
   0x06CA6351; 0x14292967; 0x27B70A85; 0x2E1B2138; 0x4D2C6DFC; 0x53380D13;
   0x650A7354; 0x766A0ABB; 0x81C2C92E; 0x92722C85; 0xA2BFE8A1; 0xA81A664B;
   0xC24B8B70; 0xC76C51A3; 0xD192E819; 0xD6990624; 0xF40E3585; 0x106AA070;
   0x19A4C116; 0x1E376C08; 0x2748774C; 0x34B0BCB5; 0x391C0CB3; 0x4ED8AA4A;
   0x5B9CCA4F; 0x682E6FF3; 0x748F82EE; 0x78A5636F; 0x84C87814; 0x8CC70208;
   0x90BEFFFA; 0xA4506CEB; 0xBEF9A3F7; 0xC67178F2].

Definition RotateRight (value count : Z) : Z :=
  Z.lor (Z.shiftr value count) (u32 (Z.shiftl value (32 - count))).

Definition LoadBe32 (data : list Z) : Z :=
  Z.lor (Z.lor (Z.lor (u32 (Z.shiftl (byte_at data 0) 24)) (u32 (Z.shiftl (byte_at data 1) 16)))
               (u32 (Z.shiftl (byte_at data 2) 8)))
        (byte_at data 3).

(** [StoreBe32] as the bytes it stores. *)
Definition StoreBe32 (value : Z) : list Z :=
  [u8 (Z.shiftr value 24); u8 (Z.shiftr value 16); u8 (Z.shiftr value 8); u8 value].

(** ** The block transform *)

Definition word (w : list Z) (i : nat) : Z := nth i w 0.

(** The message schedule: [w[i]] for [i] up to 15, then one word at a time. *)
Definition schedule_start (block : list Z) : list Z :=
  (fun i => LoadBe32 (drop (i * 4) block)) <$> seq 0 16.

Definition schedule_step (w : list Z) : list Z :=
  let i := length w in
  let s0 := Z.lxor (Z.lxor (RotateRight (word w (i - 15)) 7) (RotateRight (word w (i - 15)) 18))
                   (Z.shiftr (word w (i - 15)) 3) in
  let s1 := Z.lxor (Z.lxor (RotateRight (word w (i - 2)) 17) (RotateRight (word w (i - 2)) 19))
                   (Z.shiftr (word w (i - 2)) 10) in
  w ++ [word w (i - 16) +w s0 +w word w (i - 7) +w s1].

Definition schedule (block : list Z) : list Z :=
  Nat.iter 48 schedule_step (schedule_start block).

(** The working variables. *)
Record Vars := mkVars { va : Z; vb : Z; vc : Z; vd : Z; ve : Z; vf : Z; vg : Z; vh : Z }.

Definition round (w : list Z) (v : Vars) (i : nat) : Vars :=
  let '(mkVars a b c d e f g h) := v in
  let s1 := Z.lxor (Z.lxor (RotateRight e 6) (RotateRight e 11)) (RotateRight e 25) in
  let choice := Z.lxor (Z.land e f) (Z.land (u32 (Z.lnot e)) g) in
  let temp1 := h +w s1 +w choice +w word g_sha256_k i +w word w i in
  let s0 := Z.lxor (Z.lxor (RotateRight a 2) (RotateRight a 13)) (RotateRight a 22) in
  let majority := Z.lxor (Z.lxor (Z.land a b) (Z.land a c)) (Z.land b c) in
  let temp2 := s0 +w majority in
  mkVars (temp1 +w temp2) a b c (d +w temp1) e f g.

(** The state after one block. *)
Definition compress (state block : list Z) : list Z :=
  let w := schedule block in
  let v := fold_left (round w) (seq 0 64)
    (mkVars (word state 0) (word state 1) (word state 2) (word state 3)
            (word state 4) (word state 5) (word state 6) (word state 7)) in
  [word state 0 +w va v; word state 1 +w vb v; word state 2 +w vc v; word state 3 +w vd v;
   word state 4 +w ve v; word state 5 +w vf v; word state 6 +w vg v; word state 7 +w vh v].

Definition Transform (context : Sha256Context_t) (block : list Z) : Sha256Context_t :=
  mkSha256 (compress (sc_state context) block) (sc_total_length context) (sc_buffer context)
    (sc_buffer_length context).

(** ** Streaming *)

Definition sha256_initial : list Z :=
  [0x6A09E667; 0xBB67AE85; 0x3C6EF372; 0xA54FF53A;
   0x510E527F; 0x9B05688C; 0x1F83D9AB; 0x5BE0CD19].

(** The buffer keeps whatever the memory held. *)
Definition Sha256_Init (context : Sha256Context_t) : Sha256Context_t :=
  mkSha256 sha256_initial 0 (sc_buffer context) 0.

(** Copy bytes at the end of the buffered data. *)
Definition buffer_append (bs : list Z) (context : Sha256Context_t) : Sha256Context_t :=
  mkSha256 (sc_state context) (sc_total_length context)
    (list_inserts (Z.to_nat (sc_buffer_length context)) bs (sc_buffer context))
    (sc_buffer_length context + len bs).

(** Transform the buffer and empty it. *)
Definition buffer_flush (context : Sha256Context_t) : Sha256Context_t :=
  let context := Transform context (sc_buffer context) in
  mkSha256 (sc_state context) (sc_total_length context) (sc_buffer context) 0.

(** The loop of [Sha256_Update]; every iteration consumes a byte, so the
    length is enough fuel. *)
Fixpoint Sha256_Absorb (fuel : nat) (context : Sha256Context_t) (input : list Z) (length : Z)
    : Sha256Context_t :=
  match fuel with
  | O => context
  | S fuel =>
      if length =? 0 then context else
      let chunk := SHA256_BLOCK_SIZE - sc_buffer_length context in
      let chunk := if length <? chunk then length else chunk in
      let context := buffer_append (take (Z.to_nat chunk) input) context in
      let context := if sc_buffer_length context =? SHA256_BLOCK_SIZE
                     then buffer_flush context else context in
      Sha256_Absorb fuel context (drop (Z.to_nat chunk) input) (length - chunk)
  end.

Definition Sha256_Update (context : Sha256Context_t) (data : option (list Z)) (length : Z)
    : Sha256Context_t :=
  match data with
  | None => context
  | Some input =>
      let context := mkSha256 (sc_state context) (u64 (sc_total_length context + length))
                       (sc_buffer context) (sc_buffer_length context) in
      Sha256_Absorb (Z.to_nat length) context input length
  end.

(** [while (buffer_length < limit) buffer[buffer_length++] = 0;] *)
Definition zero_fill (limit : Z) (context : Sha256Context_t) : Sha256Context_t :=
  Nat.iter (Z.to_nat (limit - sc_buffer_length context)) (buffer_append [0]) context.

(** The eight length bytes, stored from the last one down. *)
Definition store_length (bit_length : Z) (context : Sha256Context_t) : Sha256Context_t :=
  mkSha256 (sc_state context) (sc_total_length context)
    (fold_left (fun buffer i => <[(63 - i)%nat := u8 (Z.shiftr bit_length (Z.of_nat i * 8))]> buffer)
       (seq 0 8) (sc_buffer context))
    (sc_buffer_length context).

Definition Sha256_Final (context : Sha256Context_t) : Sha256Context_t * list Z :=
  let bit_length := u64 (sc_total_length context * 8) in
  let context := buffer_append [0x80] context in
  let context := if 56 <? sc_buffer_length context
                 then buffer_flush (zero_fill SHA256_BLOCK_SIZE context) else context in
  let context := zero_fill 56 context in
  let context := store_length bit_length context in
  let context := Transform context (sc_buffer context) in
  let digest := sc_state context ≫= StoreBe32 in
  (mkSha256 (sc_state context) (sc_total_length context) (sc_buffer context) 0, digest).

(** [context] is an uninitialised local. *)
Definition Sha256_Calculate (context : Sha256Context_t) (data : option (list Z)) (length : Z)
    : list Z :=
  snd (Sha256_Final (Sha256_Update (Sha256_Init context) data length)).

(** A context as memory holds it: a buffer of one block. *)
Definition context_ok (context : Sha256Context_t) : Prop :=
  length (sc_buffer context) = 64%nat.

#[global] Opaque compress.

(** ** The one-shot definition *)

(** The state after the first [k] blocks of a message. *)
Definition state_after (m : list Z) (k : nat) : list Z :=
  fold_left (fun st i => compress st (take 64 (drop (64 * i) m))) (seq 0 k) sha256_initial.

(** The length of a message as eight big-endian bytes. *)
Definition be_length (m : list Z) : list Z :=
  (fun i => u8 (Z.shiftr (u64 (len m * 8)) (Z.of_nat (7 - i) * 8))) <$> seq 0 8.

(** Number of zero bytes that bring a message and its end mark to 56 modulo 64. *)
Definition pad_zeros (n : nat) : nat := ((119 - n mod 64) mod 64)%nat.

Definition padded (m : list Z) : list Z :=
  m ++ [0x80] ++ replicate (pad_zeros (length m)) 0 ++ be_length m.

(** SHA-256 of a message. *)
Definition sha256 (m : list Z) : list Z :=
  state_after (padded m) (length (padded m) / 64) ≫= StoreBe32.

(** ** The streaming context holds a message *)

(** [context] has absorbed [m]: the state covers [k] blocks, the buffer the
    rest, which may be a full block. *)
Record Holds (context : Sha256Context_t) (m : list Z) (k : nat) : Prop := {
  ho_buffer : context_ok context;
  ho_fill : 0 <= sc_buffer_length context <= 64;
  ho_len : len m = 64 * Z.of_nat k + sc_buffer_length context;
  ho_state : sc_state context = state_after m k;
  ho_rest : take (Z.to_nat (sc_buffer_length context)) (sc_buffer context) = drop (64 * k) m
}.

Lemma state_after_app m bs k :
  (64 * k <= length m)%nat -> state_after (m ++ bs) k = state_after m k.
Proof.
  intros Hk. unfold state_after. generalize sha256_initial. generalize compress.
  intros f st. induction k as [|k IH]; [reflexivity|].
  rewrite seq_S, !fold_left_app, IH by lia. cbn [fold_left Nat.add].
  rewrite drop_app_le by lia. rewrite take_app_le by (rewrite length_drop; lia). reflexivity.
Qed.

Lemma Holds_append context m k bs :
  Holds context m k -> sc_buffer_length context + len bs <= 64 ->
  Holds (buffer_append bs context) (m ++ bs) k.
Proof.
  intros [Hb Hf Hl Hs Hr] Hn. unfold context_ok in *.
  set (n := Z.to_nat (sc_buffer_length context)) in *.
  split; unfold buffer_append; cbn [sc_state sc_buffer sc_buffer_length].
  - unfold context_ok. cbn [sc_buffer]. by rewrite length_inserts.
  - lia.
  - rewrite length_app. lia.
  - rewrite state_after_app by lia. done.
  - fold n. rewrite drop_app_le by lia. rewrite <- Hr.
    replace (Z.to_nat (sc_buffer_length context + len bs)) with (n + length bs)%nat by lia.
    apply list_eq. intros i. destruct (decide (i < n + length bs)%nat) as [Hi|Hi].
    + rewrite lookup_take_lt by done. destruct (decide (i < n)%nat) as [Hin|Hin].
      * rewrite lookup_app_l by (rewrite length_take; lia).
        rewrite lookup_take_lt by done. apply list_lookup_inserts_lt. done.
      * rewrite lookup_app_r by (rewrite length_take; lia). rewrite length_take.
        rewrite list_lookup_inserts by lia. f_equal. lia.
    + rewrite lookup_take_ge by lia. symmetry. apply lookup_ge_None.
      rewrite length_app, length_take. lia.
Qed.

Lemma Holds_flush context m k :
  Holds context m k -> sc_buffer_length context = 64 -> Holds (buffer_flush context) m (S k).
Proof.
  intros [Hb Hf Hl Hs Hr] Hn. unfold context_ok in *.
  split; unfold buffer_flush, Transform, context_ok; cbn [sc_state sc_buffer sc_buffer_length].
  - done.
  - lia.
  - lia.
  - unfold state_after in *. rewrite seq_S, fold_left_app, <- Hs. cbn [fold_left Nat.add].
    f_equal. rewrite take_ge by (rewrite length_drop; lia). rewrite <- Hr, take_ge by lia. done.
  - rewrite take_0. symmetry. apply drop_ge. lia.
Qed.

(** ** Every update is an append *)

Lemma Holds_init context : context_ok context -> Holds (Sha256_Init context) [] 0.
Proof. intros H. split; cbn; done || lia. Qed.

Lemma Holds_total t context m k :
  Holds context m k ->
  Holds (mkSha256 (sc_state context) t (sc_buffer context) (sc_buffer_length context)) m k.
Proof. intros [? ? ? ? ?]. by split. Qed.

(** The invariant between calls: the buffer is never full. *)
Definition Absorbed (context : Sha256Context_t) (m : list Z) : Prop :=
  (exists k, Holds context m k) /\ sc_buffer_length context < 64.

Lemma Absorb_append fuel context input n m :
  Absorbed context m -> n = len input -> n <= Z.of_nat fuel ->
  let context' := Sha256_Absorb fuel context input n in
  Absorbed context' (m ++ input) /\ sc_total_length context' = sc_total_length context.
Proof.
  revert context input n m.
  induction fuel as [|fuel IH]; intros context input n m [[k Hh] Hlt] Hn Hfuel; cbn [Sha256_Absorb].
  { destruct input; [|cbn in *; lia]. rewrite app_nil_r. split; [split; [by eexists|done]|done]. }
  destruct (Z.eqb_spec n 0) as [->|Hn0].
  { destruct input; [|cbn in *; lia]. rewrite app_nil_r. split; [split; [by eexists|done]|done]. }
  cbv zeta. pose proof (ho_fill _ _ _ Hh) as Hf. unfold SHA256_BLOCK_SIZE.
  set (chunk := if n <? 64 - sc_buffer_length context then n else 64 - sc_buffer_length context).
  assert (Hc : 0 < chunk <= n /\ sc_buffer_length context + chunk <= 64)
    by (unfold chunk; destruct (Z.ltb_spec n (64 - sc_buffer_length context)); lia).
  clearbody chunk. set (a := take (Z.to_nat chunk) input).
  assert (Ha : len a = chunk) by (unfold a; rewrite length_take; lia).
  assert (Hap : Holds (buffer_append a context) (m ++ a) k) by (apply Holds_append; [done|lia]).
  assert (Hstep : forall context', Absorbed context' (m ++ a) ->
    sc_total_length context' = sc_total_length context ->
    let context'' := Sha256_Absorb fuel context' (drop (Z.to_nat chunk) input) (n - chunk) in
    Absorbed context'' (m ++ input) /\ sc_total_length context'' = sc_total_length context).
  { intros context' Habs Ht.
    replace (m ++ input) with ((m ++ a) ++ drop (Z.to_nat chunk) input)
      by (rewrite <- app_assoc; unfold a; by rewrite take_drop).
    rewrite <- Ht. apply IH; [done|rewrite length_drop; lia|lia]. }
  apply Hstep; destruct (Z.eqb_spec (sc_buffer_length (buffer_append a context)) 64) as [E|E];
    try done.
  - split; [exists (S k); by apply Holds_flush|done].
  - split; [by exists k|]. pose proof (ho_fill _ _ _ Hap). lia.
Qed.

Lemma Update_append context input m :
  Absorbed context m -> sc_total_length context = u64 (len m) ->
  let context' := Sha256_Update context (Some input) (len input) in
  Absorbed context' (m ++ input) /\ sc_total_length context' = u64 (len (m ++ input)).
Proof.
  intros [[k Hh] Hlt] Ht. unfold Sha256_Update. cbv zeta. rewrite Ht, Nat2Z.id.
  destruct (Absorb_append (length input)
    (mkSha256 (sc_state context) (u64 (u64 (len m) + len input)) (sc_buffer context)
       (sc_buffer_length context)) input (len input) m) as [Ha Hl]; [|done|done|].
  { split; [exists k; by apply Holds_total|done]. }
  split; [done|]. rewrite Hl. cbn [sc_total_length]. unfold u64.
  rewrite Z.add_mod_idemp_l by done. rewrite len_app. done.
Qed.

(** ** Finishing *)

Lemma Holds_zero_fill limit context m k :
  Holds context m k -> sc_buffer_length context <= limit <= 64 ->
  Holds (zero_fill limit context)
    (m ++ replicate (Z.to_nat (limit - sc_buffer_length context)) 0) k /\
  sc_buffer_length (zero_fill limit context) = limit.
Proof.
  intros Hh Hl. unfold zero_fill.
  assert (Hn : forall n, sc_buffer_length context + Z.of_nat n <= 64 ->
    Holds (Nat.iter n (buffer_append [0]) context) (m ++ replicate n 0) k /\
    sc_buffer_length (Nat.iter n (buffer_append [0]) context) =
      sc_buffer_length context + Z.of_nat n).
  { induction n as [|n IH]; intros Hle; [rewrite app_nil_r; split; [done|cbn; lia]|].
    destruct IH as [IH Hbl]; [lia|]. rewrite Nat.iter_succ. split.
    - replace (m ++ replicate (S n) 0) with ((m ++ replicate n 0) ++ [0])
        by (rewrite <- app_assoc, <- replicate_S_end; reflexivity).
      apply Holds_append; [done|]. rewrite Hbl. cbn. lia.
    - cbn [buffer_append sc_buffer_length]. rewrite Hbl. cbn. lia. }
  destruct (Hn (Z.to_nat (limit - sc_buffer_length context))) as [H1 H2]; [lia|].
  split; [exact H1|]. rewrite H2. lia.
Qed.

Lemma split_block (b : list Z) :
  length b = 64%nat -> exists p q0 q1 q2 q3 q4 q5 q6 q7,
    b = p ++ [q0; q1; q2; q3; q4; q5; q6; q7] /\ length p = 56%nat.
Proof.
  intros Hb. exists (take 56 b).
  assert (length (drop 56 b) = 8%nat) as Hd by (rewrite length_drop; lia).
  pose proof (take_drop 56 b) as He.
  destruct (drop 56 b) as [|q0 [|q1 [|q2 [|q3 [|q4 [|q5 [|q6 [|q7 [|]]]]]]]]]; try discriminate.
  exists q0, q1, q2, q3, q4, q5, q6, q7. split; [symmetry; exact He|]. rewrite length_take. lia.
Qed.

Lemma list_inserts_tail (b bs : list Z) :
  length b = 64%nat -> length bs = 8%nat -> list_inserts 56 bs b = take 56 b ++ bs.
Proof.
  intros Hb Hbs. apply split_block in Hb as (p & q0 & q1 & q2 & q3 & q4 & q5 & q6 & q7 & -> & Hp).
  rewrite <- Hp, take_app_length. rewrite <- (Nat.add_0_r (length p)), list_inserts_app_r.
  f_equal. rewrite <- (app_nil_r [q0; _; _; _; _; _; _; _]).
  rewrite list_inserts_0_r by done. apply app_nil_r.
Qed.

Lemma store_length_buffer (b : list Z) n :
  length b = 64%nat ->
  fold_left (fun buffer i => <[(63 - i)%nat := u8 (Z.shiftr n (Z.of_nat i * 8))]> buffer)
    (seq 0 8) b =
  take 56 b ++ ((fun i => u8 (Z.shiftr n (Z.of_nat (7 - i) * 8))) <$> seq 0 8).
Proof.
  intros Hb. apply split_block in Hb as (p & q0 & q1 & q2 & q3 & q4 & q5 & q6 & q7 & -> & Hp).
  rewrite take_app_length' by done. cbn [seq fold_left Nat.sub].
  assert (Hi : forall j v q, <[(56 + j)%nat := v]> (p ++ q) = p ++ <[j := v]> q)
    by (intros; rewrite <- Hp; apply insert_app_r).
  change 63%nat with (56 + 7)%nat. change 62%nat with (56 + 6)%nat.
  change 61%nat with (56 + 5)%nat. change 60%nat with (56 + 4)%nat.
  change 59%nat with (56 + 3)%nat. change 58%nat with (56 + 2)%nat.
  change 57%nat with (56 + 1)%nat.
  rewrite !Hi, (Hi 0%nat : forall v q, <[56%nat := v]> (p ++ q) = _). reflexivity.
Qed.

(** The number of zeros [Sha256_Final] writes. *)
Lemma pad_zeros_eq n k bl :
  (n = 64 * k + bl -> bl < 64 ->
   pad_zeros n = if 55 <? bl then 119 - bl else 55 - bl)%nat.
Proof.
  intros -> Hb. unfold pad_zeros.
  replace ((64 * k + bl) mod 64)%nat with bl.
  2: { rewrite Nat.add_comm, Nat.mul_comm, Nat.Div0.mod_add. symmetry. by apply Nat.mod_small. }
  destruct (Nat.ltb_spec 55 bl).
  - apply Nat.mod_small. lia.
  - replace (119 - bl)%nat with ((55 - bl) + 1 * 64)%nat by lia.
    rewrite Nat.Div0.mod_add. apply Nat.mod_small. lia.
Qed.

(** Storing the length completes the last block. *)
Lemma Final_last context m m' k :
  Holds context m' k -> sc_buffer_length context = 56 ->
  compress (sc_state context)
    (sc_buffer (store_length (u64 (u64 (len m) * 8)) context)) =
  state_after (m' ++ be_length m) (S k).
Proof.
  intros Hh Hbl. pose proof (Holds_append _ _ _ (be_length m) Hh) as Hn.
  assert (Hlen : length (be_length m) = 8%nat) by reflexivity.
  rewrite Hbl, Hlen in Hn. specialize (Hn ltac:(lia)).
  pose proof (Holds_flush _ _ _ Hn) as Hfl.
  cbn [buffer_append sc_buffer_length] in Hfl. rewrite Hbl, Hlen in Hfl.
  pose proof (ho_state _ _ _ (Hfl eq_refl)) as Hs. rewrite <- Hs.
  unfold buffer_flush, Transform, store_length. cbn [buffer_append sc_state sc_buffer].
  apply (f_equal (compress (sc_state context))).
  rewrite store_length_buffer by apply (ho_buffer _ _ _ Hh). rewrite Hbl.
  pose proof (ho_buffer _ _ _ Hh) as Hb. unfold context_ok in Hb.
  change (Z.to_nat 56) with 56%nat.
  rewrite list_inserts_tail by done. f_equal.
  unfold be_length, u64. rewrite Z.mul_mod_idemp_l by done. reflexivity.
Qed.

(** The padding brings the message to the last eight bytes of a block. *)
Lemma Holds_pad context m :
  Absorbed context m ->
  let c := buffer_append [0x80] context in
  let c := if 56 <? sc_buffer_length c
           then buffer_flush (zero_fill SHA256_BLOCK_SIZE c) else c in
  exists k, Holds (zero_fill 56 c) (m ++ [0x80] ++ replicate (pad_zeros (length m)) 0) k /\
    sc_buffer_length (zero_fill 56 c) = 56.
Proof.
  intros [[k Hh] Hlt]. cbv zeta. pose proof (ho_fill _ _ _ Hh) as Hf.
  set (bl := Z.to_nat (sc_buffer_length context)).
  assert (Hbl : sc_buffer_length context = Z.of_nat bl) by lia.
  rewrite (pad_zeros_eq (length m) k bl) by (pose proof (ho_len _ _ _ Hh); lia).
  pose proof (Holds_append _ _ _ [0x80] Hh) as Ha. specialize (Ha ltac:(cbn; lia)).
  set (c := buffer_append [0x80] context) in *.
  assert (Hc : sc_buffer_length c = Z.of_nat bl + 1)
    by (unfold c; cbn [buffer_append sc_buffer_length]; rewrite Hbl; cbn; lia).
  unfold SHA256_BLOCK_SIZE.
  destruct (Z.ltb_spec 56 (sc_buffer_length c)) as [Hl|Hl];
    [rewrite (proj2 (Nat.ltb_lt _ _)) by lia|rewrite (proj2 (Nat.ltb_ge _ _)) by lia].
  - destruct (Holds_zero_fill 64 _ _ _ Ha) as [H1 Hb1]; [lia|].
    pose proof (Holds_flush _ _ _ H1 Hb1) as H2.
    destruct (Holds_zero_fill 56 _ _ _ H2) as [H3 Hb3]; [cbn; lia|].
    exists (S k). split; [|exact Hb3]. cbn [buffer_flush Transform sc_buffer_length] in H3.
    replace (119 - bl)%nat with (Z.to_nat (64 - sc_buffer_length c) + 56)%nat by lia.
    rewrite replicate_add, !app_assoc. exact H3.
  - destruct (Holds_zero_fill 56 _ _ _ Ha) as [H3 Hb3]; [lia|].
    exists k. split; [|exact Hb3].
    replace (55 - bl)%nat with (Z.to_nat (56 - sc_buffer_length c)) by lia.
    rewrite app_assoc. exact H3.
Qed.

Lemma Final_digest context m :
  Absorbed context m -> sc_total_length context = u64 (len m) ->
  snd (Sha256_Final context) = sha256 m.
Proof.
  intros Ha Ht. destruct (Holds_pad context m Ha) as (k & Hk & Hbl). cbv zeta in Hk, Hbl.
  unfold Sha256_Final. cbv zeta. rewrite Ht. cbn [snd Transform sc_state].
  match goal with |- context [store_length _ (zero_fill 56 ?c)] => set (c4 := c) in * end.
  change (sc_state (store_length ?n ?c)) with (sc_state c).
  rewrite (Final_last _ m _ _ Hk Hbl). unfold sha256.
  assert (padded m = (m ++ [0x80] ++ replicate (pad_zeros (length m)) 0) ++ be_length m) as <-
    by (unfold padded; by rewrite <- !app_assoc).
  assert (length (padded m) / 64 = S k)%nat as ->; [|reflexivity].
  pose proof (ho_len _ _ _ Hk) as Hl. rewrite Hbl in Hl.
  assert (length (padded m) = S k * 64)%nat as ->.
  { unfold padded. rewrite app_assoc, app_assoc, length_app.
    change (length (be_length m)) with 8%nat. rewrite <- app_assoc. lia. }
  apply Nat.div_mul. lia.
Qed.

(** The digest of a message that arrives in pieces. *)
Lemma Sha256_pieces context pieces :
  context_ok context ->
  snd (Sha256_Final (fold_left (fun c p => Sha256_Update c (Some p) (len p)) pieces
                       (Sha256_Init context))) = sha256 (concat pieces).
Proof.
  intros Hc.
  assert (Hall : forall ps c m, Absorbed c m -> sc_total_length c = u64 (len m) ->
    let c' := fold_left (fun c p => Sha256_Update c (Some p) (len p)) ps c in
    Absorbed c' (m ++ concat ps) /\ sc_total_length c' = u64 (len (m ++ concat ps))).
  { induction ps as [|p ps IH]; intros c m Ha Ht; cbn [fold_left concat].
    - rewrite app_nil_r. done.
    - destruct (Update_append c p m Ha Ht) as [Ha' Ht']. rewrite app_assoc. by apply IH. }
  destruct (Hall pieces (Sha256_Init context) []) as [Ha Ht]; [|done|by apply Final_digest].
  split; [exists 0%nat; by apply Holds_init|]. done.
Qed.

Lemma Sha256_Calculate_sha256 context data :
  context_ok context -> Sha256_Calculate context (Some data) (len data) = sha256 data.
Proof.
  intros Hc. pose proof (Sha256_pieces context [data] Hc) as H.
  cbn [fold_left concat] in H. rewrite app_nil_r in H. exact H.
Qed.

(** A digest is 32 bytes. *)
Lemma StoreBe32_words ws :
  length (ws ≫= StoreBe32) = (4 * length ws)%nat /\ bytes_ok (ws ≫= StoreBe32).
Proof.
  induction ws as [|x ws [IH1 IH2]]; [done|]. rewrite bind_cons. split.
  - rewrite length_app, IH1. cbn. lia.
  - apply Forall_app. split; [|done]. repeat constructor; apply u8_range.
Qed.

Transparent compress.
Lemma compress_length st block : length (compress st block) = 8%nat.
Proof. reflexivity. Qed.
#[global] Opaque compress.

Lemma sha256_digest m : len (sha256 m) = SHA256_DIGEST_SIZE /\ bytes_ok (sha256 m).
Proof.
  unfold sha256. set (k := (length (padded m) / 64)%nat). clearbody k.
  destruct (StoreBe32_words (state_after (padded m) k)) as [Hl Hok]. split; [|exact Hok].
  rewrite Hl. unfold state_after. destruct k as [|k]; [done|].
  rewrite seq_S, fold_left_app. cbn [fold_left]. rewrite compress_length. done.
Qed.

(** C39: Streaming is hashing: for any list of pieces, Sha256_Init, one
    Sha256_Update per piece and Sha256_Final give the digest of the padded
    concatenation, block by block; Sha256_Calculate gives the same for the
    whole. *)
Theorem Sha256_streaming (context : Sha256Context_t) (pieces : list (list Z)) :
  context_ok context ->
  snd (Sha256_Final (fold_left (fun c p => Sha256_Update c (Some p) (len p)) pieces
                       (Sha256_Init context))) = sha256 (concat pieces) /\
  (forall data, Sha256_Calculate context (Some data) (len data) = sha256 data).
Proof.
  intros Hc. split; [by apply Sha256_pieces|].
  intros data. by apply Sha256_Calculate_sha256.
Qed.

(** The FIPS 180-4 test vector "abc", hashed in two pieces. *)
Lemma Sha256_streaming_witness :
  let context := mkSha256 [] 0 (replicate 64 0xA5) 7 in
  snd (Sha256_Final (Sha256_Update (Sha256_Update (Sha256_Init context)
         (Some [97]) 1) (Some [98; 99]) 2)) =
  [0xBA; 0x78; 0x16; 0xBF; 0x8F; 0x01; 0xCF; 0xEA; 0x41; 0x41; 0x40; 0xDE; 0x5D; 0xAE; 0x22; 0x23;
   0xB0; 0x03; 0x61; 0xA3; 0x96; 0x17; 0x7A; 0x9C; 0xB4; 0x10; 0xFF; 0x61; 0xF2; 0x00; 0x15; 0xAD].
Proof.
  intros context.
  destruct (Sha256_streaming context [[97]; [98; 99]] eq_refl) as [H _].
  cbn [fold_left] in H. cbn [length] in H. transitivity (sha256 (concat [[97]; [98; 99]])).
  - exact H.
  - vm_compute. reflexivity.
Defined.

#[global] Opaque Sha256_Init Sha256_Update Sha256_Final Sha256_Calculate sha256.
