(* ===== verification/SecureContainer.v ===== *)
(** * SecureContainer: node-stm32f103/bootloader/src/secure_container.c

    Authentication of the signed container in the incoming partition, its
    reconstruction into the reconstructed partition and the metadata
    transitions from ARTIFACT_READY to IMAGE_READY.  The signature check and
    the delta interpreter are used through the interfaces below. *)

From S2P Require Import Prelude Bytes MemoryMap Crc32 AbRecord BootMetadata FullImage.
From S2P Require Import FirmwareContainer Sha256 Device Logic MetadataStorage TrialBoot.
From S2P Require Import SpiFlash.
From S2P Require Import ExternalFlashStorage AbStorage SectorRecords ChipIdle Recovery.
From S2P Require Import Chunks DeltaEngine EcdsaP256 EcdsaTheorems.

(** ** Interfaces *)

(** trusted_key.h, generated per product by the key tool: the key is 64 bytes. *)
Class TrustedKey := {
  TRUSTED_KEY_PROVISIONED : bool;
  TRUSTED_KEY_ID : Z;
  g_trusted_public_key : list Z;
  trusted_key_bytes : bytes_ok g_trusted_public_key;
  trusted_key_length : length g_trusted_public_key = 64%nat
}.

(** The file as it is in the repository: no key. *)
Definition unprovisioned_key : TrustedKey.
Proof.
  refine {| TRUSTED_KEY_PROVISIONED := false; TRUSTED_KEY_ID := 0;
            g_trusted_public_key := replicate 64 0 |}.
  - apply Forall_replicate. done.
  - done.
Defined.

(** ** Data *)

Inductive SecureContainerStatus_t :=
  | SECURE_CONTAINER_OK
  | SECURE_CONTAINER_NOT_PRESENT
  | SECURE_CONTAINER_UNPROVISIONED_KEY
  | SECURE_CONTAINER_FLASH_INIT_FAILED
  | SECURE_CONTAINER_HEADER_READ_FAILED
  | SECURE_CONTAINER_HEADER_INVALID
  | SECURE_CONTAINER_KEY_ID_MISMATCH
  | SECURE_CONTAINER_METADATA_MISMATCH
  | SECURE_CONTAINER_VERSION_REJECTED
  | SECURE_CONTAINER_PAYLOAD_READ_FAILED
  | SECURE_CONTAINER_PAYLOAD_CRC_MISMATCH
  | SECURE_CONTAINER_SIGNATURE_READ_FAILED
  | SECURE_CONTAINER_SIGNATURE_INVALID
  | SECURE_CONTAINER_BASE_VERSION_MISMATCH
  | SECURE_CONTAINER_BASE_HASH_MISMATCH
  | SECURE_CONTAINER_TARGET_ERASE_FAILED
  | SECURE_CONTAINER_TARGET_WRITE_FAILED
  | SECURE_CONTAINER_PATCH_FAILED
  | SECURE_CONTAINER_TARGET_READ_FAILED
  | SECURE_CONTAINER_TARGET_HASH_MISMATCH
  | SECURE_CONTAINER_TARGET_CRC_MISMATCH
  | SECURE_CONTAINER_TARGET_VECTOR_INVALID
  | SECURE_CONTAINER_METADATA_COMMIT_FAILED
  | SECURE_CONTAINER_SOURCE_REJECTED.

#[export] Instance SecureContainerStatus_eq : EqDecision SecureContainerStatus_t.
Proof. solve_decision. Defined.

(** The cast [(uint32_t)reason]. *)
Definition secure_status_word (s : SecureContainerStatus_t) : Z :=
  match s with
  | SECURE_CONTAINER_OK => 0 | SECURE_CONTAINER_NOT_PRESENT => 1
  | SECURE_CONTAINER_UNPROVISIONED_KEY => 2 | SECURE_CONTAINER_FLASH_INIT_FAILED => 3
  | SECURE_CONTAINER_HEADER_READ_FAILED => 4 | SECURE_CONTAINER_HEADER_INVALID => 5
  | SECURE_CONTAINER_KEY_ID_MISMATCH => 6 | SECURE_CONTAINER_METADATA_MISMATCH => 7
  | SECURE_CONTAINER_VERSION_REJECTED => 8 | SECURE_CONTAINER_PAYLOAD_READ_FAILED => 9
  | SECURE_CONTAINER_PAYLOAD_CRC_MISMATCH => 10 | SECURE_CONTAINER_SIGNATURE_READ_FAILED => 11
  | SECURE_CONTAINER_SIGNATURE_INVALID => 12 | SECURE_CONTAINER_BASE_VERSION_MISMATCH => 13
  | SECURE_CONTAINER_BASE_HASH_MISMATCH => 14 | SECURE_CONTAINER_TARGET_ERASE_FAILED => 15
  | SECURE_CONTAINER_TARGET_WRITE_FAILED => 16 | SECURE_CONTAINER_PATCH_FAILED => 17
  | SECURE_CONTAINER_TARGET_READ_FAILED => 18 | SECURE_CONTAINER_TARGET_HASH_MISMATCH => 19
  | SECURE_CONTAINER_TARGET_CRC_MISMATCH => 20 | SECURE_CONTAINER_TARGET_VECTOR_INVALID => 21
  | SECURE_CONTAINER_METADATA_COMMIT_FAILED => 22 | SECURE_CONTAINER_SOURCE_REJECTED => 23
  end.

Definition SECURE_CONTAINER_ERROR_BASE : Z := 0x00140000.
Definition SECURE_IO_BUFFER_SIZE : Z := 256.

(** The constant-time comparison: the differences are accumulated. *)
Definition BytesEqual (left right : list Z) (length : Z) : bool :=
  fold_left (fun difference i =>
      u8 (Z.lor difference (u8 (Z.lxor (byte_at left i) (byte_at right i)))))
    (seqZ 0 length) 0 =? 0.

(** An uninitialised local context; the digests do not depend on it. *)
Definition local_context : Sha256Context_t := mkSha256 (replicate 8 0) 0 (replicate 64 0) 0.

#[local] Opaque EcdsaP256_VerifyDigest ecdsa_verify.

Section secure_container.
Context {HW : Hw} {Key : TrustedKey} {Delta : DeltaEngine}.
Implicit Types w : World HW.

(** What a handler returns: its status, and the metadata copied to
    [result_metadata] ([CopyResult]). *)
Abbreviation Result := (SecureContainerStatus_t * option BootMetadata_t)%type.

Definition Reject (metadata : BootMetadata_t) (reason : SecureContainerStatus_t) : M HW Result :=
  let metadata := metadata
    |> bm_set_state (state_word UPDATE_IDLE)
    |> bm_set_pending_version 0
    |> bm_set_active_update_id 0
    |> bm_set_received_size 0
    |> bm_set_expected_size 0
    |> bm_set_copy_offset 0
    |> bm_set_boot_attempts 0
    |> bm_set_last_error (Z.lor SECURE_CONTAINER_ERROR_BASE (secure_status_word reason)) in
  _ignored <- DownloadCheckpointStorage_Clear ;;
  r <- CommitMetadata metadata ;;
  let '(status, metadata) := r in
  if bool_decide (status <> METADATA_STORAGE_OK)
  then ret (SECURE_CONTAINER_METADATA_COMMIT_FAILED, None)
  else ret (SECURE_CONTAINER_SOURCE_REJECTED, Some metadata).

Definition Transition (metadata : BootMetadata_t) (state : UpdateState_t)
    : M HW (SecureContainerStatus_t * BootMetadata_t) :=
  let metadata := metadata
    |> bm_set_state (state_word state)
    |> bm_set_copy_offset 0
    |> bm_set_boot_attempts 0
    |> bm_set_last_error 0 in
  r <- CommitMetadata metadata ;;
  let '(status, metadata) := r in
  ret (if bool_decide (status = METADATA_STORAGE_OK)
       then SECURE_CONTAINER_OK else SECURE_CONTAINER_METADATA_COMMIT_FAILED, metadata).

(** ** Authentication

    A function with an out-parameter returns [inl status] for a failure and
    [inr] its outputs for SECURE_CONTAINER_OK. *)

Definition ReadHeader (artifact_size : Z)
    : M HW (SecureContainerStatus_t + FirmwareContainerInfo_t * list Z) :=
  raw <- ExternalFlashStorage_Read EXTERNAL_FLASH_PARTITION_INCOMING 0
           FW_CONTAINER_HEADER_SIZE ;;
  match raw with
  | None => ret (inl SECURE_CONTAINER_HEADER_READ_FAILED)
  | Some raw =>
      match FirmwareContainer_Parse (Some raw) artifact_size with
      | (FW_CONTAINER_VALID, Some info) => ret (inr (info, raw))
      | _ => ret (inl SECURE_CONTAINER_HEADER_INVALID)
      end
  end.

(** The running hashes and CRC of the payload loop. *)
Definition payload_step (s : Sha256Context_t * Sha256Context_t * Z) (bs : list Z)
    : Sha256Context_t * Sha256Context_t * Z :=
  let '(signed_hash, payload_hash, running_crc) := s in
  (Sha256_Update signed_hash (Some bs) (len bs),
   Sha256_Update payload_hash (Some bs) (len bs),
   Crc32_Update running_crc (Some bs) (len bs)).

(** The signed digest, the payload digest and the payload CRC. *)
Definition HashAndCrcPayload (info : FirmwareContainerInfo_t) (raw_header : list Z)
    : M HW (SecureContainerStatus_t + list Z * list Z * Z) :=
  let signed_hash := Sha256_Update (Sha256_Init local_context) (Some raw_header)
                       FW_CONTAINER_HEADER_SIZE in
  let payload_hash := Sha256_Init local_context in
  r <- ReadChunks SECURE_IO_BUFFER_SIZE
         (fun offset chunk => ExternalFlashStorage_Read EXTERNAL_FLASH_PARTITION_INCOMING
            (u32 (fi_payload_offset info + offset)) chunk)
         (fw_payload_size (fi_header info)) payload_step
         (signed_hash, payload_hash, CRC32_IEEE_INITIAL_VALUE) ;;
  match r with
  | None => ret (inl SECURE_CONTAINER_PAYLOAD_READ_FAILED)
  | Some (signed_hash, payload_hash, running_crc) =>
      ret (inr (snd (Sha256_Final signed_hash), snd (Sha256_Final payload_hash),
                Z.lxor running_crc CRC32_IEEE_FINAL_XOR))
  end.

Definition SecureContainer_IsIncoming : M HW bool :=
  ok <- ExternalFlashStorage_Init ;;
  if negb ok then ret false else
  magic <- ExternalFlashStorage_Read EXTERNAL_FLASH_PARTITION_INCOMING 0 4 ;;
  match magic with
  | None => ret false
  | Some magic => ret (FirmwareContainer_GetU32Le (Some magic) =? FW_CONTAINER_MAGIC)
  end.

Definition SecureContainer_LoadVerifiedInfo (artifact_size : Z)
    : M HW (SecureContainerStatus_t + FirmwareContainerInfo_t) :=
  let fail status := ret (inl status) in
  ok <- ExternalFlashStorage_Init ;;
  if negb ok then fail SECURE_CONTAINER_FLASH_INIT_FAILED else
  if negb TRUSTED_KEY_PROVISIONED then fail SECURE_CONTAINER_UNPROVISIONED_KEY else
  r <- ReadHeader artifact_size ;;
  match r with
  | inl status => fail status
  | inr (info, raw_header) =>
      if fx_key_id (fi_extension info) <>? TRUSTED_KEY_ID
      then fail SECURE_CONTAINER_KEY_ID_MISMATCH else
      r <- HashAndCrcPayload info raw_header ;;
      match r with
      | inl status => fail status
      | inr (signed_digest, payload_digest, payload_crc) =>
          if payload_crc <>? fw_payload_crc32 (fi_header info)
          then fail SECURE_CONTAINER_PAYLOAD_CRC_MISMATCH else
          signature <- ExternalFlashStorage_Read EXTERNAL_FLASH_PARTITION_INCOMING
                         (fi_signature_offset info) FW_ECDSA_P256_RAW_SIGNATURE_SIZE ;;
          match signature with
          | None => fail SECURE_CONTAINER_SIGNATURE_READ_FAILED
          | Some signature =>
              if bool_decide (EcdsaP256_VerifyDigest (Some g_trusted_public_key) (Some signed_digest)
                                (Some signature) <> ECDSA_P256_VALID)
              then fail SECURE_CONTAINER_SIGNATURE_INVALID else
              if (fw_image_type (fi_header info) =? FW_IMAGE_FULL)
                 && negb (BytesEqual payload_digest (fw_target_image_sha256 (fi_header info))
                            FW_SHA256_SIZE)
              then fail SECURE_CONTAINER_TARGET_HASH_MISMATCH
              else ret (inr info)
          end
      end
  end.

(** ** Policy *)

Definition ValidateMetadataPolicy (info : FirmwareContainerInfo_t) (metadata : BootMetadata_t)
    : SecureContainerStatus_t :=
  let h := fi_header info in
  if (bm_active_update_id metadata =? 0)
     || (bm_pending_version metadata <>? fw_target_version h)
     || (bm_received_size metadata <>? bm_expected_size metadata)
     || (bm_expected_size metadata <>? fi_total_size info)
  then SECURE_CONTAINER_METADATA_MISMATCH
  else if fw_target_version h <=? bm_active_version metadata
  then SECURE_CONTAINER_VERSION_REJECTED
  else if fw_image_type h =? FW_IMAGE_FULL
  then if fw_base_version h <>? 0 then SECURE_CONTAINER_METADATA_MISMATCH
       else SECURE_CONTAINER_OK
  else if fw_base_version h <>? bm_active_version metadata
  then SECURE_CONTAINER_BASE_VERSION_MISMATCH
  else SECURE_CONTAINER_OK.

Definition ValidateBase (info : FirmwareContainerInfo_t) : M HW SecureContainerStatus_t :=
  if fw_image_type (fi_header info) <>? FW_IMAGE_DELTA then ret SECURE_CONTAINER_OK else
  let n := fx_base_image_size (fi_extension info) in
  base <- flash_read APPLICATION_START_ADDRESS n ;;
  let digest := Sha256_Calculate local_context (Some base) n in
  ret (if BytesEqual digest (fw_base_image_sha256 (fi_header info)) FW_SHA256_SIZE
       then SECURE_CONTAINER_OK else SECURE_CONTAINER_BASE_HASH_MISMATCH).

(** ** Reconstruction *)

Definition EraseReconstructed (target_size : Z) : M HW SecureContainerStatus_t :=
  let erase_size := Z.land (u32 (target_size + EXT_FLASH_SECTOR_SIZE - 1))
                           (u32 (Z.lnot (EXT_FLASH_SECTOR_SIZE - 1))) in
  if (erase_size =? 0) || (EXT_RECONSTRUCTED_SIZE <? erase_size)
  then ret SECURE_CONTAINER_TARGET_ERASE_FAILED else
  ok <- ExternalFlashStorage_EraseRange EXTERNAL_FLASH_PARTITION_RECONSTRUCTED 0 erase_size ;;
  ret (if (ok : bool) then SECURE_CONTAINER_OK else SECURE_CONTAINER_TARGET_ERASE_FAILED).

Definition CopyFullPayload (info : FirmwareContainerInfo_t) : M HW SecureContainerStatus_t :=
  let payload_size := fw_payload_size (fi_header info) in
  loop (payload_size + 1) (fun offset =>
    if offset <? payload_size then
      let chunk := u32 (payload_size - offset) in
      let chunk := if SECURE_IO_BUFFER_SIZE <? chunk then SECURE_IO_BUFFER_SIZE else chunk in
      buffer <- ExternalFlashStorage_Read EXTERNAL_FLASH_PARTITION_INCOMING
                  (u32 (fi_payload_offset info + offset)) chunk ;;
      match buffer with
      | None => ret (inr SECURE_CONTAINER_PAYLOAD_READ_FAILED)
      | Some buffer =>
          ok <- ExternalFlashStorage_Write EXTERNAL_FLASH_PARTITION_RECONSTRUCTED offset
                  (Some buffer) chunk ;;
          if (ok : bool) then ret (inl (u32 (offset + chunk)))
          else ret (inr SECURE_CONTAINER_TARGET_WRITE_FAILED)
      end
    else ret (inr SECURE_CONTAINER_OK)) 0.

Definition ApplyDeltaPayload (info : FirmwareContainerInfo_t) : M HW SecureContainerStatus_t :=
  let stream :=
    {| js_base_image_size := fx_base_image_size (fi_extension info);
       js_patch_offset := fi_payload_offset info;
       js_patch_size := fw_payload_size (fi_header info);
       js_target_image_size := fw_target_image_size (fi_header info) |} in
  r <- DeltaEngine_ApplyStream stream ;;
  let '(status, result) := r in
  ret (if bool_decide (status <> JANPATCH_PORT_OK) then SECURE_CONTAINER_PATCH_FAILED
       else if (jr_patch_position result <>? js_patch_size stream)
            || (jr_target_position result <>? js_target_image_size stream)
       then SECURE_CONTAINER_PATCH_FAILED
       else SECURE_CONTAINER_OK).

Definition image_step (s : Sha256Context_t * Z) (bs : list Z) : Sha256Context_t * Z :=
  let '(context, running) := s in
  (Sha256_Update context (Some bs) (len bs), Crc32_Update running (Some bs) (len bs)).

(** The digest and the CRC of the reconstructed image. *)
Definition HashReconstructed (length : Z)
    : M HW (SecureContainerStatus_t + list Z * Z) :=
  r <- ReadChunks SECURE_IO_BUFFER_SIZE
         (fun offset chunk => ExternalFlashStorage_Read EXTERNAL_FLASH_PARTITION_RECONSTRUCTED
            offset chunk)
         length image_step (Sha256_Init local_context, CRC32_IEEE_INITIAL_VALUE) ;;
  match r with
  | None => ret (inl SECURE_CONTAINER_TARGET_READ_FAILED)
  | Some (context, running) =>
      ret (inr (snd (Sha256_Final context), Z.lxor running CRC32_IEEE_FINAL_XOR))
  end.

Definition VerifyReconstructed (info : FirmwareContainerInfo_t) : M HW SecureContainerStatus_t :=
  let target_size := fw_target_image_size (fi_header info) in
  r <- HashReconstructed target_size ;;
  match r with
  | inl status => ret status
  | inr (digest, crc) =>
      if negb (BytesEqual digest (fw_target_image_sha256 (fi_header info)) FW_SHA256_SIZE)
      then ret SECURE_CONTAINER_TARGET_HASH_MISMATCH
      else if crc <>? fx_target_image_crc32 (fi_extension info)
      then ret SECURE_CONTAINER_TARGET_CRC_MISMATCH else
      vector <- ExternalFlashStorage_Read EXTERNAL_FLASH_PARTITION_RECONSTRUCTED 0 8 ;;
      match vector with
      | None => ret SECURE_CONTAINER_TARGET_READ_FAILED
      | Some vector =>
          if bool_decide (FullImage_ValidateVector target_size
               (FirmwareContainer_GetU32Le (from 0 vector))
               (FirmwareContainer_GetU32Le (from 4 vector)) <> FULL_IMAGE_VALID)
          then ret SECURE_CONTAINER_TARGET_VECTOR_INVALID
          else ret SECURE_CONTAINER_OK
      end
  end.

(** ** The handler *)

(** One transition of the handler, taken only in state [s]. *)
Definition TransitionFrom (s next : UpdateState_t) (working : BootMetadata_t)
    : M HW (Result + BootMetadata_t) :=
  if bm_state working =? state_word s then
    r <- Transition working next ;;
    let '(status, working) := r in
    if bool_decide (status <> SECURE_CONTAINER_OK) then leave (ret (status, None))
    else go working
  else go working.

(** The state transitions up to PATCHING, with the base check of a delta. *)
Definition AdvanceToPatching (info : FirmwareContainerInfo_t) (working : BootMetadata_t)
    : M HW (Result + BootMetadata_t) :=
  working <-! TransitionFrom UPDATE_ARTIFACT_READY UPDATE_VERIFYING_CONTAINER working ;;
  if fw_image_type (fi_header info) =? FW_IMAGE_DELTA then
    working <-! TransitionFrom UPDATE_VERIFYING_CONTAINER UPDATE_VERIFYING_BASE working ;;
    status <- ValidateBase info ;;
    if bool_decide (status <> SECURE_CONTAINER_OK) then leave (Reject working status)
    else TransitionFrom UPDATE_VERIFYING_BASE UPDATE_PATCHING working
  else TransitionFrom UPDATE_VERIFYING_CONTAINER UPDATE_PATCHING working.

(** Erase, fill and verify the reconstructed partition. *)
Definition Reconstruct (info : FirmwareContainerInfo_t) : M HW SecureContainerStatus_t :=
  status <- EraseReconstructed (fw_target_image_size (fi_header info)) ;;
  if bool_decide (status <> SECURE_CONTAINER_OK) then ret status else
  status <- (if fw_image_type (fi_header info) =? FW_IMAGE_DELTA
             then ApplyDeltaPayload info else CopyFullPayload info) ;;
  if bool_decide (status <> SECURE_CONTAINER_OK) then ret status else
  VerifyReconstructed info.

(** The commit of IMAGE_READY. *)
Definition CommitImageReady (info : FirmwareContainerInfo_t) (working : BootMetadata_t)
    : M HW Result :=
  let target_size := fw_target_image_size (fi_header info) in
  let working := working
    |> bm_set_state (state_word UPDATE_IMAGE_READY)
    |> bm_set_received_size target_size
    |> bm_set_expected_size target_size
    |> bm_set_copy_offset 0
    |> bm_set_boot_attempts 0
    |> bm_set_last_error 0 in
  r <- CommitMetadata working ;;
  let '(status, working) := r in
  if bool_decide (status <> METADATA_STORAGE_OK)
  then ret (SECURE_CONTAINER_METADATA_COMMIT_FAILED, None)
  else ret (SECURE_CONTAINER_OK, Some working).

Definition SecureContainer_Process (metadata : option BootMetadata_t) : M HW Result :=
  match metadata with
  | None => ret (SECURE_CONTAINER_METADATA_MISMATCH, None)
  | Some working =>
      ok <- ExternalFlashStorage_Init ;;
      if negb ok then ret (SECURE_CONTAINER_FLASH_INIT_FAILED, None) else
      incoming <- SecureContainer_IsIncoming ;;
      if negb incoming then Reject working SECURE_CONTAINER_NOT_PRESENT else
      r <- SecureContainer_LoadVerifiedInfo (bm_expected_size working) ;;
      match r with
      | inl status => Reject working status
      | inr info =>
          let status := ValidateMetadataPolicy info working in
          if bool_decide (status <> SECURE_CONTAINER_OK) then Reject working status else
          run_exit (
            working <-! AdvanceToPatching info working ;;
            if bm_state working <>? state_word UPDATE_PATCHING
            then leave (Reject working SECURE_CONTAINER_METADATA_MISMATCH) else
            status <- Reconstruct info ;;
            if bool_decide (status <> SECURE_CONTAINER_OK) then leave (Reject working status)
            else leave (CommitImageReady info working))
      end
  end.

(** ** Helpers of the proofs *)

Lemma BytesEqual_spec (l r : list Z) n :
  bytes_ok l -> bytes_ok r -> len l = n -> len r = n -> BytesEqual l r n = true <-> l = r.
Proof.
  intros Hl Hr Hln Hrn. unfold BytesEqual. rewrite Z.eqb_eq.
  set (x := fun i => u8 (Z.lxor (byte_at l i) (byte_at r i))).
  assert (Hx : forall i, x i = Z.lxor (byte_at l i) (byte_at r i)).
  { intros i. apply u8_small, lxor_byte; by apply byte_at_ok. }
  assert (Hfold : forall js acc, 0 <= acc < 2 ^ 8 ->
    fold_left (fun d i => u8 (Z.lor d (x i))) js acc = 0 <->
    acc = 0 /\ Forall (fun i => byte_at l i = byte_at r i) js).
  { intros js. induction js as [|i js IH]; intros acc Ha; cbn [fold_left].
    { split; [by intros ->|by intros []]. }
    assert (Hor : is_byte (Z.lor acc (x i))) by (apply lor_byte; [exact Ha|apply u8_range]).
    rewrite IH by apply u8_range. rewrite (u8_small _ Hor), Z.lor_eq_0_iff, Hx.
    rewrite Z.lxor_eq_0_iff, Forall_cons. tauto. }
  etransitivity; [apply (Hfold (seqZ 0 n) 0); lia|]. split.
  - intros [_ Hall]. apply list_eq_same_length with (length l); [lia|done|].
    intros i a b Hi Ha Hb. rewrite Forall_forall in Hall.
    assert (Z.of_nat i ∈ seqZ 0 n) as Hin by (apply elem_of_seqZ; lia).
    specialize (Hall _ Hin). unfold byte_at in Hall. rewrite !Nat2Z.id in Hall.
    by rewrite (nth_lookup_Some _ _ _ _ Ha), (nth_lookup_Some _ _ _ _ Hb) in Hall.
  - intros ->. split; [done|]. by apply Forall_true.
Qed.

(** ** What authentication establishes *)

Definition container_header (h : hw) : list Z :=
  nor_slice h EXT_INCOMING_ADDRESS FW_CONTAINER_HEADER_SIZE.
Definition container_payload (h : hw) (info : FirmwareContainerInfo_t) : list Z :=
  nor_slice h (EXT_INCOMING_ADDRESS + fi_payload_offset info) (fw_payload_size (fi_header info)).
Definition container_signature (h : hw) (info : FirmwareContainerInfo_t) : list Z :=
  nor_slice h (EXT_INCOMING_ADDRESS + fi_signature_offset info) FW_ECDSA_P256_RAW_SIGNATURE_SIZE.

(** The incoming partition holds a container signed by the trusted key, and
    [info] is what its header says. *)
Record Authenticated (h : hw) (info : FirmwareContainerInfo_t) : Prop := {
  au_key : TRUSTED_KEY_PROVISIONED = true /\ fx_key_id (fi_extension info) = TRUSTED_KEY_ID;
  au_info : info = info_of (ReadFixed (container_header h)) (ReadExtension (container_header h));
  au_accepted : AcceptedHeader (fi_header info) (fi_extension info);
  au_crc : crc_of (container_payload h info) = fw_payload_crc32 (fi_header info);
  au_signature :
    ecdsa_verify g_trusted_public_key
      (sha256 (container_header h ++ container_payload h info)) (container_signature h info)
    = ECDSA_P256_VALID;
  au_full : fw_image_type (fi_header info) = FW_IMAGE_FULL ->
    sha256 (container_payload h info) = fw_target_image_sha256 (fi_header info)
}.

Lemma Authenticated_frame N F h h' info :
  frame N F h h' ->
  (forall a, EXT_INCOMING_ADDRESS <= a < EXT_INCOMING_ADDRESS + EXT_INCOMING_SIZE -> ~ N a) ->
  Authenticated h info -> Authenticated h' info.
Proof.
  intros Hf HN [H1 H2 H3 H4 H5 H6].
  assert (Hs : forall off n, 0 <= off -> off + n <= EXT_INCOMING_SIZE ->
    nor_slice h' (EXT_INCOMING_ADDRESS + off) n = nor_slice h (EXT_INCOMING_ADDRESS + off) n).
  { intros off n Ho Hn. eapply nor_slice_frame; [exact Hf|]. intros i Hi. apply HN. lia. }
  pose proof (ah_payload _ _ H3) as Hp.
  assert (fi_payload_offset info = FW_CONTAINER_HEADER_SIZE /\
    fi_signature_offset info = FW_CONTAINER_HEADER_SIZE + fw_payload_size (fi_header info))
    as [Ho1 Ho2] by (rewrite H2; done).
  unfold FW_CONTAINER_HEADER_SIZE, FW_ECDSA_P256_RAW_SIGNATURE_SIZE in *.
  assert (container_header h' = container_header h) as E1.
  { unfold container_header. rewrite <- (Z.add_0_r EXT_INCOMING_ADDRESS). apply Hs; done || map_lia. }
  assert (container_payload h' info = container_payload h info) as E2.
  { unfold container_payload. rewrite Ho1. apply Hs; done || lia. }
  assert (container_signature h' info = container_signature h info) as E3.
  { unfold container_signature. rewrite Ho2.
    apply Hs; unfold FW_CONTAINER_FIXED_HEADER_SIZE, FW_CONTAINER_EXTENSION_SIZE,
      FW_ECDSA_P256_RAW_SIGNATURE_SIZE in *; lia. }
  split; rewrite ?E1, ?E2, ?E3; done.
Qed.

(** The folds of the two payload loops. *)
Lemma payload_fold pieces s p c :
  fold_left payload_step pieces (s, p, c) =
  (fold_left (fun c p => Sha256_Update c (Some p) (len p)) pieces s,
   fold_left (fun c p => Sha256_Update c (Some p) (len p)) pieces p,
   fold_left crc_step pieces c).
Proof. revert s p c. induction pieces as [|bs ps IH]; intros; [done|]. cbn [fold_left]. apply IH. Qed.

Lemma image_fold pieces s c :
  fold_left image_step pieces (s, c) =
  (fold_left (fun c p => Sha256_Update c (Some p) (len p)) pieces s, fold_left crc_step pieces c).
Proof. revert s c. induction pieces as [|bs ps IH]; intros; [done|]. cbn [fold_left]. apply IH. Qed.

Lemma local_context_ok : context_ok local_context.
Proof. done. Qed.

Lemma incoming_base : part_base EXTERNAL_FLASH_PARTITION_INCOMING = EXT_INCOMING_ADDRESS.
Proof. done. Qed.
Lemma incoming_size : part_size EXTERNAL_FLASH_PARTITION_INCOMING = EXT_INCOMING_SIZE.
Proof. done. Qed.
Lemma reconstructed_base :
  part_base EXTERNAL_FLASH_PARTITION_RECONSTRUCTED = EXT_RECONSTRUCTED_ADDRESS.
Proof. done. Qed.
Lemma reconstructed_size :
  part_size EXTERNAL_FLASH_PARTITION_RECONSTRUCTED = EXT_RECONSTRUCTED_SIZE.
Proof. done. Qed.

(** Reading a partition while nothing changes. *)
Lemma still_Storage_Read h0 p off n :
  0 <= off -> 0 <= n ->
  triple nowhere nowhere (still h0) (ExternalFlashStorage_Read p off n)
    (fun r w => still h0 w /\ forall bs, r = Some bs ->
       off + n <= part_size p /\ bs = nor_slice h0 (part_base p + off) n).
Proof.
  intros Ho Hn. eapply triple_post; [by apply triple_still, triple_Storage_Read|].
  cbv beta. intros r w [Hs Hb]. split; [done|]. intros bs Hr.
  destruct (Hb bs Hr) as [? ->]. split; [done|]. by apply still_nor_slice.
Qed.

Lemma still_HashAndCrcPayload h0 info :
  fi_payload_offset info = FW_CONTAINER_HEADER_SIZE ->
  0 < fw_payload_size (fi_header info) <= EXT_INCOMING_SIZE ->
  triple nowhere nowhere (still h0) (HashAndCrcPayload info (container_header h0))
    (fun r w => still h0 w /\ forall signed digest crc,
       r = inr (signed, digest, crc) ->
       signed = sha256 (container_header h0 ++ container_payload h0 info) /\
       digest = sha256 (container_payload h0 info) /\
       crc = crc_of (container_payload h0 info)).
Proof.
  intros Ho Hp. unfold HashAndCrcPayload. cbv zeta.
  set (n := fw_payload_size (fi_header info)) in *.
  eapply triple_bind.
  { apply (triple_ReadChunks _ _ _ (container_payload h0 info) _ _ (still h0)); [done| | |].
    - unfold is_u32. map_lia.
    - apply nor_slice_length. lia.
    - intros off m H1 H2 H3. rewrite Ho. unfold FW_CONTAINER_HEADER_SIZE,
        FW_CONTAINER_FIXED_HEADER_SIZE, FW_CONTAINER_EXTENSION_SIZE in *.
      rewrite u32_small by (unfold is_u32; map_lia).
      eapply triple_post; [apply still_Storage_Read; lia|]. cbv beta.
      intros r w [Hs Hb]. split; [done|]. intros bs Hr. destruct (Hb bs Hr) as [_ ->].
      unfold container_payload. rewrite Ho, slice_nor_slice by lia.
      rewrite incoming_base. f_equal. lia. }
  intros [[[s p] c]|]; apply triple_ret; intros w [Hs Hf]; (split; [done|]); [|discriminate].
  destruct (Hf _ eq_refl) as (pieces & Hpc & Hfold). rewrite payload_fold in Hfold.
  injection Hfold as -> -> ->. intros signed digest crc [= <- <- <-].
  pose proof (Sha256_pieces local_context (container_header h0 :: pieces) local_context_ok) as H1.
  pose proof (Sha256_pieces local_context pieces local_context_ok) as H2.
  cbn [fold_left concat] in H1. rewrite Hpc in H1, H2.
  assert (len (container_header h0) = FW_CONTAINER_HEADER_SIZE) as Hl by (by apply nor_slice_length).
  rewrite Hl in H1. rewrite H1, H2, crc_step_pieces, Hpc.
  split; [reflexivity|split; reflexivity].
Qed.

(** ** Authentication *)

Lemma still_ReadHeader h0 n :
  triple nowhere nowhere (still h0) (ReadHeader n)
    (fun r w => still h0 w /\ forall info raw, r = inr (info, raw) ->
       raw = container_header h0 /\
       info = info_of (ReadFixed raw) (ReadExtension raw) /\
       AcceptedHeader (fi_header info) (fi_extension info) /\
       (n = 0 \/ n = fi_total_size info)).
Proof.
  unfold ReadHeader. triple_step still_Storage_Read; [done..|].
  intros [raw|]; [|apply triple_ret; by intros w []].
  apply (triple_pure _ _ _ (raw = container_header h0)).
  { intros w [_ Hb]. destruct (Hb raw eq_refl) as [_ ->].
    rewrite incoming_base, Z.add_0_r. reflexivity. }
  intros ->. destruct (FirmwareContainer_Parse _ n) as [st [info|]] eqn:E.
  - destruct st; apply triple_ret; intros w [Hs _]; (split; [done|]); try discriminate.
    intros info' raw' [= -> <-]. apply Parse_accepts in E as (Ha & Hi & Hn); [|apply nor_slice_ok].
    split_and!; [done..| |done]. rewrite Hi. exact Ha.
  - destruct st; apply triple_ret; intros w [Hs _]; (split; [done|]); discriminate.
Qed.

Lemma ReadFixed_hashes raw :
  bytes_ok raw -> len raw = FW_CONTAINER_HEADER_SIZE ->
  (len (fw_target_image_sha256 (ReadFixed raw)) = FW_SHA256_SIZE /\
   bytes_ok (fw_target_image_sha256 (ReadFixed raw))) /\
  (len (fw_base_image_sha256 (ReadFixed raw)) = FW_SHA256_SIZE /\
   bytes_ok (fw_base_image_sha256 (ReadFixed raw))).
Proof.
  intros Hok Hl. unfold FW_CONTAINER_HEADER_SIZE, FW_CONTAINER_FIXED_HEADER_SIZE,
    FW_CONTAINER_EXTENSION_SIZE, FW_SHA256_SIZE in *.
  split_and!; cbn [ReadFixed fw_target_image_sha256 fw_base_image_sha256];
    first [by apply slice_bytes_ok | apply slice_length; unfold FW_SHA256_SIZE; lia].
Qed.

(** A digest comparison, with the lengths of the two hashes. *)
Lemma hash_checked (l r : list Z) n :
  BytesEqual l r n = true ->
  len l = n /\ bytes_ok l -> len r = n /\ bytes_ok r -> l = r.
Proof. intros H [Hl Hlo] [Hr Hro]. by apply (BytesEqual_spec l r n). Qed.

(** The tests of the code, as [Authenticated]. *)
Lemma Authenticated_intro h info :
  TRUSTED_KEY_PROVISIONED = true ->
  fx_key_id (fi_extension info) = TRUSTED_KEY_ID ->
  info = info_of (ReadFixed (container_header h)) (ReadExtension (container_header h)) ->
  AcceptedHeader (fi_header info) (fi_extension info) ->
  crc_of (container_payload h info) = fw_payload_crc32 (fi_header info) ->
  EcdsaP256_VerifyDigest (Some g_trusted_public_key)
    (Some (sha256 (container_header h ++ container_payload h info))) (Some (container_signature h info))
    = ECDSA_P256_VALID ->
  (fw_image_type (fi_header info) =? FW_IMAGE_FULL)
    && negb (BytesEqual (sha256 (container_payload h info))
               (fw_target_image_sha256 (fi_header info)) FW_SHA256_SIZE) = false ->
  Authenticated h info.
Proof.
  intros Hkey Hid Hinfo Hacc Hcrc Hsig Hfull. split; [by split|exact Hinfo|exact Hacc|exact Hcrc| |].
  { destruct (sha256_digest (container_header h ++ container_payload h info)) as [Hlen Hok].
    rewrite EcdsaP256_VerifyDigest_spec in Hsig; [exact Hsig|apply trusted_key_bytes|exact Hok|
      apply nor_slice_ok|apply trusted_key_length|unfold SHA256_DIGEST_SIZE in Hlen; lia|].
    pose proof (nor_slice_length h (EXT_INCOMING_ADDRESS + fi_signature_offset info)
      FW_ECDSA_P256_RAW_SIGNATURE_SIZE ltac:(done)) as Hl.
    unfold FW_ECDSA_P256_RAW_SIGNATURE_SIZE in Hl. unfold container_signature.
    unfold FW_ECDSA_P256_RAW_SIGNATURE_SIZE. lia. }
  intros Ht. rewrite Ht, Z.eqb_refl, andb_true_l, negb_false_iff in Hfull.
  apply (hash_checked _ _ _ Hfull); [apply sha256_digest|].
  rewrite Hinfo. apply ReadFixed_hashes; [apply nor_slice_ok|by apply nor_slice_length].
Qed.

(** What success promises, whatever the hardware does in between. *)
Lemma triple_LoadVerifiedInfo n :
  triple nowhere nowhere (fun w => idle (w_hw w)) (SecureContainer_LoadVerifiedInfo n)
    (fun r w => forall info, r = inr info ->
       Authenticated (w_hw w) info /\ (n = 0 \/ n = fi_total_size info)).
Proof.
  apply (triple_fix _ _ (fun r h => forall info, r = inr info ->
       Authenticated h info /\ (n = 0 \/ n = fi_total_size info))).
  { intros r h h' Hf H info ->. destruct (H info eq_refl) as [Ha Hn].
    split; [|done]. eapply Authenticated_frame; [exact Hf| |exact Ha]. by intros a _ []. }
  intros h0. unfold SecureContainer_LoadVerifiedInfo. cbv zeta.
  triple_step (triple_still_pre h0); [apply triple_Storage_Init|intros w Hw; exact Hw|]. intros ok.
  eapply triple_pre; [|intros w [Hw _]; exact Hw].
  apply triple_if; intros _; [by apply triple_ret|].
  destruct TRUSTED_KEY_PROVISIONED eqn:Hkey; cbn [negb]; [|by apply triple_ret].
  triple_step still_ReadHeader; [done|]. intros [st|[info raw]]; [by apply triple_ret|].
  apply (triple_pure _ _ _ (raw = container_header h0 /\
       info = info_of (ReadFixed raw) (ReadExtension raw) /\
       AcceptedHeader (fi_header info) (fi_extension info) /\ (n = 0 \/ n = fi_total_size info))).
  { intros w [_ H]. exact (H info raw eq_refl). }
  intros (-> & Hinfo & Hacc & Hn). apply triple_if; intros Hid; [by apply triple_ret|].
  pose proof (ah_payload _ _ Hacc) as Hpay.
  assert (fi_payload_offset info = FW_CONTAINER_HEADER_SIZE) as Hoff by (rewrite Hinfo; done).
  assert (fi_signature_offset info = FW_CONTAINER_HEADER_SIZE + fw_payload_size (fi_header info))
    as Hsoff by (rewrite Hinfo; done).
  triple_step still_HashAndCrcPayload; [done| |by intros w []|].
  { unfold FW_CONTAINER_HEADER_SIZE, FW_ECDSA_P256_RAW_SIGNATURE_SIZE,
      FW_CONTAINER_FIXED_HEADER_SIZE, FW_CONTAINER_EXTENSION_SIZE in *. lia. }
  intros [st|[[signed digest] crc]]; [by apply triple_ret|].
  apply (triple_pure _ _ _ (signed = sha256 (container_header h0 ++ container_payload h0 info) /\
       digest = sha256 (container_payload h0 info) /\ crc = crc_of (container_payload h0 info))).
  { intros w [_ H]. exact (H signed digest crc eq_refl). }
  intros (-> & -> & ->). apply triple_if; intros Hcrc; [by apply triple_ret|]. to_prop.
  triple_step still_Storage_Read; [rewrite Hsoff; unfold FW_CONTAINER_HEADER_SIZE,
    FW_CONTAINER_FIXED_HEADER_SIZE, FW_CONTAINER_EXTENSION_SIZE; lia|done|by intros w []|].
  intros [signature|]; [|by apply triple_ret].
  apply triple_if; intros Hsig; [by apply triple_ret|].
  apply triple_if; intros Hfull; apply triple_ret; intros w [_ Hb] info' [= <-].
  apply bool_decide_eq_false, dec_stable in Hsig. destruct (Hb signature eq_refl) as [_ ->].
  split; [|exact Hn].
  apply Authenticated_intro; [exact Hkey|exact Hid|exact Hinfo|exact Hacc|
    exact Hcrc|exact Hsig|exact Hfull].
Qed.

(** ** Reconstruction *)

Definition reconstructed_image (h : hw) (info : FirmwareContainerInfo_t) : list Z :=
  nor_slice h EXT_RECONSTRUCTED_ADDRESS (fw_target_image_size (fi_header info)).

(** The reconstructed partition holds the signed target image. *)
Record Reconstructed (h : hw) (info : FirmwareContainerInfo_t) : Prop := {
  rc_hash : sha256 (reconstructed_image h info) = fw_target_image_sha256 (fi_header info);
  rc_crc : crc_of (reconstructed_image h info) = fx_target_image_crc32 (fi_extension info);
  rc_vector :
    FullImage_ValidateVector (fw_target_image_size (fi_header info))
      (GetU32Le (nor_slice h EXT_RECONSTRUCTED_ADDRESS 8))
      (GetU32Le (drop 4 (nor_slice h EXT_RECONSTRUCTED_ADDRESS 8))) = FULL_IMAGE_VALID
}.

Lemma Reconstructed_frame N F h h' info :
  frame N F h h' -> fw_target_image_size (fi_header info) <= APPLICATION_MAX_SIZE ->
  (forall a, EXT_RECONSTRUCTED_ADDRESS <= a < EXT_RECONSTRUCTED_ADDRESS + EXT_RECONSTRUCTED_SIZE ->
     ~ N a) ->
  Reconstructed h info -> Reconstructed h' info.
Proof.
  intros Hf Hsize HN [H1 H2 H3].
  assert (Hs : forall n, n <= EXT_RECONSTRUCTED_SIZE ->
    nor_slice h' EXT_RECONSTRUCTED_ADDRESS n = nor_slice h EXT_RECONSTRUCTED_ADDRESS n).
  { intros n Hn. eapply nor_slice_frame; [exact Hf|]. intros i Hi. apply HN. lia. }
  split; unfold reconstructed_image; rewrite Hs by map_lia; done.
Qed.

Lemma still_HashReconstructed h0 info :
  8 <= fw_target_image_size (fi_header info) <= APPLICATION_MAX_SIZE ->
  triple nowhere nowhere (still h0) (HashReconstructed (fw_target_image_size (fi_header info)))
    (fun r w => still h0 w /\
       match r with
       | inl st => st <> SECURE_CONTAINER_OK
       | inr (digest, crc) => digest = sha256 (reconstructed_image h0 info) /\
                              crc = crc_of (reconstructed_image h0 info)
       end).
Proof.
  intros Hn. unfold HashReconstructed.
  eapply triple_bind.
  { apply (triple_ReadChunks _ _ _ (reconstructed_image h0 info) _ _ (still h0)); [done| | |].
    - unfold is_u32. map_lia.
    - apply nor_slice_length. lia.
    - intros off m H1 H2 H3. eapply triple_post; [apply still_Storage_Read; lia|]. cbv beta.
      intros r w [Hs Hb]. split; [done|]. intros bs Hr. destruct (Hb bs Hr) as [_ ->].
      unfold reconstructed_image. rewrite slice_nor_slice by lia. reflexivity. }
  intros [[c p]|]; apply triple_ret; intros w [Hs Hf]; (split; [done|]); [|discriminate].
  destruct (Hf _ eq_refl) as (pieces & Hpc & Hfold). rewrite image_fold in Hfold.
  injection Hfold as -> ->.
  pose proof (Sha256_pieces local_context pieces local_context_ok) as H1. rewrite Hpc in H1.
  rewrite H1, crc_step_pieces, Hpc. split; reflexivity.
Qed.

Lemma triple_VerifyReconstructed info :
  8 <= fw_target_image_size (fi_header info) <= APPLICATION_MAX_SIZE ->
  len (fw_target_image_sha256 (fi_header info)) = FW_SHA256_SIZE /\
    bytes_ok (fw_target_image_sha256 (fi_header info)) ->
  triple nowhere nowhere (fun _ => True) (VerifyReconstructed info)
    (fun status w => status = SECURE_CONTAINER_OK -> Reconstructed (w_hw w) info).
Proof.
  intros Hn Hhash.
  apply (triple_fix _ _ (fun status h => status = SECURE_CONTAINER_OK -> Reconstructed h info)).
  { intros st h h' Hf H Hst. eapply Reconstructed_frame; [exact Hf|apply Hn| |by apply H].
    by intros a _ []. }
  intros h0. unfold VerifyReconstructed. cbv zeta.
  triple_step still_HashReconstructed; [done|by intros w []|]. intros [st|[digest crc]].
  { apply triple_ret. by intros w [_ H]. }
  apply (triple_pure _ _ _ (digest = sha256 (reconstructed_image h0 info) /\
       crc = crc_of (reconstructed_image h0 info))); [by intros w [_ H]|].
  intros [-> ->]. apply triple_if; intros Heq; [by apply triple_ret|].
  apply triple_if; intros Hcrc; [by apply triple_ret|]. to_prop.
  triple_step still_Storage_Read; [done..|by intros w []|]. intros [vector|]; [|by apply triple_ret].
  apply triple_if; intros Hv; apply triple_ret; intros w [_ Hb] Hst; [discriminate|].
  apply bool_decide_eq_false, dec_stable in Hv. destruct (Hb vector eq_refl) as [_ ->].
  split; [|exact Hcrc|exact Hv].
  apply (hash_checked _ _ _ Heq); [apply sha256_digest|exact Hhash].
Qed.

(** The steps that fill the partition write nothing else. *)
Abbreviation in_reconstructed := (in_partition EXTERNAL_FLASH_PARTITION_RECONSTRUCTED).

Lemma triple_EraseReconstructed n :
  triple in_reconstructed nowhere (fun _ => True) (EraseReconstructed n) (fun _ _ => True).
Proof.
  unfold EraseReconstructed. cbv zeta. apply triple_if; intros _; [by apply triple_ret|].
  triple_wide triple_Storage_EraseRange; [done|apply Z.land_nonneg; left; apply u32_range|
    by intros a []|done|done|].
  intros ok. by apply triple_ret.
Qed.

Lemma triple_CopyFullPayload info :
  fi_payload_offset info = FW_CONTAINER_HEADER_SIZE ->
  0 < fw_payload_size (fi_header info) <= EXT_INCOMING_SIZE ->
  triple in_reconstructed nowhere (fun _ => True) (CopyFullPayload info) (fun _ _ => True).
Proof.
  intros Ho Hp. unfold CopyFullPayload. cbv zeta. set (n := fw_payload_size (fi_header info)) in *.
  apply (triple_pre _ _ (fun _ => 0 <= 0 <= n)); [|intros; lia].
  apply (triple_loop _ _ (fun off _ => 0 <= off <= n) (fun off => n - Z.max 0 (Z.min off n))); [|lia].
  intros off _. apply (triple_pure _ _ _ (0 <= off <= n)); [done|]. intros Hoff.
  destruct (Z.ltb_spec off n) as [Hlt|]; [|by apply triple_ret].
  rewrite (u32_small (n - off)) by (unfold is_u32; map_lia). unfold SECURE_IO_BUFFER_SIZE.
  set (chunk := if 256 <? n - off then 256 else n - off).
  assert (Hc : 0 < chunk /\ off + chunk <= n)
    by (unfold chunk; destruct (Z.ltb_spec 256 (n - off)); lia).
  clearbody chunk. rewrite (u32_small (off + chunk)) by (unfold is_u32; map_lia).
  triple_wide triple_Storage_Read; [rewrite Ho; apply u32_range|lia|done|done|done|].
  intros [buffer|]; [|by apply triple_ret].
  apply (triple_pure _ _ _ (chunk = len buffer)).
  { intros w H. destruct (H buffer eq_refl) as [_ ->]. rewrite nor_slice_length; lia. }
  intros Hlen. triple_wide triple_Storage_Write; [lia|exact Hlen|by intros a []|done|done|].
  intros []; apply triple_ret; intros w _; [|done]. lia.
Qed.

Lemma triple_ApplyDeltaPayload h0 info :
  Authenticated h0 info -> fw_image_type (fi_header info) = FW_IMAGE_DELTA ->
  triple in_reconstructed nowhere (fun _ => True) (ApplyDeltaPayload info) (fun _ _ => True).
Proof.
  intros [_ Hinfo Hacc _ _ _] Htype. assert (Hbase : 8 <= fx_base_image_size (fi_extension info) <= APPLICATION_MAX_SIZE).
  { destruct (ah_base _ _ Hacc) as [(Hf & _)|(_ & _ & H & _)]; [by rewrite Hf in Htype|exact H]. }
  pose proof (ah_payload _ _ Hacc) as Hp. pose proof (ah_target_size _ _ Hacc) as Ht.
  assert (Ho : fi_payload_offset info = FW_CONTAINER_HEADER_SIZE) by (by rewrite Hinfo).
  unfold ApplyDeltaPayload. cbv zeta.
  triple_step (modifies_triple _ _ _ (fun _ => True)); [|done|intros [st r]; by apply triple_ret].
  apply apply_footprint. split; cbn; rewrite ?Ho; unfold is_u32, FW_CONTAINER_HEADER_SIZE,
    FW_CONTAINER_FIXED_HEADER_SIZE, FW_CONTAINER_EXTENSION_SIZE, FW_ECDSA_P256_RAW_SIGNATURE_SIZE in *; map_lia.
Qed.

(** A reconstruction that reports success left the signed image. *)
Lemma triple_Reconstruct h0 info :
  Authenticated h0 info ->
  triple in_reconstructed nowhere (fun _ => True) (Reconstruct info)
    (fun status w => status = SECURE_CONTAINER_OK -> Reconstructed (w_hw w) info).
Proof.
  intros Hau. pose proof Hau as [_ Hinfo Hacc _ _ _]. pose proof (ah_payload _ _ Hacc) as Hp.
  pose proof (ah_target_size _ _ Hacc) as Ht.
  unfold Reconstruct. triple_step triple_EraseReconstructed; [done|]. intros st.
  apply triple_if; intros E; [apply triple_ret; intros w _ ->; by apply bool_decide_eq_true in E|].
  eapply (triple_bind _ _ _ _ (fun _ _ => True)).
  { apply triple_if; intros E1; [eapply triple_ApplyDeltaPayload; [exact Hau|by to_prop]|].
    apply triple_CopyFullPayload; [by rewrite Hinfo|].
    unfold FW_CONTAINER_HEADER_SIZE, FW_CONTAINER_FIXED_HEADER_SIZE, FW_CONTAINER_EXTENSION_SIZE,
      FW_ECDSA_P256_RAW_SIGNATURE_SIZE in *. lia. }
  intros st2.
  apply triple_if; intros E2; [apply triple_ret; intros w _ ->; by apply bool_decide_eq_true in E2|].
  eapply triple_conseq; [apply triple_VerifyReconstructed; [exact Ht|]|done|done|done|done].
  rewrite Hinfo. apply ReadFixed_hashes; [apply nor_slice_ok|by apply nor_slice_length].
Qed.

Lemma triple_ValidateBase info :
  0 <= fx_base_image_size (fi_extension info) ->
  len (fw_base_image_sha256 (fi_header info)) = FW_SHA256_SIZE /\
    bytes_ok (fw_base_image_sha256 (fi_header info)) ->
  triple nowhere nowhere (fun _ => True) (ValidateBase info)
    (fun status w => status = SECURE_CONTAINER_OK ->
       fw_image_type (fi_header info) = FW_IMAGE_DELTA ->
       sha256 (app_slice (w_hw w) 0 (fx_base_image_size (fi_extension info))) =
       fw_base_image_sha256 (fi_header info)).
Proof.
  intros Hn Hhash. unfold ValidateBase. cbv zeta.
  apply triple_if; intros Ht.
  { apply triple_ret. intros w _ _ E. rewrite E, Z.eqb_refl in Ht. discriminate. }
  triple_step (triple_flash_read _ _ (fun _ => True)); [done|]. intros base. apply triple_ret. intros w [_ ->] Hst _.
  set (n := fx_base_image_size (fi_extension info)) in *.
  fold (flash_slice (w_hw w) APPLICATION_START_ADDRESS n) in Hst.
  pose proof (Sha256_Calculate_sha256 local_context (flash_slice (w_hw w) APPLICATION_START_ADDRESS n)
    local_context_ok) as Hs. rewrite flash_slice_length in Hs by done. rewrite Hs in Hst.
  unfold app_slice. rewrite Z.add_0_r.
  destruct (BytesEqual _ _ _) eqn:E; [|discriminate].
  apply (hash_checked _ _ _ E); [apply sha256_digest|exact Hhash].
Qed.

(** ** The handler keeps the running image safe *)

Context (Herase : erases_detected).

(** The identity of the update, which no transition changes. *)
Record same_update (m r : BootMetadata_t) : Prop := {
  su_active : bm_active_version r = bm_active_version m;
  su_pending : bm_pending_version r = bm_pending_version m;
  su_update_id : bm_active_update_id r = bm_active_update_id m
}.

(** The states before the backup, in which the application region is intact. *)
Definition app_state (s : UpdateState_t) : bool :=
  match s with
  | UPDATE_IDLE | UPDATE_RECEIVING | UPDATE_ARTIFACT_READY | UPDATE_VERIFYING_CONTAINER
  | UPDATE_VERIFYING_BASE | UPDATE_PATCHING | UPDATE_IMAGE_READY => true
  | _ => false
  end.

Lemma accounted_app orig m h s :
  app_state s = true -> bm_state m = state_word s -> bm_active_version m = im_version orig ->
  app_is orig h -> accounted orig m h.
Proof. intros Hs Hm Hv Ha. split; [done|]. exists s. split; [done|]. by destruct s. Qed.

(** Committing such a state. *)
Lemma wp_commit_app orig m s w :
  rec_wf m -> bm_state m = state_word s -> app_state s = true ->
  bm_active_version m = im_version orig -> safe orig (w_hw w) -> app_is orig (w_hw w) ->
  wp (CommitMetadata m)
    (fun '(status, m') w' =>
       frame nowhere in_boot_metadata (w_hw w) (w_hw w') /\
       safe orig (w_hw w') /\ app_is orig (w_hw w') /\ rec_wf m' /\ same_request m m' /\
       (status = METADATA_STORAGE_OK -> current_metadata (w_hw w') = Some m'))
    (safe orig) w.
Proof using Herase.
  intros Hwf Hm Hs Hv Hsafe Happ.
  eapply wp_mono; [apply wp_CommitMetadata; [done..|by eapply accounted_app]| |done].
  intros [st m'] w' (Hf & Hs' & Hwf' & Hsr & Hok & _).
  repeat (split; [assumption|]); (split; [|by repeat (split; [assumption|])]).
  eapply app_is_frame; [exact Hf|apply boot_metadata_off_app|done].
Qed.

(** Dropping the checkpoint and committing such a state. *)
Lemma wp_clear_commit {A} orig m s (k : MetadataStorageStatus_t * BootMetadata_t -> M HW A) R w :
  rec_wf m -> bm_state m = state_word s -> app_state s = true ->
  bm_active_version m = im_version orig -> safe orig (w_hw w) -> app_is orig (w_hw w) ->
  (forall status c w', safe orig (w_hw w') -> app_is orig (w_hw w') -> same_request m c ->
     (status = METADATA_STORAGE_OK -> current_metadata (w_hw w') = Some c) ->
     wp (k (status, c)) R (safe orig) w') ->
  wp (_ignored <- DownloadCheckpointStorage_Clear ;; r <- CommitMetadata m ;; k r)
    R (safe orig) w.
Proof using Herase.
  intros Hwf Hst Hs Hv Hsafe Happ Hk. apply wp_bind.
  assert (Hoff : off_backup in_ext_metadata)
    by (intros a Ha Hm; by apply (ext_metadata_off_backup a)).
  assert (Hsf : forall h, frame in_ext_metadata nowhere (w_hw w) h -> safe orig h).
  { intros h Hf. eapply safe_frame; [exact Hf|apply nowhere_off_app|exact Hoff|
      apply nowhere_off_metadata|done]. }
  eapply wp_safe_call; [apply triple_Clear|exact Hsf|].
  intros _ w1 Hf1 _. pose proof (Hsf _ Hf1) as Hs1.
  assert (app_is orig (w_hw w1)) by (eapply app_is_frame; [exact Hf1|apply nowhere_off_app|done]).
  apply wp_bind. eapply wp_mono; [by apply (wp_commit_app orig m s)| |done].
  intros [st c] w2 (_ & Hs2 & Ha2 & _ & Hsr & Hok). by apply Hk.
Qed.

Lemma wf_u32 m i : rec_wf m -> is_u32 (nth i (BootMetadata_fields m) 0).
Proof.
  intros H. destruct (nth_in_or_default i (BootMetadata_fields m) 0) as [Hin| ->]; [|by vm_compute].
  apply (proj1 (Forall_forall _ _) H). by apply list_elem_of_In.
Qed.

Lemma reject_error_u32 reason :
  is_u32 (Z.lor SECURE_CONTAINER_ERROR_BASE (secure_status_word reason)).
Proof. by destruct reason; vm_compute. Qed.

Lemma wp_Reject orig m reason w :
  rec_wf m -> bm_active_version m = im_version orig ->
  safe orig (w_hw w) -> app_is orig (w_hw w) ->
  wp (Reject m reason)
    (fun '(status, r) w' =>
       safe orig (w_hw w') /\ app_is orig (w_hw w') /\ status <> SECURE_CONTAINER_OK /\
       (status = SECURE_CONTAINER_SOURCE_REJECTED ->
          exists c, r = Some c /\ current_metadata (w_hw w') = Some c /\
            bm_state c = state_word UPDATE_IDLE /\ bm_active_version c = bm_active_version m))
    (safe orig) w.
Proof using Herase.
  intros Hwf Hv Hsafe Happ. unfold Reject. cbv zeta. set (m1 := bm_set_last_error _ _).
  assert (Hwf1 : rec_wf m1) by (wf_assign; apply reject_error_u32).
  assert (Hm1 : bm_state m1 = state_word UPDATE_IDLE /\
    bm_active_version m1 = bm_active_version m) by done.
  destruct Hm1 as [Hst Hav]. clearbody m1.
  assert (Hv1 : bm_active_version m1 = im_version orig) by congruence.
  apply (wp_clear_commit orig m1 UPDATE_IDLE); [done..|].
  intros st c w2 Hs2 Ha2 Hsr Hok.
  destruct (bool_decide_reflect (st <> METADATA_STORAGE_OK)) as [Hne|Heq]; apply wp_ret.
  - split_and!; done.
  - apply dec_stable in Heq. split_and!; [done..|]. intros _.
    exists c. destruct Hsr as [-> -> _ _ _ _ _ _ _]. split_and!; [done|by apply Hok|done..].
Qed.

Lemma wp_Transition orig m s w :
  rec_wf m -> app_state s = true -> bm_active_version m = im_version orig ->
  safe orig (w_hw w) -> app_is orig (w_hw w) ->
  wp (Transition m s)
    (fun '(status, m') w' =>
       frame nowhere in_boot_metadata (w_hw w) (w_hw w') /\
       safe orig (w_hw w') /\ app_is orig (w_hw w') /\ rec_wf m' /\ same_update m m' /\
       bm_state m' = state_word s /\
       (status = SECURE_CONTAINER_OK \/ status = SECURE_CONTAINER_METADATA_COMMIT_FAILED))
    (safe orig) w.
Proof using Herase.
  intros Hwf Hs Hv Hsafe Happ. unfold Transition. cbv zeta. set (m1 := bm_set_last_error 0 _).
  assert (Hwf1 : rec_wf m1) by (wf_assign; apply state_word_u32).
  assert (Hm1 : bm_state m1 = state_word s /\ same_update m m1) by (split; [done|by split]).
  destruct Hm1 as [Hst Hsu]. clearbody m1. apply wp_bind.
  pose proof (eq_trans (su_active _ _ Hsu) Hv) as Hv1.
  eapply wp_mono; [by apply (wp_commit_app orig m1 s)| |done].
  intros [st c] w2 (Hf2 & Hs2 & Ha2 & Hwf2 & Hsr & Hok). apply wp_ret.
  destruct Hsr as [E1 E2 E3 E4 _ _ _ _ _], Hsu as [F1 F2 F3].
  split_and!; [done..| |congruence|case_if; auto]. split; congruence.
Qed.

(** What IMAGE_READY stands for: the image in the reconstructed partition is
    the one the trusted key signed, newer than the running one and, if it was
    rebuilt from a delta, rebuilt from exactly the running image. *)
Record ImageReady (m c : BootMetadata_t) (info : FirmwareContainerInfo_t) (h : hw) : Prop := {
  ir_current : current_metadata h = Some c;
  ir_state : bm_state c = state_word UPDATE_IMAGE_READY;
  ir_update : same_update m c;
  ir_size : bm_expected_size c = fw_target_image_size (fi_header info);
  ir_authenticated : Authenticated h info;
  ir_reconstructed : Reconstructed h info;
  ir_version : bm_active_version m < fw_target_version (fi_header info);
  ir_target : bm_pending_version m = fw_target_version (fi_header info);
  ir_base : fw_image_type (fi_header info) = FW_IMAGE_DELTA ->
    fw_base_version (fi_header info) = bm_active_version m /\
    sha256 (app_slice h 0 (fx_base_image_size (fi_extension info))) =
      fw_base_image_sha256 (fi_header info)
}.

(** How the handler may end. *)
Definition process_post (orig : Image) (m : BootMetadata_t) (x : Result) (w : World HW) : Prop :=
  safe orig (w_hw w) /\ app_is orig (w_hw w) /\
  (fst x = SECURE_CONTAINER_OK ->
     exists info c, snd x = Some c /\ ImageReady m c info (w_hw w)) /\
  (fst x = SECURE_CONTAINER_SOURCE_REJECTED ->
     exists c, snd x = Some c /\ current_metadata (w_hw w) = Some c /\
       bm_state c = state_word UPDATE_IDLE /\ bm_active_version c = bm_active_version m).

(** Between two steps. *)
Record processing (orig : Image) (m : BootMetadata_t) (info : FirmwareContainerInfo_t)
    (working : BootMetadata_t) (h : hw) : Prop := {
  pr_safe : safe orig h;
  pr_app : app_is orig h;
  pr_authenticated : Authenticated h info;
  pr_wf : rec_wf working;
  pr_version : bm_active_version m = im_version orig;
  pr_update : same_update m working
}.

Lemma processing_frame N F orig m info working working' h h' :
  frame N F h h' -> off_app F ->
  (forall a, EXT_INCOMING_ADDRESS <= a < EXT_INCOMING_ADDRESS + EXT_INCOMING_SIZE -> ~ N a) ->
  safe orig h' -> rec_wf working' -> same_update m working' ->
  processing orig m info working h -> processing orig m info working' h'.
Proof.
  intros Hf HF HN Hs Hwf Hsu [_ Ha Hau _ Hv _]. split; try assumption.
  - by eapply app_is_frame.
  - by eapply Authenticated_frame.
Qed.

Lemma same_update_trans a b c : same_update a b -> same_update b c -> same_update a c.
Proof. intros [] []. split; congruence. Qed.

Lemma Reject_post orig m info working reason w :
  processing orig m info working (w_hw w) ->
  wp (Reject working reason) (process_post orig m) (safe orig) w.
Proof using Herase.
  intros [H1 H2 _ H4 Hv H5]. pose proof (eq_trans (su_active _ _ H5) Hv) as Hv'. eapply wp_mono; [by apply (wp_Reject orig)| |done].
  intros [st r] w' (Hs & Ha & Hne & Hrej). split; [exact Hs|]. split; [exact Ha|]. cbn [fst snd].
  split; [intros ->; by destruct Hne|]. intros Hst. destruct (Hrej Hst) as (c & -> & Hc & Hi & Hcv).
  exists c. split_and!; try done. rewrite Hcv. apply H5.
Qed.

Lemma wp_TransitionFrom orig m info working s next w :
  app_state next = true -> processing orig m info working (w_hw w) ->
  wp (TransitionFrom s next working)
    (fun x w' => match x with
       | inl r => process_post orig m r w'
       | inr working' => processing orig m info working' (w_hw w') /\
                         frame nowhere in_boot_metadata (w_hw w) (w_hw w')
       end) (safe orig) w.
Proof using Herase.
  intros Hn Hp. unfold TransitionFrom. case_if; [|apply wp_go; split; [exact Hp|apply frame_refl]].
  apply wp_bind. destruct Hp as [H1 H2 H3 H4 Hv H5].
  pose proof (eq_trans (su_active _ _ H5) Hv) as Hv'.
  eapply wp_mono; [by apply (wp_Transition orig)| |done].
  intros [st m'] w' (Hf & Hs & Ha & Hwf & Hsu & _ & Hst).
  destruct (bool_decide_reflect (st <> SECURE_CONTAINER_OK)) as [Hne|Heq].
  - apply wp_leave, wp_ret. split; [exact Hs|]. split; [exact Ha|]. cbn [fst snd].
    destruct Hst as [->| ->]; [by destruct Hne|]. split; discriminate.
  - apply wp_go. split; [|exact Hf]. eapply (processing_frame nowhere in_boot_metadata _ _ _ working);
      [exact Hf|apply boot_metadata_off_app|by intros a _ []|done|done| |by split].
    by eapply same_update_trans.
Qed.

(** The base check of a delta holds when PATCHING is reached. *)
Definition base_checked (info : FirmwareContainerInfo_t) (h : hw) : Prop :=
  fw_image_type (fi_header info) = FW_IMAGE_DELTA ->
  sha256 (app_slice h 0 (fx_base_image_size (fi_extension info))) =
    fw_base_image_sha256 (fi_header info).

Lemma base_checked_frame N F h h' info :
  frame N F h h' -> off_app F -> AcceptedHeader (fi_header info) (fi_extension info) ->
  base_checked info h -> base_checked info h'.
Proof.
  intros Hf HF Hacc H Ht. rewrite <- (H Ht). apply (f_equal sha256). eapply app_slice_frame; [exact Hf|done|lia|].
  destruct (ah_base _ _ Hacc) as [[Hft _]|(_ & _ & Hn & _)]; [|lia].
  rewrite Ht in Hft. discriminate.
Qed.

Lemma base_size_nonneg info :
  AcceptedHeader (fi_header info) (fi_extension info) -> 0 <= fx_base_image_size (fi_extension info).
Proof. intros Hacc. destruct (ah_base _ _ Hacc) as [(_ & _ & -> & _)|(_ & _ & Hn & _)]; lia. Qed.

Lemma wp_AdvanceToPatching orig m info working w :
  processing orig m info working (w_hw w) ->
  wp (AdvanceToPatching info working)
    (fun x w' => match x with
       | inl r => process_post orig m r w'
       | inr working' => processing orig m info working' (w_hw w') /\ base_checked info (w_hw w')
       end) (safe orig) w.
Proof using Herase.
  intros Hp. unfold AdvanceToPatching. apply wp_bind_exit.
  eapply wp_mono; [by apply wp_TransitionFrom| |done].
  intros [r|w1] s1 H1; [exact H1|]. destruct H1 as [H1 _].
  destruct (Z.eqb_spec (fw_image_type (fi_header info)) FW_IMAGE_DELTA) as [Ht|Ht].
  - apply wp_bind_exit. eapply wp_mono; [by apply wp_TransitionFrom| |done].
    intros [r|w2] s2 H2; [exact H2|]. destruct H2 as [H2 _]. apply wp_bind.
    pose proof (au_accepted _ _ (pr_authenticated _ _ _ _ _ H2)) as Hacc.
    eapply wp_read_call; [apply triple_ValidateBase; [by apply base_size_nonneg|]|apply H2|].
    { rewrite (au_info _ _ (pr_authenticated _ _ _ _ _ H2)).
      apply ReadFixed_hashes; [apply nor_slice_ok|by apply nor_slice_length]. }
    intros st s3 Hf3 Hst.
    assert (H3 : processing orig m info w2 (w_hw s3)).
    { eapply (processing_frame nowhere nowhere _ _ _ w2); [exact Hf3|apply nowhere_off_app|
        by intros a _ []| |apply H2|apply H2|exact H2].
      eapply safe_frame; [exact Hf3|apply nowhere_off_app|apply nowhere_off_backup|
        apply nowhere_off_metadata|apply H2]. }
    destruct (bool_decide_reflect (st <> SECURE_CONTAINER_OK)) as [Hne|Heq].
    + apply wp_leave. by apply Reject_post with info.
    + apply dec_stable in Heq. specialize (Hst Heq).
      eapply wp_mono; [by apply wp_TransitionFrom| |done].
      intros [r|w4] s4 H4; [exact H4|]. destruct H4 as [H4 Hf4]. split; [exact H4|].
      eapply base_checked_frame; [exact Hf4|apply boot_metadata_off_app|exact Hacc|exact Hst].
  - eapply wp_mono; [by apply wp_TransitionFrom| |done].
    intros [r|w2] s2 H2; [exact H2|]. destruct H2 as [H2 _]. split; [exact H2|by intros Ht'].
Qed.

Lemma policy_spec info m :
  fw_image_type (fi_header info) = FW_IMAGE_FULL \/ fw_image_type (fi_header info) = FW_IMAGE_DELTA ->
  ValidateMetadataPolicy info m = SECURE_CONTAINER_OK ->
  bm_pending_version m = fw_target_version (fi_header info) /\
  bm_active_version m < fw_target_version (fi_header info) /\
  (fw_image_type (fi_header info) = FW_IMAGE_DELTA ->
     fw_base_version (fi_header info) = bm_active_version m).
Proof.
  intros Ht. unfold ValidateMetadataPolicy. cbv zeta. intros H.
  repeat (case_if_in H; [try done|]); to_prop; split_and!; try lia; intros; try congruence;
    exfalso; unfold FW_IMAGE_FULL, FW_IMAGE_DELTA in *; congruence.
Qed.

Lemma policy_size info m :
  ValidateMetadataPolicy info m = SECURE_CONTAINER_OK -> bm_expected_size m = fi_total_size info.
Proof.
  unfold ValidateMetadataPolicy. cbv zeta. intros H. case_if_in H; [done|]. to_prop. done.
Qed.

(** The commit of IMAGE_READY. *)
Lemma wp_CommitImageReady orig m info working w :
  processing orig m info working (w_hw w) -> base_checked info (w_hw w) ->
  Reconstructed (w_hw w) info -> ValidateMetadataPolicy info m = SECURE_CONTAINER_OK ->
  wp (CommitImageReady info working) (process_post orig m) (safe orig) w.
Proof using Herase.
  intros [H1 H2 H3 H4 Hv H5] Hbase Hrec Hpol. unfold CommitImageReady. cbv zeta.
  pose proof (au_accepted _ _ H3) as Hacc. pose proof (ah_target_size _ _ Hacc) as Hsize.
  set (n := fw_target_image_size (fi_header info)) in *.
  assert (Hn : is_u32 n) by (unfold is_u32; map_lia).
  set (m1 := bm_set_last_error 0 _).
  assert (Hwf1 : rec_wf m1) by (wf_assign; exact Hn).
  assert (Hm1 : bm_state m1 = state_word UPDATE_IMAGE_READY /\ same_update working m1 /\
    bm_expected_size m1 = n) by (split_and!; [done|by split|done]).
  destruct Hm1 as (Hst & Hsu & He). clearbody m1. apply wp_bind.
  assert (Hv1 : bm_active_version m1 = im_version orig).
  { destruct Hsu as [-> _ _]. exact (eq_trans (su_active _ _ H5) Hv). }
  eapply wp_mono; [by apply (wp_commit_app orig m1 UPDATE_IMAGE_READY)| |done].
  intros [st c] w2 (Hf2 & Hs2 & Ha2 & Hwf2 & Hsr & Hok).
  destruct (bool_decide_reflect (st <> METADATA_STORAGE_OK)) as [Hne|Heq]; apply wp_ret.
  { split; [exact Hs2|]. split; [exact Ha2|]. split; discriminate. }
  apply dec_stable in Heq. split; [exact Hs2|]. split; [exact Ha2|]. split; [|discriminate].
  intros _. exists info, c. split; [reflexivity|].
  destruct (policy_spec info m) as (P1 & P2 & P3);
    [destruct (ah_base _ _ Hacc) as [[-> _]|[-> _]]; auto|exact Hpol|].
  destruct Hsr as [E1 E2 E3 E4 E5 E6 E7 E8 E9].
  split.
  - by apply Hok.
  - exact (eq_trans E1 Hst).
  - eapply same_update_trans; [exact H5|]. destruct Hsu. split; congruence.
  - exact (eq_trans E6 He).
  - eapply Authenticated_frame; [exact Hf2|by intros a _ []|exact H3].
  - eapply Reconstructed_frame; [exact Hf2|apply Hsize|by intros a _ []|exact Hrec].
  - exact P2.
  - exact P1.
  - intros Ht. split; [by apply P3|].
    exact (base_checked_frame _ _ _ _ _ Hf2 boot_metadata_off_app Hacc Hbase Ht).
Qed.

(** From the authenticated container on. *)
Lemma wp_Process_authenticated orig m info w :
  processing orig m info m (w_hw w) -> ValidateMetadataPolicy info m = SECURE_CONTAINER_OK ->
  wp (run_exit (
        working <-! AdvanceToPatching info m ;;
        if bm_state working <>? state_word UPDATE_PATCHING
        then leave (Reject working SECURE_CONTAINER_METADATA_MISMATCH) else
        status <- Reconstruct info ;;
        if bool_decide (status <> SECURE_CONTAINER_OK) then leave (Reject working status)
        else leave (CommitImageReady info working)))
    (process_post orig m) (safe orig) w.
Proof using Herase.
  intros Hp Hpol. apply wp_run_exit, wp_bind_exit.
  eapply wp_mono; [by apply wp_AdvanceToPatching| |done].
  intros [r|w1] s1 H1; [exact H1|]. destruct H1 as [H1 Hb1].
  case_if; [apply wp_leave; by apply Reject_post with info|].
  pose proof (pr_authenticated _ _ _ _ _ H1) as Hau.
  pose proof (au_accepted _ _ Hau) as Hacc.
  assert (Hoff1 : off_backup in_reconstructed)
    by (intros a Ha Hin; unfold in_partition in Hin; rewrite reconstructed_base, reconstructed_size in Hin; map_lia).
  assert (Hoff2 : forall a, EXT_INCOMING_ADDRESS <= a < EXT_INCOMING_ADDRESS + EXT_INCOMING_SIZE ->
    ~ in_reconstructed a)
    by (intros a Ha Hin; unfold in_partition in Hin; rewrite reconstructed_base, reconstructed_size in Hin; map_lia).
  apply wp_bind.
  eapply wp_safe_call; [by apply (triple_Reconstruct (w_hw s1))| |].
  { intros h Hf. eapply safe_frame; [exact Hf|apply nowhere_off_app|exact Hoff1|
      apply nowhere_off_metadata|apply H1]. }
  intros st s2 Hf2 Hst.
  assert (H2 : processing orig m info w1 (w_hw s2)).
  { eapply (processing_frame in_reconstructed nowhere _ _ _ w1); [exact Hf2|apply nowhere_off_app|
      exact Hoff2| |apply H1|apply H1|exact H1].
    eapply safe_frame; [exact Hf2|apply nowhere_off_app|exact Hoff1|apply nowhere_off_metadata|apply H1]. }
  destruct (bool_decide_reflect (st <> SECURE_CONTAINER_OK)) as [Hne|Heq].
  - apply wp_leave. eapply wp_mono; [by apply Reject_post with info| |done]. done.
  - apply wp_leave. eapply wp_mono; [apply wp_CommitImageReady; [exact H2| | |exact Hpol]| |done].
    + eapply base_checked_frame; [exact Hf2|apply nowhere_off_app|exact Hacc|exact Hb1].
    + apply Hst. by apply dec_stable in Heq.
    + done.
Qed.

Lemma triple_IsIncoming :
  triple nowhere nowhere (fun w => idle (w_hw w)) SecureContainer_IsIncoming
    (fun _ w => idle (w_hw w)).
Proof.
  unfold SecureContainer_IsIncoming. triple_step triple_Storage_Init; [done|]. intros ok.
  apply triple_if; intros _; [by apply triple_ret|].
  eapply triple_bind.
  - eapply triple_pre; [eapply triple_idle; [apply keeps_Storage_Read|by apply triple_Storage_Read]|].
    intros w Hw. by split.
  - intros [magic|]; apply triple_ret; by intros w [].
Qed.

Lemma wp_SecureContainer_Process orig m s w :
  idle (w_hw w) -> live orig m (w_hw w) -> bm_state m = state_word s -> app_state s = true ->
  wp (SecureContainer_Process (Some m)) (process_post orig m) (safe orig) w.
Proof using Herase.
  intros Hi Hl Hm Hs. pose proof (live_safe _ _ _ Hl) as Hsafe. destruct Hl as [Hcur Hacc].
  pose proof (current_metadata_wf _ _ Hcur) as Hwf. pose proof (proj1 Hacc) as Hver.
  assert (Happ : app_is orig (w_hw w)).
  { pose proof (accounted_state _ _ _ _ Hacc Hm) as Hp. by destruct s. }
  assert (Hrej : forall reason w', safe orig (w_hw w') -> app_is orig (w_hw w') ->
    wp (Reject m reason) (process_post orig m) (safe orig) w').
  { intros reason w' Hs' Ha'. eapply wp_mono; [by apply (wp_Reject orig)| |done].
    intros [st r] w2 (H1 & H2 & H3 & H4). split; [exact H1|]. split; [exact H2|]. cbn [fst snd].
    split; [intros ->; by destruct H3|exact H4]. }
  unfold SecureContainer_Process. apply wp_bind.
  eapply wp_idle_call; [apply triple_Storage_Init|done|done|].
  intros ok w1 Hf1 Hs1 Hi1. assert (Ha1 : app_is orig (w_hw w1))
    by (eapply app_is_frame; [exact Hf1|apply nowhere_off_app|exact Happ]).
  case_if; [apply wp_ret; split; [exact Hs1|]; split; [exact Ha1|]; split; discriminate|].
  apply wp_bind. eapply wp_idle_call; [apply triple_IsIncoming|done|done|].
  intros incoming w2 Hf2 Hs2 Hi2. assert (Ha2 : app_is orig (w_hw w2))
    by (eapply app_is_frame; [exact Hf2|apply nowhere_off_app|exact Ha1]).
  case_if; [by apply Hrej|].
  apply wp_bind. eapply wp_idle_call; [apply triple_LoadVerifiedInfo|done|done|].
  intros r w3 Hf3 Hs3 Hr. assert (Ha3 : app_is orig (w_hw w3))
    by (eapply app_is_frame; [exact Hf3|apply nowhere_off_app|exact Ha2]).
  destruct r as [st|info]; [by apply Hrej|]. destruct (Hr info eq_refl) as [Hau _]. cbv zeta.
  case_if; [by apply Hrej|].
  match goal with H : bool_decide _ = false |- _ => apply bool_decide_eq_false, dec_stable in H end.
  apply wp_Process_authenticated; [|done]. split; try done. 
Qed.

(** C4: Only authentic images become ready.  SecureContainer_Process never
    changes the application region and keeps the memory safe wherever power
    fails.  OK means that the incoming partition holds a container whose header
    is acceptable, whose key id matches, whose payload CRC is right and whose
    SHA-256 carries a signature the verifier accepts, that its version is
    greater than the active one, that a delta names the running image by version
    and hash, and that the reconstructed partition holds an image with the
    signed SHA-256, the signed CRC and a runnable vector table; SOURCE_REJECTED
    means that the current record is IDLE at the same active version. *)
Theorem SecureContainer_Process_authentic (orig : Image) (m : BootMetadata_t)
    (s : UpdateState_t) w :
  idle (w_hw w) -> live orig m (w_hw w) -> bm_state m = state_word s -> app_state s = true ->
  wp (SecureContainer_Process (Some m))
    (fun '(status, result) w' =>
       safe orig (w_hw w') /\ app_is orig (w_hw w') /\
       (status = SECURE_CONTAINER_OK ->
          exists info c, result = Some c /\ ImageReady m c info (w_hw w')) /\
       (status = SECURE_CONTAINER_SOURCE_REJECTED ->
          exists c, result = Some c /\ current_metadata (w_hw w') = Some c /\
            bm_state c = state_word UPDATE_IDLE /\ bm_active_version c = bm_active_version m))
    (safe orig) w.
Proof using Herase.
  intros. eapply wp_mono; [by eapply wp_SecureContainer_Process| |done].
  intros [status result] w' Hpost. exact Hpost.
Qed.

End secure_container.
