(* ===== verification/DeltaPatcher.v ===== *)
(** * DeltaPatcher: node-stm32f103/bootloader/src/delta_patcher.c and delta_patch.c

    The unsigned legacy delta artifact (D13P): its header, and the handler that
    checks the stored patch and the running image by CRC, rebuilds the target
    with the interpreter of janpatch_port.c and commits IMAGE_READY.  The
    repository compiles it when SECURE_CONTAINER_ALLOW_UNSIGNED_LEGACY is set. *)

From S2P Require Import Prelude Bytes MemoryMap Crc32 AbRecord BootMetadata FullImage.
From S2P Require Import FirmwareContainer.
From S2P Require Import Device Logic MetadataStorage TrialBoot SpiFlash.
From S2P Require Import ExternalFlashStorage AbStorage SectorRecords ChipIdle Recovery.
From S2P Require Import Chunks PatchFormat DeltaEngine Janpatch JanpatchTheorems.
From S2P Require Import SecureContainer.

(** ** The artifact header: shared/include/delta_patch.h *)

Definition DELTA_PATCH_MAGIC : Z := 0x50333144.
Definition DELTA_PATCH_FORMAT_VERSION : Z := 1.
Definition DELTA_PATCH_HEADER_SIZE : Z := 48.
Definition DELTA_PATCH_CRC_OFFSET : Z := 44.

Record DeltaPatchHeader_t := mkDeltaHeader {
  dh_base_version : Z;
  dh_target_version : Z;
  dh_base_image_size : Z;
  dh_patch_size : Z;
  dh_target_image_size : Z;
  dh_target_load_address : Z;
  dh_base_image_crc32 : Z;
  dh_target_image_crc32 : Z;
  dh_patch_crc32 : Z
}.

Inductive DeltaPatchHeaderStatus_t :=
  | DELTA_PATCH_HEADER_VALID
  | DELTA_PATCH_HEADER_INVALID_ARGUMENT
  | DELTA_PATCH_HEADER_INVALID_MAGIC
  | DELTA_PATCH_HEADER_INVALID_FORMAT
  | DELTA_PATCH_HEADER_INVALID_HEADER_SIZE
  | DELTA_PATCH_HEADER_INVALID_VERSION
  | DELTA_PATCH_HEADER_INVALID_BASE_SIZE
  | DELTA_PATCH_HEADER_INVALID_PATCH_SIZE
  | DELTA_PATCH_HEADER_INVALID_TARGET_SIZE
  | DELTA_PATCH_HEADER_INVALID_TARGET_ADDRESS
  | DELTA_PATCH_HEADER_INVALID_TOTAL_SIZE
  | DELTA_PATCH_HEADER_INVALID_CRC.

#[export] Instance DeltaPatchHeaderStatus_eq : EqDecision DeltaPatchHeaderStatus_t.
Proof. solve_decision. Defined.

Definition DeltaPatch_HeaderCrc32 (raw : option (list Z)) : Z :=
  match raw with
  | None => 0
  | Some raw => Crc32_Calculate (Some raw) DELTA_PATCH_CRC_OFFSET
  end.

(** The nine fields, as the parser assigns them. *)
Definition ReadFields (raw : list Z) : DeltaPatchHeader_t :=
  let u32_at i := GetU32Le (drop i raw) in
  {| dh_base_version := u32_at 8%nat;
     dh_target_version := u32_at 12%nat;
     dh_base_image_size := u32_at 16%nat;
     dh_patch_size := u32_at 20%nat;
     dh_target_image_size := u32_at 24%nat;
     dh_target_load_address := u32_at 28%nat;
     dh_base_image_crc32 := u32_at 32%nat;
     dh_target_image_crc32 := u32_at 36%nat;
     dh_patch_crc32 := u32_at 40%nat |}.

(** The tests that follow the assignments. *)
Definition CheckFields (header : DeltaPatchHeader_t) (artifact_size stored_crc calculated_crc : Z)
    : DeltaPatchHeaderStatus_t :=
  if (dh_base_version header =? 0) || (dh_target_version header =? 0)
     || (dh_target_version header <=? dh_base_version header)
  then DELTA_PATCH_HEADER_INVALID_VERSION
  else if (dh_base_image_size header <? 8) || (APPLICATION_MAX_SIZE <? dh_base_image_size header)
  then DELTA_PATCH_HEADER_INVALID_BASE_SIZE
  else if (dh_patch_size header =? 0)
     || (u32 (EXT_INCOMING_SIZE - DELTA_PATCH_HEADER_SIZE) <? dh_patch_size header)
  then DELTA_PATCH_HEADER_INVALID_PATCH_SIZE
  else if (dh_target_image_size header <? 8) || (APPLICATION_MAX_SIZE <? dh_target_image_size header)
     || (EXT_RECONSTRUCTED_SIZE <? dh_target_image_size header)
  then DELTA_PATCH_HEADER_INVALID_TARGET_SIZE
  else if dh_target_load_address header <>? APPLICATION_START_ADDRESS
  then DELTA_PATCH_HEADER_INVALID_TARGET_ADDRESS
  else if (artifact_size <>? 0)
     && (u32 (DELTA_PATCH_HEADER_SIZE + dh_patch_size header) <>? artifact_size)
  then DELTA_PATCH_HEADER_INVALID_TOTAL_SIZE
  else if stored_crc <>? calculated_crc
  then DELTA_PATCH_HEADER_INVALID_CRC
  else DELTA_PATCH_HEADER_VALID.

(** The status, and [*header] afterwards; [header] is [None] for a null pointer. *)
Definition DeltaPatch_ParseHeader (raw : option (list Z)) (artifact_size : Z)
    (header : option DeltaPatchHeader_t) : DeltaPatchHeaderStatus_t * option DeltaPatchHeader_t :=
  match raw, header with
  | Some raw, Some _ =>
      if GetU32Le raw <>? DELTA_PATCH_MAGIC
      then (DELTA_PATCH_HEADER_INVALID_MAGIC, header)
      else if GetU16Le (drop 4 raw) <>? DELTA_PATCH_FORMAT_VERSION
      then (DELTA_PATCH_HEADER_INVALID_FORMAT, header)
      else if GetU16Le (drop 6 raw) <>? DELTA_PATCH_HEADER_SIZE
      then (DELTA_PATCH_HEADER_INVALID_HEADER_SIZE, header)
      else
        let fields := ReadFields raw in
        (CheckFields fields artifact_size (GetU32Le (drop 44 raw))
           (DeltaPatch_HeaderCrc32 (Some raw)), Some fields)
  | _, _ => (DELTA_PATCH_HEADER_INVALID_ARGUMENT, header)
  end.

(** ** Data of the handler *)

Inductive DeltaPatcherStatus_t :=
  | DELTA_PATCHER_OK
  | DELTA_PATCHER_NOT_DELTA
  | DELTA_PATCHER_SOURCE_REJECTED
  | DELTA_PATCHER_EXTERNAL_FLASH_INIT_FAILED
  | DELTA_PATCHER_HEADER_READ_FAILED
  | DELTA_PATCHER_HEADER_INVALID
  | DELTA_PATCHER_METADATA_MISMATCH
  | DELTA_PATCHER_PATCH_READ_FAILED
  | DELTA_PATCHER_PATCH_CRC_MISMATCH
  | DELTA_PATCHER_BASE_VERSION_MISMATCH
  | DELTA_PATCHER_BASE_CRC_MISMATCH
  | DELTA_PATCHER_METADATA_COMMIT_FAILED
  | DELTA_PATCHER_TARGET_ERASE_FAILED
  | DELTA_PATCHER_APPLY_FAILED
  | DELTA_PATCHER_TARGET_READ_FAILED
  | DELTA_PATCHER_TARGET_CRC_MISMATCH
  | DELTA_PATCHER_TARGET_VECTOR_INVALID.

#[export] Instance DeltaPatcherStatus_eq : EqDecision DeltaPatcherStatus_t.
Proof. solve_decision. Defined.

(** The cast [(uint32_t)reason]. *)
Definition delta_status_word (s : DeltaPatcherStatus_t) : Z :=
  match s with
  | DELTA_PATCHER_OK => 0 | DELTA_PATCHER_NOT_DELTA => 1 | DELTA_PATCHER_SOURCE_REJECTED => 2
  | DELTA_PATCHER_EXTERNAL_FLASH_INIT_FAILED => 3 | DELTA_PATCHER_HEADER_READ_FAILED => 4
  | DELTA_PATCHER_HEADER_INVALID => 5 | DELTA_PATCHER_METADATA_MISMATCH => 6
  | DELTA_PATCHER_PATCH_READ_FAILED => 7 | DELTA_PATCHER_PATCH_CRC_MISMATCH => 8
  | DELTA_PATCHER_BASE_VERSION_MISMATCH => 9 | DELTA_PATCHER_BASE_CRC_MISMATCH => 10
  | DELTA_PATCHER_METADATA_COMMIT_FAILED => 11 | DELTA_PATCHER_TARGET_ERASE_FAILED => 12
  | DELTA_PATCHER_APPLY_FAILED => 13 | DELTA_PATCHER_TARGET_READ_FAILED => 14
  | DELTA_PATCHER_TARGET_CRC_MISMATCH => 15 | DELTA_PATCHER_TARGET_VECTOR_INVALID => 16
  end.

Definition DELTA_PATCHER_ERROR_BASE : Z := 0x000D0000.
Definition DELTA_CRC_BUFFER_SIZE : Z := 256.

(** Uninitialised locals. *)
Definition local_header : DeltaPatchHeader_t := mkDeltaHeader 0 0 0 0 0 0 0 0 0.
Definition local_patch_result : JanpatchPortResult_t := mkJanpatchResult 0 0 0 0 0 0 0 0 0.

Section delta_patcher.
Context {HW : Hw}.
Implicit Types w : World HW.

(** The status, and the metadata copied to [result_metadata] ([CopyResult]). *)
Abbreviation Result := (DeltaPatcherStatus_t * option BootMetadata_t)%type.

(** janpatch_port.c *)
Definition JanpatchPort_Apply (header : option DeltaPatchHeader_t)
    (result : option JanpatchPortResult_t) : M HW (JanpatchPortStatus_t * option JanpatchPortResult_t) :=
  match header with
  | None => ret (JANPATCH_PORT_INVALID_ARGUMENT, result)
  | Some header =>
      JanpatchPort_ApplyStream (Some
        {| js_base_image_size := dh_base_image_size header;
           js_patch_offset := DELTA_PATCH_HEADER_SIZE;
           js_patch_size := dh_patch_size header;
           js_target_image_size := dh_target_image_size header |}) result
  end.

Definition RejectDelta (metadata : BootMetadata_t) (reason : DeltaPatcherStatus_t) : M HW Result :=
  let metadata := metadata
    |> bm_set_state (state_word UPDATE_IDLE)
    |> bm_set_pending_version 0
    |> bm_set_active_update_id 0
    |> bm_set_received_size 0
    |> bm_set_expected_size 0
    |> bm_set_copy_offset 0
    |> bm_set_boot_attempts 0
    |> bm_set_last_error (Z.lor DELTA_PATCHER_ERROR_BASE (delta_status_word reason)) in
  _ignored <- DownloadCheckpointStorage_Clear ;;
  r <- CommitMetadata metadata ;;
  let '(status, metadata) := r in
  if bool_decide (status <> METADATA_STORAGE_OK)
  then ret (DELTA_PATCHER_METADATA_COMMIT_FAILED, None)
  else ret (DELTA_PATCHER_SOURCE_REJECTED, Some metadata).

Definition Transition (metadata : BootMetadata_t) (state : UpdateState_t)
    : M HW (DeltaPatcherStatus_t * BootMetadata_t) :=
  let metadata := metadata
    |> bm_set_state (state_word state)
    |> bm_set_copy_offset 0
    |> bm_set_boot_attempts 0
    |> bm_set_last_error 0 in
  r <- CommitMetadata metadata ;;
  let '(status, metadata) := r in
  ret (if bool_decide (status = METADATA_STORAGE_OK)
       then DELTA_PATCHER_OK else DELTA_PATCHER_METADATA_COMMIT_FAILED, metadata).

(** ** Checks *)

(** [inl status] for a failure, [inr header] for DELTA_PATCHER_OK. *)
Definition ReadHeader (artifact_size : Z) : M HW (DeltaPatcherStatus_t + DeltaPatchHeader_t) :=
  raw <- ExternalFlashStorage_Read EXTERNAL_FLASH_PARTITION_INCOMING 0 DELTA_PATCH_HEADER_SIZE ;;
  match raw with
  | None => ret (inl DELTA_PATCHER_HEADER_READ_FAILED)
  | Some raw =>
      match DeltaPatch_ParseHeader (Some raw) artifact_size (Some local_header) with
      | (DELTA_PATCH_HEADER_VALID, Some header) => ret (inr header)
      | _ => ret (inl DELTA_PATCHER_HEADER_INVALID)
      end
  end.

Definition CalculateExternalCrc (partition : ExternalFlashPartition_t) (offset length : Z)
    : M HW (DeltaPatcherStatus_t + Z) :=
  crc <- CrcChunks DELTA_CRC_BUFFER_SIZE (fun processed chunk =>
           ExternalFlashStorage_Read partition (u32 (offset + processed)) chunk) length ;;
  ret (match crc with
       | None => inl (if bool_decide (partition = EXTERNAL_FLASH_PARTITION_INCOMING)
                      then DELTA_PATCHER_PATCH_READ_FAILED else DELTA_PATCHER_TARGET_READ_FAILED)
       | Some crc => inr crc
       end).

(** Memory-mapped reads cannot fail. *)
Definition CalculateInternalCrc (length : Z) : M HW Z :=
  crc <- CrcChunks DELTA_CRC_BUFFER_SIZE (fun offset chunk =>
           bytes <- flash_read (u32 (APPLICATION_START_ADDRESS + offset)) chunk ;;
           ret (Some bytes)) length ;;
  ret (default 0 crc).

(** The states in which the metadata carries the reconstructed length. *)
Definition carries_target_size (state : Z) : bool :=
  existsb (fun s => state =? state_word s)
    [UPDATE_IMAGE_READY; UPDATE_BACKING_UP; UPDATE_INSTALLING; UPDATE_VERIFYING_INSTALL;
     UPDATE_TRIAL_BOOT; UPDATE_CONFIRMED; UPDATE_ROLLBACK].

Definition ValidateHeaderAgainstMetadata (header : option DeltaPatchHeader_t)
    (metadata : option BootMetadata_t) : DeltaPatcherStatus_t :=
  match header, metadata with
  | Some header, Some metadata =>
      if (bm_active_update_id metadata =? 0)
         || (bm_pending_version metadata <>? dh_target_version header)
         || (bm_active_version metadata <>? dh_base_version header)
      then DELTA_PATCHER_METADATA_MISMATCH else
      let expected_size :=
        if carries_target_size (bm_state metadata) then dh_target_image_size header
        else u32 (DELTA_PATCH_HEADER_SIZE + dh_patch_size header) in
      if (bm_received_size metadata <>? bm_expected_size metadata)
         || (bm_expected_size metadata <>? expected_size)
      then DELTA_PATCHER_METADATA_MISMATCH
      else DELTA_PATCHER_OK
  | _, _ => DELTA_PATCHER_METADATA_MISMATCH
  end.

Definition ValidatePatchCrc (header : DeltaPatchHeader_t) : M HW DeltaPatcherStatus_t :=
  r <- CalculateExternalCrc EXTERNAL_FLASH_PARTITION_INCOMING DELTA_PATCH_HEADER_SIZE
         (dh_patch_size header) ;;
  ret (match r with
       | inl status => status
       | inr crc => if crc =? dh_patch_crc32 header then DELTA_PATCHER_OK
                    else DELTA_PATCHER_PATCH_CRC_MISMATCH
       end).

Definition ValidateBase (header : DeltaPatchHeader_t) (metadata : BootMetadata_t)
    : M HW DeltaPatcherStatus_t :=
  if (bm_active_version metadata <>? dh_base_version header) || (dh_base_version header =? 0)
  then ret DELTA_PATCHER_BASE_VERSION_MISMATCH else
  crc <- CalculateInternalCrc (dh_base_image_size header) ;;
  ret (if crc <>? dh_base_image_crc32 header then DELTA_PATCHER_BASE_CRC_MISMATCH
       else DELTA_PATCHER_OK).

(** ** Reconstruction *)

Definition EraseReconstructed (target_size : Z) : M HW DeltaPatcherStatus_t :=
  let erase_size := Z.land (u32 (target_size + EXT_FLASH_SECTOR_SIZE - 1))
                           (u32 (Z.lnot (EXT_FLASH_SECTOR_SIZE - 1))) in
  if (erase_size =? 0) || (EXT_RECONSTRUCTED_SIZE <? erase_size)
  then ret DELTA_PATCHER_TARGET_ERASE_FAILED else
  ok <- ExternalFlashStorage_EraseRange EXTERNAL_FLASH_PARTITION_RECONSTRUCTED 0 erase_size ;;
  ret (if (ok : bool) then DELTA_PATCHER_OK else DELTA_PATCHER_TARGET_ERASE_FAILED).

Definition VerifyTarget (header : DeltaPatchHeader_t) : M HW DeltaPatcherStatus_t :=
  r <- CalculateExternalCrc EXTERNAL_FLASH_PARTITION_RECONSTRUCTED 0 (dh_target_image_size header) ;;
  match r with
  | inl status => ret status
  | inr crc =>
      if crc <>? dh_target_image_crc32 header then ret DELTA_PATCHER_TARGET_CRC_MISMATCH else
      vector <- ExternalFlashStorage_Read EXTERNAL_FLASH_PARTITION_RECONSTRUCTED 0 8 ;;
      match vector with
      | None => ret DELTA_PATCHER_TARGET_READ_FAILED
      | Some vector =>
          ret (if bool_decide (FullImage_ValidateVector (dh_target_image_size header)
                    (GetU32Le vector) (GetU32Le (drop 4 vector)) <> FULL_IMAGE_VALID)
               then DELTA_PATCHER_TARGET_VECTOR_INVALID else DELTA_PATCHER_OK)
      end
  end.

Definition DeltaPatcher_IsDeltaArtifact : M HW bool :=
  ok <- ExternalFlashStorage_Init ;;
  if negb ok then ret false else
  magic <- ExternalFlashStorage_Read EXTERNAL_FLASH_PARTITION_INCOMING 0 4 ;;
  match magic with
  | None => ret false
  | Some magic => ret (GetU32Le magic =? DELTA_PATCH_MAGIC)
  end.

(** ** The handler *)

(** One transition of the handler, taken only in state [s]. *)
Definition TransitionFrom (s next : UpdateState_t) (working : BootMetadata_t)
    : M HW (Result + BootMetadata_t) :=
  if bm_state working =? state_word s then
    r <- Transition working next ;;
    let '(status, working) := r in
    if bool_decide (status <> DELTA_PATCHER_OK) then leave (ret (status, None))
    else go working
  else go working.

(** The checks of the patch and of the base, with the transitions around them. *)
Definition AdvanceToPatching (header : DeltaPatchHeader_t) (working : BootMetadata_t)
    : M HW (Result + BootMetadata_t) :=
  working <-! TransitionFrom UPDATE_ARTIFACT_READY UPDATE_VERIFYING_CONTAINER working ;;
  status <- ValidatePatchCrc header ;;
  if bool_decide (status <> DELTA_PATCHER_OK) then leave (RejectDelta working status) else
  working <-! TransitionFrom UPDATE_VERIFYING_CONTAINER UPDATE_VERIFYING_BASE working ;;
  status <- ValidateBase header working ;;
  if bool_decide (status <> DELTA_PATCHER_OK) then leave (RejectDelta working status) else
  TransitionFrom UPDATE_VERIFYING_BASE UPDATE_PATCHING working.

(** Erase, rebuild and verify the reconstructed partition; PATCHING restarts
    from scratch. *)
Definition Rebuild (header : DeltaPatchHeader_t) : M HW DeltaPatcherStatus_t :=
  status <- EraseReconstructed (dh_target_image_size header) ;;
  if bool_decide (status <> DELTA_PATCHER_OK) then ret status else
  r <- JanpatchPort_Apply (Some header) (Some local_patch_result) ;;
  let '(status, patch_result) := r in
  if bool_decide (status <> JANPATCH_PORT_OK) then ret DELTA_PATCHER_APPLY_FAILED else
  let patch_result := default local_patch_result patch_result in
  if (jr_patch_position patch_result <>? dh_patch_size header)
     || (jr_target_position patch_result <>? dh_target_image_size header)
  then ret DELTA_PATCHER_APPLY_FAILED else
  VerifyTarget header.

(** The commit of IMAGE_READY. *)
Definition CommitImageReady (header : DeltaPatchHeader_t) (working : BootMetadata_t) : M HW Result :=
  let working := working
    |> bm_set_state (state_word UPDATE_IMAGE_READY)
    |> bm_set_received_size (dh_target_image_size header)
    |> bm_set_expected_size (dh_target_image_size header)
    |> bm_set_copy_offset 0
    |> bm_set_boot_attempts 0
    |> bm_set_last_error 0 in
  r <- CommitMetadata working ;;
  let '(status, working) := r in
  if bool_decide (status <> METADATA_STORAGE_OK)
  then ret (DELTA_PATCHER_METADATA_COMMIT_FAILED, None)
  else ret (DELTA_PATCHER_OK, Some working).

Definition DeltaPatcher_Process (metadata : option BootMetadata_t) : M HW Result :=
  match metadata with
  | None => ret (DELTA_PATCHER_METADATA_MISMATCH, None)
  | Some working =>
      ok <- ExternalFlashStorage_Init ;;
      if negb ok then ret (DELTA_PATCHER_EXTERNAL_FLASH_INIT_FAILED, None) else
      is_delta <- DeltaPatcher_IsDeltaArtifact ;;
      if negb is_delta then ret (DELTA_PATCHER_NOT_DELTA, None) else
      r <- ReadHeader (if bm_state working <=? state_word UPDATE_PATCHING
                       then bm_expected_size working else 0) ;;
      match r with
      | inl status => RejectDelta working status
      | inr header =>
          let status := ValidateHeaderAgainstMetadata (Some header) (Some working) in
          if bool_decide (status <> DELTA_PATCHER_OK) then RejectDelta working status else
          run_exit (
            working <-! AdvanceToPatching header working ;;
            if bm_state working <>? state_word UPDATE_PATCHING
            then leave (ret (DELTA_PATCHER_OK, Some working)) else
            status <- Rebuild header ;;
            if bool_decide (status <> DELTA_PATCHER_OK) then leave (RejectDelta working status)
            else leave (CommitImageReady header working))
      end
  end.

End delta_patcher.

(** ** The header tests *)

(** What every accepted header satisfies. *)
Record AcceptedDelta (header : DeltaPatchHeader_t) : Prop := {
  ad_version : 0 < dh_base_version header < dh_target_version header;
  ad_base_size : 8 <= dh_base_image_size header <= APPLICATION_MAX_SIZE;
  ad_patch_size :
    0 < dh_patch_size header /\ DELTA_PATCH_HEADER_SIZE + dh_patch_size header <= EXT_INCOMING_SIZE;
  ad_target_size : 8 <= dh_target_image_size header <= APPLICATION_MAX_SIZE;
  ad_address : dh_target_load_address header = APPLICATION_START_ADDRESS
}.

(** A test of the parser that does not fire. *)
Ltac passed := match goal with
  | |- (if ?b then _ else _) = _ => assert (b = false) as ->;
      [repeat (apply orb_false_iff; split);
       first [apply Z.eqb_neq|apply Z.leb_gt|apply Z.ltb_ge|apply negb_false_iff, Z.eqb_eq]; map_lia|]
  end.

Lemma CheckFields_spec header size stored crc :
  0 <= dh_base_version header -> 0 <= dh_patch_size header ->
  CheckFields header size stored crc = DELTA_PATCH_HEADER_VALID <->
  AcceptedDelta header /\
  (size = 0 \/ size = DELTA_PATCH_HEADER_SIZE + dh_patch_size header) /\ stored = crc.
Proof.
  intros Hb Hp. unfold CheckFields, DELTA_PATCH_HEADER_SIZE.
  rewrite (u32_small (EXT_INCOMING_SIZE - 48)) by (unfold is_u32; map_lia). split.
  - intros H. repeat (case_if_in H; [discriminate|]). to_prop.
    match goal with H : (_ && _)%bool = false |- _ =>
      rewrite u32_small in H by (unfold is_u32; map_lia); apply andb_false_iff in H end.
    split_and!; [split; unfold DELTA_PATCH_HEADER_SIZE; map_lia| |done].
    match goal with H : _ \/ _ |- _ => destruct H; to_prop; first [by left|by right] end.
  - intros ([H1 H2 [H3 H3'] H4 H5] & Hs & <-). unfold DELTA_PATCH_HEADER_SIZE in *.
    rewrite u32_small by (unfold is_u32; map_lia). do 5 passed.
    assert ((size <>? 0) && (48 + dh_patch_size header <>? size) = false) as ->.
    { destruct Hs as [-> | ->]; [done|]. by rewrite Z.eqb_refl, andb_false_r. }
    by rewrite Z.eqb_refl.
Qed.

(** The parser accepts exactly the headers with the right magic, format, header
    size, fields, total size and CRC, and then reports the nine fields. *)
Theorem DeltaPatch_ParseHeader_spec raw size local header :
  bytes_ok raw -> len raw = DELTA_PATCH_HEADER_SIZE ->
  DeltaPatch_ParseHeader (Some raw) size (Some local) = (DELTA_PATCH_HEADER_VALID, Some header) <->
  header = ReadFields raw /\
  (GetU32Le raw = DELTA_PATCH_MAGIC /\ GetU16Le (drop 4 raw) = DELTA_PATCH_FORMAT_VERSION /\
   GetU16Le (drop 6 raw) = DELTA_PATCH_HEADER_SIZE) /\
  AcceptedDelta header /\
  (size = 0 \/ size = DELTA_PATCH_HEADER_SIZE + dh_patch_size header) /\
  GetU32Le (drop 44 raw) = crc_of (take 44 raw).
Proof.
  intros Hok Hlen. assert (Hr : forall i, is_u32 (GetU32Le (drop i raw)))
    by (intros i; apply GetU32Le_range, Forall_drop, Hok).
  assert (Hcrc : DeltaPatch_HeaderCrc32 (Some raw) = crc_of (take 44 raw)).
  {
    rewrite <- (take_drop 44 raw) at 1. apply Crc32_Calculate_prefix.
    rewrite length_take. unfold DELTA_PATCH_HEADER_SIZE in Hlen. unfold DELTA_PATCH_CRC_OFFSET. lia. }
  pose proof (CheckFields_spec (ReadFields raw) size (GetU32Le (drop 44 raw)) (crc_of (take 44 raw))
    (proj1 (Hr 8%nat)) (proj1 (Hr 20%nat))) as Hcheck.
  unfold DeltaPatch_ParseHeader. cbv zeta. rewrite Hcrc.
  destruct (Z.eqb_spec (GetU32Le raw) DELTA_PATCH_MAGIC) as [E1|E1]; cbn [negb];
    [|split; [by intros [=]|by intros (_ & (? & _) & _)]].
  destruct (Z.eqb_spec (GetU16Le (drop 4 raw)) DELTA_PATCH_FORMAT_VERSION) as [E2|E2]; cbn [negb];
    [|split; [by intros [=]|by intros (_ & (_ & ? & _) & _)]].
  destruct (Z.eqb_spec (GetU16Le (drop 6 raw)) DELTA_PATCH_HEADER_SIZE) as [E3|E3]; cbn [negb];
    [|split; [by intros [=]|by intros (_ & (_ & _ & ?) & _)]].
  split.
  - intros [= H <-]. apply Hcheck in H as (? & ? & ?). by split_and!.
  - intros (-> & _ & H). f_equal. by apply Hcheck.
Qed.

(** ** What the checks establish *)

#[local] Abbreviation in_reconstructed := (in_partition EXTERNAL_FLASH_PARTITION_RECONSTRUCTED).

Section checks.
Context {HW : Hw}.
Implicit Types w : World HW.

Definition stream_of (header : DeltaPatchHeader_t) : JanpatchPortStream_t :=
  {| js_base_image_size := dh_base_image_size header;
     js_patch_offset := DELTA_PATCH_HEADER_SIZE;
     js_patch_size := dh_patch_size header;
     js_target_image_size := dh_target_image_size header |}.

Definition delta_header (h : hw) : list Z := nor_slice h EXT_INCOMING_ADDRESS DELTA_PATCH_HEADER_SIZE.
Definition delta_target (h : hw) (header : DeltaPatchHeader_t) : list Z :=
  nor_slice h EXT_RECONSTRUCTED_ADDRESS (dh_target_image_size header).

(** The incoming partition holds an intact patch for the running image, and the
    update of [m] is the one it names. *)
Record PatchChecked (m : BootMetadata_t) (header : DeltaPatchHeader_t) (h : hw) : Prop := {
  pk_header : header = ReadFields (delta_header h);
  pk_accepted : AcceptedDelta header;
  pk_versions : bm_active_version m = dh_base_version header /\
                bm_pending_version m = dh_target_version header;
  pk_patch : crc_of (patch_of (stream_of header) h) = dh_patch_crc32 header;
  pk_base : crc_of (app_slice h 0 (dh_base_image_size header)) = dh_base_image_crc32 header
}.

(** The reconstructed partition holds the target the reference semantics gives
    for that patch and base, with the CRC of the header and a runnable vector
    table. *)
Record Rebuilt (header : DeltaPatchHeader_t) (h : hw) : Prop := {
  rb_target : exists s, stream_result (stream_of header) h = Some (s, delta_target h header);
  rb_crc : crc_of (delta_target h header) = dh_target_image_crc32 header;
  rb_vector :
    FullImage_ValidateVector (dh_target_image_size header)
      (GetU32Le (nor_slice h EXT_RECONSTRUCTED_ADDRESS 8))
      (GetU32Le (drop 4 (nor_slice h EXT_RECONSTRUCTED_ADDRESS 8))) = FULL_IMAGE_VALID
}.

(** Memories that agree on the artifact and on the application region. *)
Definition other_nor (a : Z) : Prop := ~ in_partition EXTERNAL_FLASH_PARTITION_INCOMING a.
Definition other_flash (a : Z) : Prop := ~ in_application a.
Definition same_sources (h0 h : hw) : Prop := frame other_nor other_flash h0 h.

Lemma same_sources_frame N F h h' :
  frame N F h h' -> (forall a, in_partition EXTERNAL_FLASH_PARTITION_INCOMING a -> ~ N a) ->
  off_app F -> same_sources h h'.
Proof.
  intros Hf HN HF. eapply frame_mono; [| |exact Hf]; intros a Ha Hin; [by eapply HN|by eapply HF].
Qed.

Lemma same_sources_still h h' : frame nowhere nowhere h h' -> same_sources h h'.
Proof. intros H. eapply same_sources_frame; [exact H|by intros a _ []|apply nowhere_off_app]. Qed.

Lemma incoming_same h0 h off n :
  same_sources h0 h -> 0 <= off -> off + n <= EXT_INCOMING_SIZE ->
  nor_slice h (EXT_INCOMING_ADDRESS + off) n = nor_slice h0 (EXT_INCOMING_ADDRESS + off) n.
Proof.
  intros Hs Ho Hn. eapply nor_slice_frame; [exact Hs|]. intros i Hi Hout. apply Hout.
  unfold in_partition. rewrite incoming_base, incoming_size. lia.
Qed.

Lemma other_flash_off_app : off_app other_flash.
Proof. intros a Ha Ho. by apply Ho. Qed.

Lemma patch_same h0 h header :
  same_sources h0 h -> AcceptedDelta header ->
  patch_of (stream_of header) h = patch_of (stream_of header) h0.
Proof.
  intros Hs [_ _ [_ Hp] _ _]. unfold patch_of. rewrite incoming_base.
  by apply incoming_same.
Qed.

Lemma app_slice_same h0 h n :
  same_sources h0 h -> n <= APPLICATION_MAX_SIZE -> app_slice h 0 n = app_slice h0 0 n.
Proof. intros Hs Hn. eapply app_slice_frame; [exact Hs|apply other_flash_off_app|lia|lia]. Qed.

Lemma stream_result_same h0 h header :
  same_sources h0 h -> AcceptedDelta header ->
  stream_result (stream_of header) h = stream_result (stream_of header) h0.
Proof.
  intros Hs Ha. unfold stream_result. rewrite (patch_same h0 h) by done.
  replace (base_of h) with (base_of h0); [done|]. symmetry.
  pose proof (app_slice_same h0 h APPLICATION_MAX_SIZE Hs ltac:(done)) as H.
  unfold app_slice in H. rewrite Z.add_0_r in H. exact H.
Qed.

Lemma PatchChecked_same m header h0 h :
  same_sources h0 h -> PatchChecked m header h0 -> PatchChecked m header h.
Proof.
  intros Hs [H1 H2 H3 H4 H5]. split; [|done|done| |].
  - rewrite H1 at 1. f_equal. symmetry. unfold delta_header. rewrite <- (Z.add_0_r EXT_INCOMING_ADDRESS).
    by apply incoming_same.
  - by rewrite (patch_same h0 h).
  - rewrite (app_slice_same h0 h); [exact H5|exact Hs|apply H2].
Qed.

Lemma Rebuilt_frame F header h h' :
  frame nowhere F h h' -> off_app F -> AcceptedDelta header -> Rebuilt header h -> Rebuilt header h'.
Proof.
  intros Hf HF Ha [[s H1] H2 H3].
  assert (Hn : forall n, nor_slice h' EXT_RECONSTRUCTED_ADDRESS n = nor_slice h EXT_RECONSTRUCTED_ADDRESS n)
    by (intros n; eapply nor_slice_frame; [exact Hf|by intros i _ []]).
  split; unfold delta_target; rewrite ?Hn; [|done..]. exists s.
  rewrite (stream_result_same h h'); [exact H1| |done].
  eapply same_sources_frame; [exact Hf|by intros a _ []|done].
Qed.

(** ** The reads *)

Lemma still_CalculateExternalCrc h0 p off n :
  0 <= off -> is_u32 n -> is_u32 (off + n) ->
  triple nowhere nowhere (still h0) (CalculateExternalCrc p off n)
    (fun r w => still h0 w /\ match r with
       | inl status => status <> DELTA_PATCHER_OK
       | inr crc => crc = crc_of (nor_slice h0 (part_base p + off) n)
       end).
Proof.
  intros Ho Hn Hon. unfold is_u32 in *. unfold CalculateExternalCrc. eapply triple_bind.
  { apply (still_CrcChunks h0 DELTA_CRC_BUFFER_SIZE _ n (nor_slice h0 (part_base p + off) n));
      [done|done|apply nor_slice_length; lia|]. intros o m H1 H2 H3.
    rewrite u32_small by (unfold is_u32; lia).
    eapply triple_post; [apply still_Storage_Read; lia|]. cbv beta. intros r w [Hs Hb].
    split; [done|]. intros bs Hr. destruct (Hb bs Hr) as [_ ->].
    rewrite slice_nor_slice by lia. f_equal. lia. }
  intros [crc|]; apply triple_ret; intros w [Hs Hc]; (split; [done|]); [by apply Hc|].
  by case_bool_decide.
Qed.

Lemma triple_ReadHeader size :
  triple nowhere nowhere (fun _ => True) (ReadHeader size)
    (fun r w => forall header, r = inr header ->
       header = ReadFields (delta_header (w_hw w)) /\ AcceptedDelta header /\
       (size = 0 \/ size = DELTA_PATCH_HEADER_SIZE + dh_patch_size header)).
Proof.
  unfold ReadHeader. triple_step triple_Storage_Read; [done..|].
  intros [raw|]; [|by apply triple_ret].
  destruct (DeltaPatch_ParseHeader _ _ _) as [st [header|]] eqn:E; [|destruct st; by apply triple_ret].
  destruct st; apply triple_ret; intros w Hb ? [= <-].
  destruct (Hb raw eq_refl) as [_ ->]. rewrite incoming_base, Z.add_0_r in E.
  apply DeltaPatch_ParseHeader_spec in E as (H1 & _ & H2 & H3 & _);
    [by split_and!|apply nor_slice_ok|by apply nor_slice_length].
Qed.

Lemma triple_ValidatePatchCrc header :
  AcceptedDelta header ->
  triple nowhere nowhere (fun _ => True) (ValidatePatchCrc header)
    (fun status w => status = DELTA_PATCHER_OK ->
       crc_of (patch_of (stream_of header) (w_hw w)) = dh_patch_crc32 header).
Proof.
  intros Ha. pose proof Ha as [_ _ [Hp Hp'] _ _].
  apply (triple_fix _ _ (fun status h => status = DELTA_PATCHER_OK ->
    crc_of (patch_of (stream_of header) h) = dh_patch_crc32 header)).
  { intros st h h' Hf H Hst. rewrite (patch_same h h'); [by apply H|by apply same_sources_still|done]. }
  intros h0. unfold ValidatePatchCrc.
  triple_step still_CalculateExternalCrc; [done|unfold DELTA_PATCH_HEADER_SIZE, is_u32 in *; map_lia..|
    by intros w []|].
  intros [st|crc]; apply triple_ret; intros w [_ Hc] Hst; [done|].
  destruct (Z.eqb_spec crc (dh_patch_crc32 header)) as [He|]; [|done].
  exact (eq_trans (eq_sym Hc) He).
Qed.

Lemma triple_DeltaBase header m :
  AcceptedDelta header ->
  triple nowhere nowhere (fun _ => True) (ValidateBase header m)
    (fun status w => status = DELTA_PATCHER_OK ->
       crc_of (app_slice (w_hw w) 0 (dh_base_image_size header)) = dh_base_image_crc32 header).
Proof.
  intros [_ Hb _ _ _]. unfold ValidateBase. apply triple_if; intros _; [by apply triple_ret|].
  unfold CalculateInternalCrc.
  eapply (triple_bind _ _ _ _ (fun crc w => crc = crc_of (app_slice (w_hw w) 0 (dh_base_image_size header)))).
  - triple_step (triple_CrcChunks_flash DELTA_CRC_BUFFER_SIZE (APPLICATION_START_ADDRESS + 0)
      (fun off => u32 (APPLICATION_START_ADDRESS + off)));
      [done|unfold is_u32; map_lia|intros off Ho; rewrite u32_small by (unfold is_u32; map_lia); lia|
       done|].
    intros r. apply triple_ret. by intros w ->.
  - intros crc. apply triple_ret. intros w -> Hst.
    by destruct (Z.eqb_spec (crc_of (app_slice (w_hw w) 0 (dh_base_image_size header)))
      (dh_base_image_crc32 header)).
Qed.

Lemma triple_VerifyTarget header t s :
  AcceptedDelta header ->
  triple nowhere nowhere
    (fun w => delta_target (w_hw w) header = t /\
              stream_result (stream_of header) (w_hw w) = Some (s, t))
    (VerifyTarget header)
    (fun status w => status = DELTA_PATCHER_OK -> Rebuilt header (w_hw w)).
Proof.
  intros Ha. pose proof (ad_target_size _ Ha) as Hn.
  apply (triple_fix _ _ (fun status h => status = DELTA_PATCHER_OK -> Rebuilt header h)).
  { intros st h h' Hf H Hst. eapply Rebuilt_frame; [exact Hf|apply nowhere_off_app|done|by apply H]. }
  intros h0. unfold VerifyTarget.
  apply (triple_pure _ _ _ (delta_target h0 header = t /\
    stream_result (stream_of header) h0 = Some (s, t))).
  { intros w [Hs [H1 H2]]. split.
    - rewrite <- H1. symmetry. by apply still_nor_slice.
    - by rewrite (stream_result_same h0 (w_hw w)) in H2 by (done || by apply same_sources_still). }
  intros [Ht Hres]. eapply triple_pre; [|by intros w [Hs _]].
  triple_step still_CalculateExternalCrc; [done|unfold is_u32; map_lia..|done|].
  intros [st|crc]; [apply triple_ret; by intros w [_ H]|].
  apply (triple_pure _ _ _ (crc = crc_of (delta_target h0 header))).
  { intros w [_ ->]. by rewrite reconstructed_base, Z.add_0_r. }
  intros ->. apply triple_if; intros Hcrc; [by apply triple_ret|]. to_prop.
  triple_step still_Storage_Read; [done..|by intros w []|]. intros [vector|]; [|by apply triple_ret].
  apply triple_ret. intros w [_ Hb] Hst. destruct (Hb vector eq_refl) as [_ ->].
  destruct (bool_decide_reflect (FullImage_ValidateVector (dh_target_image_size header)
    (GetU32Le (nor_slice h0 (part_base EXTERNAL_FLASH_PARTITION_RECONSTRUCTED + 0) 8))
    (GetU32Le (drop 4 (nor_slice h0 (part_base EXTERNAL_FLASH_PARTITION_RECONSTRUCTED + 0) 8)))
      <> FULL_IMAGE_VALID)) as [|Hv]; [done|].
  apply dec_stable in Hv. split; [exists s; by rewrite Ht|exact Hcrc|exact Hv].
Qed.

(** ** The reconstruction *)

Lemma reconstructed_off_incoming a :
  in_partition EXTERNAL_FLASH_PARTITION_INCOMING a -> ~ in_reconstructed a.
Proof.
  unfold in_partition. rewrite incoming_base, incoming_size, reconstructed_base, reconstructed_size.
  map_lia.
Qed.

Lemma triple_DeltaErase n :
  triple in_reconstructed nowhere (fun _ => True) (EraseReconstructed n) (fun _ _ => True).
Proof.
  unfold EraseReconstructed. cbv zeta. apply triple_if; intros _; [by apply triple_ret|].
  triple_wide triple_Storage_EraseRange; [done|apply Z.land_nonneg; left; apply u32_range|
    by intros a []|done|done|].
  intros ok. by apply triple_ret.
Qed.

Lemma stream_of_ok header : AcceptedDelta header -> stream_ok (stream_of header).
Proof.
  intros [_ Hb Hp Ht _]. unfold DELTA_PATCH_HEADER_SIZE in *.
  split; cbn; unfold is_u32, DELTA_PATCH_HEADER_SIZE; map_lia.
Qed.

Lemma triple_Apply header result :
  AcceptedDelta header ->
  triple in_reconstructed nowhere (fun _ => True) (JanpatchPort_Apply (Some header) result)
    (fun r w => r.1 = JANPATCH_PORT_OK ->
       exists s, stream_result (stream_of header) (w_hw w) = Some (s, delta_target (w_hw w) header)).
Proof.
  intros Ha w _. eapply wp_mono;
    [apply (triple_ApplyStream (stream_of header) result (w_hw w)); [by apply stream_of_ok|done]| |done].
  intros [st r] w' [Hf Hpost]. split; [exact Hf|]. intros Hst.
  destruct Hpost as [[_ (s & t & H1 & _ & H2 & _)]|[[Hne _] _]]; [|done]. exists s.
  rewrite (stream_result_same (w_hw w) (w_hw w')), H1; [by rewrite <- H2| |done].
  eapply same_sources_frame; [exact Hf|apply reconstructed_off_incoming|apply nowhere_off_app].
Qed.

(** A reconstruction that reports success left the target of the reference. *)
Lemma triple_Rebuild header :
  AcceptedDelta header ->
  triple in_reconstructed nowhere (fun _ => True) (Rebuild header)
    (fun status w => status = DELTA_PATCHER_OK -> Rebuilt header (w_hw w)).
Proof.
  intros Ha. unfold Rebuild. triple_step triple_DeltaErase; [done|]. intros st.
  apply triple_if; intros E; [apply triple_ret; intros w _ ->; by apply bool_decide_eq_true in E|].
  triple_step triple_Apply; [exact Ha|done|]. intros [st2 r].
  apply triple_if; intros E2; [by apply triple_ret|]. cbv zeta.
  apply triple_if; intros _; [by apply triple_ret|].
  apply bool_decide_eq_false, dec_stable in E2.
  apply (triple_pre _ _ (fun w => exists s,
    stream_result (stream_of header) (w_hw w) = Some (s, delta_target (w_hw w) header))).
  2: { intros w H. by apply H. }
  apply triple_exists. intros s w H. eapply wp_mono.
  - by apply (triple_VerifyTarget header (delta_target (w_hw w) header) s).
  - intros st3 w' [Hf HQ]. split; [|exact HQ]. eapply frame_mono; [| |exact Hf]; [by intros a []|done].
  - intros h Hf. eapply frame_mono; [| |exact Hf]; [by intros a []|done].
Qed.

Lemma triple_IsDeltaArtifact :
  triple nowhere nowhere (fun w => idle (w_hw w)) DeltaPatcher_IsDeltaArtifact
    (fun _ w => idle (w_hw w)).
Proof.
  unfold DeltaPatcher_IsDeltaArtifact. triple_step triple_Storage_Init; [done|]. intros ok.
  apply triple_if; intros _; [by apply triple_ret|].
  eapply triple_bind.
  - eapply triple_pre; [eapply triple_idle; [apply keeps_Storage_Read|by apply triple_Storage_Read]|].
    intros w Hw. by split.
  - intros [magic|]; apply triple_ret; by intros w [].
Qed.

End checks.

(** ** The handler keeps the running image safe *)

Section process.
Context {HW : Hw} (Herase : erases_detected).
Implicit Types w : World HW.

(** The states in which the handler has work to do. *)
Definition patch_pending (state : Z) : Prop :=
  Exists (fun s => state = state_word s)
    [UPDATE_ARTIFACT_READY; UPDATE_VERIFYING_CONTAINER; UPDATE_VERIFYING_BASE; UPDATE_PATCHING].

(** IMAGE_READY, for the rebuilt image. *)
Record DeltaReady (m c : BootMetadata_t) (header : DeltaPatchHeader_t) (h : hw) : Prop := {
  dr_state : bm_state c = state_word UPDATE_IMAGE_READY;
  dr_update : same_update m c;
  dr_size : bm_expected_size c = dh_target_image_size header /\
            bm_received_size c = dh_target_image_size header;
  dr_rebuilt : Rebuilt header h
}.

(** How the handler may end. *)
Definition delta_post (orig : Image) (m : BootMetadata_t)
    (x : DeltaPatcherStatus_t * option BootMetadata_t) (w : World HW) : Prop :=
  safe orig (w_hw w) /\ app_is orig (w_hw w) /\
  (fst x = DELTA_PATCHER_OK ->
     exists header c, snd x = Some c /\ current_metadata (w_hw w) = Some c /\
       PatchChecked m header (w_hw w) /\
       (DeltaReady m c header (w_hw w) \/ c = m /\ ~ patch_pending (bm_state m))) /\
  (fst x = DELTA_PATCHER_SOURCE_REJECTED ->
     exists c, snd x = Some c /\ current_metadata (w_hw w) = Some c /\
       bm_state c = state_word UPDATE_IDLE /\ bm_active_version c = bm_active_version m).

(** Between two steps, from the memory [h0] in which the header was read. *)
Record patching (orig : Image) (m : BootMetadata_t) (h0 : hw) (working : BootMetadata_t) (h : hw)
    : Prop := {
  pt_safe : safe orig h;
  pt_app : app_is orig h;
  pt_wf : rec_wf working;
  pt_current : current_metadata h = Some working;
  pt_version : bm_active_version m = im_version orig;
  pt_update : same_update m working;
  pt_sources : same_sources h0 h
}.

Lemma patching_frame N orig m h0 working h h' :
  frame N nowhere h h' -> off_backup N ->
  (forall a, in_partition EXTERNAL_FLASH_PARTITION_INCOMING a -> ~ N a) ->
  patching orig m h0 working h -> patching orig m h0 working h'.
Proof.
  intros Hf HB HN [H1 H2 H3 H4 H5 H6 H7]. split; try done.
  - eapply safe_frame; [exact Hf|apply nowhere_off_app|exact HB|apply nowhere_off_metadata|done].
  - eapply app_is_frame; [exact Hf|apply nowhere_off_app|done].
  - by rewrite (current_metadata_frame _ _ _ _ Hf nowhere_off_metadata).
  - eapply frame_trans; [exact H7|]. eapply same_sources_frame; [exact Hf|done|apply nowhere_off_app].
Qed.

(** A read-only call between two steps. *)
Lemma wp_patching_read {A} (c : M HW A) Q orig m h0 working w R :
  patching orig m h0 working (w_hw w) -> triple nowhere nowhere (fun _ => True) c Q ->
  (forall a w', patching orig m h0 working (w_hw w') -> Q a w' -> R a w') ->
  wp c R (safe orig) w.
Proof.
  intros Hp Ht HR. eapply wp_read_call; [exact Ht|apply Hp|]. intros a w' Hf HQ. apply HR; [|exact HQ].
  eapply patching_frame; [exact Hf|apply nowhere_off_backup|by intros b _ []|exact Hp].
Qed.

Lemma delta_error_u32 reason : is_u32 (Z.lor DELTA_PATCHER_ERROR_BASE (delta_status_word reason)).
Proof. by destruct reason; vm_compute. Qed.

Lemma wp_RejectDelta orig m working reason w :
  rec_wf working -> bm_active_version working = bm_active_version m ->
  bm_active_version m = im_version orig -> safe orig (w_hw w) -> app_is orig (w_hw w) ->
  wp (RejectDelta working reason) (delta_post orig m) (safe orig) w.
Proof using Herase.
  intros Hwf Hav Hv Hsafe Happ. unfold RejectDelta. cbv zeta. set (m1 := bm_set_last_error _ _).
  assert (Hwf1 : rec_wf m1) by (wf_assign; apply delta_error_u32).
  assert (Hm1 : bm_state m1 = state_word UPDATE_IDLE /\ bm_active_version m1 = bm_active_version m)
    by done.
  destruct Hm1 as [Hst Hav1]. clearbody m1.
  assert (Hv1 : bm_active_version m1 = im_version orig) by congruence.
  apply (wp_clear_commit Herase orig m1 UPDATE_IDLE); [done..|].
  intros st c w2 Hs2 Ha2 Hsr Hok.
  case_bool_decide as Hne; apply wp_ret; (split; [exact Hs2|]); (split; [exact Ha2|]);
    (split; [discriminate|]); [discriminate|].
  intros _. exists c. destruct Hsr as [-> -> _ _ _ _ _ _ _].
  split_and!; [done|by apply Hok|done..].
Qed.

Lemma wp_RejectPatching orig m h0 working reason w :
  patching orig m h0 working (w_hw w) ->
  wp (RejectDelta working reason) (delta_post orig m) (safe orig) w.
Proof using Herase. intros []. apply wp_RejectDelta; try done. by apply su_active. Qed.

Lemma wp_DeltaTransitionFrom orig m h0 working s next w :
  app_state next = true -> patching orig m h0 working (w_hw w) ->
  wp (TransitionFrom s next working)
    (fun x w' => match x with
       | inl r => delta_post orig m r w'
       | inr working' => patching orig m h0 working' (w_hw w') /\
           (bm_state working = state_word s /\ bm_state working' = state_word next \/
            bm_state working <> state_word s /\ working' = working)
       end) (safe orig) w.
Proof using Herase.
  intros Hn Hp. unfold TransitionFrom.
  destruct (Z.eqb_spec (bm_state working) (state_word s)) as [Hs|Hs]; [|apply wp_go; auto].
  apply wp_bind. destruct Hp as [H1 H2 H3 H4 Hv H5 H6]. unfold Transition. cbv zeta.
  set (m1 := bm_set_last_error 0 _).
  assert (Hwf1 : rec_wf m1) by (wf_assign; apply state_word_u32).
  assert (Hm1 : bm_state m1 = state_word next /\ same_update working m1) by (split; [done|by split]).
  destruct Hm1 as [Hst Hsu]. clearbody m1. apply wp_bind.
  pose proof (same_update_trans _ _ _ H5 Hsu) as Hsu1.
  pose proof (eq_trans (su_active _ _ Hsu1) Hv) as Hv1.
  eapply wp_mono; [by apply (wp_commit_app Herase orig m1 next)| |done].
  intros [st c] w2 (Hf2 & Hs2 & Ha2 & Hwf2 & Hsr & Hok). apply wp_ret.
  destruct (bool_decide_reflect (st = METADATA_STORAGE_OK)) as [Heq|Hne]; case_bool_decide as Hc;
    try done.
  apply wp_go. destruct Hsr as [E1 E2 E3 E4 _ _ _ _ _], Hsu1 as [F1 F2 F3]. split.
  - split; try done; [by apply Hok|split; congruence|].
    eapply frame_trans; [exact H6|]. eapply same_sources_frame; [exact Hf2|by intros a _ []|
      apply boot_metadata_off_app].
  - left. split; [done|]. congruence.
Qed.

(** The patch and base checks hold when the transitions are over, and the state
    is PATCHING unless the handler had nothing to do. *)
Lemma wp_DeltaAdvance orig m h0 header w :
  AcceptedDelta header -> patching orig m h0 m (w_hw w) ->
  wp (AdvanceToPatching header m)
    (fun x w' => match x with
       | inl r => delta_post orig m r w'
       | inr working => patching orig m h0 working (w_hw w') /\
           crc_of (patch_of (stream_of header) h0) = dh_patch_crc32 header /\
           crc_of (app_slice h0 0 (dh_base_image_size header)) = dh_base_image_crc32 header /\
           (bm_state working = state_word UPDATE_PATCHING \/
            working = m /\ ~ patch_pending (bm_state m))
       end) (safe orig) w.
Proof using Herase.
  intros Ha Hp. pose proof (ad_base_size _ Ha) as Hb. unfold AdvanceToPatching. apply wp_bind_exit.
  eapply wp_mono; [by apply wp_DeltaTransitionFrom| |done].
  intros [r|w1] s1 H1; [exact H1|]. destruct H1 as [H1 C1]. apply wp_bind.
  eapply wp_patching_read; [exact H1|by apply triple_ValidatePatchCrc|]. intros st2 s2 H2 Hcrc.
  case_bool_decide as Hst2; [apply wp_leave; by eapply wp_RejectPatching|].
  specialize (Hcrc Hst2).
  rewrite (patch_same h0 (w_hw s2)) in Hcrc by (done || apply H2). apply wp_bind_exit.
  eapply wp_mono; [by apply wp_DeltaTransitionFrom| |done].
  intros [r|w3] s3 H3; [exact H3|]. destruct H3 as [H3 C3]. apply wp_bind.
  eapply wp_patching_read; [exact H3|by apply triple_DeltaBase|]. intros st4 s4 H4 Hbase.
  case_bool_decide as Hst4; [apply wp_leave; by eapply wp_RejectPatching|].
  specialize (Hbase Hst4).
  rewrite (app_slice_same h0 (w_hw s4)) in Hbase by (apply Hb || apply H4).
  eapply wp_mono; [by apply wp_DeltaTransitionFrom| |done].
  intros [r|w5] s5 H5; [exact H5|]. destruct H5 as [H5 C5]. split_and!; [done..|].
  destruct (decide (bm_state w5 = state_word UPDATE_PATCHING)) as [|Hne]; [by left|right].
  destruct C5 as [[_ ?]|[N5 ->]]; [done|]. destruct C3 as [[_ ?]|[N3 ->]]; [done|].
  destruct C1 as [[_ ?]|[N1 ->]]; [done|]. split; [done|]. intros Hpend.
  repeat (apply Exists_cons in Hpend as [?|Hpend]; [done|]). by apply Exists_nil in Hpend.
Qed.

(** The commit of IMAGE_READY. *)
Lemma wp_DeltaCommit orig m h0 header working w :
  patching orig m h0 working (w_hw w) -> PatchChecked m header h0 -> Rebuilt header (w_hw w) ->
  wp (CommitImageReady header working) (delta_post orig m) (safe orig) w.
Proof using Herase.
  intros [H1 H2 H3 H4 Hv H5 H6] Hchk Hreb. pose proof (pk_accepted _ _ _ Hchk) as Hacc.
  pose proof (ad_target_size _ Hacc) as Hsize. unfold CommitImageReady. cbv zeta.
  set (n := dh_target_image_size header) in *.
  assert (Hn : is_u32 n) by (unfold is_u32; map_lia).
  set (m1 := bm_set_last_error 0 _).
  assert (Hwf1 : rec_wf m1) by (wf_assign; exact Hn).
  assert (Hm1 : bm_state m1 = state_word UPDATE_IMAGE_READY /\ same_update working m1 /\
    bm_expected_size m1 = n /\ bm_received_size m1 = n) by (split_and!; [done|by split|done..]).
  destruct Hm1 as (Hst & Hsu & He & Hr). clearbody m1. apply wp_bind.
  pose proof (same_update_trans _ _ _ H5 Hsu) as Hsu1.
  pose proof (eq_trans (su_active _ _ Hsu1) Hv) as Hv1.
  eapply wp_mono; [by apply (wp_commit_app Herase orig m1 UPDATE_IMAGE_READY)| |done].
  intros [st c] w2 (Hf2 & Hs2 & Ha2 & Hwf2 & Hsr & Hok).
  case_bool_decide as Hst2; apply wp_ret; (split; [exact Hs2|]); (split; [exact Ha2|]);
    (split; [|discriminate]); [discriminate|].
  intros _. exists header, c. cbn [fst snd].
  split; [reflexivity|]. split; [by apply Hok|].
  assert (Hss : same_sources (w_hw w) (w_hw w2))
    by (eapply same_sources_frame; [exact Hf2|by intros a _ []|apply boot_metadata_off_app]).
  split; [eapply PatchChecked_same, Hchk; by eapply frame_trans|]. left.
  destruct Hsr as [E1 E2 E3 E4 E5 E6 _ _ _], Hsu1 as [F1 F2 F3].
  split; [congruence|split; congruence|split; [exact (eq_trans E6 He)|exact (eq_trans E5 Hr)]|].
  eapply Rebuilt_frame; [exact Hf2|apply boot_metadata_off_app|done|done].
Qed.

Lemma versions_checked header m :
  ValidateHeaderAgainstMetadata (Some header) (Some m) = DELTA_PATCHER_OK ->
  bm_active_version m = dh_base_version header /\ bm_pending_version m = dh_target_version header.
Proof.
  unfold ValidateHeaderAgainstMetadata. cbv zeta. intros H.
  repeat (case_if_in H; [try done|]); to_prop; by split.
Qed.

(** From the accepted header on. *)
Lemma wp_Process_header orig m header w :
  patching orig m (w_hw w) m (w_hw w) -> AcceptedDelta header ->
  header = ReadFields (delta_header (w_hw w)) ->
  ValidateHeaderAgainstMetadata (Some header) (Some m) = DELTA_PATCHER_OK ->
  wp (run_exit (
        working <-! AdvanceToPatching header m ;;
        if bm_state working <>? state_word UPDATE_PATCHING
        then leave (ret (DELTA_PATCHER_OK, Some working)) else
        status <- Rebuild header ;;
        if bool_decide (status <> DELTA_PATCHER_OK) then leave (RejectDelta working status)
        else leave (CommitImageReady header working)))
    (delta_post orig m) (safe orig) w.
Proof using Herase.
  intros Hp Ha Hh Hval. pose proof (versions_checked _ _ Hval) as Hver.
  apply wp_run_exit, wp_bind_exit. eapply wp_mono; [by apply wp_DeltaAdvance| |done].
  intros [r|w1] s1 H1; [exact H1|]. destruct H1 as (H1 & Hpatch & Hbase & Hst).
  assert (Hchk : PatchChecked m header (w_hw w)) by (by split).
  destruct (Z.eqb_spec (bm_state w1) (state_word UPDATE_PATCHING)) as [Hs|Hs]; cbn [negb].
  2: { apply wp_leave, wp_ret. destruct Hst as [?|[-> Hn]]; [done|].
       split; [apply H1|]. split; [apply H1|]. split; [|discriminate]. intros _. exists header, m.
       split; [done|]. split; [apply H1|]. split; [|by right].
       eapply PatchChecked_same; [apply H1|exact Hchk]. }
  assert (Hoff : off_backup in_reconstructed).
  { intros a Hb Hin. unfold in_partition in Hin. rewrite reconstructed_base, reconstructed_size in Hin.
    map_lia. }
  assert (Hsafe : forall h, frame in_reconstructed nowhere (w_hw s1) h -> patching orig m (w_hw w) w1 h).
  { intros h Hf. eapply patching_frame; [exact Hf|exact Hoff|apply reconstructed_off_incoming|exact H1]. }
  apply wp_bind. eapply wp_safe_call; [by apply triple_Rebuild|intros h Hf; by apply Hsafe|].
  intros st s2 Hf2 Hreb. specialize (Hsafe _ Hf2). case_bool_decide as Hst2; apply wp_leave.
  - eapply wp_RejectPatching. exact Hsafe.
  - eapply wp_DeltaCommit; [exact Hsafe|exact Hchk|by apply Hreb].
Qed.

(** C40: Only an intact patch for the running image becomes ready.
    DeltaPatcher_Process never changes the application region and keeps the
    memory safe wherever power fails. OK means that the incoming partition holds
    an acceptable D13P header whose versions are those of the update, a patch
    with the CRC of the header and a running image with the base CRC; if the
    state was one of the four before IMAGE_READY, then the current record is now
    IMAGE_READY with the target size and the reconstructed partition holds
    exactly the target the reference semantics of JojoDiff gives for that patch
    and base, with the CRC of the header and a runnable vector table; otherwise
    nothing was changed. SOURCE_REJECTED means that the current record is IDLE
    at the same active version. *)
Theorem DeltaPatcher_Process_checked (orig : Image) (m : BootMetadata_t) (s : UpdateState_t) w :
  idle (w_hw w) -> live orig m (w_hw w) -> bm_state m = state_word s -> app_state s = true ->
  wp (DeltaPatcher_Process (Some m))
    (fun '(status, result) w' =>
       safe orig (w_hw w') /\ app_is orig (w_hw w') /\
       (status = DELTA_PATCHER_OK ->
          exists header c, result = Some c /\ current_metadata (w_hw w') = Some c /\
            PatchChecked m header (w_hw w') /\
            (DeltaReady m c header (w_hw w') \/ c = m /\ ~ patch_pending (bm_state m))) /\
       (status = DELTA_PATCHER_SOURCE_REJECTED ->
          exists c, result = Some c /\ current_metadata (w_hw w') = Some c /\
            bm_state c = state_word UPDATE_IDLE /\ bm_active_version c = bm_active_version m))
    (safe orig) w.
Proof using Herase.
  intros Hi Hl Hm Hs. apply (wp_mono _ (delta_post orig m) _ (safe orig)); [|by intros [] w'|done].
  pose proof (live_safe _ _ _ Hl) as Hsafe. destruct Hl as [Hcur Hacc].
  pose proof (current_metadata_wf _ _ Hcur) as Hwf. pose proof (proj1 Hacc) as Hver.
  assert (Happ : app_is orig (w_hw w)).
  { pose proof (accounted_state _ _ _ _ Hacc Hm) as Hp. by destruct s. }
  assert (Hstart : forall w', frame nowhere nowhere (w_hw w) (w_hw w') ->
    patching orig m (w_hw w') m (w_hw w')).
  { intros w' Hf. split; [|by eapply app_is_frame; [exact Hf|apply nowhere_off_app|]|done| |done|by split|
      apply frame_refl].
    - eapply safe_frame; [exact Hf|apply nowhere_off_app|apply nowhere_off_backup|
        apply nowhere_off_metadata|done].
    - by rewrite (current_metadata_frame _ _ _ _ Hf nowhere_off_metadata). }
  unfold DeltaPatcher_Process. apply wp_bind.
  eapply wp_idle_call; [apply triple_Storage_Init|done|done|]. intros ok w1 Hf1 Hs1 Hi1.
  assert (Hout : forall status w', frame nowhere nowhere (w_hw w) (w_hw w') ->
    status <> DELTA_PATCHER_OK -> status <> DELTA_PATCHER_SOURCE_REJECTED ->
    wp (ret (status, None)) (delta_post orig m) (safe orig) w').
  { intros st w' Hf ? ?. destruct (Hstart w' Hf). apply wp_ret. by split_and!. }
  case_if; [by apply Hout|]. apply wp_bind.
  eapply wp_idle_call; [apply triple_IsDeltaArtifact|done|done|]. intros is_delta w2 Hf2 Hs2 _.
  pose proof (frame_trans _ _ _ _ _ Hf1 Hf2) as Hf02. case_if; [by apply Hout|]. apply wp_bind.
  eapply wp_read_call; [apply triple_ReadHeader|exact Hs2|]. intros r w3 Hf3 Hr.
  pose proof (Hstart w3 (frame_trans _ _ _ _ _ Hf02 Hf3)) as Hp3.
  destruct r as [st|header]; [by eapply wp_RejectPatching|]. cbv zeta.
  destruct (Hr header eq_refl) as (Hh & Ha & _).
  case_bool_decide as Hval; [by eapply wp_RejectPatching|].
  by apply wp_Process_header.
Qed.

End process.
