(* ===== verification/ImageInstaller.v ===== *)
(** * ImageInstaller: node-stm32f103/bootloader/src/image_installer.c

    The backup of the running image, the page-by-page installation of the
    candidate, its verification, and the rollback from the backup.  The
    default build is modelled: no fault injection, no unsigned legacy formats.
    The static page buffer is written before every use, so it is a local list
    here. *)

From S2P Require Import Prelude Bytes MemoryMap Crc32 AbRecord BootMetadata BackupImage.
From S2P Require Import FullImage.
From S2P Require Import Progress FirmwareContainer Device Logic MetadataStorage.
From S2P Require Import ApplicationJump.
From S2P Require Import TrialBoot SpiFlash ExternalFlashStorage AbStorage SectorRecords.
From S2P Require Import BackupImageStorage ChipIdle Recovery Chunks DeltaEngine.
From S2P Require Import SecureContainer.

Inductive ImageInstallerStatus_t :=
  | IMAGE_INSTALLER_OK
  | IMAGE_INSTALLER_SOURCE_REJECTED
  | IMAGE_INSTALLER_EXTERNAL_FLASH_INIT_FAILED
  | IMAGE_INSTALLER_HANDOFF_LOAD_FAILED
  | IMAGE_INSTALLER_HANDOFF_MISMATCH
  | IMAGE_INSTALLER_SOURCE_READ_FAILED
  | IMAGE_INSTALLER_SOURCE_VECTOR_INVALID
  | IMAGE_INSTALLER_SOURCE_CRC_MISMATCH
  | IMAGE_INSTALLER_METADATA_COMMIT_FAILED
  | IMAGE_INSTALLER_PROGRESS_INVALID
  | IMAGE_INSTALLER_FLASH_ERASE_FAILED
  | IMAGE_INSTALLER_FLASH_PROGRAM_FAILED
  | IMAGE_INSTALLER_PAGE_VERIFY_FAILED
  | IMAGE_INSTALLER_CHECKPOINT_CLEAR_FAILED
  | IMAGE_INSTALLER_VERIFY_CRC_FAILED
  | IMAGE_INSTALLER_VERIFY_VECTOR_FAILED
  | IMAGE_INSTALLER_FINALIZE_FAILED
  | IMAGE_INSTALLER_BACKUP_HEADER_FAILED
  | IMAGE_INSTALLER_BACKUP_ERASE_FAILED
  | IMAGE_INSTALLER_BACKUP_WRITE_FAILED
  | IMAGE_INSTALLER_BACKUP_VERIFY_FAILED
  | IMAGE_INSTALLER_BACKUP_CRC_MISMATCH
  | IMAGE_INSTALLER_BACKUP_PROGRESS_INVALID
  | IMAGE_INSTALLER_ROLLBACK_SOURCE_INVALID
  | IMAGE_INSTALLER_ROLLBACK_READ_FAILED
  | IMAGE_INSTALLER_ROLLBACK_VERIFY_FAILED
  | IMAGE_INSTALLER_TRIAL_TRANSITION_FAILED.

#[export] Instance ImageInstallerStatus_eq : EqDecision ImageInstallerStatus_t.
Proof. solve_decision. Defined.

(** The cast [(uint32_t)status]. *)
Definition installer_status_word (s : ImageInstallerStatus_t) : Z :=
  match s with
  | IMAGE_INSTALLER_OK => 0 | IMAGE_INSTALLER_SOURCE_REJECTED => 1
  | IMAGE_INSTALLER_EXTERNAL_FLASH_INIT_FAILED => 2 | IMAGE_INSTALLER_HANDOFF_LOAD_FAILED => 3
  | IMAGE_INSTALLER_HANDOFF_MISMATCH => 4 | IMAGE_INSTALLER_SOURCE_READ_FAILED => 5
  | IMAGE_INSTALLER_SOURCE_VECTOR_INVALID => 6 | IMAGE_INSTALLER_SOURCE_CRC_MISMATCH => 7
  | IMAGE_INSTALLER_METADATA_COMMIT_FAILED => 8 | IMAGE_INSTALLER_PROGRESS_INVALID => 9
  | IMAGE_INSTALLER_FLASH_ERASE_FAILED => 10 | IMAGE_INSTALLER_FLASH_PROGRAM_FAILED => 11
  | IMAGE_INSTALLER_PAGE_VERIFY_FAILED => 12 | IMAGE_INSTALLER_CHECKPOINT_CLEAR_FAILED => 13
  | IMAGE_INSTALLER_VERIFY_CRC_FAILED => 14 | IMAGE_INSTALLER_VERIFY_VECTOR_FAILED => 15
  | IMAGE_INSTALLER_FINALIZE_FAILED => 16 | IMAGE_INSTALLER_BACKUP_HEADER_FAILED => 17
  | IMAGE_INSTALLER_BACKUP_ERASE_FAILED => 18 | IMAGE_INSTALLER_BACKUP_WRITE_FAILED => 19
  | IMAGE_INSTALLER_BACKUP_VERIFY_FAILED => 20 | IMAGE_INSTALLER_BACKUP_CRC_MISMATCH => 21
  | IMAGE_INSTALLER_BACKUP_PROGRESS_INVALID => 22 | IMAGE_INSTALLER_ROLLBACK_SOURCE_INVALID => 23
  | IMAGE_INSTALLER_ROLLBACK_READ_FAILED => 24 | IMAGE_INSTALLER_ROLLBACK_VERIFY_FAILED => 25
  | IMAGE_INSTALLER_TRIAL_TRANSITION_FAILED => 26
  end.

Definition IMAGE_INSTALLER_ROLLBACK_TRIAL_LIMIT_BASE : Z := 0x0008B000.
Definition IMAGE_INSTALLER_ROLLBACK_INVALID_TRIAL : Z := 0x0008B100.
Definition IMAGE_INSTALLER_ROLLBACK_INSTALL_BASE : Z := 0x0008B200.
Definition INSTALL_CRC_BUFFER_SIZE : Z := 256.
Definition IMAGE_INSTALLER_ERROR_BASE : Z := 0x00080000.

Definition InstallerError (status : ImageInstallerStatus_t) : Z :=
  Z.lor IMAGE_INSTALLER_ERROR_BASE (installer_status_word status).

Record CandidateSource_t := mkSource {
  cs_partition : ExternalFlashPartition_t;
  cs_update_id : Z;
  cs_target_version : Z;
  cs_image_size : Z;
  cs_image_crc32 : Z;
  cs_is_delta : bool
}.

Section installer.
Context {HW : Hw} {Key : TrustedKey} {Delta : DeltaEngine}.
Implicit Types w : World HW.

(** A handler's status and the metadata copied to [result_metadata]. *)
Abbreviation IResult := (ImageInstallerStatus_t * option BootMetadata_t)%type.
(** A step's status and the working metadata after it. *)
Abbreviation Step := (ImageInstallerStatus_t * BootMetadata_t)%type.

(** ** The candidate *)

Definition LoadCandidateSource (metadata : BootMetadata_t)
    : M HW (ImageInstallerStatus_t + CandidateSource_t) :=
  first_word <- ExternalFlashStorage_Read EXTERNAL_FLASH_PARTITION_INCOMING 0 4 ;;
  match first_word with
  | None => ret (inl IMAGE_INSTALLER_SOURCE_READ_FAILED)
  | Some first_word =>
      if GetU32Le first_word =? FW_CONTAINER_MAGIC then
        r <- SecureContainer_LoadVerifiedInfo 0 ;;
        match r with
        | inl _ => ret (inl IMAGE_INSTALLER_HANDOFF_MISMATCH)
        | inr info =>
            let h := fi_header info in
            if (bm_state metadata =? state_word UPDATE_ARTIFACT_READY)
               || (bm_pending_version metadata <>? fw_target_version h)
               || (bm_active_update_id metadata =? 0)
               || (bm_received_size metadata <>? fw_target_image_size h)
               || (bm_expected_size metadata <>? fw_target_image_size h)
            then ret (inl IMAGE_INSTALLER_HANDOFF_MISMATCH)
            else if (fw_image_type h =? FW_IMAGE_DELTA)
                 && (bm_active_version metadata <>? fw_base_version h)
            then ret (inl IMAGE_INSTALLER_HANDOFF_MISMATCH)
            else ret (inr
              {| cs_partition := EXTERNAL_FLASH_PARTITION_RECONSTRUCTED;
                 cs_update_id := bm_active_update_id metadata;
                 cs_target_version := fw_target_version h;
                 cs_image_size := fw_target_image_size h;
                 cs_image_crc32 := fx_target_image_crc32 (fi_extension info);
                 cs_is_delta := fw_image_type h =? FW_IMAGE_DELTA |})
        end
      else ret (inl IMAGE_INSTALLER_HANDOFF_MISMATCH)
  end.

Definition RevertToActiveImage (metadata : BootMetadata_t) (reason : ImageInstallerStatus_t)
    : M HW IResult :=
  let metadata := metadata
    |> bm_set_state (state_word UPDATE_IDLE)
    |> bm_set_pending_version 0
    |> bm_set_active_update_id 0
    |> bm_set_received_size 0
    |> bm_set_expected_size 0
    |> bm_set_copy_offset 0
    |> bm_set_boot_attempts 0
    |> bm_set_last_error (InstallerError reason) in
  _ignored <- DownloadCheckpointStorage_Clear ;;
  r <- CommitMetadata metadata ;;
  let '(status, metadata) := r in
  if bool_decide (status <> METADATA_STORAGE_OK)
  then ret (IMAGE_INSTALLER_METADATA_COMMIT_FAILED, None)
  else ret (IMAGE_INSTALLER_SOURCE_REJECTED, Some metadata).

Definition BestEffortMarkFailed (metadata : BootMetadata_t) (reason : ImageInstallerStatus_t)
    : M HW unit :=
  let metadata := metadata
    |> bm_set_state (state_word UPDATE_FAILED)
    |> bm_set_last_error (InstallerError reason) in
  _ignored <- CommitMetadata metadata ;;
  ret tt.

(** ** Image checksums *)

Definition CalculateInternalCrc (length : Z) : M HW Z :=
  crc <- CrcChunks INSTALL_CRC_BUFFER_SIZE (fun offset chunk =>
           bytes <- flash_read (APPLICATION_START_ADDRESS + offset) chunk ;; ret (Some bytes)) length ;;
  ret (default 0 crc).

Definition CalculateExternalCrc (partition : ExternalFlashPartition_t) (length : Z)
    : M HW (option Z) :=
  CrcChunks INSTALL_CRC_BUFFER_SIZE (ExternalFlashStorage_Read partition) length.

Definition CalculateBackupCrc : M HW (option Z) :=
  CrcChunks INSTALL_CRC_BUFFER_SIZE BackupImageStorage_Read APPLICATION_MAX_SIZE.

Definition ValidateExternalSource (source : CandidateSource_t) : M HW ImageInstallerStatus_t :=
  vector <- ExternalFlashStorage_Read (cs_partition source) 0 8 ;;
  match vector with
  | None => ret IMAGE_INSTALLER_SOURCE_READ_FAILED
  | Some vector =>
      if bool_decide (FullImage_ValidateVector (cs_image_size source)
           (GetU32Le vector) (GetU32Le (drop 4 vector)) <> FULL_IMAGE_VALID)
      then ret IMAGE_INSTALLER_SOURCE_VECTOR_INVALID else
      crc <- CalculateExternalCrc (cs_partition source) (cs_image_size source) ;;
      match crc with
      | None => ret IMAGE_INSTALLER_SOURCE_READ_FAILED
      | Some crc =>
          ret (if crc <>? cs_image_crc32 source then IMAGE_INSTALLER_SOURCE_CRC_MISMATCH
               else IMAGE_INSTALLER_OK)
      end
  end.

(** The validated header, or the error. *)
Definition ValidateBackupImage : M HW (ImageInstallerStatus_t + BackupImageRecord_t) :=
  r <- BackupImageStorage_LoadHeader ;;
  match r with
  | (BACKUP_IMAGE_STORAGE_OK, Some record) =>
      crc <- CalculateBackupCrc ;;
      match crc with
      | None => ret (inl IMAGE_INSTALLER_BACKUP_VERIFY_FAILED)
      | Some crc =>
          if crc <>? bk_image_crc32 record then ret (inl IMAGE_INSTALLER_BACKUP_CRC_MISMATCH)
          else ret (inr record)
      end
  | _ => ret (inl IMAGE_INSTALLER_ROLLBACK_SOURCE_INVALID)
  end.

(** ** One page of the application *)

Definition LoadCandidatePage (source : CandidateSource_t) (page_offset : Z)
    : M HW (ImageInstallerStatus_t + list Z) :=
  let length := InstallProgress_PageLength (cs_image_size source) page_offset in
  if length =? 0 then ret (inl IMAGE_INSTALLER_PROGRESS_INVALID) else
  bytes <- ExternalFlashStorage_Read (cs_partition source) page_offset length ;;
  ret (match bytes with
       | None => inl IMAGE_INSTALLER_SOURCE_READ_FAILED
       | Some bytes => inr bytes
       end).

Definition LoadBackupPage (page_offset : Z) : M HW (ImageInstallerStatus_t + list Z) :=
  let length := InstallProgress_PageLength APPLICATION_MAX_SIZE page_offset in
  if length =? 0 then ret (inl IMAGE_INSTALLER_PROGRESS_INVALID) else
  bytes <- BackupImageStorage_Read page_offset length ;;
  ret (match bytes with
       | None => inl IMAGE_INSTALLER_ROLLBACK_READ_FAILED
       | Some bytes => inr bytes
       end).

(** The half-word loop; an odd last byte is padded with 0xFF. *)
Definition ProgramPageHalfWords (page_offset : Z) (page : list Z) (page_length : Z) : M HW bool :=
  loop (page_length + 2) (fun i =>
    if i <? page_length then
      let high := if i + 1 <? page_length then byte_at page (i + 1) else 0xFF in
      let halfword := u16 (Z.lor (byte_at page i) (Z.shiftl high 8)) in
      flash_status <- FLASH_ProgramHalfWord (APPLICATION_START_ADDRESS + page_offset + i) halfword ;;
      if bool_decide (flash_status <> FLASH_COMPLETE) then ret (inr false)
      else ret (inl (i + 2))
    else ret (inr true)) 0.

Definition ProgramBufferedApplicationPage (page_offset : Z) (page : list Z) (page_length : Z)
    : M HW ImageInstallerStatus_t :=
  primask <- get_primask ;;
  disable_irq ;;
  FLASH_Unlock ;;
  flash_status <- FLASH_ErasePage (APPLICATION_START_ADDRESS + page_offset) ;;
  if bool_decide (flash_status <> FLASH_COMPLETE)
  then FLASH_Lock ;; set_primask primask ;; ret IMAGE_INSTALLER_FLASH_ERASE_FAILED else
  ok <- ProgramPageHalfWords page_offset page page_length ;;
  FLASH_Lock ;;
  set_primask primask ;;
  if negb ok then ret IMAGE_INSTALLER_FLASH_PROGRAM_FAILED else
  installed <- flash_read (APPLICATION_START_ADDRESS + page_offset) page_length ;;
  ret (if bool_decide (installed = take (Z.to_nat page_length) page)
       then IMAGE_INSTALLER_OK else IMAGE_INSTALLER_PAGE_VERIFY_FAILED).

Definition ProgramAndVerifyCandidatePage (source : CandidateSource_t) (page_offset : Z)
    : M HW ImageInstallerStatus_t :=
  r <- LoadCandidatePage source page_offset ;;
  match r with
  | inl status => ret status
  | inr page => ProgramBufferedApplicationPage page_offset page (len page)
  end.

Definition ProgramAndVerifyBackupPage (page_offset : Z) : M HW ImageInstallerStatus_t :=
  r <- LoadBackupPage page_offset ;;
  match r with
  | inl status => ret status
  | inr page => ProgramBufferedApplicationPage page_offset page (len page)
  end.

(** ** Backup *)

Definition BeginBackup (metadata : BootMetadata_t) : M HW Step :=
  status <- BackupImageStorage_InvalidateHeader ;;
  if bool_decide (status <> BACKUP_IMAGE_STORAGE_OK)
  then ret (IMAGE_INSTALLER_BACKUP_HEADER_FAILED, metadata) else
  let metadata := metadata
    |> bm_set_state (state_word UPDATE_BACKING_UP)
    |> bm_set_copy_offset 0
    |> bm_set_boot_attempts 0
    |> bm_set_last_error 0 in
  r <- CommitMetadata metadata ;;
  let '(status, metadata) := r in
  ret (if bool_decide (status <> METADATA_STORAGE_OK)
       then IMAGE_INSTALLER_METADATA_COMMIT_FAILED else IMAGE_INSTALLER_OK, metadata).

Definition CopyActiveImageToBackupChunk (chunk_offset chunk_length : Z)
    : M HW ImageInstallerStatus_t :=
  ok <- BackupImageStorage_EraseSector chunk_offset ;;
  if negb ok then ret IMAGE_INSTALLER_BACKUP_ERASE_FAILED else
  loop (chunk_length + 1) (fun copied =>
    if copied <? chunk_length then
      let length := u32 (chunk_length - copied) in
      let length := if INTERNAL_FLASH_PAGE_SIZE <? length then INTERNAL_FLASH_PAGE_SIZE
                    else length in
      page <- flash_read (APPLICATION_START_ADDRESS + chunk_offset + copied) length ;;
      ok <- BackupImageStorage_Write (u32 (chunk_offset + copied)) (Some page) length ;;
      if negb ok then ret (inr IMAGE_INSTALLER_BACKUP_WRITE_FAILED) else
      ok <- BackupImageStorage_Verify (u32 (chunk_offset + copied)) (Some page) length ;;
      if negb ok then ret (inr IMAGE_INSTALLER_BACKUP_VERIFY_FAILED)
      else ret (inl (u32 (copied + length)))
    else ret (inr IMAGE_INSTALLER_OK)) 0.

(** The commit of a new copy offset; [clear] is the reset of [last_error]. *)
Definition CommitOffset (clear : bool) (offset : Z) (metadata : BootMetadata_t)
    : M HW (MetadataStorageStatus_t * BootMetadata_t) :=
  let metadata := bm_set_copy_offset offset metadata in
  CommitMetadata (if clear then bm_set_last_error 0 metadata else metadata).

(** The three checkpointed copy loops: while the offset is below [size], copy a
    block and commit the next offset. *)
Definition CopyLoop (size : Z) (next : Z -> Z) (copy : Z -> M HW ImageInstallerStatus_t)
    (clear : bool) (metadata : BootMetadata_t) : M HW Step :=
  loop (size + 1) (fun metadata =>
    let offset := bm_copy_offset metadata in
    if offset <? size then
      status <- copy offset ;;
      if bool_decide (status <> IMAGE_INSTALLER_OK) then ret (inr (status, metadata)) else
      r <- CommitOffset clear (next offset) metadata ;;
      let '(committed, metadata) := r in
      if bool_decide (committed <> METADATA_STORAGE_OK)
      then ret (inr (IMAGE_INSTALLER_METADATA_COMMIT_FAILED, metadata))
      else ret (inl metadata)
    else ret (inr (IMAGE_INSTALLER_OK, metadata))) metadata.

(** Commit a state and a copy offset, clearing the error. *)
Definition CommitState (state : UpdateState_t) (offset : Z) (metadata : BootMetadata_t)
    : M HW Step :=
  let metadata := metadata
    |> bm_set_state (state_word state)
    |> bm_set_copy_offset offset
    |> bm_set_last_error 0 in
  r <- CommitMetadata metadata ;;
  let '(status, metadata) := r in
  ret (if bool_decide (status <> METADATA_STORAGE_OK)
       then IMAGE_INSTALLER_METADATA_COMMIT_FAILED else IMAGE_INSTALLER_OK, metadata).

Definition ResumeBackup (metadata : BootMetadata_t) : M HW Step :=
  if bool_decide (BackupProgress_Validate (bm_copy_offset metadata) <> BACKUP_PROGRESS_VALID)
  then ret (IMAGE_INSTALLER_BACKUP_PROGRESS_INVALID, metadata) else
  r <- CopyLoop APPLICATION_MAX_SIZE BackupProgress_NextCheckpoint
         (fun offset => CopyActiveImageToBackupChunk offset (BackupProgress_ChunkLength offset))
         true metadata ;;
  let '(status, metadata) := r in
  if bool_decide (status <> IMAGE_INSTALLER_OK) then ret (status, metadata) else
  internal_crc <- CalculateInternalCrc APPLICATION_MAX_SIZE ;;
  backup_crc <- CalculateBackupCrc ;;
  match backup_crc with
  | None => ret (IMAGE_INSTALLER_BACKUP_VERIFY_FAILED, metadata)
  | Some backup_crc =>
      if internal_crc <>? backup_crc then ret (IMAGE_INSTALLER_BACKUP_CRC_MISMATCH, metadata) else
      let requested := BackupImage_Init (bm_active_version metadata) backup_crc in
      r <- BackupImageStorage_CommitHeader (Some requested) ;;
      let '(status, _) := r in
      if bool_decide (status <> BACKUP_IMAGE_STORAGE_OK)
      then ret (IMAGE_INSTALLER_BACKUP_HEADER_FAILED, metadata) else
      CommitState UPDATE_INSTALLING 0 metadata
  end.

(** ** Installation *)

Definition ResumePageCheckpointedCopy (source : CandidateSource_t) (metadata : BootMetadata_t)
    : M HW Step :=
  if bool_decide (InstallProgress_Validate (cs_image_size source) (bm_copy_offset metadata)
                  <> INSTALL_PROGRESS_VALID)
  then ret (IMAGE_INSTALLER_PROGRESS_INVALID, metadata) else
  CopyLoop (cs_image_size source) (InstallProgress_NextCheckpoint (cs_image_size source))
    (ProgramAndVerifyCandidatePage source) true metadata.

(** The image in the application region: its CRC and its vector table. *)
Definition VerifyApplication (image_size image_crc32 : Z)
    (crc_failed vector_failed : ImageInstallerStatus_t) : M HW ImageInstallerStatus_t :=
  crc <- CalculateInternalCrc image_size ;;
  if crc <>? image_crc32 then ret crc_failed else
  vector0 <- flash_word APPLICATION_START_ADDRESS ;;
  vector1 <- flash_word (APPLICATION_START_ADDRESS + 4) ;;
  if bool_decide (FullImage_ValidateVector image_size vector0 vector1 <> FULL_IMAGE_VALID)
  then ret vector_failed else
  r <- ApplicationJump_Validate APPLICATION_START_ADDRESS ;;
  let '(status, _) := r in
  ret (if bool_decide (status <> APPLICATION_VALIDATION_OK) then vector_failed
       else IMAGE_INSTALLER_OK).

Definition VerifyInstalledApplication (source : CandidateSource_t) : M HW ImageInstallerStatus_t :=
  VerifyApplication (cs_image_size source) (cs_image_crc32 source)
    IMAGE_INSTALLER_VERIFY_CRC_FAILED IMAGE_INSTALLER_VERIFY_VECTOR_FAILED.

Definition TransitionToVerify (metadata : BootMetadata_t) (image_size : Z) : M HW Step :=
  CommitState UPDATE_VERIFYING_INSTALL image_size metadata.

Definition BeginInstall (metadata : BootMetadata_t) : M HW Step :=
  CommitState UPDATE_INSTALLING 0 metadata.

Definition TransitionToTrialBoot (metadata : BootMetadata_t) : M HW IResult :=
  cleared <- DownloadCheckpointStorage_Clear ;;
  if bool_decide (cleared <> STORAGE_OK)
  then ret (IMAGE_INSTALLER_CHECKPOINT_CLEAR_FAILED, None) else
  let metadata := metadata
    |> bm_set_state (state_word UPDATE_TRIAL_BOOT)
    |> bm_set_copy_offset 0
    |> bm_set_boot_attempts 0
    |> bm_set_last_error 0 in
  r <- CommitMetadata metadata ;;
  let '(status, metadata) := r in
  if bool_decide (status <> METADATA_STORAGE_OK)
  then ret (IMAGE_INSTALLER_TRIAL_TRANSITION_FAILED, None)
  else ret (IMAGE_INSTALLER_OK, Some metadata).

(** ** Rollback *)

Definition RollbackDiagnostic (metadata : BootMetadata_t) : Z :=
  if bm_state metadata =? state_word UPDATE_ROLLBACK then bm_last_error metadata
  else if BOOT_METADATA_MAX_BOOT_ATTEMPTS <=? bm_boot_attempts metadata
  then Z.lor IMAGE_INSTALLER_ROLLBACK_TRIAL_LIMIT_BASE (Z.land (bm_boot_attempts metadata) 0xFF)
  else if bm_state metadata =? state_word UPDATE_TRIAL_BOOT
  then IMAGE_INSTALLER_ROLLBACK_INVALID_TRIAL
  else IMAGE_INSTALLER_ROLLBACK_INSTALL_BASE.

Definition BeginRollback (metadata : BootMetadata_t) (diagnostic : Z) : M HW Step :=
  let metadata := metadata
    |> bm_set_state (state_word UPDATE_ROLLBACK)
    |> bm_set_copy_offset 0
    |> bm_set_last_error diagnostic in
  r <- CommitMetadata metadata ;;
  let '(status, metadata) := r in
  ret (if bool_decide (status <> METADATA_STORAGE_OK)
       then IMAGE_INSTALLER_METADATA_COMMIT_FAILED else IMAGE_INSTALLER_OK, metadata).

Definition ResumeRollbackCopy (metadata : BootMetadata_t) : M HW Step :=
  if bool_decide (InstallProgress_Validate APPLICATION_MAX_SIZE (bm_copy_offset metadata)
                  <> INSTALL_PROGRESS_VALID)
  then ret (IMAGE_INSTALLER_PROGRESS_INVALID, metadata) else
  CopyLoop APPLICATION_MAX_SIZE (InstallProgress_NextCheckpoint APPLICATION_MAX_SIZE)
    ProgramAndVerifyBackupPage false metadata.

Definition VerifyRolledBackApplication (backup : BackupImageRecord_t)
    : M HW ImageInstallerStatus_t :=
  VerifyApplication APPLICATION_MAX_SIZE (bk_image_crc32 backup)
    IMAGE_INSTALLER_ROLLBACK_VERIFY_FAILED IMAGE_INSTALLER_ROLLBACK_VERIFY_FAILED.

Definition FinalizeRollback (metadata : BootMetadata_t) (backup : BackupImageRecord_t)
    (diagnostic : Z) : M HW IResult :=
  _ignored <- DownloadCheckpointStorage_Clear ;;
  let metadata := metadata
    |> bm_set_state (state_word UPDATE_IDLE)
    |> bm_set_active_version (bk_active_version backup)
    |> bm_set_pending_version 0
    |> bm_set_active_update_id 0
    |> bm_set_received_size 0
    |> bm_set_expected_size 0
    |> bm_set_copy_offset 0
    |> bm_set_boot_attempts 0
    |> bm_set_last_error diagnostic in
  r <- CommitMetadata metadata ;;
  let '(status, metadata) := r in
  if bool_decide (status <> METADATA_STORAGE_OK)
  then ret (IMAGE_INSTALLER_FINALIZE_FAILED, None)
  else ret (IMAGE_INSTALLER_OK, Some metadata).

(** Mark the update failed and return the status. *)
Definition FailWith (metadata : BootMetadata_t) (mark status : ImageInstallerStatus_t)
    : M HW IResult :=
  BestEffortMarkFailed metadata mark ;; ret (status, None).

(** The entry of the rollback: a committed ROLLBACK state with a valid offset. *)
Definition EnterRollback (working : BootMetadata_t) (diagnostic : Z)
    : M HW (IResult + BootMetadata_t) :=
  if bm_state working <>? state_word UPDATE_ROLLBACK then
    r <- BeginRollback working diagnostic ;;
    let '(status, working) := r in
    if bool_decide (status <> IMAGE_INSTALLER_OK) then leave (ret (status, None)) else go working
  else if bool_decide (InstallProgress_Validate APPLICATION_MAX_SIZE (bm_copy_offset working)
                       <> INSTALL_PROGRESS_VALID)
  then leave (FailWith working IMAGE_INSTALLER_PROGRESS_INVALID IMAGE_INSTALLER_PROGRESS_INVALID)
  else go working.

(** Copy the backup, verify it and finish. *)
Definition RestoreBackup (working : BootMetadata_t) (backup : BackupImageRecord_t)
    (diagnostic : Z) : M HW IResult :=
  r <- ResumeRollbackCopy working ;;
  let '(status, working) := r in
  if bool_decide (status <> IMAGE_INSTALLER_OK) then FailWith working status status else
  status <- VerifyRolledBackApplication backup ;;
  if bool_decide (status <> IMAGE_INSTALLER_OK) then FailWith working status status else
  FinalizeRollback working backup diagnostic.

Definition ImageInstaller_ProcessRollback (metadata : option BootMetadata_t) : M HW IResult :=
  match metadata with
  | None => ret (IMAGE_INSTALLER_ROLLBACK_SOURCE_INVALID, None)
  | Some working =>
      ok <- ExternalFlashStorage_Init ;;
      if negb ok then ret (IMAGE_INSTALLER_EXTERNAL_FLASH_INIT_FAILED, None) else
      r <- ValidateBackupImage ;;
      match r with
      | inl _ => FailWith working IMAGE_INSTALLER_ROLLBACK_SOURCE_INVALID
                   IMAGE_INSTALLER_ROLLBACK_SOURCE_INVALID
      | inr backup =>
          let diagnostic := RollbackDiagnostic working in
          run_exit (
            working <-! EnterRollback working diagnostic ;;
            leave (RestoreBackup working backup diagnostic))
      end
  end.

Definition RollbackAfterInstallFailure (metadata : BootMetadata_t)
    (reason : ImageInstallerStatus_t) : M HW IResult :=
  let error := Z.lor IMAGE_INSTALLER_ROLLBACK_INSTALL_BASE
                 (Z.land (installer_status_word reason) 0xFF) in
  let metadata := bm_set_last_error error metadata in
  r <- BeginRollback metadata error ;;
  let '(status, metadata) := r in
  if bool_decide (status <> IMAGE_INSTALLER_OK)
  then ret (IMAGE_INSTALLER_METADATA_COMMIT_FAILED, None)
  else ImageInstaller_ProcessRollback (Some metadata).

(** ** The installation handler *)

(** A candidate that cannot be used: back to the running image before the
    backup is complete, rollback afterwards. *)
Definition RejectCandidate (internal_may_be_modified : bool) (working : BootMetadata_t)
    (status : ImageInstallerStatus_t) : M HW IResult :=
  if internal_may_be_modified then RollbackAfterInstallFailure working status
  else RevertToActiveImage working status.

(** From READY through a complete backup. *)
Definition BackUpPhase (working : BootMetadata_t) : M HW (IResult + BootMetadata_t) :=
  working <-! (
    if (bm_state working =? state_word UPDATE_ARTIFACT_READY)
       || (bm_state working =? state_word UPDATE_IMAGE_READY) then
      r <- BeginBackup working ;;
      let '(status, working) := r in
      if bool_decide (status <> IMAGE_INSTALLER_OK)
      then leave (FailWith working status status) else go working
    else go working) ;;
  if bm_state working =? state_word UPDATE_BACKING_UP then
    r <- ResumeBackup working ;;
    let '(status, working) := r in
    if bool_decide (status <> IMAGE_INSTALLER_OK)
    then leave (RevertToActiveImage working status) else go working
  else go working.

(** VERIFYING_INSTALL tries the verification first; INSTALLING resumes. *)
Definition EnterInstall (source : CandidateSource_t) (working : BootMetadata_t)
    : M HW (IResult + BootMetadata_t) :=
  if bm_state working =? state_word UPDATE_VERIFYING_INSTALL then
    status <- VerifyInstalledApplication source ;;
    if bool_decide (status = IMAGE_INSTALLER_OK) then leave (TransitionToTrialBoot working) else
    r <- BeginInstall working ;;
    let '(status, working) := r in
    if bool_decide (status <> IMAGE_INSTALLER_OK) then leave (ret (status, None)) else go working
  else if bm_state working =? state_word UPDATE_INSTALLING then
    if bool_decide (InstallProgress_Validate (cs_image_size source) (bm_copy_offset working)
                    <> INSTALL_PROGRESS_VALID)
    then leave (RollbackAfterInstallFailure working IMAGE_INSTALLER_PROGRESS_INVALID)
    else go working
  else leave (RollbackAfterInstallFailure working IMAGE_INSTALLER_HANDOFF_MISMATCH).

(** Copy, verify, hand over to the trial boot. *)
Definition InstallAndVerify (source : CandidateSource_t) (working : BootMetadata_t)
    : M HW IResult :=
  r <- ResumePageCheckpointedCopy source working ;;
  let '(status, working) := r in
  if bool_decide (status <> IMAGE_INSTALLER_OK)
  then if bool_decide (status = IMAGE_INSTALLER_METADATA_COMMIT_FAILED) then ret (status, None)
       else RollbackAfterInstallFailure working status
  else
  r <- TransitionToVerify working (cs_image_size source) ;;
  let '(status, working) := r in
  if bool_decide (status <> IMAGE_INSTALLER_OK) then ret (status, None) else
  status <- VerifyInstalledApplication source ;;
  if bool_decide (status <> IMAGE_INSTALLER_OK) then RollbackAfterInstallFailure working status
  else TransitionToTrialBoot working.

Definition ImageInstaller_ProcessBasicFull (metadata : option BootMetadata_t) : M HW IResult :=
  match metadata with
  | None => ret (IMAGE_INSTALLER_HANDOFF_MISMATCH, None)
  | Some working =>
      let internal_may_be_modified :=
        (bm_state working =? state_word UPDATE_INSTALLING)
        || (bm_state working =? state_word UPDATE_VERIFYING_INSTALL) in
      ok <- ExternalFlashStorage_Init ;;
      if negb ok then ret (IMAGE_INSTALLER_EXTERNAL_FLASH_INIT_FAILED, None) else
      r <- LoadCandidateSource working ;;
      match r with
      | inl status => RejectCandidate internal_may_be_modified working status
      | inr source =>
          status <- ValidateExternalSource source ;;
          if bool_decide (status <> IMAGE_INSTALLER_OK)
          then RejectCandidate internal_may_be_modified working status else
          run_exit (
            working <-! BackUpPhase working ;;
            r <- ValidateBackupImage ;;
            match r with
            | inl status => leave (FailWith working status status)
            | inr _ =>
                working <-! EnterInstall source working ;;
                leave (InstallAndVerify source working)
            end)
      end
  end.

End installer.
