(* ===== verification/CopySteps.v ===== *)
(** * CopySteps: the blocks the installer copies

    What one page programmed into the application region, and one sector
    copied into the backup, change and guarantee; and what the checksum loops
    of image_installer.c compute. *)

From S2P Require Import Prelude Bytes MemoryMap Crc32 AbRecord BootMetadata BackupImage.
From S2P Require Import FullImage.
From S2P Require Import Progress FirmwareContainer Device Logic MetadataStorage.
From S2P Require Import ApplicationJump.
From S2P Require Import TrialBoot SpiFlash ExternalFlashStorage AbStorage SectorRecords.
From S2P Require Import BackupImageStorage ChipIdle Recovery Chunks DeltaEngine.
From S2P Require Import SecureContainer.
From S2P Require Import ImageInstaller.

Section copy_steps.
Context {HW : Hw} {Key : TrustedKey} {Delta : DeltaEngine}.
Implicit Types w : World HW.

(** ** One page of the application region *)

(** The flash page of an application offset. *)
Definition app_page (off a : Z) : Prop :=
  APPLICATION_START_ADDRESS + off <= a < APPLICATION_START_ADDRESS + off + INTERNAL_FLASH_PAGE_SIZE.

(** An offset the copy loops use: a page of the region. *)
Definition page_offset_ok (off : Z) : Prop :=
  0 <= off /\ off mod INTERNAL_FLASH_PAGE_SIZE = 0 /\
  off + INTERNAL_FLASH_PAGE_SIZE <= APPLICATION_MAX_SIZE.

Lemma app_page_in off a : page_offset_ok off -> app_page off a -> in_application a.
Proof. unfold page_offset_ok, app_page. intros. map_lia. Qed.

Lemma app_page_div off a : page_offset_ok off ->
  a / INTERNAL_FLASH_PAGE_SIZE = (APPLICATION_START_ADDRESS + off) / INTERNAL_FLASH_PAGE_SIZE ->
  app_page off a.
Proof.
  intros (Ho & Hm & _) Hd. unfold app_page.
  pose proof (Z.div_mod a INTERNAL_FLASH_PAGE_SIZE ltac:(done)) as Ha.
  pose proof (Z.div_mod (APPLICATION_START_ADDRESS + off) INTERNAL_FLASH_PAGE_SIZE ltac:(done)) as Hb.
  pose proof (Z.mod_pos_bound a INTERNAL_FLASH_PAGE_SIZE ltac:(done)).
  assert ((APPLICATION_START_ADDRESS + off) mod INTERNAL_FLASH_PAGE_SIZE = 0) as Hz.
  { rewrite <- Z.add_mod_idemp_l by done.
    change (APPLICATION_START_ADDRESS mod INTERNAL_FLASH_PAGE_SIZE) with 0. by rewrite Z.add_0_l. }
  rewrite Hd in Ha. lia.
Qed.

Lemma modifies_ProgramPageHalfWords off page n :
  page_offset_ok off -> 0 <= n <= INTERNAL_FLASH_PAGE_SIZE ->
  modifies nowhere (app_page off) (ProgramPageHalfWords off page n).
Proof.
  intros Ho Hn. unfold ProgramPageHalfWords.
  apply (modifies_loop _ _ (fun i => 0 <= i /\ i mod 2 = 0) (fun i => Z.max 0 (n + 1 - i)));
    [|done|lia].
  intros i w [Hi Hp] _. destruct (Z.ltb_spec i n) as [Hlt|Hge].
  - cbv zeta. apply wp_bind.
    assert (i + 1 < INTERNAL_FLASH_PAGE_SIZE).
    { destruct (Z.eq_dec (i + 1) INTERNAL_FLASH_PAGE_SIZE) as [He|]; [|map_lia].
      exfalso. assert (i = 1023) as -> by map_lia. discriminate Hp. }
    eapply wp_mono; [apply modifies_program_half_word| |done].
    { unfold app_page. map_lia. }
    { unfold app_page. map_lia. }
    intros st w1 Hf. case_if; apply wp_ret; (split; [exact Hf|]); [done|].
    split; [|lia]. split; [lia|]. rewrite <- Z.add_mod_idemp_l, Hp by done. done.
  - apply wp_ret. split; [apply frame_refl|done].
Qed.

(** A page reported OK holds the buffer. *)
Lemma triple_ProgramPage off page n :
  page_offset_ok off -> n = len page -> n <= INTERNAL_FLASH_PAGE_SIZE ->
  triple nowhere (app_page off) (fun _ => True) (ProgramBufferedApplicationPage off page n)
    (fun st w => (st = IMAGE_INSTALLER_OK -> app_slice (w_hw w) off n = page) /\
                 st <> IMAGE_INSTALLER_SOURCE_REJECTED).
Proof.
  intros Ho Hn Hmax. unfold ProgramBufferedApplicationPage.
  assert (Hm : forall {A B} (m : M HW A) (k : A -> M HW B) Q, modifies nowhere (app_page off) m ->
    (forall a, triple nowhere (app_page off) (fun _ => True) (k a) Q) ->
    triple nowhere (app_page off) (fun _ => True) (bind m k) Q).
  { intros A B m k Q H1 H2. by eapply triple_bind; [apply modifies_triple|]. }
  apply Hm; [auto with ota|intros primask]. apply Hm; [unfold disable_irq; auto with ota|intros _].
  apply Hm; [unfold FLASH_Unlock; auto with ota|intros _].
  apply Hm; [apply modifies_erase_page; intros a; by apply app_page_div|intros st].
  apply triple_if; intros _.
  { apply Hm; [unfold FLASH_Lock; auto with ota|intros _].
    apply Hm; [auto with ota|intros _]. apply triple_ret. by split. }
  apply Hm; [apply modifies_ProgramPageHalfWords; [done|lia]|intros ok].
  apply Hm; [unfold FLASH_Lock; auto with ota|intros _]. apply Hm; [auto with ota|intros _].
  apply triple_if; intros _; [apply triple_ret; by split|].
  eapply triple_bind; [apply (triple_flash_read _ _ (fun _ => True))|]. intros bs.
  apply triple_ret. intros w [_ Hbs]. rewrite take_ge by lia.
  destruct (bool_decide_reflect (bs = page)) as [->|]; [|done]. split; [|done]. intros _. by rewrite Hbs.
Qed.

(** ** One sector of the backup *)

(** The backup sector of an image offset. *)
Definition backup_sector (off a : Z) : Prop :=
  BACKUP_DATA_ADDRESS + off <= a < BACKUP_DATA_ADDRESS + off + EXT_FLASH_SECTOR_SIZE
  /\ in_backup_data a.

(** The internal flash is the one of [h0]. *)
Definition flash_as (h0 h : hw) : Prop := forall a, flash h a = flash h0 a.

Lemma flash_as_slice h0 h off n : flash_as h0 h -> app_slice h off n = app_slice h0 off n.
Proof. intros H. apply flash_slice_ext. intros. apply H. Qed.

(** A call that leaves the internal flash alone. *)
Lemma triple_flash_as {A} N h0 (m : M HW A) Q :
  triple N nowhere (fun _ => True) m Q ->
  triple N nowhere (fun w => flash_as h0 (w_hw w)) m (fun a w => flash_as h0 (w_hw w) /\ Q a w).
Proof.
  intros H. eapply triple_conseq; [apply (triple_stable _ _ (flash_as h0)); [|exact H]|done..| |].
  - intros h h' [_ Hf] Hh a. rewrite Hf; [apply Hh|intros []].
  - intros w Hw. by split.
  - intros a w []. by split.
Qed.

Lemma backup_prefix_stable off n m d :
  0 <= n -> 0 <= m ->
  stable (fun a => BACKUP_DATA_ADDRESS + (off + n) <= a < BACKUP_DATA_ADDRESS + (off + n) + m /\
                   in_backup_data a) nowhere (fun h => backup_slice h off n = d).
Proof.
  intros Hn Hm h h' Hf <-. eapply backup_slice_frame; [exact Hf|]. intros a Ha [Hb _]. lia.
Qed.

Lemma triple_copy_piece h0 off n m (next : Z) :
  0 <= off -> 0 <= n -> 0 <= m -> off + n + m <= APPLICATION_MAX_SIZE ->
  n + m <= EXT_FLASH_SECTOR_SIZE ->
  triple (backup_sector off) nowhere
    (fun w => flash_as h0 (w_hw w) /\ backup_slice (w_hw w) off n = app_slice h0 off n)
    (page <- flash_read (APPLICATION_START_ADDRESS + off + n) m ;;
     ok <- BackupImageStorage_Write (u32 (off + n)) (Some page) m ;;
     if negb ok then ret (inr IMAGE_INSTALLER_BACKUP_WRITE_FAILED) else
     ok <- BackupImageStorage_Verify (u32 (off + n)) (Some page) m ;;
     if negb ok then ret (inr IMAGE_INSTALLER_BACKUP_VERIFY_FAILED) else ret (inl next))
    (fun x w => match x with
       | inl s => s = next /\ flash_as h0 (w_hw w) /\
           backup_slice (w_hw w) off (n + m) = app_slice h0 off (n + m)
       | inr st => st <> IMAGE_INSTALLER_OK /\ st <> IMAGE_INSTALLER_SOURCE_REJECTED
       end).
Proof.
  intros Ho Hn Hm Hmax Hsec. rewrite u32_small by (unfold is_u32; map_lia).
  eapply triple_bind; [apply triple_flash_read|]. intros page. cbv beta.
  set (P := fun w => flash_as h0 (w_hw w) /\ backup_slice (w_hw w) off n = app_slice h0 off n).
  apply (triple_pure _ _ _ (page = app_slice h0 (off + n) m)).
  { intros w [[Hf _] ->]. rewrite <- (flash_as_slice _ _ _ _ Hf). unfold app_slice, flash_slice.
    by rewrite Z.add_assoc. }
  intros ->. eapply triple_pre; [|intros w [Hw _]; exact Hw]. fold P.
  assert (len (app_slice h0 (off + n) m) = m) as Hl by by apply app_slice_length.
  eapply (triple_bind _ _ _ _ (fun _ => P)).
  { eapply triple_conseq.
    - apply (triple_stable _ _ (fun h => backup_slice h off n = app_slice h0 off n)).
      { apply backup_prefix_stable with (m := m); done. }
      apply triple_flash_as. apply triple_Backup_Write; [lia|done].
    - intros a [Ha Hb]. split; [lia|done].
    - done.
    - intros w Hw. exact Hw.
    - intros ok w [[Hf _] Hb]. by split. }
  intros ok. apply triple_if; intros _; [by apply triple_ret|].
  eapply triple_bind.
  { eapply triple_conseq.
    - apply (triple_stable nowhere nowhere (fun h => backup_slice h off n = app_slice h0 off n)).
      { intros h h' Hf <-. eapply backup_slice_frame; [exact Hf|]. by intros a _ []. }
      apply triple_flash_as. apply (triple_Backup_Verify (off + n)); [lia|symmetry; exact Hl].
    - intros a [].
    - intros a [].
    - intros w Hw. exact Hw.
    - intros ok' w Hw. exact Hw. }
  intros ok'. apply triple_if; intros Hok'; apply triple_ret; intros w [[Hf Hv] Hb]; [done|].
  split; [done|]. split; [done|]. apply negb_false_iff in Hok'. destruct (Hv Hok') as [_ Hv'].
  by rewrite backup_slice_app, app_slice_app, Hb, Hv' by done.
Qed.

(** A chunk reported OK is the running image's. *)
Lemma triple_CopyChunk h0 off n :
  0 <= off -> 0 <= n <= EXT_FLASH_SECTOR_SIZE -> off + n <= APPLICATION_MAX_SIZE ->
  triple (backup_sector off) nowhere (fun w => flash_as h0 (w_hw w))
    (CopyActiveImageToBackupChunk off n)
    (fun st w => (st = IMAGE_INSTALLER_OK -> backup_slice (w_hw w) off n = app_slice h0 off n) /\
                 st <> IMAGE_INSTALLER_SOURCE_REJECTED).
Proof.
  intros Ho Hn Hmax. unfold CopyActiveImageToBackupChunk.
  eapply triple_bind; [apply triple_flash_as, triple_Backup_EraseSector; lia|]. intros ok. cbv beta.
  apply triple_if; intros _; [by apply triple_ret|].
  set (I := fun (copied : Z) w => 0 <= copied <= n /\ flash_as h0 (w_hw w) /\
    backup_slice (w_hw w) off copied = app_slice h0 off copied).
  apply (triple_pre _ _ (I 0)).
  2: { intros w [Hf _]. split_and!; [lia..|done|done]. }
  apply (triple_loop _ _ I (fun c => n - Z.max 0 (Z.min c n))); [|lia]. intros copied _.
  apply (triple_pure _ _ _ (0 <= copied <= n)); [by intros w []|]. intros Hc.
  destruct (Z.ltb_spec copied n) as [Hlt|Hge].
  - cbv zeta. rewrite (u32_small (n - copied)) by (unfold is_u32; map_lia).
    set (m := if INTERNAL_FLASH_PAGE_SIZE <? n - copied then INTERNAL_FLASH_PAGE_SIZE else n - copied).
    assert (0 < m /\ copied + m <= n)
      by (unfold m; destruct (Z.ltb_spec INTERNAL_FLASH_PAGE_SIZE (n - copied)); map_lia).
    clearbody m. rewrite (u32_small (copied + m)) by (unfold is_u32; map_lia).
    eapply triple_conseq; [apply (triple_copy_piece h0 off copied m (copied + m)); lia|done|done| |].
    + intros w (_ & Hf & Hb). by split.
    + intros [s|st] w; [|by intros [Hst ?]]. intros (-> & Hf & Hb).
      split; [|lia]. split_and!; [lia..|done|done].
  - apply triple_ret. intros w (_ & Hf & Hb). split; [intros _|done]. replace n with copied by lia. done.
Qed.

(** ** Checksums *)

Lemma triple_CalculateBackupCrc :
  triple nowhere nowhere (fun _ => True) CalculateBackupCrc
    (fun r w => forall crc, r = Some crc ->
       crc = crc_of (backup_slice (w_hw w) 0 APPLICATION_MAX_SIZE)).
Proof.
  apply (triple_fix _ _ (fun r h => forall crc, r = Some crc ->
    crc = crc_of (backup_slice h 0 APPLICATION_MAX_SIZE))).
  { intros r h h' Hf H crc Hr. rewrite (H crc Hr). apply (f_equal crc_of). symmetry.
    eapply backup_slice_frame; [exact Hf|]. by intros a _ []. }
  intros h0. eapply triple_conseq; [apply (still_CrcChunks h0 _ _ _
    (backup_slice h0 0 APPLICATION_MAX_SIZE)); [done|by vm_compute|by apply backup_slice_length|]|
    done|done| |].
  - intros off m Ho Hm Hr. eapply triple_post; [apply triple_still, triple_Backup_Read; done|].
    intros r w [Hw Hb]. split; [done|]. intros bs ->. destruct (Hb bs eq_refl) as [_ ->].
    unfold backup_slice. rewrite still_nor_slice with (h0 := h0) by done.
    rewrite slice_nor_slice by done. f_equal; lia.
  - by intros w [].
  - by intros r w [].
Qed.

Lemma triple_CalculateInternalCrc n :
  0 <= n <= APPLICATION_MAX_SIZE ->
  triple nowhere nowhere (fun _ => True) (CalculateInternalCrc n)
    (fun crc w => crc = crc_of (app_slice (w_hw w) 0 n)).
Proof.
  intros Hn. unfold CalculateInternalCrc, app_slice.
  triple_step (triple_CrcChunks_flash INSTALL_CRC_BUFFER_SIZE (APPLICATION_START_ADDRESS + 0)
    (fun off => APPLICATION_START_ADDRESS + off)); [done|unfold is_u32; map_lia|lia|done|].
  intros r. apply triple_ret. by intros w ->.
Qed.

(** What validating the backup answers. *)
Definition backup_validated (r : ImageInstallerStatus_t + BackupImageRecord_t) (h : hw) : Prop :=
  match r with
  | inl st => st <> IMAGE_INSTALLER_OK /\ st <> IMAGE_INSTALLER_SOURCE_REJECTED
  | inr record => record = backup_header_at h /\ BackupImage_validb record = true /\
      bk_image_crc32 record = crc_of (backup_slice h 0 APPLICATION_MAX_SIZE)
  end.

Lemma triple_ValidateBackupImage :
  triple nowhere nowhere (fun _ => True) ValidateBackupImage
    (fun r w => backup_validated r (w_hw w)).
Proof.
  apply (triple_fix _ _ backup_validated).
  { intros [st|record] h h' Hf H; [exact H|]. destruct H as (-> & Hv & Hc).
    assert (backup_header_at h' = backup_header_at h) as Hh.
    { unfold backup_header_at. f_equal. eapply nor_slice_frame; [exact Hf|]. by intros a _ []. }
    split; [by symmetry|]. split; [exact Hv|]. rewrite Hc. apply (f_equal crc_of). symmetry.
    eapply backup_slice_frame; [exact Hf|]. by intros a _ []. }
  intros h0. unfold ValidateBackupImage.
  triple_step (triple_still_pre h0); [apply triple_Backup_LoadHeader|done|].
  intros [st r]. destruct st; try (by apply triple_ret). destruct r as [record|]; [|by apply triple_ret].
  apply (triple_pure _ _ _ (record = backup_header_at h0 /\ BackupImage_validb record = true)).
  { intros w [Hw Hr]. destruct (Hr eq_refl) as [[= ->] Hv].
    assert (backup_header_at (w_hw w) = backup_header_at h0) as <-; [|done].
    unfold backup_header_at. f_equal. by apply still_nor_slice. }
  intros [-> Hv]. eapply triple_bind.
  { eapply triple_pre; [apply (triple_still_pre h0), triple_CalculateBackupCrc|]. by intros w []. }
  intros [crc|]; [|by apply triple_ret]. apply triple_if; intros E; [by apply triple_ret|].
  to_prop. apply triple_ret. intros w [Hw Hc]. split; [reflexivity|]. split; [exact Hv|].
  rewrite <- E, (Hc crc eq_refl). apply (f_equal crc_of). by apply still_nor_slice.
Qed.

(** ** The candidate *)

(** A source taken from an authenticated container. *)
Record Candidate (m : BootMetadata_t) (source : CandidateSource_t)
    (info : FirmwareContainerInfo_t) (h : hw) : Prop := {
  ca_authenticated : Authenticated h info;
  ca_partition : cs_partition source = EXTERNAL_FLASH_PARTITION_RECONSTRUCTED;
  ca_version : bm_pending_version m = fw_target_version (fi_header info);
  ca_size : cs_image_size source = fw_target_image_size (fi_header info);
  ca_crc : cs_image_crc32 source = fx_target_image_crc32 (fi_extension info);
  ca_base : cs_is_delta source = true ->
    bm_active_version m = fw_base_version (fi_header info)
}.

Lemma triple_LoadCandidateSource m :
  triple nowhere nowhere (fun w => idle (w_hw w)) (LoadCandidateSource m)
    (fun r w => forall source, r = inr source -> exists info, Candidate m source info (w_hw w)).
Proof.
  unfold LoadCandidateSource. eapply triple_bind.
  { eapply triple_pre; [eapply triple_idle; [apply keeps_Storage_Read|by apply triple_Storage_Read]|].
    intros w Hw. by split. }
  intros [first_word|]; [|by apply triple_ret]. apply triple_if; intros _; [|by apply triple_ret].
  eapply triple_bind; [eapply triple_pre; [apply triple_LoadVerifiedInfo|by intros w []]|].
  intros [st|info]; [by apply triple_ret|]. cbv zeta.
  apply triple_if; intros E1; [by apply triple_ret|]. apply triple_if; intros E2; [by apply triple_ret|].
  apply triple_ret. intros w H source [= <-]. exists info. destruct (H info eq_refl) as [Hau _].
  to_prop. split; try done. cbn [cs_is_delta]. intros Ht. rewrite Ht, andb_true_l in E2.
  by apply negb_false_iff, Z.eqb_eq in E2.
Qed.

(** An accepted source has the expected checksum and a runnable vector. *)
Definition source_valid (source : CandidateSource_t) (h : hw) : Prop :=
  let base := part_base (cs_partition source) in
  crc_of (nor_slice h base (cs_image_size source)) = cs_image_crc32 source /\
  FullImage_ValidateVector (cs_image_size source) (GetU32Le (nor_slice h base 8))
    (GetU32Le (drop 4 (nor_slice h base 8))) = FULL_IMAGE_VALID.

Lemma triple_ValidateExternalSource source :
  is_u32 (cs_image_size source) ->
  triple nowhere nowhere (fun _ => True) (ValidateExternalSource source)
    (fun st w => st = IMAGE_INSTALLER_OK -> source_valid source (w_hw w)).
Proof.
  intros Hn. set (base := part_base (cs_partition source)).
  apply (triple_fix _ _ (fun st h => st = IMAGE_INSTALLER_OK -> source_valid source h)).
  { intros st h h' Hf H Hst. destruct (H Hst) as [H1 H2].
    assert (Hs : forall a n, nor_slice h' a n = nor_slice h a n).
    { intros a n. eapply nor_slice_frame; [exact Hf|]. by intros i _ []. }
    unfold source_valid. cbv zeta. rewrite !Hs. by split. }
  intros h0. unfold ValidateExternalSource.
  eapply triple_bind.
  { eapply triple_pre; [by apply (still_Storage_Read h0)|]. by intros w []. }
  intros [v|]; [|by apply triple_ret]. apply triple_if; intros Hv; [by apply triple_ret|].
  apply bool_decide_eq_false, dec_stable in Hv.
  apply (triple_pure _ _ _ (v = nor_slice h0 base 8)).
  { intros w [_ Hb]. destruct (Hb v eq_refl) as [_ ->]. unfold base. by rewrite Z.add_0_r. }
  intros ->. unfold is_u32 in Hn. eapply triple_bind.
  { eapply triple_pre; [apply (still_CrcChunks h0 _ _ _ (nor_slice h0 base (cs_image_size source)));
      [done|done|apply nor_slice_length; lia|]|by intros w []].
    intros off m Ho Hm Hr. eapply triple_post; [by apply still_Storage_Read|].
    cbv beta. intros r w [Hw Hb]. split; [done|]. intros bs Hbs. destruct (Hb bs Hbs) as [_ ->].
    by rewrite slice_nor_slice. }
  intros [crc|]; [|by apply triple_ret]. apply triple_ret. intros w [_ Hc].
  destruct (Z.eqb_spec crc (cs_image_crc32 source)) as [He|]; [|done]. intros _.
  split; [|exact Hv]. exact (eq_trans (eq_sym (Hc crc eq_refl)) He).
Qed.

Lemma keeps_ValidateExternalSource source : keeps (ValidateExternalSource source).
Proof.
  unfold ValidateExternalSource, CalculateExternalCrc, CrcChunks, ReadChunks. keeps_auto.
Qed.

Lemma keeps_LoadVerifiedInfo n : keeps (SecureContainer_LoadVerifiedInfo n).
Proof.
  unfold SecureContainer_LoadVerifiedInfo, ReadHeader, HashAndCrcPayload, ReadChunks. keeps_auto.
Qed.

Lemma keeps_LoadCandidateSource m : keeps (LoadCandidateSource m).
Proof.
  unfold LoadCandidateSource. apply keeps_bind; [auto with ota|]. intros [v|]; [|apply keeps_ret].
  destruct (_ =? _); [|apply keeps_ret]. apply keeps_bind; [apply keeps_LoadVerifiedInfo|].
  intros [st|info]; keeps_auto.
Qed.

End copy_steps.
