(* ===== verification/InstallSafety.v ===== *)
(** * InstallSafety: the installer never loses the image it replaces

    [ImageInstaller_ProcessBasicFull] and [ImageInstaller_ProcessRollback] keep
    [safe] wherever they stop, write only the memories they own, and report
    success only with a verified candidate under trial or the old image
    restored.  The proof follows the handlers: a lemma per function, one lemma
    for the three checkpointed copy loops. *)

From S2P Require Import Prelude Bytes MemoryMap Crc32 AbRecord BootMetadata BackupImage.
From S2P Require Import FullImage.
From S2P Require Import Progress FirmwareContainer Device Logic MetadataStorage.
From S2P Require Import ApplicationJump.
From S2P Require Import TrialBoot SpiFlash ExternalFlashStorage AbStorage SectorRecords.
From S2P Require Import BackupImageStorage ChipIdle Recovery Chunks DeltaEngine.
From S2P Require Import SecureContainer.
From S2P Require Import ImageInstaller.
From S2P Require Import CopySteps.

Section install_safety.
Context {HW : Hw} {Key : TrustedKey} {Delta : DeltaEngine}.
Context (Herase : erases_detected).
(** The image that was running, and the memories the handler started from. *)
Context (orig : Image) (h0 : hw).
Implicit Types w : World HW.

(** ** What the installer may write *)

Definition install_nor (a : Z) : Prop :=
  in_ext_metadata a \/ EXT_BACKUP_ADDRESS <= a < EXT_BACKUP_ADDRESS + EXT_BACKUP_SIZE.
Definition install_flash (a : Z) : Prop := in_application a \/ in_boot_metadata a.

(** The condition at every stop. *)
Definition ok (h : hw) : Prop := safe orig h /\ frame install_nor install_flash h0 h.

(** A record that names the running image's version. *)
Definition mine (m : BootMetadata_t) : Prop := bm_active_version m = im_version orig.

Lemma mine_update m r : same_update m r -> mine m -> mine r.
Proof. intros [H _ _]. unfold mine. congruence. Qed.

Lemma mine_request m r : same_request m r -> mine m -> mine r.
Proof. intros [_ H _ _ _ _ _ _ _]. unfold mine. congruence. Qed.

(** Every state's guarantee survives. *)
Definition images_kept (h h' : hw) : Prop :=
  forall s off, 0 <= off -> phase_ok orig h s off -> phase_ok orig h' s off.

Lemma frame_images N F h h' : frame N F h h' -> off_app F -> off_backup N -> images_kept h h'.
Proof. intros Hf HF HN s off Ho. by eapply phase_frame. Qed.

Lemma images_app h h' : images_kept h h' -> app_is orig h -> app_is orig h'.
Proof. intros H. by apply (H UPDATE_IDLE 0). Qed.

Lemma images_holds h h' : images_kept h h' -> holds orig h -> holds orig h'.
Proof. intros H. by apply (H UPDATE_INSTALLING 0). Qed.

Lemma ok_frame N F h h' :
  (forall a, N a -> in_ext_metadata a) -> (forall a, ~ F a) -> frame N F h h' -> ok h -> ok h'.
Proof.
  intros HN HF Hf [Hs Hi]. split.
  - eapply safe_frame; [exact Hf|intros a _; apply HF| |intros a _; apply HF|exact Hs].
    intros a Ha Hn. exact (ext_metadata_off_backup a (HN _ Hn) Ha).
  - eapply frame_trans; [exact Hi|]. eapply frame_mono; [| |exact Hf]; [|intros a Ha; by destruct (HF a)].
    intros a Ha. left. by apply HN.
Qed.

Lemma read_ok h h' : frame nowhere nowhere h h' -> ok h -> ok h'.
Proof. intros. eapply ok_frame; [..|done|done]; [intros a []|intros a []]. Qed.

(** Between two calls: the memories are fine and the chip is deselected. *)
Definition run w : Prop := ok (w_hw w) /\ idle (w_hw w).

(** ** Calls *)

Lemma wp_keeps {A} (m : M HW A) Q C w :
  keeps m -> idle (w_hw w) -> wp m Q C w ->
  wp m (fun a w' => Q a w' /\ idle (w_hw w')) C w.
Proof.
  intros Hk Hi. specialize (Hk w Hi). unfold wp in *. by destruct (m w) as [w' [a| |]].
Qed.

Lemma wp_read {A} (m : M HW A) Q w (R : A -> World HW -> Prop) :
  keeps m -> triple nowhere nowhere (fun w => idle (w_hw w)) m Q -> run w ->
  (forall a w', frame nowhere nowhere (w_hw w) (w_hw w') -> run w' ->
     images_kept (w_hw w) (w_hw w') -> Q a w' -> R a w') ->
  wp m R ok w.
Proof.
  intros Hk Hm [Hok Hi] HR. eapply wp_mono; [apply wp_keeps; [done..|by apply Hm]| |].
  - intros a w' [[Hf HQ] Hi']. apply HR; [done|split; [by eapply read_ok|done]| |done].
    by eapply frame_images; [|apply nowhere_off_app|apply nowhere_off_backup].
  - intros h Hf. by eapply read_ok.
Qed.

(** Clearing the download checkpoint. *)
Lemma wp_Clear w (R : AbStorageStatus -> World HW -> Prop) :
  run w ->
  (forall a w', run w' -> images_kept (w_hw w) (w_hw w') ->
     frame in_ext_metadata nowhere (w_hw w) (w_hw w') -> R a w') ->
  wp DownloadCheckpointStorage_Clear R ok w.
Proof.
  intros [Hok Hi] HR.
  eapply wp_mono; [apply wp_keeps; [apply keeps_Clear|done|by apply triple_Clear]| |].
  - intros a w' [[Hf _] Hi']. apply HR.
    { split; [|done]. by eapply ok_frame; [| |exact Hf|exact Hok]; [|intros ? []]. }
    { eapply frame_images; [exact Hf|apply nowhere_off_app|].
      intros b Hb Hn. exact (ext_metadata_off_backup b Hn Hb). }
    exact Hf.
  - intros h Hf. by eapply ok_frame; [| |exact Hf|exact Hok]; [|intros ? []].
Qed.

Lemma keeps_CommitMetadata m : keeps (CommitMetadata m).
Proof. unfold CommitMetadata. apply keeps_bind; [apply keeps_MetadataStorage_Commit|]. keeps_auto. Qed.

(** What a commit leaves. *)
Definition committed m (st : MetadataStorageStatus_t) (m' : BootMetadata_t) w w' : Prop :=
  run w' /\ images_kept (w_hw w) (w_hw w') /\
  frame nowhere in_boot_metadata (w_hw w) (w_hw w') /\ rec_wf m' /\ same_request m m' /\
  (st = METADATA_STORAGE_OK -> current_metadata (w_hw w') = Some m').

(** The commit of a state whose guarantee holds. *)
Lemma wp_commit_state m s w :
  rec_wf m -> mine m -> bm_state m = state_word s -> phase_ok orig (w_hw w) s (bm_copy_offset m) ->
  run w ->
  wp (CommitMetadata m) (fun '(st, m') w' => committed m st m' w w') ok w.
Proof using Herase.
  intros Hwf Hv Hs Hp [[Hsafe Hi] Hidle].
  assert (Hacc : accounted orig m (w_hw w)) by (split; [done|by exists s]).
  assert (Hin : forall h, frame nowhere in_boot_metadata (w_hw w) h ->
    frame install_nor install_flash h0 h).
  { intros h Hf. eapply frame_trans; [exact Hi|].
    eapply frame_mono; [| |exact Hf]; [intros a []|intros a Ha; by right]. }
  assert (Hmod : modifies nowhere in_boot_metadata (CommitMetadata m)).
  { unfold CommitMetadata. apply modifies_bind; [apply modifies_Commit|].
    intros [[st c] slot]. case_if; apply modifies_ret. }
  eapply wp_mono; [apply wp_keeps; [apply keeps_CommitMetadata|done|];
    apply wp_and; [by apply (wp_CommitMetadata Herase orig)|apply Hmod]| |].
  - intros [st m'] w' [[(Hf & Hs' & Hwf' & Hsr & Hok & _) _] Hi']. unfold committed.
    split; [split; [split; [exact Hs'|by apply Hin]|exact Hi']|].
    split; [|split; [exact Hf|split; [exact Hwf'|split; [exact Hsr|exact Hok]]]].
    eapply frame_images; [exact Hf|apply boot_metadata_off_app|apply nowhere_off_backup].
  - intros h [Hs' Hf]. split; [exact Hs'|by apply Hin].
Qed.

(** A commit at the end of a step. *)
Lemma wp_commit_step m s w :
  rec_wf m -> mine m -> bm_state m = state_word s -> phase_ok orig (w_hw w) s (bm_copy_offset m) ->
  run w ->
  wp (r <- CommitMetadata m ;;
      let '(status, metadata) := r in
      ret (if bool_decide (status <> METADATA_STORAGE_OK)
           then IMAGE_INSTALLER_METADATA_COMMIT_FAILED else IMAGE_INSTALLER_OK, metadata))
    (fun '(st, m') w' => exists st0, committed m st0 m' w w' /\
       (st = IMAGE_INSTALLER_OK /\ st0 = METADATA_STORAGE_OK \/
        st = IMAGE_INSTALLER_METADATA_COMMIT_FAILED)) ok w.
Proof using Herase.
  intros Hwf Hv Hs Hp Hr. apply wp_bind. eapply wp_mono; [by apply (wp_commit_state m s)| |done].
  intros [st m'] w' Hc. apply wp_ret. exists st. split; [exact Hc|].
  destruct (bool_decide_reflect (st <> METADATA_STORAGE_OK)) as [|He]; [by right|left].
  split; [done|by apply dec_stable].
Qed.

(** A call that writes an image, in a state whose guarantee it keeps. *)
Lemma wp_write {A} N F P (m : M HW A) Q s meta w (R : A -> World HW -> Prop) :
  keeps m -> triple N F P m Q -> P w -> run w ->
  current_metadata (w_hw w) = Some meta -> mine meta -> bm_state meta = state_word s ->
  (forall a, N a -> EXT_BACKUP_ADDRESS <= a < EXT_BACKUP_ADDRESS + EXT_BACKUP_SIZE) ->
  (forall a, F a -> in_application a) ->
  (forall h, frame N F (w_hw w) h -> phase_ok orig h s (bm_copy_offset meta)) ->
  (forall a w', frame N F (w_hw w) (w_hw w') -> run w' ->
     current_metadata (w_hw w') = Some meta -> Q a w' -> R a w') ->
  wp m R ok w.
Proof.
  intros Hk Hm HP [[Hsafe Hi] Hidle] Hcur Hv Hst HN HF Hkeep HR.
  assert (Hoff : off_metadata F).
  { intros a Ha Hf. exact (application_metadata_disjoint a (HF a Hf) Ha). }
  assert (Hok : forall h, frame N F (w_hw w) h -> ok h /\ current_metadata h = Some meta).
  { intros h Hf. pose proof (current_metadata_frame _ _ _ _ Hf Hoff) as Hc. rewrite Hcur in Hc.
    split; [|exact Hc]. split.
    - unfold safe. rewrite Hc. split; [done|]. exists s. auto.
    - eapply frame_trans; [exact Hi|].
      eapply frame_mono; [| |exact Hf]; [intros a Ha; right; by apply HN|intros a Ha; left; by apply HF]. }
  eapply wp_mono; [apply wp_keeps; [done..|by apply Hm]| |].
  - intros a w' [[Hf HQ] Hi']. destruct (Hok _ Hf). apply HR; [done|by split|done|done].
  - intros h Hf. by apply Hok.
Qed.

(** ** How a handler ends *)

(** Success with [good]; rejection with the running image untouched. *)
Definition handled (good : BootMetadata_t -> hw -> Prop)
    (x : ImageInstallerStatus_t * option BootMetadata_t) w : Prop :=
  run w /\
  (fst x = IMAGE_INSTALLER_OK ->
     exists c, snd x = Some c /\ current_metadata (w_hw w) = Some c /\ good c (w_hw w)) /\
  (fst x = IMAGE_INSTALLER_SOURCE_REJECTED ->
     exists c, snd x = Some c /\ current_metadata (w_hw w) = Some c /\
       bm_state c = state_word UPDATE_IDLE /\ mine c /\
       app_is orig (w_hw w)).

(** The old image is back and marked as the active one. *)
Record Restored (c : BootMetadata_t) (h : hw) : Prop := {
  re_state : bm_state c = state_word UPDATE_IDLE;
  re_pending : bm_pending_version c = 0;
  re_version : mine c;
  re_image : app_is orig h
}.

Lemma handled_mono (good good' : BootMetadata_t -> hw -> Prop) x w :
  (forall c, ok (w_hw w) -> good c (w_hw w) -> good' c (w_hw w)) ->
  handled good x w -> handled good' x w.
Proof.
  intros Hg (Hr & Hok & Hrej). split; [exact Hr|]. split; [|exact Hrej].
  intros Hx. destruct (Hok Hx) as (c & H1 & H2 & H3). exists c.
  split; [exact H1|]. split; [exact H2|]. apply Hg; [apply Hr|exact H3].
Qed.

Lemma handled_error good st r w :
  st <> IMAGE_INSTALLER_OK -> st <> IMAGE_INSTALLER_SOURCE_REJECTED -> run w ->
  handled good (st, r) w.
Proof. intros H1 H2 Hr. split; [exact Hr|]. split; intros Hx; by exfalso. Qed.

Lemma error_u32 reason : is_u32 (InstallerError reason).
Proof. by destruct reason; vm_compute. Qed.

(** Marking the update failed needs either image. *)
Lemma wp_FailWith good m mark st w :
  rec_wf m -> mine m -> app_is orig (w_hw w) \/ holds orig (w_hw w) -> run w ->
  st <> IMAGE_INSTALLER_OK -> st <> IMAGE_INSTALLER_SOURCE_REJECTED ->
  wp (FailWith m mark st) (handled good) ok w.
Proof using Herase.
  intros Hwf Hv Him Hr Hne1 Hne2. unfold FailWith, BestEffortMarkFailed. cbv zeta.
  set (m1 := bm_set_last_error _ _).
  assert (Hwf1 : rec_wf m1) by (wf_assign; apply error_u32).
  assert (Hm1 : bm_state m1 = state_word UPDATE_FAILED /\ mine m1) by (split; [done|exact Hv]).
  destruct Hm1. clearbody m1.
  apply wp_bind, wp_bind. eapply wp_mono; [by apply (wp_commit_state m1 UPDATE_FAILED)| |done].
  intros [st0 m'] w' (Hr' & _). apply wp_ret, wp_ret. by apply handled_error.
Qed.

(** Back to the running image. *)
Lemma wp_RevertToActiveImage good m reason w :
  rec_wf m -> mine m -> app_is orig (w_hw w) -> run w ->
  wp (RevertToActiveImage m reason) (handled good) ok w.
Proof using Herase.
  intros Hwf Hv Happ Hr. unfold RevertToActiveImage. cbv zeta. set (m1 := bm_set_last_error _ _).
  assert (Hwf1 : rec_wf m1) by (wf_assign; apply error_u32).
  assert (Hm1 : bm_state m1 = state_word UPDATE_IDLE /\ mine m1) by (split; [done|exact Hv]).
  destruct Hm1 as [Hst Hav]. clearbody m1. apply wp_bind, wp_Clear; [done|].
  intros _ w1 Hr1 Hk1 _. assert (Happ1 : app_is orig (w_hw w1)) by by eapply images_app.
  apply wp_bind. eapply wp_mono; [by apply (wp_commit_state m1 UPDATE_IDLE)| |done].
  intros [st m'] w2 (Hr2 & Hk2 & _ & _ & Hsr & Hok).
  destruct (bool_decide_reflect (st <> METADATA_STORAGE_OK)) as [|He]; apply wp_ret;
    [by apply handled_error|]. apply dec_stable in He.
  split; [exact Hr2|]. split; [discriminate|]. intros _. exists m'.
  split; [reflexivity|]. split; [by apply Hok|].
  split; [by rewrite (sr_state _ _ Hsr)|]. split; [by eapply mine_request|]. by eapply images_app.
Qed.

(** ** Rollback *)

Lemma wp_BeginRollback m diagnostic w :
  rec_wf m -> mine m -> is_u32 diagnostic -> holds orig (w_hw w) -> run w ->
  wp (BeginRollback m diagnostic)
    (fun '(st, m') w' => run w' /\ rec_wf m' /\ mine m' /\ holds orig (w_hw w') /\
       (st = IMAGE_INSTALLER_OK /\ current_metadata (w_hw w') = Some m' /\
          bm_state m' = state_word UPDATE_ROLLBACK /\ bm_copy_offset m' = 0 \/
        st = IMAGE_INSTALLER_METADATA_COMMIT_FAILED)) ok w.
Proof using Herase.
  intros Hwf Hv Hd Hh Hr. unfold BeginRollback. cbv zeta. set (m1 := bm_set_last_error _ _).
  assert (Hwf1 : rec_wf m1) by (wf_assign; exact Hd).
  assert (Hm1 : bm_state m1 = state_word UPDATE_ROLLBACK /\ bm_copy_offset m1 = 0 /\ mine m1)
    by (split; [done|split; [done|exact Hv]]).
  destruct Hm1 as (Hst & Hoff & Hv1). clearbody m1.
  eapply wp_mono; [apply (wp_commit_step m1 UPDATE_ROLLBACK); [done|done|done| |done]| |done].
  { rewrite Hoff. split; [exact Hh|]. reflexivity. }
  intros [st m'] w' (st0 & (Hr' & Hk & _ & Hwf' & Hsr & Hok) & Hs).
  split; [exact Hr'|]. split; [exact Hwf'|]. split; [by eapply mine_request|].
  split; [by eapply images_holds|].
  destruct Hs as [[-> Hs0]|Hs]; [left|by right]. destruct Hsr as [E1 _ _ _ _ _ E7 _ _].
  split; [reflexivity|]. split; [by apply Hok|]. split; congruence.
Qed.

(** ** The checkpointed copy loops *)

Section copy_loop.
Context (s : UpdateState_t) (size : Z) (next : Z -> Z) (copy : Z -> M HW ImageInstallerStatus_t).
Context (valid : Z -> Prop).
Context (Hnext : forall off, valid off -> off < size ->
  valid (next off) /\ off < next off <= size /\ is_u32 (next off)).

(** Between two blocks. *)
Record at_checkpoint (m m' : BootMetadata_t) w : Prop := {
  ac_run : run w;
  ac_wf : rec_wf m';
  ac_mine : mine m';
  ac_state : bm_state m' = state_word s;
  ac_update : same_update m m';
  ac_phase : phase_ok orig (w_hw w) s (bm_copy_offset m')
}.

Context (Hcopy : forall meta w, run w -> current_metadata (w_hw w) = Some meta -> mine meta ->
  bm_state meta = state_word s -> phase_ok orig (w_hw w) s (bm_copy_offset meta) ->
  valid (bm_copy_offset meta) -> bm_copy_offset meta < size ->
  wp (copy (bm_copy_offset meta))
    (fun st w' => run w' /\ current_metadata (w_hw w') = Some meta /\
       phase_ok orig (w_hw w') s (bm_copy_offset meta) /\
       (st = IMAGE_INSTALLER_OK -> phase_ok orig (w_hw w') s (next (bm_copy_offset meta))) /\
       st <> IMAGE_INSTALLER_SOURCE_REJECTED) ok w).

Lemma wp_CommitOffset clear m m0 off w :
  at_checkpoint m0 m w -> is_u32 off -> phase_ok orig (w_hw w) s off ->
  wp (CommitOffset clear off m)
    (fun '(st, m') w' => at_checkpoint m0 m' w' /\ bm_copy_offset m' = off /\
       (st = METADATA_STORAGE_OK -> current_metadata (w_hw w') = Some m')) ok w.
Proof using Herase.
  intros [Hr Hwf Hv Hst Hsu _] Ho Hph. unfold CommitOffset. cbv zeta.
  set (m1 := if clear then _ else _).
  assert (Hwf1 : rec_wf m1).
  { unfold m1. destruct clear; wf_assign; exact Ho. }
  assert (Hm1 : bm_state m1 = bm_state m /\ bm_copy_offset m1 = off /\ same_update m m1)
    by (unfold m1; destruct clear; split_and!; (done || by split)).
  destruct Hm1 as (Hs1 & Ho1 & Hsu1). pose proof (mine_update _ _ Hsu1 Hv). clearbody m1.
  eapply wp_mono; [apply (wp_commit_state m1 s); [done|done|congruence|by rewrite Ho1|done]| |done].
  intros [st m'] w' (Hr' & Hk & _ & Hwf' & Hsr & Hok).
  pose proof (mine_request _ _ Hsr ltac:(done)) as Hv'. destruct Hsr as [E1 E2 E3 E4 _ _ E7 _ _].
  split; [|split; [congruence|exact Hok]].
  destruct Hsu, Hsu1. split; [exact Hr'|exact Hwf'|exact Hv'|congruence|split; congruence|].
  rewrite E7, Ho1. apply Hk; [|exact Hph]. unfold is_u32 in Ho. lia.
Qed.

Lemma wp_CopyLoop clear m w :
  0 <= size -> rec_wf m -> mine m -> run w -> current_metadata (w_hw w) = Some m -> bm_state m = state_word s ->
  phase_ok orig (w_hw w) s (bm_copy_offset m) -> valid (bm_copy_offset m) ->
  wp (CopyLoop size next copy clear m)
    (fun '(st, m') w' => at_checkpoint m m' w' /\ st <> IMAGE_INSTALLER_SOURCE_REJECTED /\
       (st = IMAGE_INSTALLER_OK ->
          current_metadata (w_hw w') = Some m' /\ valid (bm_copy_offset m') /\
          size <= bm_copy_offset m')) ok w.
Proof using Herase Hcopy Hnext.
  intros Hsize Hwf Hmine Hr Hcur Hst Hph Hv. unfold CopyLoop.
  set (I := fun m' w' => at_checkpoint m m' w' /\ current_metadata (w_hw w') = Some m' /\
    valid (bm_copy_offset m')).
  apply (wp_loop I (fun m' => size - Z.max 0 (Z.min (bm_copy_offset m') size))); [|
    split; [split; try done; by split|by split]|lia].
  clear w Hwf Hmine Hr Hcur Hst Hph Hv. intros m1 w (Hc & Hcur & Hv) _. cbv zeta.
  pose proof (rec_wf_offset _ (ac_wf _ _ _ Hc)) as Hpos.
  destruct (Z.ltb_spec (bm_copy_offset m1) size) as [Hlt|Hge].
  2: { apply wp_ret. cbn. split; [done|]. split; [done|]. intros _. by split_and!. }
  destruct (Hnext _ Hv Hlt) as (Hv' & Hnx & Hu). apply wp_bind.
  eapply wp_mono; [apply Hcopy; try apply Hc; done| |done].
  intros st w1 (Hr1 & Hcur1 & Hph1 & Hph1' & Hne).
  assert (Hc1 : at_checkpoint m m1 w1) by (destruct Hc; by split).
  destruct (bool_decide_reflect (st <> IMAGE_INSTALLER_OK)) as [Hbad|Hok].
  { apply wp_ret. cbn. split; [done|]. split; [done|]. by intros ->. }
  apply dec_stable in Hok. apply wp_bind.
  eapply wp_mono; [apply (wp_CommitOffset clear m1 m (next (bm_copy_offset m1))); auto| |done].
  intros [st2 m2] w2 (Hc2 & Ho2 & Hcur2).
  destruct (bool_decide_reflect (st2 <> METADATA_STORAGE_OK)) as [Hbad|Hok2]; apply wp_ret; cbn.
  { by split_and!. }
  apply dec_stable in Hok2. split; [|lia]. split; [exact Hc2|]. split; [by apply Hcur2|].
  by rewrite Ho2.
Qed.

End copy_loop.

(** ** The blocks of the three loops *)

Lemma keeps_ProgramPage off page n : keeps (ProgramBufferedApplicationPage off page n).
Proof.
  unfold ProgramBufferedApplicationPage, ProgramPageHalfWords, get_primask, disable_irq,
    FLASH_Lock, FLASH_Unlock, set_primask, set_unlocked. keeps_auto.
Qed.

Lemma keeps_CopyChunk off n : keeps (CopyActiveImageToBackupChunk off n).
Proof. unfold CopyActiveImageToBackupChunk. keeps_auto. Qed.

Definition install_valid (size off : Z) : Prop :=
  0 <= off /\ InstallProgress_Validate size off = INSTALL_PROGRESS_VALID.
Definition backup_valid (off : Z) : Prop :=
  0 <= off /\ BackupProgress_Validate off = BACKUP_PROGRESS_VALID.

Lemma install_next size off :
  install_valid size off -> off < size ->
  install_valid size (InstallProgress_NextCheckpoint size off) /\
  off < InstallProgress_NextCheckpoint size off <= size /\
  is_u32 (InstallProgress_NextCheckpoint size off).
Proof.
  intros [Ho Hv] Hlt. pose proof (proj1 (InstallProgress_Validate_spec size off Ho) Hv) as [Hs Hc].
  pose proof (checkpoint_next INTERNAL_FLASH_PAGE_SIZE ltac:(done) _ _ Hc) as Hn.
  unfold install_valid. rewrite InstallProgress_Next_eq by done.
  assert (off < block_next INTERNAL_FLASH_PAGE_SIZE size off <= size) by (unfold block_next; map_lia).
  split; [|split; [done|unfold is_u32; map_lia]]. split; [lia|].
  apply InstallProgress_Validate_spec; [lia|done].
Qed.

Lemma backup_next off :
  backup_valid off -> off < APPLICATION_MAX_SIZE ->
  backup_valid (BackupProgress_NextCheckpoint off) /\
  off < BackupProgress_NextCheckpoint off <= APPLICATION_MAX_SIZE /\
  is_u32 (BackupProgress_NextCheckpoint off).
Proof.
  intros [Ho Hv] Hlt. pose proof (proj1 (BackupProgress_Validate_spec off Ho) Hv) as Hc.
  pose proof (checkpoint_next EXT_FLASH_SECTOR_SIZE ltac:(done) _ _ Hc) as Hn.
  unfold backup_valid. rewrite BackupProgress_Next_eq by done.
  assert (off < block_next EXT_FLASH_SECTOR_SIZE APPLICATION_MAX_SIZE off <= APPLICATION_MAX_SIZE)
    by (unfold block_next; map_lia).
  split; [|split; [done|unfold is_u32; map_lia]]. split; [lia|].
  apply BackupProgress_Validate_spec; [lia|done].
Qed.

(** A checkpoint below the end is a page of the region. *)
Lemma install_page size off :
  install_valid size off -> off < size ->
  page_offset_ok off /\ InstallProgress_PageLength size off = Z.min INTERNAL_FLASH_PAGE_SIZE (size - off).
Proof.
  intros [Ho Hv] Hlt. pose proof (proj1 (InstallProgress_Validate_spec size off Ho) Hv) as [Hs [Hr Ha]].
  split; [|apply InstallProgress_PageLength_eq; [unfold is_u32; map_lia|done|done]].
  destruct Ha as [|Hm]; [lia|]. split; [done|]. split; [done|].
  pose proof (Z.div_mod off INTERNAL_FLASH_PAGE_SIZE ltac:(done)). map_lia.
Qed.

(** Programming a page while the backup holds the image. *)
Lemma wp_program_page s meta page (Q : ImageInstallerStatus_t -> World HW -> Prop) w :
  run w -> current_metadata (w_hw w) = Some meta -> mine meta -> bm_state meta = state_word s ->
  page_offset_ok (bm_copy_offset meta) -> len page <= INTERNAL_FLASH_PAGE_SIZE ->
  (forall h, frame nowhere (app_page (bm_copy_offset meta)) (w_hw w) h ->
     phase_ok orig h s (bm_copy_offset meta)) ->
  (forall st w', frame nowhere (app_page (bm_copy_offset meta)) (w_hw w) (w_hw w') -> run w' ->
     current_metadata (w_hw w') = Some meta ->
     (st = IMAGE_INSTALLER_OK ->
        app_slice (w_hw w') (bm_copy_offset meta) (len page) = page) ->
     st <> IMAGE_INSTALLER_SOURCE_REJECTED -> Q st w') ->
  wp (ProgramBufferedApplicationPage (bm_copy_offset meta) page (len page)) Q ok w.
Proof.
  intros Hr Hcur Hv Hst Hp Hl Hkeep HQ.
  eapply (wp_write nowhere (app_page (bm_copy_offset meta)) (fun _ => True)
    _ _ s meta); [apply keeps_ProgramPage|by apply triple_ProgramPage|done|done|done|done|done|
    intros a []|intros a; by apply app_page_in|exact Hkeep|].
  intros st w' Hf Hr' Hc [H1 H2]. by apply HQ.
Qed.

Lemma wp_candidate_page source meta w :
  run w -> current_metadata (w_hw w) = Some meta -> mine meta ->
  bm_state meta = state_word UPDATE_INSTALLING ->
  phase_ok orig (w_hw w) UPDATE_INSTALLING (bm_copy_offset meta) ->
  install_valid (cs_image_size source) (bm_copy_offset meta) ->
  bm_copy_offset meta < cs_image_size source ->
  wp (ProgramAndVerifyCandidatePage source (bm_copy_offset meta))
    (fun st w' => run w' /\ current_metadata (w_hw w') = Some meta /\
       phase_ok orig (w_hw w') UPDATE_INSTALLING (bm_copy_offset meta) /\
       (st = IMAGE_INSTALLER_OK -> phase_ok orig (w_hw w') UPDATE_INSTALLING
          (InstallProgress_NextCheckpoint (cs_image_size source) (bm_copy_offset meta))) /\
       st <> IMAGE_INSTALLER_SOURCE_REJECTED) ok w.
Proof.
  intros Hr Hcur Hm Hst Hph Hv Hlt. destruct (install_page _ _ Hv Hlt) as [Hp Hl].
  unfold ProgramAndVerifyCandidatePage, LoadCandidatePage. cbv zeta. rewrite Hl.
  set (n := Z.min _ _). assert (Hn : 0 < n <= INTERNAL_FLASH_PAGE_SIZE) by (unfold n; map_lia).
  clearbody n. rewrite (proj2 (Z.eqb_neq n 0)) by lia. apply wp_bind, wp_bind.
  eapply (wp_read _ (fun r w' => forall bs, r = Some bs -> len bs = n)); [auto with ota| |done|].
  { eapply triple_conseq; [apply triple_Storage_Read; [apply Hp|lia]|done|done|done|].
    intros r w' Hb bs ->. destruct (Hb bs eq_refl) as [_ ->]. apply nor_slice_length. lia. }
  intros r w1 Hf1 Hr1 Hk1 Hb.
  pose proof (current_metadata_frame _ _ _ _ Hf1 nowhere_off_metadata) as Hc1. rewrite Hcur in Hc1.
  assert (Hh1 : holds orig (w_hw w1)) by by eapply images_holds.
  apply wp_ret. destruct r as [page|]; [|by apply wp_ret; split_and!].
  rewrite <- (Hb page eq_refl) in Hn.
  assert (Hkeep : forall h, frame nowhere (app_page (bm_copy_offset meta)) (w_hw w1) h -> holds orig h).
  { intros h Hf. eapply holds_frame; [exact Hf|apply nowhere_off_backup|exact Hh1]. }
  apply (wp_program_page UPDATE_INSTALLING); [done..|lia|exact Hkeep|].
  intros st w2 Hf2 Hr2 Hc2 _ Hne. pose proof (Hkeep _ Hf2). by split_and!.
Qed.

(** What the rollback reads is the old image. *)
Lemma holds_slice h off n :
  holds orig h -> 0 <= off -> 0 <= n -> off + n <= APPLICATION_MAX_SIZE ->
  backup_slice h off n = slice off n (im_bytes orig).
Proof.
  intros [_ _ _ <-] Ho Hn Hr. unfold backup_slice. rewrite slice_nor_slice by done. by rewrite Z.add_0_r.
Qed.

(** One more block of the image. *)
Lemma app_prefix_next h off n :
  0 <= off -> 0 <= n -> app_prefix orig off h -> app_slice h off n = slice off n (im_bytes orig) ->
  app_prefix orig (off + n) h.
Proof.
  intros Ho Hn Hp Hs. unfold app_prefix in *. rewrite app_slice_app, Z.add_0_l, Hp, Hs by done.
  unfold slice. rewrite <- (firstn_skipn (Z.to_nat off) (im_bytes orig)) at 3.
  rewrite Z2Nat.inj_add by done. rewrite take_app. f_equal.
  { symmetry. apply take_ge. rewrite length_take. lia. }
  rewrite length_take. apply (f_equal (fun l => len l)) in Hp.
  rewrite app_slice_length, length_take in Hp by done. f_equal. lia.
Qed.

Lemma wp_backup_page meta w :
  run w -> current_metadata (w_hw w) = Some meta -> mine meta ->
  bm_state meta = state_word UPDATE_ROLLBACK ->
  phase_ok orig (w_hw w) UPDATE_ROLLBACK (bm_copy_offset meta) ->
  install_valid APPLICATION_MAX_SIZE (bm_copy_offset meta) ->
  bm_copy_offset meta < APPLICATION_MAX_SIZE ->
  wp (ProgramAndVerifyBackupPage (bm_copy_offset meta))
    (fun st w' => run w' /\ current_metadata (w_hw w') = Some meta /\
       phase_ok orig (w_hw w') UPDATE_ROLLBACK (bm_copy_offset meta) /\
       (st = IMAGE_INSTALLER_OK -> phase_ok orig (w_hw w') UPDATE_ROLLBACK
          (InstallProgress_NextCheckpoint APPLICATION_MAX_SIZE (bm_copy_offset meta))) /\
       st <> IMAGE_INSTALLER_SOURCE_REJECTED) ok w.
Proof.
  intros Hr Hcur Hm Hst Hph Hv Hlt. destruct (install_page _ _ Hv Hlt) as [Hp Hl].
  unfold ProgramAndVerifyBackupPage, LoadBackupPage. cbv zeta. rewrite Hl.
  rewrite InstallProgress_Next_eq by apply Hv. unfold block_next.
  set (off := bm_copy_offset meta) in *. set (n := Z.min _ _).
  assert (Hn : 0 < n <= INTERNAL_FLASH_PAGE_SIZE /\ off + n <= APPLICATION_MAX_SIZE)
    by (unfold n; map_lia).
  clearbody n. rewrite (proj2 (Z.eqb_neq n 0)) by lia. pose proof (proj1 Hp) as Hoff.
  apply wp_bind, wp_bind.
  eapply (wp_read _ (fun r w' => forall bs, r = Some bs -> bs = backup_slice (w_hw w') off n));
    [auto with ota| |done|].
  { eapply triple_conseq; [apply triple_Backup_Read; lia|done|done|done|].
    intros r w' Hb bs ->. by destruct (Hb bs eq_refl) as [_ ->]. }
  intros r w1 Hf1 Hr1 Hk1 Hb.
  pose proof (current_metadata_frame _ _ _ _ Hf1 nowhere_off_metadata) as Hc1. rewrite Hcur in Hc1.
  assert (Hph1 : phase_ok orig (w_hw w1) UPDATE_ROLLBACK off) by (apply Hk1; [lia|exact Hph]).
  destruct Hph1 as [Hh1 Ha1].
  apply wp_ret. destruct r as [page|]; [|by apply wp_ret; split_and!].
  specialize (Hb page eq_refl). rewrite (holds_slice _ off n) in Hb by (done || lia).
  assert (Hlen : len page = n).
  { rewrite Hb. apply slice_length; [lia|lia|]. rewrite (holds_length _ _ Hh1). lia. }
  assert (Hkeep : forall h, frame nowhere (app_page off) (w_hw w1) h ->
    holds orig h /\ app_prefix orig off h).
  { intros h Hf. split; [eapply holds_frame; [exact Hf|apply nowhere_off_backup|exact Hh1]|].
    unfold app_prefix. rewrite <- Ha1. eapply flash_slice_frame; [exact Hf|].
    unfold app_page. lia. }
  apply (wp_program_page UPDATE_ROLLBACK); [done..|lia|exact Hkeep|].
  intros st w2 Hf2 Hr2 Hc2 Hpage Hne. destruct (Hkeep _ Hf2) as [Hh2 Ha2].
  split; [done|]. split; [done|]. split; [by split|]. split; [|done]. intros Hok.
  split; [done|]. apply app_prefix_next; [lia..|done|].
  specialize (Hpage Hok). fold off in Hpage. rewrite Hlen in Hpage. by rewrite Hpage.
Qed.

(** Copying a chunk while the running image is intact. *)
Lemma wp_backup_chunk meta w :
  run w -> current_metadata (w_hw w) = Some meta -> mine meta ->
  bm_state meta = state_word UPDATE_BACKING_UP ->
  phase_ok orig (w_hw w) UPDATE_BACKING_UP (bm_copy_offset meta) ->
  backup_valid (bm_copy_offset meta) -> bm_copy_offset meta < APPLICATION_MAX_SIZE ->
  wp (CopyActiveImageToBackupChunk (bm_copy_offset meta)
        (BackupProgress_ChunkLength (bm_copy_offset meta)))
    (fun st w' => run w' /\ current_metadata (w_hw w') = Some meta /\
       phase_ok orig (w_hw w') UPDATE_BACKING_UP (bm_copy_offset meta) /\
       (st = IMAGE_INSTALLER_OK -> phase_ok orig (w_hw w') UPDATE_BACKING_UP
          (BackupProgress_NextCheckpoint (bm_copy_offset meta))) /\
       st <> IMAGE_INSTALLER_SOURCE_REJECTED) ok w.
Proof.
  intros Hr Hcur Hm Hst [Happ Hpre] [Ho Hv] Hlt. rewrite BackupProgress_ChunkLength_eq by done.
  rewrite BackupProgress_Next_eq by done. unfold block_next.
  set (off := bm_copy_offset meta) in *. set (n := Z.min _ _).
  assert (Hn : 0 < n <= EXT_FLASH_SECTOR_SIZE /\ off + n <= APPLICATION_MAX_SIZE)
    by (unfold n; map_lia).
  clearbody n.
  assert (Hkeep : forall h, frame (backup_sector off) nowhere (w_hw w) h ->
    app_is orig h /\ backup_prefix orig off h).
  { intros h Hf. split; [eapply app_is_frame; [exact Hf|apply nowhere_off_app|exact Happ]|].
    unfold backup_prefix. rewrite <- Hpre. eapply backup_slice_frame; [exact Hf|].
    unfold backup_sector. lia. }
  eapply (wp_write (backup_sector off) nowhere (fun w' => flash_as (w_hw w) (w_hw w'))
    _ _ UPDATE_BACKING_UP meta); [apply keeps_CopyChunk|apply triple_CopyChunk; lia|done|done|done|done|done|
    |intros a []|exact Hkeep|].
  { intros a [Ha Hb]. unfold in_backup_data, BACKUP_DATA_ADDRESS, BACKUP_IMAGE_DATA_OFFSET in *. map_lia. }
  intros st w' Hf Hr' Hc' [Hcopy Hne]. destruct (Hkeep _ Hf) as [Ha' Hp'].
  split; [done|]. split; [done|]. split; [by split|]. split; [|done]. intros Hok.
  split; [done|]. specialize (Hcopy Hok). unfold backup_prefix in *.
  rewrite backup_slice_app, Z.add_0_l, Hp', Hcopy by lia.
  assert (app_prefix orig off (w_hw w) /\ app_slice (w_hw w) off n = slice off n (im_bytes orig)) as [H1 H2].
  { unfold app_prefix. unfold app_is in Happ. rewrite <- Happ. unfold app_slice. split.
    - rewrite <- slice_flash_slice with (n := APPLICATION_MAX_SIZE) (off := 0) by (lia || map_lia).
      unfold slice. by rewrite skipn_O.
    - rewrite slice_flash_slice by (lia || map_lia). by rewrite Z.add_0_r. }
  pose proof (app_prefix_next _ off n Ho ltac:(lia) H1 H2) as H3. unfold app_prefix in *.
  rewrite <- H3, app_slice_app, Z.add_0_l, H1 by lia. done.
Qed.

(** ** Verification of the application region *)

(** What a verified image is: the expected checksum, and a vector table that
    the installer and the jump both accept. *)
Record Verified (size crc : Z) (h : hw) : Prop := {
  ve_crc : crc_of (app_slice h 0 size) = crc;
  ve_vector : FullImage_ValidateVector size (flash_word_at h APPLICATION_START_ADDRESS)
    (flash_word_at h (APPLICATION_START_ADDRESS + 4)) = FULL_IMAGE_VALID;
  ve_safe : SafeVector h (vector_at h)
}.

Lemma flash_word_frame N F h h' a :
  frame N F h h' -> off_app F -> in_application a -> in_application (a + 3) ->
  flash_word_at h' a = flash_word_at h a.
Proof.
  intros Hf HF H1 H2. unfold flash_word_at. f_equal. eapply flash_slice_frame; [exact Hf|].
  intros i Hi. apply HF. map_lia.
Qed.

Lemma vector_frame N F h h' : frame N F h h' -> off_app F -> vector_at h' = vector_at h.
Proof.
  intros Hf HF. unfold vector_at. f_equal; eapply flash_word_frame; first [exact Hf|exact HF|map_lia].
Qed.

Lemma safe_vector_frame N F h h' :
  frame N F h h' -> off_app F -> SafeVector h (vector_at h) -> SafeVector h' (vector_at h').
Proof.
  intros Hf HF [H1 H2 H3 H4 H5 H6 H7]. rewrite (vector_frame N F h h') by done.
  split; try assumption; rewrite (flash_word_frame N F h h') by (done || map_lia); assumption.
Qed.

Lemma Verified_frame N F size crc h h' :
  frame N F h h' -> off_app F -> 0 <= size <= APPLICATION_MAX_SIZE ->
  Verified size crc h -> Verified size crc h'.
Proof.
  intros Hf HF Hs [H1 H2 H3]. split.
  - rewrite <- H1. apply (f_equal crc_of). eapply app_slice_frame; [exact Hf|done|lia|lia].
  - rewrite !(flash_word_frame N F h h') by (done || map_lia). exact H2.
  - by eapply safe_vector_frame.
Qed.

Lemma wp_flash_word a Q C w : Q (flash_word_at (w_hw w) a) w -> wp (flash_word a) Q C w.
Proof. intros H. unfold flash_word. by apply wp_bind, wp_flash_read, wp_ret. Qed.

Lemma triple_VerifyApplication size crc cf vf :
  0 <= size <= APPLICATION_MAX_SIZE ->
  triple nowhere nowhere (fun _ => True) (VerifyApplication size crc cf vf)
    (fun st w => (st = IMAGE_INSTALLER_OK -> cf <> IMAGE_INSTALLER_OK ->
         vf <> IMAGE_INSTALLER_OK -> Verified size crc (w_hw w)) /\
       (st = IMAGE_INSTALLER_OK \/ st = cf \/ st = vf)).
Proof.
  intros Hs. unfold VerifyApplication.
  eapply triple_bind; [by apply triple_CalculateInternalCrc|]. intros c. cbv beta.
  apply triple_if; intros Hc; [apply triple_ret; intros w _; split; [by intros ->|auto]|]. to_prop.
  intros w Hw. apply wp_bind, wp_flash_word, wp_bind, wp_flash_word.
  destruct (bool_decide_reflect (FullImage_ValidateVector size
    (flash_word_at (w_hw w) APPLICATION_START_ADDRESS)
    (flash_word_at (w_hw w) (APPLICATION_START_ADDRESS + 4)) <> FULL_IMAGE_VALID)) as [Hb|Hv].
  { apply wp_ret. split; [apply frame_refl|]. split; [by intros ->|auto]. }
  apply dec_stable in Hv. apply wp_bind.
  eapply wp_mono; [apply wp_ApplicationJump_Validate| |by intros h []].
  intros [st v] w' (-> & Hst & _). apply wp_ret. split; [apply frame_refl|].
  destruct (bool_decide_reflect (st <> APPLICATION_VALIDATION_OK)) as [Hb|Hj]; (split; [|auto]).
  - by intros ->.
  - intros _ _ _. split; [congruence|exact Hv|apply Hst; by apply dec_stable].
Qed.

Lemma keeps_CalculateInternalCrc n : keeps (CalculateInternalCrc n).
Proof. unfold CalculateInternalCrc, CrcChunks, ReadChunks. keeps_auto. Qed.

Lemma keeps_VerifyApplication size crc cf vf : keeps (VerifyApplication size crc cf vf).
Proof.
  unfold VerifyApplication, flash_word, ApplicationJump_Validate.
  apply keeps_bind; [apply keeps_CalculateInternalCrc|]. intros c. unfold flash_word. keeps_auto.
Qed.

Lemma keeps_CalculateBackupCrc : keeps CalculateBackupCrc.
Proof. unfold CalculateBackupCrc, CrcChunks, ReadChunks. keeps_auto. Qed.

Lemma keeps_ValidateBackupImage : keeps ValidateBackupImage.
Proof.
  unfold ValidateBackupImage. apply keeps_bind; [auto with ota|]. intros [st r].
  destruct st; try apply keeps_ret. destruct r; [|apply keeps_ret].
  apply keeps_bind; [apply keeps_CalculateBackupCrc|]. keeps_auto.
Qed.

(** A read that needs nothing of the chip. *)
Lemma wp_read' {A} (m : M HW A) Q w (R : A -> World HW -> Prop) :
  keeps m -> triple nowhere nowhere (fun _ => True) m Q -> run w ->
  (forall a w', frame nowhere nowhere (w_hw w) (w_hw w') -> run w' ->
     images_kept (w_hw w) (w_hw w') -> Q a w' -> R a w') ->
  wp m R ok w.
Proof. intros Hk Hm. apply wp_read; [done|]. by eapply triple_pre. Qed.

(** ** Finishing a rollback *)

Lemma wp_FinalizeRollback m backup diagnostic w :
  rec_wf m -> is_u32 diagnostic -> app_is orig (w_hw w) -> run w ->
  is_u32 (im_version orig) -> bk_active_version backup = im_version orig ->
  wp (FinalizeRollback m backup diagnostic) (handled Restored) ok w.
Proof using Herase.
  intros Hwf Hd Happ Hr Hu Hb. unfold FinalizeRollback. cbv zeta. set (m1 := bm_set_last_error _ _).
  assert (Hwf1 : rec_wf m1) by (wf_assign; rewrite ?Hb; assumption).
  assert (Hm1 : bm_state m1 = state_word UPDATE_IDLE /\ bm_pending_version m1 = 0 /\ mine m1)
    by (split; [done|split; [done|exact Hb]]).
  destruct Hm1 as (Hst & Hp & Hv). clearbody m1. apply wp_bind, wp_Clear; [done|].
  intros _ w1 Hr1 Hk1 _. assert (Happ1 : app_is orig (w_hw w1)) by by eapply images_app.
  apply wp_bind. eapply wp_mono; [by apply (wp_commit_state m1 UPDATE_IDLE)| |done].
  intros [st m'] w2 (Hr2 & Hk2 & _ & _ & Hsr & Hok).
  destruct (bool_decide_reflect (st <> METADATA_STORAGE_OK)) as [|He]; apply wp_ret;
    [by apply handled_error|]. apply dec_stable in He.
  split; [exact Hr2|]. split; [|discriminate]. intros _. exists m'.
  split; [reflexivity|]. split; [by apply Hok|].
  split; [by rewrite (sr_state _ _ Hsr)|by rewrite (sr_pending _ _ Hsr)|by eapply mine_request|].
  by eapply images_app.
Qed.

Lemma wp_RestoreBackup m backup diagnostic w :
  rec_wf m -> mine m -> is_u32 diagnostic -> run w -> current_metadata (w_hw w) = Some m ->
  bm_state m = state_word UPDATE_ROLLBACK -> phase_ok orig (w_hw w) UPDATE_ROLLBACK (bm_copy_offset m) ->
  bk_active_version backup = im_version orig ->
  wp (RestoreBackup m backup diagnostic) (handled Restored) ok w.
Proof using Herase.
  intros Hwf Hv Hd Hr Hcur Hst Hph Hb. unfold RestoreBackup, ResumeRollbackCopy. apply wp_bind.
  destruct (bool_decide_reflect (InstallProgress_Validate APPLICATION_MAX_SIZE (bm_copy_offset m)
    <> INSTALL_PROGRESS_VALID)) as [Hbad|Hval].
  { apply wp_ret. cbv iota. rewrite bool_decide_eq_true_2 by discriminate.
    apply wp_FailWith; try done. right. apply Hph. }
  apply dec_stable in Hval. pose proof (rec_wf_offset _ Hwf) as Hpos.
  eapply wp_mono; [apply (wp_CopyLoop UPDATE_ROLLBACK APPLICATION_MAX_SIZE _ _
    (install_valid APPLICATION_MAX_SIZE)); try done; [apply install_next|apply wp_backup_page]| |done].
  intros [st m1] w1 ([Hr1 Hwf1 Hv1 Hst1 _ Hph1] & Hne & Hok1).
  destruct (bool_decide_reflect (st <> IMAGE_INSTALLER_OK)) as [Hbad|Hok].
  { apply wp_FailWith; try done. right. apply Hph1. }
  apply dec_stable in Hok. destruct (Hok1 Hok) as (_ & [Hp1 Hval1] & Hend). apply wp_bind.
  unfold VerifyRolledBackApplication.
  eapply wp_read'; [apply keeps_VerifyApplication|by apply triple_VerifyApplication|done|].
  intros st2 w2 _ Hr2 Hk2 [_ Hst2]. destruct Hph1 as [Hh1 Ha1].
  destruct (bool_decide_reflect (st2 <> IMAGE_INSTALLER_OK)) as [Hbad2|_].
  { apply wp_FailWith; try done; [right; by eapply images_holds|].
    intros ->. by destruct Hst2 as [|[|]]. }
  apply wp_FinalizeRollback; try done.
  - eapply images_app; [exact Hk2|]. unfold app_is. unfold app_prefix in Ha1.
    pose proof (proj1 (InstallProgress_Validate_spec _ _ Hp1) Hval1) as [_ [Hr' _]].
    assert (bm_copy_offset m1 = APPLICATION_MAX_SIZE) as He by lia. rewrite He in Ha1.
    rewrite Ha1. apply take_ge. pose proof (holds_length _ _ Hh1). lia.
  - rewrite <- Hv. exact (wf_u32 m 4 Hwf).
Qed.

Lemma low_byte_u32 x : is_u32 (Z.land x 0xFF).
Proof.
  change 0xFF with (Z.ones 8). rewrite Z.land_ones by lia.
  pose proof (Z.mod_pos_bound x (2 ^ 8) ltac:(done)). unfold is_u32. lia.
Qed.

Lemma RollbackDiagnostic_u32 m : rec_wf m -> is_u32 (RollbackDiagnostic m).
Proof.
  intros Hwf. unfold RollbackDiagnostic. case_if; [exact (wf_u32 m 11 Hwf)|].
  case_if; [|case_if; by vm_compute]. apply lor_u32; [by vm_compute|apply low_byte_u32].
Qed.

Lemma wp_ProcessRollback m w :
  rec_wf m -> mine m -> run w -> current_metadata (w_hw w) = Some m -> holds orig (w_hw w) ->
  (bm_state m = state_word UPDATE_ROLLBACK -> app_prefix orig (bm_copy_offset m) (w_hw w)) ->
  wp (ImageInstaller_ProcessRollback (Some m)) (handled Restored) ok w.
Proof using Herase.
  intros Hwf Hv Hr Hcur Hh Hpre. unfold ImageInstaller_ProcessRollback. apply wp_bind.
  eapply wp_read; [auto with ota|apply triple_Storage_Init|done|]. intros init w1 Hf1 Hr1 Hk1 _.
  pose proof (current_metadata_frame _ _ _ _ Hf1 nowhere_off_metadata) as Hc1. rewrite Hcur in Hc1.
  case_if; [by apply wp_ret, handled_error|]. apply wp_bind.
  eapply wp_read'; [apply keeps_ValidateBackupImage|apply triple_ValidateBackupImage|done|].
  intros r w2 Hf2 Hr2 Hk2 Hb.
  pose proof (current_metadata_frame _ _ _ _ Hf2 nowhere_off_metadata) as Hc2. rewrite Hc1 in Hc2.
  assert (Hh2 : holds orig (w_hw w2)) by by eapply images_holds, images_holds.
  destruct r as [st|backup]; [apply wp_FailWith; try done; by right|]. cbv zeta.
  destruct Hb as (-> & _). pose proof (hd_version _ _ Hh2) as Hbv.
  pose proof (RollbackDiagnostic_u32 m Hwf) as Hd.
  apply wp_run_exit, wp_bind_exit. unfold EnterRollback.
  destruct (Z.eqb_spec (bm_state m) (state_word UPDATE_ROLLBACK)) as [Hst|Hst]; cbn [negb].
  - assert (Hph : phase_ok orig (w_hw w2) UPDATE_ROLLBACK (bm_copy_offset m)).
    { apply Hk2, Hk1; [by apply rec_wf_offset..|]. split; [done|by apply Hpre]. }
    case_if; [apply wp_leave; apply wp_FailWith; try done; by right|].
    apply wp_go, wp_leave. by apply wp_RestoreBackup.
  - apply wp_bind. eapply wp_mono; [by apply wp_BeginRollback| |done].
    intros [st m3] w3 (Hr3 & Hwf3 & Hv3 & Hh3 & [(-> & Hc3 & Hs3 & Ho3)| ->]).
    + apply wp_go, wp_leave. apply wp_RestoreBackup; try done. rewrite Ho3. by split.
    + apply wp_leave, wp_ret. by apply handled_error.
Qed.

Lemma wp_RollbackAfterInstallFailure m reason w :
  rec_wf m -> mine m -> run w -> holds orig (w_hw w) ->
  wp (RollbackAfterInstallFailure m reason) (handled Restored) ok w.
Proof using Herase.
  intros Hwf Hv Hr Hh. unfold RollbackAfterInstallFailure. cbv zeta.
  set (e := Z.lor _ _). assert (He : is_u32 e).
  { apply lor_u32; [by vm_compute|apply low_byte_u32]. }
  clearbody e. apply wp_bind.
  assert (Hwf1 : rec_wf (bm_set_last_error e m)) by by apply assign_wf.
  eapply wp_mono; [apply wp_BeginRollback; [exact Hwf1|exact Hv|exact He|exact Hh|exact Hr]| |done].
  intros [st m1] w1 (Hr1 & Hw1 & Hv1 & Hh1 & [(-> & Hc1 & Hs1 & Ho1)| ->]).
  - apply wp_ProcessRollback; try done. intros _. by rewrite Ho1.
  - by apply wp_ret, handled_error.
Qed.

(** ** Installation *)

(** The candidate is in place, verified and about to be tried; the old image
    is still in the backup. *)
Record TrialReady (size crc version : Z) (c : BootMetadata_t) (h : hw) : Prop := {
  tr_state : bm_state c = state_word UPDATE_TRIAL_BOOT;
  tr_attempts : bm_boot_attempts c = 0;
  tr_version : bm_pending_version c = version;
  tr_active : mine c;
  tr_image : Verified size crc h;
  tr_backup : holds orig h
}.

Section candidate.
Context (source : CandidateSource_t) (version : Z).
Context (Hsize : 8 <= cs_image_size source <= APPLICATION_MAX_SIZE).

Definition installed (c : BootMetadata_t) (h : hw) : Prop :=
  TrialReady (cs_image_size source) (cs_image_crc32 source) version c h \/ Restored c h.

Lemma handled_restored x w : handled Restored x w -> handled installed x w.
Proof. apply handled_mono. intros. by right. Qed.

(** A committed state of the installation. *)
Record installing (m : BootMetadata_t) w : Prop := {
  is_run : run w;
  is_wf : rec_wf m;
  is_mine : mine m;
  is_version : bm_pending_version m = version;
  is_backup : holds orig (w_hw w);
  is_current : current_metadata (w_hw w) = Some m
}.

Lemma installing_rollback m reason w :
  installing m w -> wp (RollbackAfterInstallFailure m reason) (handled installed) ok w.
Proof using Herase.
  intros [H1 H2 H3 _ H5 _]. eapply wp_mono; [by apply wp_RollbackAfterInstallFailure| |done].
  intros x w' Hx. by apply handled_restored.
Qed.

Lemma wp_TransitionToTrialBoot m w :
  installing m w -> Verified (cs_image_size source) (cs_image_crc32 source) (w_hw w) ->
  wp (TransitionToTrialBoot m) (handled installed) ok w.
Proof using Herase Hsize.
  intros [Hr Hwf Hv Hp Hh _] Hver. unfold TransitionToTrialBoot. apply wp_bind, wp_Clear; [done|].
  intros cleared w1 Hr1 Hk1 Hf1. case_if; [by apply wp_ret, handled_error|]. cbv zeta.
  set (m1 := bm_set_last_error _ _). assert (Hwf1 : rec_wf m1) by wf_assign.
  assert (Hm1 : bm_state m1 = state_word UPDATE_TRIAL_BOOT /\ bm_boot_attempts m1 = 0 /\
    bm_pending_version m1 = version /\ mine m1)
    by (split; [done|split; [done|split; [exact Hp|exact Hv]]]).
  destruct Hm1 as (Hst & Ha & Hp1 & Hv1). clearbody m1.
  assert (Hh1 : holds orig (w_hw w1)) by by eapply images_holds.
  apply wp_bind. eapply wp_mono; [by apply (wp_commit_state m1 UPDATE_TRIAL_BOOT)| |done].
  intros [st m'] w2 (Hr2 & Hk2 & Hf2 & _ & Hsr & Hok).
  destruct (bool_decide_reflect (st <> METADATA_STORAGE_OK)) as [|He]; apply wp_ret;
    [by apply handled_error|]. apply dec_stable in He.
  split; [exact Hr2|]. split; [|discriminate]. intros _. exists m'.
  split; [reflexivity|]. split; [by apply Hok|]. left.
  split.
  - by rewrite (sr_state _ _ Hsr).
  - by rewrite (sr_attempts _ _ Hsr).
  - by rewrite (sr_pending _ _ Hsr).
  - by eapply mine_request.
  - eapply Verified_frame; [exact Hf2|apply boot_metadata_off_app|lia|].
    eapply Verified_frame; [exact Hf1|apply nowhere_off_app|lia|exact Hver].
  - by eapply images_holds.
Qed.

Lemma installing_read m w w' :
  installing m w -> frame nowhere nowhere (w_hw w) (w_hw w') -> run w' ->
  images_kept (w_hw w) (w_hw w') -> installing m w'.
Proof.
  intros [H1 H2 H3 H4 H5 H6] Hf Hr Hk. split; try done; [by eapply images_holds|].
  by rewrite (current_metadata_frame _ _ _ _ Hf nowhere_off_metadata).
Qed.

(** Verification inside the installation. *)
Lemma wp_verify_installed m w (R : ImageInstallerStatus_t -> World HW -> Prop) :
  installing m w ->
  (forall st w', installing m w' ->
     (st = IMAGE_INSTALLER_OK -> Verified (cs_image_size source) (cs_image_crc32 source) (w_hw w')) ->
     st <> IMAGE_INSTALLER_SOURCE_REJECTED -> R st w') ->
  wp (VerifyInstalledApplication source) R ok w.
Proof using Hsize.
  intros Hi HR. unfold VerifyInstalledApplication.
  eapply wp_read'; [apply keeps_VerifyApplication|apply triple_VerifyApplication; lia|apply Hi|].
  intros st w' Hf Hr Hk [Hver Hst]. apply HR; [by eapply installing_read| |].
  - intros ->. by apply Hver.
  - intros ->. by destruct Hst as [|[|]].
Qed.

(** Committing INSTALLING or VERIFYING_INSTALL. *)
Lemma wp_CommitState m s off w :
  installing m w -> is_u32 off -> s = UPDATE_INSTALLING \/ s = UPDATE_VERIFYING_INSTALL ->
  wp (CommitState s off m)
    (fun '(st, m') w' => run w' /\
       (st = IMAGE_INSTALLER_OK /\ installing m' w' /\ bm_state m' = state_word s /\
          bm_copy_offset m' = off \/
        st = IMAGE_INSTALLER_METADATA_COMMIT_FAILED)) ok w.
Proof using Herase.
  intros [Hr Hwf Hv Hp Hh _] Ho Hs. unfold CommitState. cbv zeta. set (m1 := bm_set_last_error _ _).
  assert (Hwf1 : rec_wf m1) by (wf_assign; exact Ho).
  assert (Hm1 : bm_state m1 = state_word s /\ bm_copy_offset m1 = off /\
    bm_pending_version m1 = version /\ mine m1)
    by (split; [done|split; [done|split; [exact Hp|exact Hv]]]).
  destruct Hm1 as (Hst & Hoff & Hp1 & Hv1). clearbody m1.
  assert (Hph : phase_ok orig (w_hw w) s (bm_copy_offset m1)) by by destruct Hs as [-> | ->].
  eapply wp_mono; [by apply (wp_commit_step m1 s)| |done].
  intros [st m'] w' (st0 & (Hr' & Hk & _ & Hwf' & Hsr & Hok) & Hres). split; [exact Hr'|].
  destruct Hres as [[-> Hs0]|Hres]; [left|by right]. split; [reflexivity|].
  split; [|split; [by rewrite (sr_state _ _ Hsr)|by rewrite (sr_copy_offset _ _ Hsr)]].
  split; [done|done|by eapply mine_request|by rewrite (sr_pending _ _ Hsr)|by eapply images_holds|
    by apply Hok].
Qed.

Lemma wp_InstallAndVerify m w :
  installing m w -> bm_state m = state_word UPDATE_INSTALLING ->
  wp (InstallAndVerify source m) (handled installed) ok w.
Proof using Herase Hsize.
  intros Hi Hst. unfold InstallAndVerify, ResumePageCheckpointedCopy. apply wp_bind.
  destruct (bool_decide_reflect (InstallProgress_Validate (cs_image_size source) (bm_copy_offset m)
    <> INSTALL_PROGRESS_VALID)) as [Hbad|Hval].
  { apply wp_ret. cbv iota. rewrite bool_decide_eq_true_2 by discriminate.
    rewrite bool_decide_eq_false_2 by discriminate. by apply installing_rollback. }
  apply dec_stable in Hval. pose proof (rec_wf_offset _ (is_wf _ _ Hi)) as Hpos.
  eapply wp_mono; [apply (wp_CopyLoop UPDATE_INSTALLING (cs_image_size source) _ _
    (install_valid (cs_image_size source))); [apply install_next|apply wp_candidate_page|lia|
    apply Hi|apply Hi|apply Hi|apply Hi|done|apply Hi|by split]| |done].
  intros [st m1] w1 ([Hr1 Hwf1 Hv1 Hst1 Hsu1 Hph1] & Hne & Hok1).
  destruct (bool_decide_reflect (st <> IMAGE_INSTALLER_OK)) as [Hbad|Hok].
  { case_if; [by apply wp_ret, handled_error|].
    eapply wp_mono; [by apply wp_RollbackAfterInstallFailure| |done].
    intros x w' Hx. by apply handled_restored. }
  apply dec_stable in Hok. destruct (Hok1 Hok) as (Hc1 & _ & _).
  assert (Hi1 : installing m1 w1).
  { split; try done. rewrite (su_pending _ _ Hsu1). apply Hi. }
  apply wp_bind. unfold TransitionToVerify.
  eapply wp_mono; [apply (wp_CommitState m1); [done|unfold is_u32; map_lia|by right]| |done].
  intros [st2 m2] w2 [Hr2 [(-> & Hi2 & _ & _)| ->]].
  2: { apply wp_ret. by apply handled_error. }
  cbv iota. rewrite bool_decide_eq_false_2 by (intros H; by apply H).
  apply wp_bind. apply (wp_verify_installed m2); [done|]. intros st3 w3 Hi3 Hver _.
  destruct (bool_decide_reflect (st3 <> IMAGE_INSTALLER_OK)) as [Hbad|Hok3].
  - by apply installing_rollback.
  - apply dec_stable in Hok3. apply wp_TransitionToTrialBoot; auto.
Qed.

Lemma wp_EnterInstall m w :
  installing m w ->
  wp (EnterInstall source m)
    (fun x w' => match x with
       | inl r => handled installed r w'
       | inr m' => installing m' w' /\ bm_state m' = state_word UPDATE_INSTALLING
       end) ok w.
Proof using Herase Hsize.
  intros Hi. unfold EnterInstall. case_if.
  - apply wp_bind, (wp_verify_installed m); [done|]. intros st w1 Hi1 Hver _.
    destruct (bool_decide_reflect (st = IMAGE_INSTALLER_OK)) as [Hok|Hbad].
    { apply wp_leave. apply wp_TransitionToTrialBoot; auto. }
    apply wp_bind. unfold BeginInstall.
    eapply wp_mono; [apply (wp_CommitState m); [done|done|by left]| |done].
    intros [st2 m2] w2 [Hr2 [(-> & Hi2 & Hs2 & _)| ->]]; [by apply wp_go|].
    apply wp_leave, wp_ret. by apply handled_error.
  - destruct (Z.eqb_spec (bm_state m) (state_word UPDATE_INSTALLING)) as [Hst|Hst].
    + case_if; [apply wp_leave; by apply installing_rollback|]. by apply wp_go.
    + apply wp_leave. by apply installing_rollback.
Qed.

(** ** The backup phase *)

(** Writes to the header sector keep the running image and the copied data. *)
Lemma header_write_keeps h h' s off :
  frame in_backup_header nowhere h h' -> 0 <= off -> app_is orig h ->
  s = UPDATE_ARTIFACT_READY \/ s = UPDATE_IMAGE_READY \/ s = UPDATE_BACKING_UP ->
  phase_ok orig h s off -> phase_ok orig h' s off.
Proof.
  intros Hf Ho Ha Hs Hp.
  assert (Ha' : app_is orig h') by (eapply app_is_frame; [exact Hf|apply nowhere_off_app|exact Ha]).
  destruct Hs as [-> |[-> | ->]]; [exact Ha'|exact Ha'|]. destruct Hp as [_ Hp].
  split; [exact Ha'|]. unfold backup_prefix in *. rewrite <- Hp.
  eapply backup_slice_frame; [exact Hf|]. intros a Hr.
  unfold in_backup_header, BACKUP_DATA_ADDRESS, BACKUP_IMAGE_DATA_OFFSET in *. map_lia.
Qed.

Lemma header_in_backup a :
  in_backup_header a -> EXT_BACKUP_ADDRESS <= a < EXT_BACKUP_ADDRESS + EXT_BACKUP_SIZE.
Proof. unfold in_backup_header. map_lia. Qed.

(** Between the candidate check and the end of the backup. *)
Record backing (m m' : BootMetadata_t) w : Prop := {
  bg_run : run w;
  bg_wf : rec_wf m';
  bg_mine : mine m';
  bg_version : bm_pending_version m' = version;
  bg_app : app_is orig (w_hw w)
}.

Lemma wp_BeginBackup m s w :
  backing m m w -> current_metadata (w_hw w) = Some m -> bm_state m = state_word s ->
  s = UPDATE_ARTIFACT_READY \/ s = UPDATE_IMAGE_READY -> phase_ok orig (w_hw w) s (bm_copy_offset m) ->
  wp (BeginBackup m)
    (fun '(st, m') w' => backing m m' w' /\ st <> IMAGE_INSTALLER_SOURCE_REJECTED /\
       (st = IMAGE_INSTALLER_OK ->
          current_metadata (w_hw w') = Some m' /\ bm_state m' = state_word UPDATE_BACKING_UP /\
          phase_ok orig (w_hw w') UPDATE_BACKING_UP (bm_copy_offset m'))) ok w.
Proof using Herase.
  intros [Hr Hwf Hv Hp Happ] Hcur Hst Hs Hph. unfold BeginBackup. apply wp_bind.
  pose proof (rec_wf_offset _ Hwf) as Hpos.
  eapply (wp_write in_backup_header nowhere (fun _ => True) _ _ s m);
    [auto with ota|apply triple_Backup_InvalidateHeader|done|done|done|done|done|
     apply header_in_backup|intros a []| |].
  { intros h Hf. eapply header_write_keeps; [exact Hf|done|exact Happ| |exact Hph].
    destruct Hs; auto. }
  intros st w1 Hf1 Hr1 Hc1 _.
  assert (Ha1 : app_is orig (w_hw w1))
    by (eapply app_is_frame; [exact Hf1|apply nowhere_off_app|exact Happ]).
  case_if; [apply wp_ret; split; [by split|done]|]. cbv zeta. set (m1 := bm_set_last_error _ _).
  assert (Hwf1 : rec_wf m1) by wf_assign.
  assert (Hm1 : bm_state m1 = state_word UPDATE_BACKING_UP /\ bm_copy_offset m1 = 0 /\
    bm_pending_version m1 = version /\ mine m1)
    by (split; [done|split; [done|split; [exact Hp|exact Hv]]]).
  destruct Hm1 as (Hst1 & Ho1 & Hp1 & Hv1). clearbody m1.
  eapply wp_mono; [apply (wp_commit_step m1 UPDATE_BACKING_UP); [done..| |done]| |done].
  { rewrite Ho1. split; [exact Ha1|]. reflexivity. }
  intros [st2 m2] w2 (st0 & (Hr2 & Hk2 & _ & Hwf2 & Hsr & Hok) & Hres).
  assert (Ha2 : app_is orig (w_hw w2)) by by eapply images_app.
  split; [|split; [by destruct Hres as [[-> _]| ->]|]].
  { split; [done|done|by eapply mine_request|by rewrite (sr_pending _ _ Hsr)|exact Ha2]. }
  intros ->. destruct Hres as [[_ Hs0]|]; [|done]. split; [by apply Hok|].
  split; [by rewrite (sr_state _ _ Hsr)|]. rewrite (sr_copy_offset _ _ Hsr), Ho1.
  split; [exact Ha2|reflexivity].
Qed.

(** The header that completes a backup. *)
Lemma bk_assign_wf i v r : is_u32 v -> rec_wf r -> rec_wf (BackupImage_assign i v r).
Proof.
  intros Hv Hr. unfold rec_wf, BackupImage_assign.
  change (words_ok (rec_fields (rec_of_fields (<[i:=v]> (BackupImage_fields r))))).
  rewrite rec_fields_of_fields by (rewrite length_insert; done). by apply Forall_insert.
Qed.

Lemma backup_header_wf v c :
  is_u32 v -> is_u32 c -> rec_wf (BackupImage_Finalize (BackupImage_Init v c)).
Proof.
  intros Hv Hc. unfold BackupImage_Finalize. cbv zeta.
  assert (Hi : rec_wf (BackupImage_Init v c)).
  { unfold BackupImage_Init. do 6 (apply bk_assign_wf; [first [assumption|by vm_compute]|]).
    repeat constructor; vm_compute; congruence. }
  set (r := bk_set_format_version _ _).
  assert (Hr : rec_wf r) by (do 2 (apply bk_assign_wf; [by vm_compute|]); exact Hi).
  clearbody r. apply bk_assign_wf; [|exact Hr].
  rewrite BackupImage_CalculateCrc_eq. apply crc_of_range, words_to_bytes_ok.
Qed.

(** The header written after the last chunk turns the copy into a backup. *)
Lemma wp_complete_backup m crc w (R : _ -> World HW -> Prop) :
  backing m m w -> current_metadata (w_hw w) = Some m -> bm_state m = state_word UPDATE_BACKING_UP ->
  bm_copy_offset m = APPLICATION_MAX_SIZE ->
  backup_slice (w_hw w) 0 APPLICATION_MAX_SIZE = im_bytes orig ->
  crc = crc_of (backup_slice (w_hw w) 0 APPLICATION_MAX_SIZE) ->
  (forall st r w', backing m m w' ->
     (st = BACKUP_IMAGE_STORAGE_OK -> holds orig (w_hw w')) -> R (st, r) w') ->
  wp (BackupImageStorage_CommitHeader (Some (BackupImage_Init (bm_active_version m) crc))) R ok w.
Proof.
  intros [Hr Hwf Hv Hp Happ] Hcur Hst Hoff Hfull Hcrc HR.
  assert (Hcu : is_u32 crc) by (rewrite Hcrc; apply crc_of_range, nor_slice_ok).
  pose proof (backup_header_wf _ _ (wf_u32 m 4 Hwf) Hcu) as Hqwf.
  change (nth 4 (BootMetadata_fields m) 0) with (bm_active_version m) in Hqwf.
  set (requested := BackupImage_Init (bm_active_version m) crc) in *.
  assert (Hq1 : bk_image_crc32 (BackupImage_Finalize requested) = crc) by reflexivity.
  assert (Hq2 : bk_active_version (BackupImage_Finalize requested) = bm_active_version m)
    by reflexivity.
  clearbody requested.
  eapply (wp_write in_backup_header nowhere (fun _ => True) _ _ UPDATE_BACKING_UP m);
    [auto with ota|apply triple_Backup_CommitHeader; exact Hqwf|exact I|exact Hr|exact Hcur|exact Hv|
     exact Hst|apply header_in_backup|intros a []| |].
  { intros h Hf. eapply header_write_keeps; [exact Hf|by apply rec_wf_offset|exact Happ|auto|].
    split; [exact Happ|]. unfold backup_prefix. rewrite Hoff, Hfull. symmetry. apply take_ge.
    pose proof (app_is_length _ _ Happ). lia. }
  intros [st r] w' Hf Hr' _ Hcommit. apply HR.
  - split; [exact Hr'|exact Hwf|exact Hv|exact Hp|].
    eapply app_is_frame; [exact Hf|apply nowhere_off_app|exact Happ].
  - intros Hok. destruct (Hcommit Hok) as (_ & Hh & Hvalid).
    split; [exact Hvalid|rewrite Hh, Hq1, Hcrc, Hfull; reflexivity|rewrite Hh, Hq2; exact Hv|].
    rewrite <- Hfull. eapply backup_slice_frame; [exact Hf|]. intros a Ha.
    unfold in_backup_header, BACKUP_DATA_ADDRESS, BACKUP_IMAGE_DATA_OFFSET in *. map_lia.
Qed.

(** A complete backup under a valid header allows INSTALLING. *)
Lemma wp_enter_installing m w :
  backing m m w -> holds orig (w_hw w) ->
  wp (CommitState UPDATE_INSTALLING 0 m)
    (fun '(st, m') w' => backing m' m' w' /\
       (st = IMAGE_INSTALLER_OK -> installing m' w' /\ bm_state m' = state_word UPDATE_INSTALLING))
    ok w.
Proof using Herase.
  intros [Hr Hwf Hv Hp Happ] Hh. unfold CommitState. cbv zeta.
  set (m2 := bm_set_last_error _ _). assert (Hwf2 : rec_wf m2) by wf_assign.
  assert (Hm2 : bm_state m2 = state_word UPDATE_INSTALLING /\ bm_pending_version m2 = version /\ mine m2)
    by (split; [reflexivity|split; [exact Hp|exact Hv]]).
  destruct Hm2 as (Hst2 & Hp2 & Hv2). clearbody m2.
  eapply wp_mono; [apply (wp_commit_step m2 UPDATE_INSTALLING); [exact Hwf2|exact Hv2|exact Hst2|
    exact Hh|exact Hr]| |done].
  intros [st m5] w5 (st0 & (Hr5 & Hk5 & _ & Hwf5 & Hsr & Hok5) & Hres).
  pose proof (mine_request _ _ Hsr Hv2) as Hv5.
  pose proof (eq_trans (sr_pending _ _ Hsr) Hp2) as Hp5.
  split; [split; [exact Hr5|exact Hwf5|exact Hv5|exact Hp5|by eapply images_app]|].
  intros ->. destruct Hres as [[_ Hs0]|Hres]; [|discriminate Hres].
  split; [|exact (eq_trans (sr_state _ _ Hsr) Hst2)].
  split; [exact Hr5|exact Hwf5|exact Hv5|exact Hp5|by eapply images_holds|by apply Hok5].
Qed.

Lemma wp_ResumeBackup m w :
  backing m m w -> current_metadata (w_hw w) = Some m -> bm_state m = state_word UPDATE_BACKING_UP ->
  phase_ok orig (w_hw w) UPDATE_BACKING_UP (bm_copy_offset m) ->
  wp (ResumeBackup m)
    (fun '(st, m') w' => backing m' m' w' /\
       (st = IMAGE_INSTALLER_OK -> installing m' w' /\ bm_state m' = state_word UPDATE_INSTALLING)) ok w.
Proof using Herase Hsize.
  intros [Hr Hwf Hv Hp Happ] Hcur Hst Hph. unfold ResumeBackup.
  destruct (bool_decide_reflect (BackupProgress_Validate (bm_copy_offset m) <> BACKUP_PROGRESS_VALID))
    as [Hbad|Hval]; [apply wp_ret; by split|].
  apply dec_stable in Hval. pose proof (rec_wf_offset _ Hwf) as Hpos. apply wp_bind.
  eapply wp_mono; [apply (wp_CopyLoop UPDATE_BACKING_UP APPLICATION_MAX_SIZE _ _ backup_valid);
    [apply backup_next|apply wp_backup_chunk|done..|by split]| |done].
  intros [st m1] w1 ([Hr1 Hwf1 Hv1 Hst1 Hsu1 [Ha1 Hb1]] & _ & Hok1).
  pose proof (eq_trans (su_pending _ _ Hsu1) Hp) as Hp1.
  destruct (bool_decide_reflect (st <> IMAGE_INSTALLER_OK)) as [Hbad|Hok];
    [apply wp_ret; by split|]. apply dec_stable in Hok.
  destruct (Hok1 Hok) as (Hc1 & [Hpos1 Hval1] & Hend).
  pose proof (proj1 (BackupProgress_Validate_spec _ Hpos1) Hval1) as [Hle _].
  assert (He : bm_copy_offset m1 = APPLICATION_MAX_SIZE) by lia.
  unfold backup_prefix in Hb1. rewrite He, take_ge in Hb1
    by (pose proof (app_is_length _ _ Ha1); lia).
  apply wp_bind. eapply wp_read'; [apply keeps_CalculateInternalCrc|
    by apply triple_CalculateInternalCrc|done|]. intros icrc w2 Hf2 Hr2 Hk2 _.
  apply wp_bind. eapply wp_read'; [apply keeps_CalculateBackupCrc|apply triple_CalculateBackupCrc|done|].
  intros bcrc w3 Hf3 Hr3 Hk3 Hbc. pose proof (frame_trans _ _ _ _ _ Hf2 Hf3) as Hf.
  pose proof (current_metadata_frame _ _ _ _ Hf nowhere_off_metadata) as Hc3. rewrite Hc1 in Hc3.
  assert (Hb3 : backing m1 m1 w3).
  { split; [exact Hr3|exact Hwf1|exact Hv1|exact Hp1|].
    exact (images_app _ _ Hk3 (images_app _ _ Hk2 Ha1)). }
  assert (Hfull : backup_slice (w_hw w3) 0 APPLICATION_MAX_SIZE = im_bytes orig).
  { rewrite <- Hb1. eapply backup_slice_frame; [exact Hf|]. by intros a _ []. }
  destruct bcrc as [crc|]; [|apply wp_ret; split; [exact Hb3|discriminate]].
  case_if; [apply wp_ret; split; [exact Hb3|discriminate]|]. cbv zeta. apply wp_bind.
  apply (wp_complete_backup m1); [exact Hb3|exact Hc3|exact Hst1|exact He|exact Hfull|by apply Hbc|].
  intros st4 r4 w4 Hb4 Hh4.
  destruct (bool_decide_reflect (st4 <> BACKUP_IMAGE_STORAGE_OK)) as [|Hok4];
    [apply wp_ret; split; [exact Hb4|discriminate]|].
  apply wp_enter_installing; [exact Hb4|]. apply Hh4. by apply dec_stable.
Qed.

(** The states the installer is called in. *)
Definition install_state (s : UpdateState_t) : bool :=
  match s with
  | UPDATE_ARTIFACT_READY | UPDATE_IMAGE_READY | UPDATE_BACKING_UP | UPDATE_INSTALLING
  | UPDATE_VERIFYING_INSTALL => true
  | _ => false
  end.

Lemma wp_BackUpPhase m s w :
  run w -> rec_wf m -> mine m -> bm_pending_version m = version ->
  current_metadata (w_hw w) = Some m -> bm_state m = state_word s -> install_state s = true ->
  phase_ok orig (w_hw w) s (bm_copy_offset m) ->
  wp (BackUpPhase m)
    (fun x w' => match x with inl r => handled installed r w' | inr m' => installing m' w' end) ok w.
Proof using Herase Hsize.
  intros Hr Hwf Hv Hp Hcur Hst Hs Hph. unfold BackUpPhase. apply wp_bind_exit. rewrite Hst.
  assert (Hresume : forall m1 w1, backing m1 m1 w1 -> current_metadata (w_hw w1) = Some m1 ->
    bm_state m1 = state_word UPDATE_BACKING_UP ->
    phase_ok orig (w_hw w1) UPDATE_BACKING_UP (bm_copy_offset m1) ->
    wp (if bm_state m1 =? state_word UPDATE_BACKING_UP then
          r <- ResumeBackup m1 ;;
          let '(status, working) := r in
          if bool_decide (status <> IMAGE_INSTALLER_OK)
          then leave (RevertToActiveImage working status) else go working
        else go m1)
      (fun x w' => match x with inl r => handled installed r w' | inr m' => installing m' w' end) ok w1).
  { intros m1 w1 Hb Hc1 Hs1 Hp1. rewrite Hs1, Z.eqb_refl. apply wp_bind.
    eapply wp_mono; [by apply wp_ResumeBackup| |done].
    intros [st m2] w2 [[Hr2 Hwf2 Hv2 Hp2 Ha2] Hok].
    destruct (bool_decide_reflect (st <> IMAGE_INSTALLER_OK)) as [|He].
    - apply wp_leave. by apply wp_RevertToActiveImage.
    - apply wp_go. apply Hok. by apply dec_stable. }
  assert (Hbegin : s = UPDATE_ARTIFACT_READY \/ s = UPDATE_IMAGE_READY ->
    wp (r <- BeginBackup m ;;
        let '(status, working) := r in
        if bool_decide (status <> IMAGE_INSTALLER_OK)
        then leave (FailWith working status status) else go working)
      (fun x w' => match x with
         | inl r => handled installed r w'
         | inr m1 => wp (if bm_state m1 =? state_word UPDATE_BACKING_UP then
             r <- ResumeBackup m1 ;;
             let '(status, working) := r in
             if bool_decide (status <> IMAGE_INSTALLER_OK)
             then leave (RevertToActiveImage working status) else go working
           else go m1)
           (fun x w' => match x with inl r => handled installed r w' | inr m' => installing m' w' end) ok w'
         end) ok w).
  { intros Hs'. assert (Happ : app_is orig (w_hw w)) by by destruct Hs' as [-> | ->].
    apply wp_bind. eapply wp_mono; [by apply (wp_BeginBackup m s)| |done].
    intros [st m1] w1 (Hb & Hne & Hok).
    destruct (bool_decide_reflect (st <> IMAGE_INSTALLER_OK)) as [|He].
    - apply wp_leave. destruct Hb. apply wp_FailWith; auto.
    - apply wp_go. destruct Hok as (? & ? & ?); [by apply dec_stable|].
      apply Hresume; [|done..]. destruct Hb. by split. }
  destruct s; try discriminate Hs; cbn [state_word Z.eqb Pos.eqb orb].
  - apply Hbegin. by left.
  - apply Hbegin. by right.
  - apply wp_go. apply Hresume; try done. destruct Hph. by split.
  - apply wp_go. rewrite Hst. apply wp_go. by split.
  - apply wp_go. rewrite Hst. apply wp_go. by split.
Qed.

(** The whole installation of a candidate. *)
Lemma wp_install m s w :
  run w -> rec_wf m -> mine m -> bm_pending_version m = version ->
  current_metadata (w_hw w) = Some m -> bm_state m = state_word s -> install_state s = true ->
  phase_ok orig (w_hw w) s (bm_copy_offset m) ->
  wp (run_exit (
        working <-! BackUpPhase m ;;
        r <- ValidateBackupImage ;;
        match r with
        | inl status => leave (FailWith working status status)
        | inr _ =>
            working <-! EnterInstall source working ;;
            leave (InstallAndVerify source working)
        end))
    (handled installed) ok w.
Proof using Herase Hsize.
  intros Hr Hwf Hv Hp Hcur Hst Hs Hph. apply wp_run_exit, wp_bind_exit.
  eapply wp_mono; [by apply (wp_BackUpPhase m s)| |done].
  intros [r|m1] w1 H1; [exact H1|]. apply wp_bind.
  eapply wp_read'; [apply keeps_ValidateBackupImage|apply triple_ValidateBackupImage|apply H1|].
  intros r w2 Hf2 Hr2 Hk2 Hb. pose proof (installing_read _ _ _ H1 Hf2 Hr2 Hk2) as H2.
  destruct r as [st|record].
  - apply wp_leave. destruct Hb, H2. apply wp_FailWith; auto.
  - apply wp_bind_exit. eapply wp_mono; [by apply wp_EnterInstall| |done].
    intros [r|m3] w3 H3; [exact H3|]. destruct H3 as [H3 Hs3]. apply wp_leave.
    by apply wp_InstallAndVerify.
Qed.

End candidate.

End install_safety.
