(* ===== verification/InstallTheorems.v ===== *)
(** * InstallTheorems: what the two installer handlers guarantee

    The statements about [ImageInstaller_ProcessBasicFull] and
    [ImageInstaller_ProcessRollback]: safety at every stop, the memories they
    write, and what each result means. *)

From S2P Require Import Prelude Bytes MemoryMap Crc32 AbRecord BootMetadata BackupImage.
From S2P Require Import FullImage.
From S2P Require Import Progress FirmwareContainer Device Logic MetadataStorage.
From S2P Require Import ApplicationJump.
From S2P Require Import TrialBoot SpiFlash ExternalFlashStorage AbStorage SectorRecords.
From S2P Require Import BackupImageStorage ChipIdle Recovery Chunks DeltaEngine.
From S2P Require Import SecureContainer.
From S2P Require Import ImageInstaller.
From S2P Require Import CopySteps InstallSafety.

Section install_theorems.
Context {HW : Hw} {Key : TrustedKey} {Delta : DeltaEngine}.
Context (Herase : erases_detected).
Implicit Types w : World HW.

Lemma frame_sym N F (h h' : hw) : frame N F h h' -> frame N F h' h.
Proof. intros [H1 H2]. split; intros a Ha; symmetry; auto. Qed.

(** The installer never touches the received artifact. *)
Lemma install_off_incoming a :
  EXT_INCOMING_ADDRESS <= a < EXT_INCOMING_ADDRESS + EXT_INCOMING_SIZE -> ~ install_nor a.
Proof. intros Ha [Hm|Hb]; unfold in_ext_metadata in *; map_lia. Qed.

(** The candidate of an authenticated container, installed and verified. *)
Definition CandidateInstalled (orig : Image) (c : BootMetadata_t) (h : hw) : Prop :=
  exists info, Authenticated h info /\
    TrialReady orig (fw_target_image_size (fi_header info))
      (fx_target_image_crc32 (fi_extension info)) (fw_target_version (fi_header info)) c h.

Definition install_good (orig : Image) (c : BootMetadata_t) (h : hw) : Prop :=
  CandidateInstalled orig c h \/ Restored orig c h.

Lemma ok_start orig h : safe orig h -> ok orig h h.
Proof. intros H. split; [exact H|apply frame_refl]. Qed.

Lemma wp_RejectCandidate orig h0 m s b reason w :
  run orig h0 w -> rec_wf m -> mine orig m -> bm_state m = state_word s ->
  install_state s = true -> phase_ok orig (w_hw w) s (bm_copy_offset m) ->
  b = (bm_state m =? state_word UPDATE_INSTALLING) || (bm_state m =? state_word UPDATE_VERIFYING_INSTALL) ->
  wp (RejectCandidate b m reason) (handled orig h0 (install_good orig)) (ok orig h0) w.
Proof using Herase.
  intros Hr Hwf Hv Hst Hs Hph ->. unfold RejectCandidate. rewrite Hst.
  destruct s; try discriminate Hs; cbn [state_word Z.eqb Pos.eqb orb].
  1-3: apply (wp_RevertToActiveImage Herase); [done..| |done]; apply Hph.
  all: eapply wp_mono; [apply (wp_RollbackAfterInstallFailure Herase orig h0); done| |done];
    intros x w' Hx; (eapply handled_mono; [|exact Hx]); intros c h Hc; by right.
Qed.

Lemma wp_ProcessBasicFull orig m s w :
  idle (w_hw w) -> live orig m (w_hw w) -> bm_state m = state_word s -> install_state s = true ->
  wp (ImageInstaller_ProcessBasicFull (Some m))
    (handled orig (w_hw w) (install_good orig)) (ok orig (w_hw w)) w.
Proof using Herase.
  intros Hi Hl Hst Hs. pose proof (live_safe _ _ _ Hl) as Hsafe. destruct Hl as [Hcur Hacc].
  pose proof (current_metadata_wf _ _ Hcur) as Hwf. pose proof (proj1 Hacc) as Hv.
  pose proof (accounted_state _ _ _ _ Hacc Hst) as Hph. pose proof (rec_wf_offset _ Hwf) as Hpos.
  set (h0 := w_hw w). assert (Hr : run orig h0 w) by (split; [by apply ok_start|done]).
  unfold ImageInstaller_ProcessBasicFull. cbv zeta. set (b := orb _ _). apply wp_bind.
  eapply wp_read; [auto with ota|apply triple_Storage_Init|done|]. intros init w1 Hf1 Hr1 Hk1 _.
  pose proof (current_metadata_frame _ _ _ _ Hf1 nowhere_off_metadata) as Hc1. rewrite Hcur in Hc1.
  case_if; [by apply wp_ret, handled_error|]. apply wp_bind.
  eapply wp_read; [apply keeps_LoadCandidateSource|apply triple_LoadCandidateSource|done|].
  intros r w2 Hf2 Hr2 Hk2 Hsrc.
  pose proof (current_metadata_frame _ _ _ _ Hf2 nowhere_off_metadata) as Hc2. rewrite Hc1 in Hc2.
  assert (Hph2 : phase_ok orig (w_hw w2) s (bm_copy_offset m)) by auto.
  destruct r as [st|source]; [by eapply wp_RejectCandidate|].
  destruct (Hsrc source eq_refl) as [info [Hau _ Hver Hsz Hcrc _]].
  pose proof (ah_target_size _ _ (au_accepted _ _ Hau)) as Hsize. rewrite <- Hsz in Hsize.
  apply wp_bind.
  eapply wp_read'; [apply keeps_ValidateExternalSource|apply triple_ValidateExternalSource;
    unfold is_u32; map_lia|done|]. intros st w3 Hf3 Hr3 Hk3 _.
  pose proof (current_metadata_frame _ _ _ _ Hf3 nowhere_off_metadata) as Hc3. rewrite Hc2 in Hc3.
  case_if; [eapply wp_RejectCandidate; [done..| |done]; auto|].
  eapply wp_mono; [by apply (wp_install Herase orig h0 source (bm_pending_version m) Hsize m s); auto|
    |done].
  intros x w' Hx. eapply handled_mono; [|exact Hx]. intros c [_ Hfr] [Ht|Hc]; [left|by right].
  exists info. rewrite <- Hsz, <- Hcrc, <- Hver. split; [|exact Ht].
  eapply (Authenticated_frame install_nor install_flash); [|apply install_off_incoming|exact Hau].
  eapply frame_trans; [|exact Hfr]. apply frame_sym. apply Hr2.
Qed.

(** C2: The installation handler keeps the old image.  From any installation
    state of a safe memory, at every instruction where power may fail the old
    image is in the application region or in the validated backup that the
    current metadata leads back to, and only the application region, the
    metadata pages, the backup partition and the external metadata sectors
    change.  OK means that the current record is either a trial of the
    candidate, whose bytes have the size, CRC, version and vector table of the
    authenticated container, with the backup intact, or the restored old image
    in IDLE; SOURCE_REJECTED means IDLE with the old image untouched. *)
Theorem ImageInstaller_ProcessBasicFull_safe (orig : Image) (m : BootMetadata_t)
    (s : UpdateState_t) w :
  idle (w_hw w) -> live orig m (w_hw w) -> bm_state m = state_word s -> install_state s = true ->
  wp (ImageInstaller_ProcessBasicFull (Some m))
    (fun '(status, result) w' =>
       safe orig (w_hw w') /\ frame install_nor install_flash (w_hw w) (w_hw w') /\
       idle (w_hw w') /\
       (status = IMAGE_INSTALLER_OK ->
          exists c, result = Some c /\ current_metadata (w_hw w') = Some c /\
            (CandidateInstalled orig c (w_hw w') \/ Restored orig c (w_hw w'))) /\
       (status = IMAGE_INSTALLER_SOURCE_REJECTED ->
          exists c, result = Some c /\ current_metadata (w_hw w') = Some c /\
            bm_state c = state_word UPDATE_IDLE /\ bm_active_version c = im_version orig /\
            app_is orig (w_hw w')))
    (fun h => safe orig h /\ frame install_nor install_flash (w_hw w) h) w.
Proof using Herase.
  intros Hi Hl Hst Hs. eapply wp_mono; [by apply (wp_ProcessBasicFull orig m s)| |done].
  intros [status result] w' (((Hsafe & Hf) & Hi') & Hok & Hrej). by split_and!.
Qed.

(** The states in which a rollback may be asked for. *)
Definition rollback_state (s : UpdateState_t) : bool :=
  match s with
  | UPDATE_INSTALLING | UPDATE_VERIFYING_INSTALL | UPDATE_TRIAL_BOOT | UPDATE_ROLLBACK => true
  | _ => false
  end.

Lemma wp_Rollback orig m s w :
  idle (w_hw w) -> live orig m (w_hw w) -> bm_state m = state_word s -> rollback_state s = true ->
  wp (ImageInstaller_ProcessRollback (Some m))
    (handled orig (w_hw w) (Restored orig)) (ok orig (w_hw w)) w.
Proof using Herase.
  intros Hi Hl Hst Hs. pose proof (live_safe _ _ _ Hl) as Hsafe. destruct Hl as [Hcur Hacc].
  pose proof (current_metadata_wf _ _ Hcur) as Hwf.
  pose proof (accounted_state _ _ _ _ Hacc Hst) as Hph.
  apply wp_ProcessRollback; [done|done|apply Hacc|split; [by apply ok_start|done]|done| |].
  - destruct s; try discriminate Hs; apply Hph.
  - rewrite Hst. destruct s; try discriminate Hs; try discriminate. intros _. apply Hph.
Qed.

(** C3: Rollback restores the old image.  Started from TRIAL_BOOT or resumed
    from ROLLBACK in a safe memory, it keeps the memory safe wherever power
    fails, and OK means that the application region is byte for byte the image
    of the backup, the current record is IDLE and names the version of that
    image. *)
Theorem ImageInstaller_ProcessRollback_restores (orig : Image) (m : BootMetadata_t)
    (s : UpdateState_t) w :
  idle (w_hw w) -> live orig m (w_hw w) -> bm_state m = state_word s -> rollback_state s = true ->
  wp (ImageInstaller_ProcessRollback (Some m))
    (fun '(status, result) w' =>
       safe orig (w_hw w') /\ frame install_nor install_flash (w_hw w) (w_hw w') /\
       idle (w_hw w') /\
       (status = IMAGE_INSTALLER_OK ->
          exists c, result = Some c /\ current_metadata (w_hw w') = Some c /\
            bm_state c = state_word UPDATE_IDLE /\ bm_active_version c = im_version orig /\
            app_is orig (w_hw w')))
    (fun h => safe orig h /\ frame install_nor install_flash (w_hw w) h) w.
Proof using Herase.
  intros Hi Hl Hst Hs. eapply wp_mono; [by apply (wp_Rollback orig m s)| |done].
  intros [status result] w' (((Hsafe & Hf) & Hi') & Hok & _). split_and!; [done..|].
  intros He. destruct (Hok He) as (c & Hc1 & Hc2 & []). exists c. by split_and!.
Qed.

End install_theorems.
