(* ===== verification/BootManager.v ===== *)
(** * BootManager: node-stm32f103/bootloader/src/boot_manager.c

    The bootloader's main loop: load the metadata, decide, run one action,
    repeat, at most [MAX_BOOT_TRANSITIONS] times.  A run ends in a jump to the
    application or in an error blink code.  The LED, the start-up blinking and
    the register writes of the watchdog and of the branch change no state of
    the model; the result records whether the watchdog was started and the
    vector table the branch was given. *)

From S2P Require Import Prelude Bytes MemoryMap AbRecord BootMetadata BootDecision.
From S2P Require Import FullImage.
From S2P Require Import FirmwareContainer Device Logic MetadataStorage ApplicationJump.
From S2P Require Import TrialBoot.
From S2P Require Import ExternalFlashStorage ChipIdle Recovery DeltaEngine SecureContainer.
From S2P Require Import ImageInstaller.

(** How a boot ends. *)
Inductive BootEnd :=
  | BOOT_JUMP (watchdog : bool) (vector : option ApplicationVector_t)
  | BOOT_FATAL (pulses : Z).

Definition METADATA_ERROR_PULSES : Z := 8.
Definition RECOVERY_ACTION_PULSES : Z := 9.
Definition INSTALL_ERROR_PULSES : Z := 10.
Definition TRIAL_ERROR_PULSES : Z := 11.
Definition ROLLBACK_ERROR_PULSES : Z := 12.
Definition SECURE_ERROR_PULSES : Z := 14.
Definition MAX_BOOT_TRANSITIONS : Z := 8.

Definition ApplicationErrorPulseCount (status : ApplicationValidationStatus_t) : Z :=
  match status with
  | APPLICATION_VALIDATION_BAD_VECTOR_ALIGNMENT => 1
  | APPLICATION_VALIDATION_BAD_VECTOR_RANGE => 2
  | APPLICATION_VALIDATION_BAD_STACK_RANGE => 3
  | APPLICATION_VALIDATION_BAD_STACK_ALIGNMENT => 4
  | APPLICATION_VALIDATION_BAD_RESET_THUMB_BIT => 5
  | APPLICATION_VALIDATION_BAD_RESET_RANGE => 6
  | APPLICATION_VALIDATION_OK => 7
  end.

Definition ActionNeedsInstallWork (a : BootAction_t) : bool :=
  bool_decide (a = BOOT_ACTION_PROCESS_ARTIFACT)
  || bool_decide (a = BOOT_ACTION_CONTINUE_BACKUP)
  || bool_decide (a = BOOT_ACTION_RESUME_INSTALL)
  || bool_decide (a = BOOT_ACTION_VERIFY_INSTALL).

(** The 24-bit reload register of the CMSIS SysTick set-up. *)
Definition SysTick_Config (ticks : Z) : Z := if 0xFFFFFF <? ticks then 1 else 0.

(** The locals of [BootManager_Run] that live across the transitions. *)
Record BootState := mkBootState {
  bs_metadata : BootMetadata_t;
  bs_vector : option ApplicationVector_t;
  bs_status : ApplicationValidationStatus_t;
  bs_valid : bool
}.

Section boot_manager.
Context {HW : Hw} {Key : TrustedKey} {Delta : DeltaEngine}.
Implicit Types w : World HW.

(** [metadata = ...; RefreshApplication(...)]; a failed validation leaves the
    old vector in place. *)
Definition RefreshApplication (metadata : BootMetadata_t)
    (vector : option ApplicationVector_t) : M HW BootState :=
  r <- ApplicationJump_Validate APPLICATION_START_ADDRESS ;;
  let '(status, v) := r in
  ret {| bs_metadata := metadata;
         bs_vector := match v with Some v => Some v | None => vector end;
         bs_status := status;
         bs_valid := bool_decide (status = APPLICATION_VALIDATION_OK) |}.

(** Take over the committed metadata and look at the application again. *)
Definition Continue (s : BootState) (committed : option BootMetadata_t) : M HW (BootEnd + BootState) :=
  s <- RefreshApplication (default (bs_metadata s) committed) (bs_vector s) ;;
  ret (inr s).

Definition Fatal (pulses : Z) : M HW (BootEnd + BootState) := ret (inl (BOOT_FATAL pulses)).

Definition IsContainerAction (a : BootAction_t) : bool :=
  bool_decide (a = BOOT_ACTION_PROCESS_ARTIFACT)
  || bool_decide (a = BOOT_ACTION_RESTART_VALIDATION)
  || bool_decide (a = BOOT_ACTION_RESTART_PATCH).

(** The secure-container branch. *)
Definition RunContainer (s : BootState) : M HW (BootEnd + BootState) :=
  incoming <- SecureContainer_IsIncoming ;;
  r <- SecureContainer_Process (Some (bs_metadata s)) ;;
  let '(secure_status, committed_metadata) := r in
  if (incoming : bool)
  then
    if bool_decide (secure_status <> SECURE_CONTAINER_OK)
       && bool_decide (secure_status <> SECURE_CONTAINER_SOURCE_REJECTED)
    then Fatal SECURE_ERROR_PULSES else Continue s committed_metadata
  else
    if bool_decide (secure_status <> SECURE_CONTAINER_SOURCE_REJECTED)
    then Fatal SECURE_ERROR_PULSES else Continue s committed_metadata.

Definition RunInstall (s : BootState) : M HW (BootEnd + BootState) :=
  r <- ImageInstaller_ProcessBasicFull (Some (bs_metadata s)) ;;
  let '(installer_status, committed_metadata) := r in
  if bool_decide (installer_status <> IMAGE_INSTALLER_OK)
     && bool_decide (installer_status <> IMAGE_INSTALLER_SOURCE_REJECTED)
  then Fatal INSTALL_ERROR_PULSES else Continue s committed_metadata.

Definition RunFinalize (s : BootState) : M HW (BootEnd + BootState) :=
  r <- TrialBoot_FinalizeConfirmation (Some (bs_metadata s)) ;;
  let '(trial_status, committed_metadata) := r in
  if bool_decide (trial_status <> TRIAL_BOOT_STATUS_OK)
  then Fatal TRIAL_ERROR_PULSES else Continue s committed_metadata.

Definition RunRollback (s : BootState) : M HW (BootEnd + BootState) :=
  r <- ImageInstaller_ProcessRollback (Some (bs_metadata s)) ;;
  let '(installer_status, committed_metadata) := r in
  if bool_decide (installer_status <> IMAGE_INSTALLER_OK)
  then Fatal ROLLBACK_ERROR_PULSES else Continue s committed_metadata.

(** Persist the attempt, start the watchdog, jump. *)
Definition RunTrial (s : BootState) : M HW (BootEnd + BootState) :=
  r <- TrialBoot_PrepareAttempt (Some (bs_metadata s)) ;;
  let '(trial_status, _) := r in
  if bool_decide (trial_status <> TRIAL_BOOT_STATUS_OK)
  then Fatal TRIAL_ERROR_PULSES else ret (inl (BOOT_JUMP true (bs_vector s))).

(** One pass of the transition loop. *)
Definition BootManager_Transition (s : BootState) : M HW (BootEnd + BootState) :=
  let decision := BootDecision_Evaluate (Some (bs_metadata s)) (bs_valid s) in
  let a := action decision in
  if IsContainerAction a then RunContainer s
  else if ActionNeedsInstallWork a then RunInstall s
  else if bool_decide (a = BOOT_ACTION_FINALIZE_CONFIRMATION) then RunFinalize s
  else if bool_decide (a = BOOT_ACTION_RESUME_ROLLBACK) then RunRollback s
  else if bool_decide (a = BOOT_ACTION_BOOT_TRIAL) then RunTrial s
  else if bool_decide (a = BOOT_ACTION_JUMP_ACTIVE)
       || bool_decide (a = BOOT_ACTION_RESUME_DOWNLOAD)
  then ret (inl (BOOT_JUMP false (bs_vector s)))
  else if negb (bs_valid s)
       && bool_decide (reason decision = BOOT_DECISION_REASON_APPLICATION_INVALID)
  then Fatal (ApplicationErrorPulseCount (bs_status s))
  else Fatal RECOVERY_ACTION_PULSES.

Definition BootManager_Loop (s : BootState) : M HW BootEnd :=
  loop (MAX_BOOT_TRANSITIONS + 1) (fun '(transitions, s) =>
    if transitions <? MAX_BOOT_TRANSITIONS then
      r <- BootManager_Transition s ;;
      ret (match r with
           | inl e => inr e
           | inr s => inl (transitions + 1, s)
           end)
    else ret (inr (BOOT_FATAL RECOVERY_ACTION_PULSES))) (0, s).

(** The metadata the loop starts from; [None] is the metadata error. *)
Definition LoadBootMetadata : M HW (option BootMetadata_t) :=
  r <- MetadataStorage_Load ;;
  let '(storage_status, metadata, active_slot) := r in
  if bool_decide (storage_status = METADATA_STORAGE_DEFAULTS_USED) then
    r <- MetadataStorage_Commit (Some metadata) ;;
    let '(storage_status, committed_metadata, _) := r in
    if bool_decide (storage_status = METADATA_STORAGE_OK)
    then ret (Some (default metadata committed_metadata))
    else ret (Some (BootMetadata_Finalize
                      (bm_set_generation BOOT_METADATA_FIRST_GENERATION metadata)))
  else if bool_decide (storage_status <> METADATA_STORAGE_OK) then ret None
  else ret (Some metadata).

Definition BootManager_Run (SystemCoreClock : Z) : M HW BootEnd :=
  if SysTick_Config (SystemCoreClock / 1000) <>? 0 then ret (BOOT_FATAL 7) else
  metadata <- LoadBootMetadata ;;
  match metadata with
  | None => ret (BOOT_FATAL METADATA_ERROR_PULSES)
  | Some metadata =>
      s <- RefreshApplication metadata None ;;
      BootManager_Loop s
  end.

End boot_manager.
