(* ===== verification/BootSafety.v ===== *)
(** * BootSafety: one boot, whatever the power does

    From any memory that is [safe] for an image, [BootManager_Run] keeps it
    safe at every instruction, leaves the application only through a vector
    table it has checked, counts every trial before it runs it, and never runs
    out of transitions.  The image changes in one place: a confirmed trial
    makes the installed candidate the image to protect. *)

From S2P Require Import Prelude Bytes MemoryMap AbRecord BootMetadata BackupImage.
From S2P Require Import BootDecision.
From S2P Require Import FullImage FirmwareContainer Device Logic MetadataStorage.
From S2P Require Import ApplicationJump.
From S2P Require Import TrialBoot ExternalFlashStorage AbStorage SectorRecords.
From S2P Require Import BackupImageStorage.
From S2P Require Import ChipIdle Recovery Chunks DeltaEngine SecureContainer ImageInstaller.
From S2P Require Import CopySteps.
From S2P Require Import InstallSafety InstallTheorems BootManager.

(** ** What the decision says about the state *)

Definition container_state (s : UpdateState_t) : bool :=
  match s with
  | UPDATE_ARTIFACT_READY | UPDATE_VERIFYING_CONTAINER | UPDATE_VERIFYING_BASE
  | UPDATE_PATCHING => true
  | _ => false
  end.

Definition copy_state (s : UpdateState_t) : bool :=
  match s with
  | UPDATE_IMAGE_READY | UPDATE_BACKING_UP | UPDATE_INSTALLING | UPDATE_VERIFYING_INSTALL => true
  | _ => false
  end.

(** The transitions left before a boot must end. *)
Definition rank (s : UpdateState_t) : Z :=
  if container_state s then 3
  else if copy_state s then 2
  else match s with
       | UPDATE_TRIAL_BOOT | UPDATE_CONFIRMED | UPDATE_ROLLBACK => 1
       | _ => 0
       end.

(** What each action presupposes. *)
Definition action_ok (a : BootAction_t) (s : UpdateState_t) (valid : bool) : Prop :=
  match a with
  | BOOT_ACTION_PROCESS_ARTIFACT | BOOT_ACTION_RESTART_VALIDATION | BOOT_ACTION_RESTART_PATCH =>
      container_state s = true
  | BOOT_ACTION_CONTINUE_BACKUP | BOOT_ACTION_RESUME_INSTALL | BOOT_ACTION_VERIFY_INSTALL =>
      copy_state s = true
  | BOOT_ACTION_FINALIZE_CONFIRMATION => s = UPDATE_CONFIRMED
  | BOOT_ACTION_RESUME_ROLLBACK => s = UPDATE_TRIAL_BOOT \/ s = UPDATE_ROLLBACK
  | BOOT_ACTION_BOOT_TRIAL => s = UPDATE_TRIAL_BOOT /\ valid = true
  | BOOT_ACTION_JUMP_ACTIVE | BOOT_ACTION_RESUME_DOWNLOAD =>
      (s = UPDATE_IDLE \/ s = UPDATE_RECEIVING) /\ valid = true
  | BOOT_ACTION_STAY_RECOVERY => True
  end.

Lemma state_word_inj s s' : state_word s = state_word s' -> s = s'.
Proof.
  intros H. apply (f_equal state_of_word) in H. rewrite !state_of_word_state_word in H. congruence.
Qed.

Lemma decision_action_ok m valid s :
  bm_state m = state_word s -> action_ok (action (BootDecision_Evaluate (Some m) valid)) s valid.
Proof.
  intros Hs. unfold BootDecision_Evaluate, BootDecision_Switch.
  case_if; [done|]. rewrite Hs, state_of_word_state_word.
  destruct (BOOT_METADATA_MAX_BOOT_ATTEMPTS <=? bm_boot_attempts m); destruct s, valid;
    vm_compute; auto.
Qed.

Section boot_safety.
Context {HW : Hw} {Key : TrustedKey} {Delta : DeltaEngine}.
Context (Herase : erases_detected).
Implicit Types w : World HW.

(** ** The image to protect *)

(** The image a confirmed trial leaves in charge. *)
Definition confirmed_image (h : hw) (m : BootMetadata_t) : Image :=
  mkImage (app_slice h 0 APPLICATION_MAX_SIZE) (bm_pending_version m).

(** The image protected after a boot from [h]: the old one, or the confirmed
    candidate. *)
Definition succession (orig : Image) (h : hw) (orig' : Image) : Prop :=
  orig' = orig \/
  exists m, current_metadata h = Some m /\ bm_state m = state_word UPDATE_CONFIRMED /\
    orig' = confirmed_image h m.

Definition safe_after (orig : Image) (h0 h : hw) : Prop :=
  exists orig', succession orig h0 orig' /\ safe orig' h.

(** How a boot may end. *)
Definition boot_end (orig : Image) (h0 : hw) (e : BootEnd) w : Prop :=
  idle (w_hw w) /\
  exists orig', succession orig h0 orig' /\ safe orig' (w_hw w) /\
    match e with
    | BOOT_JUMP watchdog vector =>
        vector = Some (vector_at (w_hw w)) /\ SafeVector (w_hw w) (vector_at (w_hw w)) /\
        if watchdog
        then exists c, current_metadata (w_hw w) = Some c /\
               bm_state c = state_word UPDATE_TRIAL_BOOT /\
               1 <= bm_boot_attempts c <= BOOT_METADATA_MAX_BOOT_ATTEMPTS /\
               holds orig' (w_hw w)
        else app_is orig' (w_hw w)
    | BOOT_FATAL pulses =>
        (* the recovery code, which is also the one of a boot out of transitions *)
        (pulses = RECOVERY_ACTION_PULSES ->
           exists m, current_metadata (w_hw w) = Some m /\ bm_state m = state_word UPDATE_FAILED) /\
        (* the codes of a vector table that fails a check *)
        (1 <= pulses <= 6 -> ~ SafeVector (w_hw w) (vector_at (w_hw w)))
    end.

(** Between two transitions. *)
Record booting (orig : Image) (h0 : hw) (s : BootState) w : Prop := {
  bo_idle : idle (w_hw w);
  bo_image : exists o, succession orig h0 o /\
    (live o (bs_metadata s) (w_hw w) \/
     (* the defaults, when their first commit failed *)
     (safe o (w_hw w) /\ bm_state (bs_metadata s) = state_word UPDATE_IDLE /\ app_is o (w_hw w)));
  bo_valid : BootMetadata_validb (bs_metadata s) = true;
  bo_vector : bs_valid s = true ->
    SafeVector (w_hw w) (vector_at (w_hw w)) /\ bs_vector s = Some (vector_at (w_hw w));
  bo_unsafe : bs_valid s = false -> ~ SafeVector (w_hw w) (vector_at (w_hw w));
  bo_confirmed : bm_state (bs_metadata s) = state_word UPDATE_CONFIRMED ->
    current_metadata h0 = Some (bs_metadata s) /\ frame nowhere nowhere h0 (w_hw w)
}.

(** The remaining transitions of a state. *)
Definition ranked (m : BootMetadata_t) (n : Z) : Prop :=
  exists s, bm_state m = state_word s /\ rank s <= n.

(** ** Looking at the application *)

Lemma wp_RefreshApplication m v (Q : BootState -> World HW -> Prop) C w :
  (forall s, bs_metadata s = m ->
     (bs_valid s = true -> SafeVector (w_hw w) (vector_at (w_hw w)) /\
        bs_vector s = Some (vector_at (w_hw w))) ->
     (bs_valid s = false -> ~ SafeVector (w_hw w) (vector_at (w_hw w))) -> Q s w) ->
  wp (RefreshApplication m v) Q C w.
Proof.
  intros HQ. unfold RefreshApplication. apply wp_bind.
  eapply wp_mono; [apply wp_ApplicationJump_Validate| |by intros h []].
  intros [st v'] w' (-> & Hst & Hv). apply wp_ret, HQ; [done| |]; cbn [bs_valid bs_vector]; intros Hok.
  - apply bool_decide_eq_true in Hok. split; [by apply Hst|]. by rewrite (Hv Hok).
  - apply bool_decide_eq_false in Hok. intros Hsv. by apply Hok, Hst.
Qed.

(** A current record is valid. *)
Lemma current_metadata_valid h m : current_metadata h = Some m -> BootMetadata_validb m = true.
Proof. intros Hc. exact (ab_current_valid _ _ _ Hc). Qed.

(** What one transition leaves behind, with at most rank [n] to go. *)
Definition step_ok (orig : Image) (h0 : hw) (n : Z) (x : BootEnd + BootState) w : Prop :=
  match x with
  | inl e => boot_end orig h0 e w
  | inr s => booting orig h0 s w /\ ranked (bs_metadata s) n
  end.

Lemma wp_Continue orig h0 s c o s' n w :
  idle (w_hw w) -> succession orig h0 o -> live o c (w_hw w) -> bm_state c = state_word s' ->
  s' <> UPDATE_CONFIRMED -> rank s' <= n ->
  wp (Continue s (Some c)) (step_ok orig h0 n) (safe_after orig h0) w.
Proof.
  intros Hi Hs Hl Hc Hne Hr. unfold Continue. apply wp_bind, wp_RefreshApplication.
  intros s1 Hm Hv Hu. apply wp_ret. change (bs_metadata s1 = c) in Hm. subst c.
  split; [|by exists s']. split; [done|by exists o; auto|apply (current_metadata_valid (w_hw w)), Hl|done|done|].
  intros Hcf. exfalso. apply Hne. rewrite Hc in Hcf. by apply state_word_inj.
Qed.

(** A fatal end: a code that is neither the recovery code nor one of the
    application's. *)
Definition other_code (pulses : Z) : bool :=
  (6 <? pulses) && negb (pulses =? RECOVERY_ACTION_PULSES).

Lemma wp_Fatal orig h0 o pulses n w :
  idle (w_hw w) -> succession orig h0 o -> safe o (w_hw w) -> other_code pulses = true ->
  wp (Fatal pulses) (step_ok orig h0 n) (safe_after orig h0) w.
Proof.
  intros Hi Hs Hsafe Hp. apply wp_ret. split; [done|]. exists o.
  unfold other_code in Hp. split_and!; [done..| |]; lia.
Qed.

(** ** Calls that keep the chip deselected *)

Lemma keeps_bind_exit {R A B} (m : M HW (R + A)) (k : A -> M HW (R + B)) :
  keeps m -> (forall a, keeps (k a)) -> keeps (bind_exit m k).
Proof. intros Hm Hk. apply keeps_bind; [done|]. intros [r|a]; [apply keeps_ret|apply Hk]. Qed.

Lemma keeps_leave {R A} (m : M HW R) : keeps m -> keeps (leave (A := A) m).
Proof. intros Hm. apply keeps_bind; [done|]. intros. apply keeps_ret. Qed.

Lemma keeps_run_exit {R} (m : M HW (R + R)) : keeps m -> keeps (run_exit m).
Proof. intros Hm. apply keeps_bind; [done|]. intros [r|r]; apply keeps_ret. Qed.

Lemma keeps_go {R A} (a : A) : keeps (go (R := R) a).
Proof. apply keeps_ret. Qed.

Lemma keeps_Transition m s : keeps (Transition m s).
Proof. unfold Transition. cbv zeta. apply keeps_bind; [apply keeps_CommitMetadata|]. keeps_auto. Qed.

Lemma keeps_Reject m r : keeps (Reject m r).
Proof.
  unfold Reject. cbv zeta. apply keeps_bind; [auto with ota|]. intros _.
  apply keeps_bind; [apply keeps_CommitMetadata|]. keeps_auto.
Qed.

Lemma keeps_TransitionFrom s n m : keeps (TransitionFrom s n m).
Proof.
  unfold TransitionFrom. destruct (_ =? _); [|apply keeps_go].
  apply keeps_bind; [apply keeps_Transition|]. intros [st c].
  destruct (bool_decide _); [apply keeps_leave, keeps_ret|apply keeps_go].
Qed.

Lemma keeps_AdvanceToPatching info m : keeps (AdvanceToPatching info m).
Proof.
  unfold AdvanceToPatching. apply keeps_bind_exit; [apply keeps_TransitionFrom|]. intros m1.
  destruct (_ =? _); [|apply keeps_TransitionFrom].
  apply keeps_bind_exit; [apply keeps_TransitionFrom|]. intros m2.
  apply keeps_bind; [unfold ValidateBase; keeps_auto|]. intros st.
  destruct (bool_decide _); [apply keeps_leave, keeps_Reject|apply keeps_TransitionFrom].
Qed.

Lemma keeps_Reconstruct info : keeps (Reconstruct info).
Proof.
  unfold Reconstruct, EraseReconstructed, ApplyDeltaPayload, CopyFullPayload, VerifyReconstructed,
    HashReconstructed, ReadChunks.
  repeat first [keeps_step | apply apply_keeps].
Qed.

Lemma keeps_IsIncoming : keeps SecureContainer_IsIncoming.
Proof. unfold SecureContainer_IsIncoming. keeps_auto. Qed.

Lemma keeps_SecureContainer_Process m : keeps (SecureContainer_Process m).
Proof.
  unfold SecureContainer_Process. destruct m as [m|]; [|apply keeps_ret].
  apply keeps_bind; [auto with ota|]. intros []; cbn [negb]; [|apply keeps_ret].
  apply keeps_bind; [apply keeps_IsIncoming|]. intros []; cbn [negb]; [|apply keeps_Reject].
  apply keeps_bind; [apply keeps_LoadVerifiedInfo|]. intros [st|info]; [apply keeps_Reject|].
  cbv zeta. destruct (bool_decide _); [apply keeps_Reject|].
  apply keeps_run_exit, keeps_bind_exit; [apply keeps_AdvanceToPatching|]. intros m1.
  destruct (negb _); [apply keeps_leave, keeps_Reject|].
  apply keeps_bind; [apply keeps_Reconstruct|]. intros st.
  destruct (bool_decide _); [apply keeps_leave, keeps_Reject|].
  apply keeps_leave. unfold CommitImageReady. cbv zeta.
  apply keeps_bind; [apply keeps_CommitMetadata|]. keeps_auto.
Qed.

Lemma keeps_TrialBoot_Commit m : keeps (TrialBoot_Commit m).
Proof.
  unfold TrialBoot_Commit. apply keeps_bind; [apply keeps_MetadataStorage_Commit|]. keeps_auto.
Qed.

(** ** Commits of the trial *)

Lemma wp_TrialBoot_Commit_safe o o' m w :
  rec_wf m -> safe o (w_hw w) -> accounted o' m (w_hw w) ->
  wp (TrialBoot_Commit m)
    (fun '(st, c) w' =>
       frame nowhere in_boot_metadata (w_hw w) (w_hw w') /\
       (safe o (w_hw w') \/ safe o' (w_hw w')) /\
       (st = METADATA_STORAGE_OK ->
          exists r, c = Some r /\ current_metadata (w_hw w') = Some r /\ same_request m r /\
            safe o' (w_hw w')))
    (fun h => safe o h \/ safe o' h) w.
Proof using Herase.
  intros Hwf Hs Ha. unfold TrialBoot_Commit. apply wp_bind.
  pose proof (target_slot_real (w_hw w)) as Hslot.
  eapply wp_mono; [apply wp_MetadataStorage_Commit; [done|by apply Herase]| |].
  - intros [[st c] slot] w' (Hf & Hok & Hbad).
    assert (Hf' : frame nowhere in_boot_metadata (w_hw w) (w_hw w')).
    { eapply frame_mono; [done| |exact Hf]. intros a. by apply metadata_page_in. }
    destruct (bool_decide_reflect (st = METADATA_STORAGE_OK)) as [->|Hne]; apply wp_ret.
    + destruct (Hok eq_refl) as [-> Hcur].
      assert (safe o' (w_hw w')).
      { eapply (committed_safe o' m); [done|exact Hf|by apply metadata_off_app|
          apply nowhere_off_backup|exact Hcur|apply same_decision_refl|done]. }
      split; [done|]. split; [by right|]. intros _. eexists. split; [done|].
      split; [exact Hcur|]. split; [apply candidate_same_request|done].
    + split; [done|]. split; [by eapply after_interruption_either; [| |apply Hbad|..]|done].
  - intros h [Hf Hint]. by eapply after_interruption_either.
Qed.

(** Counting an attempt. *)
Lemma wp_PrepareAttempt_safe o m w :
  live o m (w_hw w) -> bm_state m = state_word UPDATE_TRIAL_BOOT -> idle (w_hw w) ->
  wp (TrialBoot_PrepareAttempt (Some m))
    (fun '(st, c) w' => idle (w_hw w') /\ frame nowhere in_boot_metadata (w_hw w) (w_hw w') /\
       safe o (w_hw w') /\
       (st = TRIAL_BOOT_STATUS_OK ->
          exists r, current_metadata (w_hw w') = Some r /\
            bm_state r = state_word UPDATE_TRIAL_BOOT /\
            1 <= bm_boot_attempts r <= BOOT_METADATA_MAX_BOOT_ATTEMPTS /\ holds o (w_hw w')))
    (safe o) w.
Proof using Herase.
  intros Hl Hst Hi. pose proof (live_safe _ _ _ Hl) as Hs. destruct Hl as [Hcur Hacc].
  pose proof (current_metadata_wf _ _ Hcur) as Hwf.
  pose proof (accounted_state _ _ _ _ Hacc Hst) as Hh. cbn [phase_ok] in Hh.
  unfold TrialBoot_PrepareAttempt. rewrite Hst, Z.eqb_refl. cbn [negb].
  destruct (Z.leb_spec BOOT_METADATA_MAX_BOOT_ATTEMPTS (bm_boot_attempts m)) as [Hm|Hm].
  { apply wp_ret. split_and!; [done|apply frame_refl|done|discriminate]. }
  pose proof (wf_u32 m 10 Hwf : is_u32 (bm_boot_attempts m)) as Hu.
  rewrite u32_small by (unfold is_u32, BOOT_METADATA_MAX_BOOT_ATTEMPTS in *; lia).
  cbv zeta. set (m1 := bm_set_last_error 0 _).
  assert (Hwf1 : rec_wf m1).
  { wf_assign. unfold is_u32, BOOT_METADATA_MAX_BOOT_ATTEMPTS in *. lia. }
  assert (Hm1 : bm_state m1 = bm_state m /\ bm_active_version m1 = bm_active_version m /\
    bm_copy_offset m1 = bm_copy_offset m /\ bm_boot_attempts m1 = bm_boot_attempts m + 1) by done.
  destruct Hm1 as (E1 & E2 & E3 & E4). clearbody m1.
  assert (Hacc1 : accounted o m1 (w_hw w)) by by apply (accounted_same o m).
  apply wp_bind. eapply wp_mono; [apply wp_keeps; [apply keeps_TrialBoot_Commit|done|];
    by apply (wp_TrialBoot_Commit_safe o o)| |by intros h []].
  intros [st c] w' [(Hf & Hs' & Hok) Hi']. assert (Hs1 : safe o (w_hw w')) by by destruct Hs'.
  destruct (bool_decide_reflect (st <> METADATA_STORAGE_OK)) as [|He]; apply wp_ret.
  { split_and!; [done..|discriminate]. }
  apply dec_stable in He. destruct (Hok He) as (r & _ & Hr & Hsr & _).
  split_and!; [done..|]. intros _. exists r. split; [done|].
  split; [rewrite (sr_state _ _ Hsr); congruence|].
  split; [rewrite (sr_attempts _ _ Hsr), E4; unfold is_u32 in Hu; lia|].
  eapply holds_frame; [exact Hf|apply nowhere_off_backup|exact Hh].
Qed.

(** Making the confirmed candidate the active image. *)
Lemma wp_Finalize_safe o m w :
  live o m (w_hw w) -> bm_state m = state_word UPDATE_CONFIRMED -> idle (w_hw w) ->
  let o' := confirmed_image (w_hw w) m in
  wp (TrialBoot_FinalizeConfirmation (Some m))
    (fun '(st, c) w' => idle (w_hw w') /\ (safe o (w_hw w') \/ safe o' (w_hw w')) /\
       (st = TRIAL_BOOT_STATUS_OK ->
          exists r, c = Some r /\ bm_state r = state_word UPDATE_IDLE /\ live o' r (w_hw w')))
    (fun h => safe o h \/ safe o' h) w.
Proof using Herase.
  intros Hl Hst Hi o'. pose proof (live_safe _ _ _ Hl) as Hs. destruct Hl as [Hcur Hacc].
  pose proof (current_metadata_wf _ _ Hcur) as Hwf.
  unfold TrialBoot_FinalizeConfirmation.
  case_if; [apply wp_ret; split_and!; [done|by left|discriminate]|]. cbv zeta.
  set (m1 := bm_set_last_error 0 _).
  assert (Hwf1 : rec_wf m1) by (wf_assign; exact (wf_u32 m 5 Hwf)).
  assert (Hm1 : bm_state m1 = state_word UPDATE_IDLE /\ bm_active_version m1 = im_version o') by done.
  destruct Hm1 as [E1 E2]. clearbody m1.
  assert (Hacc1 : accounted o' m1 (w_hw w)).
  { split; [exact E2|]. exists UPDATE_IDLE. split; [exact E1|]. reflexivity. }
  apply wp_bind. eapply wp_mono; [apply wp_keeps; [apply keeps_TrialBoot_Commit|done|];
    by apply (wp_TrialBoot_Commit_safe o o')| |done].
  intros [st c] w' [(Hf & Hs' & Hok) Hi'].
  destruct (bool_decide_reflect (st <> METADATA_STORAGE_OK)) as [|He]; apply wp_ret.
  { split_and!; [done..|discriminate]. }
  apply dec_stable in He. destruct (Hok He) as (r & -> & Hr & Hsr & Hs1).
  split_and!; [done..|]. intros _. exists r. split; [done|].
  split; [by rewrite (sr_state _ _ Hsr)|]. split; [done|].
  unfold safe in Hs1. by rewrite Hr in Hs1.
Qed.

(** ** The five kinds of work *)

Lemma safe_live o c h : current_metadata h = Some c -> safe o h -> live o c h.
Proof. intros Hc Hs. split; [done|]. unfold safe in Hs. by rewrite Hc in Hs. Qed.

Lemma wp_RunContainer orig h0 o s st w :
  idle (w_hw w) -> succession orig h0 o -> live o (bs_metadata s) (w_hw w) ->
  bm_state (bs_metadata s) = state_word st -> container_state st = true ->
  wp (RunContainer s) (step_ok orig h0 2) (safe_after orig h0) w.
Proof using Herase.
  intros Hi Ho Hl Hst Hc. unfold RunContainer. apply wp_bind.
  eapply wp_mono; [by apply triple_IsIncoming| |].
  2: { intros h Hf. exists o. split; [done|]. eapply safe_frame; [exact Hf|apply nowhere_off_app|
         apply nowhere_off_backup|apply nowhere_off_metadata|by apply live_safe in Hl]. }
  intros incoming w1 [Hf1 Hi1].
  assert (Hl1 : live o (bs_metadata s) (w_hw w1)).
  { apply safe_live; [|eapply safe_frame; [exact Hf1|apply nowhere_off_app|apply nowhere_off_backup|
      apply nowhere_off_metadata|by apply live_safe in Hl]].
    rewrite (current_metadata_frame _ _ _ _ Hf1 nowhere_off_metadata). apply Hl. }
  apply wp_bind. eapply wp_mono; [apply wp_keeps; [apply keeps_SecureContainer_Process|done|];
    eapply (wp_SecureContainer_Process Herase o _ st); [done..|by destruct st]| |by intros h Hh; exists o].
  intros [status result] w2 [(Hs2 & _ & Hok & Hrej) Hi2]. cbn [fst snd] in Hok, Hrej.
  assert (Hbad : wp (Fatal SECURE_ERROR_PULSES) (step_ok orig h0 2) (safe_after orig h0) w2)
    by by apply (wp_Fatal orig h0 o).
  assert (Hrejected : status = SECURE_CONTAINER_SOURCE_REJECTED ->
    wp (Continue s result) (step_ok orig h0 2) (safe_after orig h0) w2).
  { intros He. destruct (Hrej He) as (c & -> & Hcur & Hstate & _).
    eapply (wp_Continue orig h0 s c o UPDATE_IDLE); [done..|by apply safe_live|done|done|done]. }
  destruct (bool_decide_reflect (status <> SECURE_CONTAINER_SOURCE_REJECTED)) as [Hr|Hr].
  2: { apply dec_stable in Hr. rewrite andb_false_r. destruct incoming; by apply Hrejected. }
  rewrite andb_true_r. destruct incoming; [|done].
  destruct (bool_decide_reflect (status <> SECURE_CONTAINER_OK)) as [|He]; [done|].
  apply dec_stable in He. destruct (Hok He) as (info & c & -> & Hir).
  eapply (wp_Continue orig h0 s c o UPDATE_IMAGE_READY);
    [done..|by apply safe_live; [apply Hir|]|apply Hir|done|done].
Qed.

Lemma wp_RunInstall orig h0 o s st w :
  idle (w_hw w) -> succession orig h0 o -> live o (bs_metadata s) (w_hw w) ->
  bm_state (bs_metadata s) = state_word st -> copy_state st = true ->
  wp (RunInstall s) (step_ok orig h0 1) (safe_after orig h0) w.
Proof using Herase.
  intros Hi Ho Hl Hst Hc. unfold RunInstall. apply wp_bind.
  eapply wp_mono; [by eapply (wp_ProcessBasicFull Herase o); [done..|destruct st]| |].
  2: { intros h [Hs _]. by exists o. }
  intros [status result] w2 ([[Hs2 _] Hi2] & Hok & Hrej). cbn [fst snd] in Hok, Hrej.
  destruct (bool_decide_reflect (status <> IMAGE_INSTALLER_SOURCE_REJECTED)) as [Hr|Hr].
  - rewrite andb_true_r. destruct (bool_decide_reflect (status <> IMAGE_INSTALLER_OK)) as [|He];
      [by apply (wp_Fatal orig h0 o)|].
    apply dec_stable in He. destruct (Hok He) as (c & -> & Hcur & [[info [_ Ht]]|Hre]).
    + eapply (wp_Continue orig h0 s c o UPDATE_TRIAL_BOOT); [done..|by apply safe_live|apply Ht|done|done].
    + eapply (wp_Continue orig h0 s c o UPDATE_IDLE); [done..|by apply safe_live|apply Hre|done|done].
  - apply dec_stable in Hr. rewrite andb_false_r. destruct (Hrej Hr) as (c & -> & Hcur & Hstate & _).
    eapply (wp_Continue orig h0 s c o UPDATE_IDLE); [done..|by apply safe_live|done|done|done].
Qed.

Lemma wp_RunRollback orig h0 o s st w :
  idle (w_hw w) -> succession orig h0 o -> live o (bs_metadata s) (w_hw w) ->
  bm_state (bs_metadata s) = state_word st -> st = UPDATE_TRIAL_BOOT \/ st = UPDATE_ROLLBACK ->
  wp (RunRollback s) (step_ok orig h0 0) (safe_after orig h0) w.
Proof using Herase.
  intros Hi Ho Hl Hst Hc. unfold RunRollback. apply wp_bind.
  eapply wp_mono; [by eapply (wp_Rollback Herase o); [done..|destruct Hc as [-> | ->]]| |].
  2: { intros h [Hs _]. by exists o. }
  intros [status result] w2 ([[Hs2 _] Hi2] & Hok & _). cbn [fst snd] in Hok.
  destruct (bool_decide_reflect (status <> IMAGE_INSTALLER_OK)) as [|He];
    [by apply (wp_Fatal orig h0 o)|].
  apply dec_stable in He. destruct (Hok He) as (c & -> & Hcur & Hre).
  eapply (wp_Continue orig h0 s c o UPDATE_IDLE); [done..|by apply safe_live|apply Hre|done|done].
Qed.

Lemma wp_RunFinalize orig h0 o s w :
  idle (w_hw w) -> succession orig h0 o -> live o (bs_metadata s) (w_hw w) ->
  bm_state (bs_metadata s) = state_word UPDATE_CONFIRMED ->
  current_metadata h0 = Some (bs_metadata s) -> frame nowhere nowhere h0 (w_hw w) ->
  wp (RunFinalize s) (step_ok orig h0 0) (safe_after orig h0) w.
Proof using Herase.
  intros Hi Ho Hl Hst Hcur0 Hf0. unfold RunFinalize. apply wp_bind.
  assert (Ho' : succession orig h0 (confirmed_image (w_hw w) (bs_metadata s))).
  { right. exists (bs_metadata s). split_and!; [done..|]. unfold confirmed_image. f_equal.
    eapply app_slice_frame; [exact Hf0|apply nowhere_off_app|done|done]. }
  eapply wp_mono; [by apply (wp_Finalize_safe o)| |].
  2: { intros h [Hs|Hs]; [by exists o|by eexists]. }
  intros [status result] w2 (Hi2 & Hs2 & Hok). cbn [fst snd] in Hok.
  destruct (bool_decide_reflect (status <> TRIAL_BOOT_STATUS_OK)) as [|He].
  { destruct Hs2 as [Hs2|Hs2]; [by apply (wp_Fatal orig h0 o)|].
    by eapply (wp_Fatal orig h0 (confirmed_image _ _)). }
  apply dec_stable in He. destruct (Hok He) as (c & -> & Hstate & Hlive).
  by eapply (wp_Continue orig h0 s c _ UPDATE_IDLE).
Qed.

Lemma wp_RunTrial orig h0 o s n w :
  idle (w_hw w) -> succession orig h0 o -> live o (bs_metadata s) (w_hw w) ->
  bm_state (bs_metadata s) = state_word UPDATE_TRIAL_BOOT ->
  SafeVector (w_hw w) (vector_at (w_hw w)) -> bs_vector s = Some (vector_at (w_hw w)) ->
  wp (RunTrial s) (step_ok orig h0 n) (safe_after orig h0) w.
Proof using Herase.
  intros Hi Ho Hl Hst Hsv Hv. unfold RunTrial. apply wp_bind.
  eapply wp_mono; [by apply (wp_PrepareAttempt_safe o)| |by intros h Hs; exists o].
  intros [status result] w2 (Hi2 & Hf2 & Hs2 & Hok). cbn [fst snd] in Hok.
  destruct (bool_decide_reflect (status <> TRIAL_BOOT_STATUS_OK)) as [|He];
    [by apply (wp_Fatal orig h0 o)|].
  apply dec_stable in He. destruct (Hok He) as (c & Hcur & Hstate & Hatt & Hh).
  apply wp_ret. split; [done|]. exists o. split_and!; [done..| | |by exists c].
  - rewrite Hv. f_equal. symmetry. eapply vector_frame; [exact Hf2|apply boot_metadata_off_app].
  - eapply safe_vector_frame; [exact Hf2|apply boot_metadata_off_app|done].
Qed.

(** ** One transition *)

Lemma booting_live orig h0 s st w :
  booting orig h0 s w -> bm_state (bs_metadata s) = state_word st -> st <> UPDATE_IDLE ->
  exists o, succession orig h0 o /\ live o (bs_metadata s) (w_hw w).
Proof.
  intros [_ (o & Ho & [Hl|(_ & Hidle & _)]) _ _ _ _] Hst Hne; [by exists o|].
  exfalso. apply Hne, state_word_inj. congruence.
Qed.

Lemma booting_safe orig h0 s w :
  booting orig h0 s w -> exists o, succession orig h0 o /\ safe o (w_hw w).
Proof.
  intros [_ (o & Ho & [Hl|(Hs & _)]) _ _ _ _]; exists o; [|done]. by apply live_safe in Hl.
Qed.

(** A jump without the watchdog: the state says the old image is in place. *)
Lemma booting_app orig h0 s st w :
  booting orig h0 s w -> bm_state (bs_metadata s) = state_word st ->
  st = UPDATE_IDLE \/ st = UPDATE_RECEIVING ->
  exists o, succession orig h0 o /\ safe o (w_hw w) /\ app_is o (w_hw w).
Proof.
  intros [_ (o & Ho & [Hl|(Hs & _ & Ha)]) _ _ _ _] Hst Hor; exists o; [|done].
  split_and!; [done|by apply live_safe in Hl|].
  pose proof (accounted_state _ _ _ _ (proj2 Hl) Hst) as Hp. by destruct Hor as [-> | ->].
Qed.

(** The two ends of a boot that stays: a vector table that failed a check, or a
    record in FAILED. *)
Lemma wp_stay_invalid orig h0 s n w :
  booting orig h0 s w -> bs_valid s = false ->
  wp (Fatal (ApplicationErrorPulseCount (bs_status s))) (step_ok orig h0 n) (safe_after orig h0) w.
Proof.
  intros Hb Hv. destruct (booting_safe _ _ _ _ Hb) as (o & Ho & Hs). apply wp_ret.
  split; [apply Hb|]. exists o. split_and!; [done..| |intros _; by apply (bo_unsafe _ _ _ _ Hb)].
  by destruct (bs_status s).
Qed.

Lemma wp_stay orig h0 s n w :
  booting orig h0 s w ->
  let decision := BootDecision_Evaluate (Some (bs_metadata s)) (bs_valid s) in
  action decision = BOOT_ACTION_STAY_RECOVERY ->
  negb (bs_valid s) && bool_decide (reason decision = BOOT_DECISION_REASON_APPLICATION_INVALID) = false ->
  wp (Fatal RECOVERY_ACTION_PULSES) (step_ok orig h0 n) (safe_after orig h0) w.
Proof.
  intros Hb decision Ha Hr. destruct (booting_safe _ _ _ _ Hb) as (o & Ho & Hs). apply wp_ret.
  split; [apply Hb|]. exists o. split_and!; [done..| |unfold RECOVERY_ACTION_PULSES; lia].
  intros _. destruct (decision_due (bs_metadata s) (bs_valid s)) as [Hd Hrep].
  pose proof (bo_valid _ _ _ _ Hb) as Hv. apply Hd in Ha. cbn [due] in Ha.
  destruct Ha as [Ha|[Ha|(Hf & Hst)]]; [congruence| |].
  - destruct (booting_live _ _ _ _ _ Hb Ha ltac:(done)) as (o' & _ & Hl). exists (bs_metadata s).
    split; [apply Hl|done].
  - exfalso. rewrite Hf in Hr. cbn [negb andb] in Hr. apply bool_decide_eq_false in Hr. apply Hr.
    subst decision. rewrite Hf in Hrep |- *. apply Hrep. cbn [reported]. tauto.
Qed.

(** Evaluate the comparisons of a known action. *)
Ltac known_action :=
  repeat match goal with
  | |- context [IsContainerAction ?a] =>
      let b := eval vm_compute in (IsContainerAction a) in change (IsContainerAction a) with b
  | |- context [ActionNeedsInstallWork ?a] =>
      let b := eval vm_compute in (ActionNeedsInstallWork a) in
      change (ActionNeedsInstallWork a) with b
  | |- context [@bool_decide (@eq BootAction_t ?a ?b) ?d] =>
      let v := eval vm_compute in (@bool_decide (@eq BootAction_t a b) d) in
      change (@bool_decide (@eq BootAction_t a b) d) with v
  end; cbn [orb]; cbv iota.

Lemma step_ok_mono orig h0 n n' x w : n <= n' -> step_ok orig h0 n x w -> step_ok orig h0 n' x w.
Proof.
  intros Hn. destruct x as [e|s]; [done|]. intros [Hb (st & Hs & Hr)]. split; [done|].
  exists st. split; [done|lia].
Qed.

Lemma wp_BootTransition orig h0 s st w :
  booting orig h0 s w -> bm_state (bs_metadata s) = state_word st ->
  wp (BootManager_Transition s) (step_ok orig h0 (rank st - 1)) (safe_after orig h0) w.
Proof using Herase.
  intros Hb Hst. pose proof (decision_action_ok _ (bs_valid s) _ Hst) as Hok.
  pose proof (wp_stay orig h0 s (rank st - 1) w Hb) as Hstay. cbv zeta in Hstay.
  pose proof (bo_idle _ _ _ _ Hb) as Hi. pose proof (bo_vector _ _ _ _ Hb) as Hvec.
  assert (Hlive := booting_live _ _ _ _ _ Hb Hst).
  assert (Hmono : forall n m, n <= rank st - 1 ->
    wp m (step_ok orig h0 n) (safe_after orig h0) w ->
    wp m (step_ok orig h0 (rank st - 1)) (safe_after orig h0) w).
  { intros n m Hn Hm. eapply wp_mono; [exact Hm| |done]. intros x w'. by apply step_ok_mono. }
  assert (Hjump : bs_valid s = true -> st = UPDATE_IDLE \/ st = UPDATE_RECEIVING ->
    wp (ret (inl (BOOT_JUMP false (bs_vector s)))) (step_ok orig h0 (rank st - 1))
      (safe_after orig h0) w).
  { intros Hv Hor. destruct (booting_app _ _ _ _ _ Hb Hst Hor) as (o & Ho & Hs & Happ).
    destruct (Hvec Hv) as [Hsv Heq]. apply wp_ret. split; [done|]. by exists o. }
  unfold BootManager_Transition. cbv zeta.
  destruct (action _) eqn:Ha; cbn [action_ok] in Hok; known_action.
  1,2: destruct Hok as [Hor Hv]; by apply Hjump.
  1-3: destruct Hlive as (o & Ho & Hl); [by intros ->|];
    apply (Hmono 2); [unfold rank; rewrite Hok; lia|by apply (wp_RunContainer orig h0 o s st)].
  1-3: destruct Hlive as (o & Ho & Hl); [by intros ->|];
    apply (Hmono 1); [destruct st; try discriminate Hok; done|by apply (wp_RunInstall orig h0 o s st)].
  - destruct Hok as [-> Hv]. destruct Hlive as (o & Ho & Hl); [done|].
    destruct (Hvec Hv) as [Hsv Heq]. by apply (wp_RunTrial orig h0 o).
  - subst st. destruct Hlive as (o & Ho & Hl); [done|].
    destruct (bo_confirmed _ _ _ _ Hb Hst) as [Hc Hf]. by apply (wp_RunFinalize orig h0 o).
  - destruct Hlive as (o & Ho & Hl); [by destruct Hok as [-> | ->]|].
    apply (Hmono 0); [by destruct Hok as [-> | ->]|by apply (wp_RunRollback orig h0 o s st)].
  - destruct (_ && _) eqn:Hr; [|by apply Hstay]. apply andb_true_iff in Hr as [Hr _].
    apply wp_stay_invalid; [done|by apply negb_true_iff].
Qed.

(** ** The transition loop *)

(** The transition count and the remaining rank never exceed three together, so
    the loop ends by itself, well below [MAX_BOOT_TRANSITIONS]. *)
Definition looping (orig : Image) (h0 : hw) (x : Z * BootState) w : Prop :=
  0 <= fst x /\ booting orig h0 (snd x) w /\ ranked (bs_metadata (snd x)) (3 - fst x).

Lemma rank_range st : 0 <= rank st <= 3.
Proof. by destruct st. Qed.

Lemma wp_BootManager_Loop orig h0 s st w :
  booting orig h0 s w -> bm_state (bs_metadata s) = state_word st ->
  wp (BootManager_Loop s) (boot_end orig h0) (safe_after orig h0) w.
Proof using Herase.
  intros Hb Hst. unfold BootManager_Loop.
  apply (wp_loop (looping orig h0) (fun x => MAX_BOOT_TRANSITIONS - fst x)).
  2: { split; [done|]. split; [done|]. exists st. split; [done|]. cbn [fst]. apply rank_range. }
  2: { unfold MAX_BOOT_TRANSITIONS. cbn [fst]. lia. }
  clear s st Hb Hst. intros [i s] w1 (Hi0 & Hb & (st & Hst & Hr)) _. cbn [fst snd] in *.
  pose proof (rank_range st) as Hrange. unfold MAX_BOOT_TRANSITIONS.
  rewrite (proj2 (Z.ltb_lt i 8)) by lia.
  apply wp_bind. eapply wp_mono; [by apply (wp_BootTransition orig h0 s st)| |done].
  intros [e|s1] w2 Hx; apply wp_ret; [exact Hx|]. destruct Hx as [Hb1 (st1 & Hst1 & Hr1)].
  split; [|cbn [fst]; lia]. split; [cbn [fst]; lia|]. split; [done|].
  exists st1. split; [done|]. cbn [fst]. lia.
Qed.

(** ** The whole boot *)

(** What the transitions start from: the record of the memory, or an IDLE one
    when the memory had none. *)
Definition loaded (orig : Image) (h0 : hw) (m : BootMetadata_t) w : Prop :=
  idle (w_hw w) /\ BootMetadata_validb m = true /\
  ((current_metadata h0 = Some m /\ frame nowhere nowhere h0 (w_hw w)) \/
   (safe orig (w_hw w) /\ bm_state m = state_word UPDATE_IDLE /\ app_is orig (w_hw w))).

Lemma defaults_wf : rec_wf (BootMetadata_Init APPLICATION_VERSION).
Proof.
  unfold rec_wf. cbn. repeat (apply Forall_cons; split); try apply Forall_nil;
    vm_compute; split; congruence.
Qed.

(** The copy that replaces a record whose first commit failed. *)
Lemma fallback_state :
  let m := BootMetadata_Finalize (bm_set_generation BOOT_METADATA_FIRST_GENERATION
    (BootMetadata_Init APPLICATION_VERSION)) in
  bm_state m = state_word UPDATE_IDLE /\ BootMetadata_validb m = true.
Proof. vm_compute. done. Qed.

Lemma wp_LoadBootMetadata orig w :
  idle (w_hw w) -> safe orig (w_hw w) ->
  wp LoadBootMetadata
    (fun r w' => exists m, r = Some m /\ loaded orig (w_hw w) m w') (safe orig) w.
Proof using Herase.
  intros Hi Hs. unfold LoadBootMetadata. apply wp_bind.
  eapply wp_mono; [apply wp_Load| |by intros h []].
  intros [[status m] slot] w' [-> Hm]. destruct (current_metadata (w_hw w)) as [r|] eqn:Hcur.
  - destruct Hm as [-> ->]. cbn [bool_decide decide_rel MetadataStorageStatus_eq].
    apply wp_ret. exists r. split; [done|]. split; [done|].
    split; [by apply (current_metadata_valid (w_hw w))|]. left. split; [done|apply frame_refl].
  - destruct Hm as [-> ->].
    pose proof Hs as Hs0. unfold safe in Hs0. rewrite Hcur in Hs0. destruct Hs0 as [Happ Hver].
    set (m := BootMetadata_Init APPLICATION_VERSION). pose proof defaults_wf as Hwf. fold m in Hwf.
    assert (Hacc : accounted orig m (w_hw w)).
    { split; [by rewrite Hver|]. by exists UPDATE_IDLE. }
    pose proof fallback_state as Hfall. cbv zeta in Hfall. fold m in Hfall. destruct Hfall as [Hfall Hfv].
    assert (Hidle : bm_state m = state_word UPDATE_IDLE) by done. clearbody m.
    rewrite bool_decide_eq_true_2 by done.
    pose proof (target_slot_real (w_hw w)) as Hslot. apply wp_bind.
    eapply wp_mono; [apply wp_keeps; [apply keeps_MetadataStorage_Commit|done|
      apply wp_MetadataStorage_Commit; [done|by apply Herase]]| |].
    2: { intros h [Hf Ha]. by eapply after_interruption_safe. }
    intros [[st c] slot'] w1 [(Hf & Hok & Hbad) Hi1].
    assert (Happ1 : app_is orig (w_hw w1))
      by (eapply app_is_frame; [exact Hf|by apply metadata_off_app|done]).
    case_bool_decide as He; apply wp_ret.
    + destruct (Hok He) as [-> Hc]. eexists. split; [done|]. split; [done|].
      split; [exact (current_metadata_valid _ _ Hc)|]. right.
      split; [|split; [|done]].
      * eapply (committed_safe orig m); [done|exact Hf|by apply metadata_off_app|
          apply nowhere_off_backup|exact Hc|apply same_decision_refl|done].
      * exact (eq_trans (sr_state _ _ (candidate_same_request (w_hw w) m)) Hidle).
    + eexists. split; [done|]. split; [done|]. split; [done|]. right. split; [|done].
      by eapply after_interruption_safe; [| |apply Hbad|..].
Qed.

(** A boot from a safe memory: wherever the power fails, the memory stays safe
    for the old image or the confirmed one; the boot ends, within its
    transitions, in a jump through a checked vector table or in an error. *)
Lemma wp_BootManager_Run orig clock w :
  idle (w_hw w) -> safe orig (w_hw w) ->
  wp (BootManager_Run clock) (boot_end orig (w_hw w)) (safe_after orig (w_hw w)) w.
Proof using Herase.
  intros Hi Hs. unfold BootManager_Run. case_if.
  { apply wp_ret. split; [done|]. exists orig. split; [by left|]. split; [done|].
    unfold RECOVERY_ACTION_PULSES. split; lia. }
  apply wp_bind. eapply wp_mono; [by apply (wp_LoadBootMetadata orig)| |].
  2: { intros h Hh. exists orig. split; [by left|done]. }
  intros r w1 (m & -> & Hi1 & Hval & Hm). apply wp_bind, wp_RefreshApplication.
  intros s Hsm Hvec Hunsafe. subst m.
  destruct Hm as [[Hcur Hf]|(Hs1 & Hst & Happ)].
  - assert (Hl : live orig (bs_metadata s) (w_hw w1)).
    { apply safe_live; [by rewrite (current_metadata_frame _ _ _ _ Hf nowhere_off_metadata)|].
      eapply safe_frame; [exact Hf|apply nowhere_off_app|apply nowhere_off_backup|
        apply nowhere_off_metadata|done]. }
    destruct (proj2 (proj2 Hl)) as (st & Hst & _).
    apply (wp_BootManager_Loop orig (w_hw w) s st); [|done].
    split; [done|exists orig; split; [by left|by left]|done..].
  - apply (wp_BootManager_Loop orig (w_hw w) s UPDATE_IDLE); [|done].
    split; [done|exists orig; split; [by left|by right]|done..|].
    intros Hc. rewrite Hst in Hc. by apply state_word_inj in Hc.
Qed.

(** C1: A whole boot is safe.  Start BootManager_Run in any memory that is safe
    for an image (the running one, or its validated backup, can be reached from
    the current metadata).  Wherever the power fails, the memory is safe for
    that image, or, when the boot was finalising a confirmed trial, for the
    confirmed candidate.  If it returns, it jumps through a vector table that
    passes every check and is the one in flash, with the watchdog only for a
    trial whose attempt (1 to 3) is already stored and whose backup is intact,
    without it only to the protected image itself, or it ends in an error code:
    nine pulses, the recovery code and also that of a boot out of transitions,
    only when the current record is in FAILED, so no boot runs out of
    transitions; one to six pulses only when the vector table in flash fails a
    check. *)
Theorem BootManager_Run_safe (orig : Image) (SystemCoreClock : Z) w :
  idle (w_hw w) -> safe orig (w_hw w) ->
  wp (BootManager_Run SystemCoreClock)
    (fun e w' => boot_end orig (w_hw w) e w') (safe_after orig (w_hw w)) w.
Proof using Herase. apply wp_BootManager_Run. Qed.

End boot_safety.
