(* ===== verification/TrialConfirmation.v ===== *)
(** * TrialConfirmation: node-stm32f103/application/src/trial_confirmation.c

    The running trial application marks its own metadata record CONFIRMED, on
    a CONFIRM packet or by itself once it has been up for 750 ms.  A reset the
    code requests is a [true] result. *)

From S2P Require Import Prelude Bytes MemoryMap AbRecord BootMetadata Device Logic.
From S2P Require Import MetadataStorage TrialBoot Recovery.

Definition TRIAL_CONFIRM_DELAY_MS : Z := 750.

(** The file-scope variables. *)
Record TrialState := mkTrialState {
  g_trial_active : Z;
  g_trial_confirmed : Z;
  g_trial_start_ms : Z
}.

(** The enum values, as they appear in error details. *)
Definition metadata_status_word (s : MetadataStorageStatus_t) : Z :=
  match s with
  | METADATA_STORAGE_OK => 0
  | METADATA_STORAGE_DEFAULTS_USED => 1
  | METADATA_STORAGE_INVALID_ARGUMENT => 2
  | METADATA_STORAGE_ERASE_FAILED => 3
  | METADATA_STORAGE_PROGRAM_FAILED => 4
  | METADATA_STORAGE_VERIFY_FAILED => 5
  end.

Section trial_confirmation.
Context {HW : Hw}.
Implicit Types w : World HW.

Definition LoadTrialMetadata : M HW (bool * BootMetadata_t) :=
  r <- MetadataStorage_Load ;;
  let '(status, metadata, _) := r in
  ret (bool_decide (status = METADATA_STORAGE_OK) &&
       (bm_state metadata =? state_word UPDATE_TRIAL_BOOT) &&
       (bm_pending_version metadata =? APPLICATION_VERSION) &&
       (0 <? bm_boot_attempts metadata) &&
       (bm_boot_attempts metadata <=? BOOT_METADATA_MAX_BOOT_ATTEMPTS), metadata).

Definition TrialConfirmation_Init (now_ms : Z) : M HW (TrialState * bool) :=
  r <- LoadTrialMetadata ;;
  let '(found, _) := r in
  ret (mkTrialState (if (found : bool) then 1 else 0) 0 now_ms, true).

Definition TrialConfirmation_IsActive (t : TrialState) : bool := g_trial_active t <>? 0.

(** The variables, [*detail] and the result. *)
Definition TrialConfirmation_ConfirmNow (t : TrialState) : M HW (TrialState * Z * bool) :=
  r <- LoadTrialMetadata ;;
  let '(found, metadata) := r in
  if negb found then ret (t, 1, false) else
  let metadata := metadata
    |> bm_set_state (state_word UPDATE_CONFIRMED)
    |> bm_set_copy_offset 0
    |> bm_set_last_error 0 in
  r <- MetadataStorage_Commit (Some metadata) ;;
  let '(status, _, _) := r in
  if bool_decide (status <> METADATA_STORAGE_OK)
  then ret (t, Z.lor 0x100 (metadata_status_word status), false)
  else ret (mkTrialState (g_trial_active t) 1 (g_trial_start_ms t), 0, true).

Definition TrialConfirmation_Process (now_ms : Z) (t : TrialState) : M HW (TrialState * bool) :=
  if (g_trial_active t <>? 0) && (g_trial_confirmed t =? 0) &&
     (TRIAL_CONFIRM_DELAY_MS <=? u32 (now_ms - g_trial_start_ms t))
  then
    r <- TrialConfirmation_ConfirmNow t ;;
    let '(t, _, ok) := r in ret (t, ok)
  else ret (t, false).

(** ** Properties *)

(** A record the application may confirm. *)
Definition trial_ready (m : BootMetadata_t) : Prop :=
  bm_state m = state_word UPDATE_TRIAL_BOOT /\ bm_pending_version m = APPLICATION_VERSION /\
  0 < bm_boot_attempts m <= BOOT_METADATA_MAX_BOOT_ATTEMPTS.

(** The confirmation of [m]: the state, and nothing else a decision reads. *)
Definition confirms (m r : BootMetadata_t) : Prop :=
  bm_state r = state_word UPDATE_CONFIRMED /\
  bm_active_version r = bm_active_version m /\ bm_pending_version r = bm_pending_version m /\
  bm_active_update_id r = bm_active_update_id m /\ bm_received_size r = bm_received_size m /\
  bm_expected_size r = bm_expected_size m /\ bm_boot_attempts r = bm_boot_attempts m.

(** The record is the one from [h0] or its confirmation. *)
Definition confirmed_or_same (h0 h : hw) : Prop :=
  current_metadata h = current_metadata h0 \/
  exists m r, current_metadata h0 = Some m /\ trial_ready m /\
    current_metadata h = Some r /\ confirms m r.

Lemma wp_LoadTrialMetadata w :
  wp LoadTrialMetadata
    (fun '(found, m) w' => w' = w /\
       (found = true -> current_metadata (w_hw w) = Some m /\ trial_ready m) /\
       (forall r, current_metadata (w_hw w) = Some r -> trial_ready r -> found = true)) (fun _ => False) w.
Proof.
  apply wp_bind. eapply wp_mono; [apply wp_Load| |done].
  intros [[status m] slot] w' [-> H]. apply wp_ret. split; [done|]. split.
  - intros Hf. to_prop. apply bool_decide_eq_true in H0. subst status.
    destruct (current_metadata (w_hw w)) as [r|]; destruct H as [Hs ->]; [|discriminate].
    split; [done|]. unfold trial_ready. auto.
  - intros r Hr (H1 & H2 & H3 & H4). rewrite Hr in H. destruct H as [-> ->].
    rewrite H1, H2, (proj2 (Z.ltb_lt _ _) H3), (proj2 (Z.leb_le _ _) H4). reflexivity.
Qed.

(** The requested record keeps everything but the state. *)
Lemma confirm_after h0 m h :
  current_metadata h0 = Some m -> trial_ready m ->
  after_interruption h0 (m |> bm_set_state (state_word UPDATE_CONFIRMED) |> bm_set_copy_offset 0
    |> bm_set_last_error 0) h -> confirmed_or_same h0 h.
Proof.
  intros Hcur Hm [Ha|(r & Hr & Hsd)]; [by left|]. right. exists m, r.
  split; [exact Hcur|]. split; [exact Hm|]. split; [exact Hr|].
  destruct Hsd as [H10 Hatt]. unfold confirms.
  pose proof (H10 3%nat ltac:(lia)) as H3. pose proof (H10 4%nat ltac:(lia)) as H4.
  pose proof (H10 5%nat ltac:(lia)) as H5. pose proof (H10 6%nat ltac:(lia)) as H6.
  pose proof (H10 7%nat ltac:(lia)) as H7. pose proof (H10 8%nat ltac:(lia)) as H8.
  split; [exact H3|]. split; [exact H4|]. split; [exact H5|]. split; [exact H6|].
  split; [exact H7|]. split; [exact H8|]. apply Hatt. right. left. reflexivity.
Qed.

Lemma wp_ConfirmNow t w :
  erase_detected (w_hw w) (target_slot (w_hw w)) ->
  wp (TrialConfirmation_ConfirmNow t)
    (fun '(t', detail, ok) w' =>
       is_u32 detail /\ frame nowhere in_boot_metadata (w_hw w) (w_hw w') /\
       confirmed_or_same (w_hw w) (w_hw w') /\
       (ok = true -> exists m r, current_metadata (w_hw w) = Some m /\ trial_ready m /\
       current_metadata (w_hw w') = Some r /\ confirms m r /\ g_trial_confirmed t' = 1) /\
       (ok = false -> t' = t))
    (fun h => frame nowhere in_boot_metadata (w_hw w) h /\ confirmed_or_same (w_hw w) h) w.
Proof.
  intros He. apply wp_bind. eapply wp_mono; [apply wp_LoadTrialMetadata| |done].
  intros [found m] w1 (-> & Hf & _). destruct found; cbn [negb].
  2: { apply wp_ret. split; [done|]. split; [apply frame_refl|]. split; [by left|].
       split; [discriminate|done]. }
  destruct (Hf eq_refl) as [Hcur Hm]. clear Hf. cbv zeta.
  set (working := bm_set_last_error 0 _).
  assert (Hw : rec_wf working).
  { pose proof (current_metadata_wf _ _ Hcur) as Hwf.
    do 3 (apply assign_wf; [by vm_compute|]). exact Hwf. }
  apply wp_bind. eapply wp_mono; [apply wp_and; [by apply wp_MetadataStorage_Commit|apply modifies_Commit]| |].
  - intros [[status c] slot] w' [(Hf & Hok & Hbad) Hframe]. cbv beta iota.
    destruct (bool_decide_reflect (status <> METADATA_STORAGE_OK)) as [Hne|Heq]; apply wp_ret.
    + split; [destruct status; by vm_compute|]. split; [exact Hframe|].
      split; [eapply confirm_after; [exact Hcur|exact Hm|exact (Hbad Hne)]|]. split; [discriminate|done].
    + apply dec_stable in Heq. destruct (Hok Heq) as [_ Hcur'].
      assert (Hc : confirms m (commit_candidate (w_hw w) working)) by (repeat split).
      split; [done|]. split; [exact Hframe|]. split; [right; by exists m, (commit_candidate (w_hw w) working)|].
      split; [|discriminate]. intros _. exists m, (commit_candidate (w_hw w) working).
      repeat (split; [eassumption|]). reflexivity.
  - intros h [[_ Ha] Hf]. split; [exact Hf|]. eapply confirm_after; [exact Hcur|exact Hm|exact Ha].
Qed.


End trial_confirmation.
