(* ===== verification/Buffer.v ===== *)
(** * Buffer: byte arrays written by index

    A C byte array is the list of its bytes; [store] is a run of assignments
    [buffer[off + i] = bs[i]].  The sources never write past an array: each
    module shows its offsets stay below the length it is given. *)

From S2P Require Import Prelude.

Definition store (off : Z) (bs buffer : list Z) : list Z := list_inserts (Z.to_nat off) bs buffer.

Lemma store_length off bs buffer : length (store off bs buffer) = length buffer.
Proof. apply length_inserts. Qed.

Lemma store_ok P off bs buffer : Forall P bs -> Forall P buffer -> Forall P (store off bs buffer).
Proof. intros. by apply Forall_inserts. Qed.

(** The buffer around the bytes written. *)
Lemma store_app a m b off bs :
  off = len a -> length m = length bs -> store off bs (a ++ m ++ b) = a ++ bs ++ b.
Proof.
  intros -> Hl. unfold store. rewrite Nat2Z.id, <- (Nat.add_0_r (length a)), list_inserts_app_r.
  by rewrite list_inserts_0_r.
Qed.

(** One byte. *)
Lemma store_cons a x b off v : off = len a -> store off [v] (a ++ x :: b) = a ++ v :: b.
Proof. intros ->. by apply (store_app a [x] b). Qed.

(** Every long enough buffer splits around a run of bytes. *)
Lemma buffer_split (off n : Z) (buffer : list Z) :
  0 <= off -> 0 <= n -> off + n <= len buffer ->
  exists a m b, buffer = a ++ m ++ b /\ len a = off /\ len m = n.
Proof.
  intros Ho Hn Hl. exists (take (Z.to_nat off) buffer), (slice off n buffer),
    (drop (Z.to_nat n) (drop (Z.to_nat off) buffer)).
  unfold slice. rewrite take_drop, take_drop. split; [done|].
  rewrite !length_take, length_drop. lia.
Qed.

(** What [store] leaves, when the bytes fit. *)
Lemma store_eq off bs buffer :
  0 <= off -> off + len bs <= len buffer ->
  store off bs buffer =
  take (Z.to_nat off) buffer ++ bs ++ drop (Z.to_nat off + length bs) buffer.
Proof.
  intros Ho Hl. destruct (buffer_split off (len bs) buffer) as (a & m & b & -> & Ha & Hm); [lia..|].
  rewrite (store_app a m b) by lia. rewrite take_app_length' by lia. f_equal. f_equal.
  rewrite app_assoc, drop_app_length'; [done|]. rewrite length_app. lia.
Qed.

Lemma store_prefix off bs buffer :
  0 <= off -> off + len bs <= len buffer ->
  take (Z.to_nat (off + len bs)) (store off bs buffer) = take (Z.to_nat off) buffer ++ bs.
Proof.
  intros Ho Hl. rewrite store_eq, app_assoc by done. apply take_app_length'.
  rewrite length_app, length_take. lia.
Qed.

(** A slice that lies inside the first part, or starts after it. *)
Lemma slice_app_l off n a b :
  0 <= off -> off + n <= len a -> slice off n (a ++ b) = slice off n a.
Proof.
  intros Ho H. unfold slice. destruct (Z.le_gt_cases 0 n) as [Hn|Hn].
  2: { replace (Z.to_nat n) with 0%nat by lia. done. }
  rewrite drop_app_le by lia. rewrite take_app_le; [done|]. rewrite length_drop. lia.
Qed.

Lemma slice_app_r a b off n : len a = off -> slice off n (a ++ b) = take (Z.to_nat n) b.
Proof. intros <-. unfold slice. by rewrite Nat2Z.id, drop_app_length. Qed.

Lemma slice_middle a m b off n : len a = off -> len m = n -> slice off n (a ++ m ++ b) = m.
Proof. intros Ha Hm. rewrite (slice_app_r a) by done. apply take_app_length'. lia. Qed.

Lemma byte_at_app_r a b i : byte_at (a ++ b) (len a + i) = byte_at b i \/ i < 0.
Proof.
  destruct (Z.le_gt_cases 0 i); [left|right; lia]. unfold byte_at.
  rewrite app_nth2 by lia. f_equal. lia.
Qed.

Lemma byte_at_middle a x b i : i = len a -> byte_at (a ++ x :: b) i = x.
Proof. intros ->. unfold byte_at. rewrite Nat2Z.id. by rewrite nth_middle. Qed.
