(* ===== verification/Uart.v ===== *)
(** * Uart: node-stm32f103/application/drivers/uart.c

    The receive ring between USART1_IRQHandler and the main loop, and the
    polled transmitter.  The interrupt may run between any two accesses of
    Uart_ReadByte to the shared variables; the theorem is that every
    interleaving is a FIFO of 511 bytes that counts what it drops. *)

From S2P Require Import Prelude Buffer.

(** ** Registers and variables *)

Definition USART_SR_PE : Z := 0x0001.
Definition USART_SR_FE : Z := 0x0002.
Definition USART_SR_NE : Z := 0x0004.
Definition USART_SR_ORE : Z := 0x0008.
Definition USART_SR_RXNE : Z := 0x0020.
Definition USART_SR_TC : Z := 0x0040.
Definition USART_SR_TXE : Z := 0x0080.

Definition UART_RX_BUFFER_SIZE : Z := 512.
Definition UART_RX_BUFFER_MASK : Z := UART_RX_BUFFER_SIZE - 1.
Definition UART_TX_TIMEOUT_LOOPS : Z := 500000.

(** The file-scope variables. *)
Record Uart := mkUart {
  g_rx_buffer : list Z;
  g_rx_head : Z;
  g_rx_tail : Z;
  g_rx_overflow_count : Z;
  g_uart_error_count : Z
}.

(** Uart_Init, as far as the variables go. *)
Definition Uart_Init (u : Uart) : Uart := mkUart (g_rx_buffer u) 0 0 0 0.

(** ** Reception *)

(** One interrupt, with the values of SR and DR. *)
Definition USART1_IRQHandler (status dr : Z) (u : Uart) : Uart :=
  if Z.land status (Z.lor (Z.lor (Z.lor (Z.lor USART_SR_RXNE USART_SR_ORE) USART_SR_NE) USART_SR_FE)
                      USART_SR_PE) <>? 0
  then
    let byte := u8 dr in
    let errors :=
      if Z.land status (Z.lor (Z.lor (Z.lor USART_SR_ORE USART_SR_NE) USART_SR_FE) USART_SR_PE) <>? 0
      then u32 (g_uart_error_count u + 1) else g_uart_error_count u in
    if Z.land status USART_SR_RXNE <>? 0 then
      let next := u16 (Z.land (g_rx_head u + 1) UART_RX_BUFFER_MASK) in
      if next =? g_rx_tail u
      then mkUart (g_rx_buffer u) (g_rx_head u) (g_rx_tail u) (u32 (g_rx_overflow_count u + 1)) errors
      else mkUart (store (g_rx_head u) [byte] (g_rx_buffer u)) next (g_rx_tail u)
             (g_rx_overflow_count u) errors
    else mkUart (g_rx_buffer u) (g_rx_head u) (g_rx_tail u) (g_rx_overflow_count u) errors
  else u.

(** Uart_ReadByte without an interrupt in between: [*byte] when true. *)
Definition Uart_ReadByte (u : Uart) : Uart * option Z :=
  let tail := g_rx_tail u in
  if tail =? g_rx_head u then (u, None)
  else
    let byte := byte_at (g_rx_buffer u) tail in
    (mkUart (g_rx_buffer u) (g_rx_head u) (u16 (Z.land (tail + 1) UART_RX_BUFFER_MASK))
       (g_rx_overflow_count u) (g_uart_error_count u), Some byte).

Definition Uart_GetRxOverflowCount (u : Uart) : Z := g_rx_overflow_count u.
Definition Uart_GetErrorCount (u : Uart) : Z := g_uart_error_count u.

(** ** Uart_ReadByte by its accesses to the shared variables *)

(** Where the reader is. *)
Inductive ReadPc :=
  | READ_TAIL
  | CHECK_HEAD (tail : Z)
  | READ_BUFFER (tail : Z)
  | WRITE_TAIL (tail byte : Z)
  | RETURNED (result : option Z).

(** What the main loop and the line see of a step. *)
Inductive UartEvent :=
  | ACCEPTED (byte : Z)
  | DROPPED (byte : Z)
  | DELIVERED (byte : Z)
  | NOTHING.

Definition ReadStep (pc : ReadPc) (u : Uart) : ReadPc * Uart * list UartEvent :=
  match pc with
  | READ_TAIL => (CHECK_HEAD (g_rx_tail u), u, [])
  | CHECK_HEAD tail =>
      if tail =? g_rx_head u then (RETURNED None, u, [NOTHING]) else (READ_BUFFER tail, u, [])
  | READ_BUFFER tail => (WRITE_TAIL tail (byte_at (g_rx_buffer u) tail), u, [])
  | WRITE_TAIL tail byte =>
      (RETURNED (Some byte),
       mkUart (g_rx_buffer u) (g_rx_head u) (u16 (Z.land (tail + 1) UART_RX_BUFFER_MASK))
         (g_rx_overflow_count u) (g_uart_error_count u), [DELIVERED byte])
  | RETURNED _ => (READ_TAIL, u, [])
  end.

(** What an interrupt did with its byte. *)
Definition irq_events (status dr : Z) (u : Uart) : list UartEvent :=
  if Z.land status USART_SR_RXNE =? 0 then []
  else if bool_decide (g_rx_head (USART1_IRQHandler status dr u) = g_rx_head u)
  then [DROPPED (u8 dr)] else [ACCEPTED (u8 dr)].

(** Executions: the main loop calls Uart_ReadByte again and again, and an
    interrupt may come between any two accesses. *)
Inductive uart_exec (pc0 : ReadPc) (u0 : Uart) : list UartEvent -> ReadPc -> Uart -> Prop :=
  | exec_start : uart_exec pc0 u0 [] pc0 u0
  | exec_irq tr pc u status dr :
      uart_exec pc0 u0 tr pc u ->
      uart_exec pc0 u0 (tr ++ irq_events status dr u) pc (USART1_IRQHandler status dr u)
  | exec_read tr pc u pc' u' evs :
      uart_exec pc0 u0 tr pc u -> ReadStep pc u = (pc', u', evs) ->
      uart_exec pc0 u0 (tr ++ evs) pc' u'.

(** ** Transmission *)

(** The polling loop on one SR flag; [sr k] is what the [k]-th read of SR
    returns.  The result and the number of reads so far. *)
Fixpoint WaitFlag (flag : Z) (timeout : nat) (sr : nat -> Z) (k : nat) : bool * nat :=
  if Z.land (sr k) flag =? 0 then
    match timeout with
    | O => (false, S k)
    | S timeout => WaitFlag flag timeout sr (S k)
    end
  else (true, S k).

(** The loop over [data]: the bytes written to DR, and whether it ended. *)
Fixpoint TransmitBytes (data : list Z) (sr : nat -> Z) (k : nat) : list Z * bool * nat :=
  match data with
  | [] => ([], true, k)
  | byte :: data =>
      let '(ready, k) := WaitFlag USART_SR_TXE (Z.to_nat UART_TX_TIMEOUT_LOOPS) sr k in
      if ready then let '(sent, ok, k) := TransmitBytes data sr k in (byte :: sent, ok, k)
      else ([], false, k)
  end.

Definition Uart_Write (data : option (list Z)) (length : Z) (sr : nat -> Z) : list Z * bool :=
  if bool_decide (data = None) && (length <>? 0) then ([], false) else
  let '(sent, ok, k) := TransmitBytes (take (Z.to_nat length) (default [] data)) sr 0 in
  if ok then (sent, fst (WaitFlag USART_SR_TC (Z.to_nat UART_TX_TIMEOUT_LOOPS) sr k))
  else (sent, false).

(** ** The ring is a queue *)

Fixpoint accepted (tr : list UartEvent) : list Z :=
  match tr with
  | [] => []
  | ACCEPTED b :: tr => b :: accepted tr
  | _ :: tr => accepted tr
  end.

Fixpoint dropped (tr : list UartEvent) : list Z :=
  match tr with
  | [] => []
  | DROPPED b :: tr => b :: dropped tr
  | _ :: tr => dropped tr
  end.

Fixpoint delivered (tr : list UartEvent) : list Z :=
  match tr with
  | [] => []
  | DELIVERED b :: tr => b :: delivered tr
  | _ :: tr => delivered tr
  end.

Lemma accepted_app tr tr' : accepted (tr ++ tr') = accepted tr ++ accepted tr'.
Proof. induction tr as [|[] tr IH]; cbn; by rewrite ?IH. Qed.
Lemma dropped_app tr tr' : dropped (tr ++ tr') = dropped tr ++ dropped tr'.
Proof. induction tr as [|[] tr IH]; cbn; by rewrite ?IH. Qed.
Lemma delivered_app tr tr' : delivered (tr ++ tr') = delivered tr ++ delivered tr'.
Proof. induction tr as [|[] tr IH]; cbn; by rewrite ?IH. Qed.

(** What each event may say, after the events [tr]: a byte is delivered in
    order, nothing is reported only of an empty queue, a byte is dropped only
    when 511 are waiting. *)
Definition event_ok (tr : list UartEvent) (e : UartEvent) : Prop :=
  match e with
  | ACCEPTED _ => len (accepted tr) < len (delivered tr) + UART_RX_BUFFER_MASK
  | DROPPED _ => len (accepted tr) = len (delivered tr) + UART_RX_BUFFER_MASK
  | DELIVERED b => exists rest, accepted tr = delivered tr ++ b :: rest
  | NOTHING => accepted tr = delivered tr
  end.

(** A queue of 511 bytes that counts what it drops. *)
Definition fifo (tr : list UartEvent) : Prop :=
  forall tr1 e tr2, tr = tr1 ++ e :: tr2 -> event_ok tr1 e.

Lemma fifo_nil : fifo [].
Proof. intros [|] e tr2; discriminate. Qed.

Lemma fifo_snoc tr e : fifo tr -> event_ok tr e -> fifo (tr ++ [e]).
Proof.
  intros Hf He tr1 e' tr2 Heq. destruct tr2 as [|x tr2 _] using rev_ind.
  - apply app_inj_tail in Heq as [<- <-]. exact He.
  - rewrite app_comm_cons, app_assoc in Heq. apply app_inj_tail in Heq as [-> _]. by eapply Hf.
Qed.

(** The variables hold the [a - d] bytes that are accepted but not delivered. *)
Record ring (tr : list UartEvent) (u : Uart) (d : Z) : Prop := {
  ri_size : len (g_rx_buffer u) = UART_RX_BUFFER_SIZE;
  ri_head : g_rx_head u = len (accepted tr) mod UART_RX_BUFFER_SIZE;
  ri_tail : g_rx_tail u = d mod UART_RX_BUFFER_SIZE;
  ri_room : d <= len (accepted tr) <= d + UART_RX_BUFFER_MASK;
  ri_bytes : forall i, d <= i < len (accepted tr) ->
    byte_at (g_rx_buffer u) (i mod UART_RX_BUFFER_SIZE) = byte_at (accepted tr) i;
  ri_overflow : g_rx_overflow_count u = u32 (len (dropped tr))
}.

(** Where the reader may be. *)
Definition reader_ok (tr : list UartEvent) (u : Uart) (pc : ReadPc) (d : Z) : Prop :=
  match pc with
  | READ_TAIL | RETURNED _ => True
  | CHECK_HEAD tail => tail = g_rx_tail u
  | READ_BUFFER tail => tail = g_rx_tail u /\ d < len (accepted tr)
  | WRITE_TAIL tail byte => tail = g_rx_tail u /\ d < len (accepted tr) /\ byte = byte_at (accepted tr) d
  end.

Record uart_inv (tr : list UartEvent) (pc : ReadPc) (u : Uart) : Prop := {
  ui_ring : ring tr u (len (delivered tr));
  ui_order : exists pending, accepted tr = delivered tr ++ pending;
  ui_reader : reader_ok tr u pc (len (delivered tr));
  ui_fifo : fifo tr
}.

Lemma next_index n : 0 <= n ->
  u16 (Z.land (n mod UART_RX_BUFFER_SIZE + 1) UART_RX_BUFFER_MASK) = (n + 1) mod UART_RX_BUFFER_SIZE.
Proof.
  intros Hn. unfold UART_RX_BUFFER_MASK, UART_RX_BUFFER_SIZE.
  change (512 - 1) with (2 ^ 9 - 1). rewrite land_mask by lia. change 512 with (2 ^ 9).
  rewrite Zplus_mod_idemp_l. apply u16_small.
  pose proof (Z.mod_pos_bound (n + 1) (2 ^ 9) ltac:(lia)). unfold is_u16. lia.
Qed.

Lemma byte_at_app_l a b i : 0 <= i < len a -> byte_at (a ++ b) i = byte_at a i.
Proof. intros Hi. unfold byte_at. apply app_nth1. lia. Qed.

Lemma byte_at_store off b (buffer : list Z) i :
  0 <= off < len buffer -> 0 <= i ->
  byte_at (store off [b] buffer) i = if i =? off then b else byte_at buffer i.
Proof.
  intros Ho Hi. unfold store, byte_at. cbn [list_inserts]. rewrite !nth_lookup.
  destruct (Z.eqb_spec i off) as [->|Hne].
  - by rewrite list_lookup_insert_eq by lia.
  - by rewrite list_lookup_insert_ne by lia.
Qed.

Lemma mod_neq i j n : 0 < n -> i <= j < i + n -> i mod n = j mod n -> i = j.
Proof.
  intros Hn Hj Heq. assert (Hd : (j - i) mod n = 0) by (rewrite Zminus_mod, Heq, Z.sub_diag; done).
  rewrite Z.mod_small in Hd by lia. lia.
Qed.

(** The slot behind the head is the tail exactly when 511 bytes wait. *)
Lemma full_index a d :
  0 <= d -> d <= a <= d + UART_RX_BUFFER_MASK ->
  (a + 1) mod UART_RX_BUFFER_SIZE = d mod UART_RX_BUFFER_SIZE <-> a = d + UART_RX_BUFFER_MASK.
Proof.
  unfold UART_RX_BUFFER_MASK, UART_RX_BUFFER_SIZE. intros Hd Ha. split.
  - intros Heq. destruct (Z.eq_dec (a + 1) (d + 512)) as [|Hne]; [lia|].
    assert (d = a + 1) by (apply (mod_neq d (a + 1) 512); [lia|lia|done]). lia.
  - intros ->. replace (d + (512 - 1) + 1) with (d + 1 * 512) by lia. by rewrite Z.mod_add by lia.
Qed.

Lemma rxne_flag status :
  Z.land status (Z.lor (Z.lor (Z.lor (Z.lor USART_SR_RXNE USART_SR_ORE) USART_SR_NE) USART_SR_FE)
    USART_SR_PE) = 0 -> Z.land status USART_SR_RXNE = 0.
Proof. rewrite !Z.land_lor_distr_r, !Z.lor_eq_0_iff. tauto. Qed.

(** An interrupt that brings a byte, seen through the ring. *)
Lemma irq_byte tr u d status dr :
  ring tr u d -> 0 <= d -> Z.land status USART_SR_RXNE <> 0 ->
  let u' := USART1_IRQHandler status dr u in
  g_rx_tail u' = g_rx_tail u /\
  ((len (accepted tr) = d + UART_RX_BUFFER_MASK /\ g_rx_head u' = g_rx_head u /\
    g_rx_buffer u' = g_rx_buffer u /\ g_rx_overflow_count u' = u32 (g_rx_overflow_count u + 1)) \/
   (len (accepted tr) < d + UART_RX_BUFFER_MASK /\ g_rx_head u' <> g_rx_head u /\
    g_rx_head u' = (len (accepted tr) + 1) mod UART_RX_BUFFER_SIZE /\
    g_rx_buffer u' = store (g_rx_head u) [u8 dr] (g_rx_buffer u) /\
    g_rx_overflow_count u' = g_rx_overflow_count u)).
Proof.
  intros [Hs Hh Ht Hr Hb Ho] Hd Hf. unfold USART1_IRQHandler.
  match goal with |- context [Z.land status (Z.lor (Z.lor (Z.lor (Z.lor USART_SR_RXNE _) _) _) _) =? 0] =>
    destruct (Z.eqb_spec (Z.land status (Z.lor (Z.lor (Z.lor (Z.lor USART_SR_RXNE USART_SR_ORE)
      USART_SR_NE) USART_SR_FE) USART_SR_PE)) 0) as [E|_]; [by apply rxne_flag in E|] end.
  rewrite (proj2 (Z.eqb_neq _ 0) Hf). cbn [negb].
  rewrite Hh, Ht, next_index by lia. pose proof (full_index _ _ Hd Hr) as Hfull.
  destruct (Z.eqb_spec ((len (accepted tr) + 1) mod UART_RX_BUFFER_SIZE) (d mod UART_RX_BUFFER_SIZE)) as [E|E];
    cbn [g_rx_head g_rx_tail g_rx_buffer g_rx_overflow_count]; (split; [done|]).
  - left. split; [by apply Hfull|done].
  - right. assert (len (accepted tr) < d + UART_RX_BUFFER_MASK).
    { destruct (Z.eq_dec (len (accepted tr)) (d + UART_RX_BUFFER_MASK)) as [Heq|]; [|lia].
      by apply Hfull in Heq. }
    split; [done|]. split; [|done].
    intros Heq. symmetry in Heq. apply mod_neq in Heq; unfold UART_RX_BUFFER_SIZE; lia.
Qed.

(** An interrupt without one changes the error count only. *)
Lemma irq_no_byte u status dr :
  Z.land status USART_SR_RXNE = 0 ->
  let u' := USART1_IRQHandler status dr u in
  g_rx_buffer u' = g_rx_buffer u /\ g_rx_head u' = g_rx_head u /\ g_rx_tail u' = g_rx_tail u /\
  g_rx_overflow_count u' = g_rx_overflow_count u.
Proof.
  intros Hf. unfold USART1_IRQHandler. rewrite Hf. cbn [Z.eqb negb]. by case_if.
Qed.

(** ** Every interleaving keeps the queue *)

Lemma inv_irq tr pc u status dr :
  uart_inv tr pc u -> uart_inv (tr ++ irq_events status dr u) pc (USART1_IRQHandler status dr u).
Proof.
  intros [Hr Hord Hpc Hf]. unfold irq_events.
  destruct (Z.eqb_spec (Z.land status USART_SR_RXNE) 0) as [E|E].
  - rewrite app_nil_r. destruct (irq_no_byte u status dr E) as (Eb & Eh & Et & Eo).
    destruct Hr. split; [split; rewrite ?Eb, ?Eh, ?Et, ?Eo; done|done| |done]. destruct pc; cbn in *; by rewrite ?Et.
  - pose proof (irq_byte _ _ _ status dr Hr ltac:(lia) E) as [Et [(Ha & Eh & Eb & Eo)|(Ha & Hne & Eh & Eb & Eo)]].
    + rewrite (bool_decide_eq_true_2 _ Eh).
      assert (Eacc : accepted (tr ++ [DROPPED (u8 dr)]) = accepted tr) by (by rewrite accepted_app, app_nil_r).
      assert (Edel : delivered (tr ++ [DROPPED (u8 dr)]) = delivered tr) by (by rewrite delivered_app, app_nil_r).
      destruct Hr. split.
      * split; rewrite ?Eacc, ?Edel, ?Eb, ?Eh, ?Et; try done.
        rewrite Eo, dropped_app, length_app, ri_overflow0. cbn [dropped length]. unfold u32.
        rewrite Zplus_mod_idemp_l. f_equal. lia.
      * by rewrite Eacc, Edel.
      * rewrite Edel. destruct pc; cbn in *; by rewrite ?Et, ?Eacc.
      * apply fifo_snoc; [done|]. exact Ha.
    + rewrite (bool_decide_eq_false_2 _ Hne).
      assert (Eacc : accepted (tr ++ [ACCEPTED (u8 dr)]) = accepted tr ++ [u8 dr]) by (by rewrite accepted_app).
      assert (Edel : delivered (tr ++ [ACCEPTED (u8 dr)]) = delivered tr) by (by rewrite delivered_app, app_nil_r).
      assert (Edrop : dropped (tr ++ [ACCEPTED (u8 dr)]) = dropped tr) by (by rewrite dropped_app, app_nil_r).
      assert (Hl : len (accepted tr ++ [u8 dr]) = len (accepted tr) + 1) by (rewrite length_app; cbn [length]; lia).
      destruct Hr as [Hs Hh Ht Hroom Hb Ho]. split.
      * split; rewrite ?Eacc, ?Edel, ?Edrop, ?Hl; [by rewrite Eb, store_length|done|by rewrite Et|lia| |by rewrite Eo].
        intros i Hi. rewrite Eb, byte_at_store.
        -- rewrite Hh. destruct (Z.eqb_spec (i mod UART_RX_BUFFER_SIZE)
             (len (accepted tr) mod UART_RX_BUFFER_SIZE)) as [Heq|Hneq].
           ++ assert (i = len (accepted tr)) as ->.
              { apply (mod_neq _ _ UART_RX_BUFFER_SIZE); unfold UART_RX_BUFFER_MASK, UART_RX_BUFFER_SIZE in *;
                  [lia|lia|done]. }
              by rewrite byte_at_middle.
           ++ assert (i <> len (accepted tr)) by congruence.
              rewrite byte_at_app_l by lia. apply Hb. lia.
        -- rewrite Hs, Hh. apply Z.mod_pos_bound. done.
        -- apply Z.mod_pos_bound. done.
      * rewrite Eacc, Edel. destruct Hord as [p ->]. exists (p ++ [u8 dr]). by rewrite app_assoc.
      * rewrite Edel. destruct pc; cbn in *; rewrite ?Et, ?Eacc, ?Hl; try done.
        -- destruct Hpc. split; [done|lia].
        -- destruct Hpc as (? & ? & ?). split; [done|]. split; [lia|]. rewrite byte_at_app_l by lia. done.
      * apply fifo_snoc; [done|]. exact Ha.
Qed.

Lemma inv_read tr pc u pc' u' evs :
  uart_inv tr pc u -> ReadStep pc u = (pc', u', evs) -> uart_inv (tr ++ evs) pc' u'.
Proof.
  intros [Hr Hord Hpc Hf] Hstep. destruct pc; cbn in Hstep.
  - injection Hstep as <- <- <-. rewrite app_nil_r. by split.
  - destruct (Z.eqb_spec tail (g_rx_head u)) as [E|E]; injection Hstep as <- <- <-.
    + assert (Eacc : accepted tr = delivered tr).
      { destruct Hr as [_ Hh Ht Hroom _ _], Hord as [p Hp]. cbn in Hpc.
        assert (Hl : len (accepted tr) = len (delivered tr)).
        { symmetry. apply (mod_neq _ _ UART_RX_BUFFER_SIZE);
            unfold UART_RX_BUFFER_MASK, UART_RX_BUFFER_SIZE in *; [lia|lia|congruence]. }
        rewrite Hp, length_app in Hl. assert (p = []) as -> by (apply length_zero_iff_nil; lia).
        by rewrite Hp, app_nil_r. }
      assert (Ea : accepted (tr ++ [NOTHING]) = accepted tr) by (by rewrite accepted_app, app_nil_r).
      assert (Ed : delivered (tr ++ [NOTHING]) = delivered tr) by (by rewrite delivered_app, app_nil_r).
      assert (Eo : dropped (tr ++ [NOTHING]) = dropped tr) by (by rewrite dropped_app, app_nil_r).
      split; [destruct Hr; split; rewrite ?Ea, ?Ed, ?Eo; done|by rewrite Ea, Ed|done|by apply fifo_snoc].
    + rewrite app_nil_r. split; try done. cbn in *. split; [done|].
      destruct Hr as [_ Hh Ht Hroom _ _].
      destruct (Z.eq_dec (len (accepted tr)) (len (delivered tr))); [congruence|lia].
  - injection Hstep as <- <- <-. rewrite app_nil_r. split; try done. destruct Hpc as [-> Hlt].
    split; [done|]. split; [done|]. destruct Hr as [_ _ Ht _ Hb _]. rewrite Ht. apply Hb. lia.
  - injection Hstep as <- <- <-. destruct Hpc as (-> & Hlt & ->).
    destruct Hord as [p Hp]. destruct p as [|b p]; [rewrite Hp, app_nil_r in Hlt; lia|].
    assert (Eb : byte_at (accepted tr) (len (delivered tr)) = b) by (rewrite Hp; by apply byte_at_middle).
    rewrite Eb.
    assert (Ea : accepted (tr ++ [DELIVERED b]) = accepted tr) by (by rewrite accepted_app, app_nil_r).
    assert (Ed : delivered (tr ++ [DELIVERED b]) = delivered tr ++ [b]) by (by rewrite delivered_app).
    assert (Eo : dropped (tr ++ [DELIVERED b]) = dropped tr) by (by rewrite dropped_app, app_nil_r).
    assert (Hl : len (delivered tr ++ [b]) = len (delivered tr) + 1) by (rewrite length_app; cbn [length]; lia).
    destruct Hr as [Hs Hh Ht Hroom Hb Ho]. split.
    + split; rewrite ?Ea, ?Ed, ?Eo, ?Hl; cbn [g_rx_buffer g_rx_head g_rx_tail g_rx_overflow_count]; try done.
      * rewrite Ht. apply next_index. lia.
      * lia.
      * intros i Hi. apply Hb. lia.
    + rewrite Ea, Ed, Hp. exists p. by rewrite <- app_assoc.
    + done.
    + apply fifo_snoc; [done|]. by exists p.
  - injection Hstep as <- <- <-. rewrite app_nil_r. by split.
Qed.

Lemma exec_inv u0 tr pc u :
  len (g_rx_buffer u0) = UART_RX_BUFFER_SIZE -> uart_exec READ_TAIL (Uart_Init u0) tr pc u -> uart_inv tr pc u.
Proof.
  intros Hs. induction 1 as [|tr pc u status dr _ IH|tr pc u pc' u' evs _ IH Hstep].
  - split; [split; try done; try (intros i Hi; cbn in Hi; lia)|by exists (@nil Z)|done|apply fifo_nil].
  - by apply inv_irq.
  - by eapply inv_read.
Qed.

(** Uart_ReadByte is its steps, when no interrupt comes in between. *)
Lemma Uart_ReadByte_steps u :
  exists tr, uart_exec READ_TAIL u tr (RETURNED (snd (Uart_ReadByte u))) (fst (Uart_ReadByte u)) /\
    tr = match snd (Uart_ReadByte u) with None => [NOTHING] | Some b => [DELIVERED b] end.
Proof.
  unfold Uart_ReadByte.
  pose proof (exec_read _ _ _ _ _ _ _ _ (exec_start READ_TAIL u) eq_refl) as H1. cbn in H1.
  destruct (Z.eqb_spec (g_rx_tail u) (g_rx_head u)) as [E|E]; cbn [fst snd].
  - eexists. split; [|reflexivity].
    apply (exec_read _ _ [] (CHECK_HEAD (g_rx_tail u)) u _ _ [NOTHING] H1). cbn.
    by rewrite (proj2 (Z.eqb_eq _ _) E).
  - eexists. split; [|reflexivity].
    assert (H2 : uart_exec READ_TAIL u [] (READ_BUFFER (g_rx_tail u)) u).
    { apply (exec_read _ _ [] (CHECK_HEAD (g_rx_tail u)) u _ _ [] H1). cbn. by rewrite (proj2 (Z.eqb_neq _ _) E). }
    pose proof (exec_read _ _ _ _ _ _ _ _ H2 eq_refl) as H3.
    exact (exec_read _ _ _ _ _ _ _ _ H3 eq_refl).
Qed.

(** ** The transmitter *)

Lemma WaitFlag_live flag timeout sr k :
  (exists j, (j <= timeout)%nat /\ Z.land (sr (k + j)%nat) flag <> 0) ->
  fst (WaitFlag flag timeout sr k) = true.
Proof.
  revert k. induction timeout as [|timeout IH]; intros k (j & Hj & Hs); cbn [WaitFlag];
    (destruct (Z.eqb_spec (Z.land (sr k) flag) 0) as [E|E]; [|done]).
  - assert (j = O) as -> by lia. by rewrite Nat.add_0_r in Hs.
  - apply IH. destruct j as [|j]; [by rewrite Nat.add_0_r in Hs|]. exists j. split; [lia|].
    by rewrite Nat.add_succ_r in Hs.
Qed.

(** Within the timeout, each flag comes. *)
Definition line_ready (sr : nat -> Z) : Prop :=
  forall flag k, flag = USART_SR_TXE \/ flag = USART_SR_TC ->
  exists j, (j <= Z.to_nat UART_TX_TIMEOUT_LOOPS)%nat /\ Z.land (sr (k + j)%nat) flag <> 0.

Lemma TransmitBytes_spec data sr : forall k,
  let '(sent, ok, _) := TransmitBytes data sr k in
  (exists rest, data = sent ++ rest /\ (ok = true <-> rest = [])) /\ (line_ready sr -> ok = true).
Proof.
  induction data as [|b data IH]; intros k; cbn [TransmitBytes].
  - split; [by exists []|done].
  - pose proof (WaitFlag_live USART_SR_TXE (Z.to_nat UART_TX_TIMEOUT_LOOPS) sr k) as Hw.
    destruct (WaitFlag _ _ _ _) as [ready k']. cbn [fst] in Hw. specialize (IH k').
    destruct ready.
    + destruct (TransmitBytes data sr k') as [[sent ok] k'']. destruct IH as [(rest & -> & Hok) Hl].
      split; [|done]. by exists rest.
    + split; [by exists (b :: data)|]. intros Hl. apply Hw, Hl. by left.
Qed.

(** ** Properties *)

(** C31: The receive ring is a queue.  In every execution in which interrupts
    come between any two accesses of Uart_ReadByte, bytes are delivered in the
    order they were accepted, each once; Uart_ReadByte reports nothing only of
    an empty queue; a byte is dropped only when 511 are waiting, and the
    overflow counter is the number of dropped bytes modulo 2^32. *)
Theorem Uart_ring_fifo u0 tr pc u :
  len (g_rx_buffer u0) = UART_RX_BUFFER_SIZE -> uart_exec READ_TAIL (Uart_Init u0) tr pc u ->
  fifo tr /\ g_rx_overflow_count u = u32 (len (dropped tr)) /\
  exists pending, accepted tr = delivered tr ++ pending /\ len pending <= UART_RX_BUFFER_MASK.
Proof.
  intros Hs He. destruct (exec_inv _ _ _ _ Hs He) as [[_ _ _ Hr _ Ho] [p Hp] _ Hf].
  split; [exact Hf|]. split; [exact Ho|]. exists p. split; [exact Hp|].
  rewrite Hp, length_app in Hr. lia.
Qed.

(** Two bytes arrive, the reader takes the first while the second arrives. *)
Lemma Uart_ring_fifo_witness :
  let u0 := mkUart (replicate 512 0) 3 5 7 0 in
  len (g_rx_buffer u0) = UART_RX_BUFFER_SIZE /\
  exists tr pc u, uart_exec READ_TAIL (Uart_Init u0) tr pc u /\ fifo tr /\
    accepted tr = [65; 66] /\ delivered tr = [65].
Proof.
  intros u0. split; [reflexivity|].
  pose proof (exec_irq _ _ _ _ _ USART_SR_RXNE 65 (exec_start READ_TAIL (Uart_Init u0))) as H1.
  pose proof (exec_read _ _ _ _ _ _ _ _ H1 eq_refl) as H2.
  pose proof (exec_read _ _ _ _ _ _ _ _ H2 eq_refl) as H3.
  pose proof (exec_irq _ _ _ _ _ USART_SR_RXNE 66 H3) as H4.
  pose proof (exec_read _ _ _ _ _ _ _ _ H4 eq_refl) as H5.
  pose proof (exec_read _ _ _ _ _ _ _ _ H5 eq_refl) as H6.
  do 3 eexists. split; [exact H6|].
  split; [exact (proj1 (Uart_ring_fifo u0 _ _ _ eq_refl H6))|]. split; vm_compute; reflexivity.
Defined.

(** C32: The transmitter.  Uart_Write writes a prefix of its data to the data
    register, and all of it when it returns true; if every status flag is set
    within 500001 reads from any point, it returns true. *)
Theorem Uart_Write_sends data sr :
  let '(sent, ok) := Uart_Write (Some data) (len data) sr in
  (exists rest, data = sent ++ rest /\ (ok = true -> rest = [])) /\ (line_ready sr -> ok = true).
Proof.
  unfold Uart_Write. rewrite (bool_decide_eq_false_2 (Some data = None)) by done. cbn [andb default]. unfold id.
  rewrite Nat2Z.id, firstn_all.
  pose proof (TransmitBytes_spec data sr 0) as H. destruct (TransmitBytes data sr 0) as [[sent ok] k].
  destruct H as [(rest & Hd & Hok) Hl]. destruct ok.
  - split; [exists rest; split; [done|]; intros _; by apply Hok|].
    intros Hr. apply WaitFlag_live, Hr. by right.
  - split; [by exists rest|]. intros Hr. by apply Hl.
Qed.

Lemma Uart_Write_sends_witness :
  line_ready (fun _ => 0xC0) /\ snd (Uart_Write (Some [1; 2; 3]) 3 (fun _ => 0xC0)) = true.
Proof.
  assert (Hr : line_ready (fun _ => 0xC0)).
  { intros flag k [-> | ->]; exists O; (split; [lia|vm_compute; discriminate]). }
  split; [exact Hr|].
  pose proof (Uart_Write_sends [1; 2; 3] (fun _ => 0xC0)) as H.
  change (len [1; 2; 3]) with 3 in H. destruct (Uart_Write _ _ _) as [sent ok].
  exact (proj2 H Hr).
Defined.
