(* ===== verification/Cobs.v ===== *)
(** * Cobs: node-stm32f103/application/protocol/cobs.c

    Consistent-overhead byte stuffing: the frame layer of the UART protocol.
    The two loops are modelled over their index variables and the output
    array; the reference is a list of blocks, each a run of at most 254 non-zero
    bytes, and the theorem is the round trip through it. *)

From S2P Require Import Prelude Bytes Buffer.

(** ** The encoder *)

Record CobsEncoder := mkCobsEncoder {
  ce_read_index : Z;
  ce_write_index : Z;
  ce_code_index : Z;
  ce_code : Z;
  ce_output : list Z
}.

(** One pass of the loop: [inl] is [return false], with the output so far. *)
Definition Cobs_EncodeStep (input : list Z) (output_capacity : Z) (s : CobsEncoder)
    : list Z + CobsEncoder :=
  let '(mkCobsEncoder read_index write_index code_index code output) := s in
  if byte_at input read_index =? 0 then
    let output := store code_index [code] output in
    let code := 1 in
    let code_index := write_index in
    if output_capacity <=? write_index then inl output
    else inr (mkCobsEncoder (u32 (read_index + 1)) (u32 (write_index + 1)) code_index code output)
  else if output_capacity <=? write_index then inl output
  else
    let output := store write_index [byte_at input read_index] output in
    let write_index := u32 (write_index + 1) in
    let read_index := u32 (read_index + 1) in
    let code := u8 (code + 1) in
    if code =? 0xFF then
      let output := store code_index [code] output in
      let code := 1 in
      let code_index := write_index in
      if output_capacity <=? write_index then inl output
      else inr (mkCobsEncoder read_index (u32 (write_index + 1)) code_index code output)
    else inr (mkCobsEncoder read_index write_index code_index code output).

(** The loop; every pass consumes a byte, so the input length is enough fuel. *)
Fixpoint Cobs_EncodeLoop (fuel : nat) (input : list Z) (input_length output_capacity : Z)
    (s : CobsEncoder) : list Z + CobsEncoder :=
  if ce_read_index s <? input_length then
    match fuel with
    | O => inl (ce_output s)
    | S fuel =>
        match Cobs_EncodeStep input output_capacity s with
        | inl output => inl output
        | inr s => Cobs_EncodeLoop fuel input input_length output_capacity s
        end
    end
  else inr s.

(** The output array afterwards, and the length written on [true]. *)
Definition Cobs_Encode (input : option (list Z)) (input_length : Z) (output : option (list Z))
    (output_capacity : Z) : list Z * option Z :=
  match output with
  | None => ([], None)
  | Some output =>
      if (bool_decide (input = None) && (input_length <>? 0)) || (output_capacity =? 0)
      then (output, None) else
      match Cobs_EncodeLoop (Z.to_nat input_length) (default [] input) input_length
              output_capacity (mkCobsEncoder 0 1 0 1 output) with
      | inl output => (output, None)
      | inr s => (store (ce_code_index s) [ce_code s] (ce_output s), Some (ce_write_index s))
      end
  end.

(** ** The decoder *)

Record CobsDecoder := mkCobsDecoder {
  cd_read_index : Z;
  cd_write_index : Z;
  cd_output : list Z
}.

Definition Cobs_DecodeStep (input : list Z) (input_length output_capacity : Z) (s : CobsDecoder)
    : list Z + CobsDecoder :=
  let '(mkCobsDecoder read_index write_index output) := s in
  let code := byte_at input read_index in
  let read_index := u32 (read_index + 1) in
  if code =? 0 then inl output else
  let count := u32 (code - 1) in
  if u32 (input_length - read_index) <? count then inl output else
  if u32 (output_capacity - write_index) <? count then inl output else
  let output := store write_index (slice read_index count input) output in
  let write_index := u32 (write_index + count) in
  let read_index := u32 (read_index + count) in
  if (code <>? 0xFF) && (read_index <? input_length) then
    if output_capacity <=? write_index then inl output
    else inr (mkCobsDecoder read_index (u32 (write_index + 1)) (store write_index [0] output))
  else inr (mkCobsDecoder read_index write_index output).

Fixpoint Cobs_DecodeLoop (fuel : nat) (input : list Z) (input_length output_capacity : Z)
    (s : CobsDecoder) : list Z + CobsDecoder :=
  if cd_read_index s <? input_length then
    match fuel with
    | O => inl (cd_output s)
    | S fuel =>
        match Cobs_DecodeStep input input_length output_capacity s with
        | inl output => inl output
        | inr s => Cobs_DecodeLoop fuel input input_length output_capacity s
        end
    end
  else inr s.

Definition Cobs_Decode (input : option (list Z)) (input_length : Z) (output : option (list Z))
    (output_capacity : Z) : list Z * option Z :=
  match input, output with
  | Some input, Some output =>
      if input_length =? 0 then (output, None) else
      match Cobs_DecodeLoop (Z.to_nat input_length) input input_length output_capacity
              (mkCobsDecoder 0 0 output) with
      | inl output => (output, None)
      | inr s => (cd_output s, Some (cd_write_index s))
      end
  | _, _ => (default [] output, None)
  end.

(** ** The reference: blocks *)

(** A run of non-zero bytes; a run of 254 has no zero after it. *)
Definition block_ok (b : list Z) : Prop := Forall (fun x => 0 < x < 2 ^ 8) b /\ len b <= 254.

Definition encode_block (b : list Z) : list Z := (len b + 1) :: b.
Definition encode_blocks (bs : list (list Z)) : list Z := bs ≫= encode_block.

(** What a block that is not the last one stands for. *)
Definition decode_block (b : list Z) : list Z := if len b =? 254 then b else b ++ [0].
Definition decode_blocks (bs : list (list Z)) : list Z := bs ≫= decode_block.

(** The blocks of full length. *)
Definition full_blocks (bs : list (list Z)) : Z :=
  len (filter (fun b => len b = 254) bs).

Lemma encode_blocks_app bs bs' : encode_blocks (bs ++ bs') = encode_blocks bs ++ encode_blocks bs'.
Proof. apply bind_app. Qed.

Lemma decode_blocks_app bs bs' : decode_blocks (bs ++ bs') = decode_blocks bs ++ decode_blocks bs'.
Proof. apply bind_app. Qed.

Lemma encode_blocks_one b : encode_blocks [b] = encode_block b.
Proof. apply app_nil_r. Qed.

Lemma decode_blocks_one b : decode_blocks [b] = decode_block b.
Proof. apply app_nil_r. Qed.

(** ** The encoder writes blocks *)

(** The finished blocks [bs], the open one [pending] behind its code byte. *)
Record encoding (input : list Z) (input_length output_capacity : Z) (bs : list (list Z))
    (pending tail : list Z) (s : CobsEncoder) : Prop := {
  en_blocks : Forall block_ok bs;
  en_pending : Forall (fun x => 0 < x < 2 ^ 8) pending;
  en_short : len pending < 254;
  en_read : 0 <= ce_read_index s <= input_length;
  en_input : decode_blocks bs ++ pending = take (Z.to_nat (ce_read_index s)) input;
  en_output : exists x, ce_output s = encode_blocks bs ++ x :: pending ++ tail;
  en_code : ce_code s = len pending + 1;
  en_code_index : ce_code_index s = len (encode_blocks bs);
  en_write_index : ce_write_index s = len (encode_blocks bs) + 1 + len pending;
  en_size : ce_write_index s = ce_read_index s + full_blocks bs + 1;
  en_full : 254 * full_blocks bs <= ce_read_index s - len pending
}.

Lemma full_blocks_snoc bs b :
  full_blocks (bs ++ [b]) = full_blocks bs + (if len b =? 254 then 1 else 0).
Proof.
  unfold full_blocks. rewrite filter_app, length_app, filter_cons, filter_nil.
  destruct (Z.eqb_spec (len b) 254); [rewrite decide_True by done|rewrite decide_False by done];
    cbn [length]; lia.
Qed.

Lemma full_blocks_nonneg bs : 0 <= full_blocks bs.
Proof. unfold full_blocks. lia. Qed.

Section encoder.
Context (input : list Z) (input_length output_capacity : Z).
Context (Hinput : bytes_ok input) (Hlength : input_length = len input).
Context (Hcapacity : input_length + input_length / 254 + 1 <= output_capacity).
Context (Hcap32 : is_u32 output_capacity).

(** Closing the pending block and opening an empty one. *)
Lemma encoding_close bs pending b tail0 tail s x :
  (b = pending /\ byte_at input (ce_read_index s) = 0 \/
   b = pending ++ [byte_at input (ce_read_index s)] /\ len b = 254 /\
     0 < byte_at input (ce_read_index s) < 2 ^ 8) ->
  encoding input input_length output_capacity bs pending tail0 s ->
  ce_read_index s < input_length ->
  forall output, output = encode_blocks (bs ++ [b]) ++ x :: tail ->
  let write := len (encode_blocks (bs ++ [b])) in
  encoding input input_length output_capacity (bs ++ [b]) [] tail
    (mkCobsEncoder (ce_read_index s + 1) (write + 1) write 1 output).
Proof using Hlength.
  intros Hb [Hbs Hp Hs Hr Hin Hout Hc Hci Hwi Hsz Hfu] Hlt output -> write.
  assert (Htake : take (Z.to_nat (ce_read_index s + 1)) input =
    take (Z.to_nat (ce_read_index s)) input ++ [byte_at input (ce_read_index s)]).
  { apply take_byte_at. lia. }
  assert (Hb' : block_ok b /\ decode_block b = pending ++ [byte_at input (ce_read_index s)] /\
    len (encode_block b) = len pending + 1 + (if len b =? 254 then 1 else 0)).
  { unfold block_ok, decode_block, encode_block. cbn [length].
    destruct Hb as [[-> H0]|(-> & Hl & Hx)].
    - rewrite H0, (proj2 (Z.eqb_neq (len pending) 254)) by lia. split_and!; [done|lia|done|lia].
    - rewrite Hl. cbn [Z.eqb Pos.eqb]. rewrite length_app in Hl |- *. cbn [length] in *.
      split_and!; [by apply Forall_app_2; [|apply Forall_singleton]|lia|done|lia]. }
  destruct Hb' as (Hok & Hdec & Hlen).
  assert (Hw : write = len (encode_blocks bs) + len (encode_block b)).
  { unfold write. rewrite encode_blocks_app, encode_blocks_one, length_app. lia. }
  pose proof (full_blocks_snoc bs b) as Hfull. split; cbn [ce_read_index ce_write_index ce_code_index ce_code ce_output length].
  - by apply Forall_app_2; [|apply Forall_singleton].
  - constructor.
  - lia.
  - lia.
  - by rewrite app_nil_r, decode_blocks_app, decode_blocks_one, Hdec, Htake, app_assoc, Hin.
  - by exists x.
  - lia.
  - done.
  - lia.
  - rewrite Hw, Hfull, Hlen. destruct (len b =? 254); lia.
  - rewrite Hfull. destruct (Z.eqb_spec (len b) 254); [|lia].
    destruct Hb as [[-> _]|(-> & Hl & _)]; [lia|]. rewrite length_app in Hl. cbn [length] in Hl. lia.
Qed.

(** One more byte in the pending block. *)
Lemma encoding_extend bs pending tail s x y :
  0 < byte_at input (ce_read_index s) < 2 ^ 8 -> len pending + 1 < 254 ->
  encoding input input_length output_capacity bs pending (y :: tail) s ->
  ce_read_index s < input_length ->
  encoding input input_length output_capacity bs (pending ++ [byte_at input (ce_read_index s)]) tail
    (mkCobsEncoder (ce_read_index s + 1) (ce_write_index s + 1) (ce_code_index s) (ce_code s + 1)
      (encode_blocks bs ++ x :: (pending ++ [byte_at input (ce_read_index s)]) ++ tail)).
Proof using Hlength.
  intros Hb Hl [Hbs Hp Hs Hr Hin Hout Hc Hci Hwi Hsz Hfu] Hlt.
  split; cbn [ce_read_index ce_write_index ce_code_index ce_code ce_output];
    rewrite ?length_app; cbn [length]; try lia; try done.
  - by apply Forall_app_2; [|apply Forall_singleton].
  - rewrite take_byte_at by lia. by rewrite app_assoc, Hin.
  - by exists x.
Qed.

(** The array has room behind the bytes written so far. *)
Lemma encoding_room bs pending tail s :
  encoding input input_length output_capacity bs pending tail s ->
  ce_write_index s < len (ce_output s) -> exists y tail', tail = y :: tail'.
Proof.
  intros [_ _ _ _ _ [x Ho] _ _ Hwi _ _] Hlt. destruct tail as [|y tail]; [|by exists y, tail].
  rewrite Ho, !length_app in Hlt. cbn [length] in Hlt. rewrite length_app in Hlt.
  cbn [length] in Hlt. lia.
Qed.

(** Full blocks are paid for by the bytes they consumed. *)
Lemma full_bound k : 254 * k <= input_length -> k <= input_length / 254.
Proof using. intros H. apply Z.div_le_lower_bound; [done|exact H]. Qed.

Lemma encode_step_spec bs pending tail s :
  encoding input input_length output_capacity bs pending tail s ->
  ce_read_index s < input_length -> output_capacity <= len (ce_output s) ->
  exists s' bs' pending' tail',
    Cobs_EncodeStep input output_capacity s = inr s' /\
    encoding input input_length output_capacity bs' pending' tail' s' /\
    ce_read_index s' = ce_read_index s + 1 /\ len (ce_output s') = len (ce_output s).
Proof using Hinput Hlength Hcapacity Hcap32.
  intros He Hlt Hout. pose proof He as [_ _ Hs Hr _ [x Ho] Hc Hci Hwi Hsz Hfu].
  pose proof (byte_at_ok input (ce_read_index s) Hinput) as Hbyte.
  pose proof (full_bound (full_blocks bs) ltac:(lia)) as Hfull.
  pose proof (full_blocks_nonneg bs) as Hfn. unfold is_u32 in Hcap32.
  assert (Hwc : ce_write_index s < output_capacity) by lia.
  destruct (encoding_room _ _ _ _ He ltac:(lia)) as (y & tail' & ->).
  destruct s as [r wi ci c o]. cbn [ce_read_index ce_write_index ce_code_index ce_code ce_output] in *.
  assert (Hcode : forall v l, store ci [v] (encode_blocks bs ++ x :: l) = encode_blocks bs ++ v :: l)
    by (intros; by apply store_cons).
  unfold Cobs_EncodeStep. rewrite !(u32_small (r + 1)), !(u32_small (wi + 1)) by (unfold is_u32; lia).
  rewrite (proj2 (Z.leb_gt _ _)) by lia.
  destruct (Z.eqb_spec (byte_at input r) 0) as [H0|H0].
  - set (s1 := mkCobsEncoder _ _ _ _ _). exists s1, (bs ++ [pending]), [], tail'.
    assert (Heq : store ci [c] o = encode_blocks (bs ++ [pending]) ++ y :: tail').
    { rewrite Ho, Hcode, encode_blocks_app, encode_blocks_one, Hc.
      unfold encode_block. by rewrite <- !app_assoc. }
    assert (Hw : wi = len (encode_blocks (bs ++ [pending]))).
    { rewrite encode_blocks_app, encode_blocks_one, length_app. unfold encode_block.
      cbn [length]. lia. }
    split; [done|]. split; [|split; [done|]].
    + unfold s1. rewrite Hw at 1 2.
      eapply (encoding_close bs pending pending _ tail' (mkCobsEncoder r wi ci c o) y);
        [by left|exact He|done|exact Heq].
    + unfold s1. cbn [ce_output]. by rewrite store_length.
  - assert (Hst : store wi [byte_at input r] o =
      encode_blocks bs ++ x :: (pending ++ [byte_at input r]) ++ tail').
    { rewrite Ho. change (x :: pending ++ y :: tail') with ((x :: pending) ++ y :: tail').
      rewrite app_assoc, store_cons, <- app_assoc; [by rewrite <- app_assoc|].
      rewrite length_app. cbn [length]. lia. }
    unfold is_byte in Hbyte. rewrite (u8_small (c + 1)) by (unfold is_byte; lia).
    destruct (Z.eqb_spec (c + 1) 255) as [Hff|Hff].
    + pose proof (full_bound (full_blocks bs + 1) ltac:(lia)) as Hfull'.
      rewrite (proj2 (Z.leb_gt _ (wi + 1))) by lia.
      rewrite (u32_small (wi + 1 + 1)) by (unfold is_u32; lia).
      set (b := pending ++ [byte_at input r]) in *.
      assert (Hb : len b = 254) by (unfold b; rewrite length_app; cbn [length]; lia).
      assert (Hw : wi + 1 = len (encode_blocks (bs ++ [b]))).
      { rewrite encode_blocks_app, encode_blocks_one, length_app. unfold encode_block.
        cbn [length]. lia. }
      assert (Hy : exists z tail2, tail' = z :: tail2).
      { destruct tail' as [|z tail2]; [|by exists z, tail2]. exfalso.
        rewrite Ho, !length_app in Hout. cbn [length] in Hout. rewrite length_app in Hout.
        cbn [length] in Hout. lia. }
      destruct Hy as (z & tail2 & ->).
      assert (Heq : store ci [c + 1] (store wi [byte_at input r] o) =
        encode_blocks (bs ++ [b]) ++ z :: tail2).
      { rewrite Hst, Hcode, encode_blocks_app, encode_blocks_one. unfold encode_block.
        rewrite <- app_assoc. cbn [app]. do 2 f_equal. lia. }
      set (s1 := mkCobsEncoder _ _ _ _ _). exists s1, (bs ++ [b]), [], tail2.
      split; [done|]. split; [|split; [done|]].
      * unfold s1. rewrite Hw.
        eapply (encoding_close bs pending b _ tail2 (mkCobsEncoder r wi ci c o) z);
          [|exact He|done|exact Heq].
        right. cbn [ce_read_index]. split_and!; [done|done|lia..].
      * unfold s1. cbn [ce_output]. by rewrite !store_length.
    + set (s1 := mkCobsEncoder _ _ _ _ _).
      exists s1, bs, (pending ++ [byte_at input r]), tail'. split; [done|]. split; [|split; [done|]].
      * unfold s1. rewrite Hst.
        eapply (encoding_extend bs pending tail' (mkCobsEncoder r wi ci c o) x y); [|lia|exact He|done].
        cbn [ce_read_index]. lia.
      * unfold s1. cbn [ce_output]. by rewrite store_length.
Qed.

Lemma encode_loop_spec fuel bs pending tail s :
  encoding input input_length output_capacity bs pending tail s ->
  input_length - ce_read_index s <= Z.of_nat fuel -> output_capacity <= len (ce_output s) ->
  exists s' bs' pending' tail',
    Cobs_EncodeLoop fuel input input_length output_capacity s = inr s' /\
    encoding input input_length output_capacity bs' pending' tail' s' /\
    ce_read_index s' = input_length /\ len (ce_output s') = len (ce_output s).
Proof using Hinput Hlength Hcapacity Hcap32.
  revert bs pending tail s. induction fuel as [|fuel IH]; intros bs pending tail s He Hf Hout;
    cbn [Cobs_EncodeLoop]; pose proof (en_read _ _ _ _ _ _ _ He) as Hr;
    destruct (Z.ltb_spec (ce_read_index s) input_length) as [Hlt|Hge]; try lia.
  1,3: exists s, bs, pending, tail; split_and!; [done|done|lia|done].
  destruct (encode_step_spec _ _ _ _ He Hlt Hout) as (s1 & bs1 & p1 & t1 & -> & He1 & Hr1 & Hl1).
  destruct (IH bs1 p1 t1 s1 He1 ltac:(lia) ltac:(lia)) as (s2 & bs2 & p2 & t2 & H1 & H2 & H3 & H4).
  exists s2, bs2, p2, t2. split_and!; [done|done|done|lia].
Qed.

End encoder.

(** The encoder succeeds when the array can take the worst case, and what it
    wrote is a block encoding of the input. *)
Lemma Cobs_Encode_blocks input output output_capacity :
  bytes_ok input -> is_u32 output_capacity -> output_capacity <= len output ->
  len input + len input / 254 + 1 <= output_capacity ->
  exists bs last output' n,
    Cobs_Encode (Some input) (len input) (Some output) output_capacity = (output', Some n) /\
    Forall block_ok bs /\ block_ok last /\
    input = decode_blocks bs ++ last /\
    n = len (encode_blocks (bs ++ [last])) /\ n <= output_capacity /\
    take (Z.to_nat n) output' = encode_blocks (bs ++ [last]) /\ len output' = len output.
Proof.
  intros Hin Hcap Hout Hroom.
  assert (0 <= len input / 254) by (apply Z.div_pos; lia).
  unfold Cobs_Encode. rewrite (bool_decide_eq_false_2 (Some input = None)) by done. cbn [andb orb].
  rewrite (proj2 (Z.eqb_neq output_capacity 0)) by lia. cbn [andb orb default]. unfold id.
  destruct output as [|x tail]; [cbn [length] in Hout; lia|].
  destruct (encode_loop_spec input (len input) output_capacity Hin eq_refl Hroom Hcap
    (Z.to_nat (len input)) [] [] tail (mkCobsEncoder 0 1 0 1 (x :: tail)))
    as (s & bs & pending & tail' & -> & He & Hr & Hl); [|cbn [ce_read_index]; lia|done|].
  { split; cbn; try done; try lia. by exists x. }
  cbn [ce_output] in Hl. destruct He as [Hbs Hp Hs _ Hi [z Ho] Hc Hci Hwi Hsz Hfu].
  assert (Hlast : block_ok pending) by (split; [done|lia]).
  assert (Hn : ce_write_index s = len (encode_blocks (bs ++ [pending]))).
  { rewrite encode_blocks_app, encode_blocks_one, length_app. unfold encode_block.
    cbn [length]. lia. }
  assert (Hst : store (ce_code_index s) [ce_code s] (ce_output s) =
    encode_blocks (bs ++ [pending]) ++ tail').
  { rewrite Ho, store_cons by done. rewrite encode_blocks_app, encode_blocks_one, Hc.
    unfold encode_block. by rewrite <- !app_assoc. }
  exists bs, pending, (store (ce_code_index s) [ce_code s] (ce_output s)), (ce_write_index s).
  split_and!; try done.
  - rewrite Hi, Hr. symmetry. apply take_ge. lia.
  - pose proof (full_bound (len input) (full_blocks bs) ltac:(lia)). lia.
  - rewrite Hst, Hn. apply take_app_length'. lia.
  - by rewrite store_length.
Qed.

(** ** The decoder reads blocks *)

Section decoder.
Context (input : list Z) (input_length output_capacity : Z).
Context (Hlength : is_u32 input_length) (Hcap : is_u32 output_capacity).

(** [done] has been decoded, [todo] is left. *)
Lemma decode_step_spec before b after junk decoded tail :
  block_ok b -> input = before ++ encode_block b ++ after ++ junk ->
  input_length = len (before ++ encode_block b ++ after) ->
  let last := bool_decide (after = []) in
  let piece := if last then b else decode_block b in
  len decoded + len piece <= output_capacity -> output_capacity <= len (decoded ++ tail) ->
  exists tail', len (decoded ++ tail) = len ((decoded ++ piece) ++ tail') /\
  Cobs_DecodeStep input input_length output_capacity
    (mkCobsDecoder (len before) (len decoded) (decoded ++ tail)) =
  inr (mkCobsDecoder (len (before ++ encode_block b)) (len (decoded ++ piece))
    ((decoded ++ piece) ++ tail')).
Proof using Hlength Hcap.
  intros [Hb Hbl] Hin Hlen last piece Hfit Hout. unfold Cobs_DecodeStep, is_u32 in *.
  assert (Hcode : byte_at input (len before) = len b + 1).
  { rewrite Hin. unfold encode_block. by apply byte_at_middle. }
  assert (Hlen' : input_length = len before + 1 + len b + len after).
  { rewrite Hlen, !length_app. unfold encode_block. cbn [length]. lia. }
  clear Hlen. rewrite length_app in Hout. rewrite Hcode.
  rewrite (proj2 (Z.eqb_neq (len b + 1) 0)) by lia.
  rewrite (u32_small (len before + 1)) by (unfold is_u32; lia).
  rewrite (u32_small (len b + 1 - 1)) by (unfold is_u32; lia).
  replace (len b + 1 - 1) with (len b) by lia.
  rewrite (u32_small (input_length - _)) by (unfold is_u32; lia).
  rewrite (proj2 (Z.ltb_ge _ _)) by lia.
  assert (Hpiece : len b <= len piece).
  { unfold piece, decode_block. destruct last, (len b =? 254); rewrite ?length_app; lia. }
  rewrite (u32_small (output_capacity - _)) by (unfold is_u32; lia).
  rewrite (proj2 (Z.ltb_ge _ _)) by lia.
  assert (Hslice : slice (len before + 1) (len b) input = b).
  { rewrite Hin. unfold encode_block. change ((len b + 1) :: b) with ([len b + 1] ++ b).
    rewrite <- app_assoc, app_assoc. apply slice_middle; [|done]. rewrite length_app. cbn [length]. lia. }
  rewrite Hslice.
  destruct (buffer_split 0 (len b) tail) as (e & m & t & Htail & He & Hm); [lia..|].
  destruct e; [|cbn [length] in He; lia]. cbn [app] in Htail. subst tail.
  rewrite (store_app decoded m t) by (done || lia).
  rewrite (u32_small (len decoded + len b)) by (unfold is_u32; lia).
  rewrite (u32_small (len before + 1 + len b)) by (unfold is_u32; lia).
  assert (Hnext : len before + 1 + len b = len (before ++ encode_block b)).
  { rewrite length_app. unfold encode_block. cbn [length]. lia. }
  assert (Hcond : ((len b + 1 <>? 0xFF) && (len before + 1 + len b <? input_length)) =
                  negb last && negb (len b =? 254)).
  { unfold last. destruct after as [|a after]; cbn [length] in Hlen'.
    - rewrite (proj2 (Z.ltb_ge _ _)) by lia. by rewrite andb_false_r.
    - rewrite (proj2 (Z.ltb_lt _ _)) by lia. rewrite andb_true_r. cbn.
      destruct (Z.eqb_spec (len b) 254), (Z.eqb_spec (len b + 1) 255); done || lia. }
  rewrite Hcond. unfold piece, decode_block in *. rewrite Hnext.
  assert (Hsame : exists tail', len (decoded ++ m ++ t) = len ((decoded ++ b) ++ tail') /\
    inr (mkCobsDecoder (len (before ++ encode_block b)) (len decoded + len b) (decoded ++ b ++ t)) =
    @inr (list Z) _ (mkCobsDecoder (len (before ++ encode_block b)) (len (decoded ++ b))
      ((decoded ++ b) ++ tail'))).
  { exists t. rewrite <- app_assoc, !length_app. split; [lia|]. do 2 f_equal. lia. }
  destruct last; cbn [negb andb]; [exact Hsame|].
  destruct (len b =? 254); cbn [negb andb]; [exact Hsame|].
  rewrite !length_app in Hfit, Hout. cbn [length] in Hfit.
  rewrite (proj2 (Z.leb_gt _ _)) by lia.
  destruct t as [|z t]; [cbn [length] in Hout; lia|]. exists t.
  rewrite (app_assoc decoded b (z :: t)), store_cons by (rewrite length_app; lia).
  rewrite !length_app. cbn [length]. split; [lia|].
  rewrite u32_small by (unfold is_u32; lia). f_equal.
  rewrite <- !app_assoc. f_equal. lia.
Qed.

(** The rest of the blocks, the last of which is not followed by a zero. *)
Lemma decode_loop_spec bs : forall fuel before last junk decoded tail,
  Forall block_ok bs -> block_ok last ->
  input = before ++ encode_blocks (bs ++ [last]) ++ junk ->
  input_length = len (before ++ encode_blocks (bs ++ [last])) ->
  (length bs < fuel)%nat ->
  len decoded + len (decode_blocks bs ++ last) <= output_capacity ->
  output_capacity <= len (decoded ++ tail) ->
  exists tail', len (decoded ++ tail) = len ((decoded ++ decode_blocks bs ++ last) ++ tail') /\
  Cobs_DecodeLoop fuel input input_length output_capacity
    (mkCobsDecoder (len before) (len decoded) (decoded ++ tail)) =
  inr (mkCobsDecoder input_length (len (decoded ++ decode_blocks bs ++ last))
    ((decoded ++ decode_blocks bs ++ last) ++ tail')).
Proof using Hlength Hcap.
  induction bs as [|b bs IH]; intros [|fuel] before last junk decoded tail Hbs Hl Hin Hlen Hf Hfit Hout;
    [lia| |cbn [length] in Hf; lia|].
  - cbn [app] in *. rewrite encode_blocks_one in Hin, Hlen. cbn [Cobs_DecodeLoop cd_read_index].
    assert (Hlt : len before < input_length).
    { rewrite Hlen, length_app. unfold encode_block. cbn [length]. lia. }
    rewrite (proj2 (Z.ltb_lt _ _)) by done.
    destruct (decode_step_spec before last [] junk decoded tail Hl) as (tail' & Ht & Hstep).
    { by rewrite app_nil_l. }
    { by rewrite app_nil_r. }
    { exact Hfit. }
    { exact Hout. }
    rewrite (bool_decide_eq_true_2 ([] = [])) in Ht, Hstep by done. cbv zeta in Ht, Hstep.
    rewrite Hstep. exists tail'. split; [exact Ht|].
    rewrite <- Hlen. destruct fuel; cbn [Cobs_DecodeLoop cd_read_index cd_output];
      rewrite Z.ltb_irrefl; done.
  - apply Forall_cons in Hbs as [Hb Hbs].
    change ((b :: bs) ++ [last]) with ([b] ++ (bs ++ [last])) in Hin, Hlen.
    rewrite encode_blocks_app, encode_blocks_one in Hin, Hlen.
    change (b :: bs) with ([b] ++ bs) in Hfit |- *.
    rewrite decode_blocks_app, decode_blocks_one in Hfit |- *.
    cbn [Cobs_DecodeLoop cd_read_index].
    assert (Hlt : len before < input_length).
    { rewrite Hlen, !length_app. unfold encode_block. cbn [length]. lia. }
    rewrite (proj2 (Z.ltb_lt _ _)) by done.
    assert (Hne : bool_decide (encode_blocks (bs ++ [last]) = []) = false).
    { apply bool_decide_eq_false. rewrite encode_blocks_app, encode_blocks_one.
      unfold encode_block. intros H. by apply app_nil in H as [_ H]. }
    destruct (decode_step_spec before b (encode_blocks (bs ++ [last])) junk decoded tail Hb)
      as (t1 & Ht1 & Hstep).
    { by rewrite Hin, <- app_assoc. }
    { exact Hlen. }
    { rewrite Hne. rewrite !length_app in Hfit. lia. }
    { exact Hout. }
    rewrite Hne in Ht1, Hstep. cbv zeta in Ht1, Hstep. rewrite Hstep.
    destruct (IH fuel (before ++ encode_block b) last junk (decoded ++ decode_block b) t1)
      as (t2 & Ht2 & Hloop); [done|done|..].
    { by rewrite Hin, <- !app_assoc. }
    { by rewrite Hlen, <- app_assoc. }
    { cbn [length] in Hf. lia. }
    { rewrite !length_app in *. lia. }
    { lia. }
    exists t2. rewrite Hloop, <- !app_assoc in *. split; [lia|done].
Qed.

End decoder.

(** Decoding what was encoded from blocks. *)
Lemma Cobs_Decode_blocks bs last junk output output_capacity :
  Forall block_ok bs -> block_ok last ->
  is_u32 (len (encode_blocks (bs ++ [last]))) -> is_u32 output_capacity ->
  len (decode_blocks bs ++ last) <= output_capacity -> output_capacity <= len output ->
  exists rest, len ((decode_blocks bs ++ last) ++ rest) = len output /\
  Cobs_Decode (Some (encode_blocks (bs ++ [last]) ++ junk)) (len (encode_blocks (bs ++ [last])))
    (Some output) output_capacity =
  ((decode_blocks bs ++ last) ++ rest, Some (len (decode_blocks bs ++ last))).
Proof.
  intros Hbs Hl H32 Hcap Hfit Hout. unfold Cobs_Decode.
  assert (Hn : Z.of_nat (length bs) < len (encode_blocks (bs ++ [last]))).
  { rewrite encode_blocks_app, encode_blocks_one, length_app. unfold encode_block. cbn [length].
    enough (len bs <= len (encode_blocks bs)) by lia. clear. induction bs as [|b bs IH]; [done|].
    change (b :: bs) with ([b] ++ bs). rewrite encode_blocks_app, encode_blocks_one, !length_app.
    unfold encode_block at 1. cbn [length]. lia. }
  rewrite (proj2 (Z.eqb_neq _ 0)) by lia.
  destruct (decode_loop_spec (encode_blocks (bs ++ [last]) ++ junk) (len (encode_blocks (bs ++ [last])))
    output_capacity H32 Hcap bs (Z.to_nat (len (encode_blocks (bs ++ [last])))) [] last junk [] output)
    as (rest & Hr & Hloop); [done|done|done|done|lia|done|done|].
  cbn [app length] in Hr, Hloop. change (Z.of_nat 0) with 0 in Hloop. rewrite Hloop.
  exists rest. split; [lia|done].
Qed.

(** Every byte written is non-zero: zero only delimits. *)
Lemma encode_blocks_nonzero bs : Forall block_ok bs -> Forall (fun x => 0 < x < 2 ^ 8) (encode_blocks bs).
Proof.
  induction 1 as [|b bs [Hb Hl] _ IH]; [constructor|].
  change (b :: bs) with ([b] ++ bs). rewrite encode_blocks_app, encode_blocks_one.
  apply Forall_app_2; [|exact IH]. constructor; [lia|exact Hb].
Qed.

(** ** Round trip *)

(** What the encoder promises its clients. *)
Lemma Cobs_round_trip input output output_capacity :
  bytes_ok input -> is_u32 output_capacity -> output_capacity <= len output ->
  len input + len input / 254 + 1 <= output_capacity ->
  exists output' n,
    Cobs_Encode (Some input) (len input) (Some output) output_capacity = (output', Some n) /\
    len output' = len output /\ 1 <= n <= output_capacity /\
    Forall (fun x => 0 < x < 2 ^ 8) (take (Z.to_nat n) output') /\
    forall buffer capacity junk, is_u32 capacity -> len input <= capacity -> capacity <= len buffer ->
      exists rest, len (input ++ rest) = len buffer /\
      Cobs_Decode (Some (take (Z.to_nat n) output' ++ junk)) n (Some buffer) capacity =
        (input ++ rest, Some (len input)).
Proof.
  intros Hin Hcap Hout Hroom.
  destruct (Cobs_Encode_blocks input output output_capacity Hin Hcap Hout Hroom)
    as (bs & last & output' & n & Heq & Hbs & Hl & Hi & Hn & Hnc & Htake & Hlen).
  exists output', n. unfold is_u32 in *. split; [exact Heq|]. split; [exact Hlen|].
  rewrite Htake. split.
  { split; [|done]. rewrite Hn, encode_blocks_app, encode_blocks_one, length_app.
    unfold encode_block. cbn [length]. lia. }
  split. { apply encode_blocks_nonzero. by apply Forall_app_2; [|apply Forall_singleton]. }
  intros buffer capacity junk Hc Hfit Hb. rewrite Hi, Hn in *.
  apply Cobs_Decode_blocks; unfold is_u32; try done; lia.
Qed.

(** Only the first [input_length] bytes of the input array matter. *)
Lemma encode_loop_prefix fuel input junk output_capacity s :
  0 <= ce_read_index s ->
  Cobs_EncodeLoop fuel (input ++ junk) (len input) output_capacity s =
  Cobs_EncodeLoop fuel input (len input) output_capacity s.
Proof.
  revert s. induction fuel as [|fuel IH]; intros s Hs; [done|]. cbn [Cobs_EncodeLoop].
  destruct (Z.ltb_spec (ce_read_index s) (len input)) as [Hlt|]; [|done].
  assert (Hb : byte_at (input ++ junk) (ce_read_index s) = byte_at input (ce_read_index s)).
  { unfold byte_at. apply app_nth1. lia. }
  assert (Hstep : Cobs_EncodeStep (input ++ junk) output_capacity s = Cobs_EncodeStep input output_capacity s).
  { destruct s as [r w ci c o]. cbn [ce_read_index] in *. unfold Cobs_EncodeStep. by rewrite Hb. }
  rewrite Hstep. destruct (Cobs_EncodeStep input output_capacity s) as [|s'] eqn:E; [done|].
  apply IH. destruct s as [r w ci c o]. unfold Cobs_EncodeStep in E.
  repeat case_if_in E; try discriminate E; injection E as <-; cbn [ce_read_index]; apply u32_range.
Qed.

Lemma Cobs_Encode_prefix input junk output output_capacity :
  Cobs_Encode (Some (input ++ junk)) (len input) output output_capacity =
  Cobs_Encode (Some input) (len input) output output_capacity.
Proof.
  unfold Cobs_Encode. destruct output; [|done].
  rewrite !(bool_decide_eq_false_2 (Some _ = None)) by done. cbn [andb orb default]. unfold id.
  by rewrite encode_loop_prefix.
Qed.

(** ** The decoder stays inside its array, whatever arrives *)

Record decoding (output_capacity size : Z) (s : CobsDecoder) : Prop := {
  de_write : 0 <= cd_write_index s <= output_capacity;
  de_output : bytes_ok (cd_output s);
  de_size : len (cd_output s) = size
}.

Lemma decode_step_bounds input input_length output_capacity size s :
  bytes_ok input -> is_u32 output_capacity -> decoding output_capacity size s ->
  match Cobs_DecodeStep input input_length output_capacity s with
  | inl output => bytes_ok output /\ len output = size
  | inr s' => decoding output_capacity size s'
  end.
Proof.
  intros Hin Hcap [Hw Ho Hs]. unfold is_u32 in Hcap.
  destruct s as [r w o]. unfold Cobs_DecodeStep. cbn [cd_write_index cd_output] in *.
  destruct (Z.eqb_spec (byte_at input r) 0) as [|Hcode]; [done|].
  pose proof (byte_at_ok input r Hin) as Hbyte. unfold is_byte in Hbyte.
  rewrite (u32_small (byte_at input r - 1)) by (unfold is_u32; lia).
  rewrite (u32_small (output_capacity - w)) by (unfold is_u32; lia).
  destruct (Z.ltb_spec (u32 (input_length - u32 (r + 1))) (byte_at input r - 1)) as [|Hroom]; [done|].
  destruct (Z.ltb_spec (output_capacity - w) (byte_at input r - 1)) as [|Hfit]; [done|].
  rewrite (u32_small (w + _)) by (unfold is_u32; lia).
  set (o' := store w _ o).
  assert (Ho' : bytes_ok o' /\ len o' = size).
  { unfold o'. rewrite store_length. split; [|done]. apply store_ok; [|done]. by apply slice_bytes_ok. }
  destruct Ho' as [Ho' Hs'].
  case_if; [|split; cbn [cd_write_index cd_output]; done || lia].
  destruct (Z.leb_spec output_capacity (w + (byte_at input r - 1))); [done|].
  rewrite (u32_small (w + _ + 1)) by (unfold is_u32; lia).
  split; cbn [cd_write_index cd_output]; [lia| |by rewrite store_length].
  apply store_ok; [apply Forall_singleton; done|done].
Qed.

Lemma decode_loop_bounds fuel input input_length output_capacity size s :
  bytes_ok input -> is_u32 output_capacity -> decoding output_capacity size s ->
  match Cobs_DecodeLoop fuel input input_length output_capacity s with
  | inl output => bytes_ok output /\ len output = size
  | inr s' => decoding output_capacity size s'
  end.
Proof.
  intros Hin Hcap. revert s. induction fuel as [|fuel IH]; intros s Hs; cbn [Cobs_DecodeLoop];
    case_if; try exact Hs; [by destruct Hs|].
  pose proof (decode_step_bounds input input_length output_capacity size s Hin Hcap Hs) as H.
  destruct (Cobs_DecodeStep input input_length output_capacity s); [exact H|]. by apply IH.
Qed.

(** The decoded length never exceeds the capacity, the array keeps its length. *)
Lemma Cobs_Decode_bounds input input_length output output_capacity :
  bytes_ok input -> is_u32 output_capacity -> bytes_ok output ->
  let r := Cobs_Decode (Some input) input_length (Some output) output_capacity in
  bytes_ok (fst r) /\ len (fst r) = len output /\
  forall n, snd r = Some n -> 0 <= n <= output_capacity.
Proof.
  intros Hin Hcap Hout. unfold Cobs_Decode. case_if; [done|].
  pose proof (decode_loop_bounds (Z.to_nat input_length) input input_length output_capacity (len output)
    (mkCobsDecoder 0 0 output) Hin Hcap) as H.
  destruct (Cobs_DecodeLoop _ _ _ _ _); cbn.
  - destruct H as [H1 H2]; [split; cbn; unfold is_u32 in Hcap; done || lia|]. done.
  - destruct H as [H1 H2 H3]; [split; cbn; unfold is_u32 in Hcap; done || lia|].
    split_and!; [done|done|]. by intros n [= <-].
Qed.

(** ** Properties *)

(** C35: COBS round trip.  For every input that fits, with one byte of overhead
    and one more per 254 bytes, Cobs_Encode succeeds, writes at least one byte
    and no zero byte, stays within the capacity, and Cobs_Decode of these bytes
    gives the input and its length. *)
Theorem Cobs_Decode_Encode input output output_capacity buffer capacity :
  bytes_ok input -> is_u32 output_capacity -> output_capacity <= len output ->
  len input + len input / 254 + 1 <= output_capacity ->
  is_u32 capacity -> len input <= capacity -> capacity <= len buffer ->
  exists output' n rest,
    Cobs_Encode (Some input) (len input) (Some output) output_capacity = (output', Some n) /\
    len output' = len output /\ 1 <= n <= output_capacity /\
    Forall (fun x => 0 < x < 2 ^ 8) (take (Z.to_nat n) output') /\
    Cobs_Decode (Some output') n (Some buffer) capacity = (input ++ rest, Some (len input)).
Proof.
  intros Hin Hcap Hout Hroom Hc Hfit Hb.
  destruct (Cobs_round_trip input output output_capacity Hin Hcap Hout Hroom)
    as (output' & n & He & Hl & Hn & Hnz & Hd).
  destruct (Hd buffer capacity (drop (Z.to_nat n) output') Hc Hfit Hb) as (rest & _ & Heq).
  rewrite take_drop in Heq. exists output', n, rest. auto 10.
Qed.

Lemma Cobs_Decode_Encode_witness :
  let input := 0 :: replicate 300 1 ++ [0; 0; 7] in
  len input + len input / 254 + 1 <= 320 /\
  exists output' n rest,
    Cobs_Encode (Some input) (len input) (Some (replicate 320 0)) 320 = (output', Some n) /\
    Forall (fun x => 0 < x < 2 ^ 8) (take (Z.to_nat n) output') /\
    Cobs_Decode (Some output') n (Some (replicate 320 9)) 320 = (input ++ rest, Some (len input)).
Proof.
  intros input. split; [by vm_compute|].
  assert (Hin : bytes_ok input).
  { apply Forall_cons_2; [done|]. apply Forall_app_2; [by apply Forall_replicate|].
    repeat first [exact (List.Forall_nil _) | apply Forall_cons_2; [done|]]. }
  destruct (Cobs_Decode_Encode input (replicate 320 0) 320 (replicate 320 9) 320 Hin)
    as (output' & n & rest & H1 & _ & _ & H2 & H3); [by vm_compute..|].
  exists output', n, rest. split; [exact H1|]. split; [exact H2|exact H3].
Defined.
