(* ===== verification/OtaPacket.v ===== *)
(** * OtaPacket: node-stm32f103/application/protocol/ota_packet.c

    The packets inside the frames: a 16-byte header, at most 256 bytes of
    payload and the CRC-32 of both.  A packet lives in a struct whose payload
    array keeps its old bytes behind [payload_length], so deserialising is an
    update of the struct it is given. *)

From S2P Require Import Prelude Bytes Crc32 Buffer.

Definition OTA_PACKET_MAGIC : Z := 0xA55A.
Definition OTA_PROTOCOL_VERSION : Z := 1.
Definition OTA_MAX_PAYLOAD_SIZE : Z := 256.
Definition OTA_PACKET_HEADER_SIZE : Z := 16.
Definition OTA_PACKET_CRC_SIZE : Z := 4.
Definition OTA_PACKET_MIN_RAW_SIZE : Z := OTA_PACKET_HEADER_SIZE + OTA_PACKET_CRC_SIZE.
Definition OTA_PACKET_MAX_RAW_SIZE : Z :=
  OTA_PACKET_HEADER_SIZE + OTA_MAX_PAYLOAD_SIZE + OTA_PACKET_CRC_SIZE.

Definition OTA_CMD_HELLO : Z := 0x01.
Definition OTA_CMD_QUERY : Z := 0x02.
Definition OTA_CMD_START : Z := 0x10.
Definition OTA_CMD_DATA : Z := 0x11.
Definition OTA_CMD_FINISH : Z := 0x12.
Definition OTA_CMD_ABORT : Z := 0x13.
Definition OTA_CMD_RESUME : Z := 0x14.
Definition OTA_CMD_INSTALL : Z := 0x20.
Definition OTA_CMD_STATUS : Z := 0x21.
Definition OTA_CMD_CONFIRM : Z := 0x22.
Definition OTA_CMD_ACK : Z := 0x70.
Definition OTA_CMD_NACK : Z := 0x71.

Record OtaPacket_t := mkOtaPacket {
  op_magic : Z;
  op_protocol_version : Z;
  op_command : Z;
  op_update_id : Z;
  op_offset : Z;
  op_sequence : Z;
  op_payload_length : Z;
  op_payload : list Z;
  op_packet_crc32 : Z
}.

Inductive OtaPacketStatus_t :=
  | OTA_PACKET_STATUS_OK
  | OTA_PACKET_STATUS_INVALID_ARGUMENT
  | OTA_PACKET_STATUS_TOO_SHORT
  | OTA_PACKET_STATUS_BAD_MAGIC
  | OTA_PACKET_STATUS_BAD_VERSION
  | OTA_PACKET_STATUS_BAD_LENGTH
  | OTA_PACKET_STATUS_BAD_CRC.

#[export] Instance OtaPacketStatus_eq_dec : EqDecision OtaPacketStatus_t.
Proof. solve_decision. Defined.

(** The raw array afterwards, and [*raw_length] on [true]. *)
Definition OtaPacket_Serialize (packet : option OtaPacket_t) (raw : option (list Z))
    (raw_capacity : Z) : list Z * option Z :=
  match packet, raw with
  | Some packet, Some raw =>
      if OTA_MAX_PAYLOAD_SIZE <? op_payload_length packet then (raw, None) else
      let length := OTA_PACKET_HEADER_SIZE + op_payload_length packet + OTA_PACKET_CRC_SIZE in
      if raw_capacity <? length then (raw, None) else
      let raw := store 0 (PutU16Le (op_magic packet)) raw in
      let raw := store 2 [op_protocol_version packet] raw in
      let raw := store 3 [op_command packet] raw in
      let raw := store 4 (PutU32Le (op_update_id packet)) raw in
      let raw := store 8 (PutU32Le (op_offset packet)) raw in
      let raw := store 12 (PutU16Le (op_sequence packet)) raw in
      let raw := store 14 (PutU16Le (op_payload_length packet)) raw in
      let raw := store OTA_PACKET_HEADER_SIZE
                   (take (Z.to_nat (op_payload_length packet)) (op_payload packet)) raw in
      let crc := Crc32_Calculate (Some raw) (OTA_PACKET_HEADER_SIZE + op_payload_length packet) in
      let raw := store (OTA_PACKET_HEADER_SIZE + op_payload_length packet) (PutU32Le crc) raw in
      (raw, Some length)
  | _, _ => (default [] raw, None)
  end.

(** The struct afterwards: the header fields are written before they are
    checked, the payload and the CRC after. *)
Definition OtaPacket_Deserialize (raw : list Z) (raw_length : Z) (packet : OtaPacket_t)
    : OtaPacket_t * OtaPacketStatus_t :=
  if raw_length <? OTA_PACKET_MIN_RAW_SIZE then (packet, OTA_PACKET_STATUS_TOO_SHORT) else
  let packet := mkOtaPacket (GetU16Le raw) (byte_at raw 2) (byte_at raw 3) (GetU32Le (drop 4 raw))
    (GetU32Le (drop 8 raw)) (GetU16Le (drop 12 raw)) (GetU16Le (drop 14 raw))
    (op_payload packet) (op_packet_crc32 packet) in
  if op_magic packet <>? OTA_PACKET_MAGIC then (packet, OTA_PACKET_STATUS_BAD_MAGIC) else
  if op_protocol_version packet <>? OTA_PROTOCOL_VERSION
  then (packet, OTA_PACKET_STATUS_BAD_VERSION) else
  if OTA_MAX_PAYLOAD_SIZE <? op_payload_length packet
  then (packet, OTA_PACKET_STATUS_BAD_LENGTH) else
  let expected_length := OTA_PACKET_HEADER_SIZE + op_payload_length packet + OTA_PACKET_CRC_SIZE in
  if raw_length <>? expected_length then (packet, OTA_PACKET_STATUS_BAD_LENGTH) else
  let payload := store 0 (slice OTA_PACKET_HEADER_SIZE (op_payload_length packet) raw)
                   (op_payload packet) in
  let stored_crc := GetU32Le (drop (Z.to_nat (OTA_PACKET_HEADER_SIZE + op_payload_length packet)) raw) in
  let packet := mkOtaPacket (op_magic packet) (op_protocol_version packet) (op_command packet)
    (op_update_id packet) (op_offset packet) (op_sequence packet) (op_payload_length packet)
    payload stored_crc in
  let computed_crc := Crc32_Calculate (Some raw) (OTA_PACKET_HEADER_SIZE + op_payload_length packet) in
  if stored_crc <>? computed_crc then (packet, OTA_PACKET_STATUS_BAD_CRC)
  else (packet, OTA_PACKET_STATUS_OK).

(** ** What a packet stands for *)

Definition packet_payload (p : OtaPacket_t) : list Z :=
  take (Z.to_nat (op_payload_length p)) (op_payload p).

Definition packet_body (p : OtaPacket_t) : list Z :=
  PutU16Le (op_magic p) ++ [op_protocol_version p] ++ [op_command p] ++
  PutU32Le (op_update_id p) ++ PutU32Le (op_offset p) ++ PutU16Le (op_sequence p) ++
  PutU16Le (op_payload_length p) ++ packet_payload p.

Definition packet_bytes (p : OtaPacket_t) : list Z :=
  packet_body p ++ PutU32Le (crc_of (packet_body p)).

(** The ranges of the C types, and an array of the declared length. *)
Record packet_typed (p : OtaPacket_t) : Prop := {
  pt_magic : is_u16 (op_magic p);
  pt_version : is_byte (op_protocol_version p);
  pt_command : is_byte (op_command p);
  pt_update_id : is_u32 (op_update_id p);
  pt_offset : is_u32 (op_offset p);
  pt_sequence : is_u16 (op_sequence p);
  pt_payload_length : is_u16 (op_payload_length p);
  pt_payload : len (op_payload p) = OTA_MAX_PAYLOAD_SIZE;
  pt_payload_bytes : bytes_ok (op_payload p);
  pt_crc : is_u32 (op_packet_crc32 p)
}.

(** The packets the protocol carries. *)
Record packet_wf (p : OtaPacket_t) : Prop := {
  pw_typed : packet_typed p;
  pw_magic : op_magic p = OTA_PACKET_MAGIC;
  pw_version : op_protocol_version p = OTA_PROTOCOL_VERSION;
  pw_length : op_payload_length p <= OTA_MAX_PAYLOAD_SIZE
}.

(** The same packet as far as the wire is concerned. *)
Definition same_packet (p q : OtaPacket_t) : Prop :=
  op_command p = op_command q /\ op_update_id p = op_update_id q /\ op_offset p = op_offset q /\
  op_sequence p = op_sequence q /\ op_payload_length p = op_payload_length q /\
  packet_payload p = packet_payload q.

Lemma packet_payload_length p :
  packet_typed p -> op_payload_length p <= OTA_MAX_PAYLOAD_SIZE ->
  len (packet_payload p) = op_payload_length p.
Proof.
  intros [] Hl. unfold packet_payload, is_u16, OTA_MAX_PAYLOAD_SIZE in *. rewrite length_take. lia.
Qed.

Lemma packet_body_length p :
  packet_typed p -> op_payload_length p <= OTA_MAX_PAYLOAD_SIZE ->
  len (packet_body p) = OTA_PACKET_HEADER_SIZE + op_payload_length p.
Proof.
  intros Hp Hl. pose proof (packet_payload_length p Hp Hl) as H. unfold packet_body.
  rewrite !length_app. cbn [length PutU16Le PutU32Le]. unfold OTA_PACKET_HEADER_SIZE. lia.
Qed.

Lemma packet_bytes_length p :
  packet_typed p -> op_payload_length p <= OTA_MAX_PAYLOAD_SIZE ->
  len (packet_bytes p) = OTA_PACKET_HEADER_SIZE + op_payload_length p + OTA_PACKET_CRC_SIZE.
Proof.
  intros Hp Hl. unfold packet_bytes. rewrite len_app, packet_body_length by done. done.
Qed.

Lemma PutU16Le_ok x : bytes_ok (PutU16Le x).
Proof. repeat constructor; apply u8_range. Qed.

Lemma PutU32Le_ok x : bytes_ok (PutU32Le x).
Proof. repeat constructor; apply u8_range. Qed.

#[export] Hint Resolve PutU16Le_ok PutU32Le_ok : ota.

Lemma packet_body_ok p : packet_typed p -> bytes_ok (packet_body p).
Proof.
  intros []. unfold packet_body, packet_payload.
  repeat (apply Forall_app_2; [try apply Forall_singleton; auto with ota|]). by apply Forall_take.
Qed.

Lemma packet_bytes_ok p : packet_typed p -> bytes_ok (packet_bytes p).
Proof. intros. apply Forall_app_2; [by apply packet_body_ok|apply PutU32Le_ok]. Qed.

(** ** Serialising writes exactly the packet's bytes *)

(** A buffer whose first bytes are [pre], and one more run behind them. *)
Lemma store_grow pre bs buffer :
  take (length pre) buffer = pre -> len pre + len bs <= len buffer ->
  take (length (pre ++ bs)) (store (len pre) bs buffer) = pre ++ bs.
Proof.
  intros Hpre Hl. pose proof (store_prefix (len pre) bs buffer ltac:(lia) Hl) as H.
  replace (Z.to_nat (len pre + len bs)) with (length (pre ++ bs)) in H by (rewrite length_app; lia).
  by rewrite H, Nat2Z.id, Hpre.
Qed.

(** The header, field by field. *)
Definition packet_header (p : OtaPacket_t) : list Z :=
  (((((([] ++ PutU16Le (op_magic p)) ++ [op_protocol_version p]) ++ [op_command p]) ++
    PutU32Le (op_update_id p)) ++ PutU32Le (op_offset p)) ++ PutU16Le (op_sequence p)) ++
    PutU16Le (op_payload_length p).

Lemma packet_body_header p : packet_body p = packet_header p ++ packet_payload p.
Proof. done. Qed.

Lemma serialize_header p raw :
  16 <= len raw ->
  take 16 (store 14 (PutU16Le (op_payload_length p)) (store 12 (PutU16Le (op_sequence p))
    (store 8 (PutU32Le (op_offset p)) (store 4 (PutU32Le (op_update_id p))
    (store 3 [op_command p] (store 2 [op_protocol_version p]
    (store 0 (PutU16Le (op_magic p)) raw))))))) = packet_header p.
Proof.
  intros H. unfold packet_header. change 16%nat with (length (packet_header p)).
  change 14 with (len (packet_header p) - 2).
  do 7 (apply store_grow; [|rewrite ?store_length; cbn; lia]). done.
Qed.

Lemma OtaPacket_Serialize_bytes p raw raw_capacity :
  packet_typed p -> op_payload_length p <= OTA_MAX_PAYLOAD_SIZE ->
  len (packet_bytes p) <= raw_capacity -> raw_capacity <= len raw ->
  exists raw',
    OtaPacket_Serialize (Some p) (Some raw) raw_capacity = (raw', Some (len (packet_bytes p))) /\
    len raw' = len raw /\ take (length (packet_bytes p)) raw' = packet_bytes p.
Proof.
  intros Hp Hl Hcap Hraw.
  pose proof (packet_body_length p Hp Hl) as Hbody. pose proof (packet_payload_length p Hp Hl) as Hpay.
  pose proof (packet_bytes_length p Hp Hl) as Hbytes. rewrite Hbytes in Hcap |- *.
  unfold OtaPacket_Serialize, OTA_PACKET_CRC_SIZE, OTA_PACKET_HEADER_SIZE in *. fold (packet_payload p).
  rewrite (proj2 (Z.ltb_ge _ _)) by lia. rewrite (proj2 (Z.ltb_ge _ _)) by lia.
  pose proof (serialize_header p raw ltac:(lia)) as H0.
  set (r0 := store 14 _ _) in *.
  assert (Hr0 : length r0 = length raw) by (unfold r0; by rewrite !store_length).
  eapply (store_grow (packet_header p) (packet_payload p)) in H0;
    [|change (len (packet_header p)) with 16; lia].
  change (len (packet_header p)) with 16 in H0. rewrite <- packet_body_header in H0.
  set (r1 := store 16 _ _) in *.
  assert (Hr1 : length r1 = length raw) by (unfold r1; by rewrite store_length).
  assert (Hcrc : Crc32_Calculate (Some r1) (16 + op_payload_length p) = crc_of (packet_body p)).
  { rewrite <- (take_drop (length (packet_body p)) r1), H0. by apply Crc32_Calculate_prefix. }
  rewrite Hcrc, <- Hbody. eexists. split; [reflexivity|]. split; [rewrite store_length; lia|].
  apply store_grow; [exact H0|]. cbn [length PutU32Le]. lia.
Qed.

(** ** Deserialising reads them back *)

(** The struct [q] after [p] was received into it. *)
Definition received (p q : OtaPacket_t) : OtaPacket_t :=
  mkOtaPacket (op_magic p) (op_protocol_version p) (op_command p) (op_update_id p) (op_offset p)
    (op_sequence p) (op_payload_length p) (store 0 (packet_payload p) (op_payload q))
    (crc_of (packet_body p)).

Lemma header_fields p rest :
  packet_typed p ->
  let raw := packet_header p ++ rest in
  GetU16Le raw = op_magic p /\ byte_at raw 2 = op_protocol_version p /\
  byte_at raw 3 = op_command p /\ GetU32Le (drop 4 raw) = op_update_id p /\
  GetU32Le (drop 8 raw) = op_offset p /\ GetU16Le (drop 12 raw) = op_sequence p /\
  GetU16Le (drop 14 raw) = op_payload_length p.
Proof.
  intros []. split_and!; try done.
  - by apply (GetU16Le_PutU16Le _ _).
  - by apply (GetU32Le_PutU32Le _ _).
  - by apply (GetU32Le_PutU32Le _ _).
  - by apply (GetU16Le_PutU16Le _ _).
  - by apply (GetU16Le_PutU16Le _ _).
Qed.

Lemma payload_slice a b rest n : len a = 16 -> len b = n -> slice 16 n ((a ++ b) ++ rest) = b.
Proof. intros Ha Hb. rewrite <- app_assoc. by apply slice_middle. Qed.

(** What deserialising answers on bytes that carry [crc] behind the body of a
    well-formed packet. *)
Lemma OtaPacket_Deserialize_crc p q crc junk :
  packet_wf p -> is_u32 crc ->
  OtaPacket_Deserialize (packet_body p ++ PutU32Le crc ++ junk) (len (packet_bytes p)) q =
  (mkOtaPacket (op_magic p) (op_protocol_version p) (op_command p) (op_update_id p) (op_offset p)
    (op_sequence p) (op_payload_length p) (store 0 (packet_payload p) (op_payload q)) crc,
   if crc =? crc_of (packet_body p) then OTA_PACKET_STATUS_OK else OTA_PACKET_STATUS_BAD_CRC).
Proof.
  intros [Hp Hm Hv Hl] Hcrc.
  pose proof (packet_body_length p Hp Hl) as Hbody. pose proof (packet_payload_length p Hp Hl) as Hpay.
  pose proof (packet_bytes_length p Hp Hl) as Hbytes. rewrite Hbytes. clear Hbytes.
  assert (Hhd : len (packet_header p) = 16) by done.
  unfold OtaPacket_Deserialize, OTA_PACKET_MIN_RAW_SIZE, OTA_PACKET_CRC_SIZE, OTA_PACKET_HEADER_SIZE in *.
  rewrite (proj2 (Z.ltb_ge _ _)) by lia.
  rewrite packet_body_header in Hbody |- *. rewrite <- (app_assoc (packet_header p)).
  destruct (header_fields p (packet_payload p ++ PutU32Le crc ++ junk) Hp) as (E1&E2&E3&E4&E5&E6&E7).
  rewrite E1, E2, E3, E4, E5, E6, E7. cbn [op_magic op_protocol_version op_command op_update_id op_offset
    op_sequence op_payload_length op_payload op_packet_crc32].
  rewrite Hm, Hv, !Z.eqb_refl. cbn [negb].
  rewrite (proj2 (Z.ltb_ge _ _)) by lia.
  rewrite (app_assoc (packet_header p)), payload_slice by done.
  rewrite Crc32_Calculate_prefix by exact Hbody.
  rewrite drop_app_length' by lia. rewrite GetU32Le_PutU32Le by exact Hcrc.
  by destruct (crc =? crc_of (packet_header p ++ packet_payload p)).
Qed.

Lemma OtaPacket_Deserialize_bytes p q junk :
  packet_wf p ->
  OtaPacket_Deserialize (packet_bytes p ++ junk) (len (packet_bytes p)) q =
  (received p q, OTA_PACKET_STATUS_OK).
Proof.
  intros Hp. unfold packet_bytes at 1. rewrite <- app_assoc, OtaPacket_Deserialize_crc.
  - rewrite Z.eqb_refl. reflexivity.
  - exact Hp.
  - apply crc_of_range, packet_body_ok, Hp.
Qed.

Lemma received_payload p q :
  packet_typed p -> op_payload_length p <= OTA_MAX_PAYLOAD_SIZE -> packet_typed q ->
  packet_payload (received p q) = packet_payload p.
Proof.
  intros Hp Hl Hq. pose proof (packet_payload_length p Hp Hl) as H. destruct Hq as [_ _ _ _ _ _ _ Hq _ _].
  unfold packet_payload at 1, received. cbn [op_payload_length op_payload].
  pose proof (store_prefix 0 (packet_payload p) (op_payload q) ltac:(lia) ltac:(lia)) as Hs.
  rewrite H, Z.add_0_l in Hs. exact Hs.
Qed.

Lemma received_same p q :
  packet_typed p -> op_payload_length p <= OTA_MAX_PAYLOAD_SIZE -> packet_typed q ->
  same_packet p (received p q).
Proof.
  intros Hp Hl Hq. repeat (split; [reflexivity|]). symmetry. by apply received_payload.
Qed.

(** ** Only the bytes of well-formed packets are accepted *)

Lemma list_split16 (l : list Z) :
  (16 <= length l)%nat ->
  exists b0 b1 b2 b3 b4 b5 b6 b7 b8 b9 b10 b11 b12 b13 b14 b15 rest,
    l = b0::b1::b2::b3::b4::b5::b6::b7::b8::b9::b10::b11::b12::b13::b14::b15::rest.
Proof. intros H. do 16 (destruct l as [|? l]; [cbn [length] in H; lia|]). by repeat eexists. Qed.

(** The header bytes are those of the fields read from them. *)
Lemma header_of_fields raw pl payload crc :
  bytes_ok raw -> 16 <= len raw -> pl = GetU16Le (drop 14 raw) ->
  packet_header (mkOtaPacket (GetU16Le raw) (byte_at raw 2) (byte_at raw 3) (GetU32Le (drop 4 raw))
    (GetU32Le (drop 8 raw)) (GetU16Le (drop 12 raw)) pl payload crc) = take 16 raw.
Proof.
  intros Hraw Hl ->.
  destruct (list_split16 raw ltac:(lia)) as
    (b0&b1&b2&b3&b4&b5&b6&b7&b8&b9&b10&b11&b12&b13&b14&b15&rest&->).
  rewrite !Forall_cons in Hraw. destruct_and! Hraw.
  unfold packet_header. cbn [op_magic op_protocol_version op_command op_update_id op_offset op_sequence
    op_payload_length drop]. rewrite !PutU16Le_GetU16Le, !PutU32Le_GetU32Le by
    (repeat first [exact (List.Forall_nil _) | apply Forall_cons_2; [done|]]).
  reflexivity.
Qed.

(** The struct stays well typed whatever bytes arrive. *)
Lemma OtaPacket_Deserialize_typed raw n q :
  bytes_ok raw -> packet_typed q -> packet_typed (fst (OtaPacket_Deserialize raw n q)).
Proof.
  intros Hraw Hq. pose proof Hq as []. unfold OtaPacket_Deserialize.
  assert (Hd : forall k, bytes_ok (drop k raw)) by (intros; by apply Forall_drop).
  assert (Hpl : forall k, bytes_ok (store 0 (slice 16 k raw) (op_payload q)) /\
    len (store 0 (slice 16 k raw) (op_payload q)) = OTA_MAX_PAYLOAD_SIZE).
  { intros k. split; [|by rewrite store_length]. apply store_ok; [by apply slice_bytes_ok|done]. }
  repeat case_if; cbn [fst]; try exact Hq;
    (split; cbn [op_magic op_protocol_version op_command op_update_id op_offset op_sequence
      op_payload_length op_payload op_packet_crc32]; auto using GetU16Le_range, GetU32Le_range, byte_at_ok;
     apply Hpl).
Qed.

(** A prefix in two runs. *)
Lemma take_slice a b (l : list Z) :
  0 <= a -> 0 <= b -> take (Z.to_nat a) l ++ slice a b l = take (Z.to_nat (a + b)) l.
Proof. intros. exact (slice_app_adjacent 0 a b l ltac:(lia) H H0). Qed.

Lemma take_word (l : list Z) :
  bytes_ok l -> 4 <= len l -> PutU32Le (GetU32Le l) = take 4 l.
Proof.
  intros Hok Hl. do 4 (destruct l as [|? l]; [cbn [length] in Hl; lia|]).
  rewrite !Forall_cons in Hok. destruct_and! Hok. apply PutU32Le_GetU32Le.
  repeat first [exact (List.Forall_nil _) | apply Forall_cons_2; [done|]].
Qed.

Lemma OtaPacket_Deserialize_accepts raw n q p :
  bytes_ok raw -> n <= len raw -> packet_typed q ->
  OtaPacket_Deserialize raw n q = (p, OTA_PACKET_STATUS_OK) ->
  packet_wf p /\ take (Z.to_nat n) raw = packet_bytes p /\ n = len (packet_bytes p) /\
  p = received p q.
Proof.
  intros Hraw Hn Hq Heq. pose proof (OtaPacket_Deserialize_typed raw n q Hraw Hq) as Hp.
  rewrite Heq in Hp. cbn [fst] in Hp. revert Heq. unfold OtaPacket_Deserialize.
  set (hd := mkOtaPacket (GetU16Le raw) _ _ _ _ _ _ _ _).
  repeat case_if; try discriminate. to_prop. intros [= Heq].
  cbn [op_payload_length] in *. set (pl := op_payload_length hd) in *.
  change (GetU16Le (drop 14 raw)) with pl in Heq.
  assert (Hpl : op_payload_length p = pl) by (by rewrite <- Heq).
  assert (Hcrc : op_packet_crc32 p = GetU32Le (drop (Z.to_nat (16 + pl)) raw)) by (by rewrite <- Heq).
  assert (Hstore : op_payload p = store 0 (slice 16 pl raw) (op_payload q)) by (by rewrite <- Heq).
  assert (Hwf : packet_wf p) by (split; [exact Hp|by rewrite <- Heq..|lia]).
  pose proof (pt_payload_length _ Hp) as Hrange. rewrite Hpl in Hrange.
  pose proof (pt_payload _ Hq) as Hpay.
  unfold OTA_PACKET_MIN_RAW_SIZE, OTA_PACKET_CRC_SIZE, OTA_PACKET_HEADER_SIZE, OTA_MAX_PAYLOAD_SIZE, is_u16 in *.
  pose proof (slice_length 16 pl raw ltac:(lia) ltac:(lia) ltac:(lia)) as Hsl.
  assert (Hpayload : packet_payload p = slice 16 pl raw).
  { unfold packet_payload. rewrite Hpl, Hstore.
    pose proof (store_prefix 0 (slice 16 pl raw) (op_payload q) ltac:(lia) ltac:(lia)) as Hs.
    rewrite Hsl, Z.add_0_l in Hs. exact Hs. }
  assert (Hheader : packet_header p = take 16 raw).
  { rewrite <- Heq. apply header_of_fields; [done|lia|done]. }
  assert (Hbody : packet_body p = take (Z.to_nat (16 + pl)) raw).
  { rewrite packet_body_header, Hheader, Hpayload. apply (take_slice 16 pl raw); lia. }
  assert (Hcrc' : op_packet_crc32 p = crc_of (packet_body p)).
  { rewrite Hcrc, E4, Hbody. rewrite <- (take_drop (Z.to_nat (16 + pl)) raw) at 1.
    apply Crc32_Calculate_prefix. rewrite length_take. lia. }
  assert (Hbytes : packet_bytes p = take (Z.to_nat n) raw).
  { unfold packet_bytes. rewrite <- Hcrc', Hcrc, take_word, Hbody.
    - rewrite take_take_drop. f_equal. lia.
    - by apply Forall_drop.
    - rewrite length_drop. lia. }
  split; [exact Hwf|]. split; [done|]. split; [rewrite Hbytes, length_take; lia|].
  unfold received. rewrite Hpayload, <- Hcrc', <- Hstore. by destruct p.
Qed.

(** A burst of at most four bytes never turns a packet into another. *)
Lemma packet_bytes_burst p p' pre mid mid' post :
  packet_typed p -> packet_typed p' ->
  packet_bytes p = pre ++ mid ++ post -> packet_bytes p' = pre ++ mid' ++ post ->
  (length mid <= 4)%nat -> length mid = length mid' -> mid = mid'.
Proof.
  intros Hp Hp'. unfold packet_bytes. rewrite !PutU32Le_bytes by (by apply crc_of_range, packet_body_ok).
  intros E E'. by eapply crc_residue_burst; [apply packet_body_ok..|exact E|exact E'].
Qed.

Lemma received_wf p q : packet_wf p -> packet_typed q -> packet_wf (received p q).
Proof.
  intros [Hp Hm Hv Hl] Hq. split; [|done..]. pose proof (packet_body_ok p Hp) as Hbody.
  pose proof Hp as []. pose proof Hq as [].
  split; cbn [received op_magic op_protocol_version op_command op_update_id op_offset op_sequence
    op_payload_length op_payload op_packet_crc32]; try done.
  - by rewrite store_length.
  - apply store_ok; [by apply Forall_take|done].
  - by apply crc_of_range.
Qed.

(** ** Properties *)

(** C34: The packet format is canonical.  Whatever bytes OtaPacket_Deserialize
    accepts, the packet is well-formed and OtaPacket_Serialize writes exactly
    these bytes again. *)
Theorem OtaPacket_Deserialize_canonical raw n q p :
  bytes_ok raw -> n <= len raw -> packet_typed q ->
  OtaPacket_Deserialize raw n q = (p, OTA_PACKET_STATUS_OK) ->
  packet_wf p /\ forall buffer, OTA_PACKET_MAX_RAW_SIZE <= len buffer ->
    exists buffer', OtaPacket_Serialize (Some p) (Some buffer) OTA_PACKET_MAX_RAW_SIZE = (buffer', Some n) /\
    take (Z.to_nat n) buffer' = take (Z.to_nat n) raw.
Proof.
  intros Hr Hn Hq Heq.
  destruct (OtaPacket_Deserialize_accepts raw n q p Hr Hn Hq Heq) as (Hp & Ht & Hl & _).
  split; [exact Hp|]. intros buffer Hb. rewrite Ht, Hl.
  pose proof (packet_bytes_length p (pw_typed p Hp) (pw_length p Hp)) as Hlen.
  pose proof (pw_length p Hp) as Hmax.
  unfold OTA_PACKET_MAX_RAW_SIZE, OTA_PACKET_HEADER_SIZE, OTA_PACKET_CRC_SIZE, OTA_MAX_PAYLOAD_SIZE in *.
  destruct (OtaPacket_Serialize_bytes p buffer (16 + 256 + 4) (pw_typed p Hp) (pw_length p Hp))
    as (buffer' & Hs & _ & Hb'); [lia|lia|].
  exists buffer'. split; [exact Hs|]. by rewrite Nat2Z.id.
Qed.
