(* ===== verification/OtaParser.v ===== *)
(** * OtaParser: node-stm32f103/application/protocol/ota_parser.c

    The byte-at-a-time receiver of the application: bytes collect in a
    320-byte array until a zero delimits the frame, which is then decoded by
    [Cobs_Decode] and [OtaPacket_Deserialize].  [raw] is the uninitialised
    local array of the function; the theorems hold whatever it contains. *)

From S2P Require Import Prelude Bytes Crc32 Buffer Cobs OtaPacket.

Definition OTA_MAX_ENCODED_FRAME : Z := 320.

Inductive OtaParserEvent_t :=
  | OTA_PARSER_EVENT_NONE
  | OTA_PARSER_EVENT_PACKET
  | OTA_PARSER_EVENT_INVALID_FRAME
  | OTA_PARSER_EVENT_PACKET_CRC_ERROR.

#[export] Instance OtaParserEvent_eq_dec : EqDecision OtaParserEvent_t.
Proof. solve_decision. Defined.

Record OtaParser_t := mkOtaParser {
  pa_encoded : list Z;
  pa_encoded_length : Z;
  pa_overflowed : Z
}.

Definition OtaParser_Reset (parser : OtaParser_t) : OtaParser_t :=
  mkOtaParser (pa_encoded parser) 0 0.

Definition OtaParser_Init (parser : OtaParser_t) : OtaParser_t := OtaParser_Reset parser.

(** The parser and the packet struct afterwards, and the event. *)
Definition OtaParser_PushByte (raw : list Z) (parser : OtaParser_t) (byte : Z)
    (packet : OtaPacket_t) : OtaParser_t * OtaPacket_t * OtaParserEvent_t :=
  if byte <>? 0 then
    if pa_overflowed parser <>? 0 then (parser, packet, OTA_PARSER_EVENT_NONE) else
    if OTA_MAX_ENCODED_FRAME <=? pa_encoded_length parser then
      (mkOtaParser (pa_encoded parser) (pa_encoded_length parser) 1, packet, OTA_PARSER_EVENT_NONE)
    else
      (mkOtaParser (store (pa_encoded_length parser) [byte] (pa_encoded parser))
         (u32 (pa_encoded_length parser + 1)) (pa_overflowed parser), packet, OTA_PARSER_EVENT_NONE)
  else if (pa_encoded_length parser =? 0) && (pa_overflowed parser =? 0) then
    (parser, packet, OTA_PARSER_EVENT_NONE)
  else if pa_overflowed parser <>? 0 then
    (OtaParser_Reset parser, packet, OTA_PARSER_EVENT_INVALID_FRAME)
  else
    match Cobs_Decode (Some (pa_encoded parser)) (pa_encoded_length parser) (Some raw)
            OTA_PACKET_MAX_RAW_SIZE with
    | (_, None) => (OtaParser_Reset parser, packet, OTA_PARSER_EVENT_INVALID_FRAME)
    | (raw, Some raw_length) =>
        let '(packet, status) := OtaPacket_Deserialize raw raw_length packet in
        (OtaParser_Reset parser, packet,
         match status with
         | OTA_PACKET_STATUS_OK => OTA_PARSER_EVENT_PACKET
         | OTA_PACKET_STATUS_BAD_CRC => OTA_PARSER_EVENT_PACKET_CRC_ERROR
         | _ => OTA_PARSER_EVENT_INVALID_FRAME
         end)
    end.

(** A run of bytes, with the events they raise. *)
Fixpoint PushBytes (raw : list Z) (parser : OtaParser_t) (bytes : list Z) (packet : OtaPacket_t)
    : OtaParser_t * OtaPacket_t * list OtaParserEvent_t :=
  match bytes with
  | [] => (parser, packet, [])
  | byte :: bytes =>
      let '(parser, packet, event) := OtaParser_PushByte raw parser byte packet in
      let '(parser, packet, events) := PushBytes raw parser bytes packet in
      (parser, packet, event :: events)
  end.

(** ** Invariant *)

Record parser_wf (parser : OtaParser_t) : Prop := {
  pf_size : len (pa_encoded parser) = OTA_MAX_ENCODED_FRAME;
  pf_bytes : bytes_ok (pa_encoded parser);
  pf_length : 0 <= pa_encoded_length parser <= OTA_MAX_ENCODED_FRAME;
  pf_overflowed : pa_overflowed parser = 0 \/ pa_overflowed parser = 1
}.

(** Nothing collected. *)
Definition parser_idle (parser : OtaParser_t) : Prop :=
  pa_encoded_length parser = 0 /\ pa_overflowed parser = 0.

Lemma Reset_wf parser : parser_wf parser -> parser_wf (OtaParser_Reset parser).
Proof. intros []. split; cbn; [done|done|unfold OTA_MAX_ENCODED_FRAME; lia|by left]. Qed.

Lemma max_raw_u32 : is_u32 OTA_PACKET_MAX_RAW_SIZE.
Proof. vm_compute. split; congruence. Qed.

Section push.
Context (raw : list Z) (Hraw : bytes_ok raw) (Hsize : len raw = OTA_PACKET_MAX_RAW_SIZE).

(** No index leaves its array, and the types are kept, for every byte. *)
Lemma PushByte_wf parser byte packet :
  parser_wf parser -> packet_typed packet -> is_byte byte ->
  let r := OtaParser_PushByte raw parser byte packet in
  parser_wf (fst (fst r)) /\ packet_typed (snd (fst r)) /\ (byte = 0 -> parser_idle (fst (fst r))).
Proof using Hraw.
  intros Hp Hq Hb. pose proof Hp as [Hs Hbs Hl Ho]. unfold OtaParser_PushByte.
  destruct (Z.eqb_spec byte 0) as [->|Hne]; cbn [negb].
  - case_if; [to_prop; by split_and!|].
    case_if; [by split_and!; [apply Reset_wf| |]|].
    pose proof (Cobs_Decode_bounds (pa_encoded parser) (pa_encoded_length parser) raw
      OTA_PACKET_MAX_RAW_SIZE Hbs max_raw_u32 Hraw) as (H1 & H2 & H3).
    destruct (Cobs_Decode _ _ _ _) as [raw' [n|]]; cbn [fst snd] in *.
    + pose proof (OtaPacket_Deserialize_typed raw' n packet H1 Hq) as Ht.
      destruct (OtaPacket_Deserialize raw' n packet) as [packet' status]. cbn [fst snd] in *.
      by split_and!; [apply Reset_wf| |].
    + by split_and!; [apply Reset_wf| |].
  - case_if; [by split_and!|]. case_if; cbn [fst snd]; split_and!; try done.
    + split; cbn; try done; by right.
    + to_prop. unfold OTA_MAX_ENCODED_FRAME in *. split; cbn [pa_encoded pa_encoded_length pa_overflowed].
      * by rewrite store_length.
      * apply store_ok; [by apply Forall_singleton|done].
      * rewrite u32_small by (unfold is_u32; lia). unfold OTA_MAX_ENCODED_FRAME. lia.
      * done.
Qed.

(** The frame a packet event comes from carried exactly that packet. *)
Lemma PushByte_packet parser byte packet parser' packet' :
  parser_wf parser -> packet_typed packet ->
  OtaParser_PushByte raw parser byte packet = (parser', packet', OTA_PARSER_EVENT_PACKET) ->
  packet_wf packet' /\ exists raw',
  Cobs_Decode (Some (pa_encoded parser)) (pa_encoded_length parser) (Some raw) OTA_PACKET_MAX_RAW_SIZE =
    (raw', Some (len (packet_bytes packet'))) /\
  take (length (packet_bytes packet')) raw' = packet_bytes packet'.
Proof using Hraw Hsize.
  intros Hp Hq. pose proof Hp as [Hs Hbs Hl Ho]. unfold OtaParser_PushByte.
  repeat case_if; try discriminate.
  pose proof (Cobs_Decode_bounds (pa_encoded parser) (pa_encoded_length parser) raw
    OTA_PACKET_MAX_RAW_SIZE Hbs max_raw_u32 Hraw) as (H1 & H2 & H3).
  destruct (Cobs_Decode _ _ _ _) as [raw' [n|]]; cbn [fst snd] in *; [|discriminate].
  destruct (OtaPacket_Deserialize raw' n packet) as [packet1 []] eqn:E2; try discriminate.
  intros [= <- <-]. specialize (H3 n eq_refl).
  pose proof (OtaPacket_Deserialize_accepts raw' n packet packet1 H1 ltac:(lia) Hq E2)
    as (Hw & Htake & -> & _).
  split; [exact Hw|]. exists raw'. by rewrite Nat2Z.id in Htake.
Qed.

(** Nothing happens before a delimiter. *)
Lemma PushByte_none parser byte packet :
  byte <> 0 -> snd (OtaParser_PushByte raw parser byte packet) = OTA_PARSER_EVENT_NONE.
Proof using.
  intros Hne. unfold OtaParser_PushByte. destruct (Z.eqb_spec byte 0); [done|]. cbn [negb].
  by repeat case_if.
Qed.

Lemma PushByte_event parser byte packet :
  snd (OtaParser_PushByte raw parser byte packet) = OTA_PARSER_EVENT_PACKET -> byte = 0.
Proof using.
  destruct (Z.eq_dec byte 0) as [|Hne]; [done|]. by rewrite (PushByte_none parser byte packet Hne).
Qed.

End push.
