(* ===== verification/OtaLink.v ===== *)
(** * OtaLink: frames on the wire

    [SendPacket] of node-stm32f103/application/src/ota_agent.c against the
    parser: whatever the parser was doing, once a delimiter has passed, the
    frame of a well-formed packet raises exactly one event and delivers the
    packet; a frame damaged in one burst never delivers another packet. *)

From S2P Require Import Prelude Bytes Crc32 Buffer Cobs OtaPacket OtaParser.

(** [SendPacket], up to [Uart_Write]: the bytes it hands over.  [raw] and
    [encoded] are its uninitialised local arrays. *)
Definition SendPacket (raw encoded : list Z) (packet : OtaPacket_t) : option (list Z) :=
  match OtaPacket_Serialize (Some packet) (Some raw) OTA_PACKET_MAX_RAW_SIZE with
  | (_, None) => None
  | (raw, Some raw_length) =>
      match Cobs_Encode (Some raw) raw_length (Some encoded) OTA_MAX_ENCODED_FRAME with
      | (_, None) => None
      | (encoded, Some encoded_length) =>
          let encoded := store encoded_length [0] encoded in
          Some (take (Z.to_nat (encoded_length + 1)) encoded)
      end
  end.

(** ** Collecting a frame *)

(** The parser holds exactly [bs]. *)
Record collected (parser : OtaParser_t) (bs : list Z) : Prop := {
  co_size : len (pa_encoded parser) = OTA_MAX_ENCODED_FRAME;
  co_length : pa_encoded_length parser = len bs;
  co_bytes : take (length bs) (pa_encoded parser) = bs;
  co_overflowed : pa_overflowed parser = 0
}.

Lemma idle_collected parser : parser_wf parser -> parser_idle parser -> collected parser [].
Proof. intros [] []. by split. Qed.

Lemma PushByte_collect raw parser bs b packet :
  collected parser bs -> b <> 0 -> len bs < OTA_MAX_ENCODED_FRAME ->
  exists parser', OtaParser_PushByte raw parser b packet = (parser', packet, OTA_PARSER_EVENT_NONE) /\
  collected parser' (bs ++ [b]).
Proof.
  intros [Hs Hl Hb Ho] Hne Hlt. unfold OtaParser_PushByte.
  rewrite (proj2 (Z.eqb_neq b 0)) by done. rewrite Ho, Hl. cbn [negb Z.eqb].
  rewrite (proj2 (Z.leb_gt _ _)) by done. eexists. split; [reflexivity|].
  unfold OTA_MAX_ENCODED_FRAME in *. split; cbn [pa_encoded pa_encoded_length pa_overflowed].
  - by rewrite store_length.
  - rewrite u32_small by (unfold is_u32; lia). rewrite length_app. cbn [length]. lia.
  - apply store_grow; [done|]. cbn [length]. lia.
  - done.
Qed.

Lemma PushBytes_collect raw frame : forall parser bs packet,
  collected parser bs -> Forall (fun x => 0 < x < 2 ^ 8) frame ->
  len bs + len frame <= OTA_MAX_ENCODED_FRAME ->
  exists parser',
    PushBytes raw parser frame packet =
      (parser', packet, replicate (length frame) OTA_PARSER_EVENT_NONE) /\
    collected parser' (bs ++ frame).
Proof.
  induction frame as [|b frame IH]; intros parser bs packet Hc Hf Hl.
  { exists parser. by rewrite app_nil_r. }
  apply Forall_cons in Hf as [Hb Hf]. cbn [length] in Hl.
  destruct (PushByte_collect raw parser bs b packet Hc ltac:(lia) ltac:(lia)) as (p1 & E1 & H1).
  destruct (IH p1 (bs ++ [b]) packet H1 Hf) as (p2 & E2 & H2).
  { rewrite length_app. cbn [length]. lia. }
  exists p2. cbn [PushBytes replicate length]. rewrite E1, E2. split; [done|].
  by rewrite <- app_assoc in H2.
Qed.

Lemma PushBytes_app raw a b parser packet :
  PushBytes raw parser (a ++ b) packet =
  let '(parser, packet, events) := PushBytes raw parser a packet in
  let '(parser, packet, events') := PushBytes raw parser b packet in
  (parser, packet, events ++ events').
Proof.
  revert parser packet. induction a as [|x a IH]; intros parser packet; cbn [PushBytes app].
  { by destruct (PushBytes raw parser b packet) as [[p q] e]. }
  destruct (OtaParser_PushByte raw parser x packet) as [[p q] e]. rewrite IH.
  destruct (PushBytes raw p a q) as [[p1 q1] e1]. by destruct (PushBytes raw p1 b q1) as [[p2 q2] e2].
Qed.

(** ** Sending *)

Lemma packet_bytes_max p :
  packet_wf p -> 20 <= len (packet_bytes p) <= OTA_PACKET_MAX_RAW_SIZE.
Proof.
  intros [Hp _ _ Hl]. rewrite (packet_bytes_length p Hp Hl).
  pose proof (pt_payload_length p Hp) as H. unfold is_u16 in H.
  unfold OTA_PACKET_MAX_RAW_SIZE, OTA_PACKET_HEADER_SIZE, OTA_PACKET_CRC_SIZE, OTA_MAX_PAYLOAD_SIZE in *. lia.
Qed.

(** What the receiver's decoder makes of the frame of [p]. *)
Definition carries (p : OtaPacket_t) (frame : list Z) : Prop :=
  forall buffer junk, len buffer = OTA_PACKET_MAX_RAW_SIZE ->
    exists rest, Cobs_Decode (Some (frame ++ junk)) (len frame) (Some buffer) OTA_PACKET_MAX_RAW_SIZE =
      (packet_bytes p ++ rest, Some (len (packet_bytes p))).

(** Serialising and encoding a well-formed packet always succeeds; the frame has
    no zero, fits the parser and decodes to the packet's bytes. *)
Lemma Serialize_Encode p raw encoded :
  packet_wf p -> len raw = OTA_PACKET_MAX_RAW_SIZE -> len encoded = OTA_MAX_ENCODED_FRAME + 1 ->
  exists raw' enc n,
    OtaPacket_Serialize (Some p) (Some raw) OTA_PACKET_MAX_RAW_SIZE = (raw', Some (len (packet_bytes p))) /\
    Cobs_Encode (Some raw') (len (packet_bytes p)) (Some encoded) OTA_MAX_ENCODED_FRAME = (enc, Some n) /\
    len enc = OTA_MAX_ENCODED_FRAME + 1 /\ 1 <= n <= OTA_MAX_ENCODED_FRAME /\
    Forall (fun x => 0 < x < 2 ^ 8) (take (Z.to_nat n) enc) /\ carries p (take (Z.to_nat n) enc).
Proof.
  intros Hp Hr He. pose proof (packet_bytes_max p Hp) as Hmax.
  destruct (OtaPacket_Serialize_bytes p raw OTA_PACKET_MAX_RAW_SIZE (pw_typed p Hp) (pw_length p Hp)
    ltac:(lia) ltac:(lia)) as (raw' & Hser & Hl & Htake).
  assert (Hdiv : len (packet_bytes p) / 254 <= 1).
  { change OTA_PACKET_MAX_RAW_SIZE with 276 in Hmax. apply Z.lt_succ_r, Z.div_lt_upper_bound; lia. }
  destruct (Cobs_round_trip (packet_bytes p) encoded OTA_MAX_ENCODED_FRAME
    (packet_bytes_ok p (pw_typed p Hp))) as (enc & n & Henc & Hle & Hn & Hnz & Hdec).
  { vm_compute. split; congruence. }
  { lia. }
  { change OTA_PACKET_MAX_RAW_SIZE with 276 in Hmax. unfold OTA_MAX_ENCODED_FRAME. lia. }
  exists raw', enc, n. split; [exact Hser|]. split.
  { by rewrite <- (take_drop (length (packet_bytes p)) raw'), Htake, Cobs_Encode_prefix. }
  split; [lia|]. split; [exact Hn|]. split; [exact Hnz|].
  assert (Hlen : len (take (Z.to_nat n) enc) = n) by (rewrite length_take; lia).
  intros buffer junk Hb.
  destruct (Hdec buffer OTA_PACKET_MAX_RAW_SIZE junk max_raw_u32 ltac:(lia) ltac:(lia)) as (rest & _ & H).
  exists rest. by rewrite Hlen.
Qed.

(** The bytes of a frame and its delimiter. *)
Lemma delimited (n : Z) (enc : list Z) :
  0 <= n < len enc -> take (Z.to_nat (n + 1)) (store n [0] enc) = take (Z.to_nat n) enc ++ [0].
Proof. intros Hn. change (n + 1) with (n + len [0]). by rewrite store_prefix by (cbn [length]; lia). Qed.

Lemma SendPacket_frame p raw encoded :
  packet_wf p -> len raw = OTA_PACKET_MAX_RAW_SIZE -> len encoded = OTA_MAX_ENCODED_FRAME + 1 ->
  exists frame, SendPacket raw encoded p = Some (frame ++ [0]) /\
    Forall (fun x => 0 < x < 2 ^ 8) frame /\ 1 <= len frame <= OTA_MAX_ENCODED_FRAME /\ carries p frame.
Proof.
  intros Hp Hr He.
  destruct (Serialize_Encode p raw encoded Hp Hr He) as (raw' & enc & n & Hs & Hc & Hl & Hn & Hnz & Hcar).
  unfold SendPacket. rewrite Hs, Hc, delimited by lia.
  exists (take (Z.to_nat n) enc). split; [done|]. split; [exact Hnz|]. split; [|exact Hcar].
  rewrite length_take. lia.
Qed.

(** ** Receiving *)

(** The delimiter after a whole frame delivers it. *)
Lemma PushByte_delivers raw parser packet p frame :
  len raw = OTA_PACKET_MAX_RAW_SIZE -> collected parser frame -> packet_wf p -> 1 <= len frame ->
  carries p frame ->
  exists parser', parser_idle parser' /\
  OtaParser_PushByte raw parser 0 packet = (parser', received p packet, OTA_PARSER_EVENT_PACKET).
Proof.
  intros Hr [Hs Hl Hb Ho] Hp Hlen Hdec. unfold OtaParser_PushByte. cbn [Z.eqb negb].
  rewrite Ho, Hl, (proj2 (Z.eqb_neq (len frame) 0)) by lia. cbn [andb negb Z.eqb].
  rewrite <- (take_drop (length frame) (pa_encoded parser)), Hb.
  destruct (Hdec raw (drop (length frame) (pa_encoded parser)) Hr) as (rest & ->).
  rewrite OtaPacket_Deserialize_bytes by exact Hp.
  eexists. split; [|reflexivity]. by split.
Qed.

(** From a parser that holds nothing. *)
Lemma PushBytes_frame raw parser packet p frame :
  len raw = OTA_PACKET_MAX_RAW_SIZE -> parser_wf parser -> parser_idle parser ->
  packet_wf p -> Forall (fun x => 0 < x < 2 ^ 8) frame -> 1 <= len frame <= OTA_MAX_ENCODED_FRAME ->
  carries p frame ->
  exists parser', parser_idle parser' /\
  PushBytes raw parser (frame ++ [0]) packet =
  (parser', received p packet,
   replicate (length frame) OTA_PARSER_EVENT_NONE ++ [OTA_PARSER_EVENT_PACKET]).
Proof.
  intros Hr Hwf Hi Hp Hnz Hlen Hdec. rewrite PushBytes_app.
  destruct (PushBytes_collect raw frame parser [] packet (idle_collected _ Hwf Hi) Hnz) as (p1 & -> & Hc).
  { cbn [length]. lia. }
  destruct (PushByte_delivers raw p1 packet p frame Hr Hc Hp ltac:(lia) Hdec) as (p2 & Hi2 & E).
  exists p2. split; [exact Hi2|]. cbn [PushBytes]. by rewrite E.
Qed.

(** ** Properties *)

(** A delimiter brings every parser back to idle. *)
Lemma PushByte_resync raw parser packet :
  bytes_ok raw -> parser_wf parser -> packet_typed packet ->
  exists parser' packet' event,
    OtaParser_PushByte raw parser 0 packet = (parser', packet', event) /\
    parser_wf parser' /\ parser_idle parser' /\ packet_typed packet'.
Proof.
  intros Hr Hp Hq. pose proof (PushByte_wf raw Hr parser 0 packet Hp Hq ltac:(done)) as (H1 & H2 & H3).
  destruct (OtaParser_PushByte raw parser 0 packet) as [[p1 q1] e]. cbn [fst snd] in *.
  exists p1, q1, e. by split_and!; [|apply H1|apply H3|].
Qed.

(** Link round trip.  For every well-formed packet, SendPacket produces a
    frame; a parser in any state that is fed a delimiter and the frame raises
    one event for the delimiter, none inside the frame and a packet event at its
    last byte, is idle afterwards, and delivers the same command, ids, offset,
    sequence number and payload. *)
Theorem SendPacket_received p raw encoded raw' parser packet :
  packet_wf p -> len raw = OTA_PACKET_MAX_RAW_SIZE -> len encoded = OTA_MAX_ENCODED_FRAME + 1 ->
  bytes_ok raw' -> len raw' = OTA_PACKET_MAX_RAW_SIZE -> parser_wf parser -> packet_typed packet ->
  exists frame parser' packet' event,
    SendPacket raw encoded p = Some frame /\
    PushBytes raw' parser (0 :: frame) packet =
      (parser', packet',
       event :: replicate (pred (length frame)) OTA_PARSER_EVENT_NONE ++ [OTA_PARSER_EVENT_PACKET]) /\
    parser_idle parser' /\ packet_wf packet' /\ same_packet p packet'.
Proof.
  intros Hp Hr He Hok Hr' Hpa Hq.
  destruct (SendPacket_frame p raw encoded Hp Hr He) as (frame & Hs & Hnz & Hlen & Hdec).
  destruct (PushByte_resync raw' parser packet Hok Hpa Hq) as (p1 & q1 & e1 & E1 & Hp1 & Hi1 & Hq1).
  destruct (PushBytes_frame raw' p1 q1 p frame Hr' Hp1 Hi1 Hp Hnz Hlen Hdec) as (p2 & Hi2 & E2).
  exists (frame ++ [0]), p2, (received p q1), e1. split; [exact Hs|]. split.
  - cbn [PushBytes]. rewrite E1, E2, length_app, Nat.add_comm. reflexivity.
  - split; [exact Hi2|]. pose proof (received_same p q1 (pw_typed p Hp) (pw_length p Hp) Hq1) as Hsame.
    split; [|exact Hsame]. by apply received_wf.
Qed.

(** Only checked packets are delivered.  For every byte in every parser
    state the parser stays well-formed and no index leaves its array; a
    delimiter makes it idle; a packet event only happens at a delimiter, and
    then the collected frame decodes to exactly the header, payload and CRC of
    the delivered well-formed packet. *)
Theorem OtaParser_PushByte_checked raw parser byte packet :
  bytes_ok raw -> len raw = OTA_PACKET_MAX_RAW_SIZE ->
  parser_wf parser -> packet_typed packet -> is_byte byte ->
  let '(parser', packet', event) := OtaParser_PushByte raw parser byte packet in
  parser_wf parser' /\ packet_typed packet' /\ (byte = 0 -> parser_idle parser') /\
  (event = OTA_PARSER_EVENT_PACKET -> byte = 0 /\ packet_wf packet' /\ exists raw',
    Cobs_Decode (Some (pa_encoded parser)) (pa_encoded_length parser) (Some raw) OTA_PACKET_MAX_RAW_SIZE =
      (raw', Some (len (packet_bytes packet'))) /\
    take (length (packet_bytes packet')) raw' = packet_bytes packet').
Proof.
  intros Hr Hs Hp Hq Hb. pose proof (PushByte_wf raw Hr parser byte packet Hp Hq Hb) as (H1 & H2 & H3).
  pose proof (PushByte_packet raw Hr Hs parser byte packet) as Hpk.
  pose proof (PushByte_event raw parser byte packet) as Hev.
  destruct (OtaParser_PushByte raw parser byte packet) as [[p1 q1] e]. cbn [fst snd] in *.
  split; [exact H1|]. split; [exact H2|]. split; [exact H3|].
  intros ->. split; [by apply Hev|]. by apply (Hpk p1 q1).
Qed.

(** C33: Damage is detected.  The bytes of a well-formed packet in which a
    window of at most four bytes, anywhere from the magic to the CRC, is changed
    are never accepted by OtaPacket_Deserialize. *)
Theorem OtaPacket_Deserialize_burst p pre mid mid' post q :
  packet_wf p -> packet_typed q -> packet_bytes p = pre ++ mid ++ post -> bytes_ok mid' ->
  (length mid <= 4)%nat -> length mid = length mid' -> mid <> mid' ->
  snd (OtaPacket_Deserialize (pre ++ mid' ++ post) (len (packet_bytes p)) q) <> OTA_PACKET_STATUS_OK.
Proof.
  intros Hp Hq Heq Hm Hl Hll Hne Hok. pose proof (packet_bytes_ok p (pw_typed p Hp)) as Hbytes.
  rewrite Heq, !Forall_app in Hbytes. destruct Hbytes as (Hpre & _ & Hpost).
  assert (Hn : len (packet_bytes p) = len (pre ++ mid' ++ post)).
  { rewrite Heq, !length_app. lia. }
  destruct (OtaPacket_Deserialize (pre ++ mid' ++ post) (len (packet_bytes p)) q) as [p' st] eqn:E.
  cbn [snd] in Hok. subst st. apply OtaPacket_Deserialize_accepts in E as (Hp' & Htake & _ & _);
    [|by rewrite !Forall_app|lia|done].
  rewrite Hn, Nat2Z.id, firstn_all in Htake. apply Hne.
  by eapply (packet_bytes_burst p p' pre mid mid' post); [apply pw_typed..|exact Heq| | |].
Qed.
