(* ===== verification/OtaResponse.v ===== *)
(** * OtaResponse: node-stm32f103/application/protocol/ota_response.c

    The ACK, NACK and HELLO answers of the application, built in the response
    struct the agent passes in: every field of the header is assigned, the
    payload bytes are stored over the old ones. *)

From S2P Require Import Prelude Bytes Crc32 Buffer OtaPacket FirmwareContainer.
From S2P Require Import MetadataStorage.

Definition OTA_HELLO_RESPONSE_PAYLOAD_SIZE : Z := 37.
Definition OTA_ACK_PAYLOAD_SIZE : Z := 20.
Definition BOOTLOADER_VERSION : Z := 1.

Definition OTA_STATUS_OK : Z := 0x00.
Definition OTA_STATUS_INVALID_PACKET : Z := 0x01.
Definition OTA_STATUS_INVALID_STATE : Z := 0x02.
Definition OTA_STATUS_WRONG_SEQUENCE : Z := 0x03.
Definition OTA_STATUS_WRONG_OFFSET : Z := 0x04.
Definition OTA_STATUS_PACKET_CRC_ERROR : Z := 0x05.
Definition OTA_STATUS_STORAGE_ERROR : Z := 0x06.
Definition OTA_STATUS_IMAGE_TOO_LARGE : Z := 0x07.
Definition OTA_STATUS_UPDATE_ID_MISMATCH : Z := 0x08.
Definition OTA_STATUS_BASE_MISMATCH : Z := 0x09.
Definition OTA_STATUS_CONTAINER_ERROR : Z := 0x0A.
Definition OTA_STATUS_SIGNATURE_ERROR : Z := 0x0B.
Definition OTA_STATUS_VERSION_REJECTED : Z := 0x0C.
Definition OTA_STATUS_BUSY : Z := 0x0D.
Definition OTA_STATUS_RETRY_LATER : Z := 0x0E.
Definition OTA_STATUS_INTERNAL_ERROR : Z := 0x0F.

Record OtaResponseInfo_t := mkOtaResponseInfo {
  ri_update_state : Z;
  ri_last_status : Z;
  ri_active_update_id : Z;
  ri_next_expected_offset : Z;
  ri_received_size : Z;
  ri_expected_size : Z;
  ri_last_error_detail : Z;
  ri_capability_flags : Z
}.

(** [InitResponse], then the assignments of its callers to [offset] and
    [payload_length]. *)
Definition InitResponse (request : OtaPacket_t) (command : Z) (response : OtaPacket_t) : OtaPacket_t :=
  mkOtaPacket OTA_PACKET_MAGIC OTA_PROTOCOL_VERSION command (op_update_id request) 0
    (op_sequence request) 0 (op_payload response) 0.

Definition op_set_body (offset payload_length : Z) (payload : list Z) (p : OtaPacket_t) : OtaPacket_t :=
  mkOtaPacket (op_magic p) (op_protocol_version p) (op_command p) (op_update_id p) offset
    (op_sequence p) payload_length payload (op_packet_crc32 p).

Definition BuildStatus (request : OtaPacket_t) (status : Z) (info : OtaResponseInfo_t)
    (response : OtaPacket_t) : OtaPacket_t :=
  let response := InitResponse request
    (if status =? OTA_STATUS_OK then OTA_CMD_ACK else OTA_CMD_NACK) response in
  let payload := op_payload response in
  let payload := store 0 [u8 status] payload in
  let payload := store 1 [ri_update_state info] payload in
  let payload := store 2 (PutU16Le (op_sequence request)) payload in
  let payload := store 4 (PutU32Le (ri_next_expected_offset info)) payload in
  let payload := store 8 (PutU32Le (ri_received_size info)) payload in
  let payload := store 12 (PutU32Le (ri_expected_size info)) payload in
  let payload := store 16 (PutU32Le (ri_last_error_detail info)) payload in
  op_set_body (ri_next_expected_offset info) OTA_ACK_PAYLOAD_SIZE payload response.

Definition OtaResponse_BuildAck (request : OtaPacket_t) (info : OtaResponseInfo_t)
    (response : OtaPacket_t) : OtaPacket_t :=
  BuildStatus request OTA_STATUS_OK info response.

Definition OtaResponse_BuildNack (request : OtaPacket_t) (status : Z) (info : OtaResponseInfo_t)
    (response : OtaPacket_t) : OtaPacket_t :=
  BuildStatus request status info response.

Definition OtaResponse_BuildHelloQuery (request : OtaPacket_t) (info : OtaResponseInfo_t)
    (response : OtaPacket_t) : OtaPacket_t :=
  let response := InitResponse request OTA_CMD_ACK response in
  let payload := op_payload response in
  let payload := store 0 [OTA_PROTOCOL_VERSION] payload in
  let payload := store 1 (PutU32Le BOOTLOADER_VERSION) payload in
  let payload := store 5 (PutU32Le APPLICATION_VERSION) payload in
  let payload := store 9 (PutU32Le PRODUCT_ID_STM32F103_NODE) payload in
  let payload := store 13 (PutU32Le HARDWARE_REVISION_1) payload in
  let payload := store 17 (PutU32Le (ri_capability_flags info)) payload in
  let payload := store 21 [ri_update_state info] payload in
  let payload := store 22 [ri_last_status info] payload in
  let payload := store 23 (PutU16Le 0) payload in
  let payload := store 25 (PutU32Le (ri_active_update_id info)) payload in
  let payload := store 29 (PutU32Le (ri_next_expected_offset info)) payload in
  let payload := store 33 (PutU32Le (ri_expected_size info)) payload in
  op_set_body (ri_next_expected_offset info) OTA_HELLO_RESPONSE_PAYLOAD_SIZE payload response.

(** The ranges of the C types. *)
Record info_typed (info : OtaResponseInfo_t) : Prop := {
  it_update_state : is_byte (ri_update_state info);
  it_last_status : is_byte (ri_last_status info);
  it_active_update_id : is_u32 (ri_active_update_id info);
  it_next_expected_offset : is_u32 (ri_next_expected_offset info);
  it_received_size : is_u32 (ri_received_size info);
  it_expected_size : is_u32 (ri_expected_size info);
  it_last_error_detail : is_u32 (ri_last_error_detail info);
  it_capability_flags : is_u32 (ri_capability_flags info)
}.

(** ** The payloads *)

Definition status_payload (request : OtaPacket_t) (status : Z) (info : OtaResponseInfo_t) : list Z :=
  (((((([] ++ [u8 status]) ++ [ri_update_state info]) ++ PutU16Le (op_sequence request)) ++
    PutU32Le (ri_next_expected_offset info)) ++ PutU32Le (ri_received_size info)) ++
    PutU32Le (ri_expected_size info)) ++ PutU32Le (ri_last_error_detail info).

Definition hello_payload (info : OtaResponseInfo_t) : list Z :=
  ((((((((((([] ++ [OTA_PROTOCOL_VERSION]) ++ PutU32Le BOOTLOADER_VERSION) ++
    PutU32Le APPLICATION_VERSION) ++ PutU32Le PRODUCT_ID_STM32F103_NODE) ++
    PutU32Le HARDWARE_REVISION_1) ++ PutU32Le (ri_capability_flags info)) ++
    [ri_update_state info]) ++ [ri_last_status info]) ++ PutU16Le 0) ++
    PutU32Le (ri_active_update_id info)) ++ PutU32Le (ri_next_expected_offset info)) ++
    PutU32Le (ri_expected_size info).

Lemma status_stores request status info payload :
  len payload = OTA_MAX_PAYLOAD_SIZE ->
  take 20 (store 16 (PutU32Le (ri_last_error_detail info)) (store 12 (PutU32Le (ri_expected_size info))
    (store 8 (PutU32Le (ri_received_size info)) (store 4 (PutU32Le (ri_next_expected_offset info))
    (store 2 (PutU16Le (op_sequence request)) (store 1 [ri_update_state info]
    (store 0 [u8 status] payload))))))) = status_payload request status info.
Proof.
  intros H. unfold status_payload, OTA_MAX_PAYLOAD_SIZE in *.
  change 20%nat with (length (status_payload request status info)).
  do 7 (apply store_grow; [|rewrite ?store_length; cbn; lia]). done.
Qed.

Lemma hello_stores info payload :
  len payload = OTA_MAX_PAYLOAD_SIZE ->
  take 37 (store 33 (PutU32Le (ri_expected_size info)) (store 29 (PutU32Le (ri_next_expected_offset info))
    (store 25 (PutU32Le (ri_active_update_id info)) (store 23 (PutU16Le 0)
    (store 22 [ri_last_status info] (store 21 [ri_update_state info]
    (store 17 (PutU32Le (ri_capability_flags info)) (store 13 (PutU32Le HARDWARE_REVISION_1)
    (store 9 (PutU32Le PRODUCT_ID_STM32F103_NODE) (store 5 (PutU32Le APPLICATION_VERSION)
    (store 1 (PutU32Le BOOTLOADER_VERSION) (store 0 [OTA_PROTOCOL_VERSION] payload)))))))))))) =
  hello_payload info.
Proof.
  intros H. unfold hello_payload, OTA_MAX_PAYLOAD_SIZE in *.
  change 37%nat with (length (hello_payload info)).
  do 12 (apply store_grow; [|rewrite ?store_length; cbn; lia]). done.
Qed.

(** ** The answers are well-formed packets for the request *)

Ltac stores_ok := repeat (apply store_ok; [first [apply PutU32Le_ok | apply PutU16Le_ok
  | apply Forall_singleton; first [apply u8_range | assumption | done]]|]).

Lemma BuildStatus_wf request status info response :
  packet_typed request -> packet_typed response -> info_typed info ->
  let r := BuildStatus request status info response in
  packet_wf r /\
  op_command r = (if status =? OTA_STATUS_OK then OTA_CMD_ACK else OTA_CMD_NACK) /\
  op_sequence r = op_sequence request /\ op_update_id r = op_update_id request /\
  op_offset r = ri_next_expected_offset info /\
  packet_payload r = status_payload request status info.
Proof.
  intros Hq Hr Hi. pose proof Hq as []. pose proof Hr as []. pose proof Hi as [].
  intros r. unfold BuildStatus in r. cbn [InitResponse op_payload] in r.
  set (payload := store 16 _ _) in r.
  assert (Hpay : len payload = OTA_MAX_PAYLOAD_SIZE) by (unfold payload; by rewrite !store_length).
  split; [|split_and!; [done..|by apply status_stores]]. unfold r.
  split; [|done..]. split; cbn [op_set_body InitResponse op_magic op_protocol_version op_command
    op_update_id op_offset op_sequence op_payload_length op_payload op_packet_crc32]; try done.
  - by destruct (status =? OTA_STATUS_OK).
  - unfold payload. stores_ok. done.
Qed.

Lemma BuildHelloQuery_wf request info response :
  packet_typed request -> packet_typed response -> info_typed info ->
  let r := OtaResponse_BuildHelloQuery request info response in
  packet_wf r /\ op_command r = OTA_CMD_ACK /\
  op_sequence r = op_sequence request /\ op_update_id r = op_update_id request /\
  op_offset r = ri_next_expected_offset info /\ packet_payload r = hello_payload info.
Proof.
  intros Hq Hr Hi. pose proof Hq as []. pose proof Hr as []. pose proof Hi as [].
  intros r. unfold OtaResponse_BuildHelloQuery in r. cbn [InitResponse op_payload] in r.
  set (payload := store 33 _ _) in r.
  assert (Hpay : len payload = OTA_MAX_PAYLOAD_SIZE) by (unfold payload; by rewrite !store_length).
  split; [|split_and!; [done..|by apply hello_stores]]. unfold r.
  split; [|done..]. split; cbn [op_set_body InitResponse op_magic op_protocol_version op_command
    op_update_id op_offset op_sequence op_payload_length op_payload op_packet_crc32]; try done.
  unfold payload. stores_ok. done.
Qed.
