(* ===== verification/OtaReceiver.v ===== *)
(** * OtaReceiver: node-stm32f103/application/src/ota_receiver.c

    The download session of the application: one handler per packet command,
    each a function from the session and the request to the session and the
    response.  The file-scope [g_session] is threaded explicitly; the response
    struct keeps its old payload bytes behind the ones a handler stores.  Built
    as shipped, with SECURE_CONTAINER_ALLOW_UNSIGNED_LEGACY equal to 0. *)

From S2P Require Import Prelude Bytes MemoryMap Crc32 AbRecord BootMetadata.
From S2P Require Import DownloadCheckpoint.
From S2P Require Import Device Logic SpiFlash ExternalFlashStorage AbStorage SectorRecords.
From S2P Require Import MetadataStorage FirmwareContainer Chunks TrialConfirmation Buffer.
From S2P Require Import OtaPacket OtaResponse.

Definition OTA_START_PAYLOAD_SIZE : Z := 24.
Definition OTA_CAP_FULL_IMAGE : Z := Z.shiftl 1 0.
Definition OTA_CAP_DELTA_IMAGE : Z := Z.shiftl 1 1.
Definition OTA_CAP_RESUME : Z := Z.shiftl 1 2.
Definition OTA_CAP_SIGNATURE_VERIFY : Z := Z.shiftl 1 3.
Definition OTA_CAP_ROLLBACK : Z := Z.shiftl 1 4.

(** ** The session *)

Record OtaReceiverSession_t := mkSession {
  se_state : Z;
  se_last_status : Z;
  se_storage_ready : Z;
  se_has_last_data : Z;
  se_reset_pending : Z;
  se_update_id : Z;
  se_target_version : Z;
  se_base_version : Z;
  se_expected_size : Z;
  se_next_offset : Z;
  se_persisted_offset : Z;
  se_artifact_crc32 : Z;
  se_last_error_detail : Z;
  se_erased_sector_bitmap : Z;
  se_last_data_offset : Z;
  se_expected_sequence : Z;
  se_last_data_sequence : Z;
  se_last_data_length : Z;
  se_artifact_type : Z
}.

Definition se_set_state (v : Z) (s : OtaReceiverSession_t) : OtaReceiverSession_t :=
  mkSession v (se_last_status s) (se_storage_ready s) (se_has_last_data s) (se_reset_pending s)
    (se_update_id s) (se_target_version s) (se_base_version s) (se_expected_size s)
    (se_next_offset s) (se_persisted_offset s) (se_artifact_crc32 s) (se_last_error_detail s)
    (se_erased_sector_bitmap s) (se_last_data_offset s) (se_expected_sequence s)
    (se_last_data_sequence s) (se_last_data_length s) (se_artifact_type s).
Definition se_set_last_status (v : Z) (s : OtaReceiverSession_t) : OtaReceiverSession_t :=
  mkSession (se_state s) v (se_storage_ready s) (se_has_last_data s) (se_reset_pending s)
    (se_update_id s) (se_target_version s) (se_base_version s) (se_expected_size s)
    (se_next_offset s) (se_persisted_offset s) (se_artifact_crc32 s) (se_last_error_detail s)
    (se_erased_sector_bitmap s) (se_last_data_offset s) (se_expected_sequence s)
    (se_last_data_sequence s) (se_last_data_length s) (se_artifact_type s).
Definition se_set_storage_ready (v : Z) (s : OtaReceiverSession_t) : OtaReceiverSession_t :=
  mkSession (se_state s) (se_last_status s) v (se_has_last_data s) (se_reset_pending s)
    (se_update_id s) (se_target_version s) (se_base_version s) (se_expected_size s)
    (se_next_offset s) (se_persisted_offset s) (se_artifact_crc32 s) (se_last_error_detail s)
    (se_erased_sector_bitmap s) (se_last_data_offset s) (se_expected_sequence s)
    (se_last_data_sequence s) (se_last_data_length s) (se_artifact_type s).
Definition se_set_has_last_data (v : Z) (s : OtaReceiverSession_t) : OtaReceiverSession_t :=
  mkSession (se_state s) (se_last_status s) (se_storage_ready s) v (se_reset_pending s)
    (se_update_id s) (se_target_version s) (se_base_version s) (se_expected_size s)
    (se_next_offset s) (se_persisted_offset s) (se_artifact_crc32 s) (se_last_error_detail s)
    (se_erased_sector_bitmap s) (se_last_data_offset s) (se_expected_sequence s)
    (se_last_data_sequence s) (se_last_data_length s) (se_artifact_type s).
Definition se_set_reset_pending (v : Z) (s : OtaReceiverSession_t) : OtaReceiverSession_t :=
  mkSession (se_state s) (se_last_status s) (se_storage_ready s) (se_has_last_data s) v
    (se_update_id s) (se_target_version s) (se_base_version s) (se_expected_size s)
    (se_next_offset s) (se_persisted_offset s) (se_artifact_crc32 s) (se_last_error_detail s)
    (se_erased_sector_bitmap s) (se_last_data_offset s) (se_expected_sequence s)
    (se_last_data_sequence s) (se_last_data_length s) (se_artifact_type s).
Definition se_set_update_id (v : Z) (s : OtaReceiverSession_t) : OtaReceiverSession_t :=
  mkSession (se_state s) (se_last_status s) (se_storage_ready s) (se_has_last_data s)
    (se_reset_pending s) v (se_target_version s) (se_base_version s) (se_expected_size s)
    (se_next_offset s) (se_persisted_offset s) (se_artifact_crc32 s) (se_last_error_detail s)
    (se_erased_sector_bitmap s) (se_last_data_offset s) (se_expected_sequence s)
    (se_last_data_sequence s) (se_last_data_length s) (se_artifact_type s).
Definition se_set_target_version (v : Z) (s : OtaReceiverSession_t) : OtaReceiverSession_t :=
  mkSession (se_state s) (se_last_status s) (se_storage_ready s) (se_has_last_data s)
    (se_reset_pending s) (se_update_id s) v (se_base_version s) (se_expected_size s)
    (se_next_offset s) (se_persisted_offset s) (se_artifact_crc32 s) (se_last_error_detail s)
    (se_erased_sector_bitmap s) (se_last_data_offset s) (se_expected_sequence s)
    (se_last_data_sequence s) (se_last_data_length s) (se_artifact_type s).
Definition se_set_base_version (v : Z) (s : OtaReceiverSession_t) : OtaReceiverSession_t :=
  mkSession (se_state s) (se_last_status s) (se_storage_ready s) (se_has_last_data s)
    (se_reset_pending s) (se_update_id s) (se_target_version s) v (se_expected_size s)
    (se_next_offset s) (se_persisted_offset s) (se_artifact_crc32 s) (se_last_error_detail s)
    (se_erased_sector_bitmap s) (se_last_data_offset s) (se_expected_sequence s)
    (se_last_data_sequence s) (se_last_data_length s) (se_artifact_type s).
Definition se_set_expected_size (v : Z) (s : OtaReceiverSession_t) : OtaReceiverSession_t :=
  mkSession (se_state s) (se_last_status s) (se_storage_ready s) (se_has_last_data s)
    (se_reset_pending s) (se_update_id s) (se_target_version s) (se_base_version s) v
    (se_next_offset s) (se_persisted_offset s) (se_artifact_crc32 s) (se_last_error_detail s)
    (se_erased_sector_bitmap s) (se_last_data_offset s) (se_expected_sequence s)
    (se_last_data_sequence s) (se_last_data_length s) (se_artifact_type s).
Definition se_set_next_offset (v : Z) (s : OtaReceiverSession_t) : OtaReceiverSession_t :=
  mkSession (se_state s) (se_last_status s) (se_storage_ready s) (se_has_last_data s)
    (se_reset_pending s) (se_update_id s) (se_target_version s) (se_base_version s)
    (se_expected_size s) v (se_persisted_offset s) (se_artifact_crc32 s) (se_last_error_detail s)
    (se_erased_sector_bitmap s) (se_last_data_offset s) (se_expected_sequence s)
    (se_last_data_sequence s) (se_last_data_length s) (se_artifact_type s).
Definition se_set_persisted_offset (v : Z) (s : OtaReceiverSession_t) : OtaReceiverSession_t :=
  mkSession (se_state s) (se_last_status s) (se_storage_ready s) (se_has_last_data s)
    (se_reset_pending s) (se_update_id s) (se_target_version s) (se_base_version s)
    (se_expected_size s) (se_next_offset s) v (se_artifact_crc32 s) (se_last_error_detail s)
    (se_erased_sector_bitmap s) (se_last_data_offset s) (se_expected_sequence s)
    (se_last_data_sequence s) (se_last_data_length s) (se_artifact_type s).
Definition se_set_artifact_crc32 (v : Z) (s : OtaReceiverSession_t) : OtaReceiverSession_t :=
  mkSession (se_state s) (se_last_status s) (se_storage_ready s) (se_has_last_data s)
    (se_reset_pending s) (se_update_id s) (se_target_version s) (se_base_version s)
    (se_expected_size s) (se_next_offset s) (se_persisted_offset s) v (se_last_error_detail s)
    (se_erased_sector_bitmap s) (se_last_data_offset s) (se_expected_sequence s)
    (se_last_data_sequence s) (se_last_data_length s) (se_artifact_type s).
Definition se_set_last_error_detail (v : Z) (s : OtaReceiverSession_t) : OtaReceiverSession_t :=
  mkSession (se_state s) (se_last_status s) (se_storage_ready s) (se_has_last_data s)
    (se_reset_pending s) (se_update_id s) (se_target_version s) (se_base_version s)
    (se_expected_size s) (se_next_offset s) (se_persisted_offset s) (se_artifact_crc32 s) v
    (se_erased_sector_bitmap s) (se_last_data_offset s) (se_expected_sequence s)
    (se_last_data_sequence s) (se_last_data_length s) (se_artifact_type s).
Definition se_set_erased_sector_bitmap (v : Z) (s : OtaReceiverSession_t) : OtaReceiverSession_t :=
  mkSession (se_state s) (se_last_status s) (se_storage_ready s) (se_has_last_data s)
    (se_reset_pending s) (se_update_id s) (se_target_version s) (se_base_version s)
    (se_expected_size s) (se_next_offset s) (se_persisted_offset s) (se_artifact_crc32 s)
    (se_last_error_detail s) v (se_last_data_offset s) (se_expected_sequence s)
    (se_last_data_sequence s) (se_last_data_length s) (se_artifact_type s).
Definition se_set_last_data_offset (v : Z) (s : OtaReceiverSession_t) : OtaReceiverSession_t :=
  mkSession (se_state s) (se_last_status s) (se_storage_ready s) (se_has_last_data s)
    (se_reset_pending s) (se_update_id s) (se_target_version s) (se_base_version s)
    (se_expected_size s) (se_next_offset s) (se_persisted_offset s) (se_artifact_crc32 s)
    (se_last_error_detail s) (se_erased_sector_bitmap s) v (se_expected_sequence s)
    (se_last_data_sequence s) (se_last_data_length s) (se_artifact_type s).
Definition se_set_expected_sequence (v : Z) (s : OtaReceiverSession_t) : OtaReceiverSession_t :=
  mkSession (se_state s) (se_last_status s) (se_storage_ready s) (se_has_last_data s)
    (se_reset_pending s) (se_update_id s) (se_target_version s) (se_base_version s)
    (se_expected_size s) (se_next_offset s) (se_persisted_offset s) (se_artifact_crc32 s)
    (se_last_error_detail s) (se_erased_sector_bitmap s) (se_last_data_offset s) v
    (se_last_data_sequence s) (se_last_data_length s) (se_artifact_type s).
Definition se_set_last_data_sequence (v : Z) (s : OtaReceiverSession_t) : OtaReceiverSession_t :=
  mkSession (se_state s) (se_last_status s) (se_storage_ready s) (se_has_last_data s)
    (se_reset_pending s) (se_update_id s) (se_target_version s) (se_base_version s)
    (se_expected_size s) (se_next_offset s) (se_persisted_offset s) (se_artifact_crc32 s)
    (se_last_error_detail s) (se_erased_sector_bitmap s) (se_last_data_offset s)
    (se_expected_sequence s) v (se_last_data_length s) (se_artifact_type s).
Definition se_set_last_data_length (v : Z) (s : OtaReceiverSession_t) : OtaReceiverSession_t :=
  mkSession (se_state s) (se_last_status s) (se_storage_ready s) (se_has_last_data s)
    (se_reset_pending s) (se_update_id s) (se_target_version s) (se_base_version s)
    (se_expected_size s) (se_next_offset s) (se_persisted_offset s) (se_artifact_crc32 s)
    (se_last_error_detail s) (se_erased_sector_bitmap s) (se_last_data_offset s)
    (se_expected_sequence s) (se_last_data_sequence s) v (se_artifact_type s).
Definition se_set_artifact_type (v : Z) (s : OtaReceiverSession_t) : OtaReceiverSession_t :=
  mkSession (se_state s) (se_last_status s) (se_storage_ready s) (se_has_last_data s)
    (se_reset_pending s) (se_update_id s) (se_target_version s) (se_base_version s)
    (se_expected_size s) (se_next_offset s) (se_persisted_offset s) (se_artifact_crc32 s)
    (se_last_error_detail s) (se_erased_sector_bitmap s) (se_last_data_offset s)
    (se_expected_sequence s) (se_last_data_sequence s) (se_last_data_length s) v.

(** The zero-initialised [g_session]. *)
Definition initial_session : OtaReceiverSession_t :=
  mkSession 0 0 0 0 0 0 0 0 0 0 0 0 0 0 0 0 0 0 0.

Definition ResetTransfer (s : OtaReceiverSession_t) : OtaReceiverSession_t := s
  |> se_set_state (state_word UPDATE_IDLE)
  |> se_set_update_id 0
  |> se_set_target_version 0
  |> se_set_base_version 0
  |> se_set_expected_size 0
  |> se_set_next_offset 0
  |> se_set_persisted_offset 0
  |> se_set_artifact_crc32 0
  |> se_set_erased_sector_bitmap 0
  |> se_set_expected_sequence 0
  |> se_set_has_last_data 0
  |> se_set_reset_pending 0
  |> se_set_last_data_offset 0
  |> se_set_last_data_sequence 0
  |> se_set_last_data_length 0
  |> se_set_artifact_type 0.

(** The enum values, as they appear in error details. *)
Definition checkpoint_status_word (st : AbStorageStatus) : Z :=
  match st with
  | STORAGE_OK => 0
  | STORAGE_INVALID_ARGUMENT => 1
  | STORAGE_NOT_FOUND => 2
  | STORAGE_READ_FAILED => 3
  | STORAGE_ERASE_FAILED => 4
  | STORAGE_WRITE_FAILED => 5
  | STORAGE_VERIFY_FAILED => 6
  end.

Definition spi_status_word (st : SpiFlashStatus_t) : Z :=
  match st with
  | SPI_FLASH_STATUS_OK => 0
  | SPI_FLASH_STATUS_NOT_INITIALIZED => 1
  | SPI_FLASH_STATUS_INVALID_ARGUMENT => 2
  | SPI_FLASH_STATUS_RANGE_ERROR => 3
  | SPI_FLASH_STATUS_ALIGNMENT_ERROR => 4
  | SPI_FLASH_STATUS_TRANSFER_TIMEOUT => 5
  | SPI_FLASH_STATUS_BUSY_TIMEOUT => 6
  | SPI_FLASH_STATUS_WRITE_ENABLE_FAILED => 7
  | SPI_FLASH_STATUS_UNSUPPORTED_DEVICE => 8
  | SPI_FLASH_STATUS_NEEDS_ERASE => 9
  | SPI_FLASH_STATUS_VERIFY_FAILED => 10
  end.

Definition CheckpointErrorDetail (status : AbStorageStatus) : Z :=
  Z.lor 0x00071000 (checkpoint_status_word status).

(** [1UL << sector]; every sector of the Incoming partition is below 32. *)
Definition sector_bit (sector : Z) : Z := u32 (Z.shiftl 1 sector).

(** The loop over [sector]. *)
Fixpoint SectorBits (n : nat) : Z :=
  match n with
  | O => 0
  | S n => Z.lor (SectorBits n) (sector_bit (Z.of_nat n))
  end.

Definition CompletedSectorBitmap (checkpoint_offset : Z) : Z :=
  let complete_sectors := checkpoint_offset / EXT_FLASH_SECTOR_SIZE in
  SectorBits (Z.to_nat complete_sectors).

Definition OtaReceiver_GetResponseInfo (s : OtaReceiverSession_t) : OtaResponseInfo_t :=
  mkOtaResponseInfo (se_state s) (se_last_status s) (se_update_id s) (se_next_offset s)
    (se_next_offset s) (se_expected_size s) (se_last_error_detail s)
    (if se_storage_ready s <>? 0
     then Z.lor (Z.lor (Z.lor (Z.lor OTA_CAP_FULL_IMAGE OTA_CAP_DELTA_IMAGE) OTA_CAP_RESUME)
            OTA_CAP_SIGNATURE_VERIFY) OTA_CAP_ROLLBACK
     else 0).

Definition SetSessionStatus (status detail : Z) (s : OtaReceiverSession_t) : OtaReceiverSession_t := s
  |> se_set_last_status (u8 status)
  |> se_set_last_error_detail detail.

(** The session and the response a handler leaves. *)
Definition Ack (request response : OtaPacket_t) (s : OtaReceiverSession_t)
    : OtaReceiverSession_t * OtaPacket_t :=
  let s := SetSessionStatus OTA_STATUS_OK 0 s in
  (s, OtaResponse_BuildAck request (OtaReceiver_GetResponseInfo s) response).

Definition Nack (request : OtaPacket_t) (status detail : Z) (response : OtaPacket_t)
    (s : OtaReceiverSession_t) : OtaReceiverSession_t * OtaPacket_t :=
  let s := SetSessionStatus status detail s in
  (s, OtaResponse_BuildNack request status (OtaReceiver_GetResponseInfo s) response).

Section receiver.
Context {HW : Hw}.
Implicit Types w : World HW.
Implicit Types s : OtaReceiverSession_t.

(** ** Checkpoints *)

Definition PersistDownloadCheckpoint (state : DownloadCheckpointState_t) (next_offset : Z) s
    : M HW (OtaReceiverSession_t * AbStorageStatus) :=
  let requested := DownloadCheckpoint_InitSession state (se_update_id s) (se_target_version s)
    (se_expected_size s) (se_artifact_crc32 s) next_offset in
  r <- DownloadCheckpointStorage_Commit (Some requested) ;;
  let '(status, committed, _) := r in
  match status, committed with
  | STORAGE_OK, Some committed => ret (se_set_persisted_offset (dc_next_offset committed) s, status)
  | _, _ => ret (s, status)
  end.

Definition ClearDownloadCheckpoint s : M HW (OtaReceiverSession_t * AbStorageStatus) :=
  status <- DownloadCheckpointStorage_Clear ;;
  ret (if bool_decide (status = STORAGE_OK) then se_set_persisted_offset 0 s else s, status).

Definition MirrorPersistentTrialState s : M HW OtaReceiverSession_t :=
  r <- MetadataStorage_Load ;;
  let '(status, metadata, _) := r in
  if bool_decide (status = METADATA_STORAGE_OK) &&
     ((bm_state metadata =? state_word UPDATE_TRIAL_BOOT) ||
      (bm_state metadata =? state_word UPDATE_CONFIRMED))
  then ret (s
    |> se_set_state (u8 (bm_state metadata))
    |> se_set_update_id (bm_active_update_id metadata)
    |> se_set_target_version (bm_pending_version metadata)
    |> se_set_expected_size (bm_expected_size metadata)
    |> se_set_next_offset (bm_received_size metadata)
    |> se_set_persisted_offset 0
    |> se_set_expected_sequence 0
    |> se_set_has_last_data 0)
  else ret s.

Definition RestoreDownloadCheckpoint s : M HW (OtaReceiverSession_t * AbStorageStatus) :=
  r <- DownloadCheckpointStorage_Load ;;
  let '(status, record, _) := r in
  if bool_decide (status = STORAGE_NOT_FOUND) then ret (s, STORAGE_OK) else
  match status, record with
  | STORAGE_OK, Some record =>
      if dc_state record =? checkpoint_state_word DOWNLOAD_CHECKPOINT_IDLE then ret (s, STORAGE_OK)
      else ret (s
        |> se_set_state (if dc_state record =? checkpoint_state_word DOWNLOAD_CHECKPOINT_ARTIFACT_READY
             then state_word UPDATE_ARTIFACT_READY else state_word UPDATE_RECEIVING)
        |> se_set_update_id (dc_update_id record)
        |> se_set_target_version (dc_target_version record)
        |> se_set_expected_size (dc_image_size record)
        |> se_set_next_offset (dc_next_offset record)
        |> se_set_persisted_offset (dc_next_offset record)
        |> se_set_artifact_crc32 (dc_image_crc32 record)
        |> se_set_erased_sector_bitmap (CompletedSectorBitmap (dc_next_offset record))
        |> se_set_expected_sequence
             (u16 (Z.land (dc_next_offset record / OTA_MAX_PAYLOAD_SIZE) 0xFFFF))
        |> se_set_has_last_data 0
        |> se_set_reset_pending 0, STORAGE_OK)
  | _, _ => ret (s, status)
  end.

Definition PersistReceiveBoundaryIfNeeded s : M HW (OtaReceiverSession_t * AbStorageStatus) :=
  if (se_next_offset s =? 0) || (Z.land (se_next_offset s) (EXT_FLASH_SECTOR_SIZE - 1) <>? 0)
     || (se_persisted_offset s =? se_next_offset s)
  then ret (s, STORAGE_OK)
  else PersistDownloadCheckpoint DOWNLOAD_CHECKPOINT_RECEIVING (se_next_offset s) s.

(** ** The Incoming partition *)

(** One pass over [sector]; [inr] leaves the loop. *)
Definition EnsureSector (last_sector : Z) (x : Z * OtaReceiverSession_t)
    : M HW (Z * OtaReceiverSession_t + OtaReceiverSession_t * bool) :=
  let '(sector, s) := x in
  if sector <=? last_sector then
    let mask := sector_bit sector in
    if Z.land (se_erased_sector_bitmap s) mask =? 0 then
      ok <- ExternalFlashStorage_EraseRange EXTERNAL_FLASH_PARTITION_INCOMING
              (u32 (sector * EXT_FLASH_SECTOR_SIZE)) EXT_FLASH_SECTOR_SIZE ;;
      if negb ok then ret (inr (s, false))
      else ret (inl (u32 (sector + 1),
             se_set_erased_sector_bitmap (Z.lor (se_erased_sector_bitmap s) mask) s))
    else ret (inl (u32 (sector + 1), s))
  else ret (inr (s, true)).

Definition EnsureIncomingSectorsErased (offset length : Z) s : M HW (OtaReceiverSession_t * bool) :=
  if length =? 0 then ret (s, false) else
  let first_sector := offset / EXT_FLASH_SECTOR_SIZE in
  let last_sector := u32 (u32 (offset + length) - 1) / EXT_FLASH_SECTOR_SIZE in
  loop (2 ^ 32) (EnsureSector last_sector) (first_sector, s).

Definition StoredDataMatches (request : OtaPacket_t) : M HW bool :=
  readback <- ExternalFlashStorage_Read EXTERNAL_FLASH_PARTITION_INCOMING
                (op_offset request) (op_payload_length request) ;;
  ret (match readback with
       | None => false
       | Some readback => bool_decide (readback = packet_payload request)
       end).

(** The CRC of the first [length] bytes; the read is [ReadChunks]. *)
Definition CalculateIncomingCrc (length : Z) : M HW (option Z) :=
  running <- ReadChunks 256 (ExternalFlashStorage_Read EXTERNAL_FLASH_PARTITION_INCOMING) length
               crc_step CRC32_IEEE_INITIAL_VALUE ;;
  ret ((fun running => Z.lxor running CRC32_IEEE_FINAL_XOR) <$> running).

Definition IncomingLooksLikeSecureContainer : M HW bool :=
  magic <- ExternalFlashStorage_Read EXTERNAL_FLASH_PARTITION_INCOMING 0 4 ;;
  ret (match magic with
       | None => false
       | Some magic => GetU32Le magic =? FW_CONTAINER_MAGIC
       end).

(** A NACK whose detail is the driver's last status. *)
Definition NackSpiStatus (request : OtaPacket_t) (status : Z) (response : OtaPacket_t) s
    : M HW (OtaReceiverSession_t * OtaPacket_t) :=
  st <- SpiFlash_GetLastStatus ;;
  ret (Nack request status (spi_status_word st) response s).

(** ** START *)

(** The session [ProcessStart] installs before it persists it. *)
Definition BeginTransfer (request : OtaPacket_t) s : OtaReceiverSession_t :=
  let payload := op_payload request in s
  |> se_set_state (state_word UPDATE_RECEIVING)
  |> se_set_update_id (op_update_id request)
  |> se_set_target_version (GetU32Le (drop 8 payload))
  |> se_set_base_version (GetU32Le (drop 4 payload))
  |> se_set_artifact_type (byte_at payload 0)
  |> se_set_expected_size (GetU32Le (drop 12 payload))
  |> se_set_next_offset 0
  |> se_set_artifact_crc32 (GetU32Le (drop 16 payload))
  |> se_set_erased_sector_bitmap 0
  |> se_set_expected_sequence 0
  |> se_set_has_last_data 0
  |> se_set_reset_pending 0.

Definition ProcessStart (request response : OtaPacket_t) s
    : M HW (OtaReceiverSession_t * OtaPacket_t) :=
  let nack status detail := ret (Nack request status detail response s) in
  if op_payload_length request <>? OTA_START_PAYLOAD_SIZE then nack OTA_STATUS_INVALID_PACKET 0 else
  if (se_state s <>? state_word UPDATE_IDLE) && (se_state s <>? state_word UPDATE_FAILED) &&
     (se_state s <>? state_word UPDATE_RECEIVING)
  then nack OTA_STATUS_INVALID_STATE 0 else
  if se_storage_ready s =? 0 then NackSpiStatus request OTA_STATUS_STORAGE_ERROR response s else
  if op_update_id request =? 0 then nack OTA_STATUS_INVALID_PACKET 0 else
  let payload := op_payload request in
  let artifact_type := byte_at payload 0 in
  let container_version := GetU16Le (drop 2 payload) in
  let base_version := GetU32Le (drop 4 payload) in
  let target_version := GetU32Le (drop 8 payload) in
  let artifact_size := GetU32Le (drop 12 payload) in
  let container_header_size := GetU32Le (drop 20 payload) in
  if (artifact_type <>? FW_IMAGE_FULL) && (artifact_type <>? FW_IMAGE_DELTA)
  then nack OTA_STATUS_INVALID_PACKET artifact_type else
  if container_version <>? FW_CONTAINER_FORMAT_VERSION
  then nack OTA_STATUS_CONTAINER_ERROR container_version else
  if (artifact_size <=? FW_CONTAINER_HEADER_SIZE + FW_ECDSA_P256_RAW_SIGNATURE_SIZE) ||
     (EXT_INCOMING_SIZE <? artifact_size)
  then nack OTA_STATUS_IMAGE_TOO_LARGE artifact_size else
  if (target_version =? 0) || (target_version <=? APPLICATION_VERSION)
  then nack OTA_STATUS_VERSION_REJECTED APPLICATION_VERSION else
  if container_header_size <>? FW_CONTAINER_HEADER_SIZE
  then nack OTA_STATUS_SIGNATURE_ERROR container_header_size else
  if (artifact_type =? FW_IMAGE_DELTA) &&
     ((base_version =? 0) || (base_version <>? APPLICATION_VERSION))
  then nack OTA_STATUS_BASE_MISMATCH APPLICATION_VERSION else
  if (artifact_type <>? FW_IMAGE_DELTA) && (base_version <>? 0)
  then nack OTA_STATUS_CONTAINER_ERROR base_version else
  r <- PersistDownloadCheckpoint DOWNLOAD_CHECKPOINT_RECEIVING 0 (BeginTransfer request s) ;;
  let '(s, checkpoint_status) := r in
  if bool_decide (checkpoint_status <> STORAGE_OK)
  then ret (Nack request OTA_STATUS_STORAGE_ERROR (CheckpointErrorDetail checkpoint_status) response
              (ResetTransfer s))
  else ret (Ack request response s).

(** ** DATA *)

(** Persist at a sector boundary, then answer. *)
Definition PersistAndAnswer (request response : OtaPacket_t) s
    : M HW (OtaReceiverSession_t * OtaPacket_t) :=
  r <- PersistReceiveBoundaryIfNeeded s ;;
  let '(s, checkpoint_status) := r in
  if bool_decide (checkpoint_status <> STORAGE_OK)
  then ret (Nack request OTA_STATUS_STORAGE_ERROR (CheckpointErrorDetail checkpoint_status) response s)
  else ret (Ack request response s).

(** The session once the payload is in flash. *)
Definition Advance (request : OtaPacket_t) s : OtaReceiverSession_t := s
  |> se_set_has_last_data 1
  |> se_set_last_data_offset (op_offset request)
  |> se_set_last_data_sequence (op_sequence request)
  |> se_set_last_data_length (op_payload_length request)
  |> se_set_next_offset (u32 (se_next_offset s + op_payload_length request))
  |> se_set_expected_sequence (u16 (se_expected_sequence s + 1)).

(** [ProcessData] up to the checkpoint: [inl] is an early return, [inr] the
    session that reaches [PersistReceiveBoundaryIfNeeded]. *)
Definition ReceivePayload (request response : OtaPacket_t) s
    : M HW (OtaReceiverSession_t * OtaPacket_t + OtaReceiverSession_t) :=
  let nack status detail := ret (inl (Nack request status detail response s)) in
  let nack_spi s := x <- NackSpiStatus request OTA_STATUS_STORAGE_ERROR response s ;; ret (inl x) in
  if se_state s <>? state_word UPDATE_RECEIVING then nack OTA_STATUS_INVALID_STATE 0 else
  if op_update_id request <>? se_update_id s then nack OTA_STATUS_UPDATE_ID_MISMATCH 0 else
  if (op_payload_length request =? 0) || (OTA_MAX_PAYLOAD_SIZE <? op_payload_length request)
  then nack OTA_STATUS_INVALID_PACKET 0 else
  if (se_has_last_data s <>? 0) && (op_sequence request =? se_last_data_sequence s) &&
     (op_offset request =? se_last_data_offset s) &&
     (op_payload_length request =? se_last_data_length s)
  then
    matches <- StoredDataMatches request ;;
    if (matches : bool) then ret (inr s)
    else nack OTA_STATUS_WRONG_OFFSET (op_offset request)
  else
  if op_sequence request <>? se_expected_sequence s
  then nack OTA_STATUS_WRONG_SEQUENCE (se_expected_sequence s) else
  if op_offset request <>? se_next_offset s
  then nack OTA_STATUS_WRONG_OFFSET (se_next_offset s) else
  if u32 (se_expected_size s - se_next_offset s) <? op_payload_length request
  then nack OTA_STATUS_WRONG_OFFSET (se_expected_size s) else
  r <- EnsureIncomingSectorsErased (op_offset request) (op_payload_length request) s ;;
  let '(s, erased) := r in
  if negb erased then nack_spi s else
  stored <- andM
    (ExternalFlashStorage_Write EXTERNAL_FLASH_PARTITION_INCOMING (op_offset request)
       (Some (packet_payload request)) (op_payload_length request))
    (ExternalFlashStorage_Verify EXTERNAL_FLASH_PARTITION_INCOMING (op_offset request)
       (Some (packet_payload request)) (op_payload_length request)) ;;
  if negb stored then nack_spi s else ret (inr (Advance request s)).

Definition ProcessData (request response : OtaPacket_t) s
    : M HW (OtaReceiverSession_t * OtaPacket_t) :=
  r <- ReceivePayload request response s ;;
  match r with
  | inl x => ret x
  | inr s => PersistAndAnswer request response s
  end.

(** ** FINISH *)

Definition ProcessFinish (request response : OtaPacket_t) s
    : M HW (OtaReceiverSession_t * OtaPacket_t) :=
  let nack status detail := ret (Nack request status detail response s) in
  if op_payload_length request <>? 0 then nack OTA_STATUS_INVALID_PACKET 0 else
  if (se_state s =? state_word UPDATE_ARTIFACT_READY) && (op_update_id request =? se_update_id s) &&
     (se_next_offset s =? se_expected_size s)
  then ret (Ack request response s) else
  if se_state s <>? state_word UPDATE_RECEIVING then nack OTA_STATUS_INVALID_STATE 0 else
  if op_update_id request <>? se_update_id s then nack OTA_STATUS_UPDATE_ID_MISMATCH 0 else
  if se_next_offset s <>? se_expected_size s
  then nack OTA_STATUS_WRONG_OFFSET (se_next_offset s) else
  crc <- CalculateIncomingCrc (se_expected_size s) ;;
  match crc with
  | None => NackSpiStatus request OTA_STATUS_STORAGE_ERROR response s
  | Some artifact_crc =>
      if artifact_crc <>? se_artifact_crc32 s
      then ret (Nack request OTA_STATUS_CONTAINER_ERROR artifact_crc response
                  (se_set_state (state_word UPDATE_FAILED) s))
      else
        r <- PersistDownloadCheckpoint DOWNLOAD_CHECKPOINT_ARTIFACT_READY (se_expected_size s) s ;;
        let '(s, checkpoint_status) := r in
        if bool_decide (checkpoint_status <> STORAGE_OK)
        then ret (Nack request OTA_STATUS_STORAGE_ERROR (CheckpointErrorDetail checkpoint_status)
                    response s)
        else ret (Ack request response (se_set_state (state_word UPDATE_ARTIFACT_READY) s))
  end.

(** ** INSTALL *)

(** The metadata record an installation request asks for. *)
Definition InstallRequest s (metadata : BootMetadata_t) : BootMetadata_t := metadata
  |> bm_set_state (state_word UPDATE_ARTIFACT_READY)
  |> bm_set_pending_version (se_target_version s)
  |> bm_set_active_update_id (se_update_id s)
  |> bm_set_received_size (se_expected_size s)
  |> bm_set_expected_size (se_expected_size s)
  |> bm_set_copy_offset 0
  |> bm_set_boot_attempts 0
  |> bm_set_last_error 0.

(** [*detail] on failure. *)
Definition PersistSecureInstallRequest s : M HW (option Z) :=
  r <- MetadataStorage_Load ;;
  let '(status, metadata, _) := r in
  if bool_decide (status <> METADATA_STORAGE_OK) && bool_decide (status <> METADATA_STORAGE_DEFAULTS_USED)
  then ret (Some (Z.lor 0x00140100 (metadata_status_word status))) else
  r <- MetadataStorage_Commit (Some (InstallRequest s metadata)) ;;
  let '(status, _, _) := r in
  if bool_decide (status <> METADATA_STORAGE_OK)
  then ret (Some (Z.lor 0x00140200 (metadata_status_word status)))
  else ret None.

Definition ProcessInstall (request response : OtaPacket_t) s
    : M HW (OtaReceiverSession_t * OtaPacket_t) :=
  let nack status detail := ret (Nack request status detail response s) in
  if op_payload_length request <>? 0 then nack OTA_STATUS_INVALID_PACKET 0 else
  if se_state s <>? state_word UPDATE_ARTIFACT_READY then nack OTA_STATUS_INVALID_STATE 0 else
  if op_update_id request <>? se_update_id s then nack OTA_STATUS_UPDATE_ID_MISMATCH 0 else
  if se_target_version s =? 0 then nack OTA_STATUS_VERSION_REJECTED 0 else
  secure <- IncomingLooksLikeSecureContainer ;;
  if (secure : bool) then
    r <- PersistSecureInstallRequest s ;;
    match r with
    | Some detail => ret (Nack request OTA_STATUS_INTERNAL_ERROR detail response s)
    | None =>
        let '(s, response) := Ack request response s in
        ret (se_set_reset_pending 1 s, response)
    end
  else ret (Nack request OTA_STATUS_SIGNATURE_ERROR 0x0014FFFF response s).

(** ** CONFIRM *)

Definition ProcessConfirm (request response : OtaPacket_t) (t : TrialState) s
    : M HW (TrialState * (OtaReceiverSession_t * OtaPacket_t)) :=
  let nack status detail := ret (t, Nack request status detail response s) in
  if op_payload_length request <>? 0 then nack OTA_STATUS_INVALID_PACKET 0 else
  if se_state s <>? state_word UPDATE_TRIAL_BOOT then nack OTA_STATUS_INVALID_STATE 0 else
  if (op_update_id request <>? 0) && (op_update_id request <>? se_update_id s)
  then nack OTA_STATUS_UPDATE_ID_MISMATCH 0 else
  r <- TrialConfirmation_ConfirmNow t ;;
  let '(t, detail, confirmed) := r in
  if negb confirmed then ret (t, Nack request OTA_STATUS_INTERNAL_ERROR detail response s) else
  let '(s, response) := Ack request response (se_set_state (state_word UPDATE_CONFIRMED) s) in
  ret (t, (se_set_reset_pending 1 s, response)).

(** ** Start-up and dispatch *)

Definition OtaReceiver_Init s : M HW (OtaReceiverSession_t * bool) :=
  ready <- ExternalFlashStorage_Init ;;
  st <- SpiFlash_GetLastStatus ;;
  let s := s
    |> se_set_storage_ready (if (ready : bool) then 1 else 0)
    |> se_set_last_status (if (ready : bool) then OTA_STATUS_OK else OTA_STATUS_STORAGE_ERROR)
    |> se_set_last_error_detail (if (ready : bool) then 0 else spi_status_word st) in
  let s := ResetTransfer s in
  if (ready : bool) then
    r <- RestoreDownloadCheckpoint s ;;
    let '(s, checkpoint_status) := r in
    if bool_decide (checkpoint_status <> STORAGE_OK)
    then
      let s := s
        |> se_set_storage_ready 0
        |> se_set_last_status OTA_STATUS_STORAGE_ERROR
        |> se_set_last_error_detail (CheckpointErrorDetail checkpoint_status)
        |> ResetTransfer in
      ret (s, false)
    else if se_state s =? state_word UPDATE_IDLE then
      s <- MirrorPersistentTrialState s ;; ret (s, true)
    else ret (s, true)
  else ret (s, false).

Definition OtaReceiver_ShouldReset s : bool := se_reset_pending s <>? 0.

Definition ProcessAbort (request response : OtaPacket_t) s
    : M HW (OtaReceiverSession_t * OtaPacket_t) :=
  if op_payload_length request <>? 0
  then ret (Nack request OTA_STATUS_INVALID_PACKET 0 response s) else
  r <- ClearDownloadCheckpoint s ;;
  let '(s, checkpoint_status) := r in
  if bool_decide (checkpoint_status <> STORAGE_OK)
  then ret (Nack request OTA_STATUS_STORAGE_ERROR (CheckpointErrorDetail checkpoint_status) response s)
  else ret (Ack request response (ResetTransfer s)).

Definition ProcessResume (request response : OtaPacket_t) s : OtaReceiverSession_t * OtaPacket_t :=
  if op_payload_length request <>? 0 then Nack request OTA_STATUS_INVALID_PACKET 0 response s else
  if se_state s <>? state_word UPDATE_RECEIVING then Nack request OTA_STATUS_INVALID_STATE 0 response s else
  if op_update_id request <>? se_update_id s
  then Nack request OTA_STATUS_UPDATE_ID_MISMATCH 0 response s
  else Ack request response s.

Definition ProcessQuery (request response : OtaPacket_t) s : OtaReceiverSession_t * OtaPacket_t :=
  if op_payload_length request <>? 0 then Nack request OTA_STATUS_INVALID_PACKET 0 response s else
  let s := SetSessionStatus OTA_STATUS_OK 0 s in
  (s, OtaResponse_BuildHelloQuery request (OtaReceiver_GetResponseInfo s) response).

Definition OtaReceiver_ProcessPacket (request response : OtaPacket_t) (t : TrialState) s
    : M HW (TrialState * (OtaReceiverSession_t * OtaPacket_t)) :=
  let command := op_command request in
  let keep m := r <- m ;; ret (t, r) in
  if (command =? OTA_CMD_HELLO) || (command =? OTA_CMD_QUERY) || (command =? OTA_CMD_STATUS)
  then ret (t, ProcessQuery request response s)
  else if command =? OTA_CMD_START then keep (ProcessStart request response s)
  else if command =? OTA_CMD_DATA then keep (ProcessData request response s)
  else if command =? OTA_CMD_FINISH then keep (ProcessFinish request response s)
  else if command =? OTA_CMD_ABORT then keep (ProcessAbort request response s)
  else if command =? OTA_CMD_RESUME then ret (t, ProcessResume request response s)
  else if command =? OTA_CMD_INSTALL then keep (ProcessInstall request response s)
  else if command =? OTA_CMD_CONFIRM then ProcessConfirm request response t s
  else ret (t, Nack request OTA_STATUS_INVALID_PACKET command response s).

End receiver.
