(* ===== verification/Reception.v ===== *)
(** * Reception: what the download session guarantees

    The invariant of [OtaReceiver]: the bytes counted by [next_offset] are in
    the Incoming partition exactly as they were acknowledged, no packet can
    touch another partition or the application, and every request is answered
    by a well-formed packet that carries its sequence number. *)

From S2P Require Import Prelude Bytes MemoryMap Crc32 AbRecord BootMetadata.
From S2P Require Import DownloadCheckpoint.
From S2P Require Import Device Logic SpiFlash ExternalFlashStorage AbStorage SectorRecords.
From S2P Require Import UpdateHandoff MetadataStorage TrialBoot Recovery FirmwareContainer.
From S2P Require Import Chunks TrialConfirmation.
From S2P Require Import Buffer OtaPacket OtaResponse OtaReceiver.

(** ** Types of the session *)

Record session_typed (s : OtaReceiverSession_t) : Prop := {
  st_state : is_byte (se_state s);
  st_last_status : is_byte (se_last_status s);
  st_storage_ready : is_byte (se_storage_ready s);
  st_has_last_data : is_byte (se_has_last_data s);
  st_reset_pending : is_byte (se_reset_pending s);
  st_update_id : is_u32 (se_update_id s);
  st_target_version : is_u32 (se_target_version s);
  st_base_version : is_u32 (se_base_version s);
  st_expected_size : is_u32 (se_expected_size s);
  st_next_offset : is_u32 (se_next_offset s);
  st_persisted_offset : is_u32 (se_persisted_offset s);
  st_artifact_crc32 : is_u32 (se_artifact_crc32 s);
  st_last_error_detail : is_u32 (se_last_error_detail s);
  st_erased_sector_bitmap : is_u32 (se_erased_sector_bitmap s);
  st_last_data_offset : is_u32 (se_last_data_offset s);
  st_expected_sequence : is_u16 (se_expected_sequence s);
  st_last_data_sequence : is_u16 (se_last_data_sequence s);
  st_last_data_length : is_u16 (se_last_data_length s);
  st_artifact_type : is_byte (se_artifact_type s)
}.

(** Numbers written in the code. *)
Ltac range := unfold is_byte, is_u16, is_u32 in *; first [assumption | lia | by vm_compute].

Ltac typed_solve := split; cbn;
  first [assumption | apply u8_range | apply u16_range | apply u32_range
        | by apply byte_at_ok | by vm_compute | idtac].

Lemma initial_session_typed : session_typed initial_session.
Proof. split; by vm_compute. Qed.

Lemma ResetTransfer_typed s : session_typed s -> session_typed (ResetTransfer s).
Proof. intros []. typed_solve. Qed.

Lemma SetSessionStatus_typed status detail s :
  is_u32 detail -> session_typed s -> session_typed (SetSessionStatus status detail s).
Proof. intros ? []. typed_solve. Qed.

Lemma GetResponseInfo_typed s : session_typed s -> info_typed (OtaReceiver_GetResponseInfo s).
Proof. intros []. split; cbn; try assumption. case_if; by vm_compute. Qed.

(** ** Answers *)

(** What every answer looks like. *)
Definition answers (request : OtaPacket_t) (x : OtaReceiverSession_t * OtaPacket_t) : Prop :=
  let '(s, r) := x in
  session_typed s /\ packet_wf r /\ op_sequence r = op_sequence request /\
  op_update_id r = op_update_id request /\ op_offset r = se_next_offset s /\
  op_command r = (if se_last_status s =? OTA_STATUS_OK then OTA_CMD_ACK else OTA_CMD_NACK).

(** The session an answer leaves: only the status fields differ. *)
Lemma Ack_answers request response s :
  packet_typed request -> packet_typed response -> session_typed s ->
  answers request (Ack request response s).
Proof.
  intros Hq Hr Hs. unfold Ack, answers. cbv zeta.
  pose proof (SetSessionStatus_typed OTA_STATUS_OK 0 s ltac:(by vm_compute) Hs) as Hs'.
  destruct (BuildStatus_wf request OTA_STATUS_OK _ response Hq Hr (GetResponseInfo_typed _ Hs'))
    as (H1 & H2 & H3 & H4 & H5 & _).
  split; [exact Hs'|]. split; [exact H1|]. split; [exact H3|]. split; [exact H4|].
  split; [exact H5|exact H2].
Qed.

Lemma Nack_answers request status detail response s :
  packet_typed request -> packet_typed response -> session_typed s ->
  is_u32 detail -> is_byte status -> answers request (Nack request status detail response s).
Proof.
  intros Hq Hr Hs Hd Hst. unfold Nack, answers. cbv zeta.
  pose proof (SetSessionStatus_typed status detail s Hd Hs) as Hs'.
  destruct (BuildStatus_wf request status _ response Hq Hr (GetResponseInfo_typed _ Hs'))
    as (H1 & H2 & H3 & H4 & H5 & _).
  split; [exact Hs'|]. split; [exact H1|]. split; [exact H3|]. split; [exact H4|].
  split; [exact H5|]. cbn. by rewrite u8_small.
Qed.

Lemma Query_answers request response s :
  packet_typed request -> packet_typed response -> session_typed s ->
  answers request (ProcessQuery request response s).
Proof.
  intros Hq Hr Hs. unfold ProcessQuery. case_if; [by apply Nack_answers|].
  pose proof (SetSessionStatus_typed OTA_STATUS_OK 0 s ltac:(by vm_compute) Hs) as Hs'.
  destruct (BuildHelloQuery_wf request _ response Hq Hr (GetResponseInfo_typed _ Hs'))
    as (H1 & H2 & H3 & H4 & H5 & _).
  split; [exact Hs'|]. split; [exact H1|]. split; [exact H3|]. split; [exact H4|].
  split; [exact H5|exact H2].
Qed.

Lemma Resume_answers request response s :
  packet_typed request -> packet_typed response -> session_typed s ->
  answers request (ProcessResume request response s).
Proof.
  intros. unfold ProcessResume. repeat case_if; first [by apply Nack_answers | by apply Ack_answers].
Qed.

(** ** Where the session may write *)

(** A byte of the Incoming partition at or behind offset [n]. *)
Definition incoming_from (n a : Z) : Prop :=
  EXT_INCOMING_ADDRESS + n <= a < EXT_INCOMING_ADDRESS + EXT_INCOMING_SIZE.

Definition download_area (n a : Z) : Prop := in_ext_metadata a \/ incoming_from n a.

Lemma metadata_not_incoming a : in_ext_metadata a -> ~ incoming_from 0 a.
Proof. unfold in_ext_metadata, incoming_from. map_lia. Qed.

(** ** The invariant *)

Section reception.
Context {HW : Hw}.
Implicit Types w : World HW.
Implicit Types s : OtaReceiverSession_t.

(** [data] is what the session has acknowledged. *)
Record transfer (h : hw) s (data : list Z) : Prop := {
  tr_stored : nor_slice h EXT_INCOMING_ADDRESS (len data) = data;
  tr_next : se_next_offset s = len data;
  tr_size : len data <= se_expected_size s <= EXT_INCOMING_SIZE;
  tr_erased : se_state s = state_word UPDATE_RECEIVING ->
    forall k, 0 <= k < 32 -> k * EXT_FLASH_SECTOR_SIZE < len data ->
    Z.testbit (se_erased_sector_bitmap s) k = true;
  tr_last : se_has_last_data s <> 0 -> se_last_data_offset s + se_last_data_length s = len data
}.

Definition active s : Prop :=
  se_state s = state_word UPDATE_RECEIVING \/ se_state s = state_word UPDATE_ARTIFACT_READY.

Definition receiver_inv (h : hw) s (data : list Z) : Prop :=
  session_typed s /\ (active s -> transfer h s data).

(** The received bytes only depend on the bytes in front of [next_offset]. *)
Lemma transfer_frame F h h' s data :
  frame (download_area (len data)) F h h' -> transfer h s data -> transfer h' s data.
Proof.
  intros Hf [H1 H2 H3 H4 H5]. split; try assumption. rewrite <- H1 at 2.
  eapply nor_slice_frame; [exact Hf|]. intros i Hi [Hm|[Hm _]]; [|lia].
  apply (metadata_not_incoming i Hm). unfold incoming_from. lia.
Qed.

(** Fields the invariant does not read. *)
Lemma transfer_same h s s' data :
  (se_state s' = state_word UPDATE_RECEIVING -> se_state s = state_word UPDATE_RECEIVING) ->
  se_next_offset s' = se_next_offset s -> se_expected_size s' = se_expected_size s ->
  se_erased_sector_bitmap s' = se_erased_sector_bitmap s ->
  se_has_last_data s' = se_has_last_data s -> se_last_data_offset s' = se_last_data_offset s ->
  se_last_data_length s' = se_last_data_length s -> transfer h s data -> transfer h s' data.
Proof.
  intros E0 E1 E2 E3 E4 E5 E6 [H1 H2 H3 H4 H5]. split; rewrite ?E1, ?E2, ?E3, ?E4, ?E5, ?E6; auto.
Qed.

(** ** Checkpoints *)

(** The checkpoint record of a session. *)
Definition checkpoint_of (state : DownloadCheckpointState_t) (offset : Z) s
    (r : DownloadCheckpointRecord_t) : Prop :=
  dc_state r = checkpoint_state_word state /\ dc_update_id r = se_update_id s /\
  dc_target_version r = se_target_version s /\ dc_image_size r = se_expected_size s /\
  dc_image_crc32 r = se_artifact_crc32 s /\ dc_next_offset r = offset.

Lemma checkpoint_assign_wf i v (r : DownloadCheckpointRecord_t) :
  is_u32 v -> rec_wf r -> rec_wf (DownloadCheckpoint_assign i v r).
Proof.
  intros Hv Hr. unfold rec_wf, DownloadCheckpoint_assign.
  change (words_ok (rec_fields (R := DownloadCheckpointRecord_t)
    (rec_of_fields (<[i:=v]> (DownloadCheckpoint_fields r))))).
  rewrite rec_fields_of_fields by (rewrite length_insert; done). by apply Forall_insert.
Qed.

Lemma InitSession_wf state s offset :
  session_typed s -> is_u32 offset ->
  rec_wf (DownloadCheckpoint_InitSession state (se_update_id s) (se_target_version s)
    (se_expected_size s) (se_artifact_crc32 s) offset).
Proof.
  intros [] Ho. unfold DownloadCheckpoint_InitSession, dc_set_magic, dc_set_format_version, dc_set_state,
    dc_set_update_id, dc_set_target_version, dc_set_image_size, dc_set_image_crc32, dc_set_next_offset.
  assert (Hst : is_u32 (checkpoint_state_word state)) by (destruct state; split; vm_compute; congruence).
  do 8 (apply checkpoint_assign_wf; [first [assumption | split; vm_compute; congruence]|]).
  repeat constructor; vm_compute; congruence.
Qed.

Lemma triple_Persist state offset s :
  session_typed s -> is_u32 offset ->
  triple in_ext_metadata nowhere (fun _ => True) (PersistDownloadCheckpoint state offset s)
    (fun '(s', st) w => session_typed s' /\ s' = se_set_persisted_offset (se_persisted_offset s') s /\
       (st = STORAGE_OK -> se_persisted_offset s' = offset /\
          exists r, current_checkpoint (w_hw w) = Some r /\ checkpoint_of state offset s r)).
Proof.
  intros Hs Ho w _. apply wp_bind.
  eapply wp_mono; [apply (wp_Commit (R := DownloadCheckpointRecord_t) (Q := UpdateHandoffRecord_t)
    CHECKPOINT_RECORD_OFFSET EXT_METADATA_HANDOFF_OFFSET); [done|done|cbn; lia|done|by apply InitSession_wf]| |].
  - intros [[st r] slot] w' [Hf Hok]. cbv beta iota.
    assert (Hf' : frame in_ext_metadata nowhere (w_hw w) (w_hw w')).
    { eapply frame_mono; [|done|exact Hf]. apply sector_in_metadata. }
    destruct st.
    2-7: apply wp_ret; split; [exact Hf'|]; split; [exact Hs|]; split; [by destruct s|discriminate].
    destruct (Hok eq_refl) as (-> & _ & Hcur). apply wp_ret. split; [exact Hf'|].
    split; [destruct Hs; typed_solve|]. split; [reflexivity|]. intros _. split; [reflexivity|].
    eexists. split; [exact Hcur|]. unfold checkpoint_of. split_and!; reflexivity.
  - intros h Hf. eapply frame_mono; [|done|exact Hf]. apply sector_in_metadata.
Qed.

Lemma triple_PersistBoundary s :
  session_typed s ->
  triple in_ext_metadata nowhere (fun _ => True) (PersistReceiveBoundaryIfNeeded s)
    (fun '(s', st) w => session_typed s' /\ s' = se_set_persisted_offset (se_persisted_offset s') s).
Proof.
  intros Hs. unfold PersistReceiveBoundaryIfNeeded. apply triple_if; intros _.
  - apply triple_ret. intros w _. split; [exact Hs|by destruct s].
  - eapply triple_post; [apply triple_Persist; [exact Hs|apply Hs]|].
    intros [s' st] w (H1 & H2 & _). by split.
Qed.

(** ** Erasing ahead of the data *)

Lemma sector_bit_pow k : 0 <= k < 32 -> sector_bit k = 2 ^ k.
Proof.
  intros Hk. unfold sector_bit. rewrite Z.shiftl_1_l. apply u32_small. unfold is_u32.
  split; [apply Z.pow_nonneg; lia|]. apply Z.pow_lt_mono_r; lia.
Qed.

Lemma land_pow_zero x k : 0 <= k -> (Z.land x (2 ^ k) =? 0) = negb (Z.testbit x k).
Proof.
  intros Hk. destruct (Z.testbit x k) eqn:E; cbn [negb].
  - apply Z.eqb_neq. intros H. apply (f_equal (fun y => Z.testbit y k)) in H.
    rewrite Z.land_spec, E, Z.pow2_bits_true, Z.bits_0 in H by done. discriminate.
  - apply Z.eqb_eq, Z.bits_inj'. intros i Hi. rewrite Z.land_spec, Z.bits_0.
    destruct (Z.eq_dec i k) as [->|]; [by rewrite E|].
    rewrite Z.pow2_bits_false by lia. apply andb_false_r.
Qed.

Definition same_but_bitmap s s' : Prop :=
  s' = se_set_erased_sector_bitmap (se_erased_sector_bitmap s') s /\
  is_u32 (se_erased_sector_bitmap s') /\
  forall k, Z.testbit (se_erased_sector_bitmap s) k = true ->
    Z.testbit (se_erased_sector_bitmap s') k = true.

Lemma same_but_bitmap_refl s : session_typed s -> same_but_bitmap s s.
Proof. intros []. split; [by destruct s|]. by split. Qed.

Lemma same_but_bitmap_mark s s' k :
  0 <= k < 32 -> same_but_bitmap s s' ->
  same_but_bitmap s (se_set_erased_sector_bitmap
    (Z.lor (se_erased_sector_bitmap s') (sector_bit k)) s').
Proof.
  intros Hk (Heq & Hr & Hm). split; [rewrite Heq at 2; reflexivity|]. cbn. split.
  - apply lor_u32; [exact Hr|]. rewrite sector_bit_pow by exact Hk. unfold is_u32.
    split; [apply Z.pow_nonneg; lia|]. apply Z.pow_lt_mono_r; lia.
  - intros i Hi. rewrite Z.lor_spec, Hm by exact Hi. reflexivity.
Qed.

Lemma part_base_incoming : part_base EXTERNAL_FLASH_PARTITION_INCOMING = EXT_INCOMING_ADDRESS.
Proof. reflexivity. Qed.

Lemma part_size_incoming : part_size EXTERNAL_FLASH_PARTITION_INCOMING = EXT_INCOMING_SIZE.
Proof. reflexivity. Qed.

Lemma triple_EnsureErased received n s :
  session_typed s -> 0 < n -> 0 <= received -> received + n <= EXT_INCOMING_SIZE ->
  (forall k, 0 <= k < 32 -> k * EXT_FLASH_SECTOR_SIZE < received ->
    Z.testbit (se_erased_sector_bitmap s) k = true) ->
  triple (incoming_from received) nowhere (fun _ => True)
    (EnsureIncomingSectorsErased received n s)
    (fun '(s', ok) _ => same_but_bitmap s s' /\
       (ok = true -> forall k, 0 <= k < 32 -> k * EXT_FLASH_SECTOR_SIZE < received + n ->
          Z.testbit (se_erased_sector_bitmap s') k = true)).
Proof.
  intros Hs Hn Hr Hfit Hbits. unfold EnsureIncomingSectorsErased.
  rewrite (proj2 (Z.eqb_neq n 0)) by lia.
  rewrite !u32_small by (rewrite ?u32_small by (unfold is_u32; map_lia); unfold is_u32; map_lia).
  set (first := received / EXT_FLASH_SECTOR_SIZE). set (last := (received + n - 1) / EXT_FLASH_SECTOR_SIZE).
  assert (Hfirst : first * EXT_FLASH_SECTOR_SIZE <= received < (first + 1) * EXT_FLASH_SECTOR_SIZE).
  { pose proof (Z.div_mod received EXT_FLASH_SECTOR_SIZE ltac:(done)).
    pose proof (Z.mod_pos_bound received EXT_FLASH_SECTOR_SIZE ltac:(done)). unfold first. map_lia. }
  assert (Hlast : last * EXT_FLASH_SECTOR_SIZE <= received + n - 1 < (last + 1) * EXT_FLASH_SECTOR_SIZE).
  { pose proof (Z.div_mod (received + n - 1) EXT_FLASH_SECTOR_SIZE ltac:(done)).
    pose proof (Z.mod_pos_bound (received + n - 1) EXT_FLASH_SECTOR_SIZE ltac:(done)). unfold last. map_lia. }
  clearbody first last.
  set (I := fun (x : Z * OtaReceiverSession_t) => first <= fst x <= last + 1 /\ same_but_bitmap s (snd x) /\
    forall k, first <= k < fst x -> Z.testbit (se_erased_sector_bitmap (snd x)) k = true).
  apply (triple_pre _ _ (fun _ => I (first, s))).
  2: { intros w _. split; [cbn; map_lia|]. split; [by apply same_but_bitmap_refl|cbn; lia]. }
  apply (triple_loop _ _ (fun x _ => I x) (fun x => last + 1 - fst x)); [|cbn [fst]; map_lia].
  intros [k s1] Hmu. apply (triple_pure _ _ _ (I (k, s1))); [done|]. intros (Hk & Hsame & Hdone).
  cbn [fst snd] in *. unfold EnsureSector. apply triple_if; intros E; to_prop.
  2: { apply triple_ret. intros w _. split; [exact Hsame|]. intros _ i Hi Hlt.
       destruct (Z.lt_ge_cases i first) as [Hif|Hif].
       - apply Hsame, Hbits; [done|map_lia].
       - apply Hdone. map_lia. }
  assert (Hk32 : 0 <= k < 32) by map_lia.
  rewrite (u32_small (k + 1)) by (unfold is_u32; lia).
  rewrite sector_bit_pow, land_pow_zero by lia.
  destruct (Z.testbit (se_erased_sector_bitmap s1) k) eqn:Ebit; cbn [negb].
  - apply triple_ret. intros w _. split; [|cbn; lia]. split; [cbn; lia|]. cbn. split; [exact Hsame|].
    intros i Hi. destruct (Z.eq_dec i k) as [->|]; [exact Ebit|]. apply Hdone. lia.
  - assert (Hfree : received <= k * EXT_FLASH_SECTOR_SIZE).
    { apply Z.le_ngt. intros Hlt. rewrite (proj2 (proj2 Hsame) k) in Ebit; [discriminate|].
      by apply Hbits. }
    rewrite (u32_small (k * _)) by (unfold is_u32; map_lia).
    triple_wide (triple_Storage_EraseRange EXTERNAL_FLASH_PARTITION_INCOMING
      (k * EXT_FLASH_SECTOR_SIZE) EXT_FLASH_SECTOR_SIZE); [map_lia|done| |done|done|].
    { cbv beta. unfold in_partition, incoming_from. rewrite part_base_incoming, part_size_incoming.
      intros a Ha. lia. }
    intros ok. apply triple_if; intros Eok; apply triple_ret; intros w _.
    + split; [exact Hsame|]. discriminate.
    + split; [|cbn; lia]. split; [cbn; lia|]. cbn [fst snd].
      pose proof (same_but_bitmap_mark s s1 k Hk32 Hsame) as Hmark.
      rewrite sector_bit_pow in Hmark by lia. split; [exact Hmark|].
      intros i Hi. cbn [se_erased_sector_bitmap se_set_erased_sector_bitmap]. rewrite Z.lor_spec.
      destruct (Z.eq_dec i k) as [->|].
      * rewrite Z.pow2_bits_true by lia. apply orb_true_r.
      * rewrite Hdone by lia. reflexivity.
Qed.

(** ** DATA *)

(** What a packet of a transfer never changes. *)
Definition same_transfer s s' : Prop :=
  se_state s' = se_state s /\ se_update_id s' = se_update_id s /\
  se_target_version s' = se_target_version s /\ se_expected_size s' = se_expected_size s /\
  se_artifact_crc32 s' = se_artifact_crc32 s /\ se_storage_ready s' = se_storage_ready s.

Lemma same_transfer_refl s : same_transfer s s.
Proof. done. Qed.

Lemma same_transfer_trans s1 s2 s3 : same_transfer s1 s2 -> same_transfer s2 s3 -> same_transfer s1 s3.
Proof. unfold same_transfer. intros (?&?&?&?&?&?) (?&?&?&?&?&?). repeat split; congruence. Qed.

(** One call whose footprint the stored facts survive. *)
Lemma triple_keep {A B} (N0 F0 N F : Z -> Prop) (Phi : hw -> Prop) (m : M HW A) (k : A -> M HW B)
    (Q : A -> World HW -> Prop) (R : B -> World HW -> Prop) :
  triple N0 F0 (fun _ => True) m Q -> (forall a, N0 a -> N a) -> (forall a, F0 a -> F a) ->
  stable N F Phi ->
  (forall a, triple N F (fun w => Q a w /\ Phi (w_hw w)) (k a) R) ->
  triple N F (fun w => Phi (w_hw w)) (x <- m ;; k x) R.
Proof.
  intros Hm HN HF HPhi Hk. apply (triple_bind _ _ _ _ (fun a w => Q a w /\ Phi (w_hw w))); [|exact Hk].
  apply (triple_pre _ _ (fun w => True /\ Phi (w_hw w))); [|by intros w H].
  apply triple_stable; [exact HPhi|]. apply (triple_conseq N0 N F0 F (fun _ => True) _ m Q Q); auto.
Qed.

Lemma triple_NackSpi N F P request status response s :
  triple N F P (NackSpiStatus request status response s)
    (fun x w => P w /\ exists st, x = Nack request status (spi_status_word st) response s).
Proof.
  intros w HP. unfold NackSpiStatus, SpiFlash_GetLastStatus.
  apply wp_bind, wp_bind, wp_get_ram, wp_ret, wp_ret. split; [apply frame_refl|]. split; [exact HP|].
  by eexists.
Qed.

Lemma spi_status_range st : is_u32 (spi_status_word st).
Proof. destruct st; by vm_compute. Qed.

Lemma checkpoint_detail_range st : is_u32 (CheckpointErrorDetail st).
Proof. destruct st; by vm_compute. Qed.

(** What a DATA packet leaves behind. *)
Definition data_post (request : OtaPacket_t) s (data : list Z)
    (x : OtaReceiverSession_t * OtaPacket_t) w : Prop :=
  answers request x /\ same_transfer s (fst x) /\ exists data', transfer (w_hw w) (fst x) data' /\
    (data' = data \/ (data' = data ++ packet_payload request /\ op_offset request = len data)) /\
    (op_command (snd x) = OTA_CMD_ACK ->
       slice (op_offset request) (op_payload_length request) data' = packet_payload request).

Lemma data_nack request status detail response s0 s data w :
  packet_typed request -> packet_typed response -> session_typed s -> is_u32 detail ->
  is_byte status -> status <> OTA_STATUS_OK -> same_transfer s0 s -> transfer (w_hw w) s data ->
  data_post request s0 data (Nack request status detail response s) w.
Proof.
  intros Hq Hr Hs Hd Hst Hne Hsame Ht. split; [by apply Nack_answers|]. split; [exact Hsame|].
  exists data. split; [|split; [by left|]].
  - by eapply transfer_same; [..|exact Ht].
  - unfold Nack, OtaResponse_BuildNack, BuildStatus. cbn [snd op_set_body op_command InitResponse].
    rewrite (proj2 (Z.eqb_neq _ _)) by exact Hne. discriminate.
Qed.

(** What [ReceivePayload] leaves behind. *)
Definition receive_post (request : OtaPacket_t) s (data : list Z)
    (x : OtaReceiverSession_t * OtaPacket_t + OtaReceiverSession_t) w : Prop :=
  match x with
  | inl x => data_post request s data x w
  | inr s' => session_typed s' /\ same_transfer s s' /\
      exists data', transfer (w_hw w) s' data' /\
        (data' = data \/ (data' = data ++ packet_payload request /\ op_offset request = len data)) /\
        slice (op_offset request) (op_payload_length request) data' = packet_payload request
  end.

Lemma triple_PersistAndAnswer request response s0 s data0 data :
  packet_typed request -> packet_typed response -> session_typed s -> same_transfer s0 s ->
  (data = data0 \/ (data = data0 ++ packet_payload request /\ op_offset request = len data0)) ->
  slice (op_offset request) (op_payload_length request) data = packet_payload request ->
  triple in_ext_metadata nowhere (fun w => transfer (w_hw w) s data)
    (PersistAndAnswer request response s) (data_post request s0 data0).
Proof.
  intros Hq Hr Hs Hsame Hdata Hslice.
  assert (Hst : stable in_ext_metadata nowhere (fun h => transfer h s data)).
  { intros h h' Hf. apply (transfer_frame nowhere). eapply frame_mono; [|done|exact Hf]. by left. }
  apply (triple_keep in_ext_metadata nowhere _ _ (fun h => transfer h s data) _ _ _ _
    (triple_PersistBoundary s Hs)); [done|done|exact Hst|].
  intros [s1 st]. apply (triple_pure _ _ _ (session_typed s1 /\
    s1 = se_set_persisted_offset (se_persisted_offset s1) s)); [by intros w [H _]|]. intros [Hs1 Heq].
  assert (Ht : forall h, transfer h s data -> transfer h s1 data).
  { intros h. rewrite Heq. by apply transfer_same. }
  assert (Hsame1 : same_transfer s0 s1) by (rewrite Heq; exact Hsame).
  apply triple_if; intros _; apply triple_ret; intros w [_ Hw]; apply Ht in Hw.
  - destruct (data_nack request OTA_STATUS_STORAGE_ERROR (CheckpointErrorDetail st) response s0 s1 data w)
      as (H1 & H2 & data' & H3 & H4 & H5); [done|done|done|apply checkpoint_detail_range|done|done|done|done|].
    split; [exact H1|]. split; [exact H2|]. exists data. split; [|split; [exact Hdata|]].
    + by eapply transfer_same; [..|exact Hw].
    + intros _. exact Hslice.
  - split; [by apply Ack_answers|]. split; [exact Hsame1|]. exists data.
    split; [by eapply transfer_same; [..|exact Hw]|]. split; [exact Hdata|]. intros _. exact Hslice.
Qed.

Lemma triple_StoredDataMatches request :
  packet_wf request ->
  triple nowhere nowhere (fun _ => True) (StoredDataMatches request)
    (fun ok w => ok = true ->
       nor_slice (w_hw w) (EXT_INCOMING_ADDRESS + op_offset request) (op_payload_length request) =
         packet_payload request).
Proof.
  intros [Hp _ _ _]. unfold StoredDataMatches. rewrite <- part_base_incoming.
  triple_step (triple_Storage_Read EXTERNAL_FLASH_PARTITION_INCOMING (op_offset request)
    (op_payload_length request)); [apply (pt_offset _ Hp)|apply (pt_payload_length _ Hp)|done|].
  intros bs. apply triple_ret. intros w Hbs. destruct bs as [bs|]; [|discriminate].
  intros H. apply bool_decide_eq_true in H. destruct (Hbs bs eq_refl) as [_ <-]. exact H.
Qed.

(** The last packet again: it goes on exactly when its bytes are stored. *)
Lemma triple_duplicate request response s data :
  packet_wf request -> packet_typed response -> session_typed s ->
  op_offset request + op_payload_length request = len data ->
  triple nowhere nowhere (fun w => transfer (w_hw w) s data)
    (matches <- StoredDataMatches request ;;
     if (matches : bool) then ret (inr s)
     else ret (inl (Nack request OTA_STATUS_WRONG_OFFSET (op_offset request) response s)))
    (receive_post request s data).
Proof.
  intros Hq Hr Hs Hlast. pose proof (pw_typed _ Hq) as Hqt.
  pose proof (pt_offset _ Hqt) as Hoff. pose proof (pt_payload_length _ Hqt) as Hpl.
  unfold is_u32, is_u16 in Hoff, Hpl.
  apply (triple_keep nowhere nowhere _ _ (fun h => transfer h s data) _ _ _ _
    (triple_StoredDataMatches request Hq)); [done|done| |].
  { intros h h' Hf. apply (transfer_frame nowhere). by eapply frame_mono; [| |exact Hf]. }
  intros matches. apply triple_if; intros Em; apply triple_ret; intros w [Hm Ht].
  - specialize (Hm Em). split; [exact Hs|]. split; [apply same_transfer_refl|].
    exists data. split; [exact Ht|]. split; [by left|].
    rewrite <- (tr_stored _ _ _ Ht), slice_nor_slice by lia. exact Hm.
  - apply data_nack; try done; by apply pt_offset.
Qed.

Lemma packet_payload_len request :
  packet_wf request -> len (packet_payload request) = op_payload_length request.
Proof. intros [Hp _ _ Hl]. by apply packet_payload_length. Qed.

(** Writing the payload behind the received bytes. *)
Lemma triple_store_payload request offset :
  packet_wf request -> op_offset request = offset ->
  triple (incoming_from offset) nowhere (fun _ => True)
    (andM
      (ExternalFlashStorage_Write EXTERNAL_FLASH_PARTITION_INCOMING offset
         (Some (packet_payload request)) (op_payload_length request))
      (ExternalFlashStorage_Verify EXTERNAL_FLASH_PARTITION_INCOMING offset
         (Some (packet_payload request)) (op_payload_length request)))
    (fun ok w => ok = true ->
       nor_slice (w_hw w) (EXT_INCOMING_ADDRESS + offset) (op_payload_length request) =
         packet_payload request).
Proof.
  intros Hq <-. pose proof (packet_payload_len _ Hq) as Hlen. pose proof (pw_typed _ Hq) as Hqt.
  pose proof (pt_offset _ Hqt) as Hoff. pose proof (pt_payload_length _ Hqt) as Hpl.
  unfold is_u32, is_u16 in Hoff, Hpl. unfold andM.
  triple_wide (triple_Storage_Write EXTERNAL_FLASH_PARTITION_INCOMING (op_offset request)
    (packet_payload request) (op_payload_length request)); [lia|done| |done|done|].
  { cbv beta. unfold in_partition, incoming_from. rewrite part_base_incoming, part_size_incoming.
    intros a Ha. lia. }
  intros ok. apply triple_if; intros Eok; [|by apply triple_ret].
  eapply triple_conseq; [apply (triple_Storage_Verify EXTERNAL_FLASH_PARTITION_INCOMING
    (op_offset request) (packet_payload request) (op_payload_length request)); lia|done|done|done|].
  intros ok' w H Ht. destruct (H Ht) as [_ Hs]. rewrite part_base_incoming in Hs. rewrite Hs.
  apply take_ge. lia.
Qed.

Lemma transfer_advance h request s s1 data :
  packet_wf request -> transfer h s data -> same_but_bitmap s s1 ->
  op_offset request = len data -> len data + op_payload_length request <= se_expected_size s ->
  (forall k, 0 <= k < 32 -> k * EXT_FLASH_SECTOR_SIZE < len data + op_payload_length request ->
     Z.testbit (se_erased_sector_bitmap s1) k = true) ->
  nor_slice h (EXT_INCOMING_ADDRESS + len data) (op_payload_length request) = packet_payload request ->
  transfer h (Advance request s1) (data ++ packet_payload request).
Proof.
  intros Hq [H1 H2 H3 H4 H5] (Heq & _ & _) Hoff Hfit Hbits Hst.
  pose proof (packet_payload_len _ Hq) as Hlen. pose proof (pt_payload_length _ (pw_typed _ Hq)) as Hpl.
  unfold is_u16 in Hpl.
  assert (Hl : len (data ++ packet_payload request) = len data + op_payload_length request).
  { rewrite length_app. lia. }
  assert (E : se_next_offset s1 = len data /\ se_expected_size s1 = se_expected_size s)
    by (rewrite Heq; by split).
  destruct E as [E1 E2]. rewrite Heq in E2.
  split; rewrite ?Hl.
  - rewrite nor_slice_app by lia. by rewrite H1, Hst.
  - cbn. rewrite E1. apply u32_small. unfold is_u32. map_lia.
  - cbn. rewrite Heq. cbn. lia.
  - intros _. exact Hbits.
  - intros _. cbn. lia.
Qed.

Lemma Advance_typed request s :
  packet_typed request -> session_typed s -> session_typed (Advance request s).
Proof. intros [] []. typed_solve. Qed.

Lemma same_but_bitmap_typed s s' : session_typed s -> same_but_bitmap s s' -> session_typed s'.
Proof. intros [] (Heq & Hr & _). rewrite Heq. typed_solve. Qed.

Lemma same_but_bitmap_transfer s s' h data :
  same_but_bitmap s s' -> transfer h s data -> transfer h s' data.
Proof.
  intros (Heq & _ & Hm) [H1 H2 H3 H4 H5]. split; [exact H1|..].
  - by rewrite Heq.
  - by rewrite Heq.
  - rewrite Heq at 1. intros Hst k Hk Hlt. by apply Hm, H4.
  - by rewrite Heq.
Qed.

Lemma same_but_bitmap_same s s' : same_but_bitmap s s' -> same_transfer s s'.
Proof. intros (Heq & _). rewrite Heq. done. Qed.

(** The next packet. *)
Lemma triple_next_data request response s data :
  packet_wf request -> packet_typed response -> session_typed s ->
  se_state s = state_word UPDATE_RECEIVING ->
  op_offset request = len data -> 0 < op_payload_length request ->
  len data + op_payload_length request <= se_expected_size s ->
  triple (incoming_from (len data)) nowhere (fun w => transfer (w_hw w) s data)
    (r <- EnsureIncomingSectorsErased (op_offset request) (op_payload_length request) s ;;
     let '(s, erased) := r in
     if negb erased then x <- NackSpiStatus request OTA_STATUS_STORAGE_ERROR response s ;; ret (inl x) else
     stored <- andM
       (ExternalFlashStorage_Write EXTERNAL_FLASH_PARTITION_INCOMING (op_offset request)
          (Some (packet_payload request)) (op_payload_length request))
       (ExternalFlashStorage_Verify EXTERNAL_FLASH_PARTITION_INCOMING (op_offset request)
          (Some (packet_payload request)) (op_payload_length request)) ;;
     if negb stored then x <- NackSpiStatus request OTA_STATUS_STORAGE_ERROR response s ;; ret (inl x) else
     ret (inr (Advance request s)))
    (receive_post request s data).
Proof.
  intros Hq Hr Hs Hrec Hoff Hpos Hfit w Hw. pose proof Hw as [_ _ Hsize Hbits _]. specialize (Hbits Hrec).
  pose proof (pw_typed _ Hq) as Hqt. revert w Hw. rewrite Hoff.
  assert (Hst : forall s', stable (incoming_from (len data)) nowhere (fun h => transfer h s' data)).
  { intros s' h h' Hf. apply (transfer_frame nowhere). eapply frame_mono; [|done|exact Hf]. by right. }
  apply (triple_keep (incoming_from (len data)) nowhere _ _ (fun h => transfer h s data) _ _ _ _
    (triple_EnsureErased (len data) (op_payload_length request) s Hs Hpos ltac:(lia) ltac:(lia) Hbits));
    [done|done|apply Hst|].
  intros [s1 erased]. apply (triple_pure _ _ _ (same_but_bitmap s s1)); [by intros w [[H _] _]|].
  intros Hsame. pose proof (same_but_bitmap_typed _ _ Hs Hsame) as Hs1.
  assert (Hnack : forall N F (P : World HW -> Prop), (forall w, P w -> transfer (w_hw w) s data) ->
    triple N F P (x <- NackSpiStatus request OTA_STATUS_STORAGE_ERROR response s1 ;; ret (inl x))
      (receive_post request s data)).
  { intros N F P HP. eapply triple_bind; [apply triple_NackSpi|]. intros x. apply triple_ret.
    intros w [Hx [st ->]].
    apply data_nack; try done; [apply spi_status_range|by apply same_but_bitmap_same|].
    by apply (same_but_bitmap_transfer s), HP. }
  apply triple_if; intros Ee; [apply Hnack; by intros w [_ H]|].
  apply negb_false_iff in Ee. subst erased.
  apply (triple_pure _ _ _ (forall k, 0 <= k < 32 ->
    k * EXT_FLASH_SECTOR_SIZE < len data + op_payload_length request ->
    Z.testbit (se_erased_sector_bitmap s1) k = true)); [by intros w [[_ H] _]; apply H|]. intros Hbits1.
  apply (triple_pre _ _ (fun w => transfer (w_hw w) s data)); [|by intros w [_ H]].
  apply (triple_keep (incoming_from (len data)) nowhere _ _ (fun h => transfer h s data) _ _ _ _
    (triple_store_payload request (len data) Hq Hoff)); [done|done|apply Hst|].
  intros stored. apply triple_if; intros Est; [apply Hnack; by intros w [_ H]|].
  apply negb_false_iff in Est. subst stored.
  apply triple_ret. intros w [Hx Ht]. split; [by apply Advance_typed|].
  split; [exact (same_but_bitmap_same _ _ Hsame)|]. exists (data ++ packet_payload request).
  split; [by apply (transfer_advance _ request s s1); [| | | | | |apply Hx]|]. split; [by right|].
  rewrite Hoff, (slice_app_r data) by done. apply take_ge. pose proof (packet_payload_len _ Hq). lia.
Qed.

End reception.
