(* ===== verification/Download.v ===== *)
(** * Download: every packet of the protocol keeps the transfer sound

    The handlers of [OtaReceiver] one by one, then [ProcessPacket]: the session
    stays well typed, the acknowledged bytes stay in flash, nothing outside the
    external metadata, the Incoming partition and the boot metadata pages is
    ever written, and every request is answered. *)

From S2P Require Import Prelude Bytes MemoryMap Crc32 AbRecord BootMetadata.
From S2P Require Import DownloadCheckpoint.
From S2P Require Import Device Logic SpiFlash ExternalFlashStorage AbStorage SectorRecords.
From S2P Require Import MetadataStorage TrialBoot Recovery FirmwareContainer Chunks.
From S2P Require Import TrialConfirmation.
From S2P Require Import Buffer OtaPacket OtaResponse OtaReceiver Reception.

Section download.
Context {HW : Hw}.
Implicit Types w : World HW.
Implicit Types s : OtaReceiverSession_t.

(** Everything a packet may write. *)
Definition packet_nor (a : Z) : Prop := download_area 0 a.

(** The state after a packet: [data] is what was acknowledged before. *)
Definition packet_post (request : OtaPacket_t) (data : list Z)
    (x : OtaReceiverSession_t * OtaPacket_t) w : Prop :=
  answers request x /\ exists data', receiver_inv (w_hw w) (fst x) data' /\
    (data' = data \/ data' = [] \/ data' = data ++ packet_payload request).

Lemma inactive_inv h s data : session_typed s -> ~ active s -> receiver_inv h s data.
Proof. intros Hs Hn. split; [exact Hs|]. intros Ha. by destruct Hn. Qed.

Lemma inv_frame F h h' s data :
  frame (download_area (len data)) F h h' -> receiver_inv h s data -> receiver_inv h' s data.
Proof. intros Hf [Hs Ht]. split; [exact Hs|]. intros Ha. by eapply transfer_frame, Ht. Qed.

Lemma SetSessionStatus_inv h status detail s data :
  is_u32 detail -> receiver_inv h s data -> receiver_inv h (SetSessionStatus status detail s) data.
Proof.
  intros Hd [Hs Ht]. split; [by apply SetSessionStatus_typed|].
  intros Ha. by eapply transfer_same; [..|apply Ht].
Qed.

(** An answer that only sets the status. *)
Lemma nack_post request status detail response s data w :
  packet_typed request -> packet_typed response -> is_u32 detail -> is_byte status ->
  receiver_inv (w_hw w) s data ->
  packet_post request data (Nack request status detail response s) w.
Proof.
  intros Hq Hr Hd Hst Hi. split; [apply Nack_answers; try done; by apply Hi|].
  exists data. split; [by apply SetSessionStatus_inv|by left].
Qed.

Lemma ack_post request response s data w :
  packet_typed request -> packet_typed response -> receiver_inv (w_hw w) s data ->
  packet_post request data (Ack request response s) w.
Proof.
  intros Hq Hr Hi. split; [apply Ack_answers; try done; by apply Hi|].
  exists data. split; [apply SetSessionStatus_inv; [by vm_compute|done]|by left].
Qed.

Lemma triple_nack N F request status detail response s data :
  packet_typed request -> packet_typed response -> is_u32 detail -> is_byte status ->
  triple N F (fun w => receiver_inv (w_hw w) s data)
    (ret (Nack request status detail response s)) (packet_post request data).
Proof. intros. apply triple_ret. intros w Hi. by apply nack_post. Qed.

Lemma triple_ack N F request response s data :
  packet_typed request -> packet_typed response ->
  triple N F (fun w => receiver_inv (w_hw w) s data)
    (ret (Ack request response s)) (packet_post request data).
Proof. intros. apply triple_ret. intros w Hi. by apply ack_post. Qed.

Lemma triple_nack_spi N F request status response s data :
  packet_typed request -> packet_typed response -> is_byte status ->
  triple N F (fun w => receiver_inv (w_hw w) s data)
    (NackSpiStatus request status response s) (packet_post request data).
Proof.
  intros. eapply triple_post; [apply triple_NackSpi|]. intros x w [Hi [st ->]].
  apply nack_post; try done. apply spi_status_range.
Qed.

(** Widening a handler's footprint to that of any packet. *)
Lemma triple_packet {A} (N F : Z -> Prop) P (m : M HW A) Q :
  triple N F P m Q -> (forall a, N a -> packet_nor a) -> (forall a, F a -> in_boot_metadata a) ->
  triple packet_nor in_boot_metadata P m Q.
Proof. intros H HN HF. eapply triple_conseq; [exact H|exact HN|exact HF|auto|auto]. Qed.

Lemma download_area_packet n a : 0 <= n -> download_area n a -> packet_nor a.
Proof. intros Hn [H|H]; [by left|right]. unfold incoming_from in *. lia. Qed.

(** ** START *)

Lemma BeginTransfer_typed request s :
  packet_typed request -> session_typed s -> session_typed (BeginTransfer request s).
Proof.
  intros Hq []. pose proof Hq as [].
  assert (Hd : forall k, bytes_ok (drop k (op_payload request))) by (intros; by apply Forall_drop).
  split; cbn; first [assumption | by apply GetU32Le_range | by apply byte_at_ok | by vm_compute].
Qed.

(** The transfer START begins is empty. *)
Lemma begin_transfer h request s s1 :
  s1 = se_set_persisted_offset (se_persisted_offset s1) (BeginTransfer request s) ->
  0 <= GetU32Le (drop 12 (op_payload request)) <= EXT_INCOMING_SIZE ->
  transfer h (SetSessionStatus OTA_STATUS_OK 0 s1) [].
Proof.
  intros Heq Hsize. split; try done; rewrite Heq; cbn.
  - lia.
  - lia.
  - intros _ k Hk Hlt. unfold EXT_FLASH_SECTOR_SIZE in Hlt. lia.
  - lia.
Qed.

Lemma triple_ProcessStart request response s data :
  packet_wf request -> packet_typed response ->
  triple packet_nor in_boot_metadata (fun w => receiver_inv (w_hw w) s data)
    (ProcessStart request response s) (packet_post request data).
Proof.
  intros Hq Hr. pose proof (pw_typed _ Hq) as Hqt. pose proof Hqt as [].
  assert (Hd : forall k, bytes_ok (drop k (op_payload request))) by (intros; by apply Forall_drop).
  pose proof (GetU32Le_range _ (Hd 4%nat)). pose proof (GetU32Le_range _ (Hd 12%nat)) as Hsize.
  pose proof (GetU32Le_range _ (Hd 20%nat)). pose proof (GetU16Le_range _ (Hd 2%nat)) as Hv.
  pose proof (byte_at_ok (op_payload request) 0 ltac:(assumption)) as Ht.
  assert (Hv' : is_u32 (GetU16Le (drop 2 (op_payload request)))) by (unfold is_u16, is_u32 in *; lia).
  assert (Ht' : is_u32 (byte_at (op_payload request) 0)) by (unfold is_byte, is_u32 in *; lia).
  apply (triple_pure _ _ _ (session_typed s)); [by intros w []|]. intros Hs.
  unfold ProcessStart. cbv zeta.
  repeat (apply triple_if; intros ?; [first [by apply triple_nack_spi | by apply triple_nack]|]).
  to_prop. pose proof (BeginTransfer_typed request s Hqt Hs) as Hb.
  apply (triple_pre _ _ (fun _ => True)); [|done].
  eapply triple_bind; [apply (triple_packet in_ext_metadata nowhere);
    [by apply triple_Persist|by left|done]|].
  intros [s1 st]. apply (triple_pure _ _ _ (session_typed s1 /\
    s1 = se_set_persisted_offset (se_persisted_offset s1) (BeginTransfer request s)));
    [by intros w (? & ? & _)|]. intros [Hs1 Heq].
  apply triple_if; intros _; apply triple_ret; intros w _.
  - pose proof (ResetTransfer_typed s1 Hs1) as Hs2.
    split; [by apply Nack_answers; [| | |apply checkpoint_detail_range|]|].
    exists []. split; [|by right; left]. apply inactive_inv.
    + by apply SetSessionStatus_typed; [apply checkpoint_detail_range|].
    + by intros [Ha|Ha].
  - split; [by apply Ack_answers|]. exists []. split; [|by right; left].
    split; [by apply SetSessionStatus_typed; [by vm_compute|]|]. intros _.
    eapply begin_transfer; [exact Heq|unfold is_u32 in Hsize; lia].
Qed.

(** ** DATA *)

(** Up to the checkpoint: the metadata sectors are not touched. *)
Lemma triple_ReceivePayload request response s data :
  packet_wf request -> packet_typed response -> session_typed s ->
  se_state s = state_word UPDATE_RECEIVING ->
  triple (incoming_from (len data)) nowhere (fun w => transfer (w_hw w) s data)
    (ReceivePayload request response s) (receive_post request s data).
Proof.
  intros Hq Hr Hs Hst. pose proof (pw_typed _ Hq) as Hqt. pose proof Hqt as []. pose proof Hs as [].
  assert (Hnack : forall N F status detail, is_u32 detail -> is_byte status -> status <> OTA_STATUS_OK ->
    triple N F (fun w => transfer (w_hw w) s data) (ret (inl (Nack request status detail response s)))
      (receive_post request s data)).
  { intros. apply triple_ret. intros w Ht. by apply data_nack. }
  apply (triple_pure _ _ _ (se_next_offset s = len data /\ len data <= se_expected_size s <= EXT_INCOMING_SIZE /\
    (se_has_last_data s <> 0 -> se_last_data_offset s + se_last_data_length s = len data)));
    [by intros w []|]. intros (Hnext & Hsize & Hlast).
  unfold ReceivePayload. cbv zeta.
  do 3 (apply triple_if; intros ?;
    [apply Hnack; [first [assumption | by apply u16_u32 | split; vm_compute; congruence]|done|done]|]).
  apply triple_if; intros E; to_prop.
  { apply (triple_conseq nowhere (incoming_from (len data)) nowhere nowhere
      (fun w => transfer (w_hw w) s data) _ _ (receive_post request s data) _); [|done|done|auto|auto].
    apply triple_duplicate; try done.
    match goal with H : op_offset _ = _ |- _ => rewrite H end.
    match goal with H : op_payload_length _ = se_last_data_length _ |- _ => rewrite H end. by apply Hlast. }
  do 3 (apply triple_if; intros ?;
    [apply Hnack; [first [assumption | by apply u16_u32 | split; vm_compute; congruence]|done|done]|]).
  to_prop. rewrite u32_small in * by (unfold is_u32 in *; map_lia).
  apply triple_next_data; try done; unfold is_u16 in *; lia.
Qed.

(** In RECEIVING, with the precise postcondition. *)
Lemma triple_ProcessData_receiving request response s data :
  packet_wf request -> packet_typed response -> session_typed s ->
  se_state s = state_word UPDATE_RECEIVING ->
  triple (download_area (len data)) nowhere (fun w => transfer (w_hw w) s data)
    (ProcessData request response s) (data_post request s data).
Proof.
  intros Hq Hr Hs Hst. pose proof (pw_typed _ Hq) as Hqt. unfold ProcessData.
  eapply triple_bind.
  { eapply (triple_conseq (incoming_from (len data)) _ nowhere); [by apply triple_ReceivePayload
      |by right|done|auto|intros x w H; exact H]. }
  intros [x|s1]; [apply triple_ret; by intros w H|].
  intros w (Hs1 & Hsame & data' & Ht & Hd & Hsl). revert w Ht.
  apply (triple_conseq in_ext_metadata (download_area (len data)) nowhere nowhere
    (fun w => transfer (w_hw w) s1 data') _ _ (data_post request s data) _); [|by left|done|auto|auto].
  by apply triple_PersistAndAnswer.
Qed.

Lemma triple_ProcessData request response s data :
  packet_wf request -> packet_typed response ->
  triple packet_nor in_boot_metadata (fun w => receiver_inv (w_hw w) s data)
    (ProcessData request response s) (packet_post request data).
Proof.
  intros Hq Hr. apply (triple_pure _ _ _ (session_typed s)); [by intros w []|]. intros Hs.
  destruct (decide (se_state s = state_word UPDATE_RECEIVING)) as [Hst|Hst].
  - eapply (triple_conseq (download_area (len data)) _ nowhere _ (fun w => transfer (w_hw w) s data));
      [by apply triple_ProcessData_receiving|intros a; apply download_area_packet; lia|done| |].
    + intros w [_ Ht]. apply Ht. by left.
    + intros [s' r] w (Ha & Hsame & data' & Ht & Hd & _). split; [exact Ha|]. exists data'.
      split; [split; [apply Ha|by intros _]|]. destruct Hd as [->|[-> _]]; auto.
  - unfold ProcessData, ReceivePayload. rewrite (proj2 (Z.eqb_neq _ _)) by exact Hst. cbn [negb].
    eapply triple_bind; [apply (triple_ret _ _ _ _ (fun x w => receiver_inv (w_hw w) s data /\
      x = inl (Nack request OTA_STATUS_INVALID_STATE 0 response s))); auto|].
    intros x. apply (triple_pure _ _ _ (x = inl (Nack request OTA_STATUS_INVALID_STATE 0 response s)));
      [by intros w []|]. intros ->. apply triple_ret. intros w [Hi _]. by apply nack_post; [apply Hq| | | |].
Qed.

(** ** FINISH *)

Lemma triple_IncomingCrc n data :
  is_u32 n -> n = len data ->
  triple nowhere nowhere (fun w => nor_slice (w_hw w) EXT_INCOMING_ADDRESS n = data)
    (CalculateIncomingCrc n) (fun r w => forall crc, r = Some crc -> crc = crc_of data).
Proof.
  intros Hu Hn. unfold CalculateIncomingCrc.
  triple_step (triple_ReadChunks 256 (ExternalFlashStorage_Read EXTERNAL_FLASH_PARTITION_INCOMING) n data
    crc_step CRC32_IEEE_INITIAL_VALUE
    (fun w => nor_slice (w_hw w) EXT_INCOMING_ADDRESS n = data)); [done|done|done| |done|].
  - intros off m Ho Hm Hfit.
    apply (triple_pre _ _ (fun w => True /\ nor_slice (w_hw w) EXT_INCOMING_ADDRESS n = data)); [|done].
    eapply triple_post; [apply (triple_stable _ _ (fun h => nor_slice h EXT_INCOMING_ADDRESS n = data));
      [apply (nor_slice_stable nowhere nowhere EXT_INCOMING_ADDRESS n (fun l => l = data)); by intros ? ? []
      |by apply triple_Storage_Read]|].
    intros r w [Hr Hdata]. split; [exact Hdata|]. intros bs Hb. destruct (Hr bs Hb) as [_ ->].
    rewrite <- Hdata, slice_nor_slice by lia. reflexivity.
  - intros r. apply triple_ret. intros w [_ Hr] crc Hc.
    destruct r as [running|]; [|discriminate]. injection Hc as <-.
    destruct (Hr running eq_refl) as (pieces & <- & ->). apply crc_step_pieces.
Qed.

(** What FINISH leaves behind; ACK in RECEIVING means the CRC was right. *)
Definition finish_post (request : OtaPacket_t) s (data : list Z)
    (x : OtaReceiverSession_t * OtaPacket_t) w : Prop :=
  answers request x /\ receiver_inv (w_hw w) (fst x) data /\
  (se_state s = state_word UPDATE_RECEIVING -> op_command (snd x) = OTA_CMD_ACK ->
     se_state (fst x) = state_word UPDATE_ARTIFACT_READY /\ same_transfer (se_set_state
       (state_word UPDATE_ARTIFACT_READY) s) (fst x) /\
     len data = se_expected_size s /\ crc_of data = se_artifact_crc32 s /\
     exists r, current_checkpoint (w_hw w) = Some r /\
       checkpoint_of DOWNLOAD_CHECKPOINT_ARTIFACT_READY (se_expected_size s) s r).

Lemma finish_nack request status detail response s0 s data w :
  packet_typed request -> packet_typed response -> is_u32 detail -> is_byte status ->
  status <> OTA_STATUS_OK -> receiver_inv (w_hw w) s data ->
  finish_post request s0 data (Nack request status detail response s) w.
Proof.
  intros Hq Hr Hd Hst Hne Hi. split; [apply Nack_answers; try done; by apply Hi|].
  split; [by apply SetSessionStatus_inv|]. intros _.
  unfold Nack, OtaResponse_BuildNack, BuildStatus. cbn [snd op_set_body op_command InitResponse].
  rewrite (proj2 (Z.eqb_neq _ _)) by exact Hne. discriminate.
Qed.

Lemma receiver_inv_persisted h s s' data :
  session_typed s' -> s' = se_set_persisted_offset (se_persisted_offset s') s ->
  receiver_inv h s data -> receiver_inv h s' data.
Proof.
  intros Hs' Heq [Hs Ht]. split; [exact Hs'|]. rewrite Heq. intros Ha.
  by eapply transfer_same; [..|apply Ht].
Qed.

Lemma inv_stable n s data :
  stable in_ext_metadata n (fun h => receiver_inv h s data).
Proof. intros h h' Hf. apply (inv_frame n). eapply frame_mono; [|done|exact Hf]. by left. Qed.

Lemma finish_ack request response s0 s data w :
  packet_typed request -> packet_typed response -> receiver_inv (w_hw w) s data ->
  se_state s0 <> state_word UPDATE_RECEIVING ->
  finish_post request s0 data (Ack request response s) w.
Proof.
  intros Hq Hr Hi Hne. split; [apply Ack_answers; try done; by apply Hi|].
  split; [apply SetSessionStatus_inv; [by vm_compute|done]|done].
Qed.

Lemma set_state_inv h v s data :
  is_byte v -> v <> state_word UPDATE_RECEIVING -> v <> state_word UPDATE_ARTIFACT_READY \/ active s ->
  receiver_inv h s data -> receiver_inv h (se_set_state v s) data.
Proof.
  intros Hv Hr Ha [Hs Ht]. split; [destruct Hs; typed_solve|].
  intros [H|H]; [by destruct (Hr H)|]. destruct Ha as [Ha|Ha]; [by destruct (Ha H)|].
  by eapply transfer_same; [intros H'; by destruct (Hr H')|..|apply Ht].
Qed.

Lemma triple_ProcessFinish_spec request response s data :
  packet_wf request -> packet_typed response ->
  triple in_ext_metadata nowhere (fun w => receiver_inv (w_hw w) s data)
    (ProcessFinish request response s) (finish_post request s data).
Proof.
  intros Hq Hr. pose proof (pw_typed _ Hq) as Hqt.
  apply (triple_pure _ _ _ (session_typed s)); [by intros w []|]. intros Hs. pose proof Hs as [].
  assert (Hnack : forall N F status detail s1, is_u32 detail -> is_byte status -> status <> OTA_STATUS_OK ->
    triple N F (fun w => receiver_inv (w_hw w) s1 data) (ret (Nack request status detail response s1))
      (finish_post request s data)).
  { intros. apply triple_ret. intros w Hi. by apply finish_nack. }
  unfold ProcessFinish. cbv zeta. apply triple_if; intros E0; [apply Hnack; by vm_compute|].
  apply triple_if; intros E1.
  { to_prop. apply triple_ret. intros w Hi. apply finish_ack; try done.
    match goal with H : se_state s = _ |- _ => rewrite H end. by vm_compute. }
  do 3 (apply triple_if; intros ?;
    [apply Hnack; [first [assumption | split; vm_compute; congruence]|done|done]|]).
  to_prop. clear E0 E1.
  match goal with H : se_state s = _ |- _ => rename H into Hstate end.
  match goal with H : se_next_offset s = se_expected_size s |- _ => rename H into Hnext end.
  assert (Hactive : active s) by (by left).
  apply (triple_pure _ _ _ (se_expected_size s = len data)).
  { intros w [_ Ht]. rewrite <- Hnext. by apply Ht. }
  intros Hlen.
  apply (triple_bind _ _ _ _ (fun r w => receiver_inv (w_hw w) s data /\
    forall crc, r = Some crc -> crc = crc_of data)).
  { apply (triple_conseq nowhere in_ext_metadata nowhere nowhere
      (fun w => nor_slice (w_hw w) EXT_INCOMING_ADDRESS (se_expected_size s) = data /\
         receiver_inv (w_hw w) s data) _ _
      (fun r w => (forall crc, r = Some crc -> crc = crc_of data) /\ receiver_inv (w_hw w) s data) _);
      [|done|done| |by intros r w []].
    - apply (triple_stable nowhere nowhere (fun h => receiver_inv h s data)
        (fun w => nor_slice (w_hw w) EXT_INCOMING_ADDRESS (se_expected_size s) = data) _
        (fun r w => forall crc, r = Some crc -> crc = crc_of data)); [|by apply triple_IncomingCrc].
      intros h h' Hf. apply (inv_frame nowhere). eapply frame_mono; [|done|exact Hf]. done.
    - intros w [Hst Ht]. split; [|by split]. rewrite Hlen. by apply Ht. }
  intros [crc|].
  2: { eapply triple_pre; [|intros w [H _]; exact H].
       eapply triple_post; [apply triple_NackSpi|]. intros x w [Hi [st ->]].
       apply finish_nack; try done. apply spi_status_range. }
  apply (triple_pure _ _ _ (crc = crc_of data)); [by intros w [_ H]; apply H|]. intros ->.
  apply (triple_pre _ _ (fun w => receiver_inv (w_hw w) s data)); [|by intros w [H _]].
  apply (triple_pure _ _ _ (is_u32 (crc_of data))).
  { intros w [_ Ht]. apply crc_of_range. destruct (Ht Hactive) as [<- _ _ _ _]. apply nor_slice_ok. }
  intros Hcrc. apply triple_if; intros E.
  { eapply triple_pre; [apply Hnack; try done|]. intros w Hi.
    apply set_state_inv; [done|done|by left|exact Hi]. }
  to_prop.
  apply (triple_keep in_ext_metadata nowhere _ _ (fun h => receiver_inv h s data) _ _ _ _
    (triple_Persist DOWNLOAD_CHECKPOINT_ARTIFACT_READY (se_expected_size s) s Hs ltac:(assumption)));
    [done|done|apply inv_stable|].
  intros [s1 st].
  apply (triple_pure _ _ _ (session_typed s1 /\ s1 = se_set_persisted_offset (se_persisted_offset s1) s));
    [by intros w ((?&?&_) & _)|]. intros [Hs1 Heq].
  apply triple_if; intros Est; apply triple_ret; intros w [(_ & _ & Hok) Hi];
    pose proof (receiver_inv_persisted _ _ _ _ Hs1 Heq Hi) as Hi1.
  - apply finish_nack; try done. apply checkpoint_detail_range.
  - apply bool_decide_eq_false, dec_stable in Est. destruct (Hok Est) as [_ Hcp].
    set (s2 := se_set_state (state_word UPDATE_ARTIFACT_READY) s1).
    assert (Hi2 : receiver_inv (w_hw w) s2 data).
    { unfold s2. split; [destruct Hs1; typed_solve|]. intros _.
      eapply transfer_same; [discriminate|..|apply (proj2 Hi1)]; try reflexivity. left. rewrite Heq. exact Hstate. }
    split; [apply Ack_answers; try done; by apply Hi2|].
    split; [apply SetSessionStatus_inv; [by vm_compute|exact Hi2]|].
    intros _ _. split; [reflexivity|]. split; [unfold s2; rewrite Heq; done|].
    split; [by symmetry|]. split; [assumption|exact Hcp].
Qed.

Lemma triple_ProcessFinish request response s data :
  packet_wf request -> packet_typed response ->
  triple packet_nor in_boot_metadata (fun w => receiver_inv (w_hw w) s data)
    (ProcessFinish request response s) (packet_post request data).
Proof.
  intros Hq Hr. apply (triple_packet in_ext_metadata nowhere); [|by left|done].
  eapply triple_post; [by apply triple_ProcessFinish_spec|].
  intros x w (Ha & Hi & _). split; [exact Ha|]. exists data. split; [exact Hi|by left].
Qed.

(** ** ABORT *)

Lemma triple_ProcessAbort request response s data :
  packet_wf request -> packet_typed response ->
  triple packet_nor in_boot_metadata (fun w => receiver_inv (w_hw w) s data)
    (ProcessAbort request response s) (packet_post request data).
Proof.
  intros Hq Hr. pose proof (pw_typed _ Hq) as Hqt.
  apply (triple_pure _ _ _ (session_typed s)); [by intros w []|]. intros Hs.
  apply (triple_packet in_ext_metadata nowhere); [|by left|done].
  unfold ProcessAbort. apply triple_if; intros _; [by apply triple_nack|].
  apply (triple_keep in_ext_metadata nowhere _ _ (fun h => receiver_inv h s data) _ _
    (fun x _ => session_typed (fst x) /\ fst x = se_set_persisted_offset (se_persisted_offset (fst x)) s) _);
    [|done|done|apply inv_stable|].
  - unfold ClearDownloadCheckpoint. triple_step triple_Clear; [done|]. intros st. apply triple_ret.
    intros w _. cbn [fst]. case_if; [|split; [exact Hs|by destruct s]].
    split; [destruct Hs; typed_solve|done].
  - intros [s1 st]. cbn [fst].
    apply (triple_pure _ _ _ (session_typed s1 /\ s1 = se_set_persisted_offset (se_persisted_offset s1) s));
      [by intros w [H _]|]. intros [Hs1 Heq].
    apply triple_if; intros _; apply triple_ret; intros w [_ Hi].
    + apply nack_post; try done; [apply checkpoint_detail_range|]. by eapply receiver_inv_persisted.
    + pose proof (ResetTransfer_typed s1 Hs1) as Hs2.
      apply ack_post; try done. apply inactive_inv; [exact Hs2|]. by intros [Ha|Ha].
Qed.

(** ** INSTALL *)

Lemma modifies_MetadataLoad N F : modifies N F MetadataStorage_Load.
Proof. unfold MetadataStorage_Load, MetadataStorage_CopyFromFlash. modifies_auto. Qed.

Lemma triple_PersistSecureInstallRequest s :
  triple nowhere in_boot_metadata (fun _ => True) (PersistSecureInstallRequest s)
    (fun r _ => forall detail, r = Some detail -> is_u32 detail).
Proof.
  unfold PersistSecureInstallRequest.
  eapply triple_bind; [apply modifies_triple, modifies_MetadataLoad|]. intros [[st m] slot].
  apply triple_if; intros _.
  { apply triple_ret. intros w _ d [= <-]. destruct st; by vm_compute. }
  eapply triple_bind; [apply modifies_triple, modifies_Commit|]. intros [[st' m'] slot'].
  apply triple_if; intros _; apply triple_ret; intros w _ d; [|discriminate].
  intros [= <-]. destruct st'; by vm_compute.
Qed.

(** The test of the first word. *)
Lemma triple_LooksSecure :
  triple nowhere nowhere (fun _ => True) IncomingLooksLikeSecureContainer
    (fun secure w => secure = true ->
       GetU32Le (nor_slice (w_hw w) EXT_INCOMING_ADDRESS 4) = FW_CONTAINER_MAGIC).
Proof.
  unfold IncomingLooksLikeSecureContainer.
  triple_step (triple_Storage_Read EXTERNAL_FLASH_PARTITION_INCOMING 0 4); [done|done|done|].
  intros bs. apply triple_ret. intros w Hb. destruct bs as [bs|]; [|discriminate].
  destruct (Hb bs eq_refl) as [_ ->]. rewrite part_base_incoming, Z.add_0_r. apply Z.eqb_eq.
Qed.

Lemma set_reset_inv h v s data :
  is_byte v -> receiver_inv h s data -> receiver_inv h (se_set_reset_pending v s) data.
Proof.
  intros Hv [Hs Ht]. split; [destruct Hs; typed_solve|]. intros Ha.
  by eapply transfer_same; [..|apply Ht].
Qed.

Lemma boot_stable s data :
  stable nowhere in_boot_metadata (fun h => receiver_inv h s data).
Proof. intros h h' Hf. apply (inv_frame in_boot_metadata). by eapply frame_mono; [| |exact Hf]. Qed.

(** An answer, with the reset flag raised after it was built. *)
Lemma reset_post request data x w :
  packet_post request data x w ->
  packet_post request data (se_set_reset_pending 1 (fst x), snd x) w.
Proof.
  destruct x as [s r]. intros [(Hs & Ha) (data' & Hi & Hd)]. cbn [fst snd] in *. split.
  - split; [destruct Hs; typed_solve|exact Ha].
  - exists data'. split; [by apply set_reset_inv|exact Hd].
Qed.

Lemma triple_ProcessInstall request response s data :
  packet_wf request -> packet_typed response ->
  triple packet_nor in_boot_metadata (fun w => receiver_inv (w_hw w) s data)
    (ProcessInstall request response s) (packet_post request data).
Proof.
  intros Hq Hr. pose proof (pw_typed _ Hq) as Hqt.
  apply (triple_packet nowhere in_boot_metadata); [|done|done].
  unfold ProcessInstall. cbv zeta.
  do 4 (apply triple_if; intros _; [by apply triple_nack|]).
  apply (triple_keep nowhere nowhere _ _ (fun h => receiver_inv h s data) _ _ _ _ triple_LooksSecure);
    [done|done|apply boot_stable|].
  intros secure. apply (triple_pre _ _ (fun w => receiver_inv (w_hw w) s data)); [|by intros w []].
  apply triple_if; intros _; [|by apply triple_nack].
  apply (triple_keep nowhere in_boot_metadata _ _ (fun h => receiver_inv h s data) _ _ _ _
    (triple_PersistSecureInstallRequest s)); [done|done|apply boot_stable|].
  intros [detail|]; apply triple_ret; intros w [Hd Hi].
  - apply nack_post; try done. by apply Hd.
  - apply (reset_post request data (Ack request response s)). by apply ack_post.
Qed.

(** ** CONFIRM *)

Lemma triple_ConfirmNow t :
  triple nowhere in_boot_metadata (fun _ => True) (TrialConfirmation_ConfirmNow t)
    (fun x _ => is_u32 (snd (fst x))).
Proof.
  unfold TrialConfirmation_ConfirmNow, LoadTrialMetadata.
  eapply triple_bind; [eapply triple_bind; [apply modifies_triple, modifies_MetadataLoad|]|].
  - intros [[st m] slot]. apply (triple_ret _ _ _ _ (fun _ _ => True)). done.
  - intros [found m]. apply triple_if; intros _; [by apply triple_ret|]. cbv zeta.
    eapply triple_bind; [apply modifies_triple, modifies_Commit|]. intros [[st' m'] slot'].
    apply triple_if; intros _; apply triple_ret; intros w _; cbn [fst snd]; [|by vm_compute].
    destruct st'; by vm_compute.
Qed.

(** A packet's answer next to the confirmation state. *)
Definition packet_post' (request : OtaPacket_t) (data : list Z)
    (x : TrialState * (OtaReceiverSession_t * OtaPacket_t)) w : Prop :=
  packet_post request data (snd x) w.

Lemma triple_ProcessConfirm request response t s data :
  packet_wf request -> packet_typed response ->
  triple packet_nor in_boot_metadata (fun w => receiver_inv (w_hw w) s data)
    (ProcessConfirm request response t s) (packet_post' request data).
Proof.
  intros Hq Hr. pose proof (pw_typed _ Hq) as Hqt.
  apply (triple_packet nowhere in_boot_metadata); [|done|done].
  unfold ProcessConfirm. cbv zeta.
  assert (Hnack : forall N F status detail, is_u32 detail -> is_byte status ->
    triple N F (fun w => receiver_inv (w_hw w) s data) (ret (t, Nack request status detail response s))
      (packet_post' request data)).
  { intros. apply triple_ret. intros w Hi. by apply nack_post. }
  do 3 (apply triple_if; intros _; [by apply Hnack|]).
  apply (triple_keep nowhere in_boot_metadata _ _ (fun h => receiver_inv h s data) _ _ _ _
    (triple_ConfirmNow t)); [done|done|apply boot_stable|].
  intros [[t' detail] confirmed]. apply triple_if; intros _; apply triple_ret; intros w [Hd Hi].
  - by apply nack_post.
  - apply (reset_post request data (Ack request response (se_set_state (state_word UPDATE_CONFIRMED) s))).
    apply ack_post; try done. apply inactive_inv.
    + destruct (proj1 Hi). typed_solve.
    + by intros [Ha|Ha].
Qed.

(** ** Any packet *)

Lemma triple_lift_trial (m : M HW (OtaReceiverSession_t * OtaPacket_t)) P request data (t : TrialState) :
  triple packet_nor in_boot_metadata P m (packet_post request data) ->
  triple packet_nor in_boot_metadata P (r <- m ;; ret (t, r)) (packet_post' request data).
Proof. intros H. eapply triple_bind; [exact H|]. intros r. by apply triple_ret. Qed.

Lemma triple_ProcessPacket request response t s data :
  packet_wf request -> packet_typed response ->
  triple packet_nor in_boot_metadata (fun w => receiver_inv (w_hw w) s data)
    (OtaReceiver_ProcessPacket request response t s) (packet_post' request data).
Proof.
  intros Hq Hr. pose proof (pw_typed _ Hq) as Hqt. unfold OtaReceiver_ProcessPacket. cbv zeta.
  assert (Hcmd : is_u32 (op_command request)).
  { pose proof (pt_command _ Hqt). unfold is_byte, is_u32 in *. lia. }
  apply triple_if; intros _.
  { apply triple_ret. intros w Hi. split; [apply Query_answers; try done; by apply Hi|].
    exists data. cbn [snd]. unfold ProcessQuery. split; [|by left].
    case_if; (apply SetSessionStatus_inv; [by vm_compute|exact Hi]). }
  apply triple_if; intros _; [by apply triple_lift_trial, triple_ProcessStart|].
  apply triple_if; intros _; [by apply triple_lift_trial, triple_ProcessData|].
  apply triple_if; intros _; [by apply triple_lift_trial, triple_ProcessFinish|].
  apply triple_if; intros _; [by apply triple_lift_trial, triple_ProcessAbort|].
  apply triple_if; intros _.
  { apply triple_ret. intros w Hi. split; [apply Resume_answers; try done; by apply Hi|].
    exists data. cbn [snd]. unfold ProcessResume. split; [|by left].
    repeat case_if; (apply SetSessionStatus_inv; [by vm_compute|exact Hi]). }
  apply triple_if; intros _; [by apply triple_lift_trial, triple_ProcessInstall|].
  apply triple_if; intros _; [by apply triple_ProcessConfirm|].
  apply triple_ret. intros w Hi. by apply nack_post.
Qed.

(** ** Properties *)

(** C11: Every packet is safe.  From a session whose acknowledged bytes are in
    the Incoming partition, OtaReceiver_ProcessPacket changes nothing outside
    the external metadata sectors, the Incoming partition and the boot metadata
    pages, wherever power fails; it answers with a well-formed packet that
    carries the sequence number and the update id of the request and the next
    expected offset, ACK exactly for status OK; and the invariant holds again
    for the same bytes, for these with the payload of the packet, or for none. *)
Theorem OtaReceiver_ProcessPacket_sound request response t s data w :
  packet_wf request -> packet_typed response -> receiver_inv (w_hw w) s data ->
  wp (OtaReceiver_ProcessPacket request response t s)
    (fun '(_, (s', r)) w' =>
       frame packet_nor in_boot_metadata (w_hw w) (w_hw w') /\ answers request (s', r) /\
       exists data', receiver_inv (w_hw w') s' data' /\
         (data' = data \/ data' = [] \/ data' = data ++ packet_payload request))
    (fun h => frame packet_nor in_boot_metadata (w_hw w) h) w.
Proof.
  intros Hq Hr Hi. eapply wp_mono; [by apply (triple_ProcessPacket request response t s data)| |done].
  intros [t' [s' r]] w' [Hf [Ha Hd]]. by split_and!.
Qed.

(** C12: An acknowledged DATA packet is stored.  While receiving, ProcessData
    writes only the external metadata and the Incoming partition behind the
    acknowledged bytes, wherever power fails; afterwards the transfer holds the
    acknowledged bytes, or these and the payload when the packet is for the next
    offset; and ACK, for new data and for a repeated packet, means that the
    bytes at its offset are its payload. *)
Theorem ProcessData_acknowledged request response s data w :
  packet_wf request -> packet_typed response -> session_typed s ->
  se_state s = state_word UPDATE_RECEIVING -> transfer (w_hw w) s data ->
  wp (ProcessData request response s)
    (fun '(s', r) w' =>
       frame (download_area (len data)) nowhere (w_hw w) (w_hw w') /\ same_transfer s s' /\
       exists data', transfer (w_hw w') s' data' /\
         (data' = data \/ (data' = data ++ packet_payload request /\ op_offset request = len data)) /\
         (op_command r = OTA_CMD_ACK ->
            slice (op_offset request) (op_payload_length request) data' = packet_payload request))
    (fun h => frame (download_area (len data)) nowhere (w_hw w) h) w.
Proof.
  intros Hq Hr Hs Hst Ht.
  eapply wp_mono; [by apply (triple_ProcessData_receiving request response s data)| |done].
  intros [s' r] w' [Hf (_ & Hsame & Hd)]. by split_and!.
Qed.

(** C14: FINISH checks the artifact.  ProcessFinish only writes the external
    metadata sectors and keeps the transfer; if a receiving session is answered
    with ACK, the acknowledged bytes are the whole artifact, their CRC is the
    one START announced, and the current checkpoint is ARTIFACT_READY for it.
    (The protocol document says that FINISH changes only the runtime session;
    the code also persists this checkpoint, and defers only the record for the
    bootloader to INSTALL.) *)
Theorem ProcessFinish_verifies request response s data w :
  packet_wf request -> packet_typed response -> receiver_inv (w_hw w) s data ->
  wp (ProcessFinish request response s)
    (fun '(s', r) w' =>
       frame in_ext_metadata nowhere (w_hw w) (w_hw w') /\ receiver_inv (w_hw w') s' data /\
       (se_state s = state_word UPDATE_RECEIVING -> op_command r = OTA_CMD_ACK ->
          se_state s' = state_word UPDATE_ARTIFACT_READY /\
          len data = se_expected_size s /\ crc_of data = se_artifact_crc32 s /\
          exists c, current_checkpoint (w_hw w') = Some c /\
            checkpoint_of DOWNLOAD_CHECKPOINT_ARTIFACT_READY (se_expected_size s) s c))
    (fun h => frame in_ext_metadata nowhere (w_hw w) h) w.
Proof.
  intros Hq Hr Hi. eapply wp_mono; [by apply (triple_ProcessFinish_spec request response s data)| |done].
  intros [s' r] w' [Hf (_ & Hi' & Hack)]. split; [exact Hf|]. split; [exact Hi'|].
  intros Hst Ha. destruct (Hack Hst Ha) as (H1 & _ & H2 & H3 & H4). by split_and!.
Qed.

End download.
