(* ===== verification/Resume.v ===== *)
(** * Resume: start-up and power loss in the middle of a download

    [OtaReceiver_Init] rebuilds the session from the current checkpoint; the
    checkpoint never promises more bytes than the Incoming partition holds, so
    a download continues from the last sector boundary that was persisted. *)

From S2P Require Import Prelude Bytes MemoryMap Crc32 AbRecord BootMetadata.
From S2P Require Import DownloadCheckpoint UpdateHandoff.
From S2P Require Import Device Logic SpiFlash ExternalFlashStorage AbStorage SectorRecords.
From S2P Require Import MetadataStorage TrialBoot Recovery FirmwareContainer Chunks.
From S2P Require Import TrialConfirmation.
From S2P Require Import Buffer OtaPacket OtaResponse OtaReceiver Reception Download.

(** ** The bitmap of complete sectors *)

Lemma SectorBits_spec n :
  (n <= 32)%nat -> is_u32 (SectorBits n) /\
  forall k, 0 <= k < Z.of_nat n -> Z.testbit (SectorBits n) k = true.
Proof.
  induction n as [|n IH]; intros Hn; cbn [SectorBits]; [split; [by vm_compute|lia]|].
  destruct (IH ltac:(lia)) as [Hr Hk].
  assert (Hb : is_u32 (sector_bit (Z.of_nat n))) by apply u32_range.
  split; [by apply lor_u32|]. intros k Hlt. rewrite Z.lor_spec.
  destruct (Z.eq_dec k (Z.of_nat n)) as [->|].
  - rewrite sector_bit_pow, Z.pow2_bits_true by lia. apply orb_true_r.
  - rewrite Hk by lia. reflexivity.
Qed.

Lemma CompletedSectorBitmap_spec offset :
  0 <= offset <= EXT_INCOMING_SIZE -> is_u32 (CompletedSectorBitmap offset) /\
  (offset mod EXT_FLASH_SECTOR_SIZE = 0 ->
   forall k, 0 <= k < 32 -> k * EXT_FLASH_SECTOR_SIZE < offset ->
     Z.testbit (CompletedSectorBitmap offset) k = true).
Proof.
  intros Ho. unfold CompletedSectorBitmap.
  pose proof (Z.div_mod offset EXT_FLASH_SECTOR_SIZE ltac:(done)).
  pose proof (Z.mod_pos_bound offset EXT_FLASH_SECTOR_SIZE ltac:(done)).
  assert (Hq : 0 <= offset / EXT_FLASH_SECTOR_SIZE <= 32) by map_lia.
  destruct (SectorBits_spec (Z.to_nat (offset / EXT_FLASH_SECTOR_SIZE)) ltac:(lia)) as [Hr Hk].
  split; [exact Hr|]. intros Hm k Hk32 Hlt. apply Hk. map_lia.
Qed.

(** ** The current checkpoint *)

Lemma checkpoint_facts (r : DownloadCheckpointRecord_t) :
  rec_validb r = true -> rec_wf r ->
  dc_state r = checkpoint_state_word DOWNLOAD_CHECKPOINT_IDLE \/
  (is_u32 (dc_update_id r) /\ is_u32 (dc_target_version r) /\ is_u32 (dc_image_crc32 r) /\
   0 <= dc_next_offset r <= dc_image_size r /\ dc_image_size r <= EXT_INCOMING_SIZE /\
   (dc_state r = checkpoint_state_word DOWNLOAD_CHECKPOINT_RECEIVING /\
      dc_next_offset r mod EXT_FLASH_SECTOR_SIZE = 0 \/
    dc_state r = checkpoint_state_word DOWNLOAD_CHECKPOINT_ARTIFACT_READY /\
      dc_next_offset r = dc_image_size r)).
Proof.
  intros Hv Hwf. apply DownloadCheckpoint_validb_spec, DownloadCheckpoint_Validate_spec in Hv.
  destruct Hv as (_ & _ & _ & _ & Hf & _). unfold DownloadCheckpoint_FieldsValid in Hf.
  case_if_in Hf; [left; by apply Z.eqb_eq|]. right.
  unfold DownloadCheckpoint_SessionFieldsValid in Hf. case_if_in Hf; [discriminate|]. to_prop.
  change (words_ok (DownloadCheckpoint_fields r)) in Hwf. unfold DownloadCheckpoint_fields in Hwf.
  rewrite !Forall_cons in Hwf. destruct_and! Hwf.
  rewrite sector_mask in Hf.
  split_and!; try assumption; try (unfold is_u32 in *; lia).
  case_if_in Hf; to_prop; [by left|]. case_if_in Hf; [|discriminate]. to_prop. by right.
Qed.

Section resume.
Context {HW : Hw}.
Implicit Types w : World HW.
Implicit Types s : OtaReceiverSession_t.

Definition checkpoint_at (h : hw) (slot : AbSlot) : DownloadCheckpointRecord_t :=
  record_at h slot CHECKPOINT_RECORD_OFFSET.

Lemma checkpoint_at_wf h slot : rec_wf (checkpoint_at h slot).
Proof. apply (record_at_wf (R := DownloadCheckpointRecord_t)). cbn. lia. Qed.

Lemma triple_CheckpointLoad :
  triple nowhere nowhere (fun _ => True) DownloadCheckpointStorage_Load
    (fun '(status, r, _) w =>
       (status = STORAGE_OK /\ r = current_checkpoint (w_hw w) /\ is_Some r) \/
       (status = STORAGE_NOT_FOUND /\ r = None /\ current_checkpoint (w_hw w) = None) \/
       (status = STORAGE_READ_FAILED /\ r = None)).
Proof.
  apply (triple_Load (R := DownloadCheckpointRecord_t) (Q := UpdateHandoffRecord_t)
    CHECKPOINT_RECORD_OFFSET EXT_METADATA_HANDOFF_OFFSET); [done|done|cbn; lia|done].
Qed.

Lemma current_checkpoint_facts h r :
  current_checkpoint h = Some r -> rec_validb r = true /\ rec_wf r.
Proof.
  unfold current_checkpoint, stored_current.
  pose proof (checkpoint_at_wf h SLOT_A) as Ha. pose proof (checkpoint_at_wf h SLOT_B) as Hb.
  unfold checkpoint_at in *.
  revert Ha Hb. generalize (record_at (T := DownloadCheckpointRecord_t) h SLOT_A CHECKPOINT_RECORD_OFFSET).
  generalize (record_at (T := DownloadCheckpointRecord_t) h SLOT_B CHECKPOINT_RECORD_OFFSET).
  intros b a Ha Hb H. split; [by eapply ab_current_valid|].
  unfold ab_current in H. destruct (rec_select_newest a b); congruence.
Qed.

(** The session a checkpoint stands for. *)
Definition resumes (h : hw) (r : DownloadCheckpointRecord_t) s : Prop :=
  transfer h s (nor_slice h EXT_INCOMING_ADDRESS (dc_next_offset r)) /\
  se_state s = (if dc_state r =? checkpoint_state_word DOWNLOAD_CHECKPOINT_ARTIFACT_READY
                then state_word UPDATE_ARTIFACT_READY else state_word UPDATE_RECEIVING) /\
  se_update_id s = dc_update_id r /\ se_target_version s = dc_target_version r /\
  se_expected_size s = dc_image_size r /\ se_artifact_crc32 s = dc_image_crc32 r /\
  se_expected_sequence s = (dc_next_offset r / OTA_MAX_PAYLOAD_SIZE) mod 2 ^ 16 /\
  se_has_last_data s = 0 /\ se_reset_pending s = 0.

(** What the chip tells the receiver at start-up. *)
Definition restored (h : hw) s : Prop :=
  match current_checkpoint h with
  | Some r => if dc_state r =? checkpoint_state_word DOWNLOAD_CHECKPOINT_IDLE then ~ active s
              else resumes h r s
  | None => ~ active s
  end.

Lemma sequence_restored n : 0 <= n -> u16 (Z.land (n / OTA_MAX_PAYLOAD_SIZE) 0xFFFF) =
  (n / OTA_MAX_PAYLOAD_SIZE) mod 2 ^ 16.
Proof.
  intros Hn. change 0xFFFF with (2 ^ 16 - 1). rewrite land_mask by lia. unfold u16.
  apply Z.mod_mod. lia.
Qed.

Lemma triple_Restore s :
  session_typed s -> se_state s = state_word UPDATE_IDLE ->
  triple nowhere nowhere (fun _ => True) (RestoreDownloadCheckpoint s)
    (fun '(s', st) w => session_typed s' /\ (st = STORAGE_OK -> restored (w_hw w) s') /\
       se_storage_ready s' = se_storage_ready s).
Proof.
  intros Hs Hidle. assert (Hna : ~ active s) by (intros [Ha|Ha]; rewrite Hidle in Ha; discriminate).
  unfold RestoreDownloadCheckpoint.
  apply (triple_bind _ _ _ _ _ _ _ triple_CheckpointLoad). intros [[st r] slot] w Hw.
  destruct Hw as [(-> & Hcur & [r' ->])|[(-> & -> & Hcur)|(-> & ->)]].
  - rewrite (bool_decide_eq_false_2 (STORAGE_OK = STORAGE_NOT_FOUND)) by done. symmetry in Hcur.
    destruct (current_checkpoint_facts _ _ Hcur) as [Hv Hwf].
    pose proof (checkpoint_facts r' Hv Hwf) as Hf.
    destruct (Z.eqb_spec (dc_state r') (checkpoint_state_word DOWNLOAD_CHECKPOINT_IDLE)) as [Hi|Hi].
    { apply wp_ret. split; [apply frame_refl|]. split; [exact Hs|]. split; [|done]. intros _.
      unfold restored. rewrite Hcur, (proj2 (Z.eqb_eq _ _) Hi). exact Hna. }
    destruct Hf as [Hf|(H1 & H2 & H3 & H4 & H5 & H6)]; [by destruct Hi|].
    destruct (CompletedSectorBitmap_spec (dc_next_offset r') ltac:(lia)) as [Hbr Hbits].
    apply wp_ret. split; [apply frame_refl|].
    assert (Hlen : len (nor_slice (w_hw w) EXT_INCOMING_ADDRESS (dc_next_offset r')) = dc_next_offset r')
      by (apply nor_slice_length; lia).
    split; [|split; [|done]].
    + assert (Hoff : is_u32 (dc_next_offset r') /\ is_u32 (dc_image_size r')) by (unfold is_u32; map_lia).
      destruct Hs, Hoff.
      split; lazymatch goal with
        | |- is_byte (se_state _) => cbn [se_state]; change (is_byte (if
            dc_state r' =? checkpoint_state_word DOWNLOAD_CHECKPOINT_ARTIFACT_READY
            then state_word UPDATE_ARTIFACT_READY else state_word UPDATE_RECEIVING)); case_if; by vm_compute
        | |- is_byte (se_has_last_data _) => by vm_compute
        | |- is_byte (se_reset_pending _) => by vm_compute
        | |- is_u16 (se_expected_sequence _) => apply u16_range
        | |- is_u32 (se_erased_sector_bitmap _) => exact Hbr
        | |- _ => cbn; assumption
        end.
    + intros _. unfold restored. rewrite Hcur, (proj2 (Z.eqb_neq _ _) Hi). unfold resumes.
      split; [|repeat (split; [reflexivity|]); split; [apply sequence_restored; lia|by split]].
      split; rewrite ?Hlen; try done.
      * cbn. lia.
      * cbn. intros Hst. apply Hbits. destruct H6 as [[_ H6]|[H6 _]]; [exact H6|].
        rewrite H6 in Hst. discriminate.
  - rewrite (bool_decide_eq_true_2 (STORAGE_NOT_FOUND = STORAGE_NOT_FOUND)) by done.
    apply wp_ret. split; [apply frame_refl|]. split; [exact Hs|]. split; [|done].
    intros _. unfold restored. by rewrite Hcur.
  - rewrite (bool_decide_eq_false_2 (STORAGE_READ_FAILED = STORAGE_NOT_FOUND)) by done.
    apply wp_ret. split; [apply frame_refl|]. split; [exact Hs|]. by split.
Qed.

(** Whatever leaves a metadata sector alone leaves its checkpoint alone. *)
Lemma checkpoint_at_frame (N F : Z -> Prop) h h' slot :
  (forall a, sector slot a -> ~ N a) -> frame N F h h' -> checkpoint_at h' slot = checkpoint_at h slot.
Proof.
  intros HN Hf. unfold checkpoint_at.
  eapply (record_at_frame (R := DownloadCheckpointRecord_t)); [cbn; lia|done|done|exact HN|exact Hf].
Qed.

Lemma current_checkpoint_frame (N F : Z -> Prop) h h' :
  (forall a, in_ext_metadata a -> ~ N a) -> frame N F h h' ->
  current_checkpoint h' = current_checkpoint h.
Proof.
  intros HN Hf.
  change (ab_current (checkpoint_at h' SLOT_A) (checkpoint_at h' SLOT_B) =
          ab_current (checkpoint_at h SLOT_A) (checkpoint_at h SLOT_B)).
  rewrite !(checkpoint_at_frame N F h h'); [done|..|exact Hf| |exact Hf];
    intros a Ha; apply HN; exact (sector_in_metadata _ a Ha).
Qed.

Lemma restored_still h h' s : frame nowhere nowhere h h' -> restored h s -> restored h' s.
Proof.
  intros Hf. unfold restored, resumes. rewrite (current_checkpoint_frame nowhere nowhere h h');
    [|by intros ? _ []|exact Hf].
  destruct (current_checkpoint h) as [r|]; [|done]. case_match; [done|].
  intros [Ht Hrest]. split; [|exact Hrest].
  rewrite (nor_slice_frame nowhere nowhere h h'); [|exact Hf|by intros ? _ []].
  apply (transfer_frame nowhere h); [|exact Ht]. by eapply frame_mono; [| |exact Hf].
Qed.

(** ** Start-up *)

Lemma mirror_typed s m :
  session_typed s -> rec_wf m ->
  session_typed (s
    |> se_set_state (u8 (bm_state m)) |> se_set_update_id (bm_active_update_id m)
    |> se_set_target_version (bm_pending_version m) |> se_set_expected_size (bm_expected_size m)
    |> se_set_next_offset (bm_received_size m) |> se_set_persisted_offset 0
    |> se_set_expected_sequence 0 |> se_set_has_last_data 0).
Proof.
  intros Hs Hwf. change (words_ok (BootMetadata_fields m)) in Hwf. unfold BootMetadata_fields in Hwf.
  rewrite !Forall_cons in Hwf. destruct_and! Hwf. destruct Hs.
  split; cbn; first [assumption | apply u8_range | by vm_compute].
Qed.

Lemma triple_Mirror s :
  session_typed s -> ~ active s ->
  triple nowhere nowhere (fun _ => True) (MirrorPersistentTrialState s)
    (fun s' _ => session_typed s' /\ ~ active s' /\ se_storage_ready s' = se_storage_ready s).
Proof.
  intros Hs Hna w _. unfold MirrorPersistentTrialState. apply wp_bind.
  eapply wp_mono; [apply wp_Load| |done]. intros [[st m] slot] w' [-> Hm].
  case_if; apply wp_ret; (split; [apply frame_refl|]); [|by split].
  to_prop. match goal with H : bool_decide _ = true |- _ => apply bool_decide_eq_true in H; subst st end.
  assert (Hwf : rec_wf m).
  { destruct (current_metadata (w_hw w)) as [r|] eqn:Hcur; destruct Hm as [Hst ->]; [|discriminate].
    by eapply current_metadata_wf. }
  split; [by apply mirror_typed|]. split; [|done].
  match goal with H : (_ || _) = true |- _ => apply orb_true_iff in H; rename H into Hor end.
  unfold active. cbn. intros Ha.
  destruct Hor as [Hst|Hst]; apply Z.eqb_eq in Hst; rewrite Hst in Ha;
    destruct Ha as [Ha|Ha]; vm_compute in Ha; discriminate.
Qed.

(** Initialisation reads only; it succeeds exactly when the storage is ready,
    and then the session is the one of the current checkpoint. *)
Lemma triple_Init s :
  session_typed s ->
  triple nowhere nowhere (fun w => forall a, ~ nor_footprint (spi_session (w_hw w)) a)
    (OtaReceiver_Init s)
    (fun '(s', ok) w => session_typed s' /\ ok = (se_storage_ready s' <>? 0) /\
       (ok = true -> restored (w_hw w) s') /\ (ok = false -> ~ active s')).
Proof.
  intros Hs. unfold OtaReceiver_Init, ExternalFlashStorage_Init.
  triple_step triple_SpiFlash_Init; [auto|]. intros ready.
  apply (triple_pre _ _ (fun _ => True)); [|done].
  apply (triple_bind _ _ _ _ (fun _ _ => True)).
  { intros w _. apply wp_bind, wp_get_ram, wp_ret. split; [apply frame_refl|done]. }
  intros st. cbv zeta. set (s1 := ResetTransfer _).
  assert (Hs1 : session_typed s1).
  { unfold s1. apply ResetTransfer_typed. destruct Hs.
    pose proof (spi_status_range st).
    destruct ready; split; cbn; first [assumption | split; vm_compute; congruence]. }
  assert (Hready : se_storage_ready s1 = if ready then 1 else 0) by done.
  assert (Hidle : se_state s1 = state_word UPDATE_IDLE) by done.
  assert (Hna : ~ active s1) by (intros [Ha|Ha]; rewrite Hidle in Ha; discriminate).
  clearbody s1. destruct ready.
  2: { apply triple_ret. intros w _. rewrite Hready. by split_and!. }
  apply (triple_bind _ _ _ _ _ _ _ (triple_Restore s1 Hs1 Hidle)). intros [s2 cst].
  apply (triple_pure _ _ _ (session_typed s2 /\ se_storage_ready s2 = se_storage_ready s1));
    [by intros w (? & _ & ?)|]. intros [Hs2 Hr2]. rewrite Hready in Hr2.
  apply triple_if; intros E.
  { apply triple_ret. intros w _. split; [|split; [done|split; [discriminate|]]].
    - apply ResetTransfer_typed. destruct Hs2.
      pose proof (checkpoint_detail_range cst).
      split; cbn; first [assumption | split; vm_compute; congruence].
    - intros _ [Ha|Ha]; discriminate Ha. }
  apply bool_decide_eq_false, dec_stable in E. subst cst.
  apply (triple_pre _ _ (fun w => restored (w_hw w) s2)); [|by intros w (_ & H & _); apply H].
  apply triple_if; intros Est.
  - apply Z.eqb_eq in Est.
    assert (Hna2 : ~ active s2) by (intros [Ha|Ha]; rewrite Est in Ha; discriminate).
    eapply triple_bind; [apply (triple_pre _ _ (fun w => True /\ restored (w_hw w) s2));
      [apply (triple_stable nowhere nowhere (fun h => restored h s2) (fun _ => True) _
        (fun s' _ => session_typed s' /\ ~ active s' /\ se_storage_ready s' = se_storage_ready s2));
       [|by apply triple_Mirror]|by intros w H]|].
    { intros h h'. apply restored_still. }
    intros s3. apply triple_ret. intros w [(Hs3 & Hna3 & Hr3) Hres].
    rewrite Hr2 in Hr3. rewrite Hr3. split; [exact Hs3|]. split; [done|]. split; [|discriminate].
    intros _. unfold restored in *. destruct (current_checkpoint (w_hw w)) as [r|]; [|exact Hna3].
    destruct (dc_state r =? _); [exact Hna3|]. destruct Hna2. destruct Hres as (_ & Hst & _).
    unfold active. rewrite Hst. destruct (dc_state r =? _); auto.
  - apply triple_ret. intros w Hres. rewrite Hr2. by split_and!.
Qed.

(** ** Interrupted checkpoint commits *)

Definition checkpoint_target (h : hw) : AbSlot :=
  rec_select_write_slot (checkpoint_at h SLOT_A) (checkpoint_at h SLOT_B).

Definition checkpoint_candidate (h : hw) s (offset : Z) : DownloadCheckpointRecord_t :=
  rec_candidate (rec_next_generation (ab_generation (checkpoint_at h SLOT_A) (checkpoint_at h SLOT_B)))
    (DownloadCheckpoint_InitSession DOWNLOAD_CHECKPOINT_RECEIVING (se_update_id s) (se_target_version s)
       (se_expected_size s) (se_artifact_crc32 s) offset).

(** What the records' CRC is for: a sector whose rewriting was cut short holds
    no valid checkpoint, unless it still holds the old one or already the new
    one. *)
Definition torn_detected (h0 h : hw) s (offset : Z) : Prop :=
  let slot := checkpoint_target h0 in
  rec_validb (checkpoint_at h slot) = true ->
  checkpoint_at h slot = checkpoint_at h0 slot \/ checkpoint_at h slot = checkpoint_candidate h0 s offset.

(** The current checkpoint promises no more than [data]. *)
Definition backed (h : hw) s (data : list Z) : Prop :=
  exists r offset, current_checkpoint h = Some r /\
    checkpoint_of DOWNLOAD_CHECKPOINT_RECEIVING offset s r /\ 0 <= offset <= len data.

Lemma candidate_of h s offset :
  checkpoint_of DOWNLOAD_CHECKPOINT_RECEIVING offset s (checkpoint_candidate h s offset).
Proof. unfold checkpoint_of. split_and!; reflexivity. Qed.

Lemma checkpoint_target_real h : checkpoint_target h = SLOT_A \/ checkpoint_target h = SLOT_B.
Proof. unfold checkpoint_target. rewrite rec_write_slot_spec. case_match; auto. Qed.

(** Only the target slot can differ afterwards. *)
Lemma checkpoint_slots_after n h0 h :
  frame (fun a => sector (checkpoint_target h0) a \/ incoming_from n a) nowhere h0 h -> 0 <= n ->
  (checkpoint_at h SLOT_A, checkpoint_at h SLOT_B) =
  ab_write (checkpoint_at h0 SLOT_A) (checkpoint_at h0 SLOT_B) (checkpoint_at h (checkpoint_target h0)).
Proof.
  intros Hf Hn.
  assert (Hkeep : forall slot, (forall a, sector slot a -> ~ sector (checkpoint_target h0) a) ->
    checkpoint_at h slot = checkpoint_at h0 slot).
  { intros slot Hs. eapply checkpoint_at_frame; [|exact Hf]. intros a Ha [Hb|Hb]; [by apply (Hs a)|].
    apply sector_in_metadata, metadata_not_incoming in Ha. apply Ha.
    unfold incoming_from in *. lia. }
  assert (Hdis : forall a, sector SLOT_A a -> sector SLOT_B a -> False).
  { apply (sectors_disjoint (R := DownloadCheckpointRecord_t)). cbn. lia. }
  unfold ab_write. fold (checkpoint_target h0).
  destruct (checkpoint_target_real h0) as [Ht|Ht]; rewrite Ht in *; f_equal; apply Hkeep;
    intros a Ha Hb; first [exact (Hdis a Ha Hb) | exact (Hdis a Hb Ha)].
Qed.

Lemma torn_current n h0 h s offset :
  frame (fun a => sector (checkpoint_target h0) a \/ incoming_from n a) nowhere h0 h -> 0 <= n ->
  torn_detected h0 h s offset ->
  current_checkpoint h = current_checkpoint h0 \/
  current_checkpoint h = Some (checkpoint_candidate h0 s offset).
Proof.
  intros Hf Hn Ht. pose proof (checkpoint_slots_after n h0 h Hf Hn) as Hs.
  assert (Hcur : current_checkpoint h = ab_current (checkpoint_at h SLOT_A) (checkpoint_at h SLOT_B))
    by reflexivity.
  assert (Hcur0 : current_checkpoint h0 = ab_current (checkpoint_at h0 SLOT_A) (checkpoint_at h0 SLOT_B))
    by reflexivity.
  rewrite Hcur, Hcur0. clear Hcur Hcur0. unfold torn_detected in Ht.
  pose proof (checkpoint_at_wf h0 SLOT_A) as Wa. pose proof (checkpoint_at_wf h0 SLOT_B) as Wb.
  pose proof (checkpoint_target_real h0) as Htr.
  pose proof (f_equal fst Hs) as H1. pose proof (f_equal snd Hs) as H2. cbn [fst snd] in H1, H2. clear Hs.
  rewrite H1, H2. clear H1 H2.
  destruct (rec_validb (checkpoint_at h (checkpoint_target h0))) eqn:Hv.
  2: { left. by apply ab_torn_current. }
  destruct (Ht eq_refl) as [Hold|Hnew].
  - left. rewrite Hold. unfold ab_write. fold (checkpoint_target h0).
    destruct Htr as [-> | ->]; reflexivity.
  - right. rewrite Hnew in Hv |- *. apply ab_write_current;
      [by apply rec_generation_wf..|exact Hv|apply rec_candidate_generation].
Qed.

(** The offset start-up resumes at. *)
Definition persisted (h : hw) : Z :=
  match current_checkpoint h with Some r => dc_next_offset r | None => 0 end.

(** The current checkpoint is one of [s] at [offset]. *)
Definition checkpointed (h : hw) s (offset : Z) : Prop :=
  exists r, current_checkpoint h = Some r /\
    checkpoint_of DOWNLOAD_CHECKPOINT_RECEIVING offset s r.

Lemma backed_checkpointed h s data :
  backed h s data -> checkpointed h s (persisted h) /\ 0 <= persisted h <= len data.
Proof.
  intros (r & k & Hr & Hk & Hle). unfold checkpointed, persisted. rewrite Hr.
  assert (dc_next_offset r = k) as -> by apply Hk. split; [by exists r|exact Hle].
Qed.

Lemma torn_checkpointed n h0 h s (data0 data : list Z) :
  frame (fun a => sector (checkpoint_target h0) a \/ incoming_from n a) nowhere h0 h -> 0 <= n ->
  backed h0 s data0 -> len data0 <= len data -> torn_detected h0 h s (len data) ->
  exists offset, (offset = persisted h0 \/ offset = len data) /\ 0 <= offset <= len data /\
    checkpointed h s offset.
Proof.
  intros Hf Hn Hb Hl Ht. destruct (backed_checkpointed _ _ _ Hb) as [(r & Hr & Hk) Hle].
  destruct (torn_current n h0 h s (len data) Hf Hn Ht) as [H|H].
  - exists (persisted h0). split; [by left|]. split; [lia|]. exists r. by rewrite H.
  - exists (len data). split; [by right|]. split; [lia|].
    exists (checkpoint_candidate h0 s (len data)). split; [exact H|apply candidate_of].
Qed.

(** ** Resuming *)

(** Start-up on [h] writes nothing; it continues the transfer [s] with the first
    [offset] bytes of [data], or reports an error and no transfer. *)
Definition resumes_at (h : hw) s (offset : Z) (data : list Z) : Prop :=
  forall w s0, w_hw w = h -> session_typed s0 -> (forall a, ~ nor_footprint (spi_session h) a) ->
  wp (OtaReceiver_Init s0)
    (fun '(s', ok) w' => frame nowhere nowhere h (w_hw w') /\
       if ok : bool
       then transfer (w_hw w') s' (take (Z.to_nat offset) data) /\
          se_state s' = state_word UPDATE_RECEIVING /\ se_update_id s' = se_update_id s /\
          se_target_version s' = se_target_version s /\ se_expected_size s' = se_expected_size s /\
          se_artifact_crc32 s' = se_artifact_crc32 s
       else ~ active s')
    (fun h' => frame nowhere nowhere h h') w.

Lemma checkpointed_resumes h s offset data :
  checkpointed h s offset -> 0 <= offset <= len data ->
  nor_slice h EXT_INCOMING_ADDRESS (len data) = data -> resumes_at h s offset data.
Proof.
  intros (r & Hr & (H1 & H2 & H3 & H4 & H5 & H6)) Hk Hst w s0 <- Hs0 Hfoot.
  eapply wp_mono; [apply (triple_Init s0 Hs0 w Hfoot)| |done].
  intros [s' []] w' [Hf (Hs' & _ & Hres & Hno)]; (split; [exact Hf|]); [|by apply Hno].
  specialize (Hres eq_refl). unfold restored in Hres.
  rewrite (current_checkpoint_frame nowhere nowhere (w_hw w) (w_hw w')), Hr in Hres;
    [|by intros ? _ []|exact Hf].
  rewrite H1 in Hres. cbn [checkpoint_state_word Z.eqb] in Hres.
  destruct Hres as (Ht & E1 & E2 & E3 & E4 & E5 & _). rewrite H1 in E1. rewrite H6 in Ht.
  rewrite (nor_slice_frame nowhere nowhere (w_hw w) (w_hw w')) in Ht; [|exact Hf|by intros ? _ []].
  replace (nor_slice (w_hw w) EXT_INCOMING_ADDRESS offset) with (take (Z.to_nat offset) data) in Ht.
  - split; [exact Ht|]. split; [exact E1|]. rewrite <- H2, <- H3, <- H4, <- H5. auto.
  - rewrite <- Hst at 1. pose proof (slice_nor_slice (w_hw w) EXT_INCOMING_ADDRESS (len data) 0 offset
      ltac:(lia) ltac:(lia) ltac:(lia)) as H. rewrite Z.add_0_r in H. exact H.
Qed.

(** ** Power loss during a DATA packet *)

Lemma wp_Persist_frame state offset s w :
  session_typed s -> is_u32 offset ->
  wp (PersistDownloadCheckpoint state offset s)
    (fun _ w' => frame (sector (checkpoint_target (w_hw w))) nowhere (w_hw w) (w_hw w'))
    (fun h => frame (sector (checkpoint_target (w_hw w))) nowhere (w_hw w) h) w.
Proof.
  intros Hs Ho. apply wp_bind.
  eapply wp_mono; [apply (wp_Commit (R := DownloadCheckpointRecord_t) (Q := UpdateHandoffRecord_t)
    CHECKPOINT_RECORD_OFFSET EXT_METADATA_HANDOFF_OFFSET); [done|done|cbn; lia|done|by apply InitSession_wf]| |].
  - intros [[st r] slot] w' [Hf _]. destruct st; try (apply wp_ret; exact Hf).
    destruct r; apply wp_ret; exact Hf.
  - intros h Hf. exact Hf.
Qed.

Lemma wp_PersistAndAnswer_frame request response s w :
  session_typed s ->
  wp (PersistAndAnswer request response s)
    (fun _ w' => frame (sector (checkpoint_target (w_hw w))) nowhere (w_hw w) (w_hw w'))
    (fun h => frame (sector (checkpoint_target (w_hw w))) nowhere (w_hw w) h) w.
Proof.
  intros Hs. unfold PersistAndAnswer, PersistReceiveBoundaryIfNeeded. apply wp_bind.
  assert (Hk : forall x w', frame (sector (checkpoint_target (w_hw w))) nowhere (w_hw w) (w_hw w') ->
    wp (let '(s, checkpoint_status) := x in
        if bool_decide (checkpoint_status <> STORAGE_OK)
        then ret (Nack request OTA_STATUS_STORAGE_ERROR (CheckpointErrorDetail checkpoint_status) response s)
        else ret (Ack request response s))
      (fun _ w' => frame (sector (checkpoint_target (w_hw w))) nowhere (w_hw w) (w_hw w'))
      (fun h => frame (sector (checkpoint_target (w_hw w))) nowhere (w_hw w) h) w').
  { intros [s' st] w' Hf. case_if; apply wp_ret; exact Hf. }
  case_if; [apply wp_ret; apply (Hk (s, STORAGE_OK) w); apply frame_refl|].
  eapply wp_mono; [apply wp_Persist_frame; [exact Hs|apply Hs]|exact Hk|done].
Qed.

(** What a DATA packet leaves, finished or cut short at any point. *)
Definition interrupted (h0 : hw) s (request : OtaPacket_t) (data : list Z) (h : hw) : Prop :=
  exists data', (data' = data \/ data' = data ++ packet_payload request) /\
    nor_slice h EXT_INCOMING_ADDRESS (len data') = data' /\
    (torn_detected h0 h s (len data') ->
     exists offset, (offset = persisted h0 \/ offset = len data') /\ resumes_at h s offset data').

Lemma interrupted_before h0 s request data h :
  frame (incoming_from (len data)) nowhere h0 h -> transfer h0 s data -> backed h0 s data ->
  interrupted h0 s request data h.
Proof.
  intros Hf Ht Hb. exists data. split; [by left|].
  assert (Hst : transfer h s data).
  { eapply (transfer_frame nowhere); [|exact Ht]. eapply frame_mono; [|done|exact Hf]. by right. }
  split; [apply Hst|]. intros _. destruct (backed_checkpointed _ _ _ Hb) as [(r & Hr & Hk) Hle].
  exists (persisted h0). split; [by left|]. apply checkpointed_resumes; [|exact Hle|apply Hst].
  exists r. split; [|exact Hk]. rewrite <- Hr.
  apply (current_checkpoint_frame (incoming_from (len data)) nowhere); [|exact Hf].
  intros a Ha Hi. apply (metadata_not_incoming a Ha). unfold incoming_from in *. lia.
Qed.

(** The metadata sectors are those of before. *)
Lemma checkpoint_target_frame n h0 h :
  frame (incoming_from n) nowhere h0 h -> 0 <= n -> checkpoint_target h = checkpoint_target h0.
Proof.
  intros Hf Hn.
  assert (Hs : forall slot, checkpoint_at h slot = checkpoint_at h0 slot).
  { intros slot. eapply checkpoint_at_frame; [|exact Hf]. intros a Ha Hi.
    apply sector_in_metadata, metadata_not_incoming in Ha. apply Ha. unfold incoming_from in *. lia. }
  unfold checkpoint_target. by rewrite !Hs.
Qed.

Lemma interrupted_persist h0 h1 h s s1 request data data1 :
  frame (incoming_from (len data)) nowhere h0 h1 ->
  frame (sector (checkpoint_target h1)) nowhere h1 h ->
  (data1 = data \/ data1 = data ++ packet_payload request) -> transfer h1 s1 data1 ->
  backed h0 s data -> interrupted h0 s request data h.
Proof.
  intros Hf1 Hf Hd Ht Hb. exists data1. split; [exact Hd|].
  assert (Hst : nor_slice h EXT_INCOMING_ADDRESS (len data1) = data1).
  { rewrite <- (tr_stored _ _ _ Ht) at 2. eapply nor_slice_frame; [exact Hf|].
    intros a Ha Hs. apply sector_in_metadata, metadata_not_incoming in Hs. apply Hs.
    destruct Ht as [_ _ Hsize _ _]. unfold incoming_from. lia. }
  split; [exact Hst|]. intros Htorn.
  destruct (torn_checkpointed (len data) h0 h s data data1) as (offset & Ho & Hle & Hc);
    [|lia|exact Hb|destruct Hd as [-> | ->]; [lia|rewrite length_app; lia]|exact Htorn|].
  - rewrite (checkpoint_target_frame (len data) h0 h1 Hf1 ltac:(lia)) in Hf.
    eapply frame_trans; (eapply frame_mono; [| |eassumption]); [by right|done|by left|done].
  - exists offset. split; [exact Ho|]. by apply checkpointed_resumes.
Qed.

Lemma wp_ProcessData_power_loss request response s data w :
  packet_wf request -> packet_typed response -> session_typed s ->
  se_state s = state_word UPDATE_RECEIVING -> transfer (w_hw w) s data -> backed (w_hw w) s data ->
  wp (ProcessData request response s)
    (fun _ w' => interrupted (w_hw w) s request data (w_hw w'))
    (interrupted (w_hw w) s request data) w.
Proof.
  intros Hq Hr Hs Hst Ht Hb. unfold ProcessData. apply wp_bind.
  eapply wp_mono; [by apply (triple_ReceivePayload request response s data)| |].
  - intros [x|s1] w1 [Hf Hx].
    + apply wp_ret. by apply interrupted_before.
    + destruct Hx as (Hs1 & Hsame & data1 & Ht1 & Hd & _).
      eapply wp_mono; [by apply wp_PersistAndAnswer_frame| |].
      * cbv beta. intros x w2 Hf2. eapply (interrupted_persist _ (w_hw w1) _ s s1); [exact Hf|exact Hf2| |exact Ht1|exact Hb].
        destruct Hd as [->|[-> _]]; auto.
      * intros h Hf2. eapply (interrupted_persist _ (w_hw w1) _ s s1); [exact Hf|exact Hf2| |exact Ht1|exact Hb].
        destruct Hd as [->|[-> _]]; auto.
  - intros h Hf. by apply interrupted_before.
Qed.

(** ** INSTALL *)

(** The metadata record of an installation request for [s]. *)
Definition requested_install s (r : BootMetadata_t) : Prop :=
  bm_state r = state_word UPDATE_ARTIFACT_READY /\ bm_pending_version r = se_target_version s /\
  bm_active_update_id r = se_update_id s /\ bm_received_size r = se_expected_size s /\
  bm_expected_size r = se_expected_size s.

(** The boot metadata is the old record or the installation request. *)
Definition install_or_same s (h0 h : hw) : Prop :=
  current_metadata h = current_metadata h0 \/
  exists r, current_metadata h = Some r /\ requested_install s r.

Lemma InstallRequest_wf s m : session_typed s -> rec_wf m -> rec_wf (InstallRequest s m).
Proof.
  intros [] Hm. unfold InstallRequest, bm_set_state, bm_set_pending_version, bm_set_active_update_id,
    bm_set_received_size, bm_set_expected_size, bm_set_copy_offset, bm_set_boot_attempts, bm_set_last_error.
  do 8 (apply assign_wf; [first [assumption | split; vm_compute; congruence]|]). exact Hm.
Qed.

Lemma install_after s m h0 h :
  after_interruption h0 (InstallRequest s m) h -> install_or_same s h0 h.
Proof.
  intros [Ha|(r & Hr & [H10 _])]; [by left|]. right. exists r. split; [exact Hr|].
  pose proof (H10 3%nat ltac:(lia)) as H3. pose proof (H10 5%nat ltac:(lia)) as H5.
  pose proof (H10 6%nat ltac:(lia)) as H6. pose proof (H10 7%nat ltac:(lia)) as H7.
  pose proof (H10 8%nat ltac:(lia)) as H8. unfold requested_install.
  split; [exact H3|]. split; [exact H5|]. split; [exact H6|]. split; [exact H7|exact H8].
Qed.

Lemma wp_PersistSecureInstallRequest s w :
  session_typed s -> erase_detected (w_hw w) (target_slot (w_hw w)) ->
  wp (PersistSecureInstallRequest s)
    (fun detail w' => frame nowhere in_boot_metadata (w_hw w) (w_hw w') /\
       install_or_same s (w_hw w) (w_hw w') /\
       (detail = None -> exists r, current_metadata (w_hw w') = Some r /\ requested_install s r))
    (fun h => frame nowhere in_boot_metadata (w_hw w) h /\ install_or_same s (w_hw w) h) w.
Proof.
  intros Hs He. unfold PersistSecureInstallRequest. apply wp_bind.
  eapply wp_mono; [apply wp_Load| |done]. intros [[st m] slot] w1 [-> Hm].
  assert (Hwf : rec_wf m).
  { destruct (current_metadata (w_hw w)) as [r|] eqn:Hcur; destruct Hm as [_ ->].
    - by eapply current_metadata_wf.
    - repeat constructor; vm_compute; congruence. }
  case_if; [apply wp_ret; split; [apply frame_refl|]; split; [by left|discriminate]|].
  apply wp_bind.
  eapply wp_mono; [apply wp_and; [by apply wp_MetadataStorage_Commit, He; apply InstallRequest_wf
    |apply modifies_Commit]| |].
  - intros [[st' c] slot'] w' [(_ & Hok & Hbad) Hf]. cbv beta iota.
    destruct (bool_decide_reflect (st' <> METADATA_STORAGE_OK)) as [Hne|Heq]; apply wp_ret.
    + split; [exact Hf|]. split; [|discriminate]. by eapply install_after, Hbad.
    + apply dec_stable in Heq. destruct (Hok Heq) as [_ Hcur].
      assert (Hreq : requested_install s (commit_candidate (w_hw w) (InstallRequest s m))) by (repeat split).
      split; [exact Hf|]. split; [right; eexists; split; [exact Hcur|exact Hreq]|].
      intros _. eexists. split; [exact Hcur|exact Hreq].
  - intros h [[_ Ha] Hf]. split; [exact Hf|]. by eapply install_after.
Qed.

(** What INSTALL leaves behind. *)
Definition install_post (request : OtaPacket_t) s (h0 : hw)
    (x : OtaReceiverSession_t * OtaPacket_t) w : Prop :=
  frame nowhere in_boot_metadata h0 (w_hw w) /\ install_or_same s h0 (w_hw w) /\
  (op_command (snd x) = OTA_CMD_ACK ->
     se_state s = state_word UPDATE_ARTIFACT_READY /\ op_update_id request = se_update_id s /\
     se_target_version s <> 0 /\
     GetU32Le (nor_slice (w_hw w) EXT_INCOMING_ADDRESS 4) = FW_CONTAINER_MAGIC /\
     se_reset_pending (fst x) = 1 /\
     exists m, current_metadata (w_hw w) = Some m /\ requested_install s m) /\
  (op_command (snd x) <> OTA_CMD_ACK -> se_reset_pending (fst x) = se_reset_pending s).

Lemma install_nack request status detail response s h0 w :
  status <> OTA_STATUS_OK -> frame nowhere in_boot_metadata h0 (w_hw w) ->
  install_or_same s h0 (w_hw w) -> install_post request s h0 (Nack request status detail response s) w.
Proof.
  intros Hst Hf Hi. split; [exact Hf|]. split; [exact Hi|]. split; [|done].
  unfold Nack, OtaResponse_BuildNack, BuildStatus. cbv zeta. cbn [snd op_set_body op_command InitResponse].
  rewrite (proj2 (Z.eqb_neq _ _)) by exact Hst. discriminate.
Qed.

Lemma target_slot_still h h' :
  frame nowhere nowhere h h' ->
  target_slot h' = target_slot h /\ current_metadata h' = current_metadata h.
Proof.
  intros Hf. assert (H : forall slot, metadata_at h' slot = metadata_at h slot).
  { intros slot. unfold metadata_at. f_equal. eapply flash_slice_frame; [exact Hf|]. by intros ? _ []. }
  unfold target_slot, current_metadata. by rewrite !H.
Qed.

Lemma wp_ProcessInstall request response s w :
  session_typed s -> erases_detected ->
  wp (ProcessInstall request response s) (install_post request s (w_hw w))
    (fun h => frame nowhere in_boot_metadata (w_hw w) h /\ install_or_same s (w_hw w) h) w.
Proof.
  intros Hs He.
  assert (Hsame : install_or_same s (w_hw w) (w_hw w)) by (by left).
  pose proof (frame_refl nowhere in_boot_metadata (w_hw w)) as Hrefl.
  unfold ProcessInstall. cbv zeta.
  do 4 (case_if; [by apply wp_ret, install_nack|]). to_prop. apply wp_bind.
  eapply wp_mono; [apply triple_LooksSecure; done| |].
  2: { intros h Hf. split; [by eapply frame_mono; [| |exact Hf]|]. left. by apply target_slot_still. }
  intros secure w1 [Hf1 Hmagic]. pose proof (target_slot_still _ _ Hf1) as [Ht1 Hc1].
  assert (Hf1' : frame nowhere in_boot_metadata (w_hw w) (w_hw w1)) by (by eapply frame_mono; [| |exact Hf1]).
  assert (Hsame1 : install_or_same s (w_hw w) (w_hw w1)) by (by left).
  destruct secure; [|by apply wp_ret, install_nack].
  assert (Htrans : forall h, install_or_same s (w_hw w1) h -> install_or_same s (w_hw w) h).
  { intros h. unfold install_or_same. by rewrite Hc1. }
  apply wp_bind. eapply wp_mono; [apply wp_PersistSecureInstallRequest; [exact Hs|]| |].
  - apply He. apply target_slot_real.
  - intros detail w2 (Hf2 & Hi2 & Hok). pose proof (frame_trans _ _ _ _ _ Hf1' Hf2) as Hf.
    destruct detail as [detail|]; apply wp_ret; [by apply install_nack; [|exact Hf|apply Htrans]|].
    split; [exact Hf|]. split; [by apply Htrans|]. split; [|intros Hne; by destruct Hne].
    intros _. split_and!; try done; [|by apply Hok].
    rewrite (nor_slice_frame nowhere in_boot_metadata (w_hw w1) (w_hw w2)); [by apply Hmagic|exact Hf2|].
    by intros ? _ [].
  - intros h [Hf2 Hi2]. split; [exact (frame_trans _ _ _ _ _ Hf1' Hf2)|by apply Htrans].
Qed.

(** ** Properties *)

(** C13: A download survives power loss.  At every instruction of ProcessData,
    and when it returns, the acknowledged bytes (with the payload or without it)
    are in the Incoming partition.  If moreover the checkpoint sector being
    rewritten holds the old record, the new one or none that is valid
    (torn_detected, the CRC detects a half-written record), OtaReceiver_Init on
    that chip writes no flash and either reports an error, with no transfer
    active, or continues the same artifact in RECEIVING with the first bytes of
    these, as many as the last persisted checkpoint or the one being written
    says. *)
Theorem ProcessData_power_loss request response s data w :
  packet_wf request -> packet_typed response -> session_typed s ->
  se_state s = state_word UPDATE_RECEIVING -> transfer (w_hw w) s data -> backed (w_hw w) s data ->
  let h0 := w_hw w in
  let left_behind h := exists data', (data' = data \/ data' = data ++ packet_payload request) /\
    nor_slice h EXT_INCOMING_ADDRESS (len data') = data' /\
    (torn_detected h0 h s (len data') ->
     exists offset, (offset = persisted h0 \/ offset = len data') /\ resumes_at h s offset data') in
  wp (ProcessData request response s) (fun _ w' => left_behind (w_hw w')) left_behind w.
Proof. apply wp_ProcessData_power_loss. Qed.

(** C16: Start-up restores the session.  OtaReceiver_Init writes no flash; when
    it reports success with a current checkpoint in RECEIVING or ARTIFACT_READY,
    the session has its state, update id, version, size, CRC and offset, expects
    sequence number offset/256 modulo 2^16, and the bytes before the offset form
    a transfer whose erased-sector bitmap covers them; without such a
    checkpoint, or on failure, no transfer is active. *)
Theorem OtaReceiver_Init_restores s w :
  session_typed s -> (forall a, ~ nor_footprint (spi_session (w_hw w)) a) ->
  wp (OtaReceiver_Init s)
    (fun '(s', ok) w' => frame nowhere nowhere (w_hw w) (w_hw w') /\ session_typed s' /\
       ok = (se_storage_ready s' <>? 0) /\ (ok = true -> restored (w_hw w') s') /\
       (ok = false -> ~ active s'))
    (fun h => frame nowhere nowhere (w_hw w) h) w.
Proof.
  intros Hs Hw. eapply wp_mono; [by apply (triple_Init s Hs w)| |done].
  intros [s' ok] w' [Hf H]. by split.
Qed.

(** C15: INSTALL persists the request.  ProcessInstall only writes the boot
    metadata pages and at every instruction the current record is the old one or
    the installation request for the session; ACK means that the session is
    ARTIFACT_READY for the update id of the packet, that the Incoming partition
    starts with the container magic, that the current record is the request and
    that a reset is pending; without ACK no reset is requested. *)
Theorem ProcessInstall_requests request response s w :
  session_typed s -> erases_detected ->
  wp (ProcessInstall request response s)
    (fun '(s', r) w' =>
       frame nowhere in_boot_metadata (w_hw w) (w_hw w') /\ install_or_same s (w_hw w) (w_hw w') /\
       (op_command r = OTA_CMD_ACK ->
          se_state s = state_word UPDATE_ARTIFACT_READY /\ op_update_id request = se_update_id s /\
          se_target_version s <> 0 /\
          GetU32Le (nor_slice (w_hw w') EXT_INCOMING_ADDRESS 4) = FW_CONTAINER_MAGIC /\
          se_reset_pending s' = 1 /\
          exists m, current_metadata (w_hw w') = Some m /\ requested_install s m) /\
       (op_command r <> OTA_CMD_ACK -> se_reset_pending s' = se_reset_pending s))
    (fun h => frame nowhere in_boot_metadata (w_hw w) h /\ install_or_same s (w_hw w) h) w.
Proof.
  intros Hs He.
  eapply wp_mono; [by apply (wp_ProcessInstall request response s w)| |done].
  intros [s' r] w' H. exact H.
Qed.

End resume.
