(* ===== verification/StartAbort.v ===== *)
(** * StartAbort: the two ends of a download session

    START accepts exactly the artifacts the bootloader could take and leaves an
    empty transfer that is backed by a checkpoint; ABORT forgets the transfer
    and its checkpoint, and nothing else. *)

From S2P Require Import Prelude Bytes MemoryMap Crc32 AbRecord BootMetadata.
From S2P Require Import DownloadCheckpoint UpdateHandoff.
From S2P Require Import Device Logic SpiFlash ExternalFlashStorage AbStorage SectorRecords.
From S2P Require Import MetadataStorage TrialBoot Recovery FirmwareContainer Chunks.
From S2P Require Import TrialConfirmation.
From S2P Require Import Buffer OtaPacket OtaResponse OtaReceiver Reception Download Resume.

Section start_abort.
Context {HW : Hw}.
Implicit Types w : World HW.
Implicit Types s : OtaReceiverSession_t.

(** ** START *)

(** The requests START accepts. *)
Record start_accepted (request : OtaPacket_t) s : Prop := {
  sa_length : op_payload_length request = OTA_START_PAYLOAD_SIZE;
  sa_state : se_state s = state_word UPDATE_IDLE \/ se_state s = state_word UPDATE_FAILED \/
    se_state s = state_word UPDATE_RECEIVING;
  sa_storage : se_storage_ready s <> 0;
  sa_update_id : op_update_id request <> 0;
  sa_type : (byte_at (op_payload request) 0 = FW_IMAGE_FULL /\ GetU32Le (drop 4 (op_payload request)) = 0) \/
    (byte_at (op_payload request) 0 = FW_IMAGE_DELTA /\
     GetU32Le (drop 4 (op_payload request)) = APPLICATION_VERSION);
  sa_container : GetU16Le (drop 2 (op_payload request)) = FW_CONTAINER_FORMAT_VERSION;
  sa_size : FW_CONTAINER_HEADER_SIZE + FW_ECDSA_P256_RAW_SIGNATURE_SIZE <
    GetU32Le (drop 12 (op_payload request)) <= EXT_INCOMING_SIZE;
  sa_version : APPLICATION_VERSION < GetU32Le (drop 8 (op_payload request));
  sa_header : GetU32Le (drop 20 (op_payload request)) = FW_CONTAINER_HEADER_SIZE
}.

(** The session names the artifact of the request. *)
Definition started_by (request : OtaPacket_t) s : Prop :=
  se_state s = state_word UPDATE_RECEIVING /\ se_update_id s = op_update_id request /\
  se_target_version s = GetU32Le (drop 8 (op_payload request)) /\
  se_expected_size s = GetU32Le (drop 12 (op_payload request)) /\
  se_artifact_crc32 s = GetU32Le (drop 16 (op_payload request)) /\
  se_expected_sequence s = 0 /\ se_next_offset s = 0.

Definition start_post (request : OtaPacket_t) s (x : OtaReceiverSession_t * OtaPacket_t) w : Prop :=
  (se_last_status (fst x) = OTA_STATUS_OK -> start_accepted request s /\ started_by request (fst x) /\
     transfer (w_hw w) (fst x) [] /\ backed (w_hw w) (fst x) []) /\
  (se_last_status (fst x) <> OTA_STATUS_OK -> same_transfer s (fst x) \/ ~ active (fst x)) /\
  (start_accepted request s -> se_last_status (fst x) = OTA_STATUS_OK \/
     se_last_status (fst x) = OTA_STATUS_STORAGE_ERROR).

Lemma start_nack request status detail response s w :
  is_byte status -> status <> OTA_STATUS_OK ->
  (start_accepted request s -> status = OTA_STATUS_STORAGE_ERROR) ->
  start_post request s (Nack request status detail response s) w.
Proof.
  intros Hb Hne Hst. unfold start_post, Nack. cbv zeta. cbn [fst].
  assert (Hs : se_last_status (SetSessionStatus status detail s) = status) by (cbn; by rewrite u8_small).
  rewrite Hs. split; [done|]. split; [|by intros ?%Hst; right]. intros _. left. by repeat split.
Qed.

Lemma checkpoint_of_status state offset status detail p s r :
  checkpoint_of state offset s r ->
  checkpoint_of state offset (SetSessionStatus status detail (se_set_persisted_offset p s)) r.
Proof. intros H. exact H. Qed.

Lemma triple_ProcessStart_spec request response s :
  packet_wf request -> packet_typed response -> session_typed s ->
  triple in_ext_metadata nowhere (fun _ => True) (ProcessStart request response s)
    (start_post request s).
Proof.
  intros Hq Hr Hs. pose proof (pw_typed _ Hq) as Hqt.
  unfold ProcessStart. cbv zeta.
  assert (Hrefuse : forall status detail, is_byte status -> status <> OTA_STATUS_OK ->
    (start_accepted request s -> status = OTA_STATUS_STORAGE_ERROR) ->
    triple in_ext_metadata nowhere (fun _ => True) (ret (Nack request status detail response s))
      (start_post request s)).
  { intros. apply triple_ret. intros w _. by apply start_nack. }
  apply triple_if; intros E1; [apply Hrefuse; [done..|]; to_prop; by intros []|].
  apply triple_if; intros E2; [apply Hrefuse; [done..|]; to_prop; intros []; tauto|].
  apply triple_if; intros E3.
  { eapply triple_post; [apply triple_NackSpi|]. intros x w [_ [st ->]]. by apply start_nack. }
  apply triple_if; intros E4; [apply Hrefuse; [done..|]; to_prop; by intros []|].
  apply triple_if; intros E5; [apply Hrefuse; [done..|]; to_prop; intros []; tauto|].
  apply triple_if; intros E6; [apply Hrefuse; [done..|]; to_prop; by intros []|].
  apply triple_if; intros E7; [apply Hrefuse; [done..|]; to_prop; intros []; lia|].
  apply triple_if; intros E8; [apply Hrefuse; [done..|]; to_prop; intros []; unfold APPLICATION_VERSION in *; lia|].
  apply triple_if; intros E9; [apply Hrefuse; [done..|]; to_prop; by intros []|].
  apply triple_if; intros E10.
  { apply Hrefuse; [done..|]; to_prop; intros [].
    unfold APPLICATION_VERSION, FW_IMAGE_FULL, FW_IMAGE_DELTA in *; lia. }
  apply triple_if; intros E11.
  { apply Hrefuse; [done..|]; to_prop; intros [].
    unfold APPLICATION_VERSION, FW_IMAGE_FULL, FW_IMAGE_DELTA in *; lia. }
  to_prop. pose proof (BeginTransfer_typed request s Hqt Hs) as Hb.
  eapply triple_bind; [by apply triple_Persist|]. intros [s1 st].
  destruct (bool_decide_reflect (st <> STORAGE_OK)) as [Hst|Hst]; apply triple_ret; intros w (Hs1 & Heq & Hok).
  - split; [discriminate|]. split; [|by right]. intros _. right. by intros [Ha|Ha].
  - apply dec_stable in Hst. destruct (Hok Hst) as [_ Hcur].
    split; [|split; [by intros Hne; destruct Hne|by left]]. intros _.
    assert (Hacc : start_accepted request s).
    { split; first [tauto|lia]. }
    split; [exact Hacc|]. unfold Ack. cbv zeta. cbn [fst].
    split; [unfold started_by; rewrite Heq; by repeat split|].
    pose proof (sa_size _ _ Hacc) as Hsize.
    assert (Hmin : 0 <= FW_CONTAINER_HEADER_SIZE + FW_ECDSA_P256_RAW_SIGNATURE_SIZE) by done.
    split; [eapply begin_transfer; [exact Heq|lia]|].
    destruct Hcur as (r & Hcur & Hof). exists r, 0. split; [exact Hcur|]. split; [|by cbn].
    rewrite Heq. by apply checkpoint_of_status.
Qed.

(** ** ABORT *)

Lemma triple_Clear_spec :
  triple in_ext_metadata nowhere (fun _ => True) DownloadCheckpointStorage_Clear
    (fun st w => st = STORAGE_OK -> exists r, current_checkpoint (w_hw w) = Some r /\
       dc_state r = checkpoint_state_word DOWNLOAD_CHECKPOINT_IDLE).
Proof.
  unfold DownloadCheckpointStorage_Clear. intros w _. apply wp_bind.
  eapply wp_mono; [apply (wp_Commit (R := DownloadCheckpointRecord_t) (Q := UpdateHandoffRecord_t)
    CHECKPOINT_RECORD_OFFSET EXT_METADATA_HANDOFF_OFFSET); [done|done|cbn; lia|done|]| |].
  - repeat constructor; vm_compute; congruence.
  - intros [[status r] slot] w' [Hf Hok]. apply wp_ret.
    split; [eapply frame_mono; [|done|exact Hf]; apply sector_in_metadata|]. intros Hst.
    destruct (Hok Hst) as (_ & _ & Hcur). eexists. split; [exact Hcur|]. reflexivity.
  - intros h Hf. eapply frame_mono; [|done|exact Hf]. apply sector_in_metadata.
Qed.

Definition abort_post (request : OtaPacket_t) s (x : OtaReceiverSession_t * OtaPacket_t) w : Prop :=
  (se_last_status (fst x) = OTA_STATUS_OK ->
     se_state (fst x) = state_word UPDATE_IDLE /\ se_update_id (fst x) = 0 /\
     exists r, current_checkpoint (w_hw w) = Some r /\
       dc_state r = checkpoint_state_word DOWNLOAD_CHECKPOINT_IDLE) /\
  (se_last_status (fst x) <> OTA_STATUS_OK -> same_transfer s (fst x) /\
     se_next_offset (fst x) = se_next_offset s).

Lemma triple_ProcessAbort_spec request response s :
  triple in_ext_metadata nowhere (fun _ => True) (ProcessAbort request response s) (abort_post request s).
Proof.
  unfold ProcessAbort. apply triple_if; intros _.
  { apply triple_ret. intros w _. split; [discriminate|]. intros _. by repeat split. }
  unfold ClearDownloadCheckpoint. eapply (triple_bind _ _ _ _ (fun x w =>
    fst x = se_set_persisted_offset (se_persisted_offset (fst x)) s /\ (snd x = STORAGE_OK ->
      exists r, current_checkpoint (w_hw w) = Some r /\
        dc_state r = checkpoint_state_word DOWNLOAD_CHECKPOINT_IDLE))).
  - eapply triple_bind; [apply triple_Clear_spec|]. intros st. apply triple_ret. intros w Hw.
    cbn [fst snd]. split; [|exact Hw]. case_if; by destruct s.
  - intros [s1 st]. cbn [fst snd].
    destruct (bool_decide_reflect (st <> STORAGE_OK)) as [Hst|Hst]; apply triple_ret; intros w [Heq Hw].
    + split; [discriminate|]. intros _. cbn [fst Nack]. rewrite Heq. by repeat split.
    + apply dec_stable in Hst. split; [|by intros Hne; destruct Hne]. intros _.
      split; [done|]. split; [done|]. exact (Hw Hst).
Qed.

(** ** Properties *)

(** The command of an answer tells its status. *)
Lemma answer_ack request x :
  answers request x -> op_command (snd x) = OTA_CMD_ACK <-> se_last_status (fst x) = OTA_STATUS_OK.
Proof.
  destruct x as [s r]. intros (_ & _ & _ & _ & _ & Hc). cbn [fst snd]. rewrite Hc.
  destruct (Z.eqb_spec (se_last_status s) OTA_STATUS_OK); by split.
Qed.

Lemma answers_of_packet request data x w : packet_post request data x w -> answers request x.
Proof. by intros [H _]. Qed.

(** C17: START accepts exactly the acceptable artifacts.  ProcessStart only
    writes the external metadata sectors; ACK means that the request satisfies
    every rule (payload length, state, update id, type with its base version,
    container version, size limits, newer version, header size), that the
    session names that artifact, and that it is an empty transfer backed by the
    current checkpoint; a request that satisfies the rules is refused only for a
    storage error; a refusal keeps the old transfer or leaves none. *)
Theorem ProcessStart_begins request response s data w :
  packet_wf request -> packet_typed response -> receiver_inv (w_hw w) s data ->
  wp (ProcessStart request response s)
    (fun '(s', r) w' =>
       frame in_ext_metadata nowhere (w_hw w) (w_hw w') /\
       (op_command r = OTA_CMD_ACK -> start_accepted request s /\ started_by request s' /\
          transfer (w_hw w') s' [] /\ backed (w_hw w') s' []) /\
       (op_command r <> OTA_CMD_ACK -> same_transfer s s' \/ ~ active s') /\
       (start_accepted request s ->
          op_command r = OTA_CMD_ACK \/ se_last_status s' = OTA_STATUS_STORAGE_ERROR))
    (fun h => frame in_ext_metadata nowhere (w_hw w) h) w.
Proof.
  intros Hq Hr Hi. eapply wp_mono; [apply wp_and;
    [by apply (triple_ProcessStart_spec request response s Hq Hr (proj1 Hi) w I)
    |by apply (triple_ProcessStart request response s data Hq Hr w Hi)]| |by intros h []].
  intros [s' r] w' [[Hf (H1 & H2 & H3)] [_ Hp]]. pose proof (answer_ack _ _ (answers_of_packet _ _ _ _ Hp)) as Ha.
  cbn [fst snd] in *. rewrite <- Ha in *. by split_and!.
Qed.

(** C18: ABORT forgets the transfer.  ProcessAbort only writes the external
    metadata sectors, so the current boot metadata stays; ACK means that the
    session is IDLE with no update id and that the current checkpoint is IDLE;
    otherwise the session keeps its transfer. *)
Theorem ProcessAbort_clears request response s data w :
  packet_wf request -> packet_typed response -> receiver_inv (w_hw w) s data ->
  wp (ProcessAbort request response s)
    (fun '(s', r) w' =>
       frame in_ext_metadata nowhere (w_hw w) (w_hw w') /\
       current_metadata (w_hw w') = current_metadata (w_hw w) /\
       (op_command r = OTA_CMD_ACK ->
          se_state s' = state_word UPDATE_IDLE /\ se_update_id s' = 0 /\
          exists c, current_checkpoint (w_hw w') = Some c /\
            dc_state c = checkpoint_state_word DOWNLOAD_CHECKPOINT_IDLE) /\
       (op_command r <> OTA_CMD_ACK -> same_transfer s s' /\ se_next_offset s' = se_next_offset s))
    (fun h => frame in_ext_metadata nowhere (w_hw w) h) w.
Proof.
  intros Hq Hr Hi. eapply wp_mono; [apply wp_and;
    [by apply (triple_ProcessAbort_spec request response s w I)
    |by apply (triple_ProcessAbort request response s data Hq Hr w Hi)]| |by intros h []].
  intros [s' r] w' [[Hf (H1 & H2)] [_ Hp]]. pose proof (answer_ack _ _ (answers_of_packet _ _ _ _ Hp)) as Ha.
  cbn [fst snd] in *. rewrite <- Ha in *. split; [exact Hf|]. split; [|by split].
  by apply (current_metadata_frame _ _ _ _ Hf nowhere_off_metadata).
Qed.

End start_abort.
