(* ===== verification/OtaAgent.v ===== *)
(** * OtaAgent: node-stm32f103/application/src/ota_agent.c

    The polling loop of the application: bytes from the UART into the parser,
    packets into the receiver, answers back to the UART.  The bytes
    Uart_ReadByte returns during one call are an argument, as are the contents
    of the uninitialised locals; the frames handed to Uart_Write, whose result
    the source ignores, and a requested reset are results. *)

From S2P Require Import Prelude Bytes MemoryMap Crc32 BootMetadata Device Logic.
From S2P Require Import UpdateHandoff SpiFlash ExternalFlashStorage AbStorage SectorRecords.
From S2P Require Import BackupImageStorage MetadataStorage TrialBoot FirmwareContainer.
From S2P Require Import Chunks Recovery.
From S2P Require Import TrialConfirmation Buffer Cobs OtaPacket OtaParser OtaLink.
From S2P Require Import OtaResponse.
From S2P Require Import OtaReceiver Reception Download.

(** What a pass of the loop finds in its local variables: [request],
    [response], [raw] of the parser, [raw] and [encoded] of SendPacket. *)
Record Locals := mkLocals {
  lo_request : OtaPacket_t;
  lo_response : OtaPacket_t;
  lo_parser_raw : list Z;
  lo_raw : list Z;
  lo_encoded : list Z
}.

(** The file-scope variables of the agent, the receiver and the trial. *)
Record OtaAgent := mkOtaAgent {
  g_parser : OtaParser_t;
  g_last_rx_overflow_count : Z;
  ag_session : OtaReceiverSession_t;
  ag_trial : TrialState
}.

Section ota_agent.
Context {HW : Hw}.
Implicit Types w : World HW.

(** [(void)SendPacket(&response)]: what reaches Uart_Write. *)
Definition sent_frames (l : Locals) (response : OtaPacket_t) : list (list Z) :=
  match SendPacket (lo_raw l) (lo_encoded l) response with Some frame => [frame] | None => [] end.

(** The answer to a packet whose CRC is wrong. *)
Definition CrcErrorResponse (l : Locals) (request : OtaPacket_t) (s : OtaReceiverSession_t) : OtaPacket_t :=
  OtaResponse_BuildNack request OTA_STATUS_PACKET_CRC_ERROR (OtaReceiver_GetResponseInfo s) (lo_response l).

(** One pass: the agent, the frames sent, and whether the code resets. *)
Definition OtaAgent_Byte (l : Locals) (byte : Z) (a : OtaAgent) : M HW (OtaAgent * list (list Z) * bool) :=
  let '(parser, request, event) :=
    OtaParser_PushByte (lo_parser_raw l) (g_parser a) byte (lo_request l) in
  match event with
  | OTA_PARSER_EVENT_PACKET =>
      r <- OtaReceiver_ProcessPacket request (lo_response l) (ag_trial a) (ag_session a) ;;
      let '(t, (s, response)) := r in
      ret (mkOtaAgent parser (g_last_rx_overflow_count a) s t, sent_frames l response,
           OtaReceiver_ShouldReset s)
  | OTA_PARSER_EVENT_PACKET_CRC_ERROR =>
      ret (mkOtaAgent parser (g_last_rx_overflow_count a) (ag_session a) (ag_trial a),
           sent_frames l (CrcErrorResponse l request (ag_session a)), false)
  | _ => ret (mkOtaAgent parser (g_last_rx_overflow_count a) (ag_session a) (ag_trial a), [], false)
  end.

(** The loop, over the bytes Uart_ReadByte returns until it returns false. *)
Fixpoint OtaAgent_Loop (input : list (Z * Locals)) (a : OtaAgent) : M HW (OtaAgent * list (list Z) * bool) :=
  match input with
  | [] => ret (a, [], false)
  | (byte, l) :: input =>
      r <- OtaAgent_Byte l byte a ;;
      let '(a, frames, reset) := r in
      if (reset : bool) then ret (a, frames, true) else
      r <- OtaAgent_Loop input a ;;
      let '(a, frames', reset) := r in
      ret (a, frames ++ frames', reset)
  end.

Definition OtaAgent_Process (overflow_count : Z) (input : list (Z * Locals)) (a : OtaAgent)
    : M HW (OtaAgent * list (list Z) * bool) :=
  let a :=
    if overflow_count <>? g_last_rx_overflow_count a
    then mkOtaAgent (OtaParser_Reset (g_parser a)) overflow_count (ag_session a) (ag_trial a) else a in
  OtaAgent_Loop input a.

(** Uart_Init always succeeds; the result of OtaReceiver_Init is ignored. *)
Definition OtaAgent_Init (a : OtaAgent) : M HW (OtaAgent * bool) :=
  r <- OtaReceiver_Init (ag_session a) ;;
  let '(s, _) := r in
  ret (mkOtaAgent (OtaParser_Init (g_parser a)) 0 s (ag_trial a), true).

(** ** What the agent promises *)

Record locals_ok (l : Locals) : Prop := {
  lk_request : packet_typed (lo_request l);
  lk_response : packet_typed (lo_response l);
  lk_parser_raw : bytes_ok (lo_parser_raw l);
  lk_parser_raw_size : len (lo_parser_raw l) = OTA_PACKET_MAX_RAW_SIZE;
  lk_raw_size : len (lo_raw l) = OTA_PACKET_MAX_RAW_SIZE;
  lk_encoded_size : len (lo_encoded l) = OTA_MAX_ENCODED_FRAME + 1
}.

Definition agent_inv (h : hw) (a : OtaAgent) : Prop :=
  parser_wf (g_parser a) /\ exists data, receiver_inv h (ag_session a) data.

(** A frame every idle parser delivers as the answer [p]. *)
Definition answer_frame (frame : list Z) : Prop :=
  exists p bytes, frame = bytes ++ [0] /\ packet_wf p /\
    (op_command p = OTA_CMD_ACK \/ op_command p = OTA_CMD_NACK) /\
    Forall (fun x => 0 < x < 2 ^ 8) bytes /\ len bytes <= OTA_MAX_ENCODED_FRAME /\ carries p bytes.

Definition delimiters (input : list (Z * Locals)) : nat :=
  length (filter (fun x => x.1 = 0) input).

Lemma sent_frames_ok l p :
  locals_ok l -> packet_wf p -> op_command p = OTA_CMD_ACK \/ op_command p = OTA_CMD_NACK ->
  exists frame, sent_frames l p = [frame] /\ answer_frame frame.
Proof.
  intros Hl Hp Hc.
  destruct (SendPacket_frame p (lo_raw l) (lo_encoded l) Hp (lk_raw_size l Hl) (lk_encoded_size l Hl))
    as (bytes & Hs & Hnz & Hlen & Hcar).
  unfold sent_frames. rewrite Hs. exists (bytes ++ [0]). split; [done|].
  exists p, bytes. split_and!; try done. apply Hlen.
Qed.

Lemma answers_command request x :
  answers request x -> op_command (snd x) = OTA_CMD_ACK \/ op_command (snd x) = OTA_CMD_NACK.
Proof.
  destruct x as [s r]. intros (_ & _ & _ & _ & _ & H). cbn [snd]. rewrite H. case_if; auto.
Qed.

Lemma CrcErrorResponse_wf l request s :
  locals_ok l -> packet_typed request -> session_typed s ->
  packet_wf (CrcErrorResponse l request s) /\ op_command (CrcErrorResponse l request s) = OTA_CMD_NACK.
Proof.
  intros Hl Hq Hs. destruct (BuildStatus_wf request OTA_STATUS_PACKET_CRC_ERROR
    (OtaReceiver_GetResponseInfo s) (lo_response l) Hq (lk_response l Hl) (GetResponseInfo_typed s Hs))
    as (H1 & H2 & _). by split.
Qed.

(** One byte. *)
Lemma triple_Byte l byte a :
  locals_ok l -> is_byte byte ->
  triple packet_nor in_boot_metadata (fun w => agent_inv (w_hw w) a) (OtaAgent_Byte l byte a)
    (fun '(a', frames, _) w => agent_inv (w_hw w) a' /\ Forall answer_frame frames /\
       (length frames <= if (byte =? 0)%Z then 1 else 0)%nat).
Proof.
  intros Hl Hb w [Hp [data Hi]]. unfold OtaAgent_Byte.
  pose proof (PushByte_wf (lo_parser_raw l) (lk_parser_raw l Hl) (g_parser a) byte (lo_request l)
    Hp (lk_request l Hl) Hb) as (H1 & H2 & _).
  pose proof (PushByte_packet (lo_parser_raw l) (lk_parser_raw l Hl) (lk_parser_raw_size l Hl)
    (g_parser a) byte (lo_request l)) as Hpk.
  pose proof (PushByte_none (lo_parser_raw l) (g_parser a) byte (lo_request l)) as Hnone.
  destruct (OtaParser_PushByte _ _ _ _) as [[parser request] event]. cbn [fst snd] in *.
  assert (Hquiet : wp (ret (mkOtaAgent parser (g_last_rx_overflow_count a) (ag_session a) (ag_trial a),
    [] : list (list Z), false))
    (fun x w' => frame packet_nor in_boot_metadata (w_hw w) (w_hw w') /\
       let '(a', frames, _) := x in agent_inv (w_hw w') a' /\ Forall answer_frame frames /\
       (length frames <= if (byte =? 0)%Z then 1 else 0)%nat)
    (fun h => frame packet_nor in_boot_metadata (w_hw w) h) w).
  { apply wp_ret. split; [apply frame_refl|]. split; [split; [exact H1|by exists data]|].
    split; [constructor|]. cbn [length]. lia. }
  destruct event; [exact Hquiet| |exact Hquiet|].
  - assert (byte = 0) as -> by (destruct (Z.eq_dec byte 0) as [|Hne]; [done|by apply Hnone in Hne]).
    destruct (Hpk _ _ Hp (lk_request l Hl) eq_refl) as [Hq _].
    apply wp_bind. eapply wp_mono; [by apply (triple_ProcessPacket request (lo_response l)
      (ag_trial a) (ag_session a) data Hq (lk_response l Hl) w)| |done].
    intros [t [s r]] w' [Hf [Ha (data' & Hd & _)]]. apply wp_ret. split; [exact Hf|].
    destruct (sent_frames_ok l r Hl (proj1 (proj2 Ha)) (answers_command _ _ Ha)) as (frame & -> & Hfr).
    split; [split; [exact H1|by exists data']|]. split; [by apply Forall_singleton|]. done.
  - assert (byte = 0) as -> by (destruct (Z.eq_dec byte 0) as [|Hne]; [done|by apply Hnone in Hne]).
    apply wp_ret. split; [apply frame_refl|].
    destruct (CrcErrorResponse_wf l request (ag_session a) Hl H2 (proj1 Hi)) as [Hw Hc].
    destruct (sent_frames_ok l _ Hl Hw (or_intror Hc)) as (frame & -> & Hfr).
    split; [split; [exact H1|by exists data]|]. split; [by apply Forall_singleton|]. done.
Qed.

Definition input_ok (input : list (Z * Locals)) : Prop :=
  Forall (fun x => is_byte (fst x) /\ locals_ok (snd x)) input.

Lemma triple_Loop input : forall a,
  input_ok input ->
  triple packet_nor in_boot_metadata (fun w => agent_inv (w_hw w) a) (OtaAgent_Loop input a)
    (fun '(a', frames, _) w => agent_inv (w_hw w) a' /\ Forall answer_frame frames /\
       (length frames <= delimiters input)%nat).
Proof.
  induction input as [|[byte l] input IH]; intros a Hin; cbn [OtaAgent_Loop].
  - apply triple_ret. intros w Ha. split; [exact Ha|]. split; [constructor|done].
  - apply Forall_cons in Hin as [[Hb Hl] Hin].
    assert (Hcount : delimiters ((byte, l) :: input) =
      ((if (byte =? 0)%Z then 1 else 0) + delimiters input)%nat).
    { unfold delimiters. rewrite filter_cons. cbn [fst].
      destruct (Z.eqb_spec byte 0), (decide (byte = 0)); done. }
    rewrite Hcount.
    eapply triple_bind; [by apply triple_Byte|]. intros [[a1 frames1] reset]. cbn [fst snd].
    apply triple_if; intros _.
    + apply triple_ret. intros w (H1 & H2 & H3). split; [exact H1|]. split; [exact H2|lia].
    + apply (triple_pure _ _ _ (Forall answer_frame frames1 /\
        (length frames1 <= if (byte =? 0)%Z then 1 else 0)%nat)); [by intros w (_ & H2 & H3)|].
      intros [Hf1 Hc1].
      eapply triple_bind; [eapply triple_pre; [by apply (IH a1)|by intros w []]|].
      intros [[a2 frames2] reset2]. apply triple_ret. intros w (H1 & H2 & H3).
      split; [exact H1|]. split; [by apply Forall_app_2|]. rewrite length_app. lia.
Qed.

(** ** A frame is a call *)

(** The agent with another parser state. *)
Definition with_parser (a : OtaAgent) (parser : OtaParser_t) : OtaAgent :=
  mkOtaAgent parser (g_last_rx_overflow_count a) (ag_session a) (ag_trial a).

Lemma Loop_quiet l byte input a a' w :
  OtaAgent_Byte l byte a = ret (a', [], false) ->
  OtaAgent_Loop ((byte, l) :: input) a w = OtaAgent_Loop input a' w.
Proof.
  intros Hb. cbn [OtaAgent_Loop]. rewrite Hb. unfold bind, ret.
  destruct (OtaAgent_Loop input a' w) as [w' [[[a2 f2] r2]| |]]; reflexivity.
Qed.

Lemma Loop_last l byte a w :
  OtaAgent_Loop [(byte, l)] a w = OtaAgent_Byte l byte a w.
Proof.
  cbn [OtaAgent_Loop]. unfold bind, ret.
  destruct (OtaAgent_Byte l byte a w) as [w' [[[a2 f2] []]| |]]; try reflexivity.
  by rewrite app_nil_r.
Qed.

Lemma Loop_collect frame : forall ls bs a rest,
  length ls = length frame -> collected (g_parser a) bs ->
  Forall (fun x => 0 < x < 2 ^ 8) frame -> len bs + len frame <= OTA_MAX_ENCODED_FRAME ->
  exists parser', collected parser' (bs ++ frame) /\
    forall w, OtaAgent_Loop (zip frame ls ++ rest) a w = OtaAgent_Loop rest (with_parser a parser') w.
Proof.
  induction frame as [|b frame IH]; intros ls bs a rest Hls Hc Hf Hl.
  { exists (g_parser a). rewrite app_nil_r. split; [done|]. by destruct a. }
  destruct ls as [|l ls]; [discriminate|]. injection Hls as Hls.
  apply Forall_cons in Hf as [Hb Hf]. cbn [length] in Hl.
  destruct (PushByte_collect (lo_parser_raw l) (g_parser a) bs b (lo_request l) Hc ltac:(lia) ltac:(lia))
    as (p1 & E1 & H1).
  destruct (IH ls (bs ++ [b]) (with_parser a p1) rest Hls H1 Hf) as (p2 & H2 & E2).
  { rewrite length_app. cbn [length]. lia. }
  exists p2. split; [by rewrite <- app_assoc in H2|]. intros w. cbn [zip zip_with app].
  rewrite (Loop_quiet l b (zip frame ls ++ rest) a (with_parser a p1)); [apply E2|].
  unfold OtaAgent_Byte. by rewrite E1.
Qed.

(** ** Properties *)

(** C20: Whatever arrives, the agent is safe.  For every sequence of bytes and
    every contents of the uninitialised locals, OtaAgent_Process writes nothing
    outside the external metadata, the Incoming partition and the boot metadata
    pages, wherever power fails; the parser stays well-formed and the
    acknowledged bytes stay stored; every frame it sends carries a well-formed
    ACK or NACK packet that a parser delivers, and there is at most one for each
    delimiter received. *)
Theorem OtaAgent_Process_safe overflow_count input a w :
  input_ok input -> agent_inv (w_hw w) a ->
  wp (OtaAgent_Process overflow_count input a)
    (fun '(a', frames, _) w' =>
       frame packet_nor in_boot_metadata (w_hw w) (w_hw w') /\ agent_inv (w_hw w') a' /\
       Forall answer_frame frames /\ (length frames <= delimiters input)%nat)
    (fun h => frame packet_nor in_boot_metadata (w_hw w) h) w.
Proof.
  intros Hin [Hp Hi]. unfold OtaAgent_Process. cbv zeta.
  match goal with |- wp (OtaAgent_Loop input ?x) _ _ _ => set (a1 := x) end.
  assert (Ha : agent_inv (w_hw w) a1).
  { unfold a1. case_if; (split; [|exact Hi]); [by apply Reset_wf|exact Hp]. }
  eapply wp_mono; [by apply (triple_Loop input a1 Hin w Ha)| |done].
  intros [[a' frames] reset] w' [Hf (H1 & H2 & H3)]. by split_and!.
Qed.

(** C21: A frame is one call.  For an idle parser and the frame of a well-formed
    packet, the loop over the bytes of the frame is, on every world, the single
    call of OtaReceiver_ProcessPacket with that packet, one answer frame, and
    the reset it asks for. *)
Theorem OtaAgent_frame_is_call p raw encoded frame ls a :
  packet_wf p -> len raw = OTA_PACKET_MAX_RAW_SIZE -> len encoded = OTA_MAX_ENCODED_FRAME + 1 ->
  SendPacket raw encoded p = Some frame ->
  length ls = length frame -> Forall locals_ok ls ->
  parser_wf (g_parser a) -> parser_idle (g_parser a) ->
  exists request l parser', packet_wf request /\ same_packet p request /\ In l ls /\ parser_idle parser' /\
  forall w, OtaAgent_Loop (zip frame ls) a w =
    (r <- OtaReceiver_ProcessPacket request (lo_response l) (ag_trial a) (ag_session a) ;;
     let '(t, (s, response)) := r in
     ret (mkOtaAgent parser' (g_last_rx_overflow_count a) s t, sent_frames l response,
          OtaReceiver_ShouldReset s)) w.
Proof.
  intros Hp Hr He Hs Hls Hlk Hwf Hi.
  destruct (SendPacket_frame p raw encoded Hp Hr He) as (bytes & Hs' & Hnz & Hlen & Hcar).
  rewrite Hs in Hs'. injection Hs' as ->. rewrite length_app in Hls. cbn [length] in Hls.
  destruct ls as [|l ls _] using rev_ind; [cbn in Hls; lia|].
  rewrite length_app in Hls. cbn [length] in Hls. apply Forall_app in Hlk as [_ Hl].
  apply Forall_singleton in Hl as [Hq Hrs Hb Hsz _ _].
  destruct (Loop_collect bytes ls [] a [(0, l)] ltac:(lia) (idle_collected _ Hwf Hi) Hnz)
    as (p1 & Hc & Hloop); [cbn [length]; lia|].
  destruct (PushByte_delivers (lo_parser_raw l) p1 (lo_request l) p bytes Hsz Hc Hp ltac:(lia) Hcar)
    as (p2 & Hi2 & E).
  exists (received p (lo_request l)), l, p2. split; [by apply received_wf|].
  split; [by apply received_same; [apply pw_typed|apply pw_length|]|].
  split; [apply in_or_app; right; by left|]. split; [exact Hi2|]. intros w.
  rewrite zip_with_app by lia. cbn [zip_with]. rewrite Hloop, Loop_last. unfold OtaAgent_Byte.
  cbn [with_parser g_parser g_last_rx_overflow_count ag_session ag_trial]. by rewrite E.
Qed.

End ota_agent.
