(* ===== verification/Scenarios.v ===== *)
(** * Scenarios: the theorems at concrete inputs

    Devices of [Sim] that hold a given metadata record, a backup header and an
    erased application region, and the theorems applied to them: every
    hypothesis of the development can be met. *)

From S2P Require Import Prelude Bytes MemoryMap Crc32 AbRecord BootMetadata UpdateHandoff.
From S2P Require Import DownloadCheckpoint BackupImage BootDecision FullImage.
From S2P Require Import FirmwareContainer.
From S2P Require Import Device Sim Logic MetadataStorage ApplicationJump TrialBoot SpiFlash.
From S2P Require Import ExternalFlashStorage AbStorage SectorRecords BackupImageStorage.
From S2P Require Import ChipIdle.
From S2P Require Import Recovery Chunks DeltaEngine PatchFormat Janpatch JanpatchTheorems.
From S2P Require Import SecureContainer DeltaPatcher.
From S2P Require Import ImageInstaller CopySteps.
From S2P Require Import InstallSafety.
From S2P Require Import InstallTheorems BootManager BootSafety.

(** ** Memories with contents *)

Definition put_bytes (base : Z) (bs : list Z) (m : Z -> Z) : Z -> Z := fun a =>
  if (base <=? a) && (a <? base + len bs) then byte_at bs (a - base) else m a.

Lemma put_bytes_in base bs m i : 0 <= i < len bs -> put_bytes base bs m (base + i) = byte_at bs i.
Proof.
  intros Hi. unfold put_bytes. rewrite (proj2 (Z.leb_le _ _)), (proj2 (Z.ltb_lt _ _)) by lia.
  cbn [andb]. f_equal. lia.
Qed.

Lemma put_bytes_out base bs m a : ~ (base <= a < base + len bs) -> put_bytes base bs m a = m a.
Proof.
  intros Ha. unfold put_bytes. destruct (Z.leb_spec base a), (Z.ltb_spec a (base + len bs));
    try done. lia.
Qed.

Lemma byte_at_small bs i : bytes_ok bs -> 0 <= i < len bs -> byte_at bs i mod 2 ^ 8 = byte_at bs i.
Proof.
  intros Hok Hi. apply Z.mod_small. unfold byte_at.
  destruct (lookup_lt_is_Some_2 bs (Z.to_nat i)) as [b Hb]; [lia|].
  rewrite (nth_lookup_Some _ _ _ _ Hb). exact (proj1 (Forall_lookup _ _) Hok _ _ Hb).
Qed.

Lemma byte_at_replicate n x i : 0 <= i < Z.of_nat n -> byte_at (replicate n x) i = x.
Proof. intros Hi. unfold byte_at. apply nth_lookup_Some, lookup_replicate_2. lia. Qed.

(** The backup header of the erased image, and a device that holds it and a
    metadata record in slot A; everything else is erased. *)
Definition old_image : Image := mkImage (replicate (Z.to_nat APPLICATION_MAX_SIZE) 0xFF) 1.

Definition old_header : BackupImageRecord_t :=
  BackupImage_Finalize (BackupImage_Init 1 (crc_of (im_bytes old_image))).

Definition scenario (m : BootMetadata_t) : SimState :=
  mkSim (put_bytes EXT_BACKUP_ADDRESS (rec_encode old_header) (fun _ => 0xFF))
        (put_bytes BOOT_METADATA_A_ADDRESS (rec_encode m) (fun _ => 0xFF)) [] false None.

Lemma erased_bytes_ok : bytes_ok (im_bytes old_image).
Proof. apply Forall_replicate. done. Qed.

Lemma old_header_valid : BackupImage_validb old_header = true.
Proof.
  apply BackupImage_validb_spec, BackupImage_Validate_spec. unfold old_header.
  generalize (crc_of (im_bytes old_image)). intros c. split_and!; try reflexivity. discriminate.
Qed.

Lemma header_crc c : bk_image_crc32 (BackupImage_Finalize (BackupImage_Init 1 c)) = c.
Proof. reflexivity. Qed.

Lemma header_version c : bk_active_version (BackupImage_Finalize (BackupImage_Init 1 c)) = 1.
Proof. reflexivity. Qed.

Lemma old_header_wf : rec_wf old_header.
Proof. apply backup_header_wf; [done|]. apply crc_of_range, erased_bytes_ok. Qed.

Section scenario.
Context (m : BootMetadata_t) (Hwf : rec_wf m) (Hvalid : BootMetadata_validb m = true).
Let h : hw (Hw := SimHw) := scenario m.

Lemma scenario_flash a :
  flash h a = put_bytes BOOT_METADATA_A_ADDRESS (rec_encode m) (fun _ => 0xFF) a mod 2 ^ 8.
Proof. reflexivity. Qed.

Lemma scenario_nor a :
  nor h a = put_bytes EXT_BACKUP_ADDRESS (rec_encode old_header) (fun _ => 0xFF) a mod 2 ^ 8.
Proof. reflexivity. Qed.

Lemma scenario_slot_a : metadata_at h SLOT_A = m.
Proof using Hwf.
  unfold metadata_at. etransitivity; [|exact (rec_decode_encode m Hwf)]. f_equal.
  apply flash_slice_eq_bytes; [by rewrite rec_encode_length|]. intros i Hi.
  assert (Hl : 0 <= i < len (rec_encode m)) by by rewrite rec_encode_length.
  cbn [MetadataStorage_SlotAddress]. rewrite scenario_flash, put_bytes_in by exact Hl.
  apply byte_at_small; [auto with ota|exact Hl].
Qed.

Lemma scenario_erased a : 0 <= a < BOOT_METADATA_A_ADDRESS \/ BOOT_METADATA_B_ADDRESS <= a ->
  flash h a = 0xFF.
Proof.
  intros Ha. rewrite scenario_flash, put_bytes_out; [done|]. rewrite rec_encode_length. change (rec_size (R := _)) with 52. map_lia.
Qed.

Lemma scenario_slot_b : rec_validb (metadata_at h SLOT_B) = false.
Proof.
  unfold metadata_at.
  apply rec_erased_invalid; [auto with ota|by apply flash_slice_length|].
  unfold flash_slice. rewrite seqZ_cons by done. apply scenario_erased. right. cbn. map_lia.
Qed.

Lemma scenario_current : current_metadata h = Some m.
Proof using Hwf Hvalid.
  unfold current_metadata, ab_current. rewrite rec_newest_spec.
  rewrite scenario_slot_b, scenario_slot_a. change (rec_validb m) with (BootMetadata_validb m).
  by rewrite Hvalid.
Qed.

Lemma scenario_app : app_is old_image h.
Proof.
  unfold app_is, app_slice. apply flash_slice_eq_bytes; cbn [im_bytes old_image].
  { rewrite length_replicate. done. }
  intros i Hi. rewrite scenario_erased by (left; map_lia). symmetry. apply byte_at_replicate. lia.
Qed.

Lemma scenario_holds : holds old_image h.
Proof.
  assert (Hh : backup_header_at h = old_header).
  { unfold backup_header_at. etransitivity; [|exact (rec_decode_encode _ old_header_wf)]. apply (f_equal rec_decode).
    apply nor_slice_eq_bytes; [exact (eq_sym (rec_encode_length old_header))|]. intros i Hi.
    assert (Hl : 0 <= i < len (rec_encode old_header)) by (rewrite rec_encode_length; exact Hi).
    rewrite scenario_nor, put_bytes_in by exact Hl.
    exact (byte_at_small _ _ (rec_encode_ok old_header) Hl). }
  split; rewrite ?Hh; [exact old_header_valid|apply header_crc|apply header_version|].
  unfold backup_slice. apply nor_slice_eq_bytes; cbn [im_bytes old_image].
  { rewrite length_replicate. done. }
  intros i Hi. rewrite scenario_nor, put_bytes_out.
  - rewrite byte_at_replicate by lia. done.
  - rewrite rec_encode_length. change (rec_size (R := _)) with 28.
    unfold BACKUP_DATA_ADDRESS, BACKUP_IMAGE_DATA_OFFSET. map_lia.
Qed.

(** Every state is safe on this device at copy offset 0. *)
Lemma scenario_live s :
  bm_state m = state_word s -> bm_active_version m = 1 -> bm_copy_offset m = 0 ->
  live old_image m h.
Proof using Hwf Hvalid.
  intros Hs Hv Ho. split; [exact scenario_current|]. split; [exact Hv|]. exists s. split; [done|].
  rewrite Ho. pose proof scenario_app as Ha. pose proof scenario_holds as Hh.
  destruct s; cbn [phase_ok]; first [exact Ha|exact Hh|by left|split; [assumption|reflexivity]].
Qed.
End scenario.

(** ** Records *)

(** An update of 1000 bytes from version 1 to version 2 in a given state, and
    the idle record; both in their stored form. *)
Definition update_record (s : UpdateState_t) (attempts : Z) : BootMetadata_t :=
  BootMetadata_Finalize (mkBootMetadata 0 1 0 (state_word s) 1 2 7 1000 1000 0 attempts 0 0).
Definition idle_record : BootMetadata_t :=
  BootMetadata_Finalize (mkBootMetadata 0 1 0 (state_word UPDATE_IDLE) 1 0 0 0 0 0 0 0 0).

Definition handoff_record : UpdateHandoffRecord_t :=
  UpdateHandoff_Finalize (UpdateHandoff_Init 7 2 1000 0x12345678).
Definition checkpoint_record : DownloadCheckpointRecord_t :=
  DownloadCheckpoint_Finalize
    (DownloadCheckpoint_InitSession DOWNLOAD_CHECKPOINT_RECEIVING 7 2 100000 0x12345678 4096).

Lemma words_ok_dec ws : forallb (fun x => (0 <=? x) && (x <? 2 ^ 32)) ws = true -> words_ok ws.
Proof.
  induction ws as [|x ws IH]; cbn [forallb]; intros H; [constructor|]. to_prop.
  constructor; [by split|by apply IH].
Qed.

Ltac record_wf := apply words_ok_dec; vm_compute; reflexivity.

Lemma update_record_wf s attempts :
  is_u32 attempts -> rec_wf (update_record s attempts).
Proof.
  intros Ha. apply (BootMetadata_candidate_wf 1 (mkBootMetadata 0 1 0 (state_word s) 1 2 7 1000 1000 0 attempts 0 0));
    [done|].
  unfold rec_wf. cbn. repeat (apply Forall_cons; split); try apply Forall_nil;
    first [exact Ha|apply state_word_u32|vm_compute; split; congruence].
Qed.

Lemma idle_record_wf : rec_wf idle_record.
Proof. record_wf. Qed.

(** ** The keys of a build without secrets *)

#[export] Existing Instance unprovisioned_key.

Lemma sim_erases_detected : erases_detected (HW := SimHw).
Proof. exact sim_erase_detected. Qed.

(** ** Metadata *)

Lemma MetadataStorage_Commit_atomic_witness :
  let h : hw (Hw := SimHw) := scenario idle_record in
  let m := update_record UPDATE_ARTIFACT_READY 0 in
  rec_wf m /\ erase_detected h (target_slot h) /\ current_metadata h = Some idle_record /\
  wp (MetadataStorage_Commit (Some m))
    (fun '(status, committed, _) w' => status = METADATA_STORAGE_OK ->
       current_metadata (w_hw w') = Some (commit_candidate h m))
    (after_interruption h m) (sim_world h).
Proof.
  intros h m. assert (Hm : rec_wf m) by (apply update_record_wf; done).
  assert (He : erase_detected h (target_slot h)) by (apply sim_erase_detected, target_slot_real).
  split; [exact Hm|]. split; [exact He|].
  split; [apply scenario_current; [exact idle_record_wf|reflexivity]|].
  eapply wp_mono; [exact (MetadataStorage_Commit_atomic m (sim_world h) Hm He)| |].
  - intros [[status c] slot] w' (_ & Hok & _) Hs. exact (proj2 (Hok Hs)).
  - intros h' [_ Ha]. exact Ha.
Defined.

Lemma MetadataStorage_Commit_restores_witness :
  let m := update_record UPDATE_ARTIFACT_READY 0 in
  rec_wf m /\
  wp (MetadataStorage_Commit (HW := SimHw) (Some m))
    (fun _ w' => PRIMASK (w_ram w') = 0 /\ flash_unlocked (w_ram w') = false)
    (fun _ => True) (sim_world (scenario idle_record)).
Proof.
  intros m. assert (Hm : rec_wf m) by (apply update_record_wf; done). split; [exact Hm|].
  exact (MetadataStorage_Commit_restores m (sim_world (scenario idle_record)) Hm
    (or_introl eq_refl) eq_refl).
Defined.

(** ** Trial boot *)

Lemma TrialBoot_PrepareAttempt_persists_witness :
  let m := update_record UPDATE_TRIAL_BOOT 1 in
  let h : hw (Hw := SimHw) := scenario m in
  current_metadata h = Some m /\
  wp (TrialBoot_PrepareAttempt (Some m))
    (fun '(status, _) w' => status = TRIAL_BOOT_STATUS_OK ->
       exists c, current_metadata (w_hw w') = Some c /\ bm_boot_attempts c = 2)
    (trial_counted m) (sim_world h).
Proof.
  intros m h. assert (Hm : rec_wf m) by (apply update_record_wf; done).
  assert (Hc : current_metadata h = Some m) by (apply scenario_current; [exact Hm|reflexivity]).
  assert (He : erase_detected h (target_slot h)) by (apply sim_erase_detected, target_slot_real).
  split; [exact Hc|].
  eapply wp_mono; [exact (TrialBoot_PrepareAttempt_persists m (sim_world h) Hc Hm He eq_refl)| |intros h' H; exact H].
  intros [status c] w' (Hok & _) Hs. destruct (Hok Hs) as (r & _ & H1 & _ & H2 & _).
  exists r. split; [exact H1|exact (eq_trans H2 eq_refl)].
Defined.

Lemma TrialBoot_FinalizeConfirmation_atomic_witness :
  let m := update_record UPDATE_CONFIRMED 1 in
  let h : hw (Hw := SimHw) := scenario m in
  current_metadata h = Some m /\
  wp (TrialBoot_FinalizeConfirmation (Some m))
    (fun '(status, _) w' => status = TRIAL_BOOT_STATUS_OK ->
       exists c, current_metadata (w_hw w') = Some c /\ confirmed_idle m c)
    (fun h' => current_metadata h' = Some m \/
               exists r, current_metadata h' = Some r /\ confirmed_idle m r) (sim_world h).
Proof.
  intros m h. assert (Hm : rec_wf m) by (apply update_record_wf; done).
  assert (Hc : current_metadata h = Some m) by (apply scenario_current; [exact Hm|reflexivity]).
  assert (He : erase_detected h (target_slot h)) by (apply sim_erase_detected, target_slot_real).
  split; [exact Hc|].
  pose proof (TrialBoot_FinalizeConfirmation_atomic m (sim_world h) Hc Hm He) as Ht.
  cbv zeta in Ht. eapply wp_mono; [exact Ht| |intros h' H; exact H].
  intros [status c] w' (_ & Hok) Hs. destruct (Hok Hs) as (r & _ & H1 & H2).
  exists r. split; [exact H1|exact H2].
Defined.

(** ** The W25Q records *)

Lemma UpdateHandoffStorage_Commit_atomic_witness :
  rec_wf handoff_record /\
  wp (UpdateHandoffStorage_Commit (Some handoff_record))
    (fun '(status, committed, _) w' => status = STORAGE_OK ->
       current_handoff (w_hw w') = committed)
    (fun _ => True) (sim_world (scenario idle_record)).
Proof.
  assert (Hr : rec_wf handoff_record) by record_wf. split; [exact Hr|].
  pose proof (UpdateHandoffStorage_Commit_atomic handoff_record (sim_world (scenario idle_record)) Hr)
    as Ht. cbv zeta in Ht. eapply wp_mono; [exact Ht| |intros h' _; exact I].
  intros [[status c] slot] w' (_ & Hok) Hs. destruct (Hok Hs) as [-> H]. exact H.
Defined.

Lemma DownloadCheckpointStorage_Commit_atomic_witness :
  rec_wf checkpoint_record /\
  wp (DownloadCheckpointStorage_Commit (Some checkpoint_record))
    (fun '(status, committed, _) w' => status = STORAGE_OK ->
       current_checkpoint (w_hw w') = committed)
    (fun _ => True) (sim_world (scenario idle_record)).
Proof.
  assert (Hr : rec_wf checkpoint_record) by record_wf. split; [exact Hr|].
  pose proof (DownloadCheckpointStorage_Commit_atomic checkpoint_record (sim_world (scenario idle_record)) Hr)
    as Ht. cbv zeta in Ht. eapply wp_mono; [exact Ht| |intros h' _; exact I].
  intros [[status c] slot] w' (_ & Hok) Hs. destruct (Hok Hs) as [-> H]. exact H.
Defined.

(** ** The update *)

Lemma update_live s attempts :
  BootMetadata_validb (update_record s attempts) = true -> is_u32 attempts ->
  live old_image (update_record s attempts) (scenario (update_record s attempts)).
Proof.
  intros Hv Ha. exact (scenario_live _ (update_record_wf s attempts Ha) Hv s eq_refl eq_refl eq_refl).
Qed.

Lemma SecureContainer_Process_authentic_witness :
  let m := update_record UPDATE_ARTIFACT_READY 0 in
  let h : hw (Hw := SimHw) := scenario m in
  live old_image m h /\
  wp (SecureContainer_Process (Some m))
    (fun _ w' => safe old_image (w_hw w') /\ app_is old_image (w_hw w'))
    (safe old_image) (sim_world h).
Proof.
  intros m h. assert (Hl : live old_image m h) by (apply update_live; [reflexivity|done]). split; [exact Hl|].
  eapply wp_mono; [exact (SecureContainer_Process_authentic sim_erases_detected old_image m
    UPDATE_ARTIFACT_READY (sim_world h) eq_refl Hl eq_refl eq_refl)| |intros h' H; exact H].
  intros [status c] w' (H1 & H2 & _). split; [exact H1|exact H2].
Defined.

Lemma ImageInstaller_ProcessBasicFull_safe_witness :
  let m := update_record UPDATE_BACKING_UP 0 in
  let h : hw (Hw := SimHw) := scenario m in
  live old_image m h /\
  wp (ImageInstaller_ProcessBasicFull (Some m)) (fun _ w' => safe old_image (w_hw w'))
    (safe old_image) (sim_world h).
Proof.
  intros m h. assert (Hl : live old_image m h) by (apply update_live; [reflexivity|done]). split; [exact Hl|].
  eapply wp_mono; [exact (ImageInstaller_ProcessBasicFull_safe sim_erases_detected old_image m
    UPDATE_BACKING_UP (sim_world h) eq_refl Hl eq_refl eq_refl)| |intros h' [H _]; exact H].
  intros [status c] w' (H1 & _). exact H1.
Defined.

Lemma ImageInstaller_ProcessRollback_restores_witness :
  let m := update_record UPDATE_TRIAL_BOOT 3 in
  let h : hw (Hw := SimHw) := scenario m in
  live old_image m h /\
  wp (ImageInstaller_ProcessRollback (Some m))
    (fun '(status, _) w' => status = IMAGE_INSTALLER_OK -> app_is old_image (w_hw w'))
    (safe old_image) (sim_world h).
Proof.
  intros m h. assert (Hl : live old_image m h) by (apply update_live; [reflexivity|done]). split; [exact Hl|].
  eapply wp_mono; [exact (ImageInstaller_ProcessRollback_restores sim_erases_detected old_image m
    UPDATE_TRIAL_BOOT (sim_world h) eq_refl Hl eq_refl eq_refl)| |intros h' [H _]; exact H].
  intros [status c] w' (_ & _ & _ & Hok) Hs. destruct (Hok Hs) as (r & _ & _ & _ & _ & Ha). exact Ha.
Defined.

Lemma BootManager_Run_safe_witness :
  let h : hw (Hw := SimHw) := scenario (update_record UPDATE_TRIAL_BOOT 2) in
  safe old_image h /\
  wp (BootManager_Run 72000000) (fun e w' => boot_end old_image h e w')
    (safe_after old_image h) (sim_world h).
Proof.
  intros h. assert (Hs : safe old_image h) by (eapply live_safe; apply update_live; [reflexivity|done]).
  split; [exact Hs|].
  exact (BootManager_Run_safe sim_erases_detected old_image 72000000 (sim_world h) eq_refl Hs).
Defined.

(** ** A delta patch *)

(** The base starts with "secure boot", the patch makes "secure OTA boot" of it. *)
Definition patch_base : list Z := [115; 101; 99; 117; 114; 101; 32; 98; 111; 111; 116].
Definition patch_target : list Z := [115; 101; 99; 117; 114; 101; 32; 79; 84; 65; 32; 98; 111; 111; 116].
Definition patch_bytes : list Z := [0xA7; 0xA3; 6; 0xA7; 0xA5; 79; 84; 65; 32; 0xA7; 0xA3; 3].

Definition patched : SimState :=
  mkSim (put_bytes EXT_INCOMING_ADDRESS patch_bytes (fun _ => 0xFF))
        (put_bytes APPLICATION_START_ADDRESS patch_base (fun _ => 0xFF)) [] false None.

Definition patch_stream : JanpatchPortStream_t := mkJanpatchStream 11 0 12 15.

Lemma patch_stream_ok : stream_ok patch_stream.
Proof. split; vm_compute; repeat split; congruence. Qed.

(** The next operation of a concrete patch. *)
Ltac read_next := match goal with |- context [read_op ?p] =>
    let v := eval vm_compute in (read_op p) in change (read_op p) with v end;
  cbn [mbind option_bind].

Lemma patched_result : stream_result (HW := SimHw) patch_stream patched = Some (11, patch_target).
Proof.
  assert (Hb : forall s n, 0 <= s -> 0 <= n -> s + n <= 11 ->
    slice s n (base_of (HW := SimHw) patched) = slice s n patch_base).
  { intros s n H1 H2 H3. unfold base_of. rewrite slice_flash_slice by map_lia.
    transitivity (slice s n (flash_slice (HW := SimHw) patched APPLICATION_START_ADDRESS 11));
      [by rewrite slice_flash_slice|by vm_compute (flash_slice _ _ _)]. }
  assert (He : forall s t n, 0 <= s -> 0 < n -> s + n <= 11 -> len t + n <= 15 ->
    apply_op (base_of (HW := SimHw) patched) 11 15 (EQL n) (s, t) = Some (s + n, t ++ slice s n patch_base)).
  { intros s t n H1 H2 H3 H4. rewrite <- Hb by lia. unfold apply_op. rewrite base_len.
    by rewrite !(proj2 (Z.leb_le _ _)) by map_lia. }
  unfold stream_result. cbn [patch_stream js_base_image_size js_patch_size js_target_image_size Z.eqb orb].
  assert (patch_of (HW := SimHw) patch_stream patched = patch_bytes) as -> by by vm_compute.
  revert He. clear Hb. generalize (base_of (HW := SimHw) patched). intros base He.
  unfold patch_result, patch_bytes. cbn [length run_patch].
  read_next. rewrite (He 0 [] 7) by (cbn; lia). cbn [mbind option_bind run_patch].
  read_next. match goal with |- context [apply_op base 11 15 (INS ?l) ?x] =>
    change (apply_op base 11 15 (INS l) x) with (Some (7, [115; 101; 99; 117; 114; 101; 32] ++ l)) end.
  cbn [mbind option_bind run_patch].
  read_next. rewrite (He 7 _ 4) by (cbn; lia). reflexivity.
Qed.

Lemma JanpatchPort_ApplyStream_computes_witness :
  stream_result (HW := SimHw) patch_stream patched = Some (11, patch_target) /\
  wp (JanpatchPort_ApplyStream (Some patch_stream) None)
    (fun r w => r.1 = JANPATCH_PORT_OK ->
       nor_slice (w_hw w) EXT_RECONSTRUCTED_ADDRESS 15 = patch_target)
    (fun _ => True) (sim_world patched).
Proof.
  split; [exact patched_result|].
  pose proof (JanpatchPort_ApplyStream_computes (HW := SimHw) patch_stream None patched patch_stream_ok
    (sim_world patched) eq_refl) as H.
  eapply wp_mono; [exact H| |done].
  intros [st r] w [_ Hr] Hst. cbn [fst snd] in *. subst st. destruct Hr as (s & t & Ho & _ & Ht & _).
  rewrite patched_result in Ho. injection Ho as _ <-. exact Ht.
Defined.

(** ** An unsigned delta artifact *)

(** Eight erased bytes of base, and a patch that puts a vector table before
    them. *)
Definition delta_base : list Z := replicate 8 0xFF.
Definition delta_vector : list Z := [0x00; 0x50; 0x00; 0x20; 0x09; 0x60; 0x00; 0x08].
Definition delta_patch : list Z := [0xA7; 0xA5] ++ delta_vector ++ [0xA7; 0xA3; 7].
Definition delta_fields (base_crc : Z) : list Z :=
  PutU32Le DELTA_PATCH_MAGIC ++ PutU16Le 1 ++ PutU16Le 48 ++ PutU32Le 1 ++ PutU32Le 2 ++
  PutU32Le 8 ++ PutU32Le (len delta_patch) ++ PutU32Le 16 ++ PutU32Le APPLICATION_START_ADDRESS ++
  PutU32Le base_crc ++ PutU32Le (crc_of (delta_vector ++ delta_base)) ++ PutU32Le (crc_of delta_patch).
Definition delta_artifact (base_crc : Z) : list Z :=
  delta_fields base_crc ++ PutU32Le (crc_of (delta_fields base_crc)) ++ delta_patch.

Definition delta_record : BootMetadata_t :=
  BootMetadata_Finalize (mkBootMetadata 0 1 0 (state_word UPDATE_ARTIFACT_READY) 1 2 7 61 61 0 0 0 0).

(** The device that has received it. *)
Definition delta_device (base_crc : Z) : SimState :=
  mkSim (put_bytes EXT_INCOMING_ADDRESS (delta_artifact base_crc) (fun _ => 0xFF))
        (sim_flash (scenario delta_record)) [] false None.

(** The status, the state and size of the new record, and the rebuilt image. *)
Definition delta_run (base_crc : Z) : option (DeltaPatcherStatus_t * option (Z * Z) * list Z) :=
  match DeltaPatcher_Process (Some delta_record) (sim_world (delta_device base_crc)) with
  | (w, Ret (status, c)) =>
      Some (status, (fun c => (bm_state c, bm_expected_size c)) <$> c,
            nor_slice (w_hw w) EXT_RECONSTRUCTED_ADDRESS 16)
  | _ => None
  end.

Example delta_ready :
  delta_run (crc_of delta_base) =
  Some (DELTA_PATCHER_OK, Some (state_word UPDATE_IMAGE_READY, 16), delta_vector ++ delta_base).
Proof. vm_compute. reflexivity. Qed.

(** A patch for another base is refused before anything is erased. *)
Example delta_wrong_base :
  delta_run 0 = Some (DELTA_PATCHER_SOURCE_REJECTED, Some (state_word UPDATE_IDLE, 0), replicate 16 0xFF).
Proof. vm_compute. reflexivity. Qed.

Lemma delta_live base_crc : live old_image delta_record (delta_device base_crc : hw (Hw := SimHw)).
Proof.
  assert (Hwf : rec_wf delta_record) by record_wf.
  destruct (scenario_live delta_record Hwf eq_refl UPDATE_ARTIFACT_READY eq_refl eq_refl eq_refl) as [Hc Ha].
  assert (Hf : frame (fun _ => True) nowhere (scenario delta_record : hw (Hw := SimHw)) (delta_device base_crc))
    by (split; [by intros a []|done]).
  split; [by rewrite (current_metadata_frame _ _ _ _ Hf nowhere_off_metadata)|].
  split; [apply Ha|]. exists UPDATE_ARTIFACT_READY. split; [done|].
  eapply app_is_frame; [exact Hf|apply nowhere_off_app|]. exact (scenario_app delta_record).
Qed.

Lemma DeltaPatcher_Process_checked_witness :
  let h : hw (Hw := SimHw) := delta_device (crc_of delta_base) in
  live old_image delta_record h /\
  wp (DeltaPatcher_Process (Some delta_record))
    (fun '(status, _) w' => status = DELTA_PATCHER_OK ->
       exists header c, current_metadata (w_hw w') = Some c /\ DeltaReady delta_record c header (w_hw w'))
    (safe old_image) (sim_world h).
Proof.
  intros h. pose proof (delta_live (crc_of delta_base)) as Hl. split; [exact Hl|].
  eapply wp_mono; [exact (DeltaPatcher_Process_checked sim_erases_detected old_image delta_record
    UPDATE_ARTIFACT_READY (sim_world h) eq_refl Hl eq_refl eq_refl)| |intros h' H; exact H].
  intros [status r] w' (_ & _ & Hok & _) Hs. destruct (Hok Hs) as (header & c & _ & Hc & _ & [Hd|[_ Hn]]).
  - exists header, c. split; [exact Hc|exact Hd].
  - destruct Hn. by left.
Defined.
