(* ===== verification/DownloadScenarios.v ===== *)
(** * DownloadScenarios: the protocol theorems at concrete inputs

    A packet and a parser, and a chip whose only contents are a download
    checkpoint: the hypotheses of the theorems on the application side can be
    met, with a transfer that is under way. *)

From S2P Require Import Prelude Bytes MemoryMap Crc32 AbRecord BootMetadata.
From S2P Require Import DownloadCheckpoint.
From S2P Require Import Device Sim Logic MetadataStorage SpiFlash ExternalFlashStorage.
From S2P Require Import AbStorage SectorRecords.
From S2P Require Import FirmwareContainer TrialBoot Recovery TrialConfirmation Buffer Cobs.
From S2P Require Import OtaPacket OtaParser OtaLink.
From S2P Require Import OtaResponse OtaReceiver Reception Download Resume StartAbort.
From S2P Require Import OtaAgent.
From S2P Require Import Scenarios.

(** ** Packets and parsers *)

(** A packet of command [command] that carries [n] bytes [0xFF] for offset
    [offset]; the unused part of the array is zero. *)
Definition packet_of (command offset sequence : Z) (n : nat) : OtaPacket_t :=
  mkOtaPacket OTA_PACKET_MAGIC OTA_PROTOCOL_VERSION command 7 offset sequence (Z.of_nat n)
    (replicate n 0xFF ++ replicate (256 - n) 0) 0.

Lemma replicate_bytes_ok n x : is_byte x -> bytes_ok (replicate n x).
Proof. intros Hx. by apply Forall_replicate. Qed.

Lemma packet_of_wf command offset sequence n :
  is_byte command -> is_u32 offset -> is_u16 sequence -> (n <= 256)%nat ->
  packet_wf (packet_of command offset sequence n).
Proof.
  intros Hc Ho Hs Hn. split; [|done|done|cbn; unfold OTA_MAX_PAYLOAD_SIZE; lia].
  split; cbn; try assumption; try (by vm_compute).
  - unfold is_u16. lia.
  - rewrite length_app, !length_replicate. unfold OTA_MAX_PAYLOAD_SIZE. lia.
  - apply Forall_app. split; by apply replicate_bytes_ok.
Qed.

Lemma data_packet_wf : packet_wf (packet_of OTA_CMD_DATA 256 1 4).
Proof. apply packet_of_wf; [by vm_compute..|lia]. Qed.

Lemma finish_packet_wf : packet_wf (packet_of OTA_CMD_FINISH 0 0 0).
Proof. apply packet_of_wf; [by vm_compute..|lia]. Qed.

(** A parser in the middle of garbage. *)
Definition busy_parser : OtaParser_t := mkOtaParser (replicate 320 0x55) 320 1.

Lemma busy_parser_wf : parser_wf busy_parser.
Proof.
  split; [done|by apply replicate_bytes_ok|cbn; unfold OTA_MAX_ENCODED_FRAME; lia|by right].
Qed.

Definition raw_buffer : list Z := replicate 276 0.
Definition encoded_buffer : list Z := replicate 321 0.

Lemma raw_buffer_ok : bytes_ok raw_buffer.
Proof. by apply replicate_bytes_ok. Qed.

Lemma SendPacket_received_witness :
  packet_wf (packet_of OTA_CMD_DATA 256 1 4) /\ parser_wf busy_parser /\
  exists frame parser' packet' event,
    SendPacket raw_buffer encoded_buffer (packet_of OTA_CMD_DATA 256 1 4) = Some frame /\
    PushBytes raw_buffer busy_parser (0 :: frame) (packet_of 0 0 0 0) =
      (parser', packet',
       event :: replicate (pred (length frame)) OTA_PARSER_EVENT_NONE ++ [OTA_PARSER_EVENT_PACKET]) /\
    parser_idle parser' /\ packet_wf packet' /\ same_packet (packet_of OTA_CMD_DATA 256 1 4) packet'.
Proof.
  split; [exact data_packet_wf|]. split; [exact busy_parser_wf|].
  apply (SendPacket_received (packet_of OTA_CMD_DATA 256 1 4) raw_buffer encoded_buffer raw_buffer
    busy_parser (packet_of 0 0 0 0)).
  - exact data_packet_wf.
  - reflexivity.
  - reflexivity.
  - exact raw_buffer_ok.
  - reflexivity.
  - exact busy_parser_wf.
  - apply packet_of_wf; [by vm_compute..|lia].
Defined.

Lemma OtaParser_PushByte_checked_witness :
  parser_wf busy_parser /\
  let '(parser', packet', event) :=
    OtaParser_PushByte raw_buffer busy_parser 0 (packet_of OTA_CMD_DATA 256 1 4) in
  parser_wf parser' /\ parser_idle parser'.
Proof.
  split; [exact busy_parser_wf|].
  pose proof (OtaParser_PushByte_checked raw_buffer busy_parser 0 (packet_of OTA_CMD_DATA 256 1 4)
    raw_buffer_ok eq_refl busy_parser_wf (pw_typed _ data_packet_wf) ltac:(by vm_compute)) as H.
  destruct (OtaParser_PushByte _ _ _ _) as [[p1 q1] e]. destruct H as (H1 & _ & H2 & _).
  split; [exact H1|exact (H2 eq_refl)].
Defined.

Lemma OtaPacket_Deserialize_burst_witness :
  let p := packet_of OTA_CMD_DATA 256 1 4 in
  packet_wf p /\ packet_bytes p = take 9 (packet_bytes p) ++ [1; 0; 0] ++ drop 12 (packet_bytes p) /\
  snd (OtaPacket_Deserialize (take 9 (packet_bytes p) ++ [1; 1; 0] ++ drop 12 (packet_bytes p))
    (len (packet_bytes p)) p) <> OTA_PACKET_STATUS_OK.
Proof.
  intros p. assert (Hs : packet_bytes p = take 9 (packet_bytes p) ++ [1; 0; 0] ++ drop 12 (packet_bytes p))
    by (vm_compute; reflexivity).
  split; [exact data_packet_wf|]. split; [exact Hs|].
  apply (OtaPacket_Deserialize_burst p _ [1; 0; 0] [1; 1; 0] (drop 12 (packet_bytes p)) p).
  - exact data_packet_wf.
  - exact (pw_typed _ data_packet_wf).
  - exact Hs.
  - repeat constructor; by vm_compute.
  - cbn. lia.
  - reflexivity.
  - discriminate.
Defined.

(** The wire bytes of the DATA packet, received into a blank struct. *)
Lemma OtaPacket_Deserialize_canonical_witness :
  let p := packet_of OTA_CMD_DATA 256 1 4 in
  let q := packet_of 0 0 0 0 in
  exists p', OtaPacket_Deserialize (packet_bytes p) 24 q = (p', OTA_PACKET_STATUS_OK) /\ packet_wf p' /\
  exists buffer', OtaPacket_Serialize (Some p') (Some raw_buffer) OTA_PACKET_MAX_RAW_SIZE = (buffer', Some 24).
Proof.
  intros p q. assert (Hb : bytes_ok (packet_bytes p)) by (apply packet_bytes_ok, data_packet_wf).
  assert (Hq : packet_typed q) by (apply packet_of_wf; [by vm_compute..|lia]).
  assert (Heq : snd (OtaPacket_Deserialize (packet_bytes p) 24 q) = OTA_PACKET_STATUS_OK)
    by (vm_compute; reflexivity).
  destruct (OtaPacket_Deserialize (packet_bytes p) 24 q) as [p' st] eqn:E. cbn [snd] in Heq. subst st.
  exists p'. split; [reflexivity|].
  destruct (OtaPacket_Deserialize_canonical (packet_bytes p) 24 q p' Hb ltac:(by vm_compute) Hq E)
    as [Hp' Hs].
  split; [exact Hp'|]. destruct (Hs raw_buffer ltac:(by vm_compute)) as (buffer' & H & _).
  exists buffer'. exact H.
Defined.

(** ** A chip with a transfer under way *)

(** A device whose checkpoint names offset 0 of an artifact of [size] bytes and
    CRC [crc], with an erased Incoming partition and power for [budget]
    operations; the session on it with [n] bytes received. *)
Section receiving.
Context (size crc : Z) (budget : option nat).
Context (Hsize : 0 < size <= 8192) (Hcrc : is_u32 crc).

Definition receiving_checkpoint : DownloadCheckpointRecord_t :=
  rec_candidate 1 (DownloadCheckpoint_InitSession DOWNLOAD_CHECKPOINT_RECEIVING 7 2 size crc 0).

Definition receiving_session (n : Z) : OtaReceiverSession_t :=
  mkSession (state_word UPDATE_RECEIVING) 0 1 0 0 7 2 0 size n 0 crc 0 1 0 (n / 256) 0 0 0.

Definition checkpoint_address : Z := EXT_METADATA_A_ADDRESS + CHECKPOINT_RECORD_OFFSET.

Definition receiving_chip : SimState :=
  mkSim (put_bytes checkpoint_address (rec_encode receiving_checkpoint) (fun _ => 0xFF))
        (fun _ => 0xFF) [] false budget.

Lemma receiving_nor a :
  nor (Hw := SimHw) receiving_chip a =
  put_bytes checkpoint_address (rec_encode receiving_checkpoint) (fun _ => 0xFF) a mod 2 ^ 8.
Proof. reflexivity. Qed.

Lemma receiving_nor_erased a :
  ~ (checkpoint_address <= a < checkpoint_address + rec_size (R := DownloadCheckpointRecord_t)) ->
  nor (Hw := SimHw) receiving_chip a = 0xFF.
Proof. intros Ha. rewrite receiving_nor, put_bytes_out; [done|]. by rewrite rec_encode_length. Qed.

Lemma receiving_session_typed n : 0 <= n <= size -> session_typed (receiving_session n).
Proof using Hsize Hcrc.
  intros Hn.
  assert (Hn' : is_u32 n /\ is_u32 size) by (unfold is_u32; lia). destruct Hn'.
  assert (Hs : is_u16 (n / 256)).
  { unfold is_u16. pose proof (Z.div_le_mono n 8192 256 ltac:(lia) ltac:(lia)) as Hle.
    change (8192 / 256) with 32 in Hle. pose proof (Z.div_pos n 256). lia. }
  split; cbn [receiving_session se_state se_last_status se_storage_ready se_has_last_data
    se_reset_pending se_update_id se_target_version se_base_version se_expected_size se_next_offset
    se_persisted_offset se_artifact_crc32 se_last_error_detail se_erased_sector_bitmap
    se_last_data_offset se_expected_sequence se_last_data_sequence se_last_data_length
    se_artifact_type]; first [assumption|split; vm_compute; congruence].
Qed.

Lemma receiving_checkpoint_wf : rec_wf receiving_checkpoint.
Proof using Hsize Hcrc.
  apply (rec_candidate_wf (R := DownloadCheckpointRecord_t) 1); [done|].
  exact (InitSession_wf DOWNLOAD_CHECKPOINT_RECEIVING (receiving_session 0) 0
    (receiving_session_typed 0 ltac:(lia)) ltac:(done)).
Qed.

Lemma receiving_slot_a : checkpoint_at (HW := SimHw) receiving_chip SLOT_A = receiving_checkpoint.
Proof using Hsize Hcrc.
  unfold checkpoint_at, record_at. etransitivity; [|exact (rec_decode_encode _ receiving_checkpoint_wf)].
  apply (f_equal rec_decode), nor_slice_eq_bytes; [by rewrite rec_encode_length|]. intros i Hi.
  assert (Hl : 0 <= i < len (rec_encode receiving_checkpoint)) by by rewrite rec_encode_length.
  change (part_base (PartitionForSlot SLOT_A) + CHECKPOINT_RECORD_OFFSET) with checkpoint_address.
  rewrite receiving_nor, put_bytes_in by exact Hl.
  exact (byte_at_small _ _ (rec_encode_ok receiving_checkpoint) Hl).
Qed.

Lemma receiving_slot_b : rec_validb (checkpoint_at (HW := SimHw) receiving_chip SLOT_B) = false.
Proof.
  unfold checkpoint_at, record_at. apply rec_erased_invalid; [auto with ota|by apply nor_slice_length|].
  unfold nor_slice. rewrite seqZ_cons by done. apply receiving_nor_erased.
  change (rec_size (R := _)) with 40. unfold checkpoint_address, CHECKPOINT_RECORD_OFFSET.
  change (part_base (PartitionForSlot SLOT_B)) with EXT_METADATA_B_ADDRESS. map_lia.
Qed.

Lemma receiving_current :
  rec_validb receiving_checkpoint = true ->
  current_checkpoint (HW := SimHw) receiving_chip = Some receiving_checkpoint.
Proof using Hsize Hcrc.
  intros Hv. unfold current_checkpoint, stored_current, ab_current. rewrite rec_newest_spec.
  pose proof receiving_slot_b as Hb. pose proof receiving_slot_a as Ha. unfold checkpoint_at in *.
  rewrite Hb, Ha. clear Ha Hb. revert Hv. generalize receiving_checkpoint. intros r Hv. by rewrite Hv.
Qed.

Lemma receiving_session_ok n :
  0 <= n <= size -> n <= EXT_FLASH_SECTOR_SIZE ->
  transfer (HW := SimHw) receiving_chip (receiving_session n) (replicate (Z.to_nat n) 0xFF).
Proof using Hsize.
  intros Hn Hsec. assert (Hl : len (replicate (Z.to_nat n) 0xFF) = n) by (rewrite length_replicate; lia).
  split; rewrite Hl; cbn [receiving_session se_next_offset se_expected_size se_erased_sector_bitmap
    se_has_last_data].
  - apply nor_slice_eq_bytes; [by rewrite Hl|]. intros i Hi. rewrite byte_at_replicate by lia.
    apply receiving_nor_erased. change (rec_size (R := _)) with 40. unfold checkpoint_address, CHECKPOINT_RECORD_OFFSET.
    map_lia.
  - reflexivity.
  - map_lia.
  - intros _ k Hk Hlt. assert (k = 0) as -> by map_lia. reflexivity.
  - intros []. reflexivity.
Qed.

Lemma receiving_backed n :
  rec_validb receiving_checkpoint = true ->
  0 <= n -> backed (HW := SimHw) receiving_chip (receiving_session n) (replicate (Z.to_nat n) 0xFF).
Proof using Hsize Hcrc.
  intros Hv Hn. exists receiving_checkpoint, 0. split; [by apply receiving_current|]. split; [|lia].
  unfold checkpoint_of. by split_and!.
Qed.

End receiving.

(** 256 bytes [0xFF] of a 1000-byte artifact are received. *)
Definition artifact : list Z := replicate 1000 0xFF.
Definition artifact_crc : Z := 3763548720.

Lemma crc_of_artifact : crc_of artifact = artifact_crc.
Proof. vm_compute. reflexivity. Qed.

Definition transfer_checkpoint : DownloadCheckpointRecord_t := receiving_checkpoint 1000 artifact_crc.
Definition transfer_session : Z -> OtaReceiverSession_t := receiving_session 1000 artifact_crc.
Definition transfer_chip : SimState := receiving_chip 1000 artifact_crc None.

Lemma transfer_current : current_checkpoint (HW := SimHw) transfer_chip = Some transfer_checkpoint.
Proof. by apply receiving_current; vm_compute. Qed.

Lemma transfer_session_typed n : 0 <= n <= 1000 -> session_typed (transfer_session n).
Proof. by apply receiving_session_typed; vm_compute. Qed.

Lemma transfer_session_ok n :
  0 <= n <= 1000 ->
  transfer (HW := SimHw) transfer_chip (transfer_session n) (replicate (Z.to_nat n) 0xFF).
Proof. intros Hn. apply receiving_session_ok; [done|lia|map_lia]. Qed.

Lemma transfer_backed n :
  0 <= n -> backed (HW := SimHw) transfer_chip (transfer_session n) (replicate (Z.to_nat n) 0xFF).
Proof. by apply receiving_backed; vm_compute. Qed.

Lemma transfer_inv n :
  0 <= n <= 1000 ->
  receiver_inv (HW := SimHw) transfer_chip (transfer_session n) (replicate (Z.to_nat n) 0xFF).
Proof.
  intros Hn. split; [by apply transfer_session_typed|]. intros _.
  by apply transfer_session_ok.
Qed.

Lemma OtaReceiver_ProcessPacket_sound_witness :
  let request := packet_of OTA_CMD_DATA 256 1 4 in
  packet_wf request /\
  receiver_inv (HW := SimHw) transfer_chip (transfer_session 256) (replicate 256 0xFF) /\
  wp (OtaReceiver_ProcessPacket request request (mkTrialState 0 0 0) (transfer_session 256))
    (fun '(_, (s', r)) w' => answers request (s', r) /\ exists data', receiver_inv (w_hw w') s' data')
    (fun h => frame packet_nor in_boot_metadata (transfer_chip : hw (Hw := SimHw)) h)
    (sim_world transfer_chip).
Proof.
  intros request. pose proof (transfer_inv 256 ltac:(lia)) as Hi.
  split; [exact data_packet_wf|]. split; [exact Hi|].
  eapply wp_mono; [exact (OtaReceiver_ProcessPacket_sound request request (mkTrialState 0 0 0)
    (transfer_session 256) (replicate 256 0xFF) (sim_world transfer_chip)
    data_packet_wf (pw_typed _ data_packet_wf) Hi)| |intros h H; exact H].
  intros [t [s' r]] w' (_ & Ha & data' & Hd & _). split; [exact Ha|]. exists data'. exact Hd.
Defined.

Lemma ProcessData_acknowledged_witness :
  let request := packet_of OTA_CMD_DATA 256 1 4 in
  packet_wf request /\
  transfer (HW := SimHw) transfer_chip (transfer_session 256) (replicate 256 0xFF) /\
  wp (ProcessData request request (transfer_session 256))
    (fun '(s', r) w' => exists data', transfer (w_hw w') s' data' /\
       (op_command r = OTA_CMD_ACK -> slice 256 4 data' = packet_payload request))
    (fun _ => True) (sim_world transfer_chip).
Proof.
  intros request. pose proof (transfer_session_ok 256 ltac:(lia)) as Ht.
  split; [exact data_packet_wf|]. split; [exact Ht|].
  eapply wp_mono; [exact (ProcessData_acknowledged request request
    (transfer_session 256) (replicate 256 0xFF) (sim_world transfer_chip)
    data_packet_wf (pw_typed _ data_packet_wf) (transfer_session_typed 256 ltac:(lia))
    eq_refl Ht)| |intros h H; exact I].
  intros [s' r] w' (_ & _ & data' & Hd & _ & Hack). exists data'. split; [exact Hd|exact Hack].
Defined.

Lemma ProcessFinish_verifies_witness :
  let request := packet_of OTA_CMD_FINISH 0 0 0 in
  packet_wf request /\
  receiver_inv (HW := SimHw) transfer_chip (transfer_session 1000) artifact /\
  wp (ProcessFinish request request (transfer_session 1000))
    (fun '(s', r) w' => op_command r = OTA_CMD_ACK ->
       se_state s' = state_word UPDATE_ARTIFACT_READY /\ crc_of artifact = artifact_crc)
    (fun _ => True) (sim_world transfer_chip).
Proof.
  intros request. pose proof (transfer_inv 1000 ltac:(lia)) as Hi.
  split; [exact finish_packet_wf|]. split; [exact Hi|].
  eapply wp_mono; [exact (ProcessFinish_verifies request request
    (transfer_session 1000) artifact (sim_world transfer_chip)
    finish_packet_wf (pw_typed _ finish_packet_wf) Hi)| |intros h H; exact I].
  intros [s' r] w' (_ & _ & Hack) Ha. destruct (Hack eq_refl Ha) as (H1 & _ & H2 & _).
  split; [exact H1|exact H2].
Defined.

(** *** A power loss while the checkpoint is written

    The DATA packet that completes the first sector, on a device whose power
    fails after [budget] operations; the rewriting of the checkpoint sector is
    under way at 1400 of them. *)
Definition boundary_packet : OtaPacket_t := packet_of OTA_CMD_DATA 3840 15 256.
Definition boundary_session : OtaReceiverSession_t := receiving_session 8192 5 3840.
Definition boundary_world (budget : nat) : World SimHw :=
  mkWorld (receiving_chip 8192 5 (Some budget) : hw (Hw := SimHw))
    (mkRam true 0xEF4016 SPI_FLASH_STATUS_OK 0 false).
Definition boundary_run (budget : nat) :=
  ProcessData boundary_packet boundary_packet boundary_session (boundary_world budget).

(** The outcome of the run, and the session start-up finds with power restored. *)
Definition boundary_resume (budget : nat) : option bool * option (bool * Z * Z) :=
  let '(w, o) := boundary_run budget in
  (match o with Ret (_, r) => Some (op_command r =? OTA_CMD_ACK) | _ => None end,
   match OtaReceiver_Init initial_session
           (sim_world (mkSim (sim_nor (w_hw w)) (sim_flash (w_hw w)) [] false None)) with
   | (_, Ret (s, ok)) => Some (ok, se_state s, se_next_offset s)
   | _ => None
   end).

Example boundary_resumes :
  map boundary_resume [100; 1000; 1400; 1460; 2000]%nat =
  [(None, Some (true, state_word UPDATE_RECEIVING, 0));
   (None, Some (true, state_word UPDATE_RECEIVING, 0));
   (None, Some (true, state_word UPDATE_RECEIVING, 0));
   (None, Some (true, state_word UPDATE_RECEIVING, 4096));
   (Some true, Some (true, state_word UPDATE_RECEIVING, 4096))].
Proof. vm_compute. reflexivity. Qed.

(** The CRC refuses every proper prefix of the new checkpoint. *)
Example torn_prefixes_detected :
  let r := checkpoint_candidate (HW := SimHw) (receiving_chip 8192 5 None) boundary_session 4096 in
  let torn k := rec_decode (R := DownloadCheckpointRecord_t)
    (take k (rec_encode r) ++ replicate (40 - k) 0xFF) in
  map (fun k => rec_validb (torn k)) (seq 0 41) = replicate 40 false ++ [true].
Proof. vm_compute. reflexivity. Qed.

Lemma boundary_valid : rec_validb (receiving_checkpoint 8192 5) = true.
Proof. vm_compute. reflexivity. Qed.

(** What a run that lost power leaves. *)
Lemma wp_lost {HW : Hw} {A} (m : M HW A) Q C w x :
  m w = x -> snd x = PowerLost -> wp m Q C w -> C (w_hw (fst x)).
Proof. intros <-. unfold wp. destruct (m w) as [w' [a| |]]; done. Qed.

Lemma boundary_run_eq budget :
  ProcessData boundary_packet boundary_packet boundary_session (boundary_world budget) =
  boundary_run budget.
Proof. unfold boundary_run. reflexivity. Qed.

Lemma boundary_persisted : persisted (HW := SimHw) (w_hw (boundary_world 1400)) = 0.
Proof. vm_compute. reflexivity. Qed.

Lemma boundary_lost : snd (boundary_run 1400) = PowerLost.
Proof. vm_compute. reflexivity. Qed.

Lemma boundary_torn offset :
  torn_detected (HW := SimHw) (w_hw (boundary_world 1400)) (w_hw (fst (boundary_run 1400)))
    boundary_session offset.
Proof.
  intros Hv. exfalso.
  assert (E : rec_validb (checkpoint_at (HW := SimHw) (w_hw (fst (boundary_run 1400)))
    (checkpoint_target (HW := SimHw) (w_hw (boundary_world 1400)))) = false) by (vm_compute; reflexivity).
  congruence.
Qed.

Lemma boundary_offset : 0 <= 3840 <= 8192.
Proof. lia. Qed.

Lemma boundary_sector : 3840 <= EXT_FLASH_SECTOR_SIZE.
Proof. map_lia. Qed.

Lemma ProcessData_power_loss_witness :
  let h := w_hw (fst (boundary_run 1400)) in
  snd (boundary_run 1400) = PowerLost /\
  exists data' offset, (offset = 0 \/ offset = len data') /\ 3840 <= len data' /\
    resumes_at (HW := SimHw) h boundary_session offset data'.
Proof.
  intros h. split; [exact boundary_lost|].
  assert (Hq : packet_wf boundary_packet) by (apply packet_of_wf; [by vm_compute..|lia]).
  assert (Hc : 0 < 8192 <= 8192 /\ is_u32 5) by by vm_compute. destruct Hc as [H1 H2].
  pose proof (ProcessData_power_loss boundary_packet boundary_packet boundary_session
    (replicate 3840 0xFF) (boundary_world 1400) Hq (pw_typed _ Hq)
    (receiving_session_typed 8192 5 H1 H2 3840 boundary_offset) eq_refl
    (receiving_session_ok 8192 5 (Some 1400%nat) H1 3840 boundary_offset boundary_sector)
    (receiving_backed 8192 5 (Some 1400%nat) H1 H2 3840 boundary_valid (proj1 boundary_offset))) as H.
  apply (wp_lost _ _ _ _ _ (boundary_run_eq 1400) boundary_lost) in H.
  destruct H as (data' & Hd & _ & Hres). destruct (Hres (boundary_torn _)) as (offset & Ho & Hr).
  exists data', offset. split; [|split; [|exact Hr]].
  - rewrite boundary_persisted in Ho. exact Ho.
  - destruct Hd as [-> | ->]; rewrite ?length_app, length_replicate; lia.
Defined.

Lemma OtaReceiver_Init_restores_witness :
  session_typed initial_session /\
  wp (OtaReceiver_Init initial_session)
    (fun '(s', ok) w' => ok = true -> restored (w_hw w') s')
    (fun _ => True) (sim_world transfer_chip).
Proof.
  split; [exact initial_session_typed|].
  eapply wp_mono; [exact (OtaReceiver_Init_restores initial_session (sim_world transfer_chip)
    initial_session_typed ltac:(intros a [])) | |intros h H; exact I].
  intros [s' ok] w' (_ & _ & _ & H & _). exact H.
Defined.

Lemma ProcessInstall_requests_witness :
  let request := packet_of OTA_CMD_INSTALL 0 0 0 in
  let s := se_set_state (state_word UPDATE_ARTIFACT_READY) (transfer_session 1000) in
  session_typed s /\ erases_detected (HW := SimHw) /\
  wp (ProcessInstall request request s)
    (fun '(s', r) w' => op_command r = OTA_CMD_ACK ->
       exists m, current_metadata (w_hw w') = Some m /\ requested_install s m)
    (fun h => install_or_same (HW := SimHw) s transfer_chip h) (sim_world transfer_chip).
Proof.
  intros request s.
  assert (Hs : session_typed s) by (split; by vm_compute).
  split; [exact Hs|]. split; [exact sim_erases_detected|].
  eapply wp_mono; [exact (ProcessInstall_requests request request s (sim_world transfer_chip)
    Hs sim_erases_detected)| |intros h [_ H]; exact H].
  intros [s' r] w' (_ & _ & Hack & _) Ha. destruct (Hack Ha) as (_ & _ & _ & _ & _ & H). exact H.
Defined.

(** ** The polling loop *)

Definition blank_locals : Locals :=
  mkLocals (packet_of 0 0 0 0) (packet_of 0 0 0 0) raw_buffer raw_buffer encoded_buffer.

Lemma blank_locals_ok : locals_ok blank_locals.
Proof.
  assert (Hp : packet_typed (packet_of 0 0 0 0)) by (apply packet_of_wf; [by vm_compute..|lia]).
  split; try done; try exact Hp. exact raw_buffer_ok.
Qed.

(** The agent of a transfer under way, behind a parser full of garbage. *)
Definition busy_agent : OtaAgent := mkOtaAgent busy_parser 0 (transfer_session 256) (mkTrialState 0 0 0).

Lemma OtaAgent_Process_safe_witness :
  let input := [(0, blank_locals); (17, blank_locals); (0, blank_locals)] in
  input_ok input /\ agent_inv (HW := SimHw) transfer_chip busy_agent /\
  wp (OtaAgent_Process 1 input busy_agent)
    (fun '(a', frames, _) w' => agent_inv (w_hw w') a' /\ (length frames <= 2)%nat)
    (fun _ => True) (sim_world transfer_chip).
Proof.
  intros input.
  assert (Hin : input_ok input).
  { repeat (apply List.Forall_cons; [split; [split; vm_compute; congruence|exact blank_locals_ok]|]).
    apply List.Forall_nil. }
  assert (Ha : agent_inv (HW := SimHw) transfer_chip busy_agent).
  { split; [exact busy_parser_wf|]. exists (replicate 256 0xFF). exact (transfer_inv 256 ltac:(lia)). }
  split; [exact Hin|]. split; [exact Ha|].
  eapply wp_mono; [exact (OtaAgent_Process_safe 1 input busy_agent (sim_world transfer_chip) Hin Ha)| |
    intros h H; exact I].
  intros [[a' frames] reset] w' (_ & H1 & _ & H2). split; [exact H1|exact H2].
Defined.

Lemma OtaAgent_frame_is_call_witness :
  let p := packet_of OTA_CMD_DATA 256 1 4 in
  let a := mkOtaAgent (OtaParser_Init busy_parser) 0 (transfer_session 256) (mkTrialState 0 0 0) in
  packet_wf p /\ parser_wf (g_parser a) /\
  exists frame, SendPacket raw_buffer encoded_buffer p = Some frame /\
  exists request parser', same_packet p request /\
  forall w, OtaAgent_Loop (HW := SimHw) (zip frame (replicate (length frame) blank_locals)) a w =
    (r <- OtaReceiver_ProcessPacket request (lo_response blank_locals) (ag_trial a) (ag_session a) ;;
     let '(t, (s, response)) := r in
     ret (mkOtaAgent parser' 0 s t, sent_frames blank_locals response, OtaReceiver_ShouldReset s)) w.
Proof.
  intros p a.
  assert (Hwf : parser_wf (g_parser a)) by exact (Reset_wf busy_parser busy_parser_wf).
  split; [exact data_packet_wf|]. split; [exact Hwf|].
  destruct (SendPacket raw_buffer encoded_buffer p) as [frame|] eqn:E; [|vm_compute in E; discriminate E].
  exists frame. split; [reflexivity|].
  destruct (OtaAgent_frame_is_call (HW := SimHw) p raw_buffer encoded_buffer frame
    (replicate (length frame) blank_locals) a data_packet_wf eq_refl eq_refl E
    (length_replicate _ _) (Forall_replicate _ _ _ blank_locals_ok) Hwf (conj eq_refl eq_refl))
    as (request & l & parser' & _ & Hsame & Hin & _ & Heq).
  exists request, parser'. split; [exact Hsame|].
  apply list_elem_of_In, elem_of_replicate in Hin as [Hin _].
  subst l. exact Heq.
Defined.

(** ** START and ABORT *)

(** A full image of 1000 bytes, version 2. *)
Definition start_payload : list Z :=
  [FW_IMAGE_FULL; 0] ++ PutU16Le FW_CONTAINER_FORMAT_VERSION ++ PutU32Le 0 ++ PutU32Le 2 ++
  PutU32Le 1000 ++ PutU32Le artifact_crc ++ PutU32Le FW_CONTAINER_HEADER_SIZE.

Definition start_packet : OtaPacket_t :=
  mkOtaPacket OTA_PACKET_MAGIC OTA_PROTOCOL_VERSION OTA_CMD_START 7 0 0 24
    (start_payload ++ replicate 232 0) 0.

Lemma start_packet_wf : packet_wf start_packet.
Proof.
  split; [|done|done|done]. split; try (by vm_compute).
  cbn [start_packet op_payload]. apply Forall_app_2; [|by apply replicate_bytes_ok].
  unfold start_payload. repeat (apply Forall_app_2; [first [apply PutU16Le_ok|apply PutU32Le_ok|idtac]|]);
    try apply PutU32Le_ok. repeat first [exact (List.Forall_nil _) | apply Forall_cons_2; [done|]].
Qed.

Lemma ProcessStart_begins_witness :
  packet_wf start_packet /\ start_accepted start_packet (transfer_session 256) /\
  receiver_inv (HW := SimHw) transfer_chip (transfer_session 256) (replicate 256 0xFF) /\
  wp (ProcessStart start_packet start_packet (transfer_session 256))
    (fun '(s', r) w' => op_command r = OTA_CMD_ACK \/ se_last_status s' = OTA_STATUS_STORAGE_ERROR)
    (fun _ => True) (sim_world transfer_chip).
Proof.
  pose proof (transfer_inv 256 ltac:(lia)) as Hi.
  assert (Ha : start_accepted start_packet (transfer_session 256)).
  { split; try reflexivity; try discriminate.
    - right. right. reflexivity.
    - left. split; reflexivity.
    - split; vm_compute; congruence. }
  split; [exact start_packet_wf|]. split; [exact Ha|]. split; [exact Hi|].
  eapply wp_mono; [exact (ProcessStart_begins start_packet start_packet
    (transfer_session 256) (replicate 256 0xFF) (sim_world transfer_chip)
    start_packet_wf (pw_typed _ start_packet_wf) Hi)| |intros h H; exact I].
  intros [s' r] w' (_ & _ & _ & H). exact (H Ha).
Defined.

(** During a trial: the session is idle again, the metadata still says trial. *)
Lemma ProcessAbort_clears_witness :
  let request := packet_of OTA_CMD_ABORT 0 0 0 in
  let m := update_record UPDATE_TRIAL_BOOT 1 in
  let s := se_set_state (state_word UPDATE_TRIAL_BOOT) (transfer_session 1000) in
  let h : hw (Hw := SimHw) := scenario m in
  packet_wf request /\ receiver_inv h s artifact /\ current_metadata h = Some m /\
  wp (ProcessAbort request request s)
    (fun '(s', r) w' => current_metadata (w_hw w') = Some m /\
       (op_command r = OTA_CMD_ACK -> se_state s' = state_word UPDATE_IDLE))
    (fun _ => True) (sim_world h).
Proof.
  intros request m s h.
  assert (Hq : packet_wf request) by (apply packet_of_wf; [by vm_compute..|lia]).
  assert (Hi : receiver_inv h s artifact).
  { split; [split; by vm_compute|]. intros [Ha|Ha]; discriminate Ha. }
  assert (Hm : rec_wf m) by (apply update_record_wf; done).
  assert (Hc : current_metadata h = Some m) by (apply scenario_current; [exact Hm|reflexivity]).
  split; [exact Hq|]. split; [exact Hi|]. split; [exact Hc|].
  eapply wp_mono; [exact (ProcessAbort_clears request request s artifact (sim_world h)
    Hq (pw_typed _ Hq) Hi)| |intros h' H; exact I].
  intros [s' r] w' (_ & H1 & H2 & _). split; [exact (eq_trans H1 Hc)|].
  intros Ha. exact (proj1 (H2 Ha)).
Defined.

(** ** Confirming a trial *)

