(* ===== verification/GatewayProtocol.v ===== *)
(** * GatewayProtocol: gateway-esp32/components/uart_ota/uart_ota_protocol.c

    The gateway's own implementation of the UART protocol: CRC, COBS, packets,
    frames and the payloads of answers and START.  [size_t] has 32 bits on the
    ESP32.  The theorems compare it with the implementation of the node
    ([Cobs], [OtaPacket], [OtaLink], [OtaResponse]): both ends speak the same
    language. *)

From S2P Require Import Prelude Bytes Crc32 MetadataStorage FirmwareContainer Buffer Cobs.
From S2P Require Import OtaPacket OtaParser.
From S2P Require Import OtaLink OtaResponse.

Definition UART_OTA_MAGIC : Z := 0xA55A.
Definition UART_OTA_PROTOCOL_VERSION : Z := 1.
Definition UART_OTA_MAX_PAYLOAD : Z := 256.
Definition UART_OTA_HEADER_SIZE : Z := 16.
Definition UART_OTA_CRC_SIZE : Z := 4.
Definition UART_OTA_MAX_RAW_PACKET : Z := 276.
Definition UART_OTA_MAX_ENCODED_FRAME : Z := 320.
Definition UART_OTA_HELLO_PAYLOAD_SIZE : Z := 37.
Definition UART_OTA_ACK_PAYLOAD_SIZE : Z := 20.
Definition UART_OTA_START_PAYLOAD_SIZE : Z := 24.

Definition UART_OTA_CAP_FULL_IMAGE : Z := Z.shiftl 1 0.
Definition UART_OTA_CAP_DELTA_IMAGE : Z := Z.shiftl 1 1.
Definition UART_OTA_CAP_RESUME : Z := Z.shiftl 1 2.
Definition UART_OTA_CAP_SIGNATURE_VERIFY : Z := Z.shiftl 1 3.
Definition UART_OTA_CAP_ROLLBACK : Z := Z.shiftl 1 4.

(** [UartOtaCommand_t] *)
Definition UART_OTA_CMD_HELLO : Z := 0x01.
Definition UART_OTA_CMD_QUERY : Z := 0x02.
Definition UART_OTA_CMD_START : Z := 0x10.
Definition UART_OTA_CMD_DATA : Z := 0x11.
Definition UART_OTA_CMD_FINISH : Z := 0x12.
Definition UART_OTA_CMD_ABORT : Z := 0x13.
Definition UART_OTA_CMD_RESUME : Z := 0x14.
Definition UART_OTA_CMD_INSTALL : Z := 0x20.
Definition UART_OTA_CMD_STATUS : Z := 0x21.
Definition UART_OTA_CMD_CONFIRM : Z := 0x22.
Definition UART_OTA_CMD_ACK : Z := 0x70.
Definition UART_OTA_CMD_NACK : Z := 0x71.

(** [UartOtaStatus_t]: the one the client tests. *)
Definition UART_OTA_STATUS_OK : Z := 0x00.

(** [UartOtaUpdateState_t] *)
Definition UART_OTA_UPDATE_IDLE : Z := 0.
Definition UART_OTA_UPDATE_RECEIVING : Z := 1.
Definition UART_OTA_UPDATE_ARTIFACT_READY : Z := 2.
Definition UART_OTA_UPDATE_BACKING_UP : Z := 7.
Definition UART_OTA_UPDATE_INSTALLING : Z := 8.
Definition UART_OTA_UPDATE_VERIFYING_INSTALL : Z := 9.
Definition UART_OTA_UPDATE_TRIAL_BOOT : Z := 10.
Definition UART_OTA_UPDATE_CONFIRMED : Z := 11.
Definition UART_OTA_UPDATE_ROLLBACK : Z := 12.
Definition UART_OTA_UPDATE_FAILED : Z := 13.

Record UartOtaPacket_t := mkUartOtaPacket {
  up_command : Z;
  up_update_id : Z;
  up_offset : Z;
  up_sequence : Z;
  up_payload_length : Z;
  up_payload : list Z
}.

Record UartOtaAckInfo_t := mkUartOtaAckInfo {
  ai_status : Z;
  ai_update_state : Z;
  ai_acknowledged_sequence : Z;
  ai_next_expected_offset : Z;
  ai_received_size : Z;
  ai_expected_size : Z;
  ai_last_error_detail : Z
}.

Record UartOtaHelloInfo_t := mkUartOtaHelloInfo {
  hi_protocol_version : Z;
  hi_bootloader_version : Z;
  hi_application_version : Z;
  hi_product_id : Z;
  hi_hardware_revision : Z;
  hi_capability_flags : Z;
  hi_update_state : Z;
  hi_last_status : Z;
  hi_active_update_id : Z;
  hi_next_expected_offset : Z;
  hi_expected_artifact_size : Z
}.

(** ** CRC *)

Definition UartOta_CrcBit (crc : Z) : Z :=
  let mask := u32 (0 - Z.land crc 1) in
  Z.lxor (Z.shiftr crc 1) (Z.land 0xEDB88320 mask).

Definition UartOta_CrcByte (crc byte : Z) : Z := Nat.iter 8 UartOta_CrcBit (Z.lxor crc byte).

Definition UartOta_Crc32 (data : option (list Z)) (length : Z) : Z :=
  match data with
  | None => if length <>? 0 then 0 else Z.lxor 0xFFFFFFFF 0xFFFFFFFF
  | Some bytes =>
      Z.lxor (fold_left UartOta_CrcByte (take (Z.to_nat length) bytes) 0xFFFFFFFF) 0xFFFFFFFF
  end.

(** ** COBS *)

Definition UartOta_CobsEncodeStep (input : list Z) (output_capacity : Z) (s : CobsEncoder)
    : list Z + CobsEncoder :=
  let '(mkCobsEncoder read_index write_index code_index code output) := s in
  if byte_at input read_index =? 0 then
    let output := store code_index [code] output in
    if output_capacity <=? write_index then inl output
    else inr (mkCobsEncoder (u32 (read_index + 1)) (u32 (write_index + 1)) write_index 1 output)
  else if output_capacity <=? write_index then inl output
  else
    let output := store write_index [byte_at input read_index] output in
    let write_index := u32 (write_index + 1) in
    let read_index := u32 (read_index + 1) in
    let code := u8 (code + 1) in
    if code =? 0xFF then
      let output := store code_index [code] output in
      if output_capacity <=? write_index then inl output
      else inr (mkCobsEncoder read_index (u32 (write_index + 1)) write_index 1 output)
    else inr (mkCobsEncoder read_index write_index code_index code output).

Fixpoint UartOta_CobsEncodeLoop (fuel : nat) (input : list Z) (input_length output_capacity : Z)
    (s : CobsEncoder) : list Z + CobsEncoder :=
  if ce_read_index s <? input_length then
    match fuel with
    | O => inl (ce_output s)
    | S fuel =>
        match UartOta_CobsEncodeStep input output_capacity s with
        | inl output => inl output
        | inr s => UartOta_CobsEncodeLoop fuel input input_length output_capacity s
        end
    end
  else inr s.

(** The output array afterwards, and [*output_length] on [true]. *)
Definition UartOta_CobsEncode (input : option (list Z)) (input_length : Z)
    (output : option (list Z)) (output_capacity : Z) : list Z * option Z :=
  match output with
  | None => ([], None)
  | Some output =>
      if (bool_decide (input = None) && (input_length <>? 0)) || (output_capacity =? 0)
      then (output, None) else
      match UartOta_CobsEncodeLoop (Z.to_nat input_length) (default [] input) input_length
              output_capacity (mkCobsEncoder 0 1 0 1 output) with
      | inl output => (output, None)
      | inr s => (store (ce_code_index s) [ce_code s] (ce_output s), Some (ce_write_index s))
      end
  end.

Definition UartOta_CobsDecodeStep (input : list Z) (input_length output_capacity : Z)
    (s : CobsDecoder) : list Z + CobsDecoder :=
  let '(mkCobsDecoder read_index write_index output) := s in
  let code := byte_at input read_index in
  let read_index := u32 (read_index + 1) in
  let count := u32 (code - 1) in
  if code =? 0 then inl output else
  if u32 (input_length - read_index) <? count then inl output else
  if u32 (output_capacity - write_index) <? count then inl output else
  let output := store write_index (slice read_index count input) output in
  let write_index := u32 (write_index + count) in
  let read_index := u32 (read_index + count) in
  if (code <>? 0xFF) && (read_index <? input_length) then
    if output_capacity <=? write_index then inl output
    else inr (mkCobsDecoder read_index (u32 (write_index + 1)) (store write_index [0] output))
  else inr (mkCobsDecoder read_index write_index output).

Fixpoint UartOta_CobsDecodeLoop (fuel : nat) (input : list Z) (input_length output_capacity : Z)
    (s : CobsDecoder) : list Z + CobsDecoder :=
  if cd_read_index s <? input_length then
    match fuel with
    | O => inl (cd_output s)
    | S fuel =>
        match UartOta_CobsDecodeStep input input_length output_capacity s with
        | inl output => inl output
        | inr s => UartOta_CobsDecodeLoop fuel input input_length output_capacity s
        end
    end
  else inr s.

Definition UartOta_CobsDecode (input : option (list Z)) (input_length : Z)
    (output : option (list Z)) (output_capacity : Z) : list Z * option Z :=
  match input, output with
  | Some input, Some output =>
      if input_length =? 0 then (output, None) else
      match UartOta_CobsDecodeLoop (Z.to_nat input_length) input input_length output_capacity
              (mkCobsDecoder 0 0 output) with
      | inl output => (output, None)
      | inr s => (cd_output s, Some (cd_write_index s))
      end
  | _, _ => (default [] output, None)
  end.

(** ** Packets *)

(** The raw array afterwards, and [*raw_length] on [true]. *)
Definition UartOta_Serialize (packet : option UartOtaPacket_t) (raw : option (list Z))
    (raw_capacity : Z) : list Z * option Z :=
  match packet, raw with
  | Some packet, Some raw =>
      if UART_OTA_MAX_PAYLOAD <? up_payload_length packet then (raw, None) else
      let length := UART_OTA_HEADER_SIZE + up_payload_length packet + UART_OTA_CRC_SIZE in
      if raw_capacity <? length then (raw, None) else
      let raw := store 0 (PutU16Le UART_OTA_MAGIC) raw in
      let raw := store 2 [UART_OTA_PROTOCOL_VERSION] raw in
      let raw := store 3 [up_command packet] raw in
      let raw := store 4 (PutU32Le (up_update_id packet)) raw in
      let raw := store 8 (PutU32Le (up_offset packet)) raw in
      let raw := store 12 (PutU16Le (up_sequence packet)) raw in
      let raw := store 14 (PutU16Le (up_payload_length packet)) raw in
      let raw :=
        if up_payload_length packet <>? 0
        then store UART_OTA_HEADER_SIZE
               (take (Z.to_nat (up_payload_length packet)) (up_payload packet)) raw
        else raw in
      let crc := UartOta_Crc32 (Some raw) (UART_OTA_HEADER_SIZE + up_payload_length packet) in
      let raw := store (UART_OTA_HEADER_SIZE + up_payload_length packet) (PutU32Le crc) raw in
      (raw, Some length)
  | _, _ => (default [] raw, None)
  end.

(** [*packet] on [true]; it is written only then, after a [memset]. *)
Definition UartOta_Deserialize (raw : option (list Z)) (raw_length : Z) : option UartOtaPacket_t :=
  match raw with
  | None => None
  | Some raw =>
      if raw_length <? UART_OTA_HEADER_SIZE + UART_OTA_CRC_SIZE then None else
      if (GetU16Le raw <>? UART_OTA_MAGIC) || (byte_at raw 2 <>? UART_OTA_PROTOCOL_VERSION)
      then None else
      let payload_length := GetU16Le (drop 14 raw) in
      if UART_OTA_MAX_PAYLOAD <? payload_length then None else
      let expected_length := UART_OTA_HEADER_SIZE + payload_length + UART_OTA_CRC_SIZE in
      if raw_length <>? expected_length then None else
      let stored_crc := GetU32Le (drop (Z.to_nat (UART_OTA_HEADER_SIZE + payload_length)) raw) in
      let computed_crc := UartOta_Crc32 (Some raw) (UART_OTA_HEADER_SIZE + payload_length) in
      if stored_crc <>? computed_crc then None else
      let payload := replicate (Z.to_nat UART_OTA_MAX_PAYLOAD) 0 in
      Some (mkUartOtaPacket (byte_at raw 3) (GetU32Le (drop 4 raw)) (GetU32Le (drop 8 raw))
              (GetU16Le (drop 12 raw)) payload_length
              (if payload_length <>? 0
               then store 0 (slice UART_OTA_HEADER_SIZE payload_length raw) payload
               else payload))
  end.

(** ** Frames; [raw] is the uninitialised local array of both functions *)

Definition UartOta_EncodeFrame (raw : list Z) (packet : option UartOtaPacket_t)
    (frame : option (list Z)) (frame_capacity : Z) : list Z * option Z :=
  match frame with
  | None => ([], None)
  | Some frame =>
      if frame_capacity <? 2 then (frame, None) else
      match UartOta_Serialize packet (Some raw) UART_OTA_MAX_RAW_PACKET with
      | (_, None) => (frame, None)
      | (raw, Some raw_length) =>
          match UartOta_CobsEncode (Some raw) raw_length (Some frame) (u32 (frame_capacity - 1)) with
          | (frame, None) => (frame, None)
          | (frame, Some encoded_length) =>
              if frame_capacity <=? encoded_length then (frame, None)
              else (store encoded_length [0] frame, Some (u32 (encoded_length + 1)))
          end
      end
  end.

Definition UartOta_DecodeFrame (raw : list Z) (frame : option (list Z)) (frame_length : Z)
    : option UartOtaPacket_t :=
  match frame with
  | None => None
  | Some frame =>
      if frame_length =? 0 then None else
      let frame_length :=
        if byte_at frame (frame_length - 1) =? 0 then frame_length - 1 else frame_length in
      if frame_length =? 0 then None else
      match UartOta_CobsDecode (Some frame) frame_length (Some raw) UART_OTA_MAX_RAW_PACKET with
      | (_, None) => None
      | (raw, Some raw_length) => UartOta_Deserialize (Some raw) raw_length
      end
  end.

(** ** Payloads *)

Definition UartOta_ParseAck (packet : UartOtaPacket_t) : option UartOtaAckInfo_t :=
  if ((up_command packet <>? UART_OTA_CMD_ACK) && (up_command packet <>? UART_OTA_CMD_NACK)) ||
     (up_payload_length packet <>? UART_OTA_ACK_PAYLOAD_SIZE)
  then None else
  let p := up_payload packet in
  Some (mkUartOtaAckInfo (byte_at p 0) (byte_at p 1) (GetU16Le (drop 2 p)) (GetU32Le (drop 4 p))
          (GetU32Le (drop 8 p)) (GetU32Le (drop 12 p)) (GetU32Le (drop 16 p))).

Definition UartOta_ParseHello (packet : UartOtaPacket_t) : option UartOtaHelloInfo_t :=
  if (up_command packet <>? UART_OTA_CMD_ACK) ||
     (up_payload_length packet <>? UART_OTA_HELLO_PAYLOAD_SIZE)
  then None else
  let p := up_payload packet in
  Some (mkUartOtaHelloInfo (byte_at p 0) (GetU32Le (drop 1 p)) (GetU32Le (drop 5 p))
          (GetU32Le (drop 9 p)) (GetU32Le (drop 13 p)) (GetU32Le (drop 17 p)) (byte_at p 21)
          (byte_at p 22) (GetU32Le (drop 25 p)) (GetU32Le (drop 29 p)) (GetU32Le (drop 33 p))).

(** The first [UART_OTA_START_PAYLOAD_SIZE] bytes of the array it is given. *)
Definition UartOta_BuildStartPayload (payload : list Z) (artifact_type base_version target_version
    artifact_size artifact_crc32 container_header_size : Z) : list Z :=
  let payload := store 0 (replicate (Z.to_nat UART_OTA_START_PAYLOAD_SIZE) 0) payload in
  let payload := store 0 [artifact_type] payload in
  let payload := store 1 [0] payload in
  let payload := store 2 (PutU16Le 1) payload in
  let payload := store 4 (PutU32Le base_version) payload in
  let payload := store 8 (PutU32Le target_version) payload in
  let payload := store 12 (PutU32Le artifact_size) payload in
  let payload := store 16 (PutU32Le artifact_crc32) payload in
  store 20 (PutU32Le container_header_size) payload.

(** ** The two implementations agree *)

Lemma UartOta_CrcBit_eq crc : UartOta_CrcBit crc = crc32_bit crc.
Proof. with_strategy transparent [crc32_bit] reflexivity. Qed.

(** As for the node's: both mention the register twice. *)
#[global] Opaque UartOta_CrcBit.

Lemma iter_CrcBit_eq n s : Nat.iter n UartOta_CrcBit s = Nat.iter n crc32_bit s.
Proof.
  induction n as [|n IH]; [cbn [Nat.iter nat_rect]; reflexivity|].
  by rewrite !Nat.iter_succ, IH, UartOta_CrcBit_eq.
Qed.

Lemma UartOta_CrcByte_eq crc byte : UartOta_CrcByte crc byte = crc32_byte crc byte.
Proof. unfold UartOta_CrcByte. rewrite crc32_byte_eq. apply iter_CrcBit_eq. Qed.

#[global] Opaque UartOta_CrcByte.

Lemma fold_CrcByte_eq l crc : fold_left UartOta_CrcByte l crc = fold_left crc32_byte l crc.
Proof.
  revert crc. induction l as [|b l IH]; intros crc; [cbn [fold_left]; reflexivity|].
  rewrite !fold_left_cons, UartOta_CrcByte_eq. apply IH.
Qed.

Lemma UartOta_Crc32_eq bytes n : UartOta_Crc32 (Some bytes) n = Crc32_Calculate (Some bytes) n.
Proof.
  unfold UartOta_Crc32, Crc32_Calculate, Crc32_Update. rewrite fold_CrcByte_eq. reflexivity.
Qed.

(** The loops are the node's, up to conversion. *)
Lemma UartOta_CobsEncode_eq input n output capacity :
  UartOta_CobsEncode input n output capacity = Cobs_Encode input n output capacity.
Proof. reflexivity. Qed.

Lemma UartOta_CobsDecode_eq input n output capacity :
  UartOta_CobsDecode input n output capacity = Cobs_Decode input n output capacity.
Proof. reflexivity. Qed.

(** The node's struct for a packet of the gateway, and back. *)
Definition node_packet (g : UartOtaPacket_t) : OtaPacket_t :=
  mkOtaPacket UART_OTA_MAGIC UART_OTA_PROTOCOL_VERSION (up_command g) (up_update_id g) (up_offset g)
    (up_sequence g) (up_payload_length g) (up_payload g) 0.

Definition gateway_packet (p : OtaPacket_t) : UartOtaPacket_t :=
  mkUartOtaPacket (op_command p) (op_update_id p) (op_offset p) (op_sequence p)
    (op_payload_length p)
    (store 0 (packet_payload p) (replicate (Z.to_nat UART_OTA_MAX_PAYLOAD) 0)).

(** The ranges of the C types. *)
Record up_typed (g : UartOtaPacket_t) : Prop := {
  ut_command : is_byte (up_command g);
  ut_update_id : is_u32 (up_update_id g);
  ut_offset : is_u32 (up_offset g);
  ut_sequence : is_u16 (up_sequence g);
  ut_payload_length : is_u16 (up_payload_length g);
  ut_payload : len (up_payload g) = UART_OTA_MAX_PAYLOAD;
  ut_payload_bytes : bytes_ok (up_payload g)
}.

Lemma node_packet_wf g :
  up_typed g -> up_payload_length g <= UART_OTA_MAX_PAYLOAD -> packet_wf (node_packet g).
Proof. intros [] Hl. split; [|done..]. split; done || (cbn; by vm_compute). Qed.

Lemma UartOta_Serialize_eq g raw capacity :
  UartOta_Serialize (Some g) raw capacity =
  OtaPacket_Serialize (Some (node_packet g)) raw capacity.
Proof.
  unfold UartOta_Serialize, OtaPacket_Serialize. destruct raw as [raw|]; [|done].
  cbn [node_packet op_payload_length op_magic op_protocol_version op_command op_update_id op_offset
    op_sequence op_payload].
  change UART_OTA_MAX_PAYLOAD with OTA_MAX_PAYLOAD_SIZE.
  change UART_OTA_HEADER_SIZE with OTA_PACKET_HEADER_SIZE.
  change UART_OTA_CRC_SIZE with OTA_PACKET_CRC_SIZE.
  case_if; [done|]. case_if; [done|]. cbv zeta. rewrite UartOta_Crc32_eq.
  destruct (Z.eqb_spec (up_payload_length g) 0) as [H0|]; cbn [negb]; [|done].
  by rewrite H0.
Qed.

(** An empty struct of the node's type. *)
Definition zero_packet : OtaPacket_t :=
  mkOtaPacket 0 0 0 0 0 0 0 (replicate (Z.to_nat UART_OTA_MAX_PAYLOAD) 0) 0.

Lemma zero_packet_typed : packet_typed zero_packet.
Proof. split; try (by vm_compute). by apply Forall_replicate. Qed.

Lemma UartOta_Deserialize_eq raw n :
  bytes_ok raw -> n <= len raw ->
  UartOta_Deserialize (Some raw) n =
  match OtaPacket_Deserialize raw n zero_packet with
  | (p, OTA_PACKET_STATUS_OK) => Some (gateway_packet p)
  | _ => None
  end.
Proof.
  intros Hraw Hn.
  destruct (OtaPacket_Deserialize raw n zero_packet) as [p st] eqn:E.
  pose proof (OtaPacket_Deserialize_accepts raw n zero_packet p Hraw Hn zero_packet_typed) as Hacc.
  rewrite E in Hacc. revert E. unfold UartOta_Deserialize, OtaPacket_Deserialize. cbv zeta.
  cbn [op_magic op_protocol_version op_payload_length].
  change (UART_OTA_HEADER_SIZE + UART_OTA_CRC_SIZE) with OTA_PACKET_MIN_RAW_SIZE.
  change UART_OTA_MAX_PAYLOAD with OTA_MAX_PAYLOAD_SIZE.
  change UART_OTA_HEADER_SIZE with OTA_PACKET_HEADER_SIZE.
  change UART_OTA_CRC_SIZE with OTA_PACKET_CRC_SIZE.
  change UART_OTA_MAGIC with OTA_PACKET_MAGIC.
  change UART_OTA_PROTOCOL_VERSION with OTA_PROTOCOL_VERSION.
  rewrite UartOta_Crc32_eq.
  case_if; [by intros [= <- <-]|].
  destruct (GetU16Le raw <>? OTA_PACKET_MAGIC); cbn [orb]; [by intros [= <- <-]|].
  destruct (byte_at raw 2 <>? OTA_PROTOCOL_VERSION); [by intros [= <- <-]|].
  case_if; [by intros [= <- <-]|]. case_if; [by intros [= <- <-]|].
  destruct (GetU32Le _ <>? _); [by intros [= <- <-]|]. intros [= Hp <-].
  destruct (Hacc eq_refl) as (Hwf & _ & _ & Hrec).
  assert (Hpay : op_payload p =
    store 0 (packet_payload p) (replicate (Z.to_nat UART_OTA_MAX_PAYLOAD) 0)) by (by rewrite Hrec at 1).
  unfold gateway_packet. rewrite <- Hpay, <- Hp. cbn [op_command op_update_id op_offset op_sequence op_payload_length op_payload].
  cbn [zero_packet op_payload].
  destruct (Z.eqb_spec (GetU16Le (drop 14 raw)) 0) as [->|]; done.
Qed.

(** ** The decoder reads nothing behind the encoded bytes *)

Lemma decode_step_prefix input junk output_capacity s :
  is_u32 (len input) -> 0 <= cd_read_index s < len input ->
  Cobs_DecodeStep (input ++ junk) (len input) output_capacity s =
    Cobs_DecodeStep input (len input) output_capacity s /\
  forall s', Cobs_DecodeStep input (len input) output_capacity s = inr s' ->
    0 <= cd_read_index s' <= len input.
Proof.
  intros Hl Hr. destruct s as [r w o]. cbn [cd_read_index] in Hr. unfold is_u32 in Hl.
  assert (Hb : byte_at (input ++ junk) r = byte_at input r) by (unfold byte_at; apply app_nth1; lia).
  unfold Cobs_DecodeStep. rewrite Hb, (u32_small (r + 1)), (u32_small (len input - (r + 1)))
    by (unfold is_u32; lia).
  pose proof (u32_range (byte_at input r - 1)) as Hc. unfold is_u32 in Hc.
  destruct (byte_at input r =? 0); [done|].
  destruct (Z.ltb_spec (len input - (r + 1)) (u32 (byte_at input r - 1))); [done|].
  destruct (u32 (output_capacity - w) <? u32 (byte_at input r - 1)); [done|]. cbv zeta.
  rewrite slice_app_l, (u32_small (r + 1 + _)) by (unfold is_u32; lia).
  split; [done|]. intros s'. repeat case_if; intros [= <-]; cbn [cd_read_index]; lia.
Qed.

Lemma decode_loop_prefix fuel input junk output_capacity : forall s,
  is_u32 (len input) -> 0 <= cd_read_index s ->
  Cobs_DecodeLoop fuel (input ++ junk) (len input) output_capacity s =
  Cobs_DecodeLoop fuel input (len input) output_capacity s.
Proof.
  induction fuel as [|fuel IH]; intros s Hl Hr; [reflexivity|]. cbn [Cobs_DecodeLoop].
  destruct (Z.ltb_spec (cd_read_index s) (len input)) as [Hlt|]; [|reflexivity].
  destruct (decode_step_prefix input junk output_capacity s Hl ltac:(lia)) as [-> Hnext].
  destruct (Cobs_DecodeStep input (len input) output_capacity s) as [|s'] eqn:E; [reflexivity|].
  apply IH; [exact Hl|]. by apply Hnext.
Qed.

Lemma UartOta_DecodeFrame_prefix raw bytes junk :
  bytes <> [] -> is_u32 (len bytes) -> byte_at bytes (len bytes - 1) <> 0 ->
  UartOta_DecodeFrame raw (Some (bytes ++ junk)) (len bytes) =
  UartOta_DecodeFrame raw (Some bytes) (len bytes).
Proof.
  intros Hne Hl Hlast. assert (Hlen : 0 < len bytes) by (destruct bytes; cbn [length]; [done|lia]).
  unfold UartOta_DecodeFrame.
  assert (Hb : byte_at (bytes ++ junk) (len bytes - 1) = byte_at bytes (len bytes - 1))
    by (unfold byte_at; apply app_nth1; lia).
  rewrite Hb, (proj2 (Z.eqb_neq (len bytes) 0)), (proj2 (Z.eqb_neq (byte_at _ _) 0)) by (done || lia).
  rewrite (proj2 (Z.eqb_neq (len bytes) 0)) by lia.
  assert (E : UartOta_CobsDecode (Some (bytes ++ junk)) (len bytes) (Some raw) UART_OTA_MAX_RAW_PACKET =
              UartOta_CobsDecode (Some bytes) (len bytes) (Some raw) UART_OTA_MAX_RAW_PACKET).
  { rewrite !UartOta_CobsDecode_eq. unfold Cobs_Decode. rewrite decode_loop_prefix; [reflexivity|done|].
    cbn. lia. }
  rewrite E. reflexivity.
Qed.

(** ** Frames *)

(** The gateway writes the frame the node's SendPacket would. *)
Lemma UartOta_EncodeFrame_eq g raw frame :
  up_typed g -> up_payload_length g <= UART_OTA_MAX_PAYLOAD ->
  len raw = UART_OTA_MAX_RAW_PACKET -> len frame = UART_OTA_MAX_ENCODED_FRAME + 1 ->
  exists frame' n,
    UartOta_EncodeFrame raw (Some g) (Some frame) (UART_OTA_MAX_ENCODED_FRAME + 1) = (frame', Some n) /\
    SendPacket raw frame (node_packet g) = Some (take (Z.to_nat n) frame') /\
    len (take (Z.to_nat n) frame') = n.
Proof.
  intros Hg Hl Hr Hf. pose proof (node_packet_wf g Hg Hl) as Hp.
  destruct (Serialize_Encode (node_packet g) raw frame Hp Hr Hf)
    as (raw' & enc & n & Hs & Hc & Hle & Hn & _ & _).
  unfold UartOta_EncodeFrame, SendPacket. rewrite UartOta_Serialize_eq.
  change UART_OTA_MAX_RAW_PACKET with OTA_PACKET_MAX_RAW_SIZE. rewrite Hs, UartOta_CobsEncode_eq.
  change (UART_OTA_MAX_ENCODED_FRAME + 1 <? 2) with false.
  change (u32 (UART_OTA_MAX_ENCODED_FRAME + 1 - 1)) with OTA_MAX_ENCODED_FRAME.
  change (UART_OTA_MAX_ENCODED_FRAME + 1) with 321. change OTA_MAX_ENCODED_FRAME with 320 in *.
  rewrite Hc, (proj2 (Z.leb_gt _ _)), u32_small by (unfold is_u32; lia).
  eexists _, _. split; [reflexivity|]. split; [reflexivity|]. rewrite length_take, store_length. lia.
Qed.

(** The gateway decodes a frame of the node to the packet it carries; the
    bytes behind the frame and the contents of [raw] do not matter. *)
Lemma UartOta_DecodeFrame_carries p bytes raw junk :
  packet_wf p -> carries p bytes -> Forall (fun x => 0 < x < 2 ^ 8) bytes -> bytes <> [] ->
  bytes_ok junk -> bytes_ok raw -> len raw = UART_OTA_MAX_RAW_PACKET ->
  UartOta_DecodeFrame raw (Some (bytes ++ junk)) (len bytes) = Some (gateway_packet p).
Proof.
  intros Hp Hcar Hnz Hne Hjunk Hraw Hr. unfold UartOta_DecodeFrame.
  assert (Hlen : 0 < len bytes) by (destruct bytes; cbn [length]; [done|lia]).
  assert (Hlast : 0 < byte_at (bytes ++ junk) (len bytes - 1) < 2 ^ 8).
  { unfold byte_at. rewrite app_nth1 by lia. rewrite Forall_forall in Hnz. apply Hnz.
    apply list_elem_of_In, nth_In. lia. }
  rewrite (proj2 (Z.eqb_neq (len bytes) 0)), (proj2 (Z.eqb_neq (byte_at _ _) 0)) by lia.
  rewrite (proj2 (Z.eqb_neq (len bytes) 0)), UartOta_CobsDecode_eq by lia.
  assert (Hok : bytes_ok (bytes ++ junk)).
  { apply Forall_app_2; [|done]. eapply Forall_impl; [exact Hnz|]. unfold is_byte. cbv beta. lia. }
  destruct (Cobs_Decode_bounds (bytes ++ junk) (len bytes) raw OTA_PACKET_MAX_RAW_SIZE Hok max_raw_u32 Hraw)
    as [Hout [Hsize _]].
  destruct (Hcar raw junk Hr) as (rest & E).
  change UART_OTA_MAX_RAW_PACKET with OTA_PACKET_MAX_RAW_SIZE in *. rewrite E in Hout |- *. cbn [fst] in Hout.
  rewrite UartOta_Deserialize_eq; [|exact Hout|rewrite length_app; lia].
  rewrite OtaPacket_Deserialize_bytes by exact Hp. f_equal. unfold gateway_packet. f_equal.
  f_equal. by apply received_payload; [apply Hp|apply Hp|apply zero_packet_typed].
Qed.

(** A delimiter at the end is dropped first. *)
Lemma UartOta_DecodeFrame_delimiter bytes raw :
  Forall (fun x => 0 < x < 2 ^ 8) bytes -> bytes <> [] ->
  UartOta_DecodeFrame raw (Some (bytes ++ [0])) (len (bytes ++ [0])) =
  UartOta_DecodeFrame raw (Some (bytes ++ [0])) (len bytes).
Proof.
  intros Hnz Hne. assert (Hlen : 0 < len bytes) by (destruct bytes; cbn [length]; [done|lia]).
  assert (Hlast : 0 < byte_at (bytes ++ [0]) (len bytes - 1) < 2 ^ 8).
  { unfold byte_at. rewrite app_nth1 by lia. rewrite Forall_forall in Hnz. apply Hnz.
    apply list_elem_of_In, nth_In. lia. }
  assert (E : len (bytes ++ [0]) = len bytes + 1) by (rewrite length_app; cbn [length]; lia).
  unfold UartOta_DecodeFrame. rewrite E. replace (len bytes + 1 - 1) with (len bytes) by lia.
  rewrite byte_at_middle, (proj2 (Z.eqb_neq (len bytes + 1) 0)) by lia.
  rewrite (proj2 (Z.eqb_neq (byte_at _ _) 0)) by lia.
  rewrite (proj2 (Z.eqb_neq (len bytes) 0)) by lia. rewrite Z.eqb_refl.
  rewrite (proj2 (Z.eqb_neq (len bytes) 0)) by lia. reflexivity.
Qed.

(** ** The payloads of answers and of START *)

(** The payload array of a packet the gateway received. *)
Lemma gateway_payload p :
  packet_wf p ->
  exists rest, up_payload (gateway_packet p) = packet_payload p ++ rest.
Proof.
  intros [Hp _ _ Hl]. pose proof (packet_payload_length p Hp Hl) as H.
  eexists. cbn [gateway_packet up_payload]. rewrite store_eq; [reflexivity|lia|].
  rewrite length_replicate. unfold OTA_MAX_PAYLOAD_SIZE, UART_OTA_MAX_PAYLOAD in *. lia.
Qed.

(** The gateway's view of the status the node reports. *)
Definition ack_of (request : OtaPacket_t) (status : Z) (info : OtaResponseInfo_t) : UartOtaAckInfo_t :=
  mkUartOtaAckInfo (u8 status) (ri_update_state info) (op_sequence request)
    (ri_next_expected_offset info) (ri_received_size info) (ri_expected_size info)
    (ri_last_error_detail info).

Lemma UartOta_ParseAck_status request status info response :
  packet_typed request -> packet_typed response -> info_typed info ->
  UartOta_ParseAck (gateway_packet (BuildStatus request status info response)) =
  Some (ack_of request status info).
Proof.
  intros Hq Hr Hi. destruct (BuildStatus_wf request status info response Hq Hr Hi)
    as (Hw & Hc & _ & _ & _ & Hpay).
  destruct (gateway_payload _ Hw) as (rest & E). rewrite Hpay in E.
  unfold UartOta_ParseAck. rewrite E. cbn [gateway_packet up_command up_payload_length]. rewrite Hc.
  assert (Hcmd : (((if status =? OTA_STATUS_OK then OTA_CMD_ACK else OTA_CMD_NACK) <>? UART_OTA_CMD_ACK) &&
    ((if status =? OTA_STATUS_OK then OTA_CMD_ACK else OTA_CMD_NACK) <>? UART_OTA_CMD_NACK)) = false)
    by (by destruct (status =? OTA_STATUS_OK)).
  rewrite Hcmd. change (op_payload_length _ <>? UART_OTA_ACK_PAYLOAD_SIZE) with false. cbn [orb]. f_equal.
  destruct Hi. unfold ack_of. f_equal.
  - by apply (GetU16Le_PutU16Le _ _), (pt_sequence _ Hq).
  - by apply (GetU32Le_PutU32Le _ _).
  - by apply (GetU32Le_PutU32Le _ _).
  - by apply (GetU32Le_PutU32Le _ _).
  - by apply (GetU32Le_PutU32Le _ _).
Qed.

Definition hello_of (info : OtaResponseInfo_t) : UartOtaHelloInfo_t :=
  mkUartOtaHelloInfo OTA_PROTOCOL_VERSION BOOTLOADER_VERSION MetadataStorage.APPLICATION_VERSION
    FirmwareContainer.PRODUCT_ID_STM32F103_NODE FirmwareContainer.HARDWARE_REVISION_1
    (ri_capability_flags info) (ri_update_state info) (ri_last_status info) (ri_active_update_id info)
    (ri_next_expected_offset info) (ri_expected_size info).

Lemma UartOta_ParseHello_query request info response :
  packet_typed request -> packet_typed response -> info_typed info ->
  UartOta_ParseHello (gateway_packet (OtaResponse_BuildHelloQuery request info response)) =
  Some (hello_of info).
Proof.
  intros Hq Hr Hi. destruct (BuildHelloQuery_wf request info response Hq Hr Hi)
    as (Hw & Hc & _ & _ & _ & Hpay).
  destruct (gateway_payload _ Hw) as (rest & E). rewrite Hpay in E.
  unfold UartOta_ParseHello. rewrite E. cbn [gateway_packet up_command up_payload_length]. rewrite Hc.
  change (op_payload_length _ <>? UART_OTA_HELLO_PAYLOAD_SIZE) with false.
  change (OTA_CMD_ACK <>? UART_OTA_CMD_ACK) with false. cbn [orb]. f_equal.
  destruct Hi. unfold hello_of. f_equal; by apply (GetU32Le_PutU32Le _ _).
Qed.

(** The fields of a START payload, at the offsets [ProcessStart] reads them. *)
Lemma UartOta_BuildStartPayload_fields payload artifact_type base_version target_version artifact_size
    artifact_crc32 container_header_size :
  len payload = UART_OTA_MAX_PAYLOAD ->
  is_u32 base_version -> is_u32 target_version -> is_u32 artifact_size -> is_u32 artifact_crc32 ->
  is_u32 container_header_size ->
  let p := UartOta_BuildStartPayload payload artifact_type base_version target_version artifact_size
             artifact_crc32 container_header_size in
  len p = UART_OTA_MAX_PAYLOAD /\ byte_at p 0 = artifact_type /\ GetU16Le (drop 2 p) = 1 /\
  GetU32Le (drop 4 p) = base_version /\ GetU32Le (drop 8 p) = target_version /\
  GetU32Le (drop 12 p) = artifact_size /\ GetU32Le (drop 16 p) = artifact_crc32 /\
  GetU32Le (drop 20 p) = container_header_size.
Proof.
  intros Hl Hb Ht Hs Hc Hh p.
  set (bs := ((((((([] ++ [artifact_type]) ++ [0]) ++ PutU16Le 1) ++ PutU32Le base_version) ++
    PutU32Le target_version) ++ PutU32Le artifact_size) ++ PutU32Le artifact_crc32) ++
    PutU32Le container_header_size).
  assert (E : take (length bs) p = bs).
  { unfold p, UartOta_BuildStartPayload, bs, UART_OTA_MAX_PAYLOAD in *.
    do 8 (apply store_grow; [|rewrite ?store_length; cbn; lia]). done. }
  split; [unfold p, UartOta_BuildStartPayload; by rewrite !store_length|].
  rewrite <- (take_drop (length bs) p), E.
  split_and!; try done; first [by apply (GetU16Le_PutU16Le _ _) | by apply (GetU32Le_PutU32Le _ _)].
Qed.

(** ** Properties *)

(** C30: Gateway and node agree on the wire.  For every packet of the gateway,
    UartOta_EncodeFrame succeeds and an idle parser of the node that is fed the
    frame raises exactly one packet event, at its last byte, and delivers the
    same command, ids, offset, sequence number and payload; every frame
    SendPacket of the node produces, with or without its delimiter, is decoded
    by UartOta_DecodeFrame to the fields and payload of its packet; and
    UartOta_ParseAck reads from the answer BuildStatus builds the status, state,
    sequence number and offsets the node put there. *)
Theorem UartOta_frames_interoperate g p raw frame raw' encoded parser packet request status info :
  up_typed g -> up_payload_length g <= UART_OTA_MAX_PAYLOAD -> packet_wf p ->
  bytes_ok raw -> len raw = UART_OTA_MAX_RAW_PACKET -> len frame = UART_OTA_MAX_ENCODED_FRAME + 1 ->
  bytes_ok raw' -> len raw' = OTA_PACKET_MAX_RAW_SIZE -> len encoded = OTA_MAX_ENCODED_FRAME + 1 ->
  parser_wf parser -> parser_idle parser -> packet_typed packet ->
  packet_typed request -> info_typed info ->
  (exists frame' n parser' packet',
     UartOta_EncodeFrame raw (Some g) (Some frame) (UART_OTA_MAX_ENCODED_FRAME + 1) = (frame', Some n) /\
     PushBytes raw' parser (take (Z.to_nat n) frame') packet =
       (parser', packet', replicate (pred (Z.to_nat n)) OTA_PARSER_EVENT_NONE ++ [OTA_PARSER_EVENT_PACKET]) /\
     parser_idle parser' /\ packet_wf packet' /\ same_packet (node_packet g) packet') /\
  (exists bytes, SendPacket raw' encoded p = Some (bytes ++ [0]) /\
     UartOta_DecodeFrame raw (Some bytes) (len bytes) = Some (gateway_packet p) /\
     UartOta_DecodeFrame raw (Some (bytes ++ [0])) (len (bytes ++ [0])) = Some (gateway_packet p)) /\
  UartOta_ParseAck (gateway_packet (BuildStatus request status info packet)) =
    Some (ack_of request status info).
Proof.
  intros Hg Hl Hp Hok Hr Hf Hok' Hr' He Hw Hi Hq Hrq Hinfo.
  split; [|split; [|by apply UartOta_ParseAck_status]].
  - destruct (UartOta_EncodeFrame_eq g raw frame Hg Hl Hr Hf) as (frame' & n & E & Hs & Hn).
    pose proof (node_packet_wf g Hg Hl) as Hgp.
    destruct (SendPacket_frame (node_packet g) raw frame Hgp Hr Hf) as (bytes & Hs' & Hnz & Hlen & Hcar).
    rewrite Hs in Hs'. injection Hs' as Hb.
    destruct (PushBytes_frame raw' parser packet (node_packet g) bytes Hr' Hw Hi Hgp Hnz Hlen Hcar)
      as (parser' & Hi' & Epush).
    exists frame', n, parser', (received (node_packet g) packet). split; [exact E|]. rewrite Hb in Hn |- *.
    replace (pred (Z.to_nat n)) with (length bytes) by (rewrite length_app in Hn; cbn [length] in Hn; lia).
    split; [exact Epush|]. split; [exact Hi'|]. split; [by apply received_wf|].
    by apply received_same; [apply Hgp|apply Hgp|].
  - destruct (SendPacket_frame p raw' encoded Hp Hr' He) as (bytes & Hs & Hnz & Hlen & Hcar).
    assert (Hne : bytes <> []) by (intros ->; cbn in Hlen; lia).
    exists bytes. split; [exact Hs|].
    pose proof (UartOta_DecodeFrame_carries p bytes raw) as Hdec. split.
    + rewrite <- (app_nil_r bytes) at 1. by apply Hdec.
    + assert (Hz : bytes_ok [0]) by (by apply Forall_singleton).
      rewrite UartOta_DecodeFrame_delimiter by done. by apply Hdec.
Qed.
