(* ===== verification/GatewayClient.v ===== *)
(** * GatewayClient: gateway-esp32/components/uart_ota/uart_ota_client.c, uart_ota_plan.c

    The client that drives an update over the UART: request and answer with
    time-outs and retries, the plan for the state the node reports, the
    transfer, and the wait for the final state.  The ESP-IDF functions it calls
    and the artifact callback act on an environment they own (class [EspIdf]);
    the handle is a parameter, so that every theorem holds for whatever is
    behind the UART.  Logging is left out.  Loops that wait for time to pass
    take [fuel], the same number for each of them; [None] is running out of it. *)

From S2P Require Import Prelude Bytes Buffer GatewayProtocol.

(** ** uart_ota_plan.c *)

Inductive UartOtaPlan_t :=
  | UART_OTA_PLAN_ALREADY_TARGET
  | UART_OTA_PLAN_START_NEW
  | UART_OTA_PLAN_RESUME
  | UART_OTA_PLAN_INSTALL_READY
  | UART_OTA_PLAN_WAIT_TARGET
  | UART_OTA_PLAN_ABORT_FOREIGN
  | UART_OTA_PLAN_ERROR.

#[export] Instance UartOtaPlan_eq_dec : EqDecision UartOtaPlan_t.
Proof. solve_decision. Defined.

Definition UartOta_SelectPlan (target : option UartOtaHelloInfo_t)
    (artifact_update_id artifact_size target_version : Z) : UartOtaPlan_t :=
  match target with
  | None => UART_OTA_PLAN_ERROR
  | Some target =>
      if (artifact_update_id =? 0) || (artifact_size =? 0) || (target_version =? 0)
      then UART_OTA_PLAN_ERROR else
      if (hi_application_version target =? target_version) &&
         (hi_update_state target =? UART_OTA_UPDATE_IDLE)
      then UART_OTA_PLAN_ALREADY_TARGET else
      let state := hi_update_state target in
      if state =? UART_OTA_UPDATE_IDLE then UART_OTA_PLAN_START_NEW else
      if state =? UART_OTA_UPDATE_RECEIVING then
        if (hi_active_update_id target =? artifact_update_id) &&
           (hi_expected_artifact_size target =? artifact_size) &&
           (hi_next_expected_offset target <=? artifact_size) &&
           (hi_next_expected_offset target mod UART_OTA_MAX_PAYLOAD =? 0)
        then UART_OTA_PLAN_RESUME else UART_OTA_PLAN_ABORT_FOREIGN
      else if state =? UART_OTA_UPDATE_ARTIFACT_READY then
        if (hi_active_update_id target =? artifact_update_id) &&
           (hi_expected_artifact_size target =? artifact_size)
        then UART_OTA_PLAN_INSTALL_READY else UART_OTA_PLAN_ABORT_FOREIGN
      else if (state =? UART_OTA_UPDATE_BACKING_UP) || (state =? UART_OTA_UPDATE_INSTALLING) ||
              (state =? UART_OTA_UPDATE_VERIFYING_INSTALL) ||
              (state =? UART_OTA_UPDATE_TRIAL_BOOT) || (state =? UART_OTA_UPDATE_CONFIRMED) ||
              (state =? UART_OTA_UPDATE_ROLLBACK)
      then UART_OTA_PLAN_WAIT_TARGET
      else if state =? UART_OTA_UPDATE_FAILED then UART_OTA_PLAN_ABORT_FOREIGN
      else UART_OTA_PLAN_ERROR
  end.

(** ** What the client runs on *)

Inductive esp_err_t :=
  | ESP_OK
  | ESP_FAIL
  | ESP_ERR_NO_MEM
  | ESP_ERR_INVALID_ARG
  | ESP_ERR_INVALID_STATE
  | ESP_ERR_INVALID_SIZE
  | ESP_ERR_NOT_FOUND
  | ESP_ERR_NOT_SUPPORTED
  | ESP_ERR_TIMEOUT
  | ESP_ERR_INVALID_RESPONSE
  | ESP_ERR_INVALID_CRC
  | ESP_ERR_INVALID_VERSION
  | ESP_ERR_OTHER (code : Z).

#[export] Instance esp_err_eq_dec : EqDecision esp_err_t.
Proof. solve_decision. Defined.

(** The functions of ESP-IDF and FreeRTOS the client calls.  [uart_read_bytes]
    is called for one byte: its result, and the byte when the result is
    positive. *)
Class EspIdf := {
  Env : Type;
  esp_timer_get_time : Env -> Z * Env;
  uart_write_bytes : Z -> list Z -> Env -> Z * Env;
  uart_wait_tx_done : Z -> Z -> Env -> esp_err_t * Env;
  uart_read_bytes : Z -> Z -> Env -> Z * Z * Env;
  vTaskDelay : Z -> Env -> Env;
  pdMS_TO_TICKS : Z -> Z;
  uart_param_config : Z -> Z -> Env -> esp_err_t * Env;
  uart_set_pin : Z -> Z -> Z -> Env -> esp_err_t * Env;
  uart_is_driver_installed : Z -> Env -> bool * Env;
  uart_driver_install : Z -> Z -> Env -> esp_err_t * Env;
  uart_flush_input : Z -> Env -> Env
}.

(** The uninitialised local arrays: [raw] of UartOta_EncodeFrame and
    UartOta_DecodeFrame, [frame] of SendFrame, [encoded] of ReadFrame. *)
Record ClientLocals := mkClientLocals {
  cl_raw : list Z;
  cl_frame : list Z;
  cl_encoded : list Z
}.

Definition UART_OTA_RX_BUFFER_SIZE : Z := 1024.
Definition UART_OTA_CONNECT_TIMEOUT_MS : Z := 12000.
Definition UART_OTA_FINAL_TIMEOUT_MS : Z := 120000.
Definition UART_OTA_POLL_DELAY_MS : Z := 250.

Record UartOtaConfig_t := mkUartOtaConfig {
  uc_uart_num : Z;
  uc_tx_gpio : Z;
  uc_rx_gpio : Z;
  uc_baud_rate : Z;
  uc_response_timeout_ms : Z;
  uc_retry_count : Z
}.

Section client.
Context {IDF : EspIdf}.
Context (locals : ClientLocals).
Implicit Types e : Env.

(** A computation on the environment. *)
Definition G (A : Type) : Type := Env -> option (A * Env).
Definition gret {A} (a : A) : G A := fun e => Some (a, e).
Definition gbind {A B} (m : G A) (k : A -> G B) : G B := fun e =>
  match m e with Some (a, e) => k a e | None => None end.
Definition lift {A} (f : Env -> A * Env) : G A := fun e => Some (f e).

Notation "'let!' x := m 'in' k" := (gbind m (fun x => k))
  (at level 10, x pattern, m at level 100, k at level 200).

(** [artifact->read]: the status, and the bytes written to the buffer. *)
Record UartOtaArtifact_t := mkUartOtaArtifact {
  ua_update_id : Z;
  ua_base_version : Z;
  ua_target_version : Z;
  ua_image_size : Z;
  ua_image_crc32 : Z;
  ua_container_header_size : Z;
  ua_artifact_type : Z;
  ua_read : option (Z -> Z -> Env -> esp_err_t * list Z * Env)
}.

Record UartOtaClient_t := mkUartOtaClient {
  cc_config : UartOtaConfig_t;
  cc_progress : option (Z -> Z -> Env -> Env)
}.

(** ** Time and frames *)

Definition DeadlineUs (timeout_ms : Z) : G Z :=
  let! now := lift esp_timer_get_time in gret (now + timeout_ms * 1000).

Definition DeadlineExpired (deadline_us : Z) : G bool :=
  let! now := lift esp_timer_get_time in gret (deadline_us <=? now).

Definition SendFrame (client : UartOtaClient_t) (packet : UartOtaPacket_t) : G esp_err_t :=
  match UartOta_EncodeFrame (cl_raw locals) (Some packet) (Some (cl_frame locals))
          (UART_OTA_MAX_ENCODED_FRAME + 1) with
  | (_, None) => gret ESP_ERR_INVALID_SIZE
  | (frame, Some frame_length) =>
      let! written :=
        lift (uart_write_bytes (uc_uart_num (cc_config client)) (take (Z.to_nat frame_length) frame)) in
      if written <>? frame_length then gret ESP_FAIL
      else lift (uart_wait_tx_done (uc_uart_num (cc_config client))
                   (pdMS_TO_TICKS (uc_response_timeout_ms (cc_config client))))
  end.

(** [inr] is [ESP_OK] with the packet decoded. *)
Fixpoint ReadFrameLoop (fuel : nat) (client : UartOtaClient_t) (deadline : Z)
    (encoded : list Z) (encoded_length : Z) (overflow : bool) : G (esp_err_t + UartOtaPacket_t) :=
  match fuel with
  | O => fun _ => None
  | S fuel =>
      let! expired := DeadlineExpired deadline in
      if (expired : bool) then gret (inl ESP_ERR_TIMEOUT) else
      let! (read, byte) := lift (uart_read_bytes (uc_uart_num (cc_config client)) (pdMS_TO_TICKS 20)) in
      if read <? 0 then gret (inl ESP_FAIL) else
      if read =? 0 then ReadFrameLoop fuel client deadline encoded encoded_length overflow else
      if byte <>? 0 then
        if overflow then ReadFrameLoop fuel client deadline encoded encoded_length overflow
        else if encoded_length <? UART_OTA_MAX_ENCODED_FRAME
        then ReadFrameLoop fuel client deadline (store encoded_length [byte] encoded)
               (u32 (encoded_length + 1)) overflow
        else ReadFrameLoop fuel client deadline encoded encoded_length true
      else if overflow then ReadFrameLoop fuel client deadline encoded 0 false
      else if encoded_length =? 0 then ReadFrameLoop fuel client deadline encoded encoded_length overflow
      else
        match UartOta_DecodeFrame (cl_raw locals) (Some encoded) encoded_length with
        | Some packet => gret (inr packet)
        | None => ReadFrameLoop fuel client deadline encoded 0 overflow
        end
  end.

Definition ReadFrame (fuel : nat) (client : UartOtaClient_t) (timeout_ms : Z)
    : G (esp_err_t + UartOtaPacket_t) :=
  let! deadline := DeadlineUs timeout_ms in
  ReadFrameLoop fuel client deadline (cl_encoded locals) 0 false.

(** ** Request and answer *)

(** The tests Request makes on a candidate, in its order. *)
Definition IsAnswer (request candidate : UartOtaPacket_t) : bool :=
  if (up_command candidate <>? UART_OTA_CMD_ACK) && (up_command candidate <>? UART_OTA_CMD_NACK)
  then false else
  if up_sequence candidate <>? up_sequence request then false else
  if (up_update_id request <>? 0) && (up_update_id candidate <>? up_update_id request)
  then false else true.

(** The inner loop: [inl] leaves it with [last_error], [inr] with the answer. *)
Fixpoint AwaitAnswer (n fuel : nat) (client : UartOtaClient_t) (request : UartOtaPacket_t)
    (deadline : Z) (last_error : esp_err_t) : G (esp_err_t + UartOtaPacket_t) :=
  match n with
  | O => fun _ => None
  | S n =>
      let! expired := DeadlineExpired deadline in
      if (expired : bool) then gret (inl last_error) else
      let! status := ReadFrame fuel client 100 in
      match status with
      | inl ESP_ERR_TIMEOUT => AwaitAnswer n fuel client request deadline last_error
      | inl status => gret (inl status)
      | inr candidate =>
          if IsAnswer request candidate then gret (inr candidate)
          else AwaitAnswer n fuel client request deadline last_error
      end
  end.

Fixpoint RequestLoop (attempts : nat) (fuel : nat) (client : UartOtaClient_t)
    (request : UartOtaPacket_t) (last_error : esp_err_t) : G (esp_err_t + UartOtaPacket_t) :=
  match attempts with
  | O => gret (inl last_error)
  | S attempts =>
      let! status := SendFrame client request in
      if bool_decide (status <> ESP_OK) then RequestLoop attempts fuel client request status else
      let! deadline := DeadlineUs (uc_response_timeout_ms (cc_config client)) in
      let! answer := AwaitAnswer fuel fuel client request deadline last_error in
      match answer with
      | inr response => gret (inr response)
      | inl last_error => RequestLoop attempts fuel client request last_error
      end
  end.

(** [inr] is [ESP_OK] with [*response]. *)
Definition Request (fuel : nat) (client : UartOtaClient_t) (request : UartOtaPacket_t)
    : G (esp_err_t + UartOtaPacket_t) :=
  RequestLoop (Z.to_nat (uc_retry_count (cc_config client))) fuel client request ESP_ERR_TIMEOUT.

(** [inr] is [ESP_OK] with [*ack]. *)
Definition RequireAck (response : UartOtaPacket_t) : esp_err_t + UartOtaAckInfo_t :=
  match UartOta_ParseAck response with
  | None => inl ESP_ERR_INVALID_RESPONSE
  | Some ack =>
      if (up_command response <>? UART_OTA_CMD_ACK) || (ai_status ack <>? UART_OTA_STATUS_OK)
      then inl ESP_ERR_INVALID_STATE else inr ack
  end.

Definition InitPacket (command update_id offset sequence : Z) : UartOtaPacket_t :=
  mkUartOtaPacket command update_id offset sequence 0 (replicate (Z.to_nat UART_OTA_MAX_PAYLOAD) 0).

Definition up_set_payload (payload_length : Z) (payload : list Z) (p : UartOtaPacket_t) : UartOtaPacket_t :=
  mkUartOtaPacket (up_command p) (up_update_id p) (up_offset p) (up_sequence p) payload_length payload.

(** The sequence [Request], [RequireAck] of every transfer command. *)
Definition Command (fuel : nat) (client : UartOtaClient_t) (request : UartOtaPacket_t)
    : G (esp_err_t + UartOtaAckInfo_t) :=
  let! response := Request fuel client request in
  match response with
  | inl status => gret (inl status)
  | inr response => gret (RequireAck response)
  end.

Definition QueryOnce (fuel : nat) (client : UartOtaClient_t) : G (esp_err_t + UartOtaHelloInfo_t) :=
  let! response := Request fuel client (InitPacket UART_OTA_CMD_QUERY 0 0 0) in
  match response with
  | inl status => gret (inl status)
  | inr response =>
      match UartOta_ParseHello response with
      | None => gret (inl ESP_ERR_INVALID_RESPONSE)
      | Some info =>
          if hi_protocol_version info <>? UART_OTA_PROTOCOL_VERSION
          then gret (inl ESP_ERR_INVALID_VERSION) else gret (inr info)
      end
  end.

Definition UartOta_Init (client : option UartOtaClient_t) (config : option UartOtaConfig_t)
    : G (esp_err_t * option UartOtaClient_t) :=
  match client, config with
  | Some _, Some config =>
      if (uc_baud_rate config =? 0) || (uc_response_timeout_ms config =? 0) ||
         (uc_retry_count config =? 0)
      then gret (ESP_ERR_INVALID_ARG, client) else
      let client := Some (mkUartOtaClient config None) in
      let! status := lift (uart_param_config (uc_uart_num config) (uc_baud_rate config)) in
      if bool_decide (status <> ESP_OK) then gret (status, client) else
      let! status := lift (uart_set_pin (uc_uart_num config) (uc_tx_gpio config) (uc_rx_gpio config)) in
      if bool_decide (status <> ESP_OK) then gret (status, client) else
      let! installed := lift (uart_is_driver_installed (uc_uart_num config)) in
      let! status :=
        (if (installed : bool) then gret ESP_OK
         else lift (uart_driver_install (uc_uart_num config) UART_OTA_RX_BUFFER_SIZE)) in
      if bool_decide (status <> ESP_OK) then gret (status, client) else
      let! _ := lift (fun e => (tt, uart_flush_input (uc_uart_num config) e)) in
      gret (ESP_OK, client)
  | _, _ => gret (ESP_ERR_INVALID_ARG, client)
  end.

Definition UartOta_SetProgressCallback (client : option UartOtaClient_t)
    (callback : option (Z -> Z -> Env -> Env)) : option UartOtaClient_t :=
  (fun client => mkUartOtaClient (cc_config client) callback) <$> client.

Definition Delay (ms : Z) : G unit := lift (fun e => (tt, vTaskDelay (pdMS_TO_TICKS ms) e)).

Fixpoint QueryLoop (n fuel : nat) (client : UartOtaClient_t) (deadline : Z) (last_error : esp_err_t)
    : G (esp_err_t + UartOtaHelloInfo_t) :=
  match n with
  | O => fun _ => None
  | S n =>
      let! expired := DeadlineExpired deadline in
      if (expired : bool) then gret (inl last_error) else
      let! info := QueryOnce fuel client in
      match info with
      | inr info => gret (inr info)
      | inl last_error =>
          let! _ := Delay 200 in
          QueryLoop n fuel client deadline last_error
      end
  end.

(** [inr] is [ESP_OK] with [*info]; [info] says whether the pointer is non-null. *)
Definition UartOta_Query (fuel : nat) (client : option UartOtaClient_t) (info : bool)
    : G (esp_err_t + UartOtaHelloInfo_t) :=
  let! deadline := DeadlineUs UART_OTA_CONNECT_TIMEOUT_MS in
  match client with
  | Some client =>
      if info then QueryLoop fuel fuel client deadline ESP_ERR_TIMEOUT else gret (inl ESP_ERR_INVALID_ARG)
  | None => gret (inl ESP_ERR_INVALID_ARG)
  end.

(** ** The commands of a transfer *)

Definition status_of {A} (r : esp_err_t + A) : esp_err_t :=
  match r with inl status => status | inr _ => ESP_OK end.

Definition AbortTransfer (fuel : nat) (client : UartOtaClient_t) (update_id : Z) : G esp_err_t :=
  let! ack := Command fuel client (InitPacket UART_OTA_CMD_ABORT update_id 0 0) in
  gret (status_of ack).

Definition StartRequest (artifact : UartOtaArtifact_t) : UartOtaPacket_t :=
  let request := InitPacket UART_OTA_CMD_START (ua_update_id artifact) 0 0 in
  up_set_payload UART_OTA_START_PAYLOAD_SIZE
    (UartOta_BuildStartPayload (up_payload request) (ua_artifact_type artifact)
       (ua_base_version artifact) (ua_target_version artifact) (ua_image_size artifact)
       (ua_image_crc32 artifact) (ua_container_header_size artifact)) request.

Definition StartTransfer (fuel : nat) (client : UartOtaClient_t) (artifact : UartOtaArtifact_t)
    : G esp_err_t :=
  let! ack := Command fuel client (StartRequest artifact) in
  gret (status_of ack).

(** [inr] is [ESP_OK] with [*offset_out]. *)
Definition ResumeTransfer (fuel : nat) (client : UartOtaClient_t) (artifact : UartOtaArtifact_t)
    : G (esp_err_t + Z) :=
  let! ack := Command fuel client (InitPacket UART_OTA_CMD_RESUME (ua_update_id artifact) 0 0) in
  match ack with
  | inl status => gret (inl status)
  | inr ack =>
      if (ua_image_size artifact <? ai_next_expected_offset ack) ||
         (ai_next_expected_offset ack mod UART_OTA_MAX_PAYLOAD <>? 0)
      then gret (inl ESP_ERR_INVALID_SIZE) else gret (inr (ai_next_expected_offset ack))
  end.

(** The request for the chunk at [offset]. *)
Definition DataRequest (artifact : UartOtaArtifact_t) (offset sequence chunk : Z) (bytes : list Z)
    : UartOtaPacket_t :=
  let request := InitPacket UART_OTA_CMD_DATA (ua_update_id artifact) offset sequence in
  up_set_payload (u16 chunk) (store 0 bytes (up_payload request)) request.

Definition ChunkLength (artifact : UartOtaArtifact_t) (offset : Z) : Z :=
  let chunk := u32 (ua_image_size artifact - offset) in
  if UART_OTA_MAX_PAYLOAD <? chunk then UART_OTA_MAX_PAYLOAD else chunk.

Definition ReportProgress (client : UartOtaClient_t) (sent total : Z) : G unit :=
  match cc_progress client with
  | None => gret tt
  | Some progress => lift (fun e => (tt, progress sent total e))
  end.

Fixpoint SendDataLoop (n fuel : nat) (client : UartOtaClient_t) (artifact : UartOtaArtifact_t)
    (read : Z -> Z -> Env -> esp_err_t * list Z * Env) (offset sequence : Z) : G esp_err_t :=
  if offset <? ua_image_size artifact then
    match n with
    | O => fun _ => None
    | S n =>
        let chunk := ChunkLength artifact offset in
        let! (status, bytes) := lift (read offset chunk) in
        if bool_decide (status <> ESP_OK) then gret status else
        let! ack := Command fuel client (DataRequest artifact offset sequence chunk bytes) in
        match ack with
        | inl status => gret status
        | inr ack =>
            if ai_next_expected_offset ack <>? u32 (offset + chunk)
            then gret ESP_ERR_INVALID_RESPONSE else
            let offset := u32 (offset + chunk) in
            let sequence := u16 (sequence + 1) in
            let! _ := ReportProgress client offset (ua_image_size artifact) in
            SendDataLoop n fuel client artifact read offset sequence
        end
    end
  else gret ESP_OK.

Definition SendData (fuel : nat) (client : UartOtaClient_t) (artifact : UartOtaArtifact_t)
    (read : Z -> Z -> Env -> esp_err_t * list Z * Env) (start_offset : Z) : G esp_err_t :=
  SendDataLoop fuel fuel client artifact read start_offset
    (u16 (Z.land (start_offset / UART_OTA_MAX_PAYLOAD) 0xFFFF)).

Definition FinishRequest (artifact : UartOtaArtifact_t) : UartOtaPacket_t :=
  let sequence := u16 (Z.land (u32 (ua_image_size artifact + UART_OTA_MAX_PAYLOAD - 1) /
                               UART_OTA_MAX_PAYLOAD) 0xFFFF) in
  InitPacket UART_OTA_CMD_FINISH (ua_update_id artifact) (ua_image_size artifact) sequence.

Definition FinishTransfer (fuel : nat) (client : UartOtaClient_t) (artifact : UartOtaArtifact_t)
    : G esp_err_t :=
  let request := FinishRequest artifact in
  let! ack := Command fuel client request in
  match ack with
  | inl status => gret status
  | inr ack =>
      if ai_update_state ack <>? UART_OTA_UPDATE_ARTIFACT_READY then gret ESP_ERR_INVALID_STATE else
      let! ack := Command fuel client request in
      match ack with
      | inl status => gret status
      | inr ack =>
          gret (if ai_update_state ack =? UART_OTA_UPDATE_ARTIFACT_READY
                then ESP_OK else ESP_ERR_INVALID_STATE)
      end
  end.

Definition Install (fuel : nat) (client : UartOtaClient_t) (artifact : UartOtaArtifact_t)
    : G esp_err_t :=
  let! ack := Command fuel client
    (InitPacket UART_OTA_CMD_INSTALL (ua_update_id artifact) (ua_image_size artifact) 0) in
  gret (status_of ack).

(** ** The final state *)

(** [final_info] is [None] for a null pointer, else what it points to; the
    result has what it points to afterwards.  [saw_trial] only selects a log
    message. *)
Fixpoint WaitLoop (n fuel : nat) (client : UartOtaClient_t) (artifact : UartOtaArtifact_t)
    (deadline : Z) (final_info : option UartOtaHelloInfo_t)
    : G (esp_err_t * option UartOtaHelloInfo_t) :=
  match n with
  | O => fun _ => None
  | S n =>
      let! expired := DeadlineExpired deadline in
      if (expired : bool) then gret (ESP_ERR_TIMEOUT, final_info) else
      let! info := QueryOnce fuel client in
      match info with
      | inl _ =>
          let! _ := Delay UART_OTA_POLL_DELAY_MS in
          WaitLoop n fuel client artifact deadline final_info
      | inr info =>
          if (hi_application_version info =? ua_target_version artifact) &&
             (hi_update_state info =? UART_OTA_UPDATE_IDLE)
          then gret (ESP_OK, (fun _ => info) <$> final_info) else
          if (hi_application_version info <>? ua_target_version artifact) &&
             (hi_update_state info =? UART_OTA_UPDATE_IDLE)
          then gret (ESP_ERR_INVALID_STATE, (fun _ => info) <$> final_info) else
          let! _ := Delay UART_OTA_POLL_DELAY_MS in
          WaitLoop n fuel client artifact deadline final_info
      end
  end.

Definition WaitForFinal (fuel : nat) (client : UartOtaClient_t) (artifact : UartOtaArtifact_t)
    (final_info : option UartOtaHelloInfo_t) : G (esp_err_t * option UartOtaHelloInfo_t) :=
  let! deadline := DeadlineUs UART_OTA_FINAL_TIMEOUT_MS in
  WaitLoop fuel fuel client artifact deadline final_info.

(** ** The whole update *)

(** The two ways the loop opens a transfer: [resume] is UART_OTA_PLAN_RESUME, not
    [resume] is UART_OTA_PLAN_START_NEW; [inr] is [start_offset]. *)
Definition OpenTransfer (fuel : nat) (client : UartOtaClient_t) (artifact : UartOtaArtifact_t)
    (resume : bool) : G (esp_err_t + Z) :=
  if resume then ResumeTransfer fuel client artifact else
  let! status := StartTransfer fuel client artifact in
  gret (if bool_decide (status <> ESP_OK) then inl status else inr 0).

(** Opening the transfer, SendData and FinishTransfer. *)
Definition TransferArtifact (fuel : nat) (client : UartOtaClient_t) (artifact : UartOtaArtifact_t)
    (read : Z -> Z -> Env -> esp_err_t * list Z * Env) (resume : bool) : G esp_err_t :=
  let! start_offset := OpenTransfer fuel client artifact resume in
  match start_offset with
  | inl status => gret status
  | inr start_offset =>
      let! status := SendData fuel client artifact read start_offset in
      if bool_decide (status <> ESP_OK) then gret status
      else FinishTransfer fuel client artifact
  end.

(** INSTALL resets the node, so that its answer may be lost: the final state
    decides. *)
Definition InstallAndWait (fuel : nat) (client : UartOtaClient_t) (artifact : UartOtaArtifact_t)
    (final_info : option UartOtaHelloInfo_t) : G (esp_err_t * option UartOtaHelloInfo_t) :=
  let! _ := Install fuel client artifact in
  WaitForFinal fuel client artifact final_info.

Definition TransferAndInstall (fuel : nat) (client : UartOtaClient_t) (artifact : UartOtaArtifact_t)
    (read : Z -> Z -> Env -> esp_err_t * list Z * Env) (resume : bool)
    (final_info : option UartOtaHelloInfo_t) : G (esp_err_t * option UartOtaHelloInfo_t) :=
  let! status := TransferArtifact fuel client artifact read resume in
  if bool_decide (status <> ESP_OK) then gret (status, final_info)
  else InstallAndWait fuel client artifact final_info.

(** The loop over [transitions]. *)
Fixpoint TransitionLoop (transitions : nat) (fuel : nat) (client : UartOtaClient_t)
    (artifact : UartOtaArtifact_t) (read : Z -> Z -> Env -> esp_err_t * list Z * Env)
    (target : UartOtaHelloInfo_t) (final_info : option UartOtaHelloInfo_t)
    : G (esp_err_t * option UartOtaHelloInfo_t) :=
  match transitions with
  | O => gret (ESP_ERR_INVALID_STATE, final_info)
  | S transitions =>
      match UartOta_SelectPlan (Some target) (ua_update_id artifact) (ua_image_size artifact)
              (ua_target_version artifact) with
      | UART_OTA_PLAN_ALREADY_TARGET => gret (ESP_OK, (fun _ => target) <$> final_info)
      | UART_OTA_PLAN_ABORT_FOREIGN =>
          let! status := AbortTransfer fuel client (hi_active_update_id target) in
          if bool_decide (status <> ESP_OK) then gret (status, final_info) else
          let! info := UartOta_Query fuel (Some client) true in
          match info with
          | inl status => gret (status, final_info)
          | inr target => TransitionLoop transitions fuel client artifact read target final_info
          end
      | UART_OTA_PLAN_START_NEW => TransferAndInstall fuel client artifact read false final_info
      | UART_OTA_PLAN_RESUME => TransferAndInstall fuel client artifact read true final_info
      | UART_OTA_PLAN_INSTALL_READY => InstallAndWait fuel client artifact final_info
      | UART_OTA_PLAN_WAIT_TARGET => WaitForFinal fuel client artifact final_info
      | UART_OTA_PLAN_ERROR => gret (ESP_ERR_INVALID_STATE, final_info)
      end
  end.

(** The capability and version tests behind the first query. *)
Definition CheckTarget (artifact : UartOtaArtifact_t) (target : UartOtaHelloInfo_t) : esp_err_t :=
  if Z.land (hi_capability_flags target) UART_OTA_CAP_FULL_IMAGE =? 0 then ESP_ERR_NOT_SUPPORTED else
  if (ua_artifact_type artifact =? 2) &&
     (Z.land (hi_capability_flags target) UART_OTA_CAP_DELTA_IMAGE =? 0)
  then ESP_ERR_NOT_SUPPORTED else
  if (ua_artifact_type artifact =? 2) &&
     (ua_base_version artifact <>? hi_application_version target)
  then ESP_ERR_INVALID_VERSION else
  if (ua_artifact_type artifact <>? 2) && (ua_artifact_type artifact <>? 1)
  then ESP_ERR_INVALID_ARG else
  if (ua_container_header_size artifact =? 140) &&
     (Z.land (hi_capability_flags target) UART_OTA_CAP_SIGNATURE_VERIFY =? 0)
  then ESP_ERR_NOT_SUPPORTED else ESP_OK.

Definition UartOta_TransferInstallAndWait (fuel : nat) (client : option UartOtaClient_t)
    (artifact : option UartOtaArtifact_t) (final_info : option UartOtaHelloInfo_t)
    : G (esp_err_t * option UartOtaHelloInfo_t) :=
  match client, artifact with
  | Some client, Some artifact =>
      match ua_read artifact with
      | None => gret (ESP_ERR_INVALID_ARG, final_info)
      | Some read =>
          if (ua_update_id artifact =? 0) || (ua_target_version artifact =? 0) ||
             (ua_image_size artifact =? 0) ||
             ((ua_artifact_type artifact <>? 1) && (ua_artifact_type artifact <>? 2))
          then gret (ESP_ERR_INVALID_ARG, final_info) else
          let! target := UartOta_Query fuel (Some client) true in
          match target with
          | inl status => gret (status, final_info)
          | inr target =>
              let status := CheckTarget artifact target in
              if bool_decide (status <> ESP_OK) then gret (status, final_info)
              else TransitionLoop 4 fuel client artifact read target final_info
          end
      end
  | _, _ => gret (ESP_ERR_INVALID_ARG, final_info)
  end.

End client.
