(* ===== verification/GatewayRuns.v ===== *)
(** * GatewayRuns: the client returns, and what ESP_OK means

    For every environment whose clock advances while the client waits: each
    function of [GatewayClient] returns when its fuel covers the longest
    time-out, whatever bytes arrive, and the update is reported as done only
    when the node reported the target version in IDLE. *)

From S2P Require Import Prelude Bytes Crc32 Buffer Cobs OtaPacket OtaParser GatewayProtocol.
From S2P Require Import GatewayClient.

(** ** Packets that arrive are well typed *)

Lemma UartOta_Deserialize_typed raw n g :
  bytes_ok raw -> n <= len raw -> UartOta_Deserialize (Some raw) n = Some g -> up_typed g.
Proof.
  intros Hraw Hn. rewrite UartOta_Deserialize_eq by done.
  destruct (OtaPacket_Deserialize raw n zero_packet) as [p st] eqn:E.
  destruct st; try discriminate. intros [= <-].
  apply OtaPacket_Deserialize_accepts in E as (Hp & _); [|done|done|apply zero_packet_typed].
  pose proof (pw_typed p Hp) as []. split; try assumption; cbn [gateway_packet up_payload].
  - rewrite store_length. by vm_compute.
  - apply store_ok; [by apply Forall_take|]. by apply Forall_replicate.
Qed.

Lemma UartOta_DecodeFrame_typed raw frame n g :
  bytes_ok raw -> len raw = UART_OTA_MAX_RAW_PACKET -> bytes_ok frame ->
  UartOta_DecodeFrame raw (Some frame) n = Some g -> up_typed g.
Proof.
  intros Hraw Hr Hf. unfold UartOta_DecodeFrame. case_if; [done|].
  set (n' := if byte_at frame (n - 1) =? 0 then n - 1 else n). case_if; [done|].
  rewrite UartOta_CobsDecode_eq.
  destruct (Cobs_Decode_bounds frame n' raw OTA_PACKET_MAX_RAW_SIZE Hf max_raw_u32 Hraw) as (H1 & H2 & H3).
  change UART_OTA_MAX_RAW_PACKET with OTA_PACKET_MAX_RAW_SIZE in *.
  destruct (Cobs_Decode _ _ _ _) as [raw' [m|]]; cbn [fst snd] in *; [|done].
  specialize (H3 m eq_refl). intros H. eapply UartOta_Deserialize_typed; [exact H1| |exact H]. lia.
Qed.

Lemma UartOta_ParseAck_typed g ack :
  up_typed g -> UartOta_ParseAck g = Some ack -> is_u32 (ai_next_expected_offset ack).
Proof.
  intros [] H. unfold UartOta_ParseAck in H. case_if_in H; [done|]. injection H as <-.
  by apply GetU32Le_range, Forall_drop.
Qed.

(** ** The clock *)

(** What the client relies on: time never runs backwards, the timer is read in
    between, a read of the UART or a delay takes time, and bytes are bytes. *)
Class EspClock (IDF : EspIdf) := {
  clock : Env -> Z;
  ck_get_time e : clock e <= fst (esp_timer_get_time e) <= clock (snd (esp_timer_get_time e));
  ck_write n bs e : clock e <= clock (snd (uart_write_bytes n bs e));
  ck_wait n t e : clock e <= clock (snd (uart_wait_tx_done n t e));
  ck_read n t e : clock e < clock (snd (uart_read_bytes n t e));
  ck_byte n t e : is_byte (snd (fst (uart_read_bytes n t e)));
  ck_delay t e : clock e < clock (vTaskDelay t e)
}.

Record locals_typed (l : ClientLocals) : Prop := {
  cy_raw : bytes_ok (cl_raw l);
  cy_raw_size : len (cl_raw l) = UART_OTA_MAX_RAW_PACKET;
  cy_encoded : bytes_ok (cl_encoded l);
  cy_encoded_size : len (cl_encoded l) = UART_OTA_MAX_ENCODED_FRAME
}.

Section runs.
Context {IDF : EspIdf} {CK : EspClock IDF}.
Context (locals : ClientLocals) (Hlocals : locals_typed locals).
Implicit Types e : Env.

(** [m] returns, time passes, and [Q] relates the result and both states. *)
Definition returns {A} (m : G A) (Q : A -> Z -> Prop) (e : Env) : Prop :=
  exists a e', m e = Some (a, e') /\ clock e <= clock e' /\ Q a (clock e').

Lemma returns_ret {A} (a : A) Q e : Q a (clock e) -> returns (gret a) Q e.
Proof. intros H. exists a, e. split; [done|]. split; [lia|done]. Qed.

Lemma returns_mono {A} (m : G A) (Q Q' : A -> Z -> Prop) e :
  returns m Q e -> (forall a t, clock e <= t -> Q a t -> Q' a t) -> returns m Q' e.
Proof. intros (a & e' & H1 & H2 & H3) HQ. exists a, e'. split_and!; auto. Qed.

Lemma returns_bind {A B} (m : G A) (k : A -> G B) Q R e :
  returns m R e -> (forall a e', clock e <= clock e' -> R a (clock e') -> returns (k a) Q e') ->
  returns (gbind m k) Q e.
Proof.
  intros (a & e1 & H1 & H2 & H3) Hk. destruct (Hk a e1 H2 H3) as (b & e2 & H4 & H5 & H6).
  exists b, e2. unfold gbind. rewrite H1. split; [exact H4|]. split; [lia|exact H6].
Qed.

Lemma returns_lift {A} (f : Env -> A * Env) (Q : A -> Z -> Prop) e :
  clock e <= clock (snd (f e)) -> Q (fst (f e)) (clock (snd (f e))) -> returns (lift f) Q e.
Proof. intros H HQ. exists (fst (f e)), (snd (f e)). unfold lift. by destruct (f e). Qed.

Lemma returns_DeadlineUs timeout_ms e :
  returns (DeadlineUs timeout_ms)
    (fun deadline t => clock e + timeout_ms * 1000 <= deadline <= t + timeout_ms * 1000) e.
Proof.
  pose proof (ck_get_time e). eapply returns_bind.
  - apply returns_lift with (Q := fun now t => clock e <= now <= t); lia.
  - intros now e' _ Hn. cbv beta in Hn. apply returns_ret. lia.
Qed.

Lemma returns_DeadlineExpired deadline e :
  returns (DeadlineExpired deadline)
    (fun expired t => if (expired : bool) then deadline <= t else clock e < deadline) e.
Proof.
  pose proof (ck_get_time e). eapply returns_bind.
  - apply returns_lift with (Q := fun now t => clock e <= now <= t); lia.
  - intros now e' Ht Hn. cbv beta in Hn. apply returns_ret. destruct (Z.leb_spec deadline now); lia.
Qed.

Lemma returns_Delay ms e : returns (Delay ms) (fun _ t => clock e < t) e.
Proof. pose proof (ck_delay (pdMS_TO_TICKS ms) e). apply returns_lift; cbn; lia. Qed.

Lemma returns_SendFrame client packet e : returns (SendFrame locals client packet) (fun _ _ => True) e.
Proof.
  unfold SendFrame. destruct (UartOta_EncodeFrame _ _ _ _) as [frame [n|]]; [|by apply returns_ret].
  eapply returns_bind; [apply returns_lift with (Q := fun _ _ => True); [apply ck_write|done]|].
  intros written e1 _ _. case_if; [by apply returns_ret|].
  apply returns_lift; [apply ck_wait|done].
Qed.

(** Enough fuel to reach the deadline, one microsecond per pass. *)
Definition enough (fuel : nat) (deadline now : Z) : Prop :=
  0 < Z.of_nat fuel /\ deadline - now < Z.of_nat fuel.

Lemma enough_step fuel deadline now now' :
  enough (S fuel) deadline now -> now < deadline -> now < now' -> enough fuel deadline now'.
Proof. unfold enough. lia. Qed.

Lemma returns_ReadFrameLoop fuel client deadline : forall encoded encoded_length overflow e,
  enough fuel deadline (clock e) -> bytes_ok encoded ->
  returns (ReadFrameLoop locals fuel client deadline encoded encoded_length overflow)
    (fun r t => match r with
       | inl status => status = ESP_FAIL \/ (status = ESP_ERR_TIMEOUT /\ deadline <= t)
       | inr packet => clock e < t /\ up_typed packet
       end) e.
Proof using Hlocals.
  induction fuel as [|fuel IH]; intros encoded n overflow e Hfuel Henc; cbn [ReadFrameLoop];
    [unfold enough in Hfuel; lia|].
  eapply returns_bind; [apply returns_DeadlineExpired|]. intros expired e1 H1 Hexp. cbv beta in Hexp.
  destruct expired; [apply returns_ret; by right|].
  pose proof (ck_read (uc_uart_num (cc_config client)) (pdMS_TO_TICKS 20) e1) as Hread.
  pose proof (ck_byte (uc_uart_num (cc_config client)) (pdMS_TO_TICKS 20) e1) as Hbyte.
  eapply returns_bind; [apply returns_lift with (Q := fun x t => is_byte (snd x) /\ clock e1 < t);
    [lia|by split]|].
  intros [read byte] e2 _ [Hb H2]. cbn [fst snd] in Hb, H2.
  assert (Hnext : forall encoded' n' overflow', bytes_ok encoded' ->
    returns (ReadFrameLoop locals fuel client deadline encoded' n' overflow')
      (fun r t => match r with
         | inl status => status = ESP_FAIL \/ (status = ESP_ERR_TIMEOUT /\ deadline <= t)
         | inr packet => clock e < t /\ up_typed packet
         end) e2).
  { intros. eapply returns_mono; [apply IH; [eapply enough_step; [exact Hfuel|lia|lia]|done]|].
    intros [status|packet] t Ht; [done|]. intros [? ?]. split; [lia|done]. }
  assert (Hst : bytes_ok (store n [byte] encoded)) by (apply store_ok; [by apply Forall_singleton|done]).
  case_if; [apply returns_ret; by left|]. case_if; [by apply Hnext|].
  case_if; [case_if; [by apply Hnext|]; case_if; by apply Hnext|].
  case_if; [by apply Hnext|]. case_if; [by apply Hnext|].
  destruct (UartOta_DecodeFrame _ _ _) as [packet|] eqn:Edec; [|by apply Hnext].
  apply returns_ret. split; [lia|].
  eapply UartOta_DecodeFrame_typed; [apply Hlocals|apply Hlocals|exact Henc|exact Edec].
Qed.

(** The fuel every function below takes: more than any of its time-outs. *)
Definition fuel_covers (fuel : nat) (ms : Z) : Prop := 0 <= ms /\ ms * 1000 < Z.of_nat fuel.

Lemma fuel_enough fuel ms deadline now :
  fuel_covers fuel ms -> deadline <= now + ms * 1000 -> enough fuel deadline now.
Proof. unfold fuel_covers, enough. lia. Qed.

Lemma returns_ReadFrame fuel client ms e :
  fuel_covers fuel ms -> 0 < ms ->
  returns (ReadFrame locals fuel client ms)
    (fun r t => match r with
       | inl status => status = ESP_FAIL \/ (status = ESP_ERR_TIMEOUT /\ clock e < t)
       | inr packet => clock e < t /\ up_typed packet
       end) e.
Proof using Hlocals.
  intros Hf Hms. eapply returns_bind; [apply returns_DeadlineUs|]. intros deadline e1 H1 Hd. cbv beta in Hd.
  eapply returns_mono; [apply returns_ReadFrameLoop; [eapply fuel_enough; [exact Hf|lia]|apply Hlocals]|].
  intros [status|packet] t Ht; [|intros [? ?]; split; [lia|done]].
  intros [->|[? ?]]; [by left|right; split; [done|lia]].
Qed.

Lemma returns_AwaitAnswer n fuel client request deadline : forall last_error e,
  enough n deadline (clock e) -> fuel_covers fuel 100 -> last_error <> ESP_OK ->
  returns (AwaitAnswer locals n fuel client request deadline last_error)
    (fun r _ => match r with inl status => status <> ESP_OK | inr packet => up_typed packet end) e.
Proof using Hlocals.
  induction n as [|n IH]; intros last_error e Hn Hf Hne; cbn [AwaitAnswer]; [unfold enough in Hn; lia|].
  eapply returns_bind; [apply returns_DeadlineExpired|]. intros expired e1 H1 Hexp. cbv beta in Hexp.
  destruct expired; [by apply returns_ret|].
  eapply returns_bind; [by apply returns_ReadFrame|]. intros r e2 H2 Hr. cbv beta in Hr.
  destruct r as [status|candidate].
  - assert (Hretry : status = ESP_ERR_TIMEOUT -> enough n deadline (clock e2)).
    { intros ->. destruct Hr as [?|[_ Hr]]; [done|]. eapply enough_step; [exact Hn|lia|lia]. }
    destruct Hr as [->|[-> _]]; [by apply returns_ret|]. by apply IH; [apply Hretry| |].
  - destruct Hr as [Hr Htyped]. case_if; [by apply returns_ret|].
    apply IH; [|done|done]. eapply enough_step; [exact Hn|lia|lia].
Qed.

Lemma returns_RequestLoop attempts fuel client request : forall last_error e,
  fuel_covers fuel (uc_response_timeout_ms (cc_config client)) -> fuel_covers fuel 100 ->
  last_error <> ESP_OK ->
  returns (RequestLoop locals attempts fuel client request last_error)
    (fun r _ => match r with inl status => status <> ESP_OK | inr packet => up_typed packet end) e.
Proof using Hlocals.
  induction attempts as [|attempts IH]; intros last_error e Hf Hf' Hne; cbn [RequestLoop];
    [by apply returns_ret|].
  eapply returns_bind; [apply returns_SendFrame|]. intros status e1 _ _.
  case_if; [apply bool_decide_eq_true in E; by apply IH|].
  eapply returns_bind; [apply returns_DeadlineUs|]. intros deadline e2 _ Hd. cbv beta in Hd.
  eapply returns_bind; [apply returns_AwaitAnswer; [eapply fuel_enough; [exact Hf|lia]|done|done]|].
  intros [last|response] e3 _ H3; [by apply IH|by apply returns_ret].
Qed.

(** Requests, and everything built from a bounded number of them. *)
Section commands.
Context (fuel : nat) (client : UartOtaClient_t).
Context (Hfuel : fuel_covers fuel (uc_response_timeout_ms (cc_config client))).
Context (Hfinal : fuel_covers fuel UART_OTA_FINAL_TIMEOUT_MS).

Lemma fuel_covers_le ms : 0 <= ms <= UART_OTA_FINAL_TIMEOUT_MS -> fuel_covers fuel ms.
Proof using Hfinal. unfold fuel_covers, UART_OTA_FINAL_TIMEOUT_MS in *. lia. Qed.

Lemma returns_Request request e :
  returns (Request locals fuel client request)
    (fun r _ => match r with inl status => status <> ESP_OK | inr packet => up_typed packet end) e.
Proof using Hlocals Hfuel Hfinal. apply returns_RequestLoop; [done| |done]. by apply fuel_covers_le. Qed.

Lemma returns_Command request e :
  returns (Command locals fuel client request)
    (fun r _ => match r with inl status => status <> ESP_OK | inr ack => is_u32 (ai_next_expected_offset ack) end) e.
Proof using Hlocals Hfuel Hfinal.
  eapply returns_bind; [apply returns_Request|]. intros [status|response] e1 _ Hr; [by apply returns_ret|].
  apply returns_ret. unfold RequireAck. destruct (UartOta_ParseAck response) as [ack|] eqn:E; [|done].
  case_if; [done|]. by eapply UartOta_ParseAck_typed.
Qed.

(** An error is never reported as ESP_OK. *)
Definition not_ok {A} (r : esp_err_t + A) : Prop :=
  match r with inl status => status <> ESP_OK | inr _ => True end.

Lemma returns_QueryOnce e : returns (QueryOnce locals fuel client) (fun r _ => not_ok r) e.
Proof using Hlocals Hfuel Hfinal.
  eapply returns_bind; [apply returns_Request|]. intros [status|response] e1 _ Hr; [by apply returns_ret|].
  destruct (UartOta_ParseHello response); [|by apply returns_ret]. case_if; by apply returns_ret.
Qed.

Lemma returns_QueryLoop n deadline : forall last_error e,
  enough n deadline (clock e) -> last_error <> ESP_OK ->
  returns (QueryLoop locals n fuel client deadline last_error) (fun r _ => not_ok r) e.
Proof using Hlocals Hfuel Hfinal.
  induction n as [|n IH]; intros last_error e Hn Hne; cbn [QueryLoop]; [unfold enough in Hn; lia|].
  eapply returns_bind; [apply returns_DeadlineExpired|]. intros expired e1 H1 Hexp. cbv beta in Hexp.
  destruct expired; [by apply returns_ret|].
  eapply returns_bind; [apply returns_QueryOnce|]. intros [status|info] e2 H2 Hr; [|by apply returns_ret].
  eapply returns_bind; [apply returns_Delay|]. intros ? e3 H3 Hd. cbv beta in Hd.
  apply IH; [|exact Hr]. eapply enough_step; [exact Hn|lia|lia].
Qed.

Lemma returns_UartOta_Query c info e :
  (forall x, c = Some x -> x = client) ->
  returns (UartOta_Query locals fuel c info) (fun r _ => not_ok r) e.
Proof using Hlocals Hfuel Hfinal.
  intros Hc. eapply returns_bind; [apply returns_DeadlineUs|]. intros deadline e1 _ Hd. cbv beta in Hd.
  destruct c as [x|]; [|by apply returns_ret]. rewrite (Hc x eq_refl).
  destruct info; [|by apply returns_ret]. apply returns_QueryLoop; [|done].
  eapply fuel_enough; [apply (fuel_covers_le UART_OTA_CONNECT_TIMEOUT_MS); by vm_compute|lia].
Qed.

(** What ESP_OK promises: the node was seen in IDLE with the target version. *)
Definition target_seen (artifact : UartOtaArtifact_t) (final_info : option UartOtaHelloInfo_t)
    (r : esp_err_t * option UartOtaHelloInfo_t) : Prop :=
  forall old, final_info = Some old -> exists info, snd r = Some info /\
    (fst r = ESP_OK -> hi_application_version info = ua_target_version artifact /\
       hi_update_state info = UART_OTA_UPDATE_IDLE).

Lemma target_seen_error artifact final_info status :
  status <> ESP_OK -> target_seen artifact final_info (status, final_info).
Proof. intros Hne old ->. exists old. split; [done|]. by intros H. Qed.

Lemma target_seen_info artifact final_info info status :
  (status = ESP_OK -> (hi_application_version info =? ua_target_version artifact) &&
    (hi_update_state info =? UART_OTA_UPDATE_IDLE) = true) ->
  target_seen artifact final_info (status, (fun _ => info) <$> final_info).
Proof. intros H old ->. exists info. split; [done|]. intros Hok. specialize (H Hok). by to_prop. Qed.

Lemma returns_WaitLoop artifact final_info n deadline : forall e,
  enough n deadline (clock e) ->
  returns (WaitLoop locals n fuel client artifact deadline final_info)
    (fun r _ => target_seen artifact final_info r) e.
Proof using Hlocals Hfuel Hfinal.
  induction n as [|n IH]; intros e Hn; cbn [WaitLoop]; [unfold enough in Hn; lia|].
  eapply returns_bind; [apply returns_DeadlineExpired|]. intros expired e1 H1 Hexp. cbv beta in Hexp.
  destruct expired; [by apply returns_ret, target_seen_error|].
  eapply returns_bind; [apply returns_QueryOnce|]. intros r e2 H2 _.
  assert (Hagain : returns (gbind (Delay UART_OTA_POLL_DELAY_MS)
      (fun _ => WaitLoop locals n fuel client artifact deadline final_info))
    (fun r _ => target_seen artifact final_info r) e2).
  { eapply returns_bind; [apply returns_Delay|]. intros ? e3 H3 Hd. cbv beta in Hd.
    apply IH. eapply enough_step; [exact Hn|lia|lia]. }
  destruct r as [status|info]; [exact Hagain|].
  case_if; [by apply returns_ret, target_seen_info|].
  case_if; [by apply returns_ret, target_seen_info|exact Hagain].
Qed.

Lemma returns_WaitForFinal artifact final_info e :
  returns (WaitForFinal locals fuel client artifact final_info)
    (fun r _ => target_seen artifact final_info r) e.
Proof using Hlocals Hfuel Hfinal.
  eapply returns_bind; [apply returns_DeadlineUs|]. intros deadline e1 _ Hd. cbv beta in Hd.
  apply returns_WaitLoop. eapply fuel_enough; [exact Hfinal|lia].
Qed.

Lemma returns_status_of {A} (m : G (esp_err_t + A)) R e :
  returns m R e -> returns (gbind m (fun r => gret (status_of r))) (fun _ _ => True) e.
Proof using. intros H. eapply returns_bind; [exact H|]. intros. by apply returns_ret. Qed.

Lemma returns_FinishTransfer artifact e :
  returns (FinishTransfer locals fuel client artifact) (fun _ _ => True) e.
Proof using Hlocals Hfuel Hfinal.
  eapply returns_bind; [apply returns_Command|]. intros [status|ack] e1 _ ?; [by apply returns_ret|].
  case_if; [by apply returns_ret|].
  eapply returns_bind; [apply returns_Command|]. intros [status|ack'] e2 _ ?; by apply returns_ret.
Qed.

Lemma returns_InstallAndWait artifact final_info e :
  returns (InstallAndWait locals fuel client artifact final_info)
    (fun r _ => target_seen artifact final_info r) e.
Proof using Hlocals Hfuel Hfinal.
  eapply returns_bind; [eapply returns_status_of, returns_Command|]. intros status e1 _ _.
  apply returns_WaitForFinal.
Qed.

(** The transfer; one pass of its loop per chunk. *)
Section artifact.
Context (artifact : UartOtaArtifact_t) (read : Z -> Z -> Env -> esp_err_t * list Z * Env).
Context (Hread : forall offset n e, clock e <= clock (snd (read offset n e))).
Context (Hprogress : forall progress sent total e,
  cc_progress client = Some progress -> clock e <= clock (progress sent total e)).
Context (Hsize : is_u32 (ua_image_size artifact)).

Lemma ChunkLength_bound offset :
  0 <= offset < ua_image_size artifact ->
  0 < ChunkLength artifact offset <= UART_OTA_MAX_PAYLOAD /\
  offset + ChunkLength artifact offset <= ua_image_size artifact.
Proof using Hsize.
  intros Ho. unfold ChunkLength, UART_OTA_MAX_PAYLOAD, is_u32 in *.
  rewrite u32_small by (unfold is_u32; lia). cbv zeta.
  destruct (Z.ltb_spec 256 (ua_image_size artifact - offset)); lia.
Qed.

Lemma returns_SendDataLoop n : forall offset sequence e,
  0 <= offset -> ua_image_size artifact - offset <= Z.of_nat n ->
  returns (SendDataLoop locals n fuel client artifact read offset sequence) (fun _ _ => True) e.
Proof using Hlocals Hfuel Hfinal Hread Hprogress Hsize.
  induction n as [|n IH]; intros offset sequence e Ho Hn; cbn [SendDataLoop];
    (destruct (Z.ltb_spec offset (ua_image_size artifact)) as [Hlt|]; [|by apply returns_ret]); [lia|].
  destruct (ChunkLength_bound offset ltac:(lia)) as [Hc1 Hc2]. unfold is_u32 in Hsize.
  eapply returns_bind; [by apply returns_lift with (Q := fun _ _ => True)|].
  intros [status bytes] e1 _ _. case_if; [by apply returns_ret|].
  eapply returns_bind; [apply returns_Command|]. intros [st|ack] e2 _ ?; [by apply returns_ret|].
  case_if; [by apply returns_ret|].
  assert (Hp : returns (ReportProgress client (u32 (offset + ChunkLength artifact offset))
    (ua_image_size artifact)) (fun _ _ => True) e2).
  { unfold ReportProgress. destruct (cc_progress client) eqn:Ep; [|by apply returns_ret].
    apply returns_lift; [by eapply Hprogress|done]. }
  eapply returns_bind; [exact Hp|]. intros ? e3 _ _.
  rewrite u32_small by (unfold is_u32; lia). apply IH; lia.
Qed.

Context (Hchunks : ua_image_size artifact <= Z.of_nat fuel).

Lemma returns_OpenTransfer resume e :
  returns (OpenTransfer locals fuel client artifact resume)
    (fun r _ => match r with inl status => status <> ESP_OK | inr offset => 0 <= offset end) e.
Proof using Hlocals Hfuel Hfinal.
  unfold OpenTransfer. destruct resume.
  - eapply returns_bind; [apply returns_Command|]. intros [st|ack] e1 _ Hr; [by apply returns_ret|].
    cbv beta iota in Hr. unfold is_u32 in Hr. case_if; apply returns_ret; [done|lia].
  - eapply returns_bind; [eapply returns_status_of, returns_Command|]. intros status e1 _ _.
    apply returns_ret. case_if; [by apply bool_decide_eq_true in E|done].
Qed.

Lemma returns_TransferArtifact resume e :
  returns (TransferArtifact locals fuel client artifact read resume) (fun _ _ => True) e.
Proof using Hlocals Hfuel Hfinal Hread Hprogress Hsize Hchunks.
  eapply returns_bind; [apply returns_OpenTransfer|]. intros [st|offset] e1 _ Ho; [by apply returns_ret|].
  cbv beta iota in Ho. eapply returns_bind; [apply returns_SendDataLoop; lia|]. intros status e2 _ _.
  case_if; [by apply returns_ret|]. apply returns_FinishTransfer.
Qed.

Lemma returns_TransferAndInstall resume final_info e :
  returns (TransferAndInstall locals fuel client artifact read resume final_info)
    (fun r _ => target_seen artifact final_info r) e.
Proof using Hlocals Hfuel Hfinal Hread Hprogress Hsize Hchunks.
  eapply returns_bind; [apply returns_TransferArtifact|]. intros status e1 _ _.
  case_if; [|apply returns_InstallAndWait].
  apply returns_ret, target_seen_error. by apply bool_decide_eq_true in E.
Qed.

Lemma returns_TransitionLoop transitions final_info : forall target e,
  returns (TransitionLoop locals transitions fuel client artifact read target final_info)
    (fun r _ => target_seen artifact final_info r) e.
Proof using Hlocals Hfuel Hfinal Hread Hprogress Hsize Hchunks.
  induction transitions as [|n IH]; intros target e; cbn [TransitionLoop];
    [by apply returns_ret, target_seen_error|].
  assert (Herr : forall status, bool_decide (status <> ESP_OK) = true ->
    target_seen artifact final_info (status, final_info)).
  { intros status H. apply bool_decide_eq_true in H. by apply target_seen_error. }
  destruct (UartOta_SelectPlan _ _ _ _) eqn:Eplan.
  - apply returns_ret, target_seen_info. intros _. unfold UartOta_SelectPlan in Eplan.
    case_if_in Eplan; [done|]. case_if_in Eplan; [done|]. cbv zeta in Eplan.
    by repeat (case_if_in Eplan; try discriminate).
  - apply returns_TransferAndInstall.
  - apply returns_TransferAndInstall.
  - apply returns_InstallAndWait.
  - apply returns_WaitForFinal.
  - eapply returns_bind; [eapply returns_status_of, returns_Command|]. intros status e1 _ _.
    case_if; [by apply returns_ret, Herr|].
    eapply returns_bind; [apply returns_UartOta_Query; by intros x [= ->]|].
    intros [st|target'] e2 _ Hr; [by apply returns_ret, target_seen_error|apply IH].
  - by apply returns_ret, target_seen_error.
Qed.

End artifact.
End commands.

(** ** Properties *)

Lemma returns_TransferInstallAndWait fuel client artifact final_info e :
  fuel_covers fuel (uc_response_timeout_ms (cc_config client)) ->
  fuel_covers fuel UART_OTA_FINAL_TIMEOUT_MS ->
  is_u32 (ua_image_size artifact) -> ua_image_size artifact <= Z.of_nat fuel ->
  (forall read offset n e, ua_read artifact = Some read -> clock e <= clock (snd (read offset n e))) ->
  (forall progress sent total e, cc_progress client = Some progress ->
     clock e <= clock (progress sent total e)) ->
  returns (UartOta_TransferInstallAndWait locals fuel (Some client) (Some artifact)
    (Some final_info)) (fun r _ => target_seen artifact (Some final_info) r) e.
Proof using Hlocals.
  intros Hf Hfin Hsize Hchunks Hread Hprog.
  unfold UartOta_TransferInstallAndWait. destruct (ua_read artifact) as [read|] eqn:Er;
    [|by apply returns_ret, target_seen_error].
  case_if; [by apply returns_ret, target_seen_error|].
  eapply returns_bind; [eapply returns_UartOta_Query; [exact Hf|done|by intros x [= ->]]|].
  intros [st|target] e1 _ Hr; [by apply returns_ret, target_seen_error|]. cbv zeta.
  case_if; [apply bool_decide_eq_true in E0; by apply returns_ret, target_seen_error|].
  apply returns_TransitionLoop; try done. intros. by apply (Hread read).
Qed.

(** C29: The client returns and does not lie.  In every environment whose clock
    advances while the client waits, for every artifact callback and progress
    callback that let time pass, UartOta_TransferInstallAndWait returns with any
    fuel above its longest time-out in microseconds and the artifact size,
    whatever bytes arrive; and it reports ESP_OK only with a final HELLO answer
    that shows the target version in IDLE. *)
Theorem UartOta_TransferInstallAndWait_returns fuel client artifact final_info e :
  fuel_covers fuel (uc_response_timeout_ms (cc_config client)) ->
  fuel_covers fuel UART_OTA_FINAL_TIMEOUT_MS ->
  is_u32 (ua_image_size artifact) -> ua_image_size artifact <= Z.of_nat fuel ->
  (forall read offset n e, ua_read artifact = Some read -> clock e <= clock (snd (read offset n e))) ->
  (forall progress sent total e, cc_progress client = Some progress ->
     clock e <= clock (progress sent total e)) ->
  exists status info e',
    UartOta_TransferInstallAndWait locals fuel (Some client) (Some artifact) (Some final_info) e =
      Some ((status, Some info), e') /\ clock e <= clock e' /\
    (status = ESP_OK ->
       hi_application_version info = ua_target_version artifact /\
       hi_update_state info = UART_OTA_UPDATE_IDLE).
Proof using Hlocals.
  intros Hf Hfin Hsize Hchunks Hread Hprog.
  destruct (returns_TransferInstallAndWait fuel client artifact final_info e) as ([status fi] & e' & E & Ht & H);
    [done..|].
  destruct (H final_info eq_refl) as (info & Hi & Hok).
  cbn [fst snd] in Hi, Hok. subst fi. by exists status, info, e'.
Qed.

End runs.
