(* ===== verification/Delivery.v ===== *)
(** * Delivery: the node while one artifact is sent to it

    [OtaReceiver] against the requests a sender of one image makes: START for
    it, DATA with its bytes, FINISH, RESUME and queries.  Whatever their order,
    what the node has received is a prefix of the image; when it reports
    ARTIFACT_READY the whole image is in the Incoming partition and the
    checkpoint says so; and from then on these requests change nothing. *)

From S2P Require Import Prelude Bytes MemoryMap Crc32 AbRecord BootMetadata.
From S2P Require Import DownloadCheckpoint.
From S2P Require Import Device Logic SpiFlash ExternalFlashStorage AbStorage SectorRecords.
From S2P Require Import MetadataStorage TrialBoot Recovery FirmwareContainer Chunks.
From S2P Require Import TrialConfirmation.
From S2P Require Import Buffer Cobs OtaPacket OtaParser OtaLink OtaResponse OtaReceiver.
From S2P Require Import Reception Download Resume StartAbort.
From S2P Require Import GatewayProtocol.

Section delivery.
Context {HW : Hw}.
Context (update_id artifact_crc : Z) (image : list Z).
Implicit Types w : World HW.
Implicit Types s : OtaReceiverSession_t.

(** ** What an answer tells *)

(** The state in an answer is the state of the session behind it. *)
Definition tells s (r : OtaPacket_t) : Prop :=
  forall ack, UartOta_ParseAck (gateway_packet r) = Some ack -> ai_update_state ack = se_state s.

Lemma ParseAck_state g ack :
  UartOta_ParseAck g = Some ack -> ai_update_state ack = byte_at (up_payload g) 1.
Proof. unfold UartOta_ParseAck. case_if; [done|]. by intros [= <-]. Qed.

Lemma tells_status request response status s s' :
  packet_typed response -> se_state s' = se_state s ->
  tells s' (BuildStatus request status (OtaReceiver_GetResponseInfo s) response).
Proof.
  intros Hr Hst ack. set (info := OtaReceiver_GetResponseInfo s).
  assert (Hpay : packet_payload (BuildStatus request status info response) = status_payload request status info)
    by (apply status_stores, Hr).
  intros ->%ParseAck_state. rewrite Hst. cbn [gateway_packet up_payload].
  rewrite Hpay, store_eq; [|lia|rewrite length_replicate; by vm_compute].
  unfold status_payload. cbn [app]. apply byte_at_1.
Qed.

Lemma Ack_tells request response s :
  packet_typed response -> tells (fst (Ack request response s)) (snd (Ack request response s)).
Proof. intros. by apply tells_status. Qed.

Lemma Nack_tells request response status detail s :
  packet_typed response ->
  tells (fst (Nack request status detail response s)) (snd (Nack request status detail response s)).
Proof. intros. by apply tells_status. Qed.

Lemma Query_tells request response s :
  packet_typed response -> tells (fst (ProcessQuery request response s)) (snd (ProcessQuery request response s)).
Proof.
  intros Hr. unfold ProcessQuery. case_if; [by apply Nack_tells|]. cbn [fst snd]. intros ack.
  unfold UartOta_ParseAck. change (up_payload_length _ <>? UART_OTA_ACK_PAYLOAD_SIZE) with true.
  by rewrite orb_true_r.
Qed.

Lemma Resume_tells request response s :
  packet_typed response -> tells (fst (ProcessResume request response s)) (snd (ProcessResume request response s)).
Proof.
  intros. unfold ProcessResume. repeat case_if; first [by apply Nack_tells | by apply Ack_tells].
Qed.

(** ** The results of a call, whatever the hardware does *)

Definition always {A} (m : M HW A) (P : A -> Prop) : Prop :=
  forall w w' a, m w = (w', Ret a) -> P a.

Lemma always_ret {A} (a : A) (P : A -> Prop) : P a -> always (ret a) P.
Proof. by intros HP w w' b [= <- <-]. Qed.

Lemma always_bind {A B} (m : M HW A) (k : A -> M HW B) (R : A -> Prop) (P : B -> Prop) :
  always m R -> (forall a, R a -> always (k a) P) -> always (x <- m ;; k x) P.
Proof.
  intros Hm Hk w w' b. unfold bind. destruct (m w) as [w1 [a| |]] eqn:E; try done.
  apply Hk. by eapply Hm.
Qed.

Lemma always_true {A} (m : M HW A) : always m (fun _ => True).
Proof. done. Qed.

Lemma always_wp {A} (m : M HW A) (P : A -> Prop) (Q : A -> World HW -> Prop) C w :
  always m P -> wp m Q C w -> wp m (fun a w' => Q a w' /\ P a) C w.
Proof.
  intros HP. unfold wp. destruct (m w) as [w' [a| |]] eqn:E; try done. intros HQ.
  split; [exact HQ|]. by eapply HP.
Qed.

(** The answer is about the session returned. *)
Definition consistent (x : OtaReceiverSession_t * OtaPacket_t) : Prop := tells (fst x) (snd x).

Section handlers.
Context (request response : OtaPacket_t) (Hresponse : packet_typed response).

Lemma always_nack status detail s : always (ret (Nack request status detail response s)) consistent.
Proof using Hresponse. by apply always_ret, Nack_tells. Qed.

Lemma always_ack s : always (ret (Ack request response s)) consistent.
Proof using Hresponse. by apply always_ret, Ack_tells. Qed.

Lemma always_if {A} (b : bool) (m m' : M HW A) P :
  always m P -> always m' P -> always (if b then m else m') P.
Proof using. by destruct b. Qed.

Lemma always_nack_spi status s : always (NackSpiStatus request status response s) consistent.
Proof using Hresponse. eapply always_bind; [apply always_true|]. intros st _. apply always_nack. Qed.

(** One proof for every handler: all its branches answer about the session. *)
Ltac always_auto := repeat first
  [ apply always_nack | apply always_ack | apply always_nack_spi
  | apply always_if | eapply always_bind; [apply always_true|intros ? _]
  | match goal with
    | |- always (let '(_, _) := ?x in _) _ => destruct x
    | |- always (match ?x with _ => _ end) _ => destruct x
    end ].

Lemma ProcessStart_consistent s : always (ProcessStart request response s) consistent.
Proof using Hresponse. unfold ProcessStart. cbv zeta. always_auto. Qed.

Lemma ReceivePayload_consistent s :
  always (ReceivePayload request response s)
    (fun x => match x with inl x => consistent x | inr _ => True end).
Proof using Hresponse.
  unfold ReceivePayload. cbv zeta.
  assert (Hn : forall status detail s, always (ret (@inl _ OtaReceiverSession_t (Nack request status detail response s)))
    (fun x => match x with inl x => consistent x | inr _ => True end))
    by (intros; by apply always_ret, Nack_tells).
  repeat first [apply Hn | apply always_if | by apply always_ret
    | eapply always_bind; [apply always_nack_spi|intros ? ?; by apply always_ret]
    | eapply always_bind; [apply always_true|intros ? _]
    | match goal with |- always (let '(_, _) := ?x in _) _ => destruct x end].
Qed.

Lemma ProcessData_consistent s : always (ProcessData request response s) consistent.
Proof using Hresponse.
  unfold ProcessData. eapply always_bind; [apply ReceivePayload_consistent|].
  intros [x|s1] Hx; [by apply always_ret|]. unfold PersistAndAnswer. always_auto.
Qed.

Lemma ProcessFinish_consistent s : always (ProcessFinish request response s) consistent.
Proof using Hresponse. unfold ProcessFinish. cbv zeta. always_auto. Qed.

(** What a call that always returns proves of its result. *)
Lemma always_triple {A} N F (m : M HW A) (P : A -> Prop) :
  triple N F (fun _ => True) m (fun a _ => P a) -> always m P.
Proof using.
  intros H w w' a E. specialize (H w I). unfold wp in H. rewrite E in H. apply H.
Qed.

(** The session FINISH leaves. *)
Lemma ProcessFinish_session s :
  session_typed s ->
  always (ProcessFinish request response s) (fun x =>
    ~ active (fst x) \/ same_transfer s (fst x) \/ op_command (snd x) = OTA_CMD_ACK).
Proof using.
  intros Hs. unfold ProcessFinish. cbv zeta.
  assert (Hsame : forall status detail,
    always (ret (Nack request status detail response s)) (fun x =>
      ~ active (fst x) \/ same_transfer s (fst x) \/ op_command (snd x) = OTA_CMD_ACK))
    by (intros; apply always_ret; right; left; by repeat split).
  repeat (apply always_if; [first [apply Hsame | apply always_ret; by right; right]|]).
  eapply always_bind; [apply always_true|]. intros [crc|] _.
  2: { eapply always_bind; [apply always_true|]. intros st _. apply Hsame. }
  apply always_if; [apply always_ret; left; by intros [Ha|Ha]|].
  eapply (always_bind _ _ (fun x => fst x = se_set_persisted_offset (se_persisted_offset (fst x)) s)).
  { eapply always_triple, triple_post; [apply triple_Persist; [exact Hs|apply Hs]|].
    intros [s1 st] w (_ & H & _). exact H. }
  intros [s1 st] Heq. cbn [fst] in Heq. apply always_if; apply always_ret; [|by right; right].
  right. left. rewrite Heq. by repeat split.
Qed.

(** What START leaves when it does not begin a transfer. *)
Lemma ProcessStart_refused s :
  always (ProcessStart request response s) (fun x =>
    (exists status detail, x = Nack request status detail response s) \/
    ~ active (fst x) \/ se_last_status (fst x) = OTA_STATUS_OK).
Proof using.
  unfold ProcessStart. cbv zeta.
  repeat first [apply always_if
    | apply always_ret; first [by left; eexists _, _ | by right; right
        | right; left; cbn; by intros [Ha|Ha]]
    | eapply always_bind; [apply always_true|intros ? _]
    | match goal with |- always (let '(_, _) := ?x in _) _ => destruct x end].
Qed.

End handlers.

(** ** The session of the artifact *)

Record belongs s (data : list Z) : Prop := {
  be_update_id : se_update_id s = update_id;
  be_size : se_expected_size s = len image;
  be_crc : se_artifact_crc32 s = artifact_crc;
  be_data : data = take (length data) image
}.

Definition ready s : Prop := se_state s = state_word UPDATE_ARTIFACT_READY.

(** An active session receives the image. *)
Definition session_ok (h : hw) s : Prop :=
  exists data, receiver_inv h s data /\ (active s -> belongs s data).

(** The image is stored and the checkpoint says so. *)
Record delivered (h : hw) s : Prop := {
  dv_ready : ready s;
  dv_update_id : se_update_id s = update_id;
  dv_stored : nor_slice h EXT_INCOMING_ADDRESS (len image) = image;
  dv_checkpoint : exists r, current_checkpoint h = Some r /\
    checkpoint_of DOWNLOAD_CHECKPOINT_ARTIFACT_READY (len image) s r
}.

(** The requests of the sender. *)
Definition expected_request (p : OtaPacket_t) : Prop :=
  op_command p = OTA_CMD_QUERY \/ op_command p = OTA_CMD_RESUME \/ op_command p = OTA_CMD_FINISH \/
  (op_command p = OTA_CMD_START /\ op_update_id p = update_id /\
     GetU32Le (drop 12 (op_payload p)) = len image /\ GetU32Le (drop 16 (op_payload p)) = artifact_crc) \/
  (op_command p = OTA_CMD_DATA /\
     packet_payload p = slice (op_offset p) (op_payload_length p) image).

(** What handling such a request leaves. *)
Definition step_ok (x : OtaReceiverSession_t * OtaPacket_t) w : Prop :=
  session_ok (w_hw w) (fst x) /\ consistent x /\ (ready (fst x) -> delivered (w_hw w) (fst x)).

Lemma same_transfer_belongs s s' data data' :
  same_transfer s s' -> belongs s data -> data' = take (length data') image -> belongs s' data'.
Proof. intros (_ & E1 & _ & E2 & E3 & _) [] ?. split; congruence. Qed.

Lemma same_transfer_active s s' : same_transfer s s' -> active s' -> active s.
Proof. unfold active. intros (-> & _). done. Qed.

(** Appending the next bytes of the image. *)
Lemma image_grows data p :
  packet_wf p -> data = take (length data) image -> op_offset p = len data ->
  packet_payload p = slice (op_offset p) (op_payload_length p) image ->
  data ++ packet_payload p = take (length (data ++ packet_payload p)) image.
Proof.
  intros Hp Hd Ho Hpay. pose proof (packet_payload_len p Hp) as Hlen.
  pose proof (pt_payload_length _ (pw_typed _ Hp)) as Hn. unfold is_u16 in Hn.
  rewrite length_app. transitivity (take (Z.to_nat (len data + op_payload_length p)) image).
  - rewrite <- take_slice by lia. rewrite Nat2Z.id, <- Hd. f_equal. by rewrite <- Ho.
  - f_equal. lia.
Qed.

Section step.
Context (request response : OtaPacket_t).
Context (Hrequest : packet_wf request) (Hresponse : packet_typed response).

(** The session only changed its status. *)
Lemma status_step_ok status detail s w w' (r : OtaPacket_t) :
  frame in_ext_metadata nowhere (w_hw w) (w_hw w') -> is_u32 detail -> ~ ready s ->
  session_ok (w_hw w) s -> consistent (SetSessionStatus status detail s, r) ->
  step_ok (SetSessionStatus status detail s, r) w'.
Proof using.
  intros Hf Hd Hn (data & Hi & Hb) Hc. split; [|split; [exact Hc|]].
  - exists data. split.
    + apply SetSessionStatus_inv; [exact Hd|].
      eapply inv_frame; [|exact Hi]. eapply frame_mono; [|done|exact Hf]. by left.
    + intros Ha. by destruct (Hb Ha).
  - intros H. by destruct Hn.
Qed.

Lemma inactive_step_ok x w :
  session_typed (fst x) -> ~ active (fst x) -> consistent x -> step_ok x w.
Proof using.
  intros Hs Hn Hc. split; [|split; [exact Hc|]].
  - exists []. split; [by apply inactive_inv|]. by intros Ha.
  - intros H. destruct Hn. by right.
Qed.

Lemma triple_start s :
  op_update_id request = update_id -> GetU32Le (drop 12 (op_payload request)) = len image ->
  GetU32Le (drop 16 (op_payload request)) = artifact_crc -> ~ ready s ->
  triple packet_nor in_boot_metadata (fun w => session_ok (w_hw w) s)
    (ProcessStart request response s) step_ok.
Proof using Hrequest Hresponse.
  intros Hid Hsize Hcrc Hn w (data & Hi & Hb).
  pose proof (triple_ProcessStart_spec request response s Hrequest Hresponse (proj1 Hi) w I) as H1.
  pose proof (triple_ProcessStart request response s data Hrequest Hresponse w Hi) as H2.
  apply (always_wp _ _ _ _ _ (ProcessStart_refused request response s)) in H1.
  apply (always_wp _ _ _ _ _ (ProcessStart_consistent request response Hresponse s)) in H2.
  eapply wp_mono; [apply (wp_and _ _ _ _ _ _ H1 H2)| |by intros h [_ H]].
  intros x w' [[[Hf (Hok & Hno & _)] Hres] [[Hf' [Ha _]] Hc]]. split; [exact Hf'|].
  assert (Hs' : session_typed (fst x)) by (destruct x; apply Ha).
  destruct (Z.eq_dec (se_last_status (fst x)) OTA_STATUS_OK) as [Est|Est].
  - destruct (Hok Est) as (_ & (Hst & E1 & _ & E2 & E3 & _ & _) & Ht & _). split; [|split; [exact Hc|]].
    + exists []. split; [by split|]. intros _. split; congruence || done.
    + unfold ready. rewrite Hst. discriminate.
  - destruct Hres as [(status & detail & ->)|[Hna|?]]; [|by apply inactive_step_ok|done].
    eapply (status_step_ok status detail s w w'); [exact Hf|apply Hs'|exact Hn|by exists data|exact Hc].
Qed.

(** Outside RECEIVING, DATA is refused without looking at anything. *)
Lemma ProcessData_refused s w :
  se_state s <> state_word UPDATE_RECEIVING ->
  ProcessData request response s w = ret (Nack request OTA_STATUS_INVALID_STATE 0 response s) w.
Proof using.
  intros Hst. unfold ProcessData, ReceivePayload. by rewrite (proj2 (Z.eqb_neq _ _)) by exact Hst.
Qed.

Lemma triple_data s :
  packet_payload request = slice (op_offset request) (op_payload_length request) image -> ~ ready s ->
  triple packet_nor in_boot_metadata (fun w => session_ok (w_hw w) s)
    (ProcessData request response s) step_ok.
Proof using Hrequest Hresponse.
  intros Hpay Hn w (data & Hi & Hb). pose proof (proj1 Hi) as Hs.
  destruct (decide (se_state s = state_word UPDATE_RECEIVING)) as [Hst|Hst].
  2: { unfold wp. rewrite ProcessData_refused by exact Hst. cbn [ret].
       split; [apply frame_refl|]. eapply (status_step_ok _ _ s w w); [apply frame_refl|by vm_compute|exact Hn|
       by exists data|by apply Nack_tells]. }
  assert (Ha : active s) by (by left).
  pose proof (triple_ProcessData_receiving request response s data Hrequest Hresponse Hs Hst w (proj2 Hi Ha)) as H.
  apply (always_wp _ _ _ _ _ (ProcessData_consistent request response Hresponse s)) in H.
  eapply wp_mono; [exact H| |].
  - intros x w' [[Hf (Hans & Hsame & data' & Ht & Hd & _)] Hc]. split.
    { eapply frame_mono; [| |exact Hf]; [intros a; apply download_area_packet; lia|done]. }
    assert (Hs' : session_typed (fst x)) by (destruct x; apply Hans).
    split; [|split; [exact Hc|]].
    + exists data'. split; [by split|]. intros _. eapply same_transfer_belongs; [exact Hsame|exact (Hb Ha)|].
      destruct Hd as [->|[-> Ho]]; [apply (Hb Ha)|]. by apply image_grows; [|apply (Hb Ha)| |].
    + unfold ready. destruct Hsame as (-> & _). by rewrite Hst.
  - intros h Hf. eapply frame_mono; [| |exact Hf]; [intros a; apply download_area_packet; lia|done].
Qed.

(** In a state without a complete download, FINISH is refused. *)
Lemma ProcessFinish_refused s :
  ~ active s ->
  exists status detail, is_u32 detail /\
    forall w, ProcessFinish request response s w = ret (Nack request status detail response s) w.
Proof using.
  intros Hn. unfold ProcessFinish. cbv zeta.
  assert (Hz : is_u32 0) by (by vm_compute).
  case_if; [by exists OTA_STATUS_INVALID_PACKET, 0|].
  rewrite (proj2 (Z.eqb_neq (se_state s) (state_word UPDATE_ARTIFACT_READY))) by (intros H; apply Hn; by right).
  rewrite (proj2 (Z.eqb_neq (se_state s) (state_word UPDATE_RECEIVING))) by (intros H; apply Hn; by left).
  by exists OTA_STATUS_INVALID_STATE, 0.
Qed.

Lemma triple_finish s :
  ~ ready s ->
  triple packet_nor in_boot_metadata (fun w => session_ok (w_hw w) s)
    (ProcessFinish request response s) step_ok.
Proof using Hrequest Hresponse.
  intros Hn w (data & Hi & Hb). pose proof (proj1 Hi) as Hs.
  destruct (decide (active s)) as [Ha|Ha].
  2: { destruct (ProcessFinish_refused s Ha) as (status & detail & Hd & E). unfold wp. rewrite E. cbn [ret].
       split; [apply frame_refl|]. eapply (status_step_ok _ _ s w w); [apply frame_refl|exact Hd|exact Hn|
       by exists data|by apply Nack_tells]. }
  assert (Hst : se_state s = state_word UPDATE_RECEIVING) by (by destruct Ha).
  pose proof (triple_ProcessFinish_spec request response s data Hrequest Hresponse w Hi) as H.
  apply (always_wp _ _ _ _ _ (ProcessFinish_consistent request response Hresponse s)) in H.
  apply (always_wp _ _ _ _ _ (ProcessFinish_session request response s Hs)) in H.
  eapply wp_mono; [exact H| |].
  2: { intros h Hf. eapply frame_mono; [| |exact Hf]; [by left|done]. }
  intros x w' [[[Hf (Hans & Hi' & Hack)] Hc] Hres]. split.
  { eapply frame_mono; [| |exact Hf]; [by left|done]. }
  specialize (Hack Hst). pose proof (proj1 Hi') as Hs'. pose proof (Hb Ha) as Hbel.
  destruct Hres as [Ha'|[Hsame|Hcmd]]; [by apply inactive_step_ok| |].
  - split; [|split; [exact Hc|]].
    + exists data. split; [exact Hi'|]. intros _. eapply same_transfer_belongs; [exact Hsame|exact Hbel|apply Hbel].
    + unfold ready. destruct Hsame as (-> & _). by rewrite Hst.
  - destruct (Hack Hcmd) as (Hst' & Hsame & Hlen & _ & r & Hr & Hck).
    assert (Hbel' : belongs (fst x) data).
    { eapply same_transfer_belongs; [exact Hsame|destruct Hbel; by split|apply Hbel]. }
    split; [|split; [exact Hc|]]; [by exists data|]. intros _.
    assert (Himg : data = image).
    { rewrite (be_data _ _ Hbel). apply take_ge. rewrite (be_size _ _ Hbel) in Hlen. lia. }
    destruct Hsame as (E0 & E1 & E2 & E3 & E4 & E5). cbn [se_set_state se_update_id se_expected_size
      se_target_version se_artifact_crc32] in E1, E2, E3, E4.
    split; [exact Hst'|apply Hbel'| |].
    + rewrite <- Himg. apply (tr_stored _ _ _ (proj2 Hi' (or_intror Hst'))).
    + exists r. split; [exact Hr|]. unfold checkpoint_of in *.
      rewrite E1, E2, E3, E4, <- (be_size _ _ Hbel). exact Hck.
Qed.
(** ** Requests that change nothing *)

(** [m] answers at once and only notes the status. *)
Definition quiet s (m : M HW (OtaReceiverSession_t * OtaPacket_t)) : Prop :=
  exists status detail r, is_u32 detail /\ consistent (SetSessionStatus status detail s, r) /\
    forall w, m w = ret (SetSessionStatus status detail s, r) w.

Lemma quiet_nack status detail s :
  is_u32 detail -> quiet s (ret (Nack request status detail response s)).
Proof using Hresponse.
  intros Hd. eexists status, detail, _. split; [exact Hd|]. split; [|reflexivity]. by apply Nack_tells.
Qed.

Lemma quiet_ack s : quiet s (ret (Ack request response s)).
Proof using Hresponse.
  eexists OTA_STATUS_OK, 0, _. split; [by vm_compute|]. split; [|reflexivity]. by apply Ack_tells.
Qed.

Lemma quiet_query s : quiet s (ret (ProcessQuery request response s)).
Proof using Hresponse.
  unfold ProcessQuery. case_if; [apply quiet_nack; by vm_compute|].
  eexists OTA_STATUS_OK, 0, _. split; [by vm_compute|]. split; [|reflexivity].
  intros ack. unfold UartOta_ParseAck. change (up_payload_length _ <>? UART_OTA_ACK_PAYLOAD_SIZE) with true.
  by rewrite orb_true_r.
Qed.

Lemma quiet_resume s : quiet s (ret (ProcessResume request response s)).
Proof using Hresponse.
  unfold ProcessResume. repeat (case_if; [apply quiet_nack; by vm_compute|]). apply quiet_ack.
Qed.

(** A complete download is not touched by START, DATA and FINISH. *)
Lemma ready_quiet s :
  ready s ->
  quiet s (ProcessStart request response s) /\ quiet s (ProcessData request response s) /\
  quiet s (ProcessFinish request response s).
Proof using Hresponse.
  unfold ready. intros Hst. assert (Hz : is_u32 0) by (by vm_compute). split_and!.
  - unfold ProcessStart. cbv zeta. case_if; [by apply quiet_nack|]. rewrite Hst.
    change ((state_word UPDATE_ARTIFACT_READY <>? state_word UPDATE_IDLE) &&
      (state_word UPDATE_ARTIFACT_READY <>? state_word UPDATE_FAILED) &&
      (state_word UPDATE_ARTIFACT_READY <>? state_word UPDATE_RECEIVING)) with true. by apply quiet_nack.
  - destruct (quiet_nack OTA_STATUS_INVALID_STATE 0 s Hz) as (st & d & r & H1 & H2 & H3).
    exists st, d, r. split; [exact H1|]. split; [exact H2|]. intros w.
    rewrite ProcessData_refused by (by rewrite Hst). apply H3.
  - unfold ProcessFinish. cbv zeta. case_if; [by apply quiet_nack|]. case_if; [apply quiet_ack|].
    rewrite Hst. change (state_word UPDATE_ARTIFACT_READY <>? state_word UPDATE_RECEIVING) with true.
    by apply quiet_nack.
Qed.
End step.

(** ** Every expected request *)

(** What holds between requests. *)
Record node_ok (h : hw) s : Prop := {
  no_session : session_ok h s;
  no_ready : ready s -> delivered h s
}.

Lemma node_ok_status h status detail s :
  is_u32 detail -> node_ok h s -> node_ok h (SetSessionStatus status detail s).
Proof using.
  intros Hd [(data & Hi & Hb) Hr]. split.
  - exists data. split; [by apply SetSessionStatus_inv|]. intros Ha. by destruct (Hb Ha).
  - intros H. by destruct (Hr H).
Qed.

Definition node_post s (x : OtaReceiverSession_t * OtaPacket_t) w : Prop :=
  node_ok (w_hw w) (fst x) /\ consistent x /\ (ready s -> ready (fst x)).

Lemma triple_quiet s (m : M HW (OtaReceiverSession_t * OtaPacket_t)) :
  quiet s m -> triple packet_nor in_boot_metadata (fun w => node_ok (w_hw w) s) m (node_post s).
Proof using.
  intros (status & detail & r & Hd & Hc & E) w Hw. unfold wp. rewrite E. cbn [ret].
  split; [apply frame_refl|]. split; [by apply node_ok_status|]. by split.
Qed.

Lemma triple_step_ok s (m : M HW (OtaReceiverSession_t * OtaPacket_t)) :
  ~ ready s -> triple packet_nor in_boot_metadata (fun w => session_ok (w_hw w) s) m step_ok ->
  triple packet_nor in_boot_metadata (fun w => node_ok (w_hw w) s) m (node_post s).
Proof using.
  intros Hn H. eapply triple_conseq; [exact H|done|done|by intros w []|].
  intros x w (H1 & H2 & H3). by split_and!.
Qed.

(** Keeping the trial state aside. *)
Lemma triple_keep_trial (t : TrialState) P (m : M HW (OtaReceiverSession_t * OtaPacket_t)) Q :
  triple packet_nor in_boot_metadata P m Q ->
  triple packet_nor in_boot_metadata P (r <- m ;; ret (t, r)) (fun x w => Q (snd x) w).
Proof using. intros H. eapply triple_bind; [exact H|]. intros a. by apply triple_ret. Qed.

Lemma triple_expected request response t s :
  packet_wf request -> packet_typed response -> expected_request request ->
  triple packet_nor in_boot_metadata (fun w => node_ok (w_hw w) s)
    (OtaReceiver_ProcessPacket request response t s) (fun x w => node_post s (snd x) w).
Proof using.
  intros Hq Hr Hexp.
  assert (Hpure : forall x, quiet s (ret x) ->
    triple packet_nor in_boot_metadata (fun w => node_ok (w_hw w) s) (ret (t, x))
      (fun x w => node_post s (snd x) w)).
  { intros x Hx. apply triple_ret. intros w Hw. pose proof (triple_quiet s _ Hx w Hw) as H.
    unfold wp in H. cbn in H. apply H. }
  unfold OtaReceiver_ProcessPacket. cbv zeta.
  destruct Hexp as [->|[->|[->|[(-> & Hid & Hsize & Hcrc)|[-> Hpay]]]]]; cbn [orb].
  - apply Hpure. by apply quiet_query.
  - apply Hpure. by apply quiet_resume.
  - apply triple_keep_trial. destruct (decide (ready s)) as [Hrd|Hrd].
    + apply triple_quiet. by apply ready_quiet.
    + apply triple_step_ok; [exact Hrd|]. by apply triple_finish.
  - apply triple_keep_trial. destruct (decide (ready s)) as [Hrd|Hrd].
    + apply triple_quiet. by apply ready_quiet.
    + apply triple_step_ok; [exact Hrd|]. by apply triple_start.
  - apply triple_keep_trial. destruct (decide (ready s)) as [Hrd|Hrd].
    + apply triple_quiet. by apply ready_quiet.
    + apply triple_step_ok; [exact Hrd|]. by apply triple_data.
Qed.

(** Once the download is complete these requests cost no flash operation, so
    that power cannot fail in one. *)
Lemma ready_returns request response t s :
  packet_typed response -> expected_request request -> ready s ->
  exists x, forall w, OtaReceiver_ProcessPacket request response t s w = ret (t, x) w.
Proof using.
  intros Hr Hexp Hrd. destruct (ready_quiet request response Hr s Hrd) as (H1 & H2 & H3).
  assert (Hkeep : forall m, quiet s m -> exists x, forall w, (r <- m ;; ret (t, r)) w = ret (t, x) w).
  { intros m (st & d & r & _ & _ & E). eexists. intros w. unfold bind. rewrite E. reflexivity. }
  unfold OtaReceiver_ProcessPacket. cbv zeta.
  destruct Hexp as [->|[->|[->|[(-> & _)|[-> _]]]]]; cbn [orb]; [by eexists|by eexists|by apply Hkeep..].
Qed.

(** One expected request, wherever power fails. *)
Lemma wp_expected request response t s w :
  packet_wf request -> packet_typed response -> expected_request request -> node_ok (w_hw w) s ->
  wp (OtaReceiver_ProcessPacket request response t s)
    (fun x w' => node_post s (snd x) w' /\ packet_wf (snd (snd x))) (fun _ => ~ ready s) w.
Proof using.
  intros Hq Hr Hexp Hok. pose proof Hok as [(data & Hi & _) _].
  pose proof (wp_and _ _ _ _ _ _ (triple_expected request response t s Hq Hr Hexp w Hok)
    (triple_ProcessPacket request response t s data Hq Hr w Hi)) as H.
  destruct (decide (ready s)) as [Hrd|Hrd].
  - destruct (ready_returns request response t s Hr Hexp Hrd) as (x & E).
    unfold wp in H |- *. rewrite E in H |- *. cbn [ret] in H |- *.
    destruct H as [[_ H] [_ [Ha _]]]. split; [exact H|]. cbn [snd] in Ha |- *. destruct x. apply Ha.
  - eapply wp_mono; [exact H| |done]. intros [t' [s' r]] w' [[_ H1] [_ [Ha _]]].
    split; [exact H1|apply Ha].
Qed.

End delivery.
