(* ===== verification/GatewayLink.v ===== *)
(** * GatewayLink: the client of the gateway against the agent of the node

    An environment for [GatewayClient] whose UART leads, over an arbitrary
    link, to [OtaAgent].  At every call of the client the link hands the node
    any bytes made from the frames written so far, and the gateway any bytes
    made from the frames the node has sent: loss, damage, delay, repetition and
    reordering are all links.  The node may lose power in any flash operation,
    after which it is silent.  [ne_undetected] records, for the theorems, that
    one end accepted a packet the other end never sent: damage the CRC missed. *)

From S2P Require Import Prelude Bytes Crc32 Device MemoryMap Buffer Cobs OtaPacket.
From S2P Require Import OtaParser OtaLink.
From S2P Require Import OtaReceiver OtaAgent GatewayProtocol GatewayClient GatewayRuns.

#[export] Instance UartOtaPacket_eq_dec : EqDecision UartOtaPacket_t.
Proof. solve_decision. Defined.

(** What the link does at the [n]th call. *)
Record Link := mkLink {
  li_to_node : nat -> list (list Z) -> list Z;
  li_to_gateway : nat -> list (list Z) -> list Z;
  li_locals : nat -> nat -> Locals;
  li_overflow : nat -> Z;
  li_time : nat -> Z;
  li_written : nat -> list Z -> Z;
  li_wait : nat -> esp_err_t;
  li_silent : nat -> bool;
  li_read_error : nat -> bool
}.

(** ** What a reader of the wire could decode *)

(** The bytes in front of the first delimiter. *)
Fixpoint segment (wire : list Z) : option (list Z) :=
  match wire with
  | [] => None
  | b :: wire => if b =? 0 then Some [] else (b ::.) <$> segment wire
  end.

(** The packets of all segments, wherever the reader starts. *)
Fixpoint readable (raw : list Z) (wire : list Z) : list UartOtaPacket_t :=
  match wire with
  | [] => []
  | b :: rest =>
      match segment wire with
      | Some bytes => option_list (UartOta_DecodeFrame raw (Some bytes) (len bytes))
      | None => []
      end ++ readable raw rest
  end.

(** The packets of whole frames. *)
Definition frame_packets (raw : list Z) (frames : list (list Z)) : list UartOtaPacket_t :=
  omap (fun frame => UartOta_DecodeFrame raw (Some frame) (len frame)) frames.

Section link.
Context {HW : Hw}.
Context (link : Link) (raw : list Z).

(** The node: its memories, its agent, whether it runs, the frames it sent. *)
Record Node := mkNode {
  nd_world : World HW;
  nd_agent : OtaAgent;
  nd_running : bool;
  nd_sent : list (list Z)
}.

(** [ne_written]: the frames the gateway wrote; [ne_heard]: all bytes that came
    to it, of which it has not read [ne_wire]. *)
Record NodeEnv := mkNodeEnv {
  ne_step : nat;
  ne_clock : Z;
  ne_node : Node;
  ne_written : list (list Z);
  ne_heard : list Z;
  ne_wire : list Z;
  ne_undetected : bool
}.

Definition requests_of (e : NodeEnv) : list UartOtaPacket_t := frame_packets raw (ne_written e).
Definition answers_of (nd : Node) : list UartOtaPacket_t := frame_packets raw (nd_sent nd).

(** The parser when the agent looks at its next byte. *)
Definition agent_parser (overflow_count : Z) (a : OtaAgent) : OtaParser_t :=
  if overflow_count <>? g_last_rx_overflow_count a then OtaParser_Reset (g_parser a) else g_parser a.

(** Whether the byte completes a packet no frame of the gateway carries. *)
Definition unheard (written : list (list Z)) (overflow_count : Z) (l : Locals) (b : Z)
    (a : OtaAgent) : bool :=
  let '(_, request, event) :=
    OtaParser_PushByte (lo_parser_raw l) (agent_parser overflow_count a) b (lo_request l) in
  match event with
  | OTA_PARSER_EVENT_PACKET =>
      negb (bool_decide (gateway_packet request ∈ frame_packets raw written))
  | _ => false
  end.

(** One byte at the node, which stops when it resets or loses power. *)
Definition NodeByte (overflow_count : Z) (l : Locals) (b : Z) (nd : Node) : Node :=
  match OtaAgent_Process overflow_count [(b, l)] (nd_agent nd) (nd_world nd) with
  | (w, Ret (a, frames, reset)) => mkNode w a (negb reset) (nd_sent nd ++ frames)
  | (w, _) => mkNode w (nd_agent nd) false (nd_sent nd)
  end.

(** The node after some bytes, and whether it took one for a request that was
    never sent. *)
Fixpoint NodeReceive (written : list (list Z)) (overflow_count : Z) (ls : nat -> Locals)
    (bytes : list Z) (nd : Node) : Node * bool :=
  match bytes with
  | [] => (nd, false)
  | b :: bytes =>
      if nd_running nd then
        let l := ls (length bytes) in
        let '(nd', bad) := NodeReceive written overflow_count ls bytes (NodeByte overflow_count l b nd) in
        (nd', unheard written overflow_count l b (nd_agent nd) || bad)
      else (nd, false)
  end.

(** Whether new bytes for the gateway make a packet readable that the node has
    not sent. *)
Definition unsent (nd : Node) (heard bytes : list Z) : bool :=
  match bytes with
  | [] => false
  | _ => negb (bool_decide (Forall (fun g => g ∈ answers_of nd) (readable raw (heard ++ bytes))))
  end.

(** What happens around every call of the client; a UART carries bytes, and
    every call takes time. *)
Definition Tick (e : NodeEnv) : NodeEnv :=
  let n := ne_step e in
  let '(nd, bad) :=
    NodeReceive (ne_written e) (li_overflow link n) (li_locals link n)
      (u8 <$> li_to_node link n (ne_written e)) (ne_node e) in
  let bytes := u8 <$> li_to_gateway link n (nd_sent nd) in
  mkNodeEnv (S n) (ne_clock e + 1 + Z.max 0 (li_time link n)) nd (ne_written e)
    (ne_heard e ++ bytes) (ne_wire e ++ bytes)
    (ne_undetected e || bad || unsent nd (ne_heard e) bytes).

Definition set_written (written : list (list Z)) (e : NodeEnv) : NodeEnv :=
  mkNodeEnv (ne_step e) (ne_clock e) (ne_node e) written (ne_heard e) (ne_wire e) (ne_undetected e).

Definition set_wire (wire : list Z) (e : NodeEnv) : NodeEnv :=
  mkNodeEnv (ne_step e) (ne_clock e) (ne_node e) (ne_written e) (ne_heard e) wire (ne_undetected e).

(** ** The functions the client calls *)

Definition link_get_time (e : NodeEnv) : Z * NodeEnv := let e := Tick e in (ne_clock e, e).

Definition link_write (uart : Z) (frame : list Z) (e : NodeEnv) : Z * NodeEnv :=
  (li_written link (ne_step e) frame, Tick (set_written (ne_written e ++ [frame]) e)).

Definition link_wait (uart ticks : Z) (e : NodeEnv) : esp_err_t * NodeEnv :=
  (li_wait link (ne_step e), Tick e).

Definition link_read (uart ticks : Z) (e : NodeEnv) : Z * Z * NodeEnv :=
  let n := ne_step e in
  let e := Tick e in
  if li_read_error link n then (-1, 0, e) else
  if li_silent link n then (0, 0, e) else
  match ne_wire e with
  | [] => (0, 0, e)
  | b :: wire => (1, u8 b, set_wire wire e)
  end.

Definition LinkIdf : EspIdf := {|
  Env := NodeEnv;
  esp_timer_get_time := link_get_time;
  uart_write_bytes := link_write;
  uart_wait_tx_done := link_wait;
  uart_read_bytes := link_read;
  vTaskDelay := fun _ => Tick;
  pdMS_TO_TICKS := fun ms => ms;
  uart_param_config := fun _ _ e => (ESP_OK, Tick e);
  uart_set_pin := fun _ _ _ e => (ESP_OK, Tick e);
  uart_is_driver_installed := fun _ e => (true, Tick e);
  uart_driver_install := fun _ _ e => (ESP_OK, Tick e);
  uart_flush_input := fun _ e => set_wire [] (Tick e)
|}.

Lemma Tick_clock e : ne_clock e < ne_clock (Tick e).
Proof. unfold Tick. destruct (NodeReceive _ _ _ _ _) as [nd bad]. cbn [ne_clock]. lia. Qed.

#[local] Instance LinkClock : EspClock LinkIdf.
Proof.
  unshelve refine (Build_EspClock LinkIdf (fun e : NodeEnv => ne_clock e) _ _ _ _ _ _).
  - intros e. pose proof (Tick_clock e) as H. cbn. lia.
  - intros n bs e. pose proof (Tick_clock (set_written (ne_written e ++ [bs]) e)) as H. cbn in *. lia.
  - intros n t e. pose proof (Tick_clock e) as H. cbn in *. lia.
  - intros n t e. pose proof (Tick_clock e) as H. cbn. unfold link_read. repeat case_match; cbn; lia.
  - intros n t e. cbn. unfold link_read. repeat case_match; cbn [fst snd];
      first [apply u8_range | by vm_compute].
  - intros t e. apply Tick_clock.
Defined.

End link.
