(* ===== verification/GatewayTransfer.v ===== *)
(** * GatewayTransfer: one transfer, from the artifact to the flash of the node

    The client of the gateway against the node, over any link of [GatewayLink]:
    what holds of both ends and of the wire between them, for as long as no
    damage goes undetected, and what it means that the transfer reports
    success. *)

From S2P Require Import Prelude Bytes Crc32 Device Logic MemoryMap SectorRecords Buffer.
From S2P Require Import Cobs OtaPacket OtaParser.
From S2P Require Import OtaLink OtaResponse OtaReceiver Reception Download OtaAgent.
From S2P Require Import Delivery.
From S2P Require Import GatewayProtocol GatewayClient GatewayRuns GatewayLink.

(** ** Packets on the wire *)

Section wire.
Context (raw : list Z) (Hraw : bytes_ok raw) (Hsize : len raw = UART_OTA_MAX_RAW_PACKET).

Lemma frame_packets_app frames frames' :
  frame_packets raw (frames ++ frames') = frame_packets raw frames ++ frame_packets raw frames'.
Proof using. unfold frame_packets. by rewrite omap_app. Qed.

(** The frame of a packet carries it. *)
Lemma SendPacket_packets p raw' encoded frame :
  packet_wf p -> len raw' = OTA_PACKET_MAX_RAW_SIZE -> len encoded = OTA_MAX_ENCODED_FRAME + 1 ->
  SendPacket raw' encoded p = Some frame -> frame_packets raw [frame] = [gateway_packet p].
Proof using Hraw Hsize.
  intros Hp Hr He Hs.
  destruct (SendPacket_frame p raw' encoded Hp Hr He) as (bytes & Hs' & Hnz & Hlen & Hcar).
  rewrite Hs in Hs'. injection Hs' as ->.
  assert (Hne : bytes <> []) by (intros ->; cbn in Hlen; lia).
  assert (Hz : bytes_ok [0]) by (by apply Forall_singleton).
  unfold frame_packets. cbn [omap list_omap].
  rewrite UartOta_DecodeFrame_delimiter, (UartOta_DecodeFrame_carries p bytes raw [0]); done.
Qed.

Lemma sent_packets l p :
  locals_ok l -> packet_wf p -> frame_packets raw (sent_frames l p) = [gateway_packet p].
Proof using Hraw Hsize.
  intros Hl Hp. unfold sent_frames.
  destruct (SendPacket_frame p (lo_raw l) (lo_encoded l) Hp (lk_raw_size l Hl) (lk_encoded_size l Hl))
    as (bytes & Hs & _). rewrite Hs.
  by apply (SendPacket_packets p _ _ _ Hp (lk_raw_size l Hl) (lk_encoded_size l Hl)).
Qed.

(** ** What a reader finds is readable *)

Lemma readable_suffix a b g : In g (readable raw b) -> In g (readable raw (a ++ b)).
Proof using. induction a as [|x a IH]; [done|]. intros H. cbn [app readable]. apply in_or_app. right. auto. Qed.

Lemma segment_app bs rest :
  Forall (fun b => b <> 0) bs -> segment (bs ++ 0 :: rest) = Some bs.
Proof using.
  induction 1 as [|b bs Hb _ IH]; cbn [app segment]; [done|].
  rewrite (proj2 (Z.eqb_neq b 0)) by exact Hb. by rewrite IH.
Qed.

Lemma readable_segment bs rest g :
  Forall (fun b => b <> 0) bs -> bs <> [] ->
  UartOta_DecodeFrame raw (Some bs) (len bs) = Some g -> In g (readable raw (bs ++ 0 :: rest)).
Proof using.
  intros Hnz Hne Hd. destruct bs as [|b bs]; [done|]. cbn [app readable].
  change (b :: bs ++ 0 :: rest) with ((b :: bs) ++ 0 :: rest). rewrite segment_app by done.
  rewrite Hd. by left.
Qed.

End wire.

(** ** The requests of one transfer *)

Lemma GetU32Le_prefix k (l x y : list Z) :
  (k + 4 <= length l)%nat -> GetU32Le (drop k (l ++ x)) = GetU32Le (drop k (l ++ y)).
Proof.
  intros Hk. rewrite !drop_app_le by lia.
  assert (Hl : (4 <= length (drop k l))%nat) by (rewrite length_drop; lia).
  destruct (drop k l) as [|b0 [|b1 [|b2 [|b3 t]]]]; cbn [length] in Hl; try lia. reflexivity.
Qed.

Section transfer.
Context (update_id artifact_crc : Z) (image : list Z).

(** As the gateway sees them. *)
Definition expected_up (g : UartOtaPacket_t) : Prop :=
  up_command g = UART_OTA_CMD_QUERY \/ up_command g = UART_OTA_CMD_RESUME \/
  up_command g = UART_OTA_CMD_FINISH \/
  (up_command g = UART_OTA_CMD_START /\ up_update_id g = update_id /\
     up_payload_length g = UART_OTA_START_PAYLOAD_SIZE /\
     GetU32Le (drop 12 (up_payload g)) = len image /\ GetU32Le (drop 16 (up_payload g)) = artifact_crc) \/
  (up_command g = UART_OTA_CMD_DATA /\
     take (Z.to_nat (up_payload_length g)) (up_payload g) =
       slice (up_offset g) (up_payload_length g) image).

Lemma expected_up_request p :
  packet_wf p -> expected_up (gateway_packet p) -> expected_request update_id artifact_crc image p.
Proof using.
  intros Hp. destruct (gateway_payload p Hp) as (rest & Epay).
  pose proof (packet_payload_length p (pw_typed p Hp) (pw_length p Hp)) as Hlen.
  assert (Hop : op_payload p = packet_payload p ++ drop (Z.to_nat (op_payload_length p)) (op_payload p))
    by (unfold packet_payload; by rewrite take_drop).
  unfold expected_up, expected_request. rewrite Epay.
  cbn [gateway_packet up_command up_update_id up_offset up_payload_length].
  intros [H|[H|[H|[(H & Hid & Hn & H1 & H2)|[H Hs]]]]].
  - by left.
  - right. by left.
  - right. right. by left.
  - right. right. right. left. unfold UART_OTA_START_PAYLOAD_SIZE in Hn. rewrite Hop.
    split; [exact H|]. split; [exact Hid|].
    split; [rewrite <- H1|rewrite <- H2]; apply GetU32Le_prefix; lia.
  - right. right. right. right. split; [exact H|]. rewrite <- Hs, <- Hlen, Nat2Z.id.
    by rewrite take_app_length.
Qed.

(** A packet of the gateway, as the frame written for it shows it. *)
Lemma expected_up_sent g :
  up_typed g -> up_payload_length g <= UART_OTA_MAX_PAYLOAD -> expected_up g ->
  expected_up (gateway_packet (node_packet g)).
Proof using.
  intros Hg Hl. pose proof (node_packet_wf g Hg Hl) as Hp.
  destruct (gateway_payload _ Hp) as (rest & E).
  pose proof (packet_payload_length _ (pw_typed _ Hp) (pw_length _ Hp)) as Hlen.
  assert (Hpay : packet_payload (node_packet g) = take (Z.to_nat (up_payload_length g)) (up_payload g))
    by done.
  unfold expected_up. rewrite E, Hpay. rewrite Hpay in Hlen.
  cbn [gateway_packet node_packet up_command up_update_id up_offset up_payload_length op_command
    op_update_id op_offset op_payload_length] in *.
  intros [H|[H|[H|[(H & Hid & Hn & H1 & H2)|[H Hs]]]]].
  - by left.
  - right. by left.
  - right. right. by left.
  - right. right. right. left. unfold UART_OTA_START_PAYLOAD_SIZE in Hn.
    split; [exact H|]. split; [exact Hid|]. split; [exact Hn|].
    rewrite <- (take_drop (Z.to_nat (up_payload_length g)) (up_payload g)) in H1, H2.
    split; [rewrite <- H1|rewrite <- H2]; apply GetU32Le_prefix; lia.
  - right. right. right. right. split; [exact H|]. rewrite <- Hs. apply take_app_length'. lia.
Qed.

(** ** The node *)

Section node.
Context {HW : Hw} (raw : list Z).
Implicit Types nd : Node.

(** An answer that shows ARTIFACT_READY is from a node that has the image. *)
Definition shows_ready (g : UartOtaPacket_t) : Prop :=
  exists ack, UartOta_ParseAck g = Some ack /\ ai_update_state ack = UART_OTA_UPDATE_ARTIFACT_READY.

Record node_inv nd : Prop := {
  ni_ready : ready (ag_session (nd_agent nd)) ->
    delivered update_id image (w_hw (nd_world nd)) (ag_session (nd_agent nd));
  ni_running : nd_running nd = true ->
    parser_wf (g_parser (nd_agent nd)) /\
    node_ok update_id artifact_crc image (w_hw (nd_world nd)) (ag_session (nd_agent nd));
  ni_answers : forall g, In g (answers_of raw nd) -> shows_ready g -> ready (ag_session (nd_agent nd))
}.

Context (Hraw : bytes_ok raw) (Hsize : len raw = UART_OTA_MAX_RAW_PACKET).

(** An answer consistent with a session. *)
Lemma tells_shows s r : tells s r -> shows_ready (gateway_packet r) -> ready s.
Proof using.
  intros Ht (ack & Ha & Hst). specialize (Ht ack Ha). unfold ready. rewrite <- Ht, Hst. reflexivity.
Qed.

(** The node after one pass of its loop, with what it sent. *)
Lemma node_inv_step nd w a frames running :
  node_inv nd ->
  (running = true -> parser_wf (g_parser a)) ->
  node_ok update_id artifact_crc image (w_hw w) (ag_session a) ->
  (ready (ag_session (nd_agent nd)) -> ready (ag_session a)) ->
  (forall g, In g (frame_packets raw frames) -> shows_ready g -> ready (ag_session a)) ->
  node_inv (mkNode w a running (nd_sent nd ++ frames)).
Proof using.
  intros [_ _ Ha] Hp Hok Hmono Hnew. split; cbn [nd_agent nd_world nd_running nd_sent].
  - apply Hok.
  - intros Hr. split; [by apply Hp|exact Hok].
  - unfold answers_of. cbn [nd_sent]. intros g. rewrite frame_packets_app. intros [Hg|Hg]%in_app_or Hs.
    + apply Hmono. by apply (Ha g).
    + by apply (Hnew g).
Qed.

(** Power fails. *)
Lemma node_inv_stop nd w :
  ~ ready (ag_session (nd_agent nd)) -> node_inv nd ->
  node_inv (mkNode w (nd_agent nd) false (nd_sent nd)).
Proof using. intros Hn [H1 H2 H3]. by split. Qed.

Lemma NodeByte_inv written overflow_count l b nd :
  node_inv nd -> nd_running nd = true -> locals_ok l -> is_byte b ->
  (forall g, In g (frame_packets raw written) -> expected_up g) ->
  unheard raw written overflow_count l b (nd_agent nd) = false ->
  node_inv (NodeByte overflow_count l b nd).
Proof using Hraw Hsize.
  intros Hi Hrun Hl Hb Hexp. destruct (ni_running _ Hi Hrun) as [Hp Hok].
  pose proof Hok as [(data & [Hs _] & _) _]. destruct nd as [w a running sent].
  cbn [nd_agent nd_world nd_running nd_sent] in *. unfold NodeByte, OtaAgent_Process.
  cbn [nd_agent nd_world nd_sent]. cbv zeta.
  match goal with |- context [OtaAgent_Loop _ ?x _] => set (a1 := x) end.
  assert (Ep : g_parser a1 = agent_parser overflow_count a) by (unfold a1, agent_parser; by case_if).
  assert (Es : ag_session a1 = ag_session a) by (unfold a1; by case_if).
  assert (Et : ag_trial a1 = ag_trial a) by (unfold a1; by case_if).
  assert (Hp1 : parser_wf (agent_parser overflow_count a))
    by (unfold agent_parser; case_if; [by apply Reset_wf|exact Hp]).
  rewrite Loop_last. unfold OtaAgent_Byte, unheard. rewrite Ep, Es, Et.
  pose proof (PushByte_wf (lo_parser_raw l) (lk_parser_raw l Hl) (agent_parser overflow_count a) b
    (lo_request l) Hp1 (lk_request l Hl) Hb) as (H1 & H2 & _).
  pose proof (PushByte_packet (lo_parser_raw l) (lk_parser_raw l Hl) (lk_parser_raw_size l Hl)
    (agent_parser overflow_count a) b (lo_request l)) as Hpk.
  destruct (OtaParser_PushByte _ _ _ _) as [[parser request] event]. cbn [fst snd] in H1, H2.
  assert (Hquiet : forall p' o frames, parser_wf p' ->
    (forall g, In g (frame_packets raw frames) -> shows_ready g -> ready (ag_session a)) ->
    node_inv (mkNode w (mkOtaAgent p' o (ag_session a) (ag_trial a)) true (sent ++ frames))).
  { intros p' o frames Hp' Hnew. by apply (node_inv_step (mkNode w a running sent)). }
  destruct event; intros Hun; cbn [ret negb].
  - by apply Hquiet.
  - destruct (Hpk _ _ Hp1 (lk_request l Hl) eq_refl) as [Hq _].
    apply negb_false_iff, bool_decide_eq_true, list_elem_of_In, Hexp in Hun.
    apply expected_up_request in Hun; [|exact Hq].
    pose proof (wp_expected update_id artifact_crc image request (lo_response l) (ag_trial a)
      (ag_session a) w Hq (lk_response l Hl) Hun Hok) as H. unfold wp in H. unfold bind.
    destruct (OtaReceiver_ProcessPacket _ _ _ _ w) as [w' [[t [s r]]| |]]; [|exact (node_inv_stop (mkNode w a running sent) w' H Hi)|done].
    destruct H as [(Hok' & Hc & Hmono) Hr]. cbn [snd] in *. unfold ret.
    apply (node_inv_step (mkNode w a running sent)); [exact Hi|done|exact Hok'|exact Hmono|].
    intros g. rewrite (sent_packets raw Hraw Hsize l r Hl Hr). intros [<-|[]]. by apply tells_shows.
  - by apply Hquiet.
  - apply Hquiet; [exact H1|]. intros g. destruct (CrcErrorResponse_wf l request (ag_session a) Hl H2 Hs) as [Hw _].
    rewrite (sent_packets raw Hraw Hsize l _ Hl Hw). intros [<-|[]].
    apply tells_shows. apply tells_status; [apply Hl|done].
Qed.

Lemma NodeReceive_inv written overflow_count ls bytes : forall nd nd' bad,
  node_inv nd -> (forall n, locals_ok (ls n)) -> bytes_ok bytes ->
  (forall g, In g (frame_packets raw written) -> expected_up g) ->
  NodeReceive raw written overflow_count ls bytes nd = (nd', bad) -> bad = false -> node_inv nd'.
Proof using Hraw Hsize.
  induction bytes as [|b bytes IH]; intros nd nd' bad Hi Hls Hb Hexp E Hbad; cbn [NodeReceive] in E.
  - by injection E as <- <-.
  - apply Forall_cons in Hb as [Hb Hbs]. destruct (nd_running nd) eqn:Erun; [|by injection E as <- <-].
    destruct (NodeReceive _ _ _ _ bytes _) as [nd1 bad1] eqn:E1. injection E as <- <-.
    apply orb_false_iff in Hbad as [Hu Hbad].
    eapply IH; [|exact Hls|exact Hbs|exact Hexp|exact E1|exact Hbad].
    by apply (NodeByte_inv written).
Qed.

Lemma NodeReceive_sent written overflow_count ls bytes : forall nd nd' bad,
  NodeReceive raw written overflow_count ls bytes nd = (nd', bad) ->
  exists frames, nd_sent nd' = nd_sent nd ++ frames.
Proof using.
  induction bytes as [|b bytes IH]; intros nd nd' bad E; cbn [NodeReceive] in E.
  - injection E as <- <-. exists []. by rewrite app_nil_r.
  - destruct (nd_running nd); [|injection E as <- <-; exists []; by rewrite app_nil_r].
    destruct (NodeReceive _ _ _ _ bytes _) as [nd1 bad1] eqn:E1. injection E as <- <-.
    apply IH in E1 as (frames & ->).
    assert (exists frames', nd_sent (NodeByte overflow_count (ls (length bytes)) b nd) = nd_sent nd ++ frames')
      as (frames' & ->).
    { unfold NodeByte. destruct (OtaAgent_Process _ _ _ _) as [w' [[[a' fs] reset]| |]]; cbn [nd_sent].
      - by exists fs.
      - exists []. by rewrite app_nil_r.
      - exists []. by rewrite app_nil_r. }
    exists (frames' ++ frames). by rewrite app_assoc.
Qed.
End node.

(** ** Both ends and the wire *)

Section env.
Context {HW : Hw} (link : Link) (raw : list Z).
Context (Hraw : bytes_ok raw) (Hsize : len raw = UART_OTA_MAX_RAW_PACKET).
Context (Hlocals : forall n k, locals_ok (li_locals link n k)).
Implicit Types e : NodeEnv.

(** [bs]: what the gateway has read since the last delimiter it looked at. *)
Record env_inv (bs : list Z) e : Prop := {
  ei_node : node_inv raw (ne_node e);
  ei_requests : forall g, In g (requests_of raw e) -> expected_up g;
  ei_heard : forall g, In g (readable raw (ne_heard e)) -> In g (answers_of raw (ne_node e));
  ei_wire : exists before, ne_heard e = before ++ bs ++ ne_wire e;
  ei_bytes : bytes_ok (ne_wire e)
}.

(** Unless damage went undetected. *)
Definition sound (bs : list Z) e : Prop := ne_undetected e = false -> env_inv bs e.

Lemma u8_bytes_ok (l : list Z) : bytes_ok (u8 <$> l).
Proof using. apply Forall_fmap, Forall_true. intros x. apply u8_range. Qed.

Lemma Tick_sound bs e : sound bs e -> sound bs (Tick link raw e).
Proof using Hraw Hsize Hlocals.
  intros He. unfold sound, Tick. destruct (NodeReceive _ _ _ _ _ _) as [nd bad] eqn:E. cbn [ne_undetected].
  intros [[Hu Hbad]%orb_false_iff Hread]%orb_false_iff. specialize (He Hu). destruct He as [H1 H2 H3 H4 H5].
  split; cbn [ne_node ne_heard ne_wire].
  - eapply NodeReceive_inv; [exact Hraw|exact Hsize|exact H1|apply Hlocals|apply u8_bytes_ok|exact H2|
      exact E|exact Hbad].
  - exact H2.
  - destruct (NodeReceive_sent _ _ _ _ _ _ _ _ E) as (frames & Hsent).
    intros g Hg. cbn [ne_heard] in Hg. unfold answers_of, unsent in *. destruct (u8 <$> li_to_gateway _ _ _) as [|b bytes].
    + rewrite app_nil_r in Hg. rewrite Hsent, frame_packets_app. apply in_or_app. left. by apply H3.
    + apply negb_false_iff, bool_decide_eq_true in Hread. rewrite Forall_forall in Hread.
      by apply list_elem_of_In, Hread, list_elem_of_In.
  - destruct H4 as (before & ->). exists before. by rewrite <- !app_assoc.
  - apply Forall_app_2; [exact H5|apply u8_bytes_ok].
Qed.

Lemma sound_forget bs e : sound bs e -> sound [] e.
Proof using.
  intros He Hu. destruct (He Hu) as [H1 H2 H3 (before & H4) H5]. split; try assumption.
  exists (before ++ bs). by rewrite H4, <- app_assoc.
Qed.

Lemma sound_written bs frame g e :
  frame_packets raw [frame] = [g] -> expected_up g -> sound bs e ->
  sound bs (set_written (ne_written e ++ [frame]) e).
Proof using.
  intros Hf Hg He Hu. destruct (He Hu) as [H1 H2 H3 H4 H5]. split; try assumption.
  unfold requests_of. cbn [set_written ne_written]. intros g'. rewrite frame_packets_app, Hf.
  intros [H|[<-|[]]]%in_app_or; [by apply H2|exact Hg].
Qed.

(** The next byte of the wire is read. *)
Lemma sound_read bs b wire e :
  ne_wire e = b :: wire -> sound bs e -> sound (bs ++ [u8 b]) (set_wire wire e).
Proof using.
  intros Hw He Hu. destruct (He Hu) as [H1 H2 H3 (before & H4) H5]. rewrite Hw in H4, H5.
  apply Forall_cons in H5 as [Hb H5]. split; try assumption. exists before.
  cbn [set_wire ne_heard ne_wire]. rewrite u8_small, <- app_assoc by exact Hb. exact H4.
Qed.

(** A segment that decodes is an answer of the node. *)
Lemma sound_segment bs e g :
  sound (bs ++ [0]) e -> ne_undetected e = false -> Forall (fun b => b <> 0) bs -> bs <> [] ->
  UartOta_DecodeFrame raw (Some bs) (len bs) = Some g -> In g (answers_of raw (ne_node e)).
Proof using.
  intros He Hu Hnz Hne Hd. destruct (He Hu) as [_ _ H3 (before & H4) _]. apply H3. rewrite H4, <- app_assoc.
  apply readable_suffix. cbn [app]. by apply readable_segment.
Qed.
End env.
End transfer.
