(* ===== verification/EndToEnd.v ===== *)
(** * EndToEnd: success of a transfer means that the artifact arrived

    The runs of the client in the environment of [GatewayLink]: every function
    upholds what [GatewayTransfer] says of both ends, whatever the link does. *)

From S2P Require Import Prelude Bytes Crc32 Device Logic MemoryMap SectorRecords Buffer.
From S2P Require Import Cobs OtaPacket OtaParser.
From S2P Require Import OtaLink OtaResponse OtaReceiver Reception Download OtaAgent.
From S2P Require Import Delivery.
From S2P Require Import GatewayProtocol GatewayClient GatewayRuns GatewayLink.
From S2P Require Import GatewayTransfer.

(** What the loop has collected of the segment [bs]. *)
Definition collecting (encoded : list Z) (n : Z) (overflow : bool) (bs : list Z) : Prop :=
  len encoded = UART_OTA_MAX_ENCODED_FRAME /\
  (overflow = false -> n = len bs /\ len bs <= UART_OTA_MAX_ENCODED_FRAME /\
     bs = take (length bs) encoded /\ Forall (fun b => b <> 0) bs).

Lemma collecting_nothing encoded : len encoded = UART_OTA_MAX_ENCODED_FRAME -> collecting encoded 0 false [].
Proof. intros H. split; [exact H|]. intros _. by split_and!. Qed.

(** One more byte of a segment. *)
Lemma collecting_byte encoded n bs b :
  collecting encoded n false bs -> b <> 0 -> n < UART_OTA_MAX_ENCODED_FRAME ->
  collecting (store n [b] encoded) (u32 (n + 1)) false (bs ++ [b]).
Proof.
  intros [Hl Hc] Hb Hn. destruct (Hc eq_refl) as (-> & Hle & Hbs & Hnz).
  split; [by rewrite store_length|]. intros _.
  rewrite u32_small by (unfold is_u32, UART_OTA_MAX_ENCODED_FRAME in *; lia). rewrite length_app. cbn [length].
  split; [lia|]. split; [lia|]. split; [|by apply Forall_app_2; [|apply Forall_singleton]].
  rewrite store_eq by (cbn [length]; lia). rewrite Nat2Z.id, <- Hbs, app_assoc.
  symmetry. apply take_app_length'. rewrite length_app. cbn [length]. lia.
Qed.

Section runs.
Context {HW : Hw} (link : Link) (locals : ClientLocals).
Context (Htyped : locals_typed locals) (Hframe : len (cl_frame locals) = UART_OTA_MAX_ENCODED_FRAME + 1).
Context (Hnode : forall n k, locals_ok (li_locals link n k)).
Context (update_id artifact_crc : Z) (image : list Z).

Abbreviation raw := (cl_raw locals).
Abbreviation sound := (sound update_id artifact_crc image raw).
Abbreviation expected := (expected_up update_id artifact_crc image).

#[local] Instance linked : EspIdf := LinkIdf link raw.

Implicit Types e : NodeEnv.

(** What [m] leaves of both ends, and of its result. *)
Definition upholds {A} (bs : list Z) (m : G A) (Q : A -> NodeEnv -> Prop) e : Prop :=
  sound bs e -> forall a e', m e = Some (a, e') -> sound [] e' /\ Q a e'.

Lemma upholds_ret {A} bs (a : A) (Q : A -> NodeEnv -> Prop) e : Q a e -> upholds bs (gret a) Q e.
Proof using. intros HQ Hs a' e' [= <- <-]. split; [by eapply sound_forget|exact HQ]. Qed.

Lemma upholds_bind {A B} bs (m : G A) (k : A -> G B) R Q e :
  upholds bs m R e -> (forall a e', R a e' -> upholds [] (k a) Q e') -> upholds bs (gbind m k) Q e.
Proof using.
  intros Hm Hk Hs b e2. unfold gbind. destruct (m e) as [[a e1]|] eqn:E; [|done].
  destruct (Hm Hs a e1 E) as [Hs1 HR]. by apply (Hk a e1 HR).
Qed.

Lemma upholds_mono {A} bs (m : G A) (Q Q' : A -> NodeEnv -> Prop) e :
  upholds bs m Q e -> (forall a e', Q a e' -> Q' a e') -> upholds bs m Q' e.
Proof using. intros Hm HQ Hs a e' E. destruct (Hm Hs a e' E). auto. Qed.

Lemma upholds_lift {A} (f : NodeEnv -> A * NodeEnv) (Q : A -> NodeEnv -> Prop) bs e :
  (sound bs e -> sound [] (snd (f e))) -> Q (fst (f e)) (snd (f e)) -> upholds bs (lift f) Q e.
Proof using. intros Hf HQ Hs a e' [= E]. rewrite E in Hf, HQ. auto. Qed.

Lemma Tick_upholds bs e : sound bs e -> sound bs (Tick link raw e).
Proof using Htyped Hnode. apply Tick_sound; [apply Htyped|apply Htyped|exact Hnode]. Qed.

Lemma Tick_forget bs e : sound bs e -> sound [] (Tick link raw e).
Proof using Htyped Hnode. intros H. by eapply sound_forget, Tick_upholds. Qed.

(** Nothing is claimed of the result. *)
Abbreviation any := (fun _ _ => True).

Lemma upholds_DeadlineUs ms e : upholds [] (DeadlineUs ms) any e.
Proof using Htyped Hnode.
  eapply (upholds_bind _ _ _ any); [apply upholds_lift; [apply Tick_forget|done]|].
  intros. by apply upholds_ret.
Qed.

Lemma upholds_DeadlineExpired deadline e : upholds [] (DeadlineExpired deadline) any e.
Proof using Htyped Hnode.
  eapply (upholds_bind _ _ _ any); [apply upholds_lift; [apply Tick_forget|done]|].
  intros. by apply upholds_ret.
Qed.

Lemma upholds_Delay ms e : upholds [] (Delay ms) any e.
Proof using Htyped Hnode. apply upholds_lift; [apply Tick_forget|done]. Qed.

(** A request the gateway may write. *)
Definition good_request (g : UartOtaPacket_t) : Prop :=
  up_typed g /\ up_payload_length g <= UART_OTA_MAX_PAYLOAD /\ expected g.

Lemma upholds_SendFrame client g e : good_request g -> upholds [] (SendFrame locals client g) any e.
Proof using Htyped Hframe Hnode.
  intros (Hg & Hl & Hexp).
  destruct (UartOta_EncodeFrame_eq g raw (cl_frame locals) Hg Hl (cy_raw_size _ Htyped) Hframe)
    as (frame & n & E & Hs & _).
  unfold SendFrame. rewrite E.
  assert (Hp : frame_packets raw [take (Z.to_nat n) frame] = [gateway_packet (node_packet g)]).
  { apply (SendPacket_packets raw (cy_raw _ Htyped) (cy_raw_size _ Htyped) _ raw (cl_frame locals));
      [by apply node_packet_wf|apply Htyped|exact Hframe|exact Hs]. }
  eapply (upholds_bind _ _ _ any).
  - apply upholds_lift; [|done]. intros H. cbn. apply Tick_upholds.
    eapply sound_written; [exact Hp|by apply expected_up_sent|exact H].
  - intros written e1 _. case_if; [by apply upholds_ret|]. apply upholds_lift; [apply Tick_forget|done].
Qed.

(** A packet read is an answer of the node, unless damage went undetected. *)
Definition heard (g : UartOtaPacket_t) e : Prop :=
  ne_undetected e = false -> In g (answers_of raw (ne_node e)).

Definition answered (r : esp_err_t + UartOtaPacket_t) e : Prop :=
  match r with inl status => status <> ESP_OK | inr g => heard g e end.

(** The two calls of the reading loop, which keep what was read before. *)
Lemma upholds_expired {B} bs deadline (k : bool -> G B) Q e :
  (forall b, upholds bs (k b) Q (Tick link raw e)) -> upholds bs (gbind (DeadlineExpired deadline) k) Q e.
Proof using Htyped Hnode.
  intros Hk Hs b e'. unfold gbind, DeadlineExpired, lift, gret. cbn. intros E.
  by eapply Hk; [apply Tick_upholds|exact E].
Qed.

Lemma upholds_read {B} bs uart ticks (k : Z * Z -> G B) Q e :
  (forall n b e', n <= 0 -> upholds bs (k (n, b)) Q e') ->
  (forall b e', upholds (bs ++ [b]) (k (1, b)) Q e') ->
  upholds bs (gbind (lift (uart_read_bytes uart ticks)) k) Q e.
Proof using Htyped Hnode.
  intros Hn Hb Hs a e'. apply Tick_upholds in Hs. unfold gbind, lift. cbn. unfold link_read.
  destruct (li_read_error link (ne_step e)); [by apply Hn|].
  destruct (li_silent link (ne_step e)); [by apply Hn|].
  destruct (ne_wire (Tick link raw e)) as [|b wire] eqn:Ew; [by apply Hn|].
  apply Hb. by apply sound_read.
Qed.

Lemma upholds_ReadFrameLoop fuel client deadline : forall encoded n overflow bs e,
  collecting encoded n overflow bs ->
  upholds bs (ReadFrameLoop locals fuel client deadline encoded n overflow)
    answered e.
Proof using Htyped Hnode.
  induction fuel as [|fuel IH]; intros encoded n overflow bs e Hc; [by intros ? ? ? [=]|].
  cbn [ReadFrameLoop]. apply upholds_expired. intros []; [by apply upholds_ret|].
  apply upholds_read; [intros r b e1 Hr|intros b e1].
  { case_if; [by apply upholds_ret|]. to_prop. rewrite (proj2 (Z.eqb_eq r 0)) by lia. by apply IH. }
  change (1 <? 0) with false. change (1 =? 0) with false. cbv iota.
  assert (Hforget : forall encoded' e', len encoded' = UART_OTA_MAX_ENCODED_FRAME ->
    upholds (bs ++ [b]) (ReadFrameLoop locals fuel client deadline encoded' 0 false)
      answered e').
  { intros encoded' e' Hl Hs. apply (IH encoded' 0 false [] e'); [by apply collecting_nothing|].
    by eapply sound_forget. }
  destruct (Z.eqb_spec b 0) as [->|Hb]; cbn [negb].
  - destruct overflow; [by apply Hforget, Hc|]. destruct Hc as [Hl Hc]. destruct (Hc eq_refl) as (-> & Hle & Hbs & Hnz).
    case_if; [to_prop; by rewrite E; apply Hforget|]. to_prop.
    assert (Hne : bs <> []) by (by intros ->).
    destruct (UartOta_DecodeFrame _ _ _) as [g|] eqn:Ed; [|by apply Hforget].
    intros Hs a e' [= <- <-]. split; [by eapply sound_forget|]. intros Hu.
    eapply sound_segment; [exact Hs|exact Hu|exact Hnz|exact Hne|].
    rewrite <- Ed, <- (take_drop (length bs) encoded), <- Hbs. symmetry. apply UartOta_DecodeFrame_prefix; [done| |].
    + unfold is_u32, UART_OTA_MAX_ENCODED_FRAME in *. lia.
    + rewrite Forall_forall in Hnz. apply Hnz, list_elem_of_In, nth_In. destruct bs; [done|]. cbn [length]. lia.
  - destruct overflow.
    + apply IH. destruct Hc as [Hl _]. by split.
    + case_if; to_prop.
      * apply IH. apply collecting_byte; [exact Hc|exact Hb|lia].
      * apply IH. destruct Hc as [Hl _]. by split.
Qed.

Lemma upholds_ReadFrame fuel client ms e :
  upholds [] (ReadFrame locals fuel client ms)
    answered e.
Proof using Htyped Hnode.
  eapply upholds_bind; [apply upholds_DeadlineUs|]. intros deadline e1 _.
  apply upholds_ReadFrameLoop, collecting_nothing, Htyped.
Qed.

(** ** Requests *)

Lemma upholds_AwaitAnswer n fuel client request deadline : forall last_error e,
  last_error <> ESP_OK ->
  upholds [] (AwaitAnswer locals n fuel client request deadline last_error)
    answered e.
Proof using Htyped Hnode.
  induction n as [|n IH]; intros last_error e Hlast; [by intros ? ? ? [=]|]. cbn [AwaitAnswer].
  eapply upholds_bind; [apply upholds_DeadlineExpired|]. intros [] e1 _; [by apply upholds_ret|].
  eapply upholds_bind; [apply upholds_ReadFrame|]. intros [status|g] e2 Hg.
  - destruct status; first [by apply upholds_ret | by apply IH].
  - case_if; [by apply upholds_ret|by apply IH].
Qed.

Lemma upholds_RequestLoop attempts fuel client request : forall last_error e,
  good_request request -> last_error <> ESP_OK ->
  upholds [] (RequestLoop locals attempts fuel client request last_error)
    answered e.
Proof using Htyped Hframe Hnode.
  induction attempts as [|n IH]; intros last_error e Hq Hlast; cbn [RequestLoop]; [by apply upholds_ret|].
  eapply upholds_bind; [by apply upholds_SendFrame|]. intros status e1 _.
  case_if; [apply IH; [exact Hq|by apply bool_decide_eq_true in E]|].
  eapply upholds_bind; [apply upholds_DeadlineUs|]. intros deadline e2 _.
  eapply upholds_bind; [by apply upholds_AwaitAnswer|]. intros [st|g] e3 Hg; [by apply IH|by apply upholds_ret].
Qed.

(** An acknowledgement that shows ARTIFACT_READY is from a node that has the image. *)
Definition ack_sound (ack : UartOtaAckInfo_t) e : Prop :=
  ne_undetected e = false -> ai_update_state ack = UART_OTA_UPDATE_ARTIFACT_READY ->
  delivered update_id image (w_hw (nd_world (ne_node e))) (ag_session (nd_agent (ne_node e))).

Definition acknowledged (r : esp_err_t + UartOtaAckInfo_t) e : Prop :=
  match r with inl status => status <> ESP_OK | inr ack => ack_sound ack e end.

Lemma upholds_Command fuel client request e :
  good_request request ->
  upholds [] (Command locals fuel client request)
    acknowledged e.
Proof using Htyped Hframe Hnode.
  intros Hq. eapply upholds_bind; [by apply upholds_RequestLoop|].
  intros [st|g] e1 Hg; [by apply upholds_ret|].
  intros Hs a e' [= <- <-]. split; [exact Hs|]. unfold RequireAck.
  destruct (UartOta_ParseAck g) as [ack|] eqn:Ea; [|done]. case_if; [done|].
  intros Hu Hst. destruct (Hs Hu) as [Hi _ _ _ _]. apply Hi, (ni_answers _ _ _ _ _ Hi g); [by apply Hg|].
  by exists ack.
Qed.

(** ** The transfer of one artifact *)

Context (client : UartOtaClient_t) (artifact : UartOtaArtifact_t).
Context (read : Z -> Z -> NodeEnv -> esp_err_t * list Z * NodeEnv).

(** The artifact is the image: its fields, and what its callback reads. *)
Record artifact_is_image : Prop := {
  im_update_id : ua_update_id artifact = update_id;
  im_image_size : ua_image_size artifact = len image;
  im_image_crc32 : ua_image_crc32 artifact = artifact_crc;
  im_bytes : bytes_ok image;
  im_id_range : is_u32 update_id;
  im_size_range : is_u32 (len image);
  im_crc_range : is_u32 artifact_crc;
  im_type_range : is_byte (ua_artifact_type artifact);
  im_base_range : is_u32 (ua_base_version artifact);
  im_target_range : is_u32 (ua_target_version artifact);
  im_header_range : is_u32 (ua_container_header_size artifact);
  im_read : forall offset n e status bytes e', read offset n e = (status, bytes, e') ->
    (exists k, e' = Nat.iter k (Tick link raw) e) /\
    (status = ESP_OK -> 0 <= offset -> 0 <= n -> bytes = slice offset n image)
}.

Context (Hartifact : artifact_is_image).
Context (Hprogress : forall progress sent total e, cc_progress client = Some progress ->
  exists k, progress sent total e = Nat.iter k (Tick link raw) e).

Lemma iter_Tick_upholds k e : sound [] e -> sound [] (Nat.iter k (Tick link raw) e).
Proof using Htyped Hnode. induction k as [|k IH]; [done|]. intros H. rewrite Nat.iter_succ. by apply Tick_upholds, IH. Qed.

Lemma InitPacket_typed command offset sequence :
  is_byte command -> is_u32 offset -> is_u16 sequence ->
  up_typed (InitPacket command (ua_update_id artifact) offset sequence).
Proof using Hartifact.
  intros Hc Ho Hs. destruct Hartifact. split; cbn; try done; first [congruence | by apply Forall_replicate].
Qed.

Lemma up_set_payload_typed g n payload :
  up_typed g -> is_u16 n -> len payload = UART_OTA_MAX_PAYLOAD -> bytes_ok payload ->
  up_typed (up_set_payload n payload g).
Proof using. intros []. by split. Qed.

Lemma StartRequest_good : good_request (StartRequest artifact).
Proof using Hartifact.
  pose proof Hartifact as []. unfold StartRequest. cbv zeta.
  set (g := InitPacket UART_OTA_CMD_START (ua_update_id artifact) 0 0).
  assert (Hg : up_typed g) by (by apply InitPacket_typed).
  destruct (UartOta_BuildStartPayload_fields (up_payload g) (ua_artifact_type artifact)
    (ua_base_version artifact) (ua_target_version artifact) (ua_image_size artifact)
    (ua_image_crc32 artifact) (ua_container_header_size artifact))
    as (H1 & _ & _ & _ & _ & H2 & H3 & _); try done; try congruence.
  split; [|split; [by vm_compute|]].
  - apply up_set_payload_typed; [exact Hg|by vm_compute|exact H1|].
    unfold UartOta_BuildStartPayload. repeat apply store_ok; try (by apply Forall_singleton);
      try apply PutU32Le_ok; try apply PutU16Le_ok; try (by apply Forall_replicate); done.
  - right. right. right. left. cbn [up_set_payload up_command up_update_id up_payload_length up_payload].
    split_and!; try done; congruence.
Qed.

Lemma plain_good command offset sequence :
  is_byte command -> is_u32 offset -> is_u16 sequence ->
  command = UART_OTA_CMD_RESUME \/ command = UART_OTA_CMD_FINISH ->
  good_request (InitPacket command (ua_update_id artifact) offset sequence).
Proof using Hartifact.
  intros Hc Ho Hs Hcmd. split; [by apply InitPacket_typed|]. split; [by vm_compute|].
  destruct Hcmd as [-> | ->]; [right; by left|right; right; by left].
Qed.

Lemma upholds_OpenTransfer fuel resume e :
  upholds [] (OpenTransfer locals fuel client artifact resume) (fun _ _ => True) e.
Proof using Htyped Hframe Hnode Hartifact.
  unfold OpenTransfer. destruct resume.
  - eapply upholds_bind; [apply upholds_Command, plain_good; auto; by vm_compute|].
    intros [st|ack] e1 _; [by apply upholds_ret|]. case_if; by apply upholds_ret.
  - eapply (upholds_bind _ _ _ any).
    + eapply upholds_bind; [apply upholds_Command, StartRequest_good|]. intros. by apply upholds_ret.
    + intros. by apply upholds_ret.
Qed.

Lemma ChunkLength_image offset :
  0 <= offset < len image ->
  0 < ChunkLength artifact offset <= UART_OTA_MAX_PAYLOAD /\
  offset + ChunkLength artifact offset <= len image.
Proof using Hartifact.
  intros Ho. pose proof (im_image_size Hartifact) as Hs. pose proof (im_size_range Hartifact) as Hr.
  rewrite <- Hs in *. by apply ChunkLength_bound.
Qed.

Lemma DataRequest_good offset sequence :
  0 <= offset < len image -> is_u16 sequence ->
  good_request (DataRequest artifact offset sequence (ChunkLength artifact offset)
    (slice offset (ChunkLength artifact offset) image)).
Proof using Hartifact.
  intros Ho Hseq. destruct (ChunkLength_image offset Ho) as [Hc1 Hc2].
  remember (ChunkLength artifact offset) as n eqn:En. clear En. pose proof (im_size_range Hartifact) as Hr.
  unfold UART_OTA_MAX_PAYLOAD, is_u32 in *.
  assert (Hl : len (slice offset n image) = n) by (apply slice_length; lia).
  assert (Hn : u16 n = n) by (apply u16_small; unfold is_u16; lia).
  unfold DataRequest. cbv zeta. rewrite Hn. split; [|split].
  - apply up_set_payload_typed.
    + apply InitPacket_typed; [by vm_compute|unfold is_u32; lia|exact Hseq].
    + unfold is_u16. lia.
    + by rewrite store_length.
    + apply store_ok; [apply slice_bytes_ok, im_bytes; exact Hartifact|by apply Forall_replicate].
  - change (n <= 256). lia.
  - right. right. right. right. split; [done|].
    cbn [up_set_payload up_payload_length up_payload up_offset InitPacket].
    rewrite store_eq; [|lia|rewrite length_replicate; change (Z.to_nat UART_OTA_MAX_PAYLOAD) with 256%nat; lia]. cbn [take app].
    change (take (Z.to_nat 0) _) with (@nil Z). cbn [app]. apply take_app_length'. lia.
Qed.

Lemma upholds_SendDataLoop n fuel : forall offset sequence e,
  0 <= offset -> is_u16 sequence ->
  upholds [] (SendDataLoop locals n fuel client artifact read offset sequence) (fun _ _ => True) e.
Proof using Htyped Hframe Hnode Hartifact Hprogress.
  pose proof (im_image_size Hartifact) as Hs. pose proof (im_size_range Hartifact) as Hr.
  induction n as [|n IH]; intros offset sequence e Ho Hseq; cbn [SendDataLoop];
    (case_if; [|by apply upholds_ret]); [by intros ? ? ? [=]|]. to_prop. rewrite Hs in *.
  destruct (ChunkLength_image offset ltac:(lia)) as [Hc1 Hc2].
  eapply (upholds_bind _ _ _ (fun x _ => fst x = ESP_OK -> snd x = slice offset (ChunkLength artifact offset) image)).
  { unfold lift. intros He x e1 [= E1]. destruct x as [status bytes].
    destruct (read offset (ChunkLength artifact offset) e) as [[st bs] e'] eqn:Er. injection E1 as <- <- <-.
    destruct (im_read Hartifact _ _ _ _ _ _ Er) as [(k & ->) Hb]. split; [by apply iter_Tick_upholds|].
    intros Hst. apply Hb; [exact Hst|lia|lia]. }
  intros [status bytes] e1 Hb. cbn [fst snd] in Hb. case_if; [by apply upholds_ret|].
  apply bool_decide_eq_false in E0. rewrite Hb by (by apply dec_stable).
  eapply upholds_bind; [apply upholds_Command, DataRequest_good; [lia|exact Hseq]|].
  intros [st|ack] e2 _; [by apply upholds_ret|]. case_if; [by apply upholds_ret|].
  unfold is_u32, UART_OTA_MAX_PAYLOAD in *.
  rewrite u32_small by (unfold is_u32; lia).
  eapply (upholds_bind _ _ _ any); [|intros; apply IH; [lia|apply u16_range]].
  unfold ReportProgress. destruct (cc_progress client) as [progress|] eqn:Ep; [|by apply upholds_ret].
  apply upholds_lift; [|done]. intros H. cbn [snd].
  destruct (Hprogress progress (offset + ChunkLength artifact offset) (len image) e2 eq_refl) as (k & Ek).
  change (sound [] (progress (offset + ChunkLength artifact offset) (len image) e2)). rewrite Ek.
  by apply iter_Tick_upholds.
Qed.

Lemma upholds_FinishTransfer fuel e :
  upholds [] (FinishTransfer locals fuel client artifact)
    (fun status e' => status = ESP_OK -> ne_undetected e' = false ->
       delivered update_id image (w_hw (nd_world (ne_node e'))) (ag_session (nd_agent (ne_node e')))) e.
Proof using Htyped Hframe Hnode Hartifact.
  pose proof (im_size_range Hartifact) as Hr. pose proof (im_image_size Hartifact) as Hs.
  assert (Hgood : good_request (FinishRequest artifact)).
  { apply plain_good; [by vm_compute|by rewrite Hs|apply u16_range|by right]. }
  unfold FinishTransfer. cbv zeta.
  eapply upholds_bind; [by apply upholds_Command|]. intros [st|ack] e1 Hack; [by apply upholds_ret|].
  case_if; [by apply upholds_ret|].
  eapply upholds_bind; [by apply upholds_Command|]. intros [st|ack'] e2 Hack'; [by apply upholds_ret|].
  apply upholds_ret. case_if; [|done]. to_prop. intros _ Hu. by apply Hack'.
Qed.

#[local] Instance linked_clock : EspClock linked := LinkClock link raw.

Context (fuel : nat).
Context (Hfuel : fuel_covers fuel (uc_response_timeout_ms (cc_config client))).
Context (Hfinal : fuel_covers fuel UART_OTA_FINAL_TIMEOUT_MS).

Lemma upholds_returns {A} bs (m : G A) (P : A -> Z -> Prop) (Q : A -> NodeEnv -> Prop) e :
  returns m P e -> upholds bs m Q e -> upholds bs m (fun a e' => P a (ne_clock e') /\ Q a e') e.
Proof using.
  intros (a & e1 & E & _ & HP) Hk Hs a' e' E'. destruct (Hk Hs a' e' E') as [Hs' HQ].
  rewrite E in E'. injection E' as <- <-. by split.
Qed.

Definition arrived e : Prop :=
  delivered update_id image (w_hw (nd_world (ne_node e))) (ag_session (nd_agent (ne_node e))).

Lemma upholds_TransferArtifact resume e :
  upholds [] (TransferArtifact locals fuel client artifact read resume)
    (fun status e' => status = ESP_OK -> ne_undetected e' = false -> arrived e') e.
Proof using Htyped Hframe Hnode Hartifact Hprogress Hfuel Hfinal.
  unfold TransferArtifact. eapply upholds_bind.
  { eapply upholds_returns; [by apply returns_OpenTransfer|apply upholds_OpenTransfer]. }
  intros [st|offset] e1 [Ho _]; [by apply upholds_ret|].
  eapply (upholds_bind _ _ _ any); [apply upholds_SendDataLoop; [exact Ho|apply u16_range]|].
  intros status e2 _. case_if; [|apply upholds_FinishTransfer].
  apply upholds_ret. by apply bool_decide_eq_true in E.
Qed.

(** A link nothing has crossed yet, to a running node that has received nothing
    but bytes of the image, or nothing it would still accept. *)
Record fresh_link e : Prop := {
  fl_written : ne_written e = [];
  fl_sent : nd_sent (ne_node e) = [];
  fl_heard : ne_heard e = [];
  fl_wire : ne_wire e = [];
  fl_parser : parser_wf (g_parser (nd_agent (ne_node e)));
  fl_node : node_ok update_id artifact_crc image (w_hw (nd_world (ne_node e)))
    (ag_session (nd_agent (ne_node e)))
}.

Lemma fresh_sound e : fresh_link e -> sound [] e.
Proof using.
  intros [H1 H2 H3 H4 H5 H6] _. split.
  - split; [apply H6|done|]. unfold answers_of. rewrite H2. by intros g [].
  - unfold requests_of. rewrite H1. by intros g [].
  - rewrite H3. by intros g [].
  - exists []. by rewrite H3, H4.
  - rewrite H4. constructor.
Qed.

(** C22: Success means delivery.  The client of the gateway runs against the
    agent of the node over an arbitrary link, which at every call hands either
    end any bytes made from what the other has sent, while the node may lose
    power in any flash operation.  From a fresh link to a node whose download,
    if it has one, is of this image, TransferArtifact returns; and when it
    returns ESP_OK and neither end has taken damaged bytes for a packet the
    other never sent, the node holds the whole image in its Incoming partition,
    is in ARTIFACT_READY for this update, and its current checkpoint says so. *)
Theorem TransferArtifact_delivers resume e :
  len image <= Z.of_nat fuel -> fresh_link e ->
  exists status e', TransferArtifact locals fuel client artifact read resume e = Some (status, e') /\
    ne_clock e <= ne_clock e' /\
    (status = ESP_OK -> ne_undetected e' = false -> arrived e').
Proof using Htyped Hframe Hnode Hartifact Hprogress Hfuel Hfinal.
  intros Hchunks He. pose proof (im_image_size Hartifact) as Hs. pose proof (im_size_range Hartifact) as Hr.
  assert (Hiter : forall k e, ne_clock e <= ne_clock (Nat.iter k (Tick link raw) e)).
  { intros k e0. induction k as [|k IH]; [cbn; lia|]. rewrite Nat.iter_succ.
    pose proof (Tick_clock link raw (Nat.iter k (Tick link raw) e0)). lia. }
  destruct (returns_TransferArtifact locals Htyped fuel client Hfuel Hfinal artifact read) with
    (resume := resume) (e := e) as (status & e' & E & Ht & _).
  - intros offset n e1. destruct (read offset n e1) as [[st bs] e2] eqn:Er.
    destruct (im_read Hartifact _ _ _ _ _ _ Er) as [(k & ->) _]. apply Hiter.
  - intros progress sent total e1 Hp. destruct (Hprogress progress sent total e1 Hp) as (k & Ek).
    change (ne_clock e1 <= ne_clock (progress sent total e1)). rewrite Ek. apply Hiter.
  - by rewrite Hs.
  - by rewrite Hs.
  - exists status, e'. split; [exact E|]. split; [exact Ht|].
    by apply (upholds_TransferArtifact resume e (fresh_sound e He) status e' E).
Qed.
End runs.
