(* ===== verification/SecureContainerMeta.v ===== *)
(** * SecureContainerMeta: gateway-esp32/components/secure_container_meta

    What the gateway reads of a container before it sends it: the header tests
    and the fields it needs for START.  The theorem compares them with the tests
    of the node's bootloader ([FirmwareContainer]) and with its update policy. *)

From S2P Require Import Prelude Bytes MemoryMap FirmwareContainer BootMetadata.
From S2P Require Import SecureContainer.

Definition SECURE_CONTAINER_META_MAGIC : Z := 0x544F4453.
Definition SECURE_CONTAINER_META_FORMAT_VERSION : Z := 1.
Definition SECURE_CONTAINER_META_HEADER_SIZE : Z := 140.
Definition SECURE_CONTAINER_META_SIGNATURE_SIZE : Z := 64.
Definition SECURE_CONTAINER_META_EXT_MAGIC : Z := 0x31584353.
Definition SECURE_CONTAINER_META_PRODUCT_ID : Z := 0x00001001.
Definition SECURE_CONTAINER_META_HW_REVISION : Z := 1.
Definition SECURE_CONTAINER_META_IMAGE_FULL : Z := 1.
Definition SECURE_CONTAINER_META_IMAGE_DELTA : Z := 2.

Record SecureContainerMeta_t := mkSecureContainerMeta {
  sm_image_type : Z;
  sm_base_version : Z;
  sm_target_version : Z;
  sm_payload_size : Z;
  sm_target_size : Z;
  sm_key_id : Z
}.

Definition SecureContainerMeta_HasMagic (data : option (list Z)) (length : Z) : bool :=
  match data with
  | None => false
  | Some data => (4 <=? length) && (GetU32Le data =? SECURE_CONTAINER_META_MAGIC)
  end.

(** [*meta] on [true]; [meta] says whether the pointer is non-null. *)
Definition SecureContainerMeta_Parse (header : option (list Z)) (header_length container_size : Z)
    (meta : bool) : option SecureContainerMeta_t :=
  match header with
  | None => None
  | Some header =>
      if negb meta || (header_length <? SECURE_CONTAINER_META_HEADER_SIZE) then None else
      let u16_at i := GetU16Le (drop i header) in
      let u32_at i := GetU32Le (drop i header) in
      if (u32_at 0%nat <>? SECURE_CONTAINER_META_MAGIC) ||
         (u16_at 4%nat <>? SECURE_CONTAINER_META_FORMAT_VERSION) ||
         (u16_at 6%nat <>? SECURE_CONTAINER_META_HEADER_SIZE) ||
         (u32_at 8%nat <>? SECURE_CONTAINER_META_PRODUCT_ID) ||
         (u32_at 12%nat <>? SECURE_CONTAINER_META_HW_REVISION) ||
         (u32_at 120%nat <>? SECURE_CONTAINER_META_EXT_MAGIC) ||
         (u16_at 124%nat <>? 1) || (u16_at 126%nat <>? 20) ||
         (u16_at 112%nat <>? 1) || (u16_at 114%nat <>? 1)
      then None else
      let image_type := u8 (u32_at 16%nat) in
      let base_version := u32_at 24%nat in
      let target_version := u32_at 28%nat in
      let payload_size := u32_at 32%nat in
      let signature_size := u16_at 116%nat in
      if (image_type <>? SECURE_CONTAINER_META_IMAGE_FULL) &&
         (image_type <>? SECURE_CONTAINER_META_IMAGE_DELTA)
      then None else
      if target_version =? 0 then None else
      if (if image_type =? SECURE_CONTAINER_META_IMAGE_FULL
          then (base_version <>? 0) || (u32_at 132%nat <>? 0)
          else (base_version =? 0) || (target_version <=? base_version) || (u32_at 132%nat <? 8))
      then None else
      if (u32_at 40%nat <>? 0x08006000) || (signature_size <>? SECURE_CONTAINER_META_SIGNATURE_SIZE) ||
         (u32_at 128%nat =? 0)
      then None else
      let expected_total := SECURE_CONTAINER_META_HEADER_SIZE + payload_size + signature_size in
      if expected_total <>? container_size then None else
      Some (mkSecureContainerMeta image_type base_version target_version payload_size (u32_at 36%nat)
              (u32_at 128%nat))
  end.

(** What the gateway reports of a container the node accepts. *)
Definition meta_of (info : FirmwareContainerInfo_t) : SecureContainerMeta_t :=
  mkSecureContainerMeta (fw_image_type (fi_header info)) (fw_base_version (fi_header info))
    (fw_target_version (fi_header info)) (fw_payload_size (fi_header info))
    (fw_target_image_size (fi_header info)) (fx_key_id (fi_extension info)).

(** The reads of the gateway as the reads of the node. *)
Ltac reads_of_node raw :=
  change (GetU32Le raw) with (FirmwareContainer_GetU32Le (from 0 raw));
  repeat match goal with |- context [GetU32Le (drop ?k raw)] =>
    change (GetU32Le (drop k raw)) with (FirmwareContainer_GetU32Le (from (Z.of_nat k) raw)) end;
  repeat match goal with |- context [GetU16Le (drop ?k raw)] =>
    change (GetU16Le (drop k raw)) with (FirmwareContainer_GetU16Le (from (Z.of_nat k) raw)) end;
  repeat match goal with |- context [Z.of_nat ?k] =>
    let z := eval vm_compute in (Z.of_nat k) in change (Z.of_nat k) with z end.

(** The fields of what the node accepts, at their offsets. *)
Ltac read_fields :=
  cbn [fi_header fi_extension fi_total_size ReadFixed ReadExtension fw_magic fw_format_version
    fw_header_size fw_product_id fw_hardware_revision fw_image_type fw_base_version fw_target_version
    fw_payload_size fw_target_image_size fw_target_load_address fw_hash_algorithm fw_signature_algorithm
    fw_signature_size fx_extension_magic fx_extension_version fx_extension_size fx_key_id
    fx_base_image_size] in *;
  change (FW_CONTAINER_FIXED_HEADER_SIZE + 0) with 120 in *;
  change (FW_CONTAINER_FIXED_HEADER_SIZE + 4) with 124 in *;
  change (FW_CONTAINER_FIXED_HEADER_SIZE + 6) with 126 in *;
  change (FW_CONTAINER_FIXED_HEADER_SIZE + 8) with 128 in *;
  change (FW_CONTAINER_FIXED_HEADER_SIZE + 12) with 132 in *.

(** Both ends use the same constants. *)
Lemma same_constants :
  FW_CONTAINER_MAGIC = SECURE_CONTAINER_META_MAGIC /\
  FW_CONTAINER_FORMAT_VERSION = SECURE_CONTAINER_META_FORMAT_VERSION /\
  FW_CONTAINER_HEADER_SIZE = SECURE_CONTAINER_META_HEADER_SIZE /\
  PRODUCT_ID_STM32F103_NODE = SECURE_CONTAINER_META_PRODUCT_ID /\
  HARDWARE_REVISION_1 = SECURE_CONTAINER_META_HW_REVISION /\
  FW_CONTAINER_EXTENSION_MAGIC = SECURE_CONTAINER_META_EXT_MAGIC /\
  FW_CONTAINER_EXTENSION_VERSION = 1 /\ FW_CONTAINER_EXTENSION_SIZE = 20 /\
  FW_HASH_SHA256 = 1 /\ FW_SIGNATURE_ECDSA_P256 = 1 /\
  APPLICATION_START_ADDRESS = 0x08006000 /\
  FW_ECDSA_P256_RAW_SIGNATURE_SIZE = SECURE_CONTAINER_META_SIGNATURE_SIZE.
Proof. by split_and!. Qed.

(** What the gateway asks for beyond the node's header tests: the real size, and
    a delta that goes up. *)
Definition gateway_extra (container_size : Z) (info : FirmwareContainerInfo_t) : bool :=
  (container_size =? fi_total_size info) &&
  ((fw_image_type (fi_header info) =? FW_IMAGE_FULL) ||
   (fw_base_version (fi_header info) <? fw_target_version (fi_header info))).

(** The tests of the gateway on a header the node accepts. *)
Lemma SecureContainerMeta_Parse_accepted raw n container_size :
  SECURE_CONTAINER_META_HEADER_SIZE <= n ->
  let info := info_of (ReadFixed raw) (ReadExtension raw) in
  AcceptedHeader (ReadFixed raw) (ReadExtension raw) ->
  SecureContainerMeta_HasMagic (Some raw) n = true /\
  SecureContainerMeta_Parse (Some raw) n container_size true =
    if gateway_extra container_size info then Some (meta_of info) else None.
Proof.
  intros Hn info []. subst info. unfold gateway_extra, info_of in *. cbv zeta in *.
  destruct ah_extension as (Hx1 & Hx2 & Hx3). read_fields.
  unfold SecureContainerMeta_HasMagic, SecureContainerMeta_Parse. cbv zeta. reads_of_node raw.
  rewrite ah_magic, ah_format, ah_header_size, ah_product, ah_hardware, ah_load, ah_hash, ah_signature,
    ah_signature_size, Hx1, Hx2, Hx3.
  destruct same_constants as (-> & -> & -> & -> & -> & -> & -> & -> & -> & -> & -> & ->).
  rewrite !Z.eqb_refl, (proj2 (Z.leb_le 4 n)), (proj2 (Z.ltb_ge n SECURE_CONTAINER_META_HEADER_SIZE))
    by (unfold SECURE_CONTAINER_META_HEADER_SIZE in *; lia).
  cbn [negb orb andb]. split; [reflexivity|].
  rewrite (proj2 (Z.eqb_neq _ _) ah_target_version), (proj2 (Z.eqb_neq _ _) ah_key).
  rewrite (Z.eqb_sym container_size). unfold meta_of. read_fields.
  destruct ah_base as [(Ht & Hb & Hx & _)|(Ht & Hb & Hx & _)]; rewrite Ht.
  - rewrite Hb, Hx. cbn [negb orb andb Z.eqb]. rewrite andb_true_r. by destruct (_ =? container_size).
  - rewrite (proj2 (Z.eqb_neq _ _) Hb), (proj2 (Z.ltb_ge _ 8)) by lia. rewrite Z.leb_antisym, orb_false_r.
    change (FW_IMAGE_DELTA =? FW_IMAGE_FULL) with false. cbn [orb andb].
    rewrite andb_comm. by destruct (_ <? _), (_ =? container_size).
Qed.

(** C28: The gateway refuses no update the node would take.  A header that
    FirmwareContainer_Parse of the node accepts has the magic
    SecureContainerMeta_HasMagic looks for; SecureContainerMeta_Parse accepts
    it, and then reads the same image type, versions, sizes and key from it,
    exactly when it is told the total size the header announces and the header
    is of a full image or of a delta whose target version is above its base
    version.  Every header that passes ValidateMetadataPolicy of the node for
    some record is therefore accepted with the size of that record. *)
Theorem SecureContainerMeta_Parse_agrees raw n container_size info :
  bytes_ok raw -> SECURE_CONTAINER_META_HEADER_SIZE <= n ->
  FirmwareContainer_Parse (Some raw) container_size = (FW_CONTAINER_VALID, Some info) ->
  SecureContainerMeta_HasMagic (Some raw) n = true /\
  (* exactly what the gateway accepts of it, for any size it is told *)
  (forall size, SecureContainerMeta_Parse (Some raw) n size true =
     if (size =? fi_total_size info) &&
        ((fw_image_type (fi_header info) =? FW_IMAGE_FULL) ||
         (fw_base_version (fi_header info) <? fw_target_version (fi_header info)))
     then Some (meta_of info) else None) /\
  (* which includes every update the node takes *)
  (forall m, ValidateMetadataPolicy info m = SECURE_CONTAINER_OK ->
     SecureContainerMeta_Parse (Some raw) n (bm_expected_size m) true = Some (meta_of info)).
Proof.
  intros Hok Hn H. apply Parse_accepts in H as (Ha & -> & _); [|done].
  pose proof (fun size => SecureContainerMeta_Parse_accepted raw n size Hn Ha) as Hp.
  cbv zeta in Hp. set (info := info_of _ _) in *.
  split; [apply (Hp 0)|]. split; [intros size; apply Hp|].
  intros m Hpol. rewrite (proj2 (Hp _)).
  assert (Ht : fw_image_type (fi_header info) = FW_IMAGE_FULL \/
    fw_image_type (fi_header info) = FW_IMAGE_DELTA) by (destruct (ah_base _ _ Ha) as [[]|[]]; auto).
  destruct (policy_spec info m Ht Hpol) as (_ & Hnew & Hbase).
  pose proof (policy_size info m Hpol) as ->. unfold gateway_extra. rewrite Z.eqb_refl.
  destruct Ht as [Ht|Ht]; rewrite Ht; [done|]. specialize (Hbase Ht).
  by rewrite (proj2 (Z.ltb_lt _ _)), orb_true_r by lia.
Qed.
