(* ===== verification/ArtifactCache.v ===== *)
(** * ArtifactCache: gateway-esp32/components/artifact_cache/artifact_cache.c

    The gateway's copy of an artifact in a flash partition: the data first, then
    a header with two CRCs that publishes it.  The partition functions of
    ESP-IDF act on the environment of the client (class [EspPartition]); a
    handle is what the source reads of it, its size.  [size_t] has 32 bits.
    A struct in flash is its words in little-endian order. *)

From S2P Require Import Prelude Bytes Crc32 GatewayProtocol GatewayClient.
From S2P Require Import SecureContainerMeta.

Record esp_partition_t := mkEspPartition { pt_size : Z }.

(** The partition functions of ESP-IDF; [esp_partition_find_first] is called
    for the label of the cache. *)
Class EspPartition (IDF : EspIdf) := {
  esp_partition_find_first : option esp_partition_t;
  esp_partition_read : esp_partition_t -> Z -> Z -> Env -> esp_err_t * list Z * Env;
  esp_partition_write : esp_partition_t -> Z -> list Z -> Env -> esp_err_t * Env;
  esp_partition_erase_range : esp_partition_t -> Z -> Z -> Env -> esp_err_t * Env
}.

Definition ARTIFACT_CACHE_DATA_OFFSET : Z := 0x1000.
Definition ARTIFACT_CACHE_MAGIC : Z := 0x39414347.
Definition ARTIFACT_CACHE_FORMAT_VERSION : Z := 1.
Definition ARTIFACT_CACHE_ERASE_SIZE : Z := 4096.

Record ArtifactCacheHeader_t := mkArtifactCacheHeader {
  ch_magic : Z;
  ch_format_version : Z;
  ch_header_size : Z;
  ch_update_id : Z;
  ch_target_version : Z;
  ch_image_size : Z;
  ch_image_crc32 : Z;
  ch_data_offset : Z;
  ch_header_crc32 : Z
}.

Definition ArtifactCacheHeader_fields (h : ArtifactCacheHeader_t) : list Z :=
  [ch_magic h; ch_format_version h; ch_header_size h; ch_update_id h; ch_target_version h;
   ch_image_size h; ch_image_crc32 h; ch_data_offset h; ch_header_crc32 h].

Definition ArtifactCacheHeader_of_fields (ws : list Z) : ArtifactCacheHeader_t :=
  let w i := nth i ws 0 in
  mkArtifactCacheHeader (w 0%nat) (w 1%nat) (w 2%nat) (w 3%nat) (w 4%nat) (w 5%nat) (w 6%nat)
    (w 7%nat) (w 8%nat).

(** The struct as bytes, and back; its size is 36, the CRC is the last word. *)
Definition header_bytes (h : ArtifactCacheHeader_t) : list Z :=
  words_to_bytes (ArtifactCacheHeader_fields h).

Definition header_of_bytes (bs : list Z) : ArtifactCacheHeader_t :=
  ArtifactCacheHeader_of_fields (bytes_to_words 9 bs).

Definition header_size : Z := 36.
Definition header_crc_offset : Z := 32.

Record ArtifactCache_t := mkArtifactCache {
  ac_partition : option esp_partition_t;
  ac_header : ArtifactCacheHeader_t
}.

Record ArtifactCacheWriter_t := mkArtifactCacheWriter {
  aw_partition : option esp_partition_t;
  aw_update_id : Z;
  aw_target_version : Z;
  aw_expected_size : Z;
  aw_written_size : Z;
  aw_running_crc32 : Z;
  aw_active : bool
}.

Definition aw_set_active (active : bool) (w : ArtifactCacheWriter_t) : ArtifactCacheWriter_t :=
  mkArtifactCacheWriter (aw_partition w) (aw_update_id w) (aw_target_version w) (aw_expected_size w)
    (aw_written_size w) (aw_running_crc32 w) active.

(** After [memset] and the assignments of BeginWrite. *)
Definition NewWriter (partition : esp_partition_t) (expected_size update_id target_version : Z)
    : ArtifactCacheWriter_t :=
  mkArtifactCacheWriter (Some partition) update_id target_version expected_size 0 0xFFFFFFFF false.

Section cache.
Context {IDF : EspIdf} {PART : EspPartition IDF}.
Implicit Types e : Env.

#[local] Notation "'let!' x := m 'in' k" := (gbind m (fun x => k))
  (at level 10, x pattern, m at level 100, k at level 200).

Definition FindPartition : option esp_partition_t := esp_partition_find_first.

Definition HeaderCrc (header : ArtifactCacheHeader_t) : Z :=
  UartOta_Crc32 (Some (header_bytes header)) header_crc_offset.

(** The loop body is the one of UartOta_Crc32. *)
Definition CrcUpdate (running : Z) (data : list Z) (length : Z) : Z :=
  fold_left UartOta_CrcByte (take (Z.to_nat length) data) running.

Definition HeaderValid (partition : option esp_partition_t) (header : option ArtifactCacheHeader_t)
    : bool :=
  match partition, header with
  | Some partition, Some header =>
      if (ch_magic header <>? ARTIFACT_CACHE_MAGIC) ||
         (ch_format_version header <>? ARTIFACT_CACHE_FORMAT_VERSION) ||
         (ch_header_size header <>? header_size) ||
         (ch_update_id header =? 0) || (ch_target_version header =? 0) ||
         (ch_image_size header =? 0) ||
         (ch_data_offset header <>? ARTIFACT_CACHE_DATA_OFFSET) ||
         (ch_header_crc32 header <>? HeaderCrc header)
      then false
      else ch_image_size header <=? u32 (pt_size partition - ARTIFACT_CACHE_DATA_OFFSET)
  | _, _ => false
  end.

(** The loop; it ends after at most [image_size] chunks. *)
Fixpoint StoredCrcLoop (fuel : nat) (partition : esp_partition_t) (image_size offset running : Z)
    : G (esp_err_t + Z) :=
  if offset <? image_size then
    match fuel with
    | O => fun _ => None
    | S fuel =>
        let chunk := u32 (image_size - offset) in
        let chunk := if 256 <? chunk then 256 else chunk in
        let! (status, buffer) :=
          lift (esp_partition_read partition (u32 (ARTIFACT_CACHE_DATA_OFFSET + offset)) chunk) in
        if bool_decide (status <> ESP_OK) then gret (inl status) else
        StoredCrcLoop fuel partition image_size (u32 (offset + chunk)) (CrcUpdate running buffer chunk)
    end
  else gret (inr (Z.lxor running 0xFFFFFFFF)).

(** [inr] is [ESP_OK] with [*crc_out]; all callers pass the address of a local. *)
Definition CalculateStoredImageCrc (partition : option esp_partition_t) (image_size : Z)
    : G (esp_err_t + Z) :=
  match partition with
  | None => gret (inl ESP_ERR_INVALID_ARG)
  | Some partition => StoredCrcLoop (Z.to_nat image_size) partition image_size 0 0xFFFFFFFF
  end.

(** [*cache] afterwards. *)
Definition ArtifactCache_Open (cache : option ArtifactCache_t)
    : G (esp_err_t * option ArtifactCache_t) :=
  match cache with
  | None => gret (ESP_ERR_INVALID_ARG, cache)
  | Some _ =>
      match FindPartition with
      | None => gret (ESP_ERR_NOT_FOUND, cache)
      | Some partition =>
          let! (status, bytes) := lift (esp_partition_read partition 0 header_size) in
          if bool_decide (status <> ESP_OK) then gret (status, cache) else
          let header := header_of_bytes bytes in
          if negb (HeaderValid (Some partition) (Some header)) then gret (ESP_ERR_INVALID_CRC, cache) else
          let! stored_crc := CalculateStoredImageCrc (Some partition) (ch_image_size header) in
          match stored_crc with
          | inl status => gret (status, cache)
          | inr stored_crc =>
              if stored_crc <>? ch_image_crc32 header then gret (ESP_ERR_INVALID_CRC, cache)
              else gret (ESP_OK, Some (mkArtifactCache (Some partition) header))
          end
      end
  end.

(** [*writer] afterwards. *)
Definition ArtifactCache_BeginWrite (writer : option ArtifactCacheWriter_t)
    (expected_size update_id target_version : Z) : G (esp_err_t * option ArtifactCacheWriter_t) :=
  if bool_decide (writer = None) || (expected_size =? 0) || (update_id =? 0) || (target_version =? 0)
  then gret (ESP_ERR_INVALID_ARG, writer) else
  match FindPartition with
  | None => gret (ESP_ERR_NOT_FOUND, writer)
  | Some partition =>
      if u32 (pt_size partition - ARTIFACT_CACHE_DATA_OFFSET) <? expected_size
      then gret (ESP_ERR_INVALID_SIZE, writer) else
      let writer := NewWriter partition expected_size update_id target_version in
      let! status := lift (esp_partition_erase_range partition 0 ARTIFACT_CACHE_ERASE_SIZE) in
      if bool_decide (status <> ESP_OK) then gret (status, Some writer) else
      let erase_size :=
        Z.land (u32 (expected_size + ARTIFACT_CACHE_ERASE_SIZE - 1))
          (u32 (Z.lnot (ARTIFACT_CACHE_ERASE_SIZE - 1))) in
      let! status :=
        lift (esp_partition_erase_range partition ARTIFACT_CACHE_DATA_OFFSET erase_size) in
      if bool_decide (status <> ESP_OK) then gret (status, Some writer)
      else gret (ESP_OK, Some (aw_set_active true writer))
  end.

Definition ArtifactCache_Write (writer : option ArtifactCacheWriter_t) (data : option (list Z))
    (length : Z) : G (esp_err_t * option ArtifactCacheWriter_t) :=
  match writer with
  | None => gret (ESP_ERR_INVALID_ARG, writer)
  | Some w =>
      if bool_decide (data = None) && (length <>? 0) then gret (ESP_ERR_INVALID_ARG, writer) else
      if negb (aw_active w) then gret (ESP_ERR_INVALID_STATE, writer) else
      if u32 (aw_expected_size w - aw_written_size w) <? length
      then gret (ESP_ERR_INVALID_SIZE, writer) else
      if length =? 0 then gret (ESP_OK, writer) else
      match aw_partition w with
      | None => gret (ESP_ERR_INVALID_STATE, writer)
      | Some partition =>
          let bytes := default [] data in
          let! status :=
            lift (esp_partition_write partition (u32 (ARTIFACT_CACHE_DATA_OFFSET + aw_written_size w))
                    (take (Z.to_nat length) bytes)) in
          if bool_decide (status <> ESP_OK) then gret (status, writer) else
          gret (ESP_OK, Some (mkArtifactCacheWriter (aw_partition w) (aw_update_id w)
            (aw_target_version w) (aw_expected_size w) (u32 (aw_written_size w + length))
            (CrcUpdate (aw_running_crc32 w) bytes length) (aw_active w)))
      end
  end.

(** The header Commit publishes. *)
Definition NewHeader (w : ArtifactCacheWriter_t) (stored_crc : Z) : ArtifactCacheHeader_t :=
  let header := mkArtifactCacheHeader ARTIFACT_CACHE_MAGIC ARTIFACT_CACHE_FORMAT_VERSION header_size
    (aw_update_id w) (aw_target_version w) (aw_expected_size w) stored_crc ARTIFACT_CACHE_DATA_OFFSET 0 in
  mkArtifactCacheHeader (ch_magic header) (ch_format_version header) (ch_header_size header)
    (ch_update_id header) (ch_target_version header) (ch_image_size header) (ch_image_crc32 header)
    (ch_data_offset header) (HeaderCrc header).

(** [*writer] and [*cache] afterwards. *)
Definition ArtifactCache_Commit (writer : option ArtifactCacheWriter_t) (cache : option ArtifactCache_t)
    : G (esp_err_t * option ArtifactCacheWriter_t * option ArtifactCache_t) :=
  match writer, cache with
  | Some w, Some _ =>
      if negb (aw_active w) then gret (ESP_ERR_INVALID_STATE, writer, cache) else
      if aw_written_size w <>? aw_expected_size w then gret (ESP_ERR_INVALID_SIZE, writer, cache) else
      match aw_partition w with
      | None => gret (ESP_ERR_INVALID_STATE, writer, cache)
      | Some partition =>
          let streamed_crc := Z.lxor (aw_running_crc32 w) 0xFFFFFFFF in
          let! stored_crc := CalculateStoredImageCrc (Some partition) (aw_expected_size w) in
          match stored_crc with
          | inl status => gret (status, writer, cache)
          | inr stored_crc =>
              if stored_crc <>? streamed_crc then gret (ESP_ERR_INVALID_CRC, writer, cache) else
              let! status := lift (esp_partition_write partition 0 (header_bytes (NewHeader w stored_crc))) in
              if bool_decide (status <> ESP_OK) then gret (status, writer, cache) else
              let! (status, cache) := ArtifactCache_Open cache in
              if bool_decide (status <> ESP_OK) then
                let! _ := lift (esp_partition_erase_range partition 0 ARTIFACT_CACHE_ERASE_SIZE) in
                gret (status, Some (aw_set_active false w), cache)
              else gret (ESP_OK, Some (aw_set_active false w), cache)
          end
      end
  | _, _ => gret (ESP_ERR_INVALID_ARG, writer, cache)
  end.

Definition ArtifactCache_Abort (writer : option ArtifactCacheWriter_t)
    : G (esp_err_t * option ArtifactCacheWriter_t) :=
  match writer with
  | None => gret (ESP_ERR_INVALID_ARG, writer)
  | Some w =>
      let! status :=
        match aw_partition w with
        | Some partition =>
            if aw_active w then lift (esp_partition_erase_range partition 0 ARTIFACT_CACHE_ERASE_SIZE)
            else gret ESP_OK
        | None => gret ESP_OK
        end in
      gret (status, Some (aw_set_active false w))
  end.

(** [writer] is the uninitialised local. *)
Definition ArtifactCache_Seed (writer : ArtifactCacheWriter_t) (cache : option ArtifactCache_t)
    (image : option (list Z)) (image_size update_id target_version : Z)
    : G (esp_err_t * option ArtifactCache_t) :=
  if bool_decide (cache = None) || bool_decide (image = None) || (image_size =? 0) ||
     (0xFFFFFFFF <? image_size)
  then gret (ESP_ERR_INVALID_ARG, cache) else
  let! (status, writer) := ArtifactCache_BeginWrite (Some writer) (u32 image_size) update_id target_version in
  if bool_decide (status <> ESP_OK) then gret (status, cache) else
  let! (status, writer) := ArtifactCache_Write writer image image_size in
  if bool_decide (status <> ESP_OK) then
    let! _ := ArtifactCache_Abort writer in
    gret (status, cache)
  else
    let! (status, writer, cache) := ArtifactCache_Commit writer cache in
    if bool_decide (status <> ESP_OK) then
      let! _ := ArtifactCache_Abort writer in
      gret (status, cache)
    else gret (status, cache).

(** The artifact callback: the status and the bytes written to [buffer];
    [buffer] says whether it is non-null. *)
Definition ArtifactCache_Read (cache : option ArtifactCache_t) (offset : Z) (buffer : bool) (length : Z)
    (e : Env) : esp_err_t * list Z * Env :=
  match cache with
  | None => (ESP_ERR_INVALID_ARG, [], e)
  | Some cache =>
      if negb buffer then (ESP_ERR_INVALID_ARG, [], e) else
      if (ch_image_size (ac_header cache) <? offset) ||
         (u32 (ch_image_size (ac_header cache) - offset) <? length)
      then (ESP_ERR_INVALID_SIZE, [], e) else
      match ac_partition cache with
      | None => (ESP_ERR_INVALID_STATE, [], e)
      | Some partition =>
          esp_partition_read partition (u32 (ch_data_offset (ac_header cache) + offset)) length e
      end
  end.

(** The artifact the assignments behind [memset] make. *)
Definition PlainArtifact (cache : ArtifactCache_t) : UartOtaArtifact_t :=
  mkUartOtaArtifact (ch_update_id (ac_header cache)) 0 (ch_target_version (ac_header cache))
    (ch_image_size (ac_header cache)) (ch_image_crc32 (ac_header cache)) 0 1
    (Some (fun offset length => ArtifactCache_Read (Some cache) offset true length)).

(** [*artifact] afterwards. *)
Definition ArtifactCache_AsUartArtifact (cache : option ArtifactCache_t)
    (artifact : option UartOtaArtifact_t) : G (esp_err_t * option UartOtaArtifact_t) :=
  match cache, artifact with
  | Some cache, Some _ =>
      if bool_decide (ac_partition cache = None) then gret (ESP_ERR_INVALID_ARG, artifact) else
      let artifact := PlainArtifact cache in
      let image_size := ch_image_size (ac_header cache) in
      if image_size <? 4 then gret (ESP_OK, Some artifact) else
      let read_length :=
        if SECURE_CONTAINER_META_HEADER_SIZE <? image_size then SECURE_CONTAINER_META_HEADER_SIZE
        else image_size in
      let! (status, prefix) := lift (ArtifactCache_Read (Some cache) 0 true read_length) in
      if bool_decide (status <> ESP_OK) then gret (ESP_FAIL, Some artifact) else
      if negb (SecureContainerMeta_HasMagic (Some prefix) read_length) then gret (ESP_OK, Some artifact) else
      match SecureContainerMeta_Parse (Some prefix) read_length image_size true with
      | None => gret (ESP_ERR_INVALID_RESPONSE, Some artifact)
      | Some secure =>
          if sm_target_version secure <>? ch_target_version (ac_header cache)
          then gret (ESP_ERR_INVALID_VERSION, Some artifact) else
          gret (ESP_OK, Some (mkUartOtaArtifact (ua_update_id artifact) (sm_base_version secure)
            (sm_target_version secure) (ua_image_size artifact) (ua_image_crc32 artifact)
            SECURE_CONTAINER_META_HEADER_SIZE (sm_image_type secure) (ua_read artifact)))
      end
  | _, _ => gret (ESP_ERR_INVALID_ARG, artifact)
  end.
End cache.
