(* ===== verification/ArtifactTheorems.v ===== *)
(** * ArtifactTheorems: what a published artifact is

    For partitions that behave as documented (class [PartitionLaws]): the
    invariant of a write under way, and what Open, Commit and the artifact
    callback promise. *)

From S2P Require Import Prelude Bytes Crc32 Logic Buffer GatewayProtocol GatewayClient.
From S2P Require Import SecureContainerMeta.
From S2P Require Import ArtifactCache.

(** ** The documented behaviour of a NOR flash partition

    Reading changes nothing; writing clears bits inside the range, an erase sets
    the range to 0xFF; with an error the range may hold anything. *)
Class PartitionLaws {IDF : EspIdf} (PART : EspPartition IDF) := {
  stored : Env -> Z -> Z;
  pl_byte e a : is_byte (stored e a);
  pl_size p : esp_partition_find_first = Some p -> ARTIFACT_CACHE_DATA_OFFSET <= pt_size p < 2 ^ 32;
  pl_read_only p off n e a : stored (snd (esp_partition_read p off n e)) a = stored e a;
  pl_read p off n e :
    fst (fst (esp_partition_read p off n e)) = ESP_OK ->
    snd (fst (esp_partition_read p off n e)) = stored e <$> seqZ off n;
  pl_write_outside p off bs e a :
    ~ off <= a < off + len bs -> stored (snd (esp_partition_write p off bs e)) a = stored e a;
  pl_write p off bs e i :
    fst (esp_partition_write p off bs e) = ESP_OK -> 0 <= i < len bs ->
    stored (snd (esp_partition_write p off bs e)) (off + i) = Z.land (stored e (off + i)) (byte_at bs i);
  pl_erase_outside p off n e a :
    ~ off <= a < off + n -> stored (snd (esp_partition_erase_range p off n e)) a = stored e a;
  pl_erase p off n e a :
    fst (esp_partition_erase_range p off n e) = ESP_OK -> off <= a < off + n ->
    stored (snd (esp_partition_erase_range p off n e)) a = 0xFF
}.

(** The erases that reported an error, counted. *)
Class EraseCount {IDF : EspIdf} (PART : EspPartition IDF) := {
  erase_errors : Env -> Z;
  ec_read p off n e : erase_errors (snd (esp_partition_read p off n e)) = erase_errors e;
  ec_write p off bs e : erase_errors (snd (esp_partition_write p off bs e)) = erase_errors e;
  ec_erase p off n e :
    erase_errors (snd (esp_partition_erase_range p off n e)) =
    erase_errors e + (if bool_decide (fst (esp_partition_erase_range p off n e) = ESP_OK) then 0 else 1)
}.

(** ** Regions of bytes *)

Section region.
Implicit Types f : Z -> Z.

Lemma region_length f a n : 0 <= n -> len (f <$> seqZ a n) = n.
Proof. intros. rewrite length_fmap, length_seqZ. lia. Qed.

Lemma region_app f a n m :
  0 <= n -> 0 <= m -> f <$> seqZ a (n + m) = (f <$> seqZ a n) ++ (f <$> seqZ (a + n) m).
Proof. intros. by rewrite seqZ_app, fmap_app. Qed.

Lemma region_ext f g a n : (forall i, a <= i < a + n -> f i = g i) -> f <$> seqZ a n = g <$> seqZ a n.
Proof. intros H. apply list_fmap_ext. intros k x Hx. apply lookup_seqZ in Hx. apply H. lia. Qed.

Lemma slice_region f a n off m :
  0 <= off -> 0 <= m -> off + m <= n -> slice off m (f <$> seqZ a n) = f <$> seqZ (a + off) m.
Proof.
  intros. unfold slice. replace n with (off + (m + (n - off - m))) by lia.
  rewrite region_app, drop_app_length' by (lia || (pose proof (region_length f a off); lia)).
  rewrite region_app, take_app_length' by (lia || (pose proof (region_length f (a + off) m); lia)).
  done.
Qed.
End region.

Lemma land_erased b : is_byte b -> Z.land 0xFF b = b.
Proof. intros Hb. rewrite Z.land_comm. change 0xFF with (Z.ones 8). rewrite Z.land_ones by lia. by apply Z.mod_small. Qed.

(** Rounding up to the erase size. *)
Lemma erase_size_covers n :
  0 <= n <= 2 ^ 32 - ARTIFACT_CACHE_DATA_OFFSET ->
  n <= Z.land (u32 (n + ARTIFACT_CACHE_ERASE_SIZE - 1)) (u32 (Z.lnot (ARTIFACT_CACHE_ERASE_SIZE - 1))).
Proof.
  unfold ARTIFACT_CACHE_DATA_OFFSET, ARTIFACT_CACHE_ERASE_SIZE. intros Hn.
  rewrite u32_small by (unfold is_u32; lia). change (u32 (Z.lnot (4096 - 1))) with (Z.land (Z.ones 32) (Z.lnot (Z.ones 12))).
  rewrite Z.land_assoc, Z.land_ones, Z.mod_small by lia.
  rewrite <- Z.ldiff_land, Z.ldiff_ones_r, Z.shiftl_mul_pow2, Z.shiftr_div_pow2 by lia.
  change (2 ^ 12) with 4096. pose proof (Z.div_mod (n + 4096 - 1) 4096 ltac:(lia)).
  pose proof (Z.mod_pos_bound (n + 4096 - 1) 4096 ltac:(lia)). lia.
Qed.

(** ** The header as bytes *)

Definition header_typed (h : ArtifactCacheHeader_t) : Prop := words_ok (ArtifactCacheHeader_fields h).

Lemma header_round_trip h : header_typed h -> header_of_bytes (header_bytes h) = h.
Proof.
  intros H. unfold header_of_bytes, header_bytes.
  change 9%nat with (length (ArtifactCacheHeader_fields h)).
  rewrite bytes_to_words_to_bytes by exact H. by destruct h.
Qed.

Lemma header_size_typed h : header_typed h -> is_u32 (ch_image_size h).
Proof. unfold header_typed, ArtifactCacheHeader_fields. rewrite !Forall_cons. tauto. Qed.

Lemma header_bytes_length h : len (header_bytes h) = header_size.
Proof. unfold header_bytes. by rewrite words_to_bytes_length. Qed.

(** ** Runs *)

Section runs.
Context {IDF : EspIdf} {PART : EspPartition IDF} {LAWS : PartitionLaws PART}.
Implicit Types e : Env.

(** [m] returns, and [Q] holds of the result. *)
Definition yields {A} (m : G A) (Q : A -> Env -> Prop) e : Prop := exists a e', m e = Some (a, e') /\ Q a e'.

Lemma yields_ret {A} (a : A) (Q : A -> Env -> Prop) e : Q a e -> yields (gret a) Q e.
Proof. by exists a, e. Qed.

Lemma yields_bind {A B} (m : G A) (k : A -> G B) R Q e :
  yields m R e -> (forall a e', R a e' -> yields (k a) Q e') -> yields (gbind m k) Q e.
Proof. intros (a & e1 & E & HR) Hk. destruct (Hk a e1 HR) as (b & e2 & E' & HQ). exists b, e2. unfold gbind. by rewrite E. Qed.

Lemma yields_mono {A} (m : G A) (Q Q' : A -> Env -> Prop) e :
  yields m Q e -> (forall a e', Q a e' -> Q' a e') -> yields m Q' e.
Proof. intros (a & e' & E & HQ) H. exists a, e'. auto. Qed.

(** The test every call is followed by. *)
Lemma yields_check {A} status (m k : G A) (Q : A -> Env -> Prop) e :
  (status <> ESP_OK -> yields m Q e) -> (status = ESP_OK -> yields k Q e) ->
  yields (if bool_decide (status <> ESP_OK) then m else k) Q e.
Proof. case_bool_decide; auto. Qed.

(** The partition as it was. *)
Definition unchanged e e' : Prop := forall a, stored e' a = stored e a.

Lemma unchanged_refl e : unchanged e e.
Proof. done. Qed.

Lemma unchanged_trans e1 e2 e3 : unchanged e1 e2 -> unchanged e2 e3 -> unchanged e1 e3.
Proof. intros H1 H2 a. by rewrite H2. Qed.

Definition region e (a n : Z) : list Z := stored e <$> seqZ a n.

Lemma region_unchanged e e' a n : unchanged e e' -> region e' a n = region e a n.
Proof. intros H. apply region_ext. auto. Qed.

Lemma region_ok e a n : bytes_ok (region e a n).
Proof. apply Forall_fmap, Forall_true. intros. apply pl_byte. Qed.

Lemma yields_read p off n e :
  yields (lift (esp_partition_read p off n))
    (fun x e' => unchanged e e' /\ (fst x = ESP_OK -> snd x = region e off n)) e.
Proof.
  exists (fst (esp_partition_read p off n e)), (snd (esp_partition_read p off n e)).
  unfold lift. split; [by destruct (esp_partition_read p off n e)|].
  split; [intros a; apply pl_read_only|apply pl_read].
Qed.

Lemma yields_lift {A} (f : Env -> A * Env) (Q : A -> Env -> Prop) e :
  Q (fst (f e)) (snd (f e)) -> yields (lift f) Q e.
Proof. intros H. exists (fst (f e)), (snd (f e)). unfold lift. by destruct (f e). Qed.

(** The CRC of the stored bytes. *)
Lemma yields_StoredCrcLoop p image_size : forall fuel offset running e,
  is_u32 image_size -> ARTIFACT_CACHE_DATA_OFFSET + image_size < 2 ^ 32 ->
  0 <= offset <= image_size -> image_size - offset <= Z.of_nat fuel ->
  yields (StoredCrcLoop fuel p image_size offset running)
    (fun r e' => unchanged e e' /\ match r with
       | inl status => status <> ESP_OK
       | inr crc => crc = Z.lxor (fold_left crc32_byte
           (region e (ARTIFACT_CACHE_DATA_OFFSET + offset) (image_size - offset)) running) 0xFFFFFFFF
       end) e.
Proof.
  induction fuel as [|fuel IH]; intros offset running e Hs Hfit Ho Hf; cbn [StoredCrcLoop];
    (destruct (Z.ltb_spec offset image_size) as [Hlt|]; [|apply yields_ret; split; [done|];
      replace (image_size - offset) with 0 by lia; reflexivity]); [lia|].
  unfold is_u32, ARTIFACT_CACHE_DATA_OFFSET in *. cbv zeta. rewrite (u32_small (image_size - offset)) by (unfold is_u32; lia).
  set (chunk := if 256 <? image_size - offset then 256 else image_size - offset).
  assert (Hc : 0 < chunk <= image_size - offset) by (unfold chunk; destruct (Z.ltb_spec 256 (image_size - offset)); lia).
  clearbody chunk. rewrite (u32_small (4096 + offset)) by (unfold is_u32; lia).
  eapply yields_bind; [apply yields_read|]. intros [status bytes] e1 [Hu Hb]. cbn [fst snd] in Hb.
  apply yields_check; intros E; [by apply yields_ret|]. specialize (Hb E).
  rewrite (u32_small (offset + chunk)) by (unfold is_u32; lia).
  eapply yields_mono; [apply (IH (offset + chunk)); unfold is_u32; lia|].
  intros [st|crc] e2 [Hu2 Hr]; (split; [by eapply unchanged_trans|]); [exact Hr|]. rewrite Hr.
  rewrite (region_unchanged e e1 _ _ Hu). f_equal. unfold CrcUpdate.
  rewrite (fold_CrcByte_eq (take (Z.to_nat chunk) bytes)), Hb.
  rewrite take_ge by (unfold region; rewrite length_fmap, length_seqZ; lia).
  rewrite <- fold_left_app. apply (f_equal (fun l => fold_left crc32_byte l running)).
  replace (image_size - offset) with (chunk + (image_size - (offset + chunk))) by lia.
  rewrite Z.add_assoc. symmetry. apply region_app; lia.
Qed.

Lemma yields_StoredCrc p image_size e :
  is_u32 image_size -> ARTIFACT_CACHE_DATA_OFFSET + image_size < 2 ^ 32 ->
  yields (CalculateStoredImageCrc (Some p) image_size)
    (fun r e' => unchanged e e' /\ match r with
       | inl status => status <> ESP_OK
       | inr crc => crc = crc_of (region e ARTIFACT_CACHE_DATA_OFFSET image_size)
       end) e.
Proof.
  intros Hs Hfit. unfold is_u32 in Hs. eapply yields_mono.
  - apply (yields_StoredCrcLoop p image_size (Z.to_nat image_size) 0 0xFFFFFFFF e); unfold is_u32; lia.
  - intros [st|crc] e' [Hu Hr]; (split; [exact Hu|]); [exact Hr|].
    by rewrite Hr, crc_of_fold, Z.add_0_r, Z.sub_0_r.
Qed.

(** ** What the partition holds

    The artifact a reader of the partition finds: its header, and its bytes. *)
Definition published e : option (ArtifactCacheHeader_t * list Z) :=
  let header := header_of_bytes (region e 0 header_size) in
  let image := region e ARTIFACT_CACHE_DATA_OFFSET (ch_image_size header) in
  if HeaderValid FindPartition (Some header) && (ch_image_crc32 header =? crc_of image)
  then Some (header, image) else None.

Lemma region_agree e e' a n :
  (forall i, a <= i < a + n -> stored e' i = stored e i) -> region e' a n = region e a n.
Proof. apply region_ext. Qed.

Lemma published_unchanged e e' : unchanged e e' -> published e' = published e.
Proof.
  intros Hu. unfold published. rewrite (region_unchanged e e' 0 header_size Hu).
  by rewrite (region_unchanged e e' ARTIFACT_CACHE_DATA_OFFSET _ Hu).
Qed.

Lemma HeaderValid_fits partition header :
  HeaderValid (Some partition) (Some header) = true ->
  ch_image_size header <= u32 (pt_size partition - ARTIFACT_CACHE_DATA_OFFSET) /\
  ch_image_size header <> 0 /\ ch_data_offset header = ARTIFACT_CACHE_DATA_OFFSET.
Proof. unfold HeaderValid. case_if; [done|]. intros H. to_prop. by split_and!. Qed.

Lemma header_of_bytes_typed bs : bytes_ok bs -> len bs = header_size -> header_typed (header_of_bytes bs).
Proof.
  intros Hok Hl. pose proof (bytes_to_words_ok 9 bs Hok) as H. unfold header_size in Hl.
  specialize (H ltac:(lia)). unfold header_typed, header_of_bytes.
  remember (bytes_to_words 9 bs) as ws eqn:E. assert (Hws : length ws = 9%nat) by (subst; apply bytes_to_words_length).
  clear E. do 9 (destruct ws as [|? ws]; [done|]). by destruct ws.
Qed.

Lemma published_header_typed e : header_typed (header_of_bytes (region e 0 header_size)).
Proof. apply header_of_bytes_typed; [apply region_ok|by apply region_length]. Qed.

(** The partition, its size, and the room it has. *)
Lemma partition_room p :
  FindPartition = Some p ->
  u32 (pt_size p - ARTIFACT_CACHE_DATA_OFFSET) = pt_size p - ARTIFACT_CACHE_DATA_OFFSET /\
  ARTIFACT_CACHE_DATA_OFFSET <= pt_size p < 2 ^ 32.
Proof.
  intros H. pose proof (pl_size p H) as Hs. split; [|exact Hs].
  apply u32_small. unfold is_u32, ARTIFACT_CACHE_DATA_OFFSET in *. lia.
Qed.

(** Open changes nothing; it accepts only what is published, and rejects the
    rest, whether it reads all of it or not. *)
Lemma yields_Open c e :
  yields (ArtifactCache_Open (Some c))
    (fun r e' => unchanged e e' /\
       (fst r = ESP_OK -> exists header image, published e = Some (header, image) /\
          snd r = Some (mkArtifactCache FindPartition header) /\ FindPartition <> None) /\
       (fst r <> ESP_OK -> snd r = Some c)) e.
Proof.
  unfold ArtifactCache_Open. destruct FindPartition as [p|] eqn:Ep; [|by apply yields_ret].
  eapply yields_bind; [apply yields_read|]. intros [status bytes] e1 [Hu Hb]. cbn [fst snd] in Hb.
  apply yields_check; intros E; [by apply yields_ret|]. specialize (Hb E). subst bytes.
  cbv zeta. case_if; [by apply yields_ret|]. apply negb_false_iff in E0.
  pose proof (HeaderValid_fits _ _ E0) as (Hfits & Hne & _). pose proof (partition_room p Ep) as [Hroom Hp].
  assert (Hu32 : is_u32 (ch_image_size (header_of_bytes (region e 0 header_size)))) by (apply header_size_typed, published_header_typed).
  eapply yields_bind; [apply yields_StoredCrc|]; [exact Hu32|lia|].
  intros [st|crc] e2 [Hu2 Hcrc]; [by apply yields_ret; split_and!; [eapply unchanged_trans|..]|].
  rewrite Hcrc. case_if; apply yields_ret; (split; [by eapply unchanged_trans|]); [done|].
  to_prop. split; [|done]. intros _. eexists _, _. split_and!; [|done|done].
  unfold published. rewrite Ep, E0, <- E1. rewrite (region_unchanged e e1 _ _ Hu), Z.eqb_refl. done.
Qed.

(** ** What the cache does not touch

    A relation that every partition function keeps, every function of the cache
    keeps. *)
Section stays.
Context (R : Env -> Env -> Prop) {Hpre : PreOrder R}.
Context (Hread : forall p off n e, R e (snd (esp_partition_read p off n e))).
Context (Hwrite : forall p off bs e, R e (snd (esp_partition_write p off bs e))).
Context (Herase : forall p off n e, R e (snd (esp_partition_erase_range p off n e))).

Definition stays {A} (m : G A) : Prop := forall e a e', m e = Some (a, e') -> R e e'.

Lemma stays_ret {A} (a : A) : stays (gret a).
Proof using Hpre. intros e a' e' [= <- <-]. reflexivity. Qed.

Lemma stays_bind {A B} (m : G A) (k : A -> G B) : stays m -> (forall a, stays (k a)) -> stays (gbind m k).
Proof using Hpre.
  intros Hm Hk e b e2. unfold gbind. destruct (m e) as [[a e1]|] eqn:E; [|done].
  intros E2. transitivity e1; [by eapply Hm|by eapply Hk].
Qed.

Lemma stays_lift {A} (f : Env -> A * Env) : (forall e, R e (snd (f e))) -> stays (lift f).
Proof using. intros Hf e a e' [= E]. specialize (Hf e). by rewrite E in Hf. Qed.

Ltac stay := repeat first
  [ apply stays_ret | apply stays_bind; [|intros ?] | apply stays_lift; intros ?; solve [auto]
  | match goal with
    | |- stays (if ?b then _ else _) => destruct b
    | |- stays (match ?x with _ => _ end) => destruct x
    | |- stays (let '_ := _ in _) => cbv zeta
    end ].

Lemma stays_StoredCrcLoop p size : forall fuel offset running, stays (StoredCrcLoop fuel p size offset running).
Proof using Hpre Hread.
  induction fuel as [|fuel IH]; intros offset running; cbn [StoredCrcLoop]; case_if; stay; [done|]. apply IH.
Qed.

Lemma stays_StoredCrc p size : stays (CalculateStoredImageCrc p size).
Proof using Hpre Hread. unfold CalculateStoredImageCrc. destruct p; [apply stays_StoredCrcLoop|stay]. Qed.

Lemma stays_Open c : stays (ArtifactCache_Open c).
Proof using Hpre Hread. unfold ArtifactCache_Open. stay. cbv zeta. stay. apply stays_StoredCrc. Qed.

Lemma stays_BeginWrite w n id v : stays (ArtifactCache_BeginWrite w n id v).
Proof using Hpre Herase. unfold ArtifactCache_BeginWrite. cbv zeta. stay. Qed.

Lemma stays_Write w d n : stays (ArtifactCache_Write w d n).
Proof using Hpre Hwrite. unfold ArtifactCache_Write. cbv zeta. stay. Qed.

Lemma stays_Commit w c : stays (ArtifactCache_Commit w c).
Proof using Hpre Hread Hwrite Herase.
  unfold ArtifactCache_Commit. cbv zeta. stay; [apply stays_StoredCrc|apply stays_Open].
Qed.

Lemma stays_Abort w : stays (ArtifactCache_Abort w).
Proof using Hpre Herase. unfold ArtifactCache_Abort. stay. Qed.

Lemma ArtifactCache_Read_stays c offset buffer n e : R e (snd (ArtifactCache_Read c offset buffer n e)).
Proof using Hpre Hread.
  unfold ArtifactCache_Read. destruct c as [c|]; [|reflexivity]. case_if; [reflexivity|].
  case_if; [reflexivity|]. destruct (ac_partition c); [apply Hread|reflexivity].
Qed.

Lemma stays_AsUartArtifact c a : stays (ArtifactCache_AsUartArtifact c a).
Proof using Hpre Hread.
  unfold ArtifactCache_AsUartArtifact. cbv zeta. stay; apply stays_lift; intros; apply ArtifactCache_Read_stays.
Qed.
End stays.

(** The run itself, for statements about it. *)
Lemma yields_run {A} (m : G A) (Q : A -> Env -> Prop) e :
  yields m Q e -> yields m (fun a e' => m e = Some (a, e') /\ Q a e') e.
Proof. intros (a & e' & E & HQ). by exists a, e'. Qed.

Lemma yields_stays {A} R (m : G A) (Q : A -> Env -> Prop) e :
  stays R m -> yields m Q e -> yields m (fun a e' => R e e' /\ Q a e') e.
Proof. intros Hm (a & e' & E & HQ). exists a, e'. split; [exact E|]. split; [by eapply Hm|exact HQ]. Qed.

(** ** A write under way

    The header stays erased until Commit, so that nothing is published; the data
    written so far is stored, and its CRC is running. *)
Definition withdrawn e : Prop := forall a, 0 <= a < header_size -> stored e a = 0xFF.

Lemma withdrawn_published e : withdrawn e -> published e = None.
Proof.
  intros H. unfold published. replace (region e 0 header_size) with (replicate 36 0xFF).
  - destruct FindPartition as [p|]; [|done]. unfold HeaderValid.
    by replace (ch_magic (header_of_bytes (replicate 36 255))) with 0xFFFFFFFF by by vm_compute.
  - apply list_eq_same_length with 36%nat; [unfold region; by rewrite length_fmap, length_seqZ|done|].
    intros i x y Hi Hx Hy. apply lookup_replicate in Hx as [-> _].
    apply list_lookup_fmap_Some in Hy as (z & -> & Hz). apply lookup_seqZ in Hz. symmetry. apply H. lia.
Qed.

Record writing p e (w : ArtifactCacheWriter_t) (data : list Z) : Prop := {
  wr_find : FindPartition = Some p;
  wr_partition : aw_partition w = Some p;
  wr_active : aw_active w = true;
  wr_update_id : is_u32 (aw_update_id w) /\ aw_update_id w <> 0;
  wr_target_version : is_u32 (aw_target_version w) /\ aw_target_version w <> 0;
  wr_expected : 0 < aw_expected_size w <= pt_size p - ARTIFACT_CACHE_DATA_OFFSET;
  wr_written : aw_written_size w = len data;
  wr_room : len data <= aw_expected_size w;
  wr_crc : aw_running_crc32 w = fold_left crc32_byte data 0xFFFFFFFF;
  wr_data : region e ARTIFACT_CACHE_DATA_OFFSET (len data) = data;
  wr_rest a : ARTIFACT_CACHE_DATA_OFFSET + len data <= a < ARTIFACT_CACHE_DATA_OFFSET + aw_expected_size w ->
    stored e a = 0xFF;
  wr_withdrawn : withdrawn e
}.

(** The writer of the same artifact. *)
Definition same_artifact (w w' : ArtifactCacheWriter_t) : Prop :=
  aw_update_id w' = aw_update_id w /\ aw_target_version w' = aw_target_version w /\
  aw_expected_size w' = aw_expected_size w.

Context {EC : EraseCount PART}.

(** The count never falls. *)
Definition counted e e' : Prop := erase_errors e <= erase_errors e'.

#[local] Instance counted_preorder : PreOrder counted.
Proof. split; [intros e; unfold counted; lia|]. intros e1 e2 e3. unfold counted. lia. Qed.

Lemma counted_read p off n e : counted e (snd (esp_partition_read p off n e)).
Proof. unfold counted. rewrite ec_read. lia. Qed.

Lemma counted_write p off bs e : counted e (snd (esp_partition_write p off bs e)).
Proof. unfold counted. rewrite ec_write. lia. Qed.

Lemma counted_erase p off n e : counted e (snd (esp_partition_erase_range p off n e)).
Proof. unfold counted. rewrite ec_erase. case_bool_decide; lia. Qed.

(** An erase: its range, and the count. *)
Lemma yields_erase p off n e :
  yields (lift (esp_partition_erase_range p off n))
    (fun st e' => (st = ESP_OK -> erase_errors e' = erase_errors e /\
         forall a, off <= a < off + n -> stored e' a = 0xFF) /\
       (st <> ESP_OK -> erase_errors e' = erase_errors e + 1) /\
       (forall a, ~ off <= a < off + n -> stored e' a = stored e a)) e.
Proof.
  apply yields_lift. rewrite ec_erase.
  split; [|split; [|intros a; apply pl_erase_outside]]; intros Hst.
  - rewrite bool_decide_true by done. split; [lia|]. intros a. by apply pl_erase.
  - rewrite bool_decide_false by done. lia.
Qed.

(** Begin erases the header, then room for the data. *)
Lemma yields_BeginWrite w0 expected_size update_id target_version e :
  is_u32 expected_size -> is_u32 update_id -> is_u32 target_version ->
  yields (ArtifactCache_BeginWrite (Some w0) expected_size update_id target_version)
    (fun r e' =>
       (fst r = ESP_OK -> exists p w, snd r = Some w /\ writing p e' w [] /\
          aw_update_id w = update_id /\ aw_target_version w = target_version /\
          aw_expected_size w = expected_size) /\
       (fst r <> ESP_OK -> erase_errors e' = erase_errors e -> unchanged e e')) e.
Proof.
  intros Hs Hid Htv. unfold is_u32 in Hs. unfold ArtifactCache_BeginWrite. case_if; [by apply yields_ret|].
  apply orb_false_iff in E as [E Ev]. apply orb_false_iff in E as [E Ei]. to_prop.
  destruct FindPartition as [p|] eqn:Ep; [|by apply yields_ret].
  pose proof (partition_room p Ep) as [Hroom Hp]. rewrite Hroom. case_if; [by apply yields_ret|]. to_prop. cbv zeta.
  eapply yields_bind; [apply yields_erase|]. intros st e1 (Hw1 & Hf1 & _). apply yields_check; intros Hst.
  { apply yields_ret. split; [done|]. intros _ Hc. specialize (Hf1 Hst). lia. }
  destruct (Hw1 Hst) as [Hn1 Hwd1]. clear Hf1 Hw1.
  eapply yields_bind; [apply yields_erase|]. intros st2 e2 (Hw2 & Hf2 & Hout). apply yields_check; intros Hst2; apply yields_ret.
  { split; [done|]. intros _ Hc. specialize (Hf2 Hst2). lia. }
  destruct (Hw2 Hst2) as [_ Her2]. pose proof (erase_size_covers expected_size) as Hc.
  assert (Hwd : withdrawn e2).
  { intros a Ha. unfold ARTIFACT_CACHE_DATA_OFFSET, ARTIFACT_CACHE_ERASE_SIZE, header_size in *. rewrite Hout by lia. apply Hwd1. lia. }
  assert (Her : forall a, ARTIFACT_CACHE_DATA_OFFSET <= a < ARTIFACT_CACHE_DATA_OFFSET + expected_size -> stored e2 a = 0xFF).
  { intros a Ha. apply Her2. unfold ARTIFACT_CACHE_DATA_OFFSET in *. lia. }
  split; [|done]. intros _. eexists p, _. split; [done|]. split; [|done].
  split; cbn; try done; lia.
Qed.

(** Writing over erased bytes stores them. *)
Lemma write_erased p off bs e :
  bytes_ok bs -> (forall a, off <= a < off + len bs -> stored e a = 0xFF) ->
  fst (esp_partition_write p off bs e) = ESP_OK ->
  region (snd (esp_partition_write p off bs e)) off (len bs) = bs.
Proof.
  intros Hbs Her Hok. apply list_eq_same_length with (length bs); [done|unfold region; rewrite length_fmap, length_seqZ; lia|].
  intros i x y Hi Hx Hy. unfold region in Hx. rewrite list_lookup_fmap in Hx. apply fmap_Some in Hx as (z & Hz & ->).
  apply lookup_seqZ in Hz as [-> Hz]. rewrite pl_write by (done || lia). rewrite Her by lia.
  unfold byte_at. rewrite Nat2Z.id, (nth_lookup_Some _ _ _ _ Hy). apply land_erased.
  rewrite Forall_forall in Hbs. apply Hbs. by eapply list_elem_of_lookup_2.
Qed.

Lemma writing_partition p e w data :
  writing p e w data -> ARTIFACT_CACHE_DATA_OFFSET + aw_expected_size w < 2 ^ 32 /\ 0 < aw_expected_size w.
Proof. intros []. pose proof (partition_room p wr_find0). lia. Qed.

(** Write appends the bytes, or fails and leaves nothing published. *)
Lemma yields_Write p w data bytes n e :
  writing p e w data -> bytes_ok bytes -> 0 <= n <= len bytes ->
  yields (ArtifactCache_Write (Some w) (Some bytes) n)
    (fun r e' => exists w', snd r = Some w' /\ same_artifact w w' /\
       (fst r = ESP_OK -> writing p e' w' (data ++ take (Z.to_nat n) bytes)) /\
       (fst r <> ESP_OK -> w' = w /\ withdrawn e')) e.
Proof.
  intros Hw Hbs Hn. pose proof (writing_partition _ _ _ _ Hw) as [Hp Hs]. pose proof Hw as [].
  unfold ARTIFACT_CACHE_DATA_OFFSET in *.
  assert (Hkeep : forall st, (st = ESP_OK -> n = 0) -> yields (gret (st, Some w))
    (fun (r : esp_err_t * option ArtifactCacheWriter_t) e' => exists w', snd r = Some w' /\ same_artifact w w' /\
       (fst r = ESP_OK -> writing p e' w' (data ++ take (Z.to_nat n) bytes)) /\
       (fst r <> ESP_OK -> w' = w /\ withdrawn e')) e).
  { intros st Hst. apply yields_ret. exists w. split; [done|]. split; [done|]. split; [|done].
    intros H. rewrite (Hst H). cbn [Z.to_nat take]. rewrite app_nil_r. exact Hw. }
  unfold ArtifactCache_Write. cbn [andb bool_decide]. rewrite wr_active0, wr_partition0.
  rewrite (u32_small (_ - _)) by (unfold is_u32; lia). cbn [negb].
  change (bool_decide (Some bytes = None)) with false. cbn [andb].
  case_if; [by apply Hkeep|]. case_if; to_prop; [by apply Hkeep|]. cbv zeta.
  rewrite (u32_small (_ + _)) by (unfold is_u32, ARTIFACT_CACHE_DATA_OFFSET; lia).
  change (default [] (Some bytes)) with bytes.
  set (bs := take (Z.to_nat n) bytes) in *.
  assert (Hl : len bs = n) by (unfold bs; rewrite length_take; lia).
  assert (Hbok : bytes_ok bs) by (by apply Forall_take).
  rewrite wr_written0 in *. unfold ARTIFACT_CACHE_DATA_OFFSET.
  eapply yields_bind; [apply yields_lift with (Q := fun st e1 => withdrawn e1 /\ (st = ESP_OK ->
    region e1 4096 (len data + n) = data ++ bs /\
    forall a, 4096 + (len data + n) <= a < 4096 + aw_expected_size w -> stored e1 a = 0xFF))|].
  { split; [intros a Ha; unfold header_size in *; rewrite pl_write_outside by lia; by apply wr_withdrawn0|].
    intros Hst. split.
    - rewrite <- Hl. unfold region. rewrite region_app by lia. f_equal.
      + rewrite <- wr_data0 at 3. apply region_ext. intros i Hi. apply pl_write_outside. lia.
      + apply write_erased; [done| |done]. intros a Ha. apply wr_rest0. lia.
    - intros a Ha. rewrite pl_write_outside by lia. apply wr_rest0. lia. }
  intros st e1 [Hwd Hok]. apply yields_check; intros Hst; apply yields_ret.
  { exists w. split; [done|]. by split. }
  destruct (Hok Hst) as [Hreg Hrest]. eexists. split; [done|]. split; [done|]. split; [|done]. intros _.
  split; cbn [aw_partition aw_active aw_update_id aw_target_version aw_expected_size aw_written_size aw_running_crc32];
    rewrite ?length_app, ?Nat2Z.inj_add, ?Hl; try done; try lia.
  - apply u32_small. unfold is_u32. lia.
  - rewrite wr_crc0. unfold CrcUpdate. rewrite (fold_CrcByte_eq (take (Z.to_nat n) bytes)). symmetry. apply fold_left_app.
Qed.

Lemma HeaderCrc_range header : is_u32 (HeaderCrc header).
Proof.
  unfold HeaderCrc. rewrite UartOta_Crc32_eq.
  rewrite <- (take_drop (Z.to_nat header_crc_offset) (header_bytes header)).
  rewrite Crc32_Calculate_prefix; [apply crc_of_range, Forall_take, words_to_bytes_ok|].
  pose proof (header_bytes_length header). unfold header_size in *. rewrite length_take. unfold header_crc_offset. lia.
Qed.

Lemma writing_header p e w data :
  writing p e w data -> bytes_ok data -> header_typed (NewHeader w (crc_of data)).
Proof.
  intros Hw Hd. pose proof (writing_partition _ _ _ _ Hw) as [Hp Hs]. destruct Hw.
  pose proof (HeaderCrc_range (mkArtifactCacheHeader ARTIFACT_CACHE_MAGIC ARTIFACT_CACHE_FORMAT_VERSION header_size
    (aw_update_id w) (aw_target_version w) (aw_expected_size w) (crc_of data) ARTIFACT_CACHE_DATA_OFFSET 0)) as Hc.
  pose proof (crc_of_range data Hd) as Hd'.
  unfold header_typed, ArtifactCacheHeader_fields, NewHeader.
  cbn [ch_magic ch_format_version ch_header_size ch_update_id ch_target_version ch_image_size ch_image_crc32
    ch_data_offset ch_header_crc32].
  rewrite !Forall_cons, Forall_nil. unfold ARTIFACT_CACHE_DATA_OFFSET in Hp.
  split_and!; first [exact Hc | exact Hd' | apply wr_update_id0 | apply wr_target_version0 | exact I
    | unfold is_u32; lia | by vm_compute].
Qed.

(** The header as the read back finds it. *)
Lemma header_stored p e header :
  withdrawn e -> header_typed header ->
  fst (esp_partition_write p 0 (header_bytes header) e) = ESP_OK ->
  header_of_bytes (region (snd (esp_partition_write p 0 (header_bytes header) e)) 0 header_size) = header.
Proof.
  intros Hw Ht Hok. rewrite <- (header_bytes_length header), write_erased; [by apply header_round_trip|..].
  - apply words_to_bytes_ok.
  - rewrite header_bytes_length. intros a Ha. apply Hw. lia.
  - done.
Qed.

(** What is left of the writer after a failure: Abort can still withdraw, or the
    header was withdrawn already, unless an erase failed after the first [n]. *)
Definition abortable p n e (w : ArtifactCacheWriter_t) : Prop :=
  aw_partition w = Some p /\ (aw_active w = true \/ (erase_errors e = n -> withdrawn e)).

Lemma erase_withdraws n st e e' :
  n <= erase_errors e ->
  (st = ESP_OK -> erase_errors e' = erase_errors e /\
     forall a, 0 <= a < 0 + ARTIFACT_CACHE_ERASE_SIZE -> stored e' a = 0xFF) /\
  (st <> ESP_OK -> erase_errors e' = erase_errors e + 1) /\
  (forall a, ~ 0 <= a < 0 + ARTIFACT_CACHE_ERASE_SIZE -> stored e' a = stored e a) ->
  erase_errors e' = n -> withdrawn e'.
Proof.
  intros Hn (Hok & Hbad & _) Hc a Ha. destruct (decide (st = ESP_OK)) as [Hst|Hst].
  - apply (Hok Hst). unfold header_size, ARTIFACT_CACHE_ERASE_SIZE in *. lia.
  - specialize (Hbad Hst). lia.
Qed.

(** Commit publishes what was written. *)
Lemma yields_Commit p w data c n e :
  writing p e w data -> n <= erase_errors e ->
  yields (ArtifactCache_Commit (Some w) (Some c))
    (fun r e' => exists w', snd (fst r) = Some w' /\
       (fst (fst r) = ESP_OK ->
          len data = aw_expected_size w /\
          published e' = Some (NewHeader w (crc_of data), data) /\
          snd r = Some (mkArtifactCache (Some p) (NewHeader w (crc_of data)))) /\
       (fst (fst r) <> ESP_OK -> snd r = Some c /\ abortable p n e' w')) e.
Proof.
  intros Hw Hn. pose proof (writing_partition _ _ _ _ Hw) as [Hfit Hs]. pose proof Hw as [].
  assert (Hd : bytes_ok data) by (rewrite <- wr_data0; apply region_ok).
  pose proof (writing_header _ _ _ _ Hw Hd) as Ht.
  assert (Hab : abortable p n e w) by (by split; [|left]).
  unfold ArtifactCache_Commit. rewrite wr_active0, wr_partition0. cbn [negb].
  case_if; [by apply yields_ret; exists w|]. cbv zeta. to_prop. rewrite wr_written0 in E.
  eapply yields_bind.
  { apply (yields_stays counted); [apply stays_StoredCrc; eauto using counted_read with typeclass_instances|].
    apply yields_StoredCrc; [unfold is_u32, ARTIFACT_CACHE_DATA_OFFSET in *; lia|lia]. }
  intros [st|crc] e1 [Hc1 [Hu Hcrc]]; [apply yields_ret; exists w; split; [done|]; split; [done|]; intros _; split; [done|]; by split; [|left]|].
  rewrite <- E, wr_data0 in Hcrc. subst crc.
  case_if; [by apply yields_ret; exists w; split; [|split; [|by split; [|split; [|left]]]]|]. clear E0.
  assert (Hwd : withdrawn e1) by (intros a Ha; rewrite (Hu a); by apply wr_withdrawn0).
  set (header := NewHeader w (crc_of data)) in *.
  eapply yields_bind; [apply yields_lift with (Q := fun st e2 => counted e1 e2 /\ (st = ESP_OK ->
    header_of_bytes (region e2 0 header_size) = header /\
    region e2 ARTIFACT_CACHE_DATA_OFFSET (len data) = data))|].
  { split; [apply counted_write|]. intros Hst. split; [by apply header_stored|]. rewrite <- wr_data0 at 2. apply region_ext. intros i Hi.
    rewrite pl_write_outside; [apply Hu|]. rewrite header_bytes_length. unfold header_size, ARTIFACT_CACHE_DATA_OFFSET in *. lia. }
  intros st e2 [Hc2 H2]. apply yields_check; intros Hst.
  { apply yields_ret. exists w. split; [done|]. split; [done|]. intros _. split; [done|]. by split; [|left]. }
  destruct (H2 Hst) as [Hh Himg]. eapply yields_bind.
  { apply (yields_stays counted); [apply stays_Open; eauto using counted_read with typeclass_instances|apply yields_Open]. }
  intros [st3 c3] e3 (Hc3 & Hu3 & Hok & Hno). unfold counted in *. cbn [fst snd] in Hok, Hno. apply yields_check; intros Hst3.
  - assert (Hn3 : n <= erase_errors e3) by lia. eapply yields_bind; [apply yields_erase|].
    intros st4 e4 H4. apply yields_ret. exists (aw_set_active false w).
    split; [reflexivity|]. split; [intros H; destruct (Hst3 H)|]. intros _.
    split; [by apply Hno|]. split; [exact wr_partition0|right; exact (erase_withdraws n st4 e3 e4 Hn3 H4)].
  - destruct (Hok Hst3) as (h & image & Hpub & -> & _). apply yields_ret. exists (aw_set_active false w).
    split; [reflexivity|]. split; [|intros H; destruct (H eq_refl)]. intros _. split; [lia|]. rewrite (published_unchanged e2 e3 Hu3), Hpub.
    unfold published in Hpub. rewrite Hh in Hpub. case_if_in Hpub; [|discriminate Hpub]. injection Hpub as <- <-.
    rewrite wr_find0. split; [|reflexivity]. do 2 f_equal. change (ch_image_size header) with (aw_expected_size w). by rewrite <- E.
Qed.

(** Abort withdraws what is not published. *)
Lemma yields_Abort p w n e :
  abortable p n e w -> n <= erase_errors e ->
  yields (ArtifactCache_Abort (Some w)) (fun _ e' => n <= erase_errors e' /\ (erase_errors e' = n -> withdrawn e')) e.
Proof.
  intros [Hp Ha] Hn. unfold ArtifactCache_Abort. rewrite Hp.
  eapply (yields_bind _ _ (fun _ e1 => n <= erase_errors e1 /\ (erase_errors e1 = n -> withdrawn e1)));
    [|intros; by apply yields_ret].
  destruct (aw_active w) eqn:E; [|apply yields_ret; by destruct Ha].
  eapply yields_mono; [apply yields_erase|]. intros st e1 H1. cbv beta in H1.
  split; [|by apply (erase_withdraws n st e)]. destruct H1 as (Hok & Hbad & _).
  destruct (decide (st = ESP_OK)) as [Hst|Hst]; [destruct (Hok Hst)|specialize (Hbad Hst)]; lia.
Qed.

(** ** The artifact callback *)

(** The image of the published artifact is stored. *)
Lemma published_image e header image :
  published e = Some (header, image) ->
  HeaderValid FindPartition (Some header) = true /\ ch_image_crc32 header = crc_of image /\
  ch_image_size header = len image /\ is_u32 (len image) /\
  region e ARTIFACT_CACHE_DATA_OFFSET (len image) = image /\ header_typed header.
Proof.
  unfold published. intros H. case_if_in H; [|discriminate H].
  apply (inj Some), pair_equal_spec in H as [<- Hi]. to_prop.
  pose proof (published_header_typed e) as Ht. pose proof (header_size_typed _ Ht) as Hs.
  set (header := header_of_bytes (region e 0 header_size)) in *.
  assert (Hl : len image = ch_image_size header) by (rewrite <- Hi; apply region_length; unfold is_u32 in Hs; lia).
  rewrite Hl. split_and!; first [assumption | reflexivity | congruence].
Qed.

Lemma published_fits e header image :
  published e = Some (header, image) ->
  ARTIFACT_CACHE_DATA_OFFSET + len image < 2 ^ 32 /\ FindPartition <> None /\
  ch_data_offset header = ARTIFACT_CACHE_DATA_OFFSET.
Proof.
  intros H. destruct (published_image _ _ _ H) as (Hv & _ & Hs & _). destruct FindPartition as [p|] eqn:Ep; [|discriminate Hv].
  destruct (HeaderValid_fits _ _ Hv) as (Hfit & _ & Ho). pose proof (partition_room p Ep). split; [lia|done].
Qed.

(** The callback reads the image, in whatever state the partition then is. *)
Lemma yields_Read e0 header image offset n e :
  published e0 = Some (header, image) -> unchanged e0 e -> 0 <= offset -> 0 <= n ->
  yields (lift (ArtifactCache_Read (Some (mkArtifactCache FindPartition header)) offset true n))
    (fun r e' => unchanged e e' /\
       (fst r = ESP_OK -> snd r = slice offset n image /\ offset + n <= len image)) e.
Proof.
  intros Hpub Hu Ho Hn. destruct (published_image _ _ _ Hpub) as (_ & _ & Hs & Hr & Himg & _).
  destruct (published_fits _ _ _ Hpub) as (Hfit & Hp & Hdata). unfold is_u32 in Hr.
  unfold ArtifactCache_Read. cbn [negb ac_header ac_partition]. rewrite Hs, Hdata.
  destruct ((len image <? offset) || _) eqn:E; [by apply yields_lift|].
  apply orb_false_iff in E as [E1 E2]. to_prop. rewrite u32_small in E2 by (unfold is_u32; lia).
  unfold ARTIFACT_CACHE_DATA_OFFSET in *. rewrite (u32_small (4096 + offset)) by (unfold is_u32; lia).
  destruct FindPartition as [p|]; [|done].
  eapply yields_mono; [apply (yields_read p (4096 + offset) n)|].
  intros [st bs] e' [Hu' Hb]. split; [exact Hu'|]. intros Hst. specialize (Hb Hst). cbn [snd] in *. subst bs.
  rewrite <- Himg at 1. split; [|lia]. unfold region. rewrite slice_region by lia.
  apply region_ext. intros i Hi. apply Hu.
Qed.

(** What the artifact says of the container in the image, if it is one. *)
Definition describes (artifact : UartOtaArtifact_t) (image : list Z) : Prop :=
  let prefix := take (Z.to_nat (Z.min SECURE_CONTAINER_META_HEADER_SIZE (len image))) image in
  if SecureContainerMeta_HasMagic (Some prefix) (len prefix)
  then exists meta,
    SecureContainerMeta_Parse (Some prefix) (len prefix) (len image) true = Some meta /\
    ua_artifact_type artifact = sm_image_type meta /\ ua_base_version artifact = sm_base_version meta /\
    ua_target_version artifact = sm_target_version meta /\
    ua_container_header_size artifact = SECURE_CONTAINER_META_HEADER_SIZE
  else ua_artifact_type artifact = 1 /\ ua_base_version artifact = 0 /\ ua_container_header_size artifact = 0.

(** The artifact is the published one. *)
Record exports (artifact : UartOtaArtifact_t) (header : ArtifactCacheHeader_t) (image : list Z) : Prop := {
  ex_update_id : ua_update_id artifact = ch_update_id header;
  ex_target_version : ua_target_version artifact = ch_target_version header;
  ex_size : ua_image_size artifact = len image;
  ex_crc : ua_image_crc32 artifact = crc_of image;
  ex_describes : describes artifact image;
  ex_read : ua_read artifact =
    Some (fun offset length => ArtifactCache_Read (Some (mkArtifactCache FindPartition header)) offset true length)
}.

Lemma prefix_length n (image : list Z) : 0 <= n -> len (take (Z.to_nat (Z.min n (len image))) image) = Z.min n (len image).
Proof. intros. rewrite length_take. lia. Qed.

Lemma yields_AsUartArtifact a0 header image e :
  published e = Some (header, image) ->
  yields (ArtifactCache_AsUartArtifact (Some (mkArtifactCache FindPartition header)) (Some a0))
    (fun r e' => unchanged e e' /\
       (fst r = ESP_OK -> exists artifact, snd r = Some artifact /\ exports artifact header image)) e.
Proof.
  intros Hpub. destruct (published_image _ _ _ Hpub) as (_ & Hcrc & Hs & Hr & _ & _).
  destruct (published_fits _ _ _ Hpub) as (Hfit & Hp & _). unfold is_u32 in Hr.
  unfold ArtifactCache_AsUartArtifact. cbn [ac_partition ac_header]. rewrite bool_decide_false by done. cbv zeta.
  rewrite Hs.
  assert (Hplain : forall e', unchanged e e' ->
    SecureContainerMeta_HasMagic (Some (take (Z.to_nat (Z.min SECURE_CONTAINER_META_HEADER_SIZE (len image))) image))
      (Z.min SECURE_CONTAINER_META_HEADER_SIZE (len image)) = false ->
    yields (gret (ESP_OK, Some (PlainArtifact (mkArtifactCache FindPartition header))))
      (fun r e' => unchanged e e' /\
       (fst r = ESP_OK -> exists artifact, snd r = Some artifact /\ exports artifact header image)) e').
  { intros e' Hu Hm. apply yields_ret. split; [exact Hu|]. intros _. eexists. split; [reflexivity|].
    split; cbn; try reflexivity; [exact Hs|exact Hcrc|]. unfold describes. cbv zeta.
    rewrite prefix_length, Hm by done. by split_and!. }
  unfold SECURE_CONTAINER_META_HEADER_SIZE in *.
  case_if; to_prop.
  { apply Hplain; [done|]. unfold SecureContainerMeta_HasMagic. by rewrite (proj2 (Z.leb_gt _ _)) by lia. }
  replace (if 140 <? len image then 140 else len image) with (Z.min 140 (len image))
    by (destruct (Z.ltb_spec 140 (len image)); lia).
  eapply yields_bind; [apply (yields_Read e header image 0 _ e Hpub); [done|lia|lia]|].
  intros [st prefix] e1 [Hu Hb]. cbn [fst snd] in Hb. apply yields_check; intros Hst; [by apply yields_ret|].
  destruct (Hb Hst) as [-> _]. unfold slice. rewrite drop_0. case_if.
  { apply Hplain; [done|]. by apply negb_true_iff in E0. }
  apply negb_false_iff in E0. destruct (SecureContainerMeta_Parse _ _ _ _) as [meta|] eqn:Em; [|by apply yields_ret].
  case_if; apply yields_ret; (split; [done|]); [done|]. intros _. eexists. split; [reflexivity|]. to_prop.
  split; cbn; try reflexivity; try assumption. unfold describes. cbv zeta. unfold SECURE_CONTAINER_META_HEADER_SIZE.
  rewrite prefix_length, E0 by done.
  exists meta. by split_and!.
Qed.

End runs.
