(* ===== verification/HttpsDownload.v ===== *)
(** * HttpsDownload: gateway-esp32/components/https_download

    The download of an artifact into the cache: what the policy accepts, and the
    loop that streams the body.  The functions of esp_http_client act on the
    environment of the client (class [EspHttp]); [int] has 32 bits.  The loop
    takes [fuel]; logging is left out. *)

From Stdlib Require Import String.
From S2P Require Import Prelude Bytes Buffer GatewayProtocol GatewayClient ArtifactCache.

(** ** https_download_policy.c *)

Inductive HttpsDownloadPolicyStatus_t :=
  | HTTPS_DOWNLOAD_POLICY_OK
  | HTTPS_DOWNLOAD_POLICY_BAD_URL
  | HTTPS_DOWNLOAD_POLICY_BAD_STATUS
  | HTTPS_DOWNLOAD_POLICY_CHUNKED_UNSUPPORTED
  | HTTPS_DOWNLOAD_POLICY_MISSING_LENGTH
  | HTTPS_DOWNLOAD_POLICY_TOO_LARGE.

#[export] Instance HttpsDownloadPolicyStatus_eq_dec : EqDecision HttpsDownloadPolicyStatus_t.
Proof. solve_decision. Defined.

(** [strncmp] with the length of the prefix. *)
Definition HttpsDownload_IsHttpsUrl (url : option string) : bool :=
  match url with
  | None => false
  | Some url => String.prefix "https://" url
  end.

Definition HttpsDownload_ValidateResponse (url : option string) (status_code content_length : Z)
    (chunked : bool) (max_image_size : Z) : HttpsDownloadPolicyStatus_t :=
  if negb (HttpsDownload_IsHttpsUrl url) then HTTPS_DOWNLOAD_POLICY_BAD_URL else
  if status_code <>? 200 then HTTPS_DOWNLOAD_POLICY_BAD_STATUS else
  if chunked then HTTPS_DOWNLOAD_POLICY_CHUNKED_UNSUPPORTED else
  if content_length <=? 0 then HTTPS_DOWNLOAD_POLICY_MISSING_LENGTH else
  if (max_image_size <? content_length) || (0xFFFFFFFF <? content_length)
  then HTTPS_DOWNLOAD_POLICY_TOO_LARGE
  else HTTPS_DOWNLOAD_POLICY_OK.

(** ** The HTTP client *)

Record esp_http_client_config_t := mkHttpConfig {
  hc_url : option string;
  hc_timeout_ms : Z;
  hc_keep_alive_enable : bool;
  hc_cert_pem : option string;
  hc_crt_bundle_attach : bool
}.

(** [esp_http_client_set_method] is called for GET; [esp_http_client_read]
    returns its result and the bytes it wrote to the buffer. *)
Class EspHttp (IDF : EspIdf) := {
  http_client : Type;
  ESP_ERR_HTTP_EAGAIN : Z;
  esp_http_client_init : esp_http_client_config_t -> Env -> option http_client * Env;
  esp_http_client_set_method : http_client -> Env -> esp_err_t * Env;
  esp_http_client_open : http_client -> Z -> Env -> esp_err_t * Env;
  esp_http_client_fetch_headers : http_client -> Env -> Z * Env;
  esp_http_client_get_status_code : http_client -> Env -> Z * Env;
  esp_http_client_is_chunked_response : http_client -> Env -> bool * Env;
  esp_http_client_read : http_client -> Z -> Env -> Z * list Z * Env;
  esp_http_client_is_complete_data_received : http_client -> Env -> bool * Env;
  esp_http_client_close : http_client -> Env -> esp_err_t * Env;
  esp_http_client_cleanup : http_client -> Env -> esp_err_t * Env
}.

(** The conversion to [int]. *)
Definition s32 (x : Z) : Z := if u32 x <? 2 ^ 31 then u32 x else u32 x - 2 ^ 32.

Definition HTTPS_DOWNLOAD_BUFFER_SIZE : Z := 1024.

Definition PolicyToError (policy : HttpsDownloadPolicyStatus_t) : esp_err_t :=
  match policy with
  | HTTPS_DOWNLOAD_POLICY_OK => ESP_OK
  | HTTPS_DOWNLOAD_POLICY_TOO_LARGE => ESP_ERR_INVALID_SIZE
  | HTTPS_DOWNLOAD_POLICY_BAD_URL => ESP_ERR_INVALID_ARG
  | _ => ESP_ERR_INVALID_RESPONSE
  end.

Record HttpsDownloadResult_t := mkHttpsDownloadResult {
  hr_status_code : Z;
  hr_content_length : Z;
  hr_downloaded_size : Z;
  hr_image_crc32 : Z
}.

Section download.
Context {IDF : EspIdf} {PART : EspPartition IDF} {HTTP : EspHttp IDF}.
Implicit Types e : Env.

#[local] Notation "'let!' x := m 'in' k" := (gbind m (fun x => k))
  (at level 10, x pattern, m at level 100, k at level 200).

Record HttpsDownloadConfig_t := mkHttpsDownloadConfig {
  hd_url : option string;
  hd_cert_pem : option string;
  hd_use_crt_bundle : bool;
  hd_update_id : Z;
  hd_target_version : Z;
  hd_max_image_size : Z;
  hd_timeout_ms : Z;
  hd_progress : option (Z -> Z -> Env -> Env)
}.

Definition HttpsDownload_DeadlineUs (timeout_ms : Z) : G Z :=
  let! now := lift esp_timer_get_time in gret (now + timeout_ms * 1000).

(** The arguments are rejected before anything is done. *)
Definition BadDownloadConfig (config : HttpsDownloadConfig_t) (cache : option ArtifactCache_t) : bool :=
  bool_decide (cache = None) || bool_decide (hd_url config = None) ||
  (hd_update_id config =? 0) || (hd_target_version config =? 0) || (hd_max_image_size config =? 0) ||
  (hd_timeout_ms config =? 0) || negb (HttpsDownload_IsHttpsUrl (hd_url config)) ||
  (bool_decide (hd_cert_pem config = None) && negb (hd_use_crt_bundle config)).

Definition HttpConfig (config : HttpsDownloadConfig_t) : esp_http_client_config_t :=
  mkHttpConfig (hd_url config) (s32 (hd_timeout_ms config)) true (hd_cert_pem config)
    (bool_decide (hd_cert_pem config = None)).

(** The loop: [ESP_OK] is leaving it by its condition; [buffer] is the local
    array, [total] and [writer] are the locals afterwards. *)
Fixpoint DownloadLoop (fuel : nat) (config : HttpsDownloadConfig_t) (client : http_client)
    (content_length : Z) (buffer : list Z) (writer : option ArtifactCacheWriter_t)
    (inactivity_deadline total : Z) : G (esp_err_t * option ArtifactCacheWriter_t * Z) :=
  if total <? content_length then
    match fuel with
    | O => fun _ => None
    | S fuel =>
        let remaining := u32 (content_length - total) in
        let requested :=
          if HTTPS_DOWNLOAD_BUFFER_SIZE <? remaining then HTTPS_DOWNLOAD_BUFFER_SIZE else s32 remaining in
        let! (read, bytes) := lift (esp_http_client_read client requested) in
        let buffer := store 0 bytes buffer in
        if read =? - ESP_ERR_HTTP_EAGAIN then
          let! now := lift esp_timer_get_time in
          if inactivity_deadline <=? now then gret (ESP_ERR_TIMEOUT, writer, total)
          else DownloadLoop fuel config client content_length buffer writer inactivity_deadline total
        else if read <? 0 then gret (ESP_FAIL, writer, total)
        else if read =? 0 then gret (ESP_ERR_INVALID_RESPONSE, writer, total)
        else
          let! inactivity_deadline := HttpsDownload_DeadlineUs (hd_timeout_ms config) in
          let! (status, writer) := ArtifactCache_Write writer (Some buffer) (u32 read) in
          if bool_decide (status <> ESP_OK) then gret (status, writer, total) else
          let total := u32 (total + u32 read) in
          let! _ := match hd_progress config with
            | Some progress => lift (fun e => (tt, progress total content_length e))
            | None => gret tt
            end in
          DownloadLoop fuel config client content_length buffer writer inactivity_deadline total
    end
  else gret (ESP_OK, writer, total).

(** After [writer_started = true]: the body, the end of it, the commit; the last
    component is [*result]. *)
Definition StreamBody (fuel : nat) (config : HttpsDownloadConfig_t) (client : http_client)
    (buffer : list Z) (writer : option ArtifactCacheWriter_t) (cache : option ArtifactCache_t)
    (result : option HttpsDownloadResult_t) (status_code content_length : Z)
    : G (esp_err_t * option ArtifactCacheWriter_t * option ArtifactCache_t * option HttpsDownloadResult_t) :=
  let! inactivity_deadline := HttpsDownload_DeadlineUs (hd_timeout_ms config) in
  let! (status, writer, total) :=
    DownloadLoop fuel config client content_length buffer writer inactivity_deadline 0 in
  if bool_decide (status <> ESP_OK) then gret (status, writer, cache, result) else
  let! complete := lift (esp_http_client_is_complete_data_received client) in
  if negb complete then gret (ESP_ERR_INVALID_RESPONSE, writer, cache, result) else
  let! (status, writer, cache) := ArtifactCache_Commit writer cache in
  if bool_decide (status <> ESP_OK) then gret (status, writer, cache, result) else
  let result := match result, cache with
    | Some _, Some cache =>
        Some (mkHttpsDownloadResult status_code content_length total (ch_image_crc32 (ac_header cache)))
    | _, _ => result
    end in
  gret (ESP_OK, writer, cache, result).

(** What leads to [cleanup] behind the making of the client: the status,
    [writer_started], and the locals. *)
Definition DownloadBody (fuel : nat) (config : HttpsDownloadConfig_t) (client : http_client)
    (buffer : list Z) (writer : option ArtifactCacheWriter_t) (cache : option ArtifactCache_t)
    (result : option HttpsDownloadResult_t)
    : G (esp_err_t * bool * option ArtifactCacheWriter_t * option ArtifactCache_t *
         option HttpsDownloadResult_t) :=
  let! status := lift (esp_http_client_set_method client) in
  if bool_decide (status <> ESP_OK) then gret (status, false, writer, cache, result) else
  let! status := lift (esp_http_client_open client 0) in
  if bool_decide (status <> ESP_OK) then gret (status, false, writer, cache, result) else
  let! content_length := lift (esp_http_client_fetch_headers client) in
  if content_length <? 0 then gret (ESP_ERR_INVALID_RESPONSE, false, writer, cache, result) else
  let! status_code := lift (esp_http_client_get_status_code client) in
  let! chunked := lift (esp_http_client_is_chunked_response client) in
  let policy := HttpsDownload_ValidateResponse (hd_url config) status_code content_length chunked
    (hd_max_image_size config) in
  let status := PolicyToError policy in
  if bool_decide (status <> ESP_OK) then gret (status, false, writer, cache, result) else
  let! (status, writer) := ArtifactCache_BeginWrite writer (u32 content_length)
    (hd_update_id config) (hd_target_version config) in
  if bool_decide (status <> ESP_OK) then gret (status, false, writer, cache, result) else
  let! (status, writer, cache, result) :=
    StreamBody fuel config client buffer writer cache result status_code (u32 content_length) in
  gret (status, bool_decide (status <> ESP_OK), writer, cache, result).

Definition DownloadCleanup (client : http_client) (status : esp_err_t) (writer_started : bool)
    (writer : option ArtifactCacheWriter_t) : G esp_err_t :=
  let! status :=
    if writer_started then
      let! (abort_status, _) := ArtifactCache_Abort writer in
      if bool_decide (status = ESP_OK) && bool_decide (abort_status <> ESP_OK)
      then gret abort_status else gret status
    else gret status in
  let! _ := lift (esp_http_client_close client) in
  let! _ := lift (esp_http_client_cleanup client) in
  gret status.

(** [*cache] and [*result] afterwards; [buffer] is the uninitialised local. *)
Definition HttpsDownload_ToCache (fuel : nat) (buffer : list Z) (config : option HttpsDownloadConfig_t)
    (cache : option ArtifactCache_t) (result : option HttpsDownloadResult_t)
    : G (esp_err_t * option ArtifactCache_t * option HttpsDownloadResult_t) :=
  match config with
  | None => gret (ESP_ERR_INVALID_ARG, cache, result)
  | Some config =>
      if BadDownloadConfig config cache then gret (ESP_ERR_INVALID_ARG, cache, result) else
      let! client := lift (esp_http_client_init (HttpConfig config)) in
      match client with
      | None => gret (ESP_ERR_NO_MEM, cache, result)
      | Some client =>
          let writer := Some (mkArtifactCacheWriter None 0 0 0 0 0 false) in
          let! (status, writer_started, writer, cache, result) :=
            DownloadBody fuel config client buffer writer cache result in
          let! status := DownloadCleanup client status writer_started writer in
          gret (status, cache, result)
      end
  end.
End download.
