(* ===== verification/HttpsTheorems.v ===== *)
(** * HttpsTheorems: what a download that succeeds has published

    For an HTTP client that behaves as documented (class [HttpLaws]): the
    download returns, ESP_OK means that the bytes received are the published
    artifact, and with a failure nothing new is published unless an erase of the
    partition failed. *)

From Stdlib Require Import String.
From S2P Require Import Prelude Bytes Crc32 Buffer GatewayProtocol GatewayClient.
From S2P Require Import GatewayRuns.
From S2P Require Import ArtifactCache ArtifactTheorems HttpsDownload.

(** ** The documented behaviour of the HTTP client

    [received] is what esp_http_client_read has handed out so far, [erase_errors]
    the number of erases that reported an error.  The client does not touch the
    partition, the partition functions and the timer do not touch the client; a
    read takes time, and returns at most what is asked for. *)
Class HttpLaws {IDF : EspIdf} {PART : EspPartition IDF} (LAWS : PartitionLaws PART) (CK : EspClock IDF)
    (HTTP : EspHttp IDF) := {
  received : Env -> list Z;
  hl_erase_count : EraseCount PART;
  hl_eagain : 0 < ESP_ERR_HTTP_EAGAIN;
  apart := fun e e' : Env => received e' = received e /\ clock e <= clock e';
  hl_partition_read p off n e : apart e (snd (esp_partition_read p off n e));
  hl_partition_write p off bs e : apart e (snd (esp_partition_write p off bs e));
  hl_partition_erase p off n e : apart e (snd (esp_partition_erase_range p off n e));
  quiet := fun e e' : Env => unchanged e e' /\ apart e e' /\ erase_errors e' = erase_errors e;
  hl_time e : quiet e (snd (esp_timer_get_time e));
  hl_init c e : quiet e (snd (esp_http_client_init c e));
  hl_set_method c e : quiet e (snd (esp_http_client_set_method c e));
  hl_open c n e : quiet e (snd (esp_http_client_open c n e));
  hl_headers c e : quiet e (snd (esp_http_client_fetch_headers c e));
  hl_status c e : quiet e (snd (esp_http_client_get_status_code c e));
  hl_chunked c e : quiet e (snd (esp_http_client_is_chunked_response c e));
  hl_complete c e : quiet e (snd (esp_http_client_is_complete_data_received c e));
  hl_close c e : quiet e (snd (esp_http_client_close c e));
  hl_cleanup c e : quiet e (snd (esp_http_client_cleanup c e));
  hl_read c n e r bs e' :
    esp_http_client_read c n e = (r, bs, e') ->
    unchanged e e' /\ clock e < clock e' /\ erase_errors e' = erase_errors e /\ bytes_ok bs /\
    (0 < r -> r <= n /\ len bs = r /\ received e' = received e ++ bs) /\
    (r <= 0 -> received e' = received e)
}.

#[export] Existing Instance hl_erase_count.

Create HintDb http.
#[export] Hint Resolve hl_time hl_init hl_set_method hl_open hl_headers hl_status hl_chunked hl_complete
  hl_close hl_cleanup : http.

Section downloads.
Context {IDF : EspIdf} {PART : EspPartition IDF} {LAWS : PartitionLaws PART} {CK : EspClock IDF}.
Context {HTTP : EspHttp IDF} {HL : HttpLaws LAWS CK HTTP}.
Implicit Types e : Env.

(** What the functions of the cache do to the client, the timer and the count. *)
Definition aside e e' : Prop := received e' = received e /\ clock e <= clock e' /\ counted e e'.

#[local] Instance aside_preorder : PreOrder aside.
Proof.
  unfold aside, counted. split; [by intros e; split_and!; [|lia|lia]|].
  intros e1 e2 e3 (H1 & H2 & H3) (H4 & H5 & H6). split_and!; [congruence|lia|lia].
Qed.

Lemma aside_read p off n e : aside e (snd (esp_partition_read p off n e)).
Proof. destruct (hl_partition_read p off n e). split_and!; [done..|apply counted_read]. Qed.

Lemma aside_write p off bs e : aside e (snd (esp_partition_write p off bs e)).
Proof. destruct (hl_partition_write p off bs e). split_and!; [done..|apply counted_write]. Qed.

Lemma aside_erase p off n e : aside e (snd (esp_partition_erase_range p off n e)).
Proof. destruct (hl_partition_erase p off n e). split_and!; [done..|apply counted_erase]. Qed.

#[local] Hint Resolve aside_read aside_write aside_erase : http.

Lemma quiet_aside e e' : quiet e e' -> aside e e'.
Proof. intros (_ & [H1 H2] & H3). unfold aside, counted. split_and!; [done|done|lia]. Qed.

#[local] Instance quiet_preorder : PreOrder quiet.
Proof.
  split; [intros e; split_and!; [done|split; [done|lia]|done]|].
  intros e1 e2 e3 (H1 & [H2 H3] & H4) (H5 & [H6 H7] & H8).
  split_and!; [by eapply unchanged_trans|split; [congruence|lia]|congruence].
Qed.

Lemma withdrawn_unchanged e e' : unchanged e e' -> withdrawn e -> withdrawn e'.
Proof. intros Hu H a Ha. rewrite (Hu a). by apply H. Qed.

Lemma writing_unchanged p e e' w data : unchanged e e' -> writing p e w data -> writing p e' w data.
Proof.
  intros Hu Hw. split; try apply Hw.
  - rewrite (region_unchanged e e' _ _ Hu). apply Hw.
  - intros a Ha. rewrite (Hu a). by apply (wr_rest _ _ _ _ Hw).
  - eapply withdrawn_unchanged; [exact Hu|apply Hw].
Qed.

(** A call of the client. *)
Lemma yields_quiet {A} (f : Env -> A * Env) e :
  quiet e (snd (f e)) -> yields (lift f) (fun _ e' => quiet e e') e.
Proof. intros H. apply yields_lift. exact H. Qed.

Lemma yields_Deadline timeout_ms e :
  yields (HttpsDownload_DeadlineUs timeout_ms)
    (fun deadline e' => quiet e e' /\ deadline <= clock e' + timeout_ms * 1000) e.
Proof.
  eapply yields_bind; [apply yields_lift with (Q := fun now e1 => quiet e e1 /\ now <= clock e1)|].
  - split; [apply hl_time|]. pose proof (ck_get_time e). lia.
  - intros now e1 [Hq Hn]. apply yields_ret. split; [exact Hq|lia].
Qed.

(** ** The loop *)

Context (config : HttpsDownloadConfig_t).
Context (Hprogress : forall progress, hd_progress config = Some progress ->
  forall done total e, quiet e (progress done total e)).
Context (Htimeout : is_u32 (hd_timeout_ms config)).

Abbreviation timeout := (hd_timeout_ms config * 1000).

(** What the loop has done so far, with [before] received before it. *)
Record streaming p (w : ArtifactCacheWriter_t) (before data buffer : list Z) e : Prop := {
  sg_writing : writing p e w data;
  sg_received : received e = before ++ data;
  sg_buffer : len buffer = HTTPS_DOWNLOAD_BUFFER_SIZE /\ bytes_ok buffer
}.

(** The loop when it is left, after [n] failed erases or more. *)
Definition streamed p n w before (r : esp_err_t * option ArtifactCacheWriter_t * Z) e : Prop :=
  n <= erase_errors e /\ exists w', snd (fst r) = Some w' /\
    (fst (fst r) = ESP_OK -> exists data, same_artifact w w' /\ writing p e w' data /\
       len data = aw_expected_size w /\ snd r = len data /\ received e = before ++ data) /\
    (fst (fst r) <> ESP_OK -> abortable p n e w').

Lemma same_artifact_trans w1 w2 w3 : same_artifact w1 w2 -> same_artifact w2 w3 -> same_artifact w1 w3.
Proof. intros (H1 & H2 & H3) (H4 & H5 & H6). split_and!; congruence. Qed.

Lemma yields_lifts {A} (f : Env -> A * Env) (Q : A -> Env -> Prop) e :
  (forall a e', f e = (a, e') -> Q a e') -> yields (lift f) Q e.
Proof. intros H. apply yields_lift, H. by destruct (f e). Qed.

(** The size of the next chunk. *)
Lemma requested_bounds remaining :
  0 < remaining < 2 ^ 32 ->
  let requested :=
    if HTTPS_DOWNLOAD_BUFFER_SIZE <? remaining then HTTPS_DOWNLOAD_BUFFER_SIZE else s32 remaining in
  0 < requested <= HTTPS_DOWNLOAD_BUFFER_SIZE /\ requested <= remaining.
Proof using.
  intros Hr. unfold HTTPS_DOWNLOAD_BUFFER_SIZE. cbv zeta. destruct (Z.ltb_spec 1024 remaining); [lia|].
  unfold s32. rewrite u32_small by (unfold is_u32; lia). rewrite (proj2 (Z.ltb_lt _ _)) by lia. lia.
Qed.

Lemma yields_http_read client n e :
  yields (lift (esp_http_client_read client n))
    (fun x e1 => unchanged e e1 /\ clock e < clock e1 /\ erase_errors e1 = erase_errors e /\ bytes_ok (snd x) /\
       (0 < fst x -> fst x <= n /\ len (snd x) = fst x /\ received e1 = received e ++ snd x) /\
       (fst x <= 0 -> received e1 = received e)) e.
Proof using HL. apply yields_lifts. intros [r bs] e1 E. by apply (hl_read client n e). Qed.

Lemma yields_time e :
  yields (lift esp_timer_get_time) (fun now e1 => quiet e e1 /\ clock e <= now <= clock e1) e.
Proof using HL. apply yields_lift. split; [apply hl_time|apply ck_get_time]. Qed.

(** Leaving the loop by an error. *)
Lemma streamed_stop p n w before data st total e0 e :
  n <= erase_errors e -> writing p e0 w data -> st <> ESP_OK ->
  yields (gret (st, Some w, total)) (streamed p n w before) e.
Proof using.
  intros Hn Hw Hst. apply yields_ret. split; [exact Hn|]. exists w. split; [done|]. split; [intros H; destruct (Hst H)|].
  intros _. split; [apply Hw|left; apply Hw].
Qed.

Lemma streamed_same p n w w' before r e :
  same_artifact w w' -> streamed p n w' before r e -> streamed p n w before r e.
Proof using.
  intros Hs (Hn & w2 & Hw2 & Hok & Hno). split; [exact Hn|]. exists w2. split; [exact Hw2|]. split; [|exact Hno]. intros Hst.
  destruct (Hok Hst) as (data & H1 & H2 & H3 & H4 & H5). exists data. split_and!; try assumption.
  - by eapply same_artifact_trans.
  - rewrite H3. apply Hs.
Qed.

(** The bytes read are at the start of the buffer; storing them. *)
Lemma yields_store p w data buffer bs e :
  writing p e w data -> bytes_ok (store 0 bs buffer) -> len bs <= len buffer ->
  yields (ArtifactCache_Write (Some w) (Some (store 0 bs buffer)) (len bs))
    (fun x e' => aside e e' /\ exists w', snd x = Some w' /\ same_artifact w w' /\
       (fst x = ESP_OK -> writing p e' w' (data ++ bs)) /\ (fst x <> ESP_OK -> w' = w)) e.
Proof using HL.
  intros Hw Hb Hl. eapply yields_mono.
  - apply (yields_stays aside); [apply stays_Write; eauto using aside_preorder with http|].
    apply (yields_Write p w data); [exact Hw|exact Hb|rewrite store_length; lia].
  - intros x e' [Ha (w' & H1 & H2 & H3 & H4)]. split; [exact Ha|]. exists w'.
    rewrite <- (Z.add_0_l (len bs)), store_prefix in H3 by lia. split_and!; [done..|]. intros Hst. by apply H4.
Qed.

Lemma yields_progress done total e :
  yields (match hd_progress config with
          | Some progress => lift (fun e => (tt, progress done total e))
          | None => gret tt
          end) (fun _ e' => quiet e e') e.
Proof using Hprogress.
  destruct (hd_progress config) as [progress|] eqn:Ep; [|by apply yields_ret].
  apply yields_lift. by apply Hprogress.
Qed.

Lemma yields_DownloadLoop p n client before : forall fuel w data buffer deadline e,
  n <= erase_errors e -> streaming p w before data buffer e -> deadline <= clock e + timeout ->
  (aw_expected_size w - len data) * (timeout + 1) + Z.max 0 (deadline - clock e) < Z.of_nat fuel ->
  yields (DownloadLoop fuel config client (aw_expected_size w) buffer (Some w) deadline (len data))
    (streamed p n w before) e.
Proof using Htimeout Hprogress HL.
  induction fuel as [|fuel IH]; intros w data buffer deadline e Hn [Hw Hr [Hb1 Hb2]] Hd Hf; cbn [DownloadLoop];
    pose proof (wr_room _ _ _ _ Hw) as Hroom;
    (destruct (Z.ltb_spec (len data) (aw_expected_size w)) as [Hlt|Hge];
     [|apply yields_ret; split; [done|]; exists w; split; [done|]; split; [|done]; intros _; exists data; split_and!; [done..|lia|done|done]]).
  { unfold is_u32 in Htimeout. nia. }
  pose proof (writing_partition _ _ _ _ Hw) as [Hfit _]. unfold ARTIFACT_CACHE_DATA_OFFSET in Hfit.
  cbv zeta. rewrite (u32_small (_ - _)) by (unfold is_u32; lia).
  pose proof (requested_bounds (aw_expected_size w - len data) ltac:(lia)) as Hreq. cbv zeta in Hreq.
  set (requested := if _ <? _ then _ else _) in *. clearbody requested.
  eapply yields_bind; [apply yields_http_read|].
  intros [r bs] e1 (Hu & Ht & Hc & Hbs & Hpos & Hneg). cbn [fst snd] in Hbs, Hpos, Hneg.
  assert (Hbuf : len (store 0 bs buffer) = HTTPS_DOWNLOAD_BUFFER_SIZE /\ bytes_ok (store 0 bs buffer)).
  { split; [by rewrite store_length|by apply store_ok]. }
  pose proof hl_eagain as Heagain. destruct (Z.eqb_spec r (- ESP_ERR_HTTP_EAGAIN)) as [Heq|Hneq].
  { eapply yields_bind; [apply yields_time|]. intros now e2 [(Hu2 & [Hr2 Ht2] & Hc2) Hnow].
    case_if; to_prop; [eapply streamed_stop; [lia|done|done]|]. apply IH; [lia| |lia|lia].
    split; [by do 2 (eapply writing_unchanged; [done|])|by rewrite Hr2, Hneg by lia|done]. }
  do 2 (case_if; to_prop; [eapply streamed_stop; [lia|done|done]|]).
  destruct (Hpos ltac:(lia)) as (Hle & <- & Hrec). unfold HTTPS_DOWNLOAD_BUFFER_SIZE in *.
  rewrite (u32_small (len bs)) by (unfold is_u32; lia).
  eapply yields_bind; [apply yields_Deadline|]. intros deadline2 e2 [(Hu2 & [Hr2 Ht2] & Hc2) Hd2].
  eapply yields_bind; [apply (yields_store p w data); [by do 2 (eapply writing_unchanged; [done|])|apply Hbuf|lia]|].
  intros [st w3] e3 [(Hr3 & Ht3 & Hc3) (w' & Hw' & Hsame & Hok & Hfail)]. cbn [fst snd] in Hw', Hok, Hfail. subst w3.
  unfold counted in Hc3.
  apply yields_check; intros Hst; [rewrite (Hfail Hst); eapply streamed_stop; [lia|done|done]|].
  specialize (Hok Hst). pose proof (wr_room _ _ _ _ Hok) as Hroom'. pose proof Hsame as (_ & _ & Hs3).
  rewrite length_app, Hs3 in Hroom'. rewrite (u32_small (_ + _)) by (unfold is_u32; lia).
  replace (len data + len bs) with (len (data ++ bs)) by (rewrite length_app; lia).
  eapply yields_bind; [apply yields_progress|]. intros [] e4 (Hu4 & [Hr4 Ht4] & Hc4). rewrite <- Hs3.
  eapply yields_mono; [|intros r' e5; by apply streamed_same]. apply IH; [lia|split|lia|].
  - by eapply writing_unchanged.
  - rewrite Hr4, Hr3, Hr2, Hrec, Hr. by rewrite app_assoc.
  - exact Hbuf.
  - rewrite Hs3, length_app. unfold is_u32 in Htimeout. nia.
Qed.

(** ** The download *)

Context (Hids : is_u32 (hd_update_id config) /\ is_u32 (hd_target_version config)).
Context (Hmax : is_u32 (hd_max_image_size config)).

(** The image is published for the command, and the result describes it. *)
Record downloaded (image : list Z) (result : option HttpsDownloadResult_t)
    (cache' : option ArtifactCache_t) (result' : option HttpsDownloadResult_t) e' : Prop := {
  dl_header : exists header, published e' = Some (header, image) /\
    cache' = Some (mkArtifactCache FindPartition header) /\
    ch_update_id header = hd_update_id config /\ ch_target_version header = hd_target_version config;
  dl_size : 0 < len image <= hd_max_image_size config;
  dl_result : result' = match result with
    | Some _ => Some (mkHttpsDownloadResult 200 (len image) (len image) (crc_of image))
    | None => None
    end
}.

(** Enough for the whole body at the slowest rate the timeout allows. *)
Definition body_fuel (fuel : nat) : Prop :=
  hd_max_image_size config * (timeout + 1) + timeout < Z.of_nat fuel.

Lemma yields_StreamBody p n fuel client buffer w c result e :
  n <= erase_errors e -> streaming p w (received e) [] buffer e -> body_fuel fuel ->
  aw_update_id w = hd_update_id config -> aw_target_version w = hd_target_version config ->
  aw_expected_size w <= hd_max_image_size config ->
  yields (StreamBody fuel config client buffer (Some w) (Some c) result 200 (aw_expected_size w))
    (fun r e' => n <= erase_errors e' /\ exists w', snd (fst (fst r)) = Some w' /\
       (fst (fst (fst r)) = ESP_OK -> exists image, received e' = received e ++ image /\
          downloaded image result (snd (fst r)) (snd r) e') /\
       (fst (fst (fst r)) <> ESP_OK -> snd (fst r) = Some c /\ snd r = result /\ abortable p n e' w')) e.
Proof using Htimeout Hprogress HL Hmax.
  intros Hc Hs Hfuel Hid Hv Hn. unfold body_fuel, is_u32 in *. unfold StreamBody.
  pose proof (writing_partition _ _ _ _ (sg_writing _ _ _ _ _ _ Hs)) as [Hfit Hpos].
  eapply yields_bind; [apply yields_Deadline|]. intros deadline e1 [(Hu1 & [Hr1 Ht1] & Hc1) Hd1].
  eapply yields_bind.
  { apply (yields_DownloadLoop p n client (received e) fuel w [] buffer deadline e1); [lia| |exact Hd1|].
    - destruct Hs as [Hw Hr Hb]. split; [by eapply writing_unchanged|by rewrite Hr1|exact Hb].
    - cbn [length]. change (Z.of_nat 0) with 0. nia. }
  intros [[st w2] total] e2 (Hc2 & w' & Hw' & Hok & Hno). cbn [fst snd] in Hw', Hok, Hno. subst w2.
  apply yields_check; intros Hst.
  { apply yields_ret. split; [exact Hc2|]. exists w'. split; [reflexivity|]. split; [intros H; destruct (Hst H)|].
    intros _. by split_and!; [..|apply Hno]. }
  destruct (Hok Hst) as (data & (Hs1 & Hs2 & Hs3) & Hw & Hl & -> & Hr2).
  eapply yields_bind; [apply yields_quiet; apply hl_complete|]. intros complete e3 (Hu3 & [Hr3 _] & Hc3).
  pose proof (writing_unchanged _ _ _ _ _ Hu3 Hw) as Hw3. case_if.
  { apply yields_ret. split; [lia|]. exists w'. split; [reflexivity|]. split; [intros H; discriminate H|].
    intros _. split; [reflexivity|]. split; [reflexivity|]. split; [apply Hw|left; apply Hw]. }
  eapply yields_bind.
  { apply (yields_stays aside); [apply stays_Commit; eauto using aside_preorder with http|].
    apply (yields_Commit p w' data c n); [done|lia]. }
  intros [[st4 w4] c4] e4 [(Hr4 & _ & Hc4) (w5 & Hw5 & Hok4 & Hno4)]. cbn [fst snd] in Hw5, Hok4, Hno4. subst w4.
  unfold counted in Hc4.
  apply yields_check; intros Hst4; apply yields_ret; (split; [lia|]); exists w5; (split; [reflexivity|]).
  - split; [intros H; destruct (Hst4 H)|]. intros _. destruct (Hno4 Hst4) as [-> Hab]. by split_and!.
  - split; [|intros H; destruct (H eq_refl)]. intros _. destruct (Hok4 Hst4) as (_ & Hpub & ->).
    cbn [fst snd]. exists data. split; [by rewrite Hr4, Hr3, Hr2|]. split.
    + eexists. split; [exact Hpub|]. split; [by rewrite (wr_find _ _ _ _ Hw)|].
      change (aw_update_id w' = hd_update_id config /\ aw_target_version w' = hd_target_version config).
      by rewrite Hs1, Hs2.
    + lia.
    + destruct result; [|reflexivity]. by rewrite Hl.
Qed.

(** Only a plain 200 with a length the caller allows passes the policy. *)
Lemma HttpsDownload_ValidateResponse_accepts url status_code content_length chunked max_image_size :
  PolicyToError (HttpsDownload_ValidateResponse url status_code content_length chunked max_image_size) = ESP_OK ->
  HttpsDownload_IsHttpsUrl url = true /\ status_code = 200 /\ chunked = false /\
  0 < content_length <= max_image_size /\ is_u32 content_length.
Proof using.
  unfold HttpsDownload_ValidateResponse. case_if; [discriminate|]. case_if; [discriminate|].
  destruct chunked; [discriminate|]. case_if; [discriminate|]. case_if; [discriminate|].
  intros _. to_prop. unfold is_u32. split_and!; [done|done|done|lia|lia|lia|lia].
Qed.

Lemma yields_DownloadBody fuel client buffer w0 c result e :
  len buffer = HTTPS_DOWNLOAD_BUFFER_SIZE -> bytes_ok buffer -> body_fuel fuel ->
  yields (DownloadBody fuel config client buffer (Some w0) (Some c) result)
    (fun r e' =>
       let '(status, writer_started, writer, cache', result') := r in
       (status = ESP_OK -> writer_started = false /\ exists image, received e' = received e ++ image /\
          downloaded image result cache' result' e') /\
       (status <> ESP_OK -> cache' = Some c /\ result' = result /\
          erase_errors e <= erase_errors e' /\
          if writer_started then exists p w', writer = Some w' /\ abortable p (erase_errors e) e' w'
          else erase_errors e' = erase_errors e -> unchanged e e')) e.
Proof using Htimeout Hprogress HL Hmax Hids.
  intros Hb1 Hb2 Hfuel. unfold DownloadBody.
  set (Q := fun r e' => let '(status, writer_started, writer, cache', result') := r in _).
  assert (Hstop : forall st w e', st <> ESP_OK -> erase_errors e <= erase_errors e' ->
    (erase_errors e' = erase_errors e -> unchanged e e') ->
    yields (gret (st, false, w, Some c, result)) Q e').
  { intros st w e' Hst Hc Hu. apply yields_ret. split; [intros H; destruct (Hst H)|]. intros _. by split_and!. }
  assert (Hquiet : forall st w e', st <> ESP_OK -> quiet e e' -> yields (gret (st, false, w, Some c, result)) Q e').
  { intros st w e' Hst (Hu & _ & Hc). apply Hstop; [done|lia|by intros _]. }
  eapply yields_bind; [apply yields_quiet, hl_set_method|]. intros st e1 Hq1.
  apply yields_check; intros Hst1; [by apply Hquiet|].
  eapply yields_bind; [apply yields_quiet, hl_open|]. intros st2 e2 Hq2.
  assert (Hq : quiet e e2) by (by transitivity e1). clear Hq1 Hq2 e1.
  apply yields_check; intros Hst2; [by apply Hquiet|].
  eapply yields_bind; [apply yields_quiet, hl_headers|]. intros content_length e3 Hq3.
  assert (Hq' : quiet e e3) by (by transitivity e2). clear Hq Hq3 Hst1 Hst2 e2.
  case_if; [by apply Hquiet|].
  eapply yields_bind; [apply yields_quiet, hl_status|]. intros status_code e4 Hq4.
  eapply yields_bind; [apply yields_quiet, hl_chunked|]. intros chunked e5 Hq5.
  assert (Hq : quiet e e5) by (transitivity e3; [done|by transitivity e4]). clear Hq' Hq4 Hq5.
  cbv zeta. apply yields_check; intros Hpolicy; [by apply Hquiet|].
  apply HttpsDownload_ValidateResponse_accepts in Hpolicy as (_ & -> & _ & Hlen & Hu).
  rewrite (u32_small content_length Hu).
  eapply yields_bind.
  { apply (yields_stays aside); [apply stays_BeginWrite; eauto using aside_preorder with http|].
    apply (yields_BeginWrite w0); [exact Hu|apply Hids|apply Hids]. }
  intros [st6 w6] e6 [(Hr6 & _ & Hc6) [Hok Hno]]. cbn [fst snd] in Hok, Hno. unfold counted in Hc6.
  destruct Hq as (Huq & [Hrq _] & Hcq). apply yields_check; intros Hst6.
  { apply Hstop; [done|lia|]. intros He. eapply unchanged_trans; [exact Huq|]. apply Hno; [done|lia]. }
  destruct (Hok Hst6) as (p & w & -> & Hw & Hid & Hv & <-).
  eapply yields_bind.
  { apply (yields_StreamBody p (erase_errors e) fuel client buffer w c result e6);
      [lia| |exact Hfuel|exact Hid|exact Hv|lia].
    split; [exact Hw|by rewrite app_nil_r|by split]. }
  intros [[[st7 w7] c7] r7] e7 (Hc7 & w8 & Hw8 & Hok7 & Hno7). cbn [fst snd] in Hw8, Hok7, Hno7. subst w7.
  apply yields_ret. split.
  - intros ->. split; [reflexivity|]. destruct (Hok7 eq_refl) as (image & Hr7 & Hd). exists image.
    split; [|exact Hd]. by rewrite Hr7, Hr6, Hrq.
  - intros Hst7. destruct (Hno7 Hst7) as (-> & -> & Hab). split; [reflexivity|]. split; [reflexivity|].
    split; [exact Hc7|]. rewrite bool_decide_true by exact Hst7. by exists p, w8.
Qed.

(** Cleanup keeps the status; it withdraws what was being written. *)
Lemma yields_Cleanup n client status started writer e :
  (started = true -> status <> ESP_OK /\ n <= erase_errors e /\ exists p w, writer = Some w /\ abortable p n e w) ->
  yields (DownloadCleanup client status started writer)
    (fun st e' => st = status /\
       if started then erase_errors e' = n -> withdrawn e' else quiet e e') e.
Proof using HL.
  intros Hs. unfold DownloadCleanup.
  eapply yields_bind with (R := fun st e1 => st = status /\
    if started then erase_errors e1 = n -> withdrawn e1 else quiet e e1).
  { destruct started; [|by apply yields_ret; split]. destruct (Hs eq_refl) as (Hst & Hn & p & w & -> & Hab).
    eapply yields_bind; [by apply (yields_Abort p w n)|]. intros [st w'] e1 [_ H1].
    rewrite bool_decide_false by exact Hst. by apply yields_ret. }
  intros st e1 [-> H1]. eapply yields_bind; [apply yields_quiet, hl_close|]. intros st2 e2 Hq2.
  eapply yields_bind; [apply yields_quiet, hl_cleanup|]. intros st3 e3 Hq3. apply yields_ret.
  assert (Hq : quiet e1 e3) by (by transitivity e2). split; [reflexivity|]. destruct started.
  - destruct Hq as (Hu & _ & Hc). intros He. eapply withdrawn_unchanged; [exact Hu|]. apply H1. lia.
  - by transitivity e1.
Qed.

Lemma downloaded_unchanged image result cache' result' e e' :
  unchanged e e' -> downloaded image result cache' result' e -> downloaded image result cache' result' e'.
Proof using.
  intros Hu [(header & Hp & H) Hs Hr]. split; [|exact Hs|exact Hr]. exists header. split; [|exact H].
  by rewrite (published_unchanged e e' Hu).
Qed.

(** What the download leaves, whatever its outcome. *)
Definition download_outcome c result e (r : esp_err_t * option ArtifactCache_t * option HttpsDownloadResult_t)
    e' : Prop :=
  let '(status, cache', result') := r in
  (status = ESP_OK ->
     HttpsDownload_IsHttpsUrl (hd_url config) = true /\
     (hd_cert_pem config <> None \/ hd_use_crt_bundle config = true) /\
     exists image, received e' = received e ++ image /\ downloaded image result cache' result' e') /\
  (status <> ESP_OK -> cache' = Some c /\ result' = result /\
     (erase_errors e' = erase_errors e -> published e' = published e \/ published e' = None)).

Lemma yields_ToCache fuel buffer c result e :
  len buffer = HTTPS_DOWNLOAD_BUFFER_SIZE -> bytes_ok buffer -> body_fuel fuel ->
  yields (HttpsDownload_ToCache fuel buffer (Some config) (Some c) result) (download_outcome c result e) e.
Proof using Htimeout Hprogress HL Hmax Hids.
  intros Hb1 Hb2 Hfuel.
  unfold HttpsDownload_ToCache. destruct (BadDownloadConfig config (Some c)) eqn:Ebad.
  { apply yields_ret. split; [intros [=]|]. intros _. split_and!; auto. }
  assert (Hcfg : HttpsDownload_IsHttpsUrl (hd_url config) = true /\
    (hd_cert_pem config <> None \/ hd_use_crt_bundle config = true)).
  { unfold BadDownloadConfig in Ebad. to_prop. split; [done|]. apply andb_false_iff in H0 as [H0|H0].
    - left. by apply bool_decide_eq_false in H0.
    - right. by to_prop. }
  clear Ebad. eapply yields_bind; [apply yields_quiet, hl_init|]. intros [client|] e1 Hq1.
  2: { apply yields_ret. split; [intros [=]|]. intros _. split_and!; auto. intros _. left.
       apply published_unchanged, Hq1. }
  eapply yields_bind; [by apply yields_DownloadBody|]. intros [[[[st started] w] c'] r'] e2 [Hok Hno].
  destruct Hq1 as (Hu1 & [Hr1 _] & Hc1).
  eapply yields_bind; [apply (yields_Cleanup (erase_errors e))|].
  { intros ->. assert (Hst : st <> ESP_OK) by (intros Hst; destruct (Hok Hst) as [[=] _]).
    split; [exact Hst|]. rewrite <- Hc1. by destruct (Hno Hst) as (_ & _ & H). }
  intros st3 e3 [-> H3]. apply yields_ret. split.
  - intros Hst. destruct (Hok Hst) as (-> & image & Hr2 & Hd). split; [apply Hcfg|]. split; [apply Hcfg|].
    exists image. destruct H3 as (Hu3 & [Hr3 _] & _). split; [by rewrite Hr3, Hr2, Hr1|by eapply downloaded_unchanged].
  - intros Hst. destruct (Hno Hst) as (-> & -> & Hc2 & H). split; [reflexivity|]. split; [reflexivity|]. intros He.
    destruct started.
    + right. by apply withdrawn_published, H3.
    + left. destruct H3 as (Hu3 & _ & Hc3). apply published_unchanged. eapply unchanged_trans; [exact Hu1|].
      eapply unchanged_trans; [apply H; lia|exact Hu3].
Qed.

(** C24: A download that succeeds publishes what was received.  For an HTTP
    client, a timer and a partition that behave as documented,
    HttpsDownload_ToCache returns.  With ESP_OK the URL was an https one, the
    server was authenticated, and the bytes received during the call are, in
    order, the artifact the cache now holds under the ids of the command, with
    their size and CRC in the result.  With an error the cache variable and the
    result are as before and, unless the partition reported an erase error
    during the call, it publishes what it did before or nothing. *)
Theorem HttpsDownload_ToCache_publishes fuel buffer c result e :
  len buffer = HTTPS_DOWNLOAD_BUFFER_SIZE -> bytes_ok buffer -> body_fuel fuel ->
  exists status cache' result' e',
    HttpsDownload_ToCache fuel buffer (Some config) (Some c) result e = Some (status, cache', result', e') /\
    (status = ESP_OK ->
       HttpsDownload_IsHttpsUrl (hd_url config) = true /\
       (hd_cert_pem config <> None \/ hd_use_crt_bundle config = true) /\
       exists image, received e' = received e ++ image /\ downloaded image result cache' result' e') /\
    (status <> ESP_OK -> cache' = Some c /\ result' = result /\
       (erase_errors e' = erase_errors e -> published e' = published e \/ published e' = None)).
Proof using Htimeout Hprogress HL Hmax Hids.
  intros Hb1 Hb2 Hfuel.
  destruct (yields_ToCache fuel buffer c result e Hb1 Hb2 Hfuel) as ([[st c'] r'] & e' & E & H).
  by exists st, c', r', e'.
Qed.
End downloads.
