(* ===== verification/MqttOrchestrator.v ===== *)
(** * MqttOrchestrator: gateway-esp32/components/mqtt_orchestrator, the way in

    The command contract, the topics, and the handler of MQTT events: it puts the
    fragments of a message together, parses the JSON and hands a command to the
    queue.  C strings are strings; the parser cJSON is a parameter (class
    [CJson]).  The event group is its bits; what the handler asks of the client
    and of the queue is its second result.  Logging is left out.

    The theorems: whatever events the broker's messages cause, a command in the
    queue was parsed from the bytes of one complete message on the command topic,
    put together in order inside the buffer, and satisfies the contract; and
    every message that arrives in order is put together. *)

From Stdlib Require Import String QArith.
From S2P Require Import Prelude Buffer.
#[local] Open Scope Z_scope.

(** ** mqtt_orchestration_contract.c *)

Inductive MqttOrchestrationContractStatus_t :=
  | MQTT_ORCH_CONTRACT_OK
  | MQTT_ORCH_CONTRACT_INVALID_ARGUMENT
  | MQTT_ORCH_CONTRACT_BAD_SCHEMA
  | MQTT_ORCH_CONTRACT_BAD_COMMAND
  | MQTT_ORCH_CONTRACT_BAD_UPDATE_ID
  | MQTT_ORCH_CONTRACT_BAD_TARGET_VERSION
  | MQTT_ORCH_CONTRACT_BAD_SIZE
  | MQTT_ORCH_CONTRACT_BAD_CRC
  | MQTT_ORCH_CONTRACT_BAD_URL
  | MQTT_ORCH_CONTRACT_TOPIC_TOO_LONG.

#[export] Instance MqttOrchestrationContractStatus_eq_dec : EqDecision MqttOrchestrationContractStatus_t.
Proof. solve_decision. Defined.

Definition MQTT_ORCH_SCHEMA_VERSION : Z := 1.
Definition MQTT_ORCH_MAX_URL_LENGTH : Z := 255.
Definition MQTT_ORCH_MAX_TOPIC_LENGTH : Z := 127.
Definition MQTT_ORCH_MAX_PAYLOAD_LENGTH : Z := 767.

Record MqttOtaCommand_t := mkMqttOtaCommand {
  mc_schema : Z;
  mc_update_id : Z;
  mc_target_version : Z;
  mc_image_size : Z;
  mc_image_crc32 : Z;
  mc_url : string
}.

Definition MqttOrchestration_IsHttpsUrl (url : option string) : bool :=
  match url with
  | None => false
  | Some url => String.prefix "https://" url
  end.

Definition MqttOrchestration_ValidateCommand (command : option MqttOtaCommand_t) (max_image_size : Z)
    : MqttOrchestrationContractStatus_t :=
  match command with
  | None => MQTT_ORCH_CONTRACT_INVALID_ARGUMENT
  | Some command =>
      if max_image_size =? 0 then MQTT_ORCH_CONTRACT_INVALID_ARGUMENT else
      if mc_schema command <>? MQTT_ORCH_SCHEMA_VERSION then MQTT_ORCH_CONTRACT_BAD_SCHEMA else
      if mc_update_id command =? 0 then MQTT_ORCH_CONTRACT_BAD_UPDATE_ID else
      if mc_target_version command =? 0 then MQTT_ORCH_CONTRACT_BAD_TARGET_VERSION else
      if (mc_image_size command <? 8) || (max_image_size <? mc_image_size command)
      then MQTT_ORCH_CONTRACT_BAD_SIZE else
      if String.eqb (mc_url command) "" || negb (MqttOrchestration_IsHttpsUrl (Some (mc_url command)))
      then MQTT_ORCH_CONTRACT_BAD_URL
      else MQTT_ORCH_CONTRACT_OK
  end.

(** [snprintf] of a text: its length, and what fits with the terminator. *)
Definition snprintf (size : Z) (text : string) : Z * string :=
  (Z.of_nat (String.length text), String.substring 0 (Z.to_nat (size - 1)) text).

(** The status, and [output] when it was written. *)
Definition BuildOneTopic (base device_id suffix : option string) (output : string) (output_size : Z)
    : MqttOrchestrationContractStatus_t * string :=
  match base, device_id, suffix with
  | Some base, Some device_id, Some suffix =>
      if (output_size =? 0) || String.eqb base "" || String.eqb device_id ""
      then (MQTT_ORCH_CONTRACT_INVALID_ARGUMENT, output) else
      let '(written, output) :=
        snprintf output_size (base ++ "/" ++ device_id ++ "/" ++ suffix)%string in
      if (written <? 0) || (output_size <=? written)
      then (MQTT_ORCH_CONTRACT_TOPIC_TOO_LONG, output)
      else (MQTT_ORCH_CONTRACT_OK, output)
  | _, _, _ => (MQTT_ORCH_CONTRACT_INVALID_ARGUMENT, output)
  end.

(** The status and the three topics afterwards. *)
Definition MqttOrchestration_BuildTopics (base device_id : option string)
    (command_topic : string) (command_topic_size : Z) (status_topic : string) (status_topic_size : Z)
    (progress_topic : string) (progress_topic_size : Z)
    : MqttOrchestrationContractStatus_t * (string * string * string) :=
  let '(status, command_topic) :=
    BuildOneTopic base device_id (Some "command"%string) command_topic command_topic_size in
  if bool_decide (status <> MQTT_ORCH_CONTRACT_OK)
  then (status, (command_topic, status_topic, progress_topic)) else
  let '(status, status_topic) :=
    BuildOneTopic base device_id (Some "status"%string) status_topic status_topic_size in
  if bool_decide (status <> MQTT_ORCH_CONTRACT_OK)
  then (status, (command_topic, status_topic, progress_topic)) else
  let '(status, progress_topic) :=
    BuildOneTopic base device_id (Some "progress"%string) progress_topic progress_topic_size in
  (status, (command_topic, status_topic, progress_topic)).

(** ** mqtt_orchestrator.c: commands *)

(** A [double] cJSON makes of a number: a rational, or an overflow. *)
Inductive double :=
  | Finite (value : Q)
  | Infinite (negative : bool).

Definition double_lt (a b : double) : bool :=
  match a, b with
  | Finite a, Finite b => negb (Qle_bool b a)
  | Infinite n, Finite _ => n
  | Finite _, Infinite n => negb n
  | Infinite n, Infinite n' => n && negb n'
  end.

Definition double_eq (a b : double) : bool :=
  match a, b with
  | Finite a, Finite b => Qeq_bool a b
  | Infinite n, Infinite n' => Bool.eqb n n'
  | _, _ => false
  end.

(** The conversions; [double_to_uint32] is called for values in range. *)
Definition double_of_Z (z : Z) : double := Finite (inject_Z z).

Definition double_to_uint32 (a : double) : Z :=
  match a with
  | Finite q => Z.quot (Qnum q) (QDen q)
  | Infinite _ => 0
  end.

(** The parts of cJSON the source uses; strings are without their terminator. *)
Class CJson := {
  cJSON : Type;
  cJSON_ParseWithLength : list Z -> option cJSON;
  cJSON_IsObject : cJSON -> bool;
  cJSON_GetObjectItemCaseSensitive : cJSON -> string -> option cJSON;
  cJSON_IsNumber : cJSON -> bool;
  cJSON_IsString : cJSON -> bool;
  valuedouble : cJSON -> double;
  valuestring : cJSON -> option string
}.

Section orchestrator.
Context {JSON : CJson}.

(** [None] is [false]; all callers pass the address of a field. *)
Definition JsonUint32 (root : cJSON) (name : string) : option Z :=
  match cJSON_GetObjectItemCaseSensitive root name with
  | None => None
  | Some item =>
      if negb (cJSON_IsNumber item) then None else
      let value := valuedouble item in
      if double_lt value (double_of_Z 0) || double_lt (double_of_Z 4294967295) value ||
         negb (double_eq (double_of_Z (double_to_uint32 value)) value)
      then None
      else Some (double_to_uint32 value)
  end.

(** The string of an item, if it has one. *)
Definition JsonString (item : option cJSON) : option string :=
  match item with
  | Some item => if cJSON_IsString item then valuestring item else None
  | None => None
  end.

(** [inr] is [ESP_OK] with the command; everything else is
    [ESP_ERR_INVALID_ARG].  On success every field of the command was set. *)
Definition ParseCommandJson (payload : option (list Z)) (payload_length : Z) : option MqttOtaCommand_t :=
  match payload with
  | None => None
  | Some payload =>
      if (payload_length =? 0) || (MQTT_ORCH_MAX_PAYLOAD_LENGTH <? payload_length) then None else
      match cJSON_ParseWithLength (take (Z.to_nat payload_length) payload) with
      | None => None
      | Some root =>
          if negb (cJSON_IsObject root) then None else
          match JsonString (cJSON_GetObjectItemCaseSensitive root "cmd"),
                JsonString (cJSON_GetObjectItemCaseSensitive root "url") with
          | Some cmd, Some url =>
              if negb (String.eqb cmd "update") ||
                 (MQTT_ORCH_MAX_URL_LENGTH <? Z.of_nat (String.length url))
              then None else
              match JsonUint32 root "schema", JsonUint32 root "update_id",
                    JsonUint32 root "target_version", JsonUint32 root "size",
                    JsonUint32 root "crc32" with
              | Some schema, Some update_id, Some target_version, Some image_size, Some image_crc32 =>
                  let command :=
                    mkMqttOtaCommand schema update_id target_version image_size image_crc32 url in
                  let contract := MqttOrchestration_ValidateCommand (Some command) (128 * 1024) in
                  if bool_decide (contract <> MQTT_ORCH_CONTRACT_OK) then None else Some command
              | _, _, _, _, _ => None
              end
          | _, _ => None
          end
      end
  end.

(** ** mqtt_orchestrator.c: events *)

Definition MQTT_ORCH_CONNECTED_BIT : Z := 1.
Definition MQTT_ORCH_READY_BIT : Z := 2.
Definition MQTT_ORCH_PUBLISHED_BIT : Z := 4.

(** The orchestrator as its event task sees it: [mo_events] are the bits of the
    event group. *)
Record MqttOrchestrator_t := mkMqttOrchestrator {
  mo_events : Z;
  mo_command_topic : string;
  mo_fragment_buffer : list Z;
  mo_fragment_total : Z;
  mo_fragment_received : Z;
  mo_fragment_active : bool;
  mo_last_published_message_id : Z
}.

Definition mo_set_fragment (buffer : list Z) (total received : Z) (active : bool) (o : MqttOrchestrator_t)
    : MqttOrchestrator_t :=
  mkMqttOrchestrator (mo_events o) (mo_command_topic o) buffer total received active
    (mo_last_published_message_id o).

Definition mo_set_events (events : Z) (o : MqttOrchestrator_t) : MqttOrchestrator_t :=
  mkMqttOrchestrator events (mo_command_topic o) (mo_fragment_buffer o) (mo_fragment_total o)
    (mo_fragment_received o) (mo_fragment_active o) (mo_last_published_message_id o).

Definition mo_set_published (message_id : Z) (o : MqttOrchestrator_t) : MqttOrchestrator_t :=
  mkMqttOrchestrator (mo_events o) (mo_command_topic o) (mo_fragment_buffer o) (mo_fragment_total o)
    (mo_fragment_received o) (mo_fragment_active o) message_id.

(** The fields of the event the handler reads. *)
Record esp_mqtt_event_t := mkMqttEvent {
  me_data : option (list Z);
  me_data_len : Z;
  me_total_data_len : Z;
  me_current_data_offset : Z;
  me_topic : option string;
  me_topic_len : Z;
  me_msg_id : Z
}.

Inductive esp_mqtt_event_id_t :=
  | MQTT_EVENT_CONNECTED
  | MQTT_EVENT_SUBSCRIBED
  | MQTT_EVENT_DISCONNECTED
  | MQTT_EVENT_DATA
  | MQTT_EVENT_PUBLISHED
  | MQTT_EVENT_ERROR
  | MQTT_EVENT_OTHER.

(** The calls of the handler whose results it only logs. *)
Inductive HandlerCall :=
  | xQueueSend (command : MqttOtaCommand_t)
  | esp_mqtt_client_subscribe_single (topic : string) (qos : Z).

Definition TopicMatches (expected actual : option string) (actual_length : Z) : bool :=
  match expected, actual with
  | Some expected, Some actual =>
      if actual_length <? 0 then false else
      let expected_length := String.length expected in
      (Z.of_nat expected_length =? actual_length) &&
      String.eqb expected (String.substring 0 expected_length actual)
  | _, _ => false
  end.

Definition ResetFragment (o : MqttOrchestrator_t) : MqttOrchestrator_t :=
  mo_set_fragment (store 0 [0] (mo_fragment_buffer o)) 0 0 false o.

(** The events HandleData does not ignore. *)
Definition IsFragment (event : esp_mqtt_event_t) : bool :=
  negb (bool_decide (me_data event = None) || (me_data_len event <? 0) ||
        (me_total_data_len event <=? 0) || (me_current_data_offset event <? 0)).

(** The block for the first fragment; [None] returns early. *)
Definition BeginFragments (o : MqttOrchestrator_t) (event : esp_mqtt_event_t)
    : MqttOrchestrator_t * bool :=
  if me_current_data_offset event =? 0 then
    let o := ResetFragment o in
    if negb (TopicMatches (Some (mo_command_topic o)) (me_topic event) (me_topic_len event))
    then (o, false) else
    if MQTT_ORCH_MAX_PAYLOAD_LENGTH <? me_total_data_len event then (o, false) else
    (mo_set_fragment (mo_fragment_buffer o) (u32 (me_total_data_len event)) (mo_fragment_received o) true o, true)
  else (o, true).

(** The rest: the copy, and the command of a complete message. *)
Definition AddFragment (o : MqttOrchestrator_t) (event : esp_mqtt_event_t)
    : MqttOrchestrator_t * list HandlerCall :=
  if negb (mo_fragment_active o) ||
     (u32 (me_total_data_len event) <>? mo_fragment_total o) ||
     (u32 (me_current_data_offset event) <>? mo_fragment_received o) ||
     (u32 (mo_fragment_total o - mo_fragment_received o) <? u32 (me_data_len event))
  then (ResetFragment o, []) else
  let data := take (Z.to_nat (me_data_len event)) (default [] (me_data event)) in
  let buffer := store (mo_fragment_received o) data (mo_fragment_buffer o) in
  let received := u32 (mo_fragment_received o + u32 (me_data_len event)) in
  let o := mo_set_fragment buffer (mo_fragment_total o) received (mo_fragment_active o) o in
  if mo_fragment_received o <>? mo_fragment_total o then (o, []) else
  let buffer := store (mo_fragment_total o) [0] (mo_fragment_buffer o) in
  let o := mo_set_fragment buffer (mo_fragment_total o) (mo_fragment_received o) (mo_fragment_active o) o in
  let calls := match ParseCommandJson (Some (mo_fragment_buffer o)) (mo_fragment_total o) with
    | Some command => [xQueueSend command]
    | None => []
    end in
  (ResetFragment o, calls).

Definition HandleData (orchestrator : MqttOrchestrator_t) (event : esp_mqtt_event_t)
    : MqttOrchestrator_t * list HandlerCall :=
  if negb (IsFragment event) then (orchestrator, []) else
  let '(orchestrator, go_on) := BeginFragments orchestrator event in
  if negb go_on then (orchestrator, []) else AddFragment orchestrator event.

Definition MqttEventHandler (orchestrator : MqttOrchestrator_t) (event_id : esp_mqtt_event_id_t)
    (event : esp_mqtt_event_t) : MqttOrchestrator_t * list HandlerCall :=
  let o := orchestrator in
  match event_id with
  | MQTT_EVENT_CONNECTED =>
      (mo_set_events (Z.lor (mo_events o) MQTT_ORCH_CONNECTED_BIT) o,
       [esp_mqtt_client_subscribe_single (mo_command_topic o) 1])
  | MQTT_EVENT_SUBSCRIBED => (mo_set_events (Z.lor (mo_events o) MQTT_ORCH_READY_BIT) o, [])
  | MQTT_EVENT_DISCONNECTED =>
      (ResetFragment (mo_set_events
         (Z.ldiff (mo_events o) (Z.lor MQTT_ORCH_CONNECTED_BIT MQTT_ORCH_READY_BIT)) o), [])
  | MQTT_EVENT_DATA => HandleData o event
  | MQTT_EVENT_PUBLISHED =>
      let o := mo_set_published (me_msg_id event) o in
      (mo_set_events (Z.lor (mo_events o) MQTT_ORCH_PUBLISHED_BIT) o, [])
  | MQTT_EVENT_ERROR | MQTT_EVENT_OTHER => (o, [])
  end.

(** A run of the event task, and all it asked for. *)
Fixpoint HandleEvents (o : MqttOrchestrator_t) (events : list (esp_mqtt_event_id_t * esp_mqtt_event_t))
    : MqttOrchestrator_t * list HandlerCall :=
  match events with
  | [] => (o, [])
  | (event_id, event) :: events =>
      let '(o, calls) := MqttEventHandler o event_id event in
      let '(o, calls') := HandleEvents o events in
      (o, calls ++ calls')
  end.
End orchestrator.

(** ** Numbers *)

Section numbers.
Context {JSON : CJson}.

(** Exactly the integers of 32 bits are numbers of a command. *)
Lemma JsonUint32_spec root name n :
  JsonUint32 root name = Some n <->
  exists item q, cJSON_GetObjectItemCaseSensitive root name = Some item /\ cJSON_IsNumber item = true /\
    valuedouble item = Finite q /\ Qeq q (inject_Z n) /\ 0 <= n <= 4294967295.
Proof.
  unfold JsonUint32. destruct (cJSON_GetObjectItemCaseSensitive root name) as [item|];
    [|split; [done|by intros (? & ? & [=] & _)]].
  destruct (cJSON_IsNumber item) eqn:En; cbn [negb];
    [|split; [done|intros (i & q & [= <-] & Hn & _); congruence]].
  destruct (valuedouble item) as [[m d]|negative] eqn:Ev.
  2: { split; [|intros (i & q & [= <-] & _ & Hv & _); congruence]. by destruct negative. }
  unfold double_lt, double_of_Z, double_eq, double_to_uint32, inject_Z, Qle_bool, Qeq_bool. cbn [Qnum Qden negb].
  assert (Hquot : 0 <= m -> Z.quot m (Z.pos d) = m / Z.pos d) by (intros; apply Z.quot_div_nonneg; lia).
  split.
  - case_if; [done|]. to_prop. intros [= <-]. exists item, (m # d). split_and!; try done.
    + unfold Qeq, inject_Z. cbn [Qnum Qden]. lia.
    + nia.
  - intros (i & q & [= <-] & _ & Hv & Hq & Hn). rewrite Ev in Hv. injection Hv as <-. unfold Qeq, inject_Z in Hq. cbn [Qnum Qden] in Hq.
    assert (Hm : m = n * Z.pos d) by lia. subst m. rewrite Z.quot_mul by lia.
    case_if; [|done]. exfalso. apply orb_true_iff in E as [E|E]; [apply orb_true_iff in E as [E|E]|].
    + to_prop. nia.
    + to_prop. nia.
    + to_prop. lia.
Qed.
End numbers.

(** ** Fragments *)

(** What ESP-MQTT promises of an event: the lengths are [int]s, and the data is
    there. *)
Record mqtt_event_ok (e : esp_mqtt_event_t) : Prop := {
  eo_len : me_data_len e < 2 ^ 31 /\ me_data_len e <= len (default [] (me_data e));
  eo_total : me_total_data_len e < 2 ^ 31;
  eo_offset : me_current_data_offset e < 2 ^ 31
}.

Definition fragment_data (e : esp_mqtt_event_t) : list Z :=
  take (Z.to_nat (me_data_len e)) (default [] (me_data e)).

(** The events [run] are the fragments of one message on [topic] with [total]
    bytes, in order and without a gap; [data] is what they carry. *)
Inductive gathered (topic : string) (total : Z) : list esp_mqtt_event_t -> list Z -> Prop :=
  | gathered_first e :
      me_current_data_offset e = 0 -> TopicMatches (Some topic) (me_topic e) (me_topic_len e) = true ->
      me_total_data_len e = total ->
      gathered topic total [e] (fragment_data e)
  | gathered_next run data e :
      gathered topic total run data -> 0 < me_current_data_offset e -> me_current_data_offset e = len data ->
      me_total_data_len e = total ->
      gathered topic total (run ++ [e]) (data ++ fragment_data e).

(** The fragments among the events. *)
Definition fragment_of (x : esp_mqtt_event_id_t * esp_mqtt_event_t) : option esp_mqtt_event_t :=
  match fst x with
  | MQTT_EVENT_DATA => if IsFragment (snd x) then Some (snd x) else None
  | _ => None
  end.

Definition fragments (events : list (esp_mqtt_event_id_t * esp_mqtt_event_t)) : list esp_mqtt_event_t :=
  omap fragment_of events.

Section orchestrator.
Context {JSON : CJson}.

(** The command of a complete message that ends the fragments [past]. *)
Definition whole_message topic (past : list esp_mqtt_event_t) (command : MqttOtaCommand_t) : Prop :=
  exists before run data, past = before ++ run /\ gathered topic (len data) run data /\
    0 < len data <= MQTT_ORCH_MAX_PAYLOAD_LENGTH /\
    ParseCommandJson (Some data) (len data) = Some command.

(** What the buffer holds while a message is coming in. *)
Record assembling topic (past : list esp_mqtt_event_t) (o : MqttOrchestrator_t) : Prop := {
  as_topic : mo_command_topic o = topic;
  as_buffer : len (mo_fragment_buffer o) = MQTT_ORCH_MAX_PAYLOAD_LENGTH + 1;
  as_active : mo_fragment_active o = true -> exists before run data,
    past = before ++ run /\ gathered topic (mo_fragment_total o) run data /\
    mo_fragment_received o = len data /\ len data < mo_fragment_total o <= MQTT_ORCH_MAX_PAYLOAD_LENGTH /\
    take (length data) (mo_fragment_buffer o) = data
}.

(** The parser sees the first [n] bytes. *)
Lemma ParseCommandJson_take payload n :
  ParseCommandJson (Some payload) n = ParseCommandJson (Some (take (Z.to_nat n) payload)) n.
Proof. unfold ParseCommandJson. by rewrite take_take, Nat.min_id. Qed.

Lemma ParseCommandJson_valid payload n command :
  ParseCommandJson payload n = Some command ->
  MqttOrchestration_ValidateCommand (Some command) (128 * 1024) = MQTT_ORCH_CONTRACT_OK /\
  Z.of_nat (String.length (mc_url command)) <= MQTT_ORCH_MAX_URL_LENGTH.
Proof.
  unfold ParseCommandJson. destruct payload as [payload|]; [|done]. case_if; [done|].
  destruct (cJSON_ParseWithLength _) as [root|]; [|done]. case_if; [done|].
  destruct (JsonString _) as [cmd|]; [|done]. destruct (JsonString _) as [url|]; [|done]. case_if; [done|].
  do 5 (destruct (JsonUint32 _ _); [|done]). cbv zeta. case_bool_decide; [done|].
  intros [= <-]. to_prop. by split.
Qed.

Lemma ResetFragment_buffer o : length (mo_fragment_buffer (ResetFragment o)) = length (mo_fragment_buffer o).
Proof. apply store_length. Qed.

Lemma assembling_reset topic past o : assembling topic past o -> assembling topic past (ResetFragment o).
Proof. intros []. split; [done|by rewrite ResetFragment_buffer|done]. Qed.

Lemma assembling_more topic past o e :
  mo_fragment_active o = false -> assembling topic past o -> assembling topic (past ++ [e]) o.
Proof. intros Ha [H1 H2 _]. split; [done|done|]. by rewrite Ha. Qed.

Lemma IsFragment_spec e :
  IsFragment e = true -> exists data, me_data e = Some data /\ 0 <= me_data_len e /\ 0 < me_total_data_len e /\ 0 <= me_current_data_offset e.
Proof.
  unfold IsFragment. destruct (me_data e) as [data|]; [|done]. rewrite negb_true_iff.
  change (bool_decide (Some data = None)) with false. intros Hn. to_prop. by exists data.
Qed.

Lemma fragment_data_length e :
  mqtt_event_ok e -> 0 <= me_data_len e -> len (fragment_data e) = me_data_len e.
Proof. intros [[Ha Hb] _ _] Hl. unfold fragment_data. rewrite length_take. lia. Qed.

(** ** One fragment *)

(** The copy stays inside the buffer, continues the message, and a complete
    message is parsed as it was received. *)
Lemma AddFragment_step topic past o e :
  mqtt_event_ok e -> IsFragment e = true ->
  mo_command_topic o = topic -> len (mo_fragment_buffer o) = MQTT_ORCH_MAX_PAYLOAD_LENGTH + 1 ->
  0 <= mo_fragment_received o ->
  (mo_fragment_active o = true -> mo_fragment_received o <= mo_fragment_total o <= MQTT_ORCH_MAX_PAYLOAD_LENGTH) ->
  (mo_fragment_active o = true -> me_current_data_offset e = mo_fragment_received o ->
   me_total_data_len e = mo_fragment_total o ->
   exists before run data, past ++ [e] = before ++ run /\
     gathered topic (mo_fragment_total o) run (data ++ fragment_data e) /\
     mo_fragment_received o = len data /\ take (length data) (mo_fragment_buffer o) = data) ->
  assembling topic (past ++ [e]) (fst (AddFragment o e)) /\
  forall command, In (xQueueSend command) (snd (AddFragment o e)) -> whole_message topic (past ++ [e]) command.
Proof.
  intros Hok Hf Ht Hb Hr0 Hact Hrun. pose proof (IsFragment_spec e Hf) as (d & Hd & Hl & Htot & Hoff).
  pose proof Hok as [[Hl1 Hl2] Ht1 Ho1]. unfold MQTT_ORCH_MAX_PAYLOAD_LENGTH in *.
  unfold AddFragment. rewrite (u32_small (me_total_data_len e)), (u32_small (me_current_data_offset e)),
    (u32_small (me_data_len e)) by (unfold is_u32; lia).
  case_if.
  { cbn [fst snd]. split; [|by intros ? []]. split; [done|by rewrite ResetFragment_buffer|done]. }
  to_prop. destruct (Hrun ltac:(assumption) ltac:(assumption) ltac:(assumption)) as (before & run & data & Hp & Hg & Hr & Htake).
  pose proof (Hact ltac:(assumption)) as Ha. rewrite u32_small in H0 by (unfold is_u32; lia). clear Hrun Hact.
  fold (fragment_data e). pose proof (fragment_data_length e Hok Hl) as Hfl.
  rewrite (u32_small (_ + _)) by (unfold is_u32; lia). rewrite Hr in *.
  set (buffer := store (len data) (fragment_data e) (mo_fragment_buffer o)).
  assert (Hbuf : len buffer = 768) by (unfold buffer; rewrite store_length; lia).
  assert (Hpre : take (Z.to_nat (len (data ++ fragment_data e))) buffer = data ++ fragment_data e).
  { rewrite length_app, Nat2Z.inj_add. unfold buffer. rewrite store_prefix by lia. by rewrite Nat2Z.id, Htake. }
  assert (Hlen : len (data ++ fragment_data e) = len data + me_data_len e) by (rewrite length_app; lia).
  clearbody buffer. cbn [mo_fragment_buffer mo_fragment_total mo_fragment_received mo_fragment_active mo_set_fragment].
  case_if; to_prop; cbn [fst snd].
  - split; [|by intros ? []]. split; [done|exact Hbuf|]. intros _. exists before, run, (data ++ fragment_data e).
    cbn [mo_fragment_total mo_fragment_received mo_fragment_buffer mo_set_fragment].
    split_and!; [done|done|lia|unfold MQTT_ORCH_MAX_PAYLOAD_LENGTH; lia..|]. by rewrite Nat2Z.id in Hpre.
  - split.
    + split; [done| |done]. rewrite ResetFragment_buffer. cbn [mo_fragment_buffer mo_set_fragment].
      rewrite store_length. exact Hbuf.
    + intros command Hin. exists before, run, (data ++ fragment_data e).
      rewrite Hlen, E. split; [exact Hp|]. split; [exact Hg|]. split; [unfold MQTT_ORCH_MAX_PAYLOAD_LENGTH; lia|].
      rewrite ParseCommandJson_take in Hin. rewrite store_eq in Hin by (cbn [length]; lia).
      rewrite take_app_length' in Hin by (rewrite length_take; lia). rewrite <- E, <- Hlen, Hpre in Hin.
      rewrite <- E, <- Hlen. destruct (ParseCommandJson _ _) as [c|]; [|destruct Hin].
      destruct Hin as [[= ->]|[]]. reflexivity.
Qed.

Lemma HandleData_step topic past o e :
  mqtt_event_ok e -> IsFragment e = true -> assembling topic past o ->
  assembling topic (past ++ [e]) (fst (HandleData o e)) /\
  forall command, In (xQueueSend command) (snd (HandleData o e)) -> whole_message topic (past ++ [e]) command.
Proof.
  intros Hok Hf Ha. pose proof (IsFragment_spec e Hf) as (d & _ & Hl & Htot & Hoff).
  pose proof Hok as [_ Ht1 _]. unfold HandleData. rewrite Hf. cbn [negb]. unfold BeginFragments.
  destruct (Z.eqb_spec (me_current_data_offset e) 0) as [H0|H0].
  - pose proof (assembling_reset _ _ _ Ha) as [Hr1 Hr2 _].
    assert (Hidle : assembling topic (past ++ [e]) (ResetFragment o)) by (by split).
    case_if; [by split; [|intros ? []]|]. case_if; [by split; [|intros ? []]|]. to_prop. cbn [negb].
    rewrite u32_small by (unfold is_u32; lia). rewrite Hr1 in E.
    apply AddFragment_step; cbn [mo_fragment_received mo_set_fragment ResetFragment]; [done|done|done|exact Hr2|lia|..].
    + intros _. cbn [mo_fragment_total mo_set_fragment]. lia.
    + intros _ _ _. exists past, [e], []. split_and!; [done| |done|done]. by apply gathered_first.
  - cbn [negb]. pose proof Ha as [H1 H2 H3]. destruct (mo_fragment_active o) eqn:Eact.
    + destruct (H3 eq_refl) as (before & run & data & Hp & Hg & Hr & Hlen & Htake).
      apply AddFragment_step; [done|done|done|done|lia|by intros _; lia|].
      intros _ Heq Heqt. exists before, (run ++ [e]), data. split; [by rewrite Hp, <- app_assoc|].
      split; [|by split]. apply gathered_next; [done|lia|lia|done].
    + unfold AddFragment. rewrite Eact. cbn [negb orb fst snd]. split; [|by intros ? []].
      by apply assembling_more, assembling_reset.
Qed.

Lemma whole_message_extends topic past more command :
  whole_message topic past command ->
  exists before run after data, past ++ more = before ++ run ++ after /\ gathered topic (len data) run data /\
    0 < len data <= MQTT_ORCH_MAX_PAYLOAD_LENGTH /\ ParseCommandJson (Some data) (len data) = Some command.
Proof.
  intros (before & run & data & -> & H). exists before, run, more, data. split; [by rewrite app_assoc|exact H].
Qed.

Lemma MqttEventHandler_step topic past o x :
  mqtt_event_ok (snd x) -> assembling topic past o ->
  assembling topic (past ++ option_list (fragment_of x)) (fst (MqttEventHandler o (fst x) (snd x))) /\
  forall command, In (xQueueSend command) (snd (MqttEventHandler o (fst x) (snd x))) ->
    whole_message topic (past ++ option_list (fragment_of x)) command.
Proof.
  intros Hok Ha. destruct x as [[] e]; cbn [fst snd] in *; unfold fragment_of; cbn [fst snd MqttEventHandler];
    try (rewrite app_nil_r; split; [|by intros c [[=]|[]] || by intros c []]; by destruct Ha).
  - rewrite app_nil_r. split; [|by intros c []]. apply assembling_reset. by destruct Ha.
  - destruct (IsFragment e) eqn:Ef; [by apply HandleData_step|].
    unfold HandleData. rewrite Ef. cbn [negb fst snd option_list]. rewrite app_nil_r. by split; [|intros ? []].
Qed.

Lemma HandleEvents_assembling topic : forall events past o,
  Forall (fun x => mqtt_event_ok (snd x)) events -> assembling topic past o ->
  forall command, In (xQueueSend command) (snd (HandleEvents o events)) ->
  exists before run after data, past ++ fragments events = before ++ run ++ after /\
    gathered topic (len data) run data /\
    0 < len data <= MQTT_ORCH_MAX_PAYLOAD_LENGTH /\ ParseCommandJson (Some data) (len data) = Some command.
Proof.
  induction events as [|[id e] events IH]; intros past o Hok Ha command Hin; [destruct Hin|].
  apply Forall_cons in Hok as [Hok Hrest]. cbn [HandleEvents] in Hin.
  pose proof (MqttEventHandler_step topic past o (id, e) Hok Ha) as [Ha' Hc]. cbn [fst snd] in Ha', Hc.
  destruct (MqttEventHandler o id e) as [o1 calls]. cbn [fst snd] in Ha', Hc.
  specialize (IH _ o1 Hrest Ha' command). destruct (HandleEvents o1 events) as [o2 calls'].
  assert (Hsplit : past ++ fragments ((id, e) :: events) =
    (past ++ option_list (fragment_of (id, e))) ++ fragments events).
  { rewrite <- app_assoc. f_equal. cbn. by destruct (fragment_of (id, e)). }
  rewrite Hsplit. cbn [snd] in Hin, IH. apply in_app_iff in Hin as [Hin|Hin]; [|by apply IH].
  by apply whole_message_extends, Hc.
Qed.

(** The orchestrator after MqttOrchestrator_Start. *)
Record started topic (o : MqttOrchestrator_t) : Prop := {
  st_topic : mo_command_topic o = topic;
  st_buffer : len (mo_fragment_buffer o) = MQTT_ORCH_MAX_PAYLOAD_LENGTH + 1;
  st_active : mo_fragment_active o = false
}.

Lemma started_assembling topic o : started topic o -> assembling topic [] o.
Proof. intros [H1 H2 H3]. split; [done|done|]. by rewrite H3. Qed.

(** C26: Commands come from whole messages.  Whatever events reach the handler
    after MqttOrchestrator_Start, in whatever order, each command it hands to
    the queue was parsed from the data of consecutive fragments of one length:
    the first at offset 0 on the command topic, each later one at the offset its
    predecessors reach, the last one completing between 1 and 767 bytes; and the
    command satisfies the contract: schema 1, non-zero ids, a size from 8 bytes
    to 128 KiB, an https URL of at most 255 characters. *)
Theorem MqttEventHandler_whole_messages topic o events command :
  started topic o -> Forall (fun x => mqtt_event_ok (snd x)) events ->
  In (xQueueSend command) (snd (HandleEvents o events)) ->
  (exists before run after data, fragments events = before ++ run ++ after /\
     gathered topic (len data) run data /\ 0 < len data <= MQTT_ORCH_MAX_PAYLOAD_LENGTH /\
     ParseCommandJson (Some data) (len data) = Some command) /\
  mc_schema command = MQTT_ORCH_SCHEMA_VERSION /\ mc_update_id command <> 0 /\
  mc_target_version command <> 0 /\ 8 <= mc_image_size command <= 128 * 1024 /\
  MqttOrchestration_IsHttpsUrl (Some (mc_url command)) = true /\
  Z.of_nat (String.length (mc_url command)) <= MQTT_ORCH_MAX_URL_LENGTH.
Proof.
  intros Hs Hok Hin. pose proof (HandleEvents_assembling topic events [] o Hok (started_assembling _ _ Hs) command Hin) as H.
  split; [exact H|]. destruct H as (_ & _ & _ & data & _ & _ & _ & Hp). apply ParseCommandJson_valid in Hp as [Hv Hu].
  revert Hv. unfold MqttOrchestration_ValidateCommand. case_if; [done|]. case_if; [done|]. case_if; [done|].
  case_if; [done|]. case_if; [done|]. case_if; [done|]. intros _. to_prop. by split_and!.
Qed.

(** ** Messages that arrive in order *)

(** The events of a message cut into [pieces], as ESP-MQTT reports them: the
    topic comes with the first. *)
Fixpoint message_events (topic : string) (total offset : Z) (pieces : list (list Z))
    : list (esp_mqtt_event_id_t * esp_mqtt_event_t) :=
  match pieces with
  | [] => []
  | piece :: pieces =>
      (MQTT_EVENT_DATA, mkMqttEvent (Some piece) (len piece) total offset
        (if offset =? 0 then Some topic else None)
        (if offset =? 0 then Z.of_nat (String.length topic) else 0) 0) ::
      message_events topic total (offset + len piece) pieces
  end.

Lemma TopicMatches_self topic : TopicMatches (Some topic) (Some topic) (Z.of_nat (String.length topic)) = true.
Proof.
  unfold TopicMatches. rewrite (proj2 (Z.ltb_ge _ 0)), Z.eqb_refl by lia. apply String.eqb_eq. symmetry.
  induction topic as [|a topic IH]; [done|]. cbn. by rewrite IH.
Qed.

(** The command a payload makes. *)
Definition command_calls (payload : list Z) : list HandlerCall :=
  match ParseCommandJson (Some payload) (len payload) with
  | Some command => [xQueueSend command]
  | None => []
  end.

(** The state with [data] received. *)
Record receiving (total : Z) (data : list Z) (o : MqttOrchestrator_t) : Prop := {
  rv_active : mo_fragment_active o = true;
  rv_total : mo_fragment_total o = total;
  rv_received : mo_fragment_received o = len data;
  rv_buffer : len (mo_fragment_buffer o) = MQTT_ORCH_MAX_PAYLOAD_LENGTH + 1;
  rv_data : take (length data) (mo_fragment_buffer o) = data
}.

Lemma AddFragment_receiving total data o piece topic topic_len :
  receiving total data o -> len data + len piece <= total <= MQTT_ORCH_MAX_PAYLOAD_LENGTH ->
  let r := AddFragment o (mkMqttEvent (Some piece) (len piece) total (len data) topic topic_len 0) in
  if len data + len piece =? total then snd r = command_calls (data ++ piece)
  else snd r = [] /\ receiving total (data ++ piece) (fst r).
Proof.
  intros [H1 H2 H3 H4 H5] Hfit r. unfold MQTT_ORCH_MAX_PAYLOAD_LENGTH in *. subst r. unfold AddFragment.
  cbn [me_total_data_len me_current_data_offset me_data_len me_data default]. change (default [] (Some piece)) with piece.
  rewrite H1, H2, H3, !u32_small by (unfold is_u32; lia). rewrite !Z.eqb_refl, (proj2 (Z.ltb_ge _ _)) by lia.
  cbn [negb orb]. rewrite Nat2Z.id, (take_ge piece) by lia.
  pose proof (store_prefix (len data) piece (mo_fragment_buffer o) ltac:(lia) ltac:(lia)) as Hpre.
  rewrite !Nat2Z.id, H5 in Hpre. set (buffer := store (len data) piece (mo_fragment_buffer o)) in *.
  assert (Hbuf : len buffer = 768) by (unfold buffer; rewrite store_length; lia). clearbody buffer.
  cbn [mo_fragment_buffer mo_fragment_total mo_fragment_received mo_fragment_active mo_set_fragment].
  destruct (Z.eqb_spec (len data + len piece) total) as [<-|Hne]; cbn [negb fst snd].
  - unfold command_calls. rewrite length_app, Nat2Z.inj_add, ParseCommandJson_take.
    rewrite store_eq by (cbn [length]; lia). rewrite take_app_length' by (rewrite length_take; lia).
    by rewrite Hpre.
  - split; [done|]. split; cbn [mo_fragment_buffer mo_fragment_total mo_fragment_received mo_fragment_active mo_set_fragment];
      [done|done|rewrite length_app; lia|exact Hbuf|]. rewrite <- Hpre at 2. f_equal. rewrite length_app. lia.
Qed.

Lemma HandleEvents_receiving topic total : forall pieces data o,
  receiving total data o -> 0 < len data -> pieces <> [] -> Forall (fun p => p <> []) pieces ->
  len data + len (concat pieces) = total -> total <= MQTT_ORCH_MAX_PAYLOAD_LENGTH ->
  snd (HandleEvents o (message_events topic total (len data) pieces)) = command_calls (data ++ concat pieces).
Proof.
  induction pieces as [|piece pieces IH]; intros data o Ho Hd Hne Hnz Htot Hmax; [done|].
  apply Forall_cons in Hnz as [Hp Hnz]. cbn [concat] in *. rewrite length_app in Htot.
  cbn [message_events HandleEvents MqttEventHandler]. rewrite (proj2 (Z.eqb_neq (len data) 0)) by lia.
  unfold HandleData, IsFragment. cbn [me_data me_data_len me_total_data_len me_current_data_offset].
  change (bool_decide (Some piece = None)) with false. unfold MQTT_ORCH_MAX_PAYLOAD_LENGTH in *.
  rewrite (proj2 (Z.ltb_ge (len piece) 0)), (proj2 (Z.leb_gt total 0)), (proj2 (Z.ltb_ge (len data) 0)) by lia.
  unfold BeginFragments. cbn [me_current_data_offset negb orb]. rewrite (proj2 (Z.eqb_neq (len data) 0)) by lia. cbn [negb].
  pose proof (AddFragment_receiving total data o piece None 0 Ho) as Hstep.
  unfold MQTT_ORCH_MAX_PAYLOAD_LENGTH in Hstep. specialize (Hstep ltac:(lia)). cbv zeta in Hstep.
  destruct (AddFragment o _) as [o1 calls]. cbn [fst snd] in Hstep.
  destruct pieces as [|piece' pieces].
  - cbn [concat message_events HandleEvents snd] in *. rewrite (proj2 (Z.eqb_eq _ total)) in Hstep by (cbn in Htot; lia).
    by rewrite !app_nil_r.
  - assert (0 < len (concat (piece' :: pieces))).
    { apply Forall_cons in Hnz as [Hp' _]. cbn [concat]. rewrite length_app. destruct piece'; [done|]. cbn [length]. lia. }
    rewrite (proj2 (Z.eqb_neq _ total)) in Hstep by lia. destruct Hstep as [-> Ho1].
    replace (len data + len piece) with (len (data ++ piece)) by (rewrite length_app; lia).
    specialize (IH (data ++ piece) o1 Ho1). rewrite app_assoc, <- IH; [| |done|done| |done].
    + by destruct (HandleEvents o1 _).
    + rewrite length_app. lia.
    + rewrite length_app. lia.
Qed.

(** C27: Messages are put together.  From any state of the handler, a message on
    the command topic with 1 to 767 bytes that arrives in non-empty pieces in
    order leads to exactly the command ParseCommandJson makes of its bytes, or
    to none when it rejects them. *)
Theorem HandleData_reassembles topic o pieces :
  mo_command_topic o = topic -> len (mo_fragment_buffer o) = MQTT_ORCH_MAX_PAYLOAD_LENGTH + 1 ->
  pieces <> [] -> Forall (fun p => p <> []) pieces -> len (concat pieces) <= MQTT_ORCH_MAX_PAYLOAD_LENGTH ->
  snd (HandleEvents o (message_events topic (len (concat pieces)) 0 pieces)) = command_calls (concat pieces).
Proof.
  intros Ht Hb Hne Hnz Hmax. destruct pieces as [|piece pieces]; [done|].
  apply Forall_cons in Hnz as [Hp Hnz]. cbn [concat] in *. rewrite length_app in *.
  assert (0 < len piece) by (destruct piece; [done|]; cbn [length]; lia).
  unfold MQTT_ORCH_MAX_PAYLOAD_LENGTH in *. set (total := Z.of_nat (length piece + length (concat pieces))) in *.
  cbn [message_events HandleEvents MqttEventHandler]. rewrite Z.eqb_refl.
  unfold HandleData, IsFragment. cbn [me_data me_data_len me_total_data_len me_current_data_offset].
  change (bool_decide (Some piece = None)) with false.
  rewrite (proj2 (Z.ltb_ge (len piece) 0)), (proj2 (Z.leb_gt total 0)) by lia. change (0 <? 0) with false.
  cbn [orb negb]. unfold BeginFragments. cbn [me_current_data_offset me_topic me_topic_len me_total_data_len]. rewrite Z.eqb_refl.
  change (mo_command_topic (ResetFragment o)) with (mo_command_topic o). rewrite Ht, TopicMatches_self.
  unfold MQTT_ORCH_MAX_PAYLOAD_LENGTH. rewrite (proj2 (Z.ltb_ge 767 total)) by lia. cbn [negb].
  set (o0 := mo_set_fragment _ _ _ _ _).
  assert (Ho0 : receiving total [] o0).
  { split; [done|apply u32_small; unfold is_u32; lia|done| |done]. unfold o0. cbn [mo_fragment_buffer mo_set_fragment].
    rewrite ResetFragment_buffer. exact Hb. }
  pose proof (AddFragment_receiving total [] o0 piece (Some topic) (Z.of_nat (String.length topic)) Ho0) as Hstep.
  unfold MQTT_ORCH_MAX_PAYLOAD_LENGTH in Hstep. cbn [length app] in Hstep. change (Z.of_nat 0) with 0 in Hstep.
  specialize (Hstep ltac:(lia)). cbv zeta in Hstep. rewrite Z.add_0_l in *. clearbody o0.
  destruct (AddFragment o0 _) as [o1 calls]. cbn [fst snd] in Hstep.
  destruct pieces as [|piece' pieces].
  - cbn [concat message_events HandleEvents snd length] in *. rewrite (proj2 (Z.eqb_eq _ total)) in Hstep by lia.
    by rewrite !app_nil_r.
  - assert (0 < len (concat (piece' :: pieces))).
    { apply Forall_cons in Hnz as [Hp' _]. cbn [concat]. rewrite length_app. destruct piece'; [done|]. cbn [length]. lia. }
    rewrite (proj2 (Z.eqb_neq _ total)) in Hstep by lia. destruct Hstep as [-> Ho1].
    rewrite <- (HandleEvents_receiving topic total (piece' :: pieces) piece o1); [|done|lia|done|done|lia|done].
    by destruct (HandleEvents o1 _).
Qed.
End orchestrator.
