(* ===== verification/GatewayManager.v ===== *)
(** * GatewayManager: the worker of gateway-esp32

    What MqttOrchestrator_Publish* sends, and ProcessCommand of
    main/gateway_manager.c: one update command from the first query of the node
    to the published outcome.  ESP-MQTT, FreeRTOS and the memory the worker
    shares with its event task act on the environment (class [EspMqtt]).
    Logging is left out. *)

From Stdlib Require Import String.
From stdpp Require Import pretty.
From S2P Require Import Prelude Bytes GatewayProtocol GatewayClient ArtifactCache.
From S2P Require Import HttpsDownload.
From S2P Require Import MqttOrchestrator.

(** The calls of the worker.  The publish functions take the topic, the text,
    the QoS and the retain flag and return the message id; the event group is
    the one of the orchestrator; [last_published] is the volatile field
    last_published_message_id; [last_percent] is the field of the progress
    context of a stage. *)
Class EspMqtt (IDF : EspIdf) := {
  mqtt_client : Type;
  esp_mqtt_client_enqueue : mqtt_client -> string -> string -> Z -> bool -> bool -> Env -> Z * Env;
  esp_mqtt_client_publish : mqtt_client -> string -> string -> Z -> bool -> Env -> Z * Env;
  xEventGroupClearBits : Z -> Env -> Z * Env;
  xEventGroupWaitBits : Z -> bool -> bool -> Z -> Env -> Z * Env;
  xTaskGetTickCount : Env -> Z * Env;
  get_last_published : Env -> Z * Env;
  set_last_published : Z -> Env -> Env;
  get_last_percent : string -> Env -> Z;
  set_last_percent : string -> Z -> Env -> Env
}.

(** ** Texts *)

Definition quote : string := String (Ascii.ascii_of_nat 34) EmptyString.
Definition quoted (s : string) : string := quote +:+ s +:+ quote.

(** [PRIu32]. *)
Definition decimal (n : Z) : string := pretty (Z.to_N n).

Definition json_field (name value : string) : string := quoted name +:+ ":" +:+ value.

Definition status_json (state : string) (update_id target_version : Z) (detail : string) : string :=
  "{" +:+ json_field "schema" "1" +:+ "," +:+ json_field "state" (quoted state) +:+ "," +:+
  json_field "update_id" (decimal update_id) +:+ "," +:+
  json_field "target_version" (decimal target_version) +:+ "," +:+
  json_field "detail" (quoted detail) +:+ "}".

Definition progress_json (stage : string) (update_id current total percent : Z) : string :=
  "{" +:+ json_field "schema" "1" +:+ "," +:+ json_field "stage" (quoted stage) +:+ "," +:+
  json_field "update_id" (decimal update_id) +:+ "," +:+ json_field "current" (decimal current) +:+ "," +:+
  json_field "total" (decimal total) +:+ "," +:+ json_field "percent" (decimal percent) +:+ "}".

Section manager.
Context {IDF : EspIdf} {PART : EspPartition IDF} {HTTP : EspHttp IDF} {MQTT : EspMqtt IDF}.
Implicit Types e : Env.

#[local] Notation "'let!' x := m 'in' k" := (gbind m (fun x => k))
  (at level 10, x pattern, m at level 100, k at level 200).

(** The fields of MqttOrchestrator_t the worker reads; [mp_events] says whether
    there is an event group. *)
Record MqttPublisher := mkMqttPublisher {
  mp_client : option mqtt_client;
  mp_events : bool;
  mp_status_topic : string;
  mp_progress_topic : string
}.

(** ** mqtt_orchestrator.c: publishing *)

Definition EnqueueJson (orchestrator : option MqttPublisher) (topic payload : option string) (qos : Z)
    (retain : bool) : G esp_err_t :=
  match orchestrator, topic, payload with
  | Some orchestrator, Some topic, Some payload =>
      match mp_client orchestrator with
      | None => gret ESP_ERR_INVALID_ARG
      | Some client =>
          let! message_id := lift (esp_mqtt_client_enqueue client topic payload qos retain (0 <? qos)) in
          gret (if 0 <=? message_id then ESP_OK else ESP_FAIL)
      end
  | _, _, _ => gret ESP_ERR_INVALID_ARG
  end.

Definition MqttOrchestrator_PublishStatus (orchestrator : option MqttPublisher) (state : option string)
    (update_id target_version : Z) (detail : option string) (retain : bool) : G esp_err_t :=
  match orchestrator, state, detail with
  | Some o, Some state, Some detail =>
      let '(written, payload) := snprintf 384 (status_json state update_id target_version detail) in
      if (written <? 0) || (384 <=? written) then gret ESP_ERR_INVALID_SIZE
      else EnqueueJson orchestrator (Some (mp_status_topic o)) (Some payload) 1 retain
  | _, _, _ => gret ESP_ERR_INVALID_ARG
  end.

(** Publishing with no client is an argument error of esp_mqtt_client_publish. *)
Definition MqttOrchestrator_PublishProgress (orchestrator : option MqttPublisher) (stage : option string)
    (update_id current total : Z) : G esp_err_t :=
  match orchestrator, stage with
  | Some o, Some stage =>
      if (total =? 0) || (total <? current) then gret ESP_ERR_INVALID_ARG else
      let percent := u32 (current * 100 / total) in
      let '(written, payload) := snprintf 256 (progress_json stage update_id current total percent) in
      if (written <? 0) || (256 <=? written) then gret ESP_ERR_INVALID_SIZE else
      match mp_client o with
      | None => gret ESP_FAIL
      | Some client =>
          let! message_id := lift (esp_mqtt_client_publish client (mp_progress_topic o) payload 0 false) in
          gret (if 0 <=? message_id then ESP_OK else ESP_FAIL)
      end
  | _, _ => gret ESP_ERR_INVALID_ARG
  end.

(** The wait for the PUBACK of [message_id]. *)
Fixpoint AckLoop (fuel : nat) (message_id deadline : Z) : G esp_err_t :=
  match fuel with
  | O => fun _ => None
  | S fuel =>
      let! now := lift xTaskGetTickCount in
      if s32 (deadline - now) <=? 0 then gret ESP_ERR_TIMEOUT else
      let remaining := u32 (deadline - now) in
      let! bits := lift (xEventGroupWaitBits MQTT_ORCH_PUBLISHED_BIT true false remaining) in
      let! last := lift get_last_published in
      if last =? message_id then gret ESP_OK else
      if Z.land bits MQTT_ORCH_PUBLISHED_BIT =? 0 then gret ESP_ERR_TIMEOUT
      else AckLoop fuel message_id deadline
  end.

Definition MqttOrchestrator_PublishStatusAndWait (fuel : nat) (orchestrator : option MqttPublisher)
    (state : option string) (update_id target_version : Z) (detail : option string) (retain : bool)
    (ack_timeout_ms : Z) : G esp_err_t :=
  match orchestrator, state, detail with
  | Some o, Some state, Some detail =>
      match mp_client o with
      | None => gret ESP_ERR_INVALID_ARG
      | Some client =>
          if (ack_timeout_ms =? 0) || negb (mp_events o) then gret ESP_ERR_INVALID_ARG else
          let '(written, payload) := snprintf 384 (status_json state update_id target_version detail) in
          if (written <? 0) || (384 <=? written) then gret ESP_ERR_INVALID_SIZE else
          let! _ := lift (xEventGroupClearBits MQTT_ORCH_PUBLISHED_BIT) in
          let! _ := lift (fun e => (tt, set_last_published (-1) e)) in
          let! message_id := lift (esp_mqtt_client_publish client (mp_status_topic o) payload 1 retain) in
          if message_id <? 0 then gret ESP_FAIL else
          let! last := lift get_last_published in
          if last =? message_id then gret ESP_OK else
          let! ticks := lift xTaskGetTickCount in
          AckLoop fuel message_id (u32 (ticks + pdMS_TO_TICKS ack_timeout_ms))
      end
  | _, _, _ => gret ESP_ERR_INVALID_ARG
  end.

(** ** gateway_manager.c *)

Definition STM32_INCOMING_ARTIFACT_MAX_SIZE : Z := 128 * 1024.

(** The context without the field [last_percent], which is memory. *)
Record GatewayProgressContext_t := mkGatewayProgressContext {
  gp_mqtt : option MqttPublisher;
  gp_update_id : Z;
  gp_stage : string
}.

Definition ProgressReport (context : GatewayProgressContext_t) (current total : Z) (e : Env) : Env :=
  if bool_decide (gp_mqtt context = None) || (total =? 0) then e else
  let percent := u32 (current * 100 / total) in
  if (u32 (get_last_percent (gp_stage context) e + 10) <=? percent) || (current =? total) then
    let e := set_last_percent (gp_stage context) percent e in
    match MqttOrchestrator_PublishProgress (gp_mqtt context) (Some (gp_stage context))
            (gp_update_id context) current total e with
    | Some (_, e) => e
    | None => e
    end
  else e.

Definition DownloadProgress := ProgressReport.
Definition UartProgress := ProgressReport.

(** The fields of GatewayConfig_t ProcessCommand reads. *)
Record GatewayConfig_t := mkGatewayConfig {
  gc_https_timeout_ms : Z;
  gc_use_test_ca : bool
}.

Definition PublishFailure (fuel : nat) (mqtt : option MqttPublisher) (command : option MqttOtaCommand_t)
    (error : esp_err_t) (detail : string) : G esp_err_t :=
  let update_id := match command with Some command => mc_update_id command | None => 0 end in
  let target_version := match command with Some command => mc_target_version command | None => 0 end in
  let! _ := MqttOrchestrator_PublishStatusAndWait fuel mqtt (Some "failed"%string) update_id target_version
    (Some detail) true 5000 in
  gret error.

(** What the [memset]s and assignments leave in [download_config]. *)
Definition CommandDownload (config : GatewayConfig_t) (mqtt : MqttPublisher) (command : MqttOtaCommand_t)
    (test_ca : option string) : HttpsDownloadConfig_t :=
  mkHttpsDownloadConfig (Some (mc_url command)) test_ca (negb (gc_use_test_ca config))
    (mc_update_id command) (mc_target_version command) STM32_INCOMING_ARTIFACT_MAX_SIZE
    (gc_https_timeout_ms config)
    (Some (DownloadProgress (mkGatewayProgressContext (Some mqtt) (mc_update_id command) "https"))).

(** The uninitialised locals of ProcessCommand and HttpsDownload_ToCache. *)
Record ManagerLocals := mkManagerLocals {
  ml_client : ClientLocals;
  ml_buffer : list Z;
  ml_cache : ArtifactCache_t;
  ml_artifact : UartOtaArtifact_t;
  ml_final_info : UartOtaHelloInfo_t
}.

Context (locals : ManagerLocals).

(** The update behind the accepted command: transfer, installation, outcome. *)
Definition InstallCached (fuel : nat) (mqtt : MqttPublisher) (uart : UartOtaClient_t)
    (command : MqttOtaCommand_t) (cache : option ArtifactCache_t) : G (esp_err_t * UartOtaClient_t) :=
  let! (status, artifact) := ArtifactCache_AsUartArtifact cache (Some (ml_artifact locals)) in
  if bool_decide (status <> ESP_OK) then
    let! status := PublishFailure fuel (Some mqtt) (Some command) status "cache_export_failed" in
    gret (status, uart)
  else
  let! _ := lift (fun e => (tt, set_last_percent "uart" 0 e)) in
  let uart := default uart (UartOta_SetProgressCallback (Some uart)
    (Some (UartProgress (mkGatewayProgressContext (Some mqtt) (mc_update_id command) "uart")))) in
  let! _ := MqttOrchestrator_PublishStatus (Some mqtt) (Some "installing"%string) (mc_update_id command)
    (mc_target_version command) (Some "uart_transfer"%string) true in
  let! (status, final_info) :=
    UartOta_TransferInstallAndWait (ml_client locals) fuel (Some uart) artifact (Some (ml_final_info locals)) in
  let final_info := default (ml_final_info locals) final_info in
  if bool_decide (status <> ESP_OK) then
    let! status := PublishFailure fuel (Some mqtt) (Some command) status "stm32_install_or_trial_failed" in
    gret (status, uart)
  else
  if (hi_application_version final_info <>? mc_target_version command) ||
     (hi_update_state final_info <>? UART_OTA_UPDATE_IDLE)
  then
    let! status := PublishFailure fuel (Some mqtt) (Some command) ESP_ERR_INVALID_STATE
      "stm32_final_state_mismatch" in
    gret (status, uart)
  else
  let! status := MqttOrchestrator_PublishStatusAndWait fuel (Some mqtt) (Some "confirmed"%string)
    (mc_update_id command) (mc_target_version command) (Some "trial_confirmed"%string) true 5000 in
  gret (status, uart).

(** The status and [*uart] afterwards. *)
Definition ProcessCommand (fuel : nat) (config : option GatewayConfig_t) (mqtt : option MqttPublisher)
    (uart : option UartOtaClient_t) (command : option MqttOtaCommand_t) (test_ca : option string)
    : G (esp_err_t * option UartOtaClient_t) :=
  match config, mqtt, uart, command with
  | Some config, Some mqtt, Some uart, Some command =>
      let fail status detail :=
        let! status := PublishFailure fuel (Some mqtt) (Some command) status detail in
        gret (status, Some uart) in
      let! initial := UartOta_Query (ml_client locals) fuel (Some uart) true in
      match initial with
      | inl status => fail status "stm32_query_failed"%string
      | inr initial =>
          if (hi_application_version initial =? mc_target_version command) &&
             (hi_update_state initial =? UART_OTA_UPDATE_IDLE)
          then
            let! status := MqttOrchestrator_PublishStatusAndWait fuel (Some mqtt) (Some "confirmed"%string)
              (mc_update_id command) (mc_target_version command) (Some "already_current"%string) true 5000 in
            gret (status, Some uart)
          else
          let! status := MqttOrchestrator_PublishStatus (Some mqtt) (Some "accepted"%string)
            (mc_update_id command) (mc_target_version command) (Some "downloading"%string) true in
          if bool_decide (status <> ESP_OK) then gret (status, Some uart) else
          let! _ := lift (fun e => (tt, set_last_percent "https" 0 e)) in
          let! (status, cache, result) :=
            HttpsDownload_ToCache fuel (ml_buffer locals) (Some (CommandDownload config mqtt command test_ca))
              (Some (ml_cache locals)) (Some (mkHttpsDownloadResult 0 0 0 0)) in
          let result := default (mkHttpsDownloadResult 0 0 0 0) result in
          if bool_decide (status <> ESP_OK) then fail status "https_download_failed"%string else
          if hr_downloaded_size result <>? mc_image_size command
          then fail ESP_ERR_INVALID_SIZE "mqtt_size_mismatch"%string else
          if hr_image_crc32 result <>? mc_image_crc32 command
          then fail ESP_ERR_INVALID_CRC "mqtt_crc_mismatch"%string else
          let! _ := MqttOrchestrator_PublishStatus (Some mqtt) (Some "downloaded"%string)
            (mc_update_id command) (mc_target_version command) (Some "cache_verified"%string) true in
          let! (status, uart) := InstallCached fuel mqtt uart command cache in
          gret (status, Some uart)
      end
  | _, _, _, _ => gret (ESP_ERR_INVALID_ARG, uart)
  end.
End manager.
