(* ===== verification/ManagerTheorems.v ===== *)
(** * ManagerTheorems: an update the gateway reports as done

    ProcessCommand returns, and both ESP_OK and a published status "confirmed"
    mean that the node was seen running the target version, and that what was
    sent to it is what the command described. *)

From Stdlib Require Import String.
From S2P Require Import Prelude Bytes Crc32 Buffer GatewayProtocol GatewayClient.
From S2P Require Import GatewayRuns.
From S2P Require Import ArtifactCache ArtifactTheorems HttpsDownload HttpsTheorems.
From S2P Require Import MqttOrchestrator GatewayManager.

(** ** The documented behaviour of ESP-MQTT and FreeRTOS

    Nothing the worker asks of them touches the partition or the HTTP client.
    [pubacks] is the number of acknowledgements still to come, at most those of
    a full outbox: a wait that reports one uses it up. *)
Class MqttLaws {IDF : EspIdf} {PART : EspPartition IDF} {LAWS : PartitionLaws PART} {CK : EspClock IDF}
    {HTTP : EspHttp IDF} (HL : HttpLaws LAWS CK HTTP) (MQTT : EspMqtt IDF) := {
  pubacks : Env -> nat;
  outbox : nat;
  mq_outbox e : (pubacks e <= outbox)%nat;
  mq_enqueue c t p q r s e : quiet e (snd (esp_mqtt_client_enqueue c t p q r s e));
  mq_publish c t p q r e : quiet e (snd (esp_mqtt_client_publish c t p q r e));
  mq_clear b e : quiet e (snd (xEventGroupClearBits b e));
  mq_set_last z e : quiet e (set_last_published z e);
  mq_set_percent s z e : quiet e (set_last_percent s z e);
  mq_ticks e : quiet e (snd (xTaskGetTickCount e)) /\ (pubacks (snd (xTaskGetTickCount e)) <= pubacks e)%nat;
  mq_get_last e : quiet e (snd (get_last_published e)) /\ (pubacks (snd (get_last_published e)) <= pubacks e)%nat;
  mq_wait b clear all ticks e bits e' :
    xEventGroupWaitBits b clear all ticks e = (bits, e') ->
    quiet e e' /\ (Z.land bits b <> 0 -> (pubacks e' < pubacks e)%nat)
}.

(** [sent] is what was handed to the MQTT client so far: only the two publishing
    functions add to it. *)
Record Message := mkMessage {
  msg_topic : string;
  msg_text : string;
  msg_qos : Z;
  msg_retain : bool
}.

Definition leaves {E A X} (observe : E -> X) (f : E -> A * E) : Prop :=
  forall e, observe (snd (f e)) = observe e.

Class MqttTraffic {IDF : EspIdf} (PART : EspPartition IDF) (HTTP : EspHttp IDF) (MQTT : EspMqtt IDF) := {
  sent : Env -> list Message;
  mt_enqueue c t p q r s e :
    sent (snd (esp_mqtt_client_enqueue c t p q r s e)) = sent e ++ [mkMessage t p q r];
  mt_publish c t p q r e : sent (snd (esp_mqtt_client_publish c t p q r e)) = sent e ++ [mkMessage t p q r];
  mt_clear b : leaves sent (xEventGroupClearBits b);
  mt_wait b clear all ticks : leaves sent (xEventGroupWaitBits b clear all ticks);
  mt_ticks : leaves sent xTaskGetTickCount;
  mt_get_last : leaves sent get_last_published;
  mt_set_last z e : sent (set_last_published z e) = sent e;
  mt_set_percent s z e : sent (set_last_percent s z e) = sent e;
  mt_time : leaves sent esp_timer_get_time;
  mt_uart_write n bs : leaves sent (uart_write_bytes n bs);
  mt_uart_done n t : leaves sent (uart_wait_tx_done n t);
  mt_uart_read n t : leaves sent (uart_read_bytes n t);
  mt_delay t e : sent (vTaskDelay t e) = sent e;
  mt_partition_read p off n : leaves sent (esp_partition_read p off n);
  mt_partition_write p off bs : leaves sent (esp_partition_write p off bs);
  mt_partition_erase p off n : leaves sent (esp_partition_erase_range p off n);
  mt_http_init c : leaves sent (esp_http_client_init c);
  mt_http_set_method c : leaves sent (esp_http_client_set_method c);
  mt_http_open c n : leaves sent (esp_http_client_open c n);
  mt_http_headers c : leaves sent (esp_http_client_fetch_headers c);
  mt_http_status c : leaves sent (esp_http_client_get_status_code c);
  mt_http_chunked c : leaves sent (esp_http_client_is_chunked_response c);
  mt_http_read c n : leaves sent (esp_http_client_read c n);
  mt_http_complete c : leaves sent (esp_http_client_is_complete_data_received c);
  mt_http_close c : leaves sent (esp_http_client_close c);
  mt_http_cleanup c : leaves sent (esp_http_client_cleanup c)
}.

(** ** What the UART client and the download do not touch

    A relation that every function they call keeps, they keep. *)
Section keeps.
Context {IDF : EspIdf} (R : Env -> Env -> Prop) {Hpre : PreOrder R}.
Context (Htime : forall e, R e (snd (esp_timer_get_time e))).

Lemma stays_none {A} : stays R (fun _ => None : option (A * Env)).
Proof using. by intros e a e'. Qed.

Create HintDb keep.

Ltac keep := repeat first
  [ solve [auto with nocore keep] | apply stays_none | apply stays_ret; exact _ | apply stays_bind; [exact _| |intros ?]
  | apply stays_lift; intros ?; cbn [snd]; solve [auto]
  | match goal with
    | |- stays _ (if ?b then _ else _) => destruct b
    | |- stays _ (match ?x with _ => _ end) => destruct x
    end ].

Section client.
Context (Hwrite : forall n bs e, R e (snd (uart_write_bytes n bs e))).
Context (Hdone : forall n t e, R e (snd (uart_wait_tx_done n t e))).
Context (Hread : forall n t e, R e (snd (uart_read_bytes n t e))).
Context (Hdelay : forall t e, R e (vTaskDelay t e)).
Context (locals : ClientLocals) (fuel : nat) (client : UartOtaClient_t) (artifact : UartOtaArtifact_t).

Lemma stays_DeadlineUs ms : stays R (DeadlineUs ms).
Proof using Hpre Htime. unfold DeadlineUs. keep. Qed.

Lemma stays_DeadlineExpired d : stays R (DeadlineExpired d).
Proof using Hpre Htime. unfold DeadlineExpired. keep. Qed.

Lemma stays_Delay ms : stays R (Delay ms).
Proof using Hdelay. unfold Delay. keep. Qed.

Lemma stays_SendFrame packet : stays R (SendFrame locals client packet).
Proof using Hpre Hwrite Hdone. unfold SendFrame. keep. Qed.

#[local] Hint Resolve stays_DeadlineUs stays_DeadlineExpired stays_Delay stays_SendFrame : keep.

Lemma stays_ReadFrame n ms : stays R (ReadFrame locals n client ms).
Proof using Hpre Htime Hread.
  unfold ReadFrame. keep. generalize (cl_encoded locals), 0, false. rename a into deadline.
  induction n as [|n IH]; intros encoded m overflow; cbn [ReadFrameLoop]; keep.
Qed.

#[local] Hint Resolve stays_ReadFrame : keep.

Lemma stays_Request request : stays R (Request locals fuel client request).
Proof using Hpre Htime Hwrite Hdone Hread.
  assert (Hawait : forall n d last, stays R (AwaitAnswer locals n fuel client request d last)).
  { induction n as [|n IH]; intros d last; cbn [AwaitAnswer]; keep. }
  unfold Request. generalize ESP_ERR_TIMEOUT.
  induction (Z.to_nat _) as [|n IH]; intros last; cbn [RequestLoop]; keep.
Qed.

#[local] Hint Resolve stays_Request : keep.

Lemma stays_Command request : stays R (Command locals fuel client request).
Proof using Hpre Htime Hwrite Hdone Hread. unfold Command. keep. Qed.

Lemma stays_QueryOnce : stays R (QueryOnce locals fuel client).
Proof using Hpre Htime Hwrite Hdone Hread. unfold QueryOnce. keep. Qed.

#[local] Hint Resolve stays_Command stays_QueryOnce : keep.

Lemma stays_UartOta_Query info : stays R (UartOta_Query locals fuel (Some client) info).
Proof using Hpre Htime Hwrite Hdone Hread Hdelay.
  assert (Hloop : forall n d last, stays R (QueryLoop locals n fuel client d last)).
  { induction n as [|n IH]; intros d last; cbn [QueryLoop]; keep. }
  unfold UartOta_Query. keep.
Qed.

#[local] Hint Resolve stays_UartOta_Query : keep.

Lemma stays_WaitForFinal final_info : stays R (WaitForFinal locals fuel client artifact final_info).
Proof using Hpre Htime Hwrite Hdone Hread Hdelay.
  assert (Hloop : forall n d info, stays R (WaitLoop locals n fuel client artifact d info)).
  { induction n as [|n IH]; intros d info; cbn [WaitLoop]; keep. }
  unfold WaitForFinal. keep.
Qed.

#[local] Hint Resolve stays_WaitForFinal : keep.

Context (read : Z -> Z -> Env -> esp_err_t * list Z * Env).
Context (Hchunk : forall offset n e, R e (snd (read offset n e))).
Context (Hprogress : forall progress, cc_progress client = Some progress ->
  forall done total e, R e (progress done total e)).

Lemma stays_SendData start : stays R (SendData locals fuel client artifact read start).
Proof using Hpre Htime Hwrite Hdone Hread Hchunk Hprogress.
  assert (Hreport : forall a b, stays R (ReportProgress client a b)).
  { intros a b. unfold ReportProgress. destruct (cc_progress client) as [p|] eqn:E; keep. }
  unfold SendData. generalize (u16 (Z.land (start / UART_OTA_MAX_PAYLOAD) 0xFFFF)). revert start.
  generalize fuel at 1. intros n. induction n as [|n IH]; intros start sequence; cbn [SendDataLoop]; cbv zeta; keep.
Qed.

#[local] Hint Resolve stays_SendData : keep.

Lemma stays_TransferAndInstall resume info :
  stays R (TransferAndInstall locals fuel client artifact read resume info).
Proof using Hpre Htime Hwrite Hdone Hread Hdelay Hchunk Hprogress.
  unfold TransferAndInstall, TransferArtifact, OpenTransfer, StartTransfer, ResumeTransfer, FinishTransfer,
    InstallAndWait, Install. cbv zeta. keep.
Qed.

#[local] Hint Resolve stays_TransferAndInstall : keep.

Lemma stays_TransitionLoop transitions : forall target info,
  stays R (TransitionLoop locals transitions fuel client artifact read target info).
Proof using Hpre Htime Hwrite Hdone Hread Hdelay Hchunk Hprogress.
  induction transitions as [|n IH]; intros target info; cbn [TransitionLoop]; [keep|].
  unfold InstallAndWait, Install, AbortTransfer. keep.
Qed.
End client.

Lemma stays_TransferInstallAndWait
    (Hwrite : forall n bs e, R e (snd (uart_write_bytes n bs e)))
    (Hdone : forall n t e, R e (snd (uart_wait_tx_done n t e)))
    (Hread : forall n t e, R e (snd (uart_read_bytes n t e)))
    (Hdelay : forall t e, R e (vTaskDelay t e)) locals fuel client artifact info :
  (forall read offset n e, ua_read artifact = Some read -> R e (snd (read offset n e))) ->
  (forall progress done total e, cc_progress client = Some progress -> R e (progress done total e)) ->
  stays R (UartOta_TransferInstallAndWait locals fuel (Some client) (Some artifact) info).
Proof using Hpre Htime.
  intros Hchunk Hprogress. unfold UartOta_TransferInstallAndWait.
  destruct (ua_read artifact) as [read|] eqn:E; [|keep].
  assert (Hquery : stays R (UartOta_Query locals fuel (Some client) true)) by (by apply stays_UartOta_Query).
  assert (Hloop : forall n target, stays R (TransitionLoop locals n fuel client artifact read target info)).
  { intros. apply stays_TransitionLoop; try assumption; intros; by first [eapply Hchunk | apply Hprogress]. }
  cbv zeta. keep.
Qed.

Section download.
Context {PART : EspPartition IDF} {HTTP : EspHttp IDF}.
Context (Hpread : forall p off n e, R e (snd (esp_partition_read p off n e))).
Context (Hpwrite : forall p off bs e, R e (snd (esp_partition_write p off bs e))).
Context (Hperase : forall p off n e, R e (snd (esp_partition_erase_range p off n e))).
Context (Hinit : forall c e, R e (snd (esp_http_client_init c e))).
Context (Hmethod : forall c e, R e (snd (esp_http_client_set_method c e))).
Context (Hopen : forall c n e, R e (snd (esp_http_client_open c n e))).
Context (Hheaders : forall c e, R e (snd (esp_http_client_fetch_headers c e))).
Context (Hstatus : forall c e, R e (snd (esp_http_client_get_status_code c e))).
Context (Hchunked : forall c e, R e (snd (esp_http_client_is_chunked_response c e))).
Context (Hhread : forall c n e, R e (snd (esp_http_client_read c n e))).
Context (Hcomplete : forall c e, R e (snd (esp_http_client_is_complete_data_received c e))).
Context (Hclose : forall c e, R e (snd (esp_http_client_close c e))).
Context (Hcleanup : forall c e, R e (snd (esp_http_client_cleanup c e))).
Context (config : HttpsDownloadConfig_t).
Context (Hprogress : forall progress, hd_progress config = Some progress ->
  forall done total e, R e (progress done total e)).

#[local] Hint Resolve stays_BeginWrite stays_Write stays_Commit stays_Abort : keep.

Lemma stays_DownloadLoop client content_length : forall fuel buffer writer deadline total,
  stays R (DownloadLoop fuel config client content_length buffer writer deadline total).
Proof using Hpre Htime Hpwrite Hhread Hprogress.
  assert (Hreport : forall a b, stays R (match hd_progress config with
    | Some progress => lift (fun e => (tt, progress a b e)) | None => gret tt end)).
  { intros a b. destruct (hd_progress config) as [p|] eqn:E; keep. }
  induction fuel as [|fuel IH]; intros buffer writer deadline total; cbn [DownloadLoop];
    unfold HttpsDownload_DeadlineUs; cbv zeta; case_if; [apply stays_none|keep| |keep].
  apply stays_bind; [exact _|keep|]. intros [n bytes]. cbv zeta.
  do 3 (case_if; [keep|]).
  apply stays_bind; [exact _|keep|]. intros d. apply stays_bind; [exact _|by apply stays_Write|]. intros [st w].
  case_if; [keep|]. apply stays_bind; [exact _|apply Hreport|]. intros _. apply IH.
Qed.

Lemma stays_ToCache fuel buffer cache result : stays R (HttpsDownload_ToCache fuel buffer (Some config) cache result).
Proof using All.
  unfold HttpsDownload_ToCache, DownloadBody, StreamBody, DownloadCleanup, HttpsDownload_DeadlineUs.
  cbv zeta. keep; first [by apply stays_DownloadLoop | by apply stays_BeginWrite | by apply stays_Commit | by apply stays_Abort].
Qed.
End download.
End keeps.

Section manager.
Context {IDF : EspIdf} {PART : EspPartition IDF} {LAWS : PartitionLaws PART} {CK : EspClock IDF}.
Context {HTTP : EspHttp IDF} {HL : HttpLaws LAWS CK HTTP} {MQTT : EspMqtt IDF} {ML : MqttLaws HL MQTT}.
Context {MT : MqttTraffic PART HTTP MQTT}.
Implicit Types e : Env.

#[local] Existing Instance quiet_preorder.

(** [m] returns and leaves the partition and the download alone. *)
Definition calm {A} (m : G A) : Prop := forall e, yields m (fun _ e' => quiet e e') e.

Lemma calm_ret {A} (a : A) : calm (gret a).
Proof using. intros e. by apply yields_ret. Qed.

Lemma calm_bind {A B} (m : G A) (k : A -> G B) : calm m -> (forall a, calm (k a)) -> calm (gbind m k).
Proof using.
  intros Hm Hk e. eapply yields_bind; [apply Hm|]. intros a e1 H1. eapply yields_mono; [apply Hk|].
  intros b e2 H2. by transitivity e1.
Qed.

Lemma calm_lift {A} (f : Env -> A * Env) : (forall e, quiet e (snd (f e))) -> calm (lift f).
Proof using. intros H e. apply yields_quiet, H. Qed.

(** ** What is published *)

(** A status text that reports an update as done. *)
Definition confirms (m : Message) : Prop :=
  exists update_id target_version detail,
    msg_text m = status_json "confirmed" update_id target_version detail.

(** Whatever was published in between, nothing was reported as done. *)
Definition unconfirmed e e' : Prop :=
  exists ms, sent e' = sent e ++ ms /\ Forall (fun m => ~ confirms m) ms.

#[local] Instance unconfirmed_preorder : PreOrder unconfirmed.
Proof.
  split; [intros e; exists []; by rewrite app_nil_r|].
  intros e1 e2 e3 (ms1 & H1 & F1) (ms2 & H2 & F2). exists (ms1 ++ ms2).
  rewrite H2, H1, app_assoc. split; [done|]. by apply Forall_app.
Qed.

Lemma unconfirmed_same e e' : sent e' = sent e -> unconfirmed e e'.
Proof. intros H. exists []. by rewrite app_nil_r. Qed.

Lemma unconfirmed_one e e' m : sent e' = sent e ++ [m] -> ~ confirms m -> unconfirmed e e'.
Proof. intros H Hm. exists [m]. split; [done|]. by apply Forall_singleton. Qed.

(** The texts of the other states and of the progress. *)
Definition other_state (state : string) : Prop :=
  forall update_id target_version detail topic qos retain,
    ~ confirms (mkMessage topic (status_json state update_id target_version detail) qos retain).

Lemma other_states :
  other_state "failed" /\ other_state "accepted" /\ other_state "installing" /\ other_state "downloaded".
Proof.
  split_and!; intros i v d t q r (i' & v' & d' & H); cbn [msg_text] in H;
    unfold status_json, json_field, quoted, quote in H; cbn in H; discriminate H.
Qed.

Lemma progress_unconfirmed stage id current total percent topic qos retain :
  ~ confirms (mkMessage topic (progress_json stage id current total percent) qos retain).
Proof.
  intros (i & v & d & H). cbn [msg_text] in H.
  unfold status_json, progress_json, json_field, quoted, quote in H. cbn in H. discriminate H.
Qed.

Lemma substring_whole n s : (String.length s <= n)%nat -> String.substring 0 n s = s.
Proof.
  revert n. induction s as [|c s IH]; intros [|n] H; cbn in *; [done|done|lia|]. f_equal. apply IH. lia.
Qed.

Lemma snprintf_whole size text written payload :
  snprintf size text = (written, payload) -> (written <? 0) || (size <=? written) = false -> payload = text.
Proof. intros [= <- <-] H. apply substring_whole. lia. Qed.

Lemma stays_PublishStatus o state id v detail retain :
  other_state state -> stays unconfirmed (MqttOrchestrator_PublishStatus o (Some state) id v (Some detail) retain).
Proof using MT.
  intros Hs. unfold MqttOrchestrator_PublishStatus. destruct o as [o|]; [|apply stays_ret; exact _].
  destruct (snprintf _ _) as [written payload] eqn:Ep. case_if; [apply stays_ret; exact _|].
  apply (snprintf_whole _ _ _ _ Ep) in E as ->. unfold EnqueueJson. destruct (mp_client o); [|apply stays_ret; exact _].
  apply stays_bind; [exact _| |intros; apply stays_ret; exact _].
  apply stays_lift. intros e. by eapply unconfirmed_one; [apply mt_enqueue|].
Qed.

Lemma stays_PublishProgress o stage id current total :
  stays unconfirmed (MqttOrchestrator_PublishProgress o (Some stage) id current total).
Proof using MT.
  unfold MqttOrchestrator_PublishProgress. destruct o as [o|]; [|apply stays_ret; exact _].
  case_if; [apply stays_ret; exact _|]. cbv zeta. destruct (snprintf _ _) as [written payload] eqn:Ep.
  case_if; [apply stays_ret; exact _|]. apply (snprintf_whole _ _ _ _ Ep) in E0 as ->.
  destruct (mp_client o); [|apply stays_ret; exact _].
  apply stays_bind; [exact _| |intros; apply stays_ret; exact _].
  apply stays_lift. intros e. eapply unconfirmed_one; [apply mt_publish|apply progress_unconfirmed].
Qed.

Lemma ProgressReport_unconfirmed context current total e : unconfirmed e (ProgressReport context current total e).
Proof using MT.
  unfold ProgressReport. case_if; [reflexivity|]. cbv zeta. case_if; [|reflexivity].
  set (e1 := set_last_percent _ _ e). assert (H1 : unconfirmed e e1) by apply unconfirmed_same, mt_set_percent.
  destruct (MqttOrchestrator_PublishProgress _ _ _ _ _ e1) as [[st e2]|] eqn:Epub; [|exact H1].
  transitivity e1; [exact H1|]. by eapply stays_PublishProgress.
Qed.

(** A status that is waited for: at most the message itself is handed over, and
    with ESP_OK it is. *)
Lemma PublishStatusAndWait_sent fuel o state id v detail retain ms e st e' :
  MqttOrchestrator_PublishStatusAndWait fuel (Some o) (Some state) id v (Some detail) retain ms e = Some (st, e') ->
  let message := mkMessage (mp_status_topic o) (status_json state id v detail) 1 retain in
  sent e' = sent e ++ [message] \/ (sent e' = sent e /\ st <> ESP_OK).
Proof using MT.
  intros H message. unfold MqttOrchestrator_PublishStatusAndWait in H.
  destruct (mp_client o) as [client|]; [|injection H as <- <-; by right].
  case_if_in H; [injection H as <- <-; by right|]. clear E.
  destruct (snprintf _ _) as [written payload] eqn:Ep. case_if_in H; [injection H as <- <-; by right|].
  apply (snprintf_whole _ _ _ _ Ep) in E as ->. clear Ep. left.
  assert (Hack : forall n d i, stays (fun e e' => sent e' = sent e) (AckLoop n i d)).
  { assert (Hpre : PreOrder (fun e e' => sent e' = sent e)) by (split; [done|intros a b c ? ?; congruence]).
    induction n as [|n IH]; intros d i; cbn [AckLoop]; [by intros ? ? ?|].
    apply stays_bind; [exact Hpre|apply stays_lift, mt_ticks|intros now]. case_if; [by apply stays_ret|]. cbv zeta.
    apply stays_bind; [exact Hpre|apply stays_lift, mt_wait|intros bits].
    apply stays_bind; [exact Hpre|apply stays_lift, mt_get_last|intros last].
    case_if; [by apply stays_ret|]. case_if; [by apply stays_ret|]. apply IH. }
  unfold gbind, lift in H. pose proof (mt_clear MQTT_ORCH_PUBLISHED_BIT e) as H1.
  destruct (xEventGroupClearBits _ e) as [b e1]. pose proof (mt_set_last (-1) e1) as H2.
  pose proof (mt_publish client (mp_status_topic o) (status_json state id v detail) 1 retain (set_last_published (-1) e1)) as H3.
  destruct (esp_mqtt_client_publish _ _ _ _ _ _) as [i e2]. cbn [fst snd] in *.
  assert (Hsent : sent e2 = sent e ++ [message]) by (by rewrite H3, H2, H1).
  case_if_in H; [by injection H as <- <-|]. pose proof (mt_get_last e2) as H4.
  destruct (get_last_published e2) as [last e3]. cbn [snd] in H4.
  case_if_in H; [injection H as <- <-; congruence|]. pose proof (mt_ticks e3) as H5.
  destruct (xTaskGetTickCount e3) as [t e4]. cbn [snd] in H5. apply Hack in H. congruence.
Qed.

Lemma stays_PublishFailure fuel o command error detail :
  stays unconfirmed (PublishFailure fuel (Some o) command error detail).
Proof using MT.
  destruct other_states as (Hother & _). unfold PublishFailure. cbv zeta.
  apply stays_bind; [exact _| |intros; apply stays_ret; exact _].
  intros e st e' H. apply PublishStatusAndWait_sent in H as [H|[H _]]; [|by apply unconfirmed_same].
  eapply unconfirmed_one; [exact H|apply Hother].
Qed.

(** ** Publishing returns *)

Lemma calm_PublishStatus o state id v detail retain :
  calm (MqttOrchestrator_PublishStatus o state id v detail retain).
Proof using ML.
  unfold MqttOrchestrator_PublishStatus. destruct o as [o|], state, detail; try apply calm_ret.
  destruct (snprintf _ _). case_if; [apply calm_ret|]. unfold EnqueueJson.
  destruct (mp_client o); [|apply calm_ret]. apply calm_bind; [|intros; apply calm_ret].
  apply calm_lift. intros e. apply mq_enqueue.
Qed.

Lemma calm_PublishProgress o stage id current total :
  calm (MqttOrchestrator_PublishProgress o stage id current total).
Proof using ML.
  unfold MqttOrchestrator_PublishProgress. destruct o as [o|], stage; try apply calm_ret.
  case_if; [apply calm_ret|]. cbv zeta. destruct (snprintf _ _). case_if; [apply calm_ret|].
  destruct (mp_client o); [|apply calm_ret]. apply calm_bind; [|intros; apply calm_ret].
  apply calm_lift. intros e. apply mq_publish.
Qed.

Lemma yields_AckLoop message_id deadline : forall fuel e,
  (pubacks e < fuel)%nat -> yields (AckLoop fuel message_id deadline) (fun _ e' => quiet e e') e.
Proof using ML.
  induction fuel as [|fuel IH]; intros e Hf; [lia|]. cbn [AckLoop].
  eapply yields_bind; [apply yields_lift with (Q := fun _ e1 => quiet e e1 /\ (pubacks e1 <= pubacks e)%nat); apply mq_ticks|].
  intros now e1 [Hq1 Hp1]. case_if; [by apply yields_ret|]. cbv zeta.
  eapply yields_bind; [apply yields_lifts with (Q := fun bits e2 => quiet e1 e2 /\
    (Z.land bits MQTT_ORCH_PUBLISHED_BIT <> 0 -> (pubacks e2 < pubacks e1)%nat)); intros bits e2; apply mq_wait|].
  intros bits e2 [Hq2 Hp2].
  eapply yields_bind; [apply yields_lift with (Q := fun _ e3 => quiet e2 e3 /\ (pubacks e3 <= pubacks e2)%nat); apply mq_get_last|].
  intros last e3 [Hq3 Hp3]. assert (Hq : quiet e e3) by (transitivity e1; [done|by transitivity e2]).
  case_if; [by apply yields_ret|]. case_if; to_prop; [by apply yields_ret|]. specialize (Hp2 ltac:(assumption)).
  eapply yields_mono; [apply IH; lia|]. intros st e4 H4. by transitivity e3.
Qed.

(** Enough to see every acknowledgement of a full outbox. *)
Context (fuel : nat) (Houtbox : (outbox < fuel)%nat).

Lemma calm_PublishStatusAndWait o state id v detail retain ms :
  calm (MqttOrchestrator_PublishStatusAndWait fuel o state id v detail retain ms).
Proof using ML Houtbox.
  unfold MqttOrchestrator_PublishStatusAndWait. destruct o as [o|], state, detail; try apply calm_ret.
  destruct (mp_client o); [|apply calm_ret]. case_if; [apply calm_ret|]. destruct (snprintf _ _).
  case_if; [apply calm_ret|].
  apply calm_bind; [apply calm_lift; intros; apply mq_clear|intros _].
  apply calm_bind; [apply calm_lift; intros; apply mq_set_last|intros _].
  apply calm_bind; [apply calm_lift; intros; apply mq_publish|intros message_id]. case_if; [apply calm_ret|].
  apply calm_bind; [apply calm_lift; intros; apply mq_get_last|intros last]. case_if; [apply calm_ret|].
  apply calm_bind; [apply calm_lift; intros; apply mq_ticks|intros ticks].
  intros e. apply yields_AckLoop. pose proof (mq_outbox e). lia.
Qed.

Lemma calm_PublishFailure o command error detail : calm (PublishFailure fuel o command error detail).
Proof using ML Houtbox.
  apply calm_bind; [apply calm_PublishStatusAndWait|]. intros. apply calm_ret.
Qed.

Lemma yields_PublishFailure o command error detail e :
  yields (PublishFailure fuel o command error detail) (fun st e' => st = error /\ quiet e e') e.
Proof using ML Houtbox.
  eapply yields_bind; [apply calm_PublishStatusAndWait|]. intros st e1 H1. by apply yields_ret.
Qed.

Lemma ProgressReport_quiet context current total e : quiet e (ProgressReport context current total e).
Proof using ML.
  unfold ProgressReport. case_if; [done|]. cbv zeta. case_if; [|done].
  set (e1 := set_last_percent _ _ e). assert (H1 : quiet e e1) by apply mq_set_percent.
  destruct (calm_PublishProgress (gp_mqtt context) (Some (gp_stage context)) (gp_update_id context) current total e1)
    as (st & e2 & -> & H2). by transitivity e1.
Qed.

(** ** A command *)

Context (locals : ManagerLocals) (mqtt : MqttPublisher) (uart : UartOtaClient_t).
Context (config : GatewayConfig_t) (command : MqttOtaCommand_t) (test_ca : option string).
Context (Hlocals : locals_typed (ml_client locals)).
Context (Hbuffer : len (ml_buffer locals) = HTTPS_DOWNLOAD_BUFFER_SIZE /\ bytes_ok (ml_buffer locals)).
Context (Hids : is_u32 (mc_update_id command) /\ is_u32 (mc_target_version command)).
Context (Hhttps : is_u32 (gc_https_timeout_ms config)).
Context (Huart : fuel_covers fuel (uc_response_timeout_ms (cc_config uart))).
Context (Hfinal : fuel_covers fuel UART_OTA_FINAL_TIMEOUT_MS).
Context (Hbody : body_fuel (CommandDownload config mqtt command test_ca) fuel).

(** The node was seen running the target version, with nothing to do. *)
Definition runs_target (info : UartOtaHelloInfo_t) : Prop :=
  hi_application_version info = mc_target_version command /\ hi_update_state info = UART_OTA_UPDATE_IDLE.

(** The transfer of [image] ended with the node running the target version. *)
Definition install_confirmed (header : ArtifactCacheHeader_t) (image : list Z) : Prop :=
  exists client artifact info e1 e2,
    cc_config client = cc_config uart /\ exports artifact header image /\
    UartOta_TransferInstallAndWait (ml_client locals) fuel (Some client) (Some artifact)
      (Some (ml_final_info locals)) e1 = Some ((ESP_OK, Some info), e2) /\ runs_target info.

(** What was published since [e], when the call ends with [status]: with ESP_OK a
    retained status of the command is the last message and reports it as done, and
    any report that something is done has the [evidence]. *)
Definition outcome (evidence : Prop) e (status : esp_err_t) e' : Prop :=
  exists messages, sent e' = sent e ++ messages /\
    (status = ESP_OK -> evidence /\ exists detail,
       last messages = Some (mkMessage (mp_status_topic mqtt)
         (status_json "confirmed" (mc_update_id command) (mc_target_version command) detail) 1 true)) /\
    (Exists confirms messages -> evidence).

Lemma outcome_failed evidence e status e' :
  unconfirmed e e' -> status <> ESP_OK -> outcome evidence e status e'.
Proof using.
  intros (ms & H & Hms) Hst. exists ms. split; [exact H|]. split; [intros Hs; destruct (Hst Hs)|].
  intros Hex. exfalso. apply Exists_exists in Hex as (m & Hm & Hc). rewrite Forall_forall in Hms. by apply (Hms m).
Qed.

Lemma outcome_after evidence e e1 status e' :
  unconfirmed e e1 -> outcome evidence e1 status e' -> outcome evidence e status e'.
Proof using.
  intros (ms & H & Hms) (ms' & H' & Hok & Hex). exists (ms ++ ms').
  split; [by rewrite H', H, app_assoc|]. split.
  - intros Hst. destruct (Hok Hst) as (He & detail & Hl). split; [exact He|]. exists detail.
    by rewrite last_app, Hl.
  - intros Hc. apply Exists_app in Hc as [Hc|Hc]; [|by apply Hex]. exfalso.
    apply Exists_exists in Hc as (m & Hm & Hc). rewrite Forall_forall in Hms. by apply (Hms m).
Qed.

Lemma outcome_evidence (P Q : Prop) e status e' : (P -> Q) -> outcome P e status e' -> outcome Q e status e'.
Proof using.
  intros HPQ (ms & H & Hok & Hex). exists ms. split; [exact H|]. split; [|auto].
  intros Hst. destruct (Hok Hst) as [HP Hl]. auto.
Qed.

(** The two ends of a command. *)
Lemma yields_confirmed (evidence : Prop) detail e :
  evidence ->
  yields (MqttOrchestrator_PublishStatusAndWait fuel (Some mqtt) (Some "confirmed"%string) (mc_update_id command)
    (mc_target_version command) (Some detail) true 5000) (fun st e' => quiet e e' /\ outcome evidence e st e') e.
Proof using ML MT Houtbox.
  intros He. eapply yields_mono; [apply yields_run, calm_PublishStatusAndWait|].
  intros st e' [Hrun Hq]. split; [exact Hq|]. apply PublishStatusAndWait_sent in Hrun as [H|[H Hst]].
  - eexists. split; [exact H|]. split; [|auto]. intros _. split; [exact He|]. by exists detail.
  - exists []. rewrite app_nil_r. split; [exact H|]. split; [by intros Hs|]. by intros Hc%Exists_nil.
Qed.

Lemma yields_failed (evidence : Prop) status detail e0 e :
  unconfirmed e0 e -> status <> ESP_OK ->
  yields (PublishFailure fuel (Some mqtt) (Some command) status detail)
    (fun st e' => st = status /\ quiet e e' /\ outcome evidence e0 st e') e.
Proof using ML MT Houtbox.
  intros He Hst. eapply yields_mono.
  { apply (yields_stays unconfirmed); [apply stays_PublishFailure|apply yields_PublishFailure]. }
  intros st e' (Hu & -> & Hq). split; [done|]. split; [exact Hq|]. apply outcome_failed; [|exact Hst]. by transitivity e.
Qed.

Lemma yields_status state id v detail retain e :
  other_state state ->
  yields (MqttOrchestrator_PublishStatus (Some mqtt) (Some state) id v (Some detail) retain)
    (fun _ e' => unconfirmed e e' /\ quiet e e') e.
Proof using ML MT.
  intros Hs. apply (yields_stays unconfirmed); [by apply stays_PublishStatus|apply calm_PublishStatus].
Qed.

Lemma yields_percent stage z e :
  yields (lift (fun e => (tt, set_last_percent stage z e))) (fun _ e' => unconfirmed e e' /\ quiet e e') e.
Proof using ML MT. apply yields_lift. split; [apply unconfirmed_same, mt_set_percent|apply mq_set_percent]. Qed.

Lemma returns_yields {A} (m : G A) Q e : returns m Q e -> yields m (fun a e' => clock e <= clock e' /\ Q a (clock e')) e.
Proof using. intros (a & e' & H). by exists a, e'. Qed.

(** The transfer of an artifact that exports [image], from the client to the
    node: it publishes progress only. *)
Lemma yields_Transfer client artifact header image e :
  cc_config client = cc_config uart ->
  cc_progress client = Some (UartProgress (mkGatewayProgressContext (Some mqtt) (mc_update_id command) "uart")) ->
  exports artifact header image -> len image <= STM32_INCOMING_ARTIFACT_MAX_SIZE ->
  yields (UartOta_TransferInstallAndWait (ml_client locals) fuel (Some client) (Some artifact)
    (Some (ml_final_info locals)))
    (fun r e' => UartOta_TransferInstallAndWait (ml_client locals) fuel (Some client) (Some artifact)
         (Some (ml_final_info locals)) e = Some (r, e') /\
       unconfirmed e e' /\ clock e <= clock e' /\ target_seen artifact (Some (ml_final_info locals)) r) e.
Proof using ML MT Houtbox Hlocals Hhttps Huart Hfinal Hbody.
  intros Hcfg Hprog Hx Hsize.
  assert (Hmax : len image < 2 ^ 32 /\ len image <= Z.of_nat fuel).
  { pose proof Hbody as Hb. change (128 * 1024 * (gc_https_timeout_ms config * 1000 + 1) +
      gc_https_timeout_ms config * 1000 < Z.of_nat fuel) in Hb.
    unfold STM32_INCOMING_ARTIFACT_MAX_SIZE, is_u32 in *. lia. }
  apply yields_run, (yields_stays unconfirmed).
  - apply stays_TransferInstallAndWait; try exact _;
      first [intros; by apply unconfirmed_same, mt_time | intros; by apply unconfirmed_same, mt_uart_write
        | intros; by apply unconfirmed_same, mt_uart_done | intros; by apply unconfirmed_same, mt_uart_read
        | intros; by apply unconfirmed_same, mt_delay | idtac].
    + intros read offset n e1 Hread. rewrite (ex_read _ _ _ Hx) in Hread. injection Hread as <-.
      apply ArtifactCache_Read_stays; [exact _|]. intros. apply unconfirmed_same, mt_partition_read.
    + intros progress done total e1 Hp. rewrite Hprog in Hp. injection Hp as <-. apply ProgressReport_unconfirmed.
  - apply (returns_yields _ (fun r _ => target_seen artifact (Some (ml_final_info locals)) r)),
      returns_TransferInstallAndWait; try rewrite Hcfg; try assumption.
    + rewrite (ex_size _ _ _ Hx). unfold is_u32. lia.
    + rewrite (ex_size _ _ _ Hx). lia.
    + intros read offset n e1 Hread. rewrite (ex_read _ _ _ Hx) in Hread. injection Hread as <-.
      apply (ArtifactCache_Read_stays aside (Hpre := aside_preorder) aside_read).
    + intros progress sent total e1 Hp. rewrite Hprog in Hp. injection Hp as <-.
      apply ProgressReport_quiet.
Qed.

Lemma yields_InstallCached header image e :
  published e = Some (header, image) -> len image <= STM32_INCOMING_ARTIFACT_MAX_SIZE ->
  yields (InstallCached locals fuel mqtt uart command (Some (mkArtifactCache FindPartition header)))
    (fun r e' => outcome (install_confirmed header image) e (fst r) e') e.
Proof using ML MT Houtbox Hlocals Hhttps Huart Hfinal Hbody.
  intros Hpub Hsize. unfold InstallCached. destruct other_states as (_ & _ & Hins & _).
  assert (Hfail : forall st detail client e1, unconfirmed e e1 -> st <> ESP_OK ->
    yields (gbind (PublishFailure fuel (Some mqtt) (Some command) st detail) (fun st => gret (st, client)))
      (fun (r : esp_err_t * UartOtaClient_t) e' => outcome (install_confirmed header image) e (fst r) e') e1).
  { intros st detail client e1 Hu Hst. eapply yields_bind; [by apply yields_failed|].
    intros st2 e2 (-> & _ & Ho). by apply yields_ret. }
  eapply yields_bind.
  { apply (yields_stays unconfirmed).
    - apply stays_AsUartArtifact; [exact _|]. intros. apply unconfirmed_same, mt_partition_read.
    - by apply (yields_AsUartArtifact (ml_artifact locals) header image). }
  intros [st artifact] e1 [Hu1 [_ Hok]]. cbn [fst snd] in Hok. apply yields_check; intros Hst.
  { by apply Hfail. }
  destruct (Hok Hst) as (a & -> & Hx).
  eapply yields_bind; [apply yields_percent|]. intros _ e2 [Hu2 _]. cbv zeta.
  eapply yields_bind; [by apply yields_status|]. intros _ e3 [Hu3 _].
  eapply yields_bind; [by apply (yields_Transfer _ a header image)|].
  intros [st4 info] e4 (Hrun & Hu4 & _ & Hseen).
  assert (Hu : unconfirmed e e4) by (transitivity e1; [done|transitivity e2; [done|by transitivity e3]]).
  destruct (Hseen (ml_final_info locals) eq_refl) as (final_info & Hi & _). cbn [fst snd] in Hi. subst info.
  cbn [default from_option]. apply yields_check; intros Hst4; [by apply Hfail|].
  change (default (ml_final_info locals) (Some final_info)) with final_info. case_if; [by apply Hfail|].
  to_prop. eapply yields_bind; [apply (yields_confirmed (install_confirmed header image))|].
  - rewrite Hst4 in Hrun. eexists _, a, final_info, e3, e4. split; [|split; [exact Hx|split; [exact Hrun|by split]]].
    reflexivity.
  - intros st5 e5 [_ Ho]. apply yields_ret. by eapply outcome_after.
Qed.

(** The image the command describes was received over HTTPS from an
    authenticated server and published under the ids of the command. *)
Definition fetched (header : ArtifactCacheHeader_t) (image : list Z) : Prop :=
  MqttOrchestration_IsHttpsUrl (Some (mc_url command)) = true /\
  (test_ca <> None \/ gc_use_test_ca config = false) /\
  len image = mc_image_size command /\ crc_of image = mc_image_crc32 command /\
  ch_update_id header = mc_update_id command /\ ch_target_version header = mc_target_version command /\
  exists before after, received after = received before ++ image /\ published after = Some (header, image).

(** What it takes to report the command as done: the node was seen running the
    target version at once, or after the transfer of what the command describes. *)
Definition evidence e : Prop :=
  (exists info e1, UartOta_Query (ml_client locals) fuel (Some uart) true e = Some (inr info, e1) /\
     runs_target info) \/
  (exists header image, fetched header image /\ install_confirmed header image).

(** The download of the command publishes progress only. *)
Lemma yields_Download e :
  let download := CommandDownload config mqtt command test_ca in
  let result := mkHttpsDownloadResult 0 0 0 0 in
  yields (HttpsDownload_ToCache fuel (ml_buffer locals) (Some download) (Some (ml_cache locals)) (Some result))
    (fun r e' => unconfirmed e e' /\ download_outcome download (ml_cache locals) (Some result) e r e') e.
Proof using All.
  cbv zeta. apply (yields_stays unconfirmed).
  - apply stays_ToCache; try exact _; intros; first [by apply unconfirmed_same, mt_time
      | by apply unconfirmed_same, mt_partition_read | by apply unconfirmed_same, mt_partition_write
      | by apply unconfirmed_same, mt_partition_erase | by apply unconfirmed_same, mt_http_init
      | by apply unconfirmed_same, mt_http_set_method | by apply unconfirmed_same, mt_http_open
      | by apply unconfirmed_same, mt_http_headers | by apply unconfirmed_same, mt_http_status
      | by apply unconfirmed_same, mt_http_chunked | by apply unconfirmed_same, mt_http_read
      | by apply unconfirmed_same, mt_http_complete | by apply unconfirmed_same, mt_http_close
      | by apply unconfirmed_same, mt_http_cleanup | idtac].
    injection H as <-. apply ProgressReport_unconfirmed.
  - apply (yields_ToCache (CommandDownload config mqtt command test_ca)); try apply Hbuffer; try assumption.
    + intros progress [= <-] done total e1. apply ProgressReport_quiet.
    + by vm_compute.
Qed.

(** A command, with everything it publishes. *)
Lemma yields_ProcessCommand e :
  yields (ProcessCommand locals fuel (Some config) (Some mqtt) (Some uart) (Some command) test_ca)
    (fun r e' => outcome (evidence e) e (fst r) e') e.
Proof using All.
  unfold ProcessCommand. cbv zeta. destruct other_states as (_ & Hacc & _ & Hdown).
  assert (Hfail : forall st detail e1, unconfirmed e e1 -> st <> ESP_OK ->
    yields (gbind (PublishFailure fuel (Some mqtt) (Some command) st detail) (fun st => gret (st, Some uart)))
      (fun (r : esp_err_t * option UartOtaClient_t) e' => outcome (evidence e) e (fst r) e') e1).
  { intros st detail e1 Hu Hst. eapply yields_bind; [by apply yields_failed|].
    intros st2 e2 (-> & _ & Ho). by apply yields_ret. }
  eapply yields_bind.
  { apply yields_run, (yields_stays unconfirmed).
    - apply stays_UartOta_Query; try exact _; intros; apply unconfirmed_same;
        first [apply mt_time | apply mt_uart_write | apply mt_uart_done | apply mt_uart_read | apply mt_delay].
    - apply returns_yields. apply (returns_UartOta_Query (ml_client locals) Hlocals fuel uart); try assumption.
      by intros x [= ->]. }
  intros [st|info] e1 (Hrun & Hu1 & _ & Hno); [by apply Hfail|]. case_if.
  { eapply yields_bind; [apply (yields_confirmed (evidence e))|].
    - left. exists info, e1. split; [exact Hrun|]. to_prop. by split.
    - intros st e2 [_ Ho]. apply yields_ret. by eapply outcome_after. }
  eapply yields_bind; [by apply yields_status|]. intros st e2 [Hu2 _].
  assert (Hu : unconfirmed e e2) by (by transitivity e1). clear Hu1 Hu2.
  apply yields_check; intros Hst; [apply yields_ret; by apply outcome_failed|].
  eapply yields_bind; [apply yields_percent|]. intros _ e3 [Hu3 _].
  eapply yields_bind; [apply yields_Download|]. intros [[st4 cache] result] e4 [Hu4 [Hok Hbad]].
  assert (Hu' : unconfirmed e e4) by (transitivity e2; [done|by transitivity e3]). clear Hu Hu3 Hu4.
  apply yields_check; intros Hst4; [by apply Hfail|].
  destruct (Hok Hst4) as (Hurl & Hauth & image & Hrec & [(header & Hpub & -> & Hid & Hv) Hsize ->]).
  cbn [default from_option id hr_downloaded_size hr_image_crc32].
  change (default (mkHttpsDownloadResult 0 0 0 0) (Some ?r)) with r. cbn [hr_downloaded_size hr_image_crc32].
  case_if; [by apply Hfail|]. case_if; [by apply Hfail|]. to_prop.
  eapply yields_bind; [by apply yields_status|]. intros _ e5 [Hu5 [Hq5 _]].
  eapply yields_bind.
  { apply (yields_InstallCached header image); [by rewrite (published_unchanged e4 e5)|apply Hsize]. }
  intros [st6 u6] e6 Ho. apply yields_ret. eapply outcome_after; [by transitivity e4|].
  eapply outcome_evidence; [|exact Ho]. intros Hins. right. exists header, image. split; [|exact Hins].
  split; [exact Hurl|]. split; [|split_and!; [done|done|done|done|by exists e3, e4]].
  destruct Hauth as [Ha|Ha]; [left; exact Ha|right]. by apply negb_true_iff.
Qed.

(** C23: An update is reported as done only when it is.  Over a UART, an HTTP
    client, a partition and an MQTT client that behave as documented,
    ProcessCommand returns, and adds some messages to those handed to the MQTT
    client.  If the status is ESP_OK, or if any of these messages is a status
    text with state "confirmed", then either the first HELLO of the node showed
    the target version in IDLE, or an artifact of exactly the size and CRC in
    the command was received from an authenticated HTTPS server and published in
    the cache under its ids, this artifact is what the UART client was given to
    transfer, and the client then saw the node running the target version in
    IDLE.  With ESP_OK the last message is the retained status "confirmed" of
    this command on the status topic. *)
Theorem ProcessCommand_confirms e :
  let done :=
    (exists info e1, UartOta_Query (ml_client locals) fuel (Some uart) true e = Some (inr info, e1) /\
       runs_target info) \/
    (exists header image, fetched header image /\ install_confirmed header image) in
  exists status uart' e' messages,
    ProcessCommand locals fuel (Some config) (Some mqtt) (Some uart) (Some command) test_ca e =
      Some ((status, uart'), e') /\
    sent e' = sent e ++ messages /\
    (* success: done, and the last message says so *)
    (status = ESP_OK -> done /\ exists detail,
       last messages = Some (mkMessage (mp_status_topic mqtt)
         (status_json "confirmed" (mc_update_id command) (mc_target_version command) detail) 1 true)) /\
    (* no message says so otherwise *)
    (Exists confirms messages -> done).
Proof using All.
  intros finished. destruct (yields_ProcessCommand e) as ([st u] & e' & E & ms & H).
  by exists st, u, e', ms.
Qed.
End manager.
