(* ===== verification/GatewayCache.v ===== *)
(** * GatewayCache: the cached artifact on the link

    The transfer of [EndToEnd] takes any artifact that is an image.  Here the
    partition is in the gateway of that environment, and what
    ArtifactCache_AsUartArtifact makes of it is such an artifact. *)

From S2P Require Import Prelude Bytes Crc32 Device GatewayProtocol GatewayClient.
From S2P Require Import GatewayLink EndToEnd.
From S2P Require Import SecureContainerMeta ArtifactCache ArtifactTheorems.

(** What the parser reports fits the fields of a START request. *)
Lemma SecureContainerMeta_Parse_typed header n size m :
  bytes_ok header -> SecureContainerMeta_Parse (Some header) n size true = Some m ->
  is_byte (sm_image_type m) /\ is_u32 (sm_base_version m).
Proof.
  intros Hok. unfold SecureContainerMeta_Parse. cbv zeta.
  repeat (match goal with |- (if ?b then None else _) = _ -> _ => destruct b; [discriminate|] end).
  intros [= <-]. split; [apply u8_range|]. by apply GetU32Le_range, Forall_drop.
Qed.

Lemma describes_typed {IDF : EspIdf} (artifact : UartOtaArtifact_t) image :
  bytes_ok image -> describes artifact image ->
  is_byte (ua_artifact_type artifact) /\ is_u32 (ua_base_version artifact) /\
  is_u32 (ua_container_header_size artifact).
Proof.
  intros Hok. unfold describes. cbv zeta. case_if.
  - intros (m & Hm & -> & -> & _ & ->). apply SecureContainerMeta_Parse_typed in Hm as [H1 H2]; [|by apply Forall_take].
    split; [exact H1|]. split; [exact H2|by vm_compute].
  - intros (-> & -> & ->). by vm_compute.
Qed.

Section cached.
Context {HW : Hw} (link : Link) (locals : ClientLocals).

#[local] Instance cached_idf : EspIdf := LinkIdf link (cl_raw locals).

(** A partition nobody writes during the transfer: what it holds, and whether
    the read at each step succeeds. *)
Context (flash : Z -> Z) (partition : option esp_partition_t) (read_status : nat -> esp_err_t).
Context (Hsize : forall p, partition = Some p -> ARTIFACT_CACHE_DATA_OFFSET <= pt_size p < 2 ^ 32).

#[local] Instance LinkPartition : EspPartition cached_idf := {
  esp_partition_find_first := partition;
  esp_partition_read p off n e :=
    (read_status (ne_step e), (fun a => u8 (flash a)) <$> seqZ off n, Tick link (cl_raw locals) e);
  esp_partition_write p off bs e := (ESP_FAIL, Tick link (cl_raw locals) e);
  esp_partition_erase_range p off n e := (ESP_FAIL, Tick link (cl_raw locals) e)
}.

#[local] Instance LinkPartitionLaws : PartitionLaws LinkPartition.
Proof using Hsize.
  refine {| stored (_ : @Env cached_idf) a := u8 (flash a) |}; try done.
  intros _ a. apply u8_range.
Defined.

(** The callback reads for a while, and reads the image. *)
Lemma callback_reads e0 header image offset n e status bytes e' :
  published e0 = Some (header, image) ->
  ArtifactCache_Read (Some (mkArtifactCache FindPartition header)) offset true n e = (status, bytes, e') ->
  (exists k, e' = Nat.iter k (Tick link (cl_raw locals)) e) /\
  (status = ESP_OK -> 0 <= offset -> 0 <= n -> bytes = slice offset n image).
Proof using All.
  intros Hpub Hread. split.
  - revert Hread. unfold ArtifactCache_Read. cbn [negb]. case_if; [by intros [= _ _ <-]; exists 0%nat|].
    cbn [ac_partition]. destruct FindPartition; [intros [= _ _ <-]; by exists 1%nat|intros [= _ _ <-]; by exists 0%nat].
  - intros Hst Ho Hn.
    destruct (yields_Read e0 header image offset n e Hpub) as ([st bs] & e1 & E & _ & H); [by intros a|done|done|].
    unfold lift in E. rewrite Hread in E. injection E as <- <- <-. by destruct (H Hst).
Qed.

(** C25: The cache and the transfer fit together.  When a partition publishes an
    artifact and ArtifactCache_AsUartArtifact succeeds, what it returns is the
    published image in the sense of the transfer: its id, size and CRC, fields
    that fit a START request, and a callback that returns the bytes of the image
    for every range it succeeds on. *)
Theorem ArtifactCache_AsUartArtifact_is_image header image a0 e artifact e' :
  published e = Some (header, image) ->
  ArtifactCache_AsUartArtifact (Some (mkArtifactCache FindPartition header)) (Some a0) e =
    Some (ESP_OK, Some artifact, e') ->
  exists read, ua_read artifact = Some read /\
    artifact_is_image link locals (ch_update_id header) (crc_of image) image artifact read.
Proof using All.
  intros Hpub HE. destruct (yields_AsUartArtifact a0 header image e Hpub) as ([st c] & e1 & E & _ & H).
  pose proof (eq_trans (eq_sym HE) E) as [= <- <- <-]. destruct (H eq_refl) as (a & [= <-] & Hx). clear H.
  destruct (published_image _ _ _ Hpub) as (_ & _ & _ & Hr & Himg & Ht).
  assert (Hok : bytes_ok image) by (rewrite <- Himg; apply region_ok).
  destruct (describes_typed artifact image Hok (ex_describes _ _ _ Hx)) as (Hb1 & Hb2 & Hb3).
  unfold header_typed, ArtifactCacheHeader_fields in Ht. rewrite !Forall_cons in Ht.
  eexists. split; [apply (ex_read _ _ _ Hx)|]. split.
  - apply (ex_update_id _ _ _ Hx).
  - apply (ex_size _ _ _ Hx).
  - apply (ex_crc _ _ _ Hx).
  - exact Hok.
  - apply Ht.
  - exact Hr.
  - by apply crc_of_range.
  - exact Hb1.
  - exact Hb2.
  - rewrite (ex_target_version _ _ _ Hx). apply Ht.
  - exact Hb3.
  - intros offset n e2 status bytes e3 H. by apply (callback_reads e header image).
Qed.
End cached.
