(* ===== verification/GatewayScenarios.v ===== *)
(** * GatewayScenarios: the theorems on the gateway at concrete inputs

    A UART with a fixed sequence of bytes behind it and a clock that ticks at
    every call, and a link to a node with an erased chip: the hypotheses of the
    theorems on the gateway's protocol and client can be met, and a transfer
    over the link succeeds. *)

From S2P Require Import Prelude Bytes MemoryMap Crc32 Device Sim Logic TrialConfirmation.
From S2P Require Import Buffer Cobs OtaPacket OtaParser OtaLink OtaResponse OtaReceiver.
From S2P Require Import Reception OtaAgent.
From S2P Require Import Delivery GatewayProtocol GatewayClient GatewayRuns GatewayLink.
From S2P Require Import GatewayTransfer EndToEnd.

(** ** A packet of each side *)

Definition query_packet : UartOtaPacket_t := InitPacket UART_OTA_CMD_QUERY 0 0 7.

Definition hello_info : OtaResponseInfo_t := mkOtaResponseInfo 0 0 0 0 0 0 0 31.

Definition gateway_raw : list Z := replicate 276 0.
Definition gateway_frame : list Z := replicate 321 0.

Lemma query_packet_typed : up_typed query_packet.
Proof. split; try by vm_compute. by apply Forall_replicate. Qed.

Lemma gateway_raw_ok : bytes_ok gateway_raw.
Proof. by apply Forall_replicate. Qed.

Lemma zero_packet_wf : packet_wf (node_packet query_packet).
Proof. apply node_packet_wf; [exact query_packet_typed|by vm_compute]. Qed.

Definition fresh_parser : OtaParser_t := mkOtaParser (replicate 320 0) 0 0.

Lemma fresh_parser_wf : parser_wf fresh_parser.
Proof.
  split; [done|by apply Forall_replicate|by vm_compute|by left].
Qed.

Lemma UartOta_frames_interoperate_witness :
  up_typed query_packet /\ parser_wf fresh_parser /\
  (exists bytes, SendPacket gateway_raw gateway_frame (node_packet query_packet) = Some (bytes ++ [0]) /\
     UartOta_DecodeFrame gateway_raw (Some (bytes ++ [0])) (len (bytes ++ [0])) =
       Some (gateway_packet (node_packet query_packet))) /\
  (exists frame' n parser' packet',
     UartOta_EncodeFrame gateway_raw (Some query_packet) (Some gateway_frame) 321 = (frame', Some n) /\
     PushBytes gateway_raw fresh_parser (take (Z.to_nat n) frame') zero_packet =
       (parser', packet', replicate (pred (Z.to_nat n)) OTA_PARSER_EVENT_NONE ++ [OTA_PARSER_EVENT_PACKET]) /\
     same_packet (node_packet query_packet) packet') /\
  UartOta_ParseAck (gateway_packet (BuildStatus zero_packet 0 hello_info zero_packet)) =
    Some (ack_of zero_packet 0 hello_info).
Proof.
  split; [exact query_packet_typed|]. split; [exact fresh_parser_wf|].
  destruct (UartOta_frames_interoperate query_packet (node_packet query_packet) gateway_raw gateway_frame
    gateway_raw gateway_frame fresh_parser zero_packet zero_packet 0 hello_info)
    as ((frame' & n & p & q & H1 & H2 & _ & _ & H3) & (bytes & H4 & _ & H5) & H6).
  - exact query_packet_typed.
  - by vm_compute.
  - exact zero_packet_wf.
  - exact gateway_raw_ok.
  - reflexivity.
  - reflexivity.
  - exact gateway_raw_ok.
  - reflexivity.
  - reflexivity.
  - exact fresh_parser_wf.
  - split; reflexivity.
  - exact zero_packet_typed.
  - exact zero_packet_typed.
  - split; by vm_compute.
  - split; [exists bytes; split; [exact H4|exact H5]|].
    split; [|exact H6]. exists frame', n, p, q. split; [exact H1|]. split; [exact H2|exact H3].
Defined.

(** ** A UART with given bytes behind it *)

(** The time in microseconds and the bytes to come. *)
#[local] Instance ScriptIdf : EspIdf := {|
  Env := Z * list Z;
  esp_timer_get_time := fun '(t, bs) => (t, (t + 1, bs));
  uart_write_bytes := fun _ frame '(t, bs) => (len frame, (t + 1, bs));
  uart_wait_tx_done := fun _ _ '(t, bs) => (ESP_OK, (t + 1, bs));
  uart_read_bytes := fun _ _ '(t, bs) =>
    match bs with
    | [] => (0, 0, (t + 1, bs))
    | b :: bs => (1, u8 b, (t + 1, bs))
    end;
  vTaskDelay := fun ticks '(t, bs) => (t + 1, bs);
  pdMS_TO_TICKS := fun ms => ms;
  uart_param_config := fun _ _ e => (ESP_OK, e);
  uart_set_pin := fun _ _ _ e => (ESP_OK, e);
  uart_is_driver_installed := fun _ e => (true, e);
  uart_driver_install := fun _ _ e => (ESP_OK, e);
  uart_flush_input := fun _ '(t, _) => (t, [])
|}.

#[local] Instance ScriptClock : EspClock ScriptIdf.
Proof.
  unshelve refine (Build_EspClock ScriptIdf (fun e : @Env ScriptIdf => fst (e : Z * list Z)) _ _ _ _ _ _).
  all: intros; destruct e as [now pending]; cbn; try lia.
  - destruct pending; cbn; lia.
  - destruct pending as [|b pending]; cbn [fst snd]; [by vm_compute|apply u8_range].
Defined.

Definition script_locals : ClientLocals := mkClientLocals gateway_raw gateway_frame (replicate 320 0).

Lemma script_locals_typed : locals_typed script_locals.
Proof. split; first [reflexivity | by apply Forall_replicate]. Qed.

Definition script_client : UartOtaClient_t := mkUartOtaClient (mkUartOtaConfig 1 17 16 115200 500 3) None.

(** A full image of 1000 bytes of version [version]. *)
Definition script_artifact (version : Z) : UartOtaArtifact_t :=
  mkUartOtaArtifact 7 0 version 1000 0 140 1 (Some (fun _ n e => (ESP_OK, replicate (Z.to_nat n) 0xFF, e))).

Definition no_hello : UartOtaHelloInfo_t := mkUartOtaHelloInfo 0 0 0 0 0 0 0 0 0 0 0.

(** Two minutes in microseconds. *)
Lemma two_minutes : exists fuel, Z.of_nat fuel = 120000001.
Proof. exists (Z.to_nat 120000001). apply Z2Nat.id. lia. Qed.

Lemma UartOta_TransferInstallAndWait_returns_witness :
  exists fuel status info e',
    Z.of_nat fuel = 120000001 /\
    UartOta_TransferInstallAndWait script_locals fuel (Some script_client)
      (Some (script_artifact 1)) (Some no_hello) (0, [1; 2; 3; 0]) = Some ((status, Some info), e') /\
    (status = ESP_OK -> hi_application_version info = 1).
Proof.
  destruct two_minutes as [fuel Hfuel].
  destruct (UartOta_TransferInstallAndWait_returns script_locals script_locals_typed fuel
    script_client (script_artifact 1) no_hello (0, [1; 2; 3; 0])) as (status & info & e' & H & _ & Hok).
  - split; [cbn; lia|]. rewrite Hfuel. by vm_compute.
  - split; [by vm_compute|]. rewrite Hfuel. by vm_compute.
  - by vm_compute.
  - rewrite Hfuel. cbn. lia.
  - intros read offset n e [= <-]. cbn. lia.
  - by intros progress sent total e [=].
  - exists fuel, status, info, e'. split; [exact Hfuel|]. split; [exact H|].
    intros Hst. exact (proj1 (Hok Hst)).
Defined.

(** With the answer of a node that already runs version 1 behind the UART, the
    client reports ESP_OK from the first query. *)
Example already_target :
  match SendPacket gateway_raw gateway_frame
          (OtaResponse_BuildHelloQuery (node_packet (InitPacket UART_OTA_CMD_QUERY 0 0 0)) hello_info
             zero_packet) with
  | None => False
  | Some answer =>
      fst <$> UartOta_TransferInstallAndWait script_locals 200 (Some script_client)
        (Some (script_artifact 1)) (Some no_hello) (0, answer) =
      Some (ESP_OK, Some (hello_of hello_info))
  end.
Proof. vm_compute. reflexivity. Qed.

(** A late copy of the answer to START has the sequence number of the first DATA
    request: the client takes it for the answer, misses the offset, and gives
    the transfer up. *)
Definition receiving_info : OtaResponseInfo_t := mkOtaResponseInfo 1 0 7 0 0 1000 0 31.

Definition start_answer : option (list Z) :=
  SendPacket gateway_raw gateway_frame
    (BuildStatus (node_packet (InitPacket UART_OTA_CMD_START 7 0 0)) OTA_STATUS_OK receiving_info zero_packet).

Example duplicate_start_answer :
  match start_answer with
  | None => False
  | Some answer =>
      fst <$> TransferArtifact script_locals 200 script_client (script_artifact 1)
        (fun _ n e => (ESP_OK, replicate (Z.to_nat n) 0xFF, e)) false (0, answer ++ answer) =
      Some ESP_ERR_INVALID_RESPONSE
  end.
Proof. vm_compute. reflexivity. Qed.

(** ** A link to a node *)

(** 205 bytes, the least START accepts. *)
Definition small_image : list Z := (fun i => u8 (i * 7)) <$> seqZ 0 205.
Definition small_crc : Z := 970358115.

Definition node_locals : Locals :=
  mkLocals zero_packet zero_packet gateway_raw gateway_raw gateway_frame.

Lemma node_locals_ok : locals_ok node_locals.
Proof. split; first [exact zero_packet_typed | exact gateway_raw_ok | reflexivity]. Qed.

(** The link hands over the newest frame of each side at the calls in which the
    client writes: the request at once, the answer right behind it. *)
Definition good_link : Link :=
  let newest n frames := if existsb (Nat.eqb n) [0; 89; 178; 267]%nat then List.last frames [] else [] in
  mkLink newest newest (fun _ _ => node_locals) (fun _ => 0) (fun _ => 0)
    (fun _ frame => len frame) (fun _ => ESP_OK) (fun _ => false) (fun _ => false).

Definition erased_chip : SimState := mkSim (fun _ => 0xFF) (fun _ => 0xFF) [] false None.

Definition idle_session : OtaReceiverSession_t :=
  mkSession 0 0 1 0 0 0 0 0 0 0 0 0 0 0 0 0 0 0 0.

Definition idle_agent : OtaAgent := mkOtaAgent fresh_parser 0 idle_session (mkTrialState 0 0 0).

(** The node after its start-up. *)
Definition linked_env : NodeEnv (HW := SimHw) :=
  mkNodeEnv 0 0 (mkNode (fst (OtaAgent_Init idle_agent (sim_world erased_chip))) idle_agent true [])
    [] [] [] false.

#[local] Instance good_idf : EspIdf := LinkIdf good_link gateway_raw.

Definition linked_client : UartOtaClient_t (IDF := good_idf) :=
  mkUartOtaClient (mkUartOtaConfig 1 17 16 115200 500 1) None.

Definition small_read (offset n : Z) (e : NodeEnv (HW := SimHw)) : esp_err_t * list Z * NodeEnv :=
  (ESP_OK, slice offset n small_image, e).

Definition small_artifact : UartOtaArtifact_t (IDF := good_idf) :=
  mkUartOtaArtifact 7 0 2 205 small_crc 140 1 (Some small_read).

(** The transfer succeeds, nothing went undetected, the image is in flash. *)
Example small_transfer :
  match TransferArtifact (IDF := good_idf) script_locals 100 linked_client small_artifact small_read
          false linked_env with
  | Some (status, e) =>
      status = ESP_OK /\ ne_undetected e = false /\
      nor_slice (w_hw (nd_world (ne_node e))) EXT_INCOMING_ADDRESS 205 = small_image
  | None => False
  end.
Proof. vm_compute. split_and!; reflexivity. Qed.

Lemma idle_session_typed : session_typed idle_session.
Proof. split; split; vm_compute; congruence. Qed.

Lemma idle_not_active : ~ active idle_session.
Proof. intros [H|H]; discriminate H. Qed.

Lemma linked_env_fresh : fresh_link 7 small_crc small_image linked_env.
Proof.
  split; [reflexivity|reflexivity|reflexivity|reflexivity|exact fresh_parser_wf|]. split.
  - exists []. split; [split; [exact idle_session_typed|]|]; intros Ha; destruct (idle_not_active Ha).
  - intros Hr. destruct (idle_not_active (or_intror Hr)).
Qed.

Lemma small_artifact_image :
  artifact_is_image good_link script_locals 7 small_crc small_image small_artifact small_read.
Proof.
  split; [reflexivity|reflexivity|reflexivity| |by vm_compute|by vm_compute|by vm_compute|by vm_compute
    |by vm_compute|by vm_compute|by vm_compute|].
  - apply Forall_fmap, Forall_true. intros x. apply u8_range.
  - intros offset n e status bytes e' [= <- <- <-]. split; [by exists 0%nat|done].
Qed.

Lemma TransferArtifact_delivers_witness :
  exists fuel status e', Z.of_nat fuel = 120000001 /\
    TransferArtifact (IDF := good_idf) script_locals fuel linked_client small_artifact small_read
      false linked_env = Some (status, e') /\
    (status = ESP_OK -> ne_undetected e' = false -> arrived 7 small_image e').
Proof.
  destruct two_minutes as [fuel Hfuel].
  destruct (TransferArtifact_delivers good_link script_locals script_locals_typed eq_refl
    (fun _ _ => node_locals_ok) 7 small_crc small_image linked_client small_artifact small_read
    small_artifact_image) with (fuel := fuel) (resume := false) (e := linked_env)
    as (status & e' & H & _ & Hok).
  - by intros progress sent total e [=].
  - split; [cbn; lia|]. rewrite Hfuel. by vm_compute.
  - split; [by vm_compute|]. rewrite Hfuel. by vm_compute.
  - rewrite Hfuel. by vm_compute.
  - exact linked_env_fresh.
  - exists fuel, status, e'. split; [exact Hfuel|]. split; [exact H|exact Hok].
Defined.
