(* ===== verification/CacheScenarios.v ===== *)
(** * CacheScenarios: the artifact cache and the download at concrete inputs

    A flash partition in memory, a timer that ticks at every call and a server
    with a fixed body: the hypotheses of the theorems on the cache can be met,
    and a small artifact is downloaded, published and exported. *)

From Stdlib Require Import String.
From S2P Require Import Prelude Bytes MemoryMap Crc32 Device Sim Buffer FirmwareContainer.
From S2P Require Import GatewayProtocol GatewayClient GatewayRuns GatewayLink EndToEnd.
From S2P Require Import SecureContainerMeta ArtifactCache ArtifactTheorems HttpsDownload.
From S2P Require Import HttpsTheorems.
From S2P Require Import MqttOrchestrator GatewayManager ManagerTheorems.
From S2P Require Import OtaPacket OtaParser OtaLink OtaResponse GatewayCache.
From S2P Require Import GatewayScenarios.

(** A container header of a given type, versions, base hash byte and base size. *)
Definition container_header (image_type base_version target_version hash base_size : Z) : list Z :=
  PutU32Le FW_CONTAINER_MAGIC ++ PutU16Le 1 ++ PutU16Le 140 ++
  PutU32Le PRODUCT_ID_STM32F103_NODE ++ PutU32Le 1 ++ PutU32Le image_type ++ PutU32Le 0 ++
  PutU32Le base_version ++ PutU32Le target_version ++ PutU32Le 1024 ++ PutU32Le 1024 ++
  PutU32Le APPLICATION_START_ADDRESS ++ replicate 32 hash ++ replicate 32 7 ++
  PutU32Le 99 ++ PutU16Le 1 ++ PutU16Le 1 ++ PutU16Le 64 ++ PutU16Le 0 ++
  PutU32Le FW_CONTAINER_EXTENSION_MAGIC ++ PutU16Le 1 ++ PutU16Le 20 ++ PutU32Le 5 ++
  PutU32Le base_size ++ PutU32Le 77.

Lemma SecureContainerMeta_Parse_agrees_witness :
  let raw := container_header FW_IMAGE_FULL 0 2 0 0 in
  SecureContainerMeta_Parse (Some raw) 140 1228 true = Some (mkSecureContainerMeta 1 0 2 1024 1024 5) /\
  SecureContainerMeta_Parse (Some raw) 140 1227 true = None.
Proof.
  intros raw. destruct (FirmwareContainer_Parse (Some raw) 1228) as [st [info|]] eqn:E;
    [|vm_compute in E; discriminate].
  assert (Hst : st = FW_CONTAINER_VALID) by (vm_compute in E; congruence). subst st.
  destruct (SecureContainerMeta_Parse_agrees raw 140 1228 info) as (_ & H & _).
  - repeat constructor; vm_compute; congruence.
  - reflexivity.
  - exact E.
  - rewrite !H. vm_compute in E. injection E as <-. split; reflexivity.
Defined.

(** A downgrade: the format parser of the node leaves it to the update policy,
    the gateway refuses it at once. *)
Example downgrade_header :
  let raw := container_header FW_IMAGE_DELTA 5 2 1 1024 in
  fst (FirmwareContainer_Parse (Some raw) 1228) = FW_CONTAINER_VALID /\
  SecureContainerMeta_Parse (Some raw) 140 1228 true = None.
Proof. vm_compute. split; reflexivity. Qed.

(** ** A flash partition and a server *)

(** [ce_body] is what the server still has to send, [ce_uart] the bytes the node
    sends, [ce_sent] the messages handed to MQTT. *)
Record CacheEnv := mkCacheEnv {
  ce_flash : Z -> Z;
  ce_time : Z;
  ce_body : list Z;
  ce_received : list Z;
  ce_uart : list Z;
  ce_sent : list Message;
  ce_percent : Z
}.

Definition ce_tick (e : CacheEnv) : CacheEnv :=
  mkCacheEnv (ce_flash e) (ce_time e + 1) (ce_body e) (ce_received e) (ce_uart e) (ce_sent e) (ce_percent e).

Definition ce_store (f : Z -> Z) (e : CacheEnv) : CacheEnv :=
  mkCacheEnv f (ce_time e + 1) (ce_body e) (ce_received e) (ce_uart e) (ce_sent e) (ce_percent e).

Definition ce_uart_read (e : CacheEnv) : Z * Z * CacheEnv :=
  match ce_uart e with
  | [] => (0, 0, ce_tick e)
  | b :: bs => (1, u8 b, mkCacheEnv (ce_flash e) (ce_time e + 1) (ce_body e) (ce_received e) bs
                           (ce_sent e) (ce_percent e))
  end.

Definition ce_publish (message : Message) (e : CacheEnv) : Z * CacheEnv :=
  (1, mkCacheEnv (ce_flash e) (ce_time e + 1) (ce_body e) (ce_received e) (ce_uart e)
        (ce_sent e ++ [message]) (ce_percent e)).

Definition ce_set_percent (percent : Z) (e : CacheEnv) : CacheEnv :=
  mkCacheEnv (ce_flash e) (ce_time e) (ce_body e) (ce_received e) (ce_uart e) (ce_sent e) percent.

#[local] Instance cache_idf : EspIdf := {
  Env := CacheEnv;
  esp_timer_get_time e := (ce_time e, ce_tick e);
  uart_write_bytes n bs e := (len bs, ce_tick e);
  uart_wait_tx_done n t e := (ESP_OK, ce_tick e);
  uart_read_bytes n t e := ce_uart_read e;
  vTaskDelay t e := ce_tick e;
  pdMS_TO_TICKS ms := ms;
  uart_param_config n b e := (ESP_OK, e);
  uart_set_pin n t r e := (ESP_OK, e);
  uart_is_driver_installed n e := (true, e);
  uart_driver_install n s e := (ESP_OK, e);
  uart_flush_input n e := e
}.

#[local] Instance cache_clock : EspClock cache_idf.
Proof. refine {| clock (e : @Env cache_idf) := ce_time e |}; intros; cbn; try lia; unfold ce_uart_read; destruct (ce_uart e).
  - cbn. lia.
  - cbn. lia.
  - by vm_compute.
  - apply u8_range.
Defined.

#[local] Instance cache_partition : EspPartition cache_idf := {
  esp_partition_find_first := Some (mkEspPartition 0x21000);
  esp_partition_read p off n e := (ESP_OK, (fun a => u8 (ce_flash e a)) <$> seqZ off n, ce_tick e);
  esp_partition_write p off bs e :=
    (ESP_OK, ce_store (fun a =>
       if (off <=? a) && (a <? off + len bs) then Z.land (u8 (ce_flash e a)) (byte_at bs (a - off))
       else ce_flash e a) e);
  esp_partition_erase_range p off n e :=
    (ESP_OK, ce_store (fun a => if (off <=? a) && (a <? off + n) then 0xFF else ce_flash e a) e)
}.

Lemma u8_land b x : u8 (Z.land (u8 b) x) = Z.land (u8 b) x.
Proof.
  unfold u8. apply Z.mod_small. pose proof (Z.mod_pos_bound b (2 ^ 8)). split.
  - apply Z.land_nonneg. left. lia.
  - rewrite <- (Z.land_ones b 8) by lia. rewrite <- Z.land_assoc, (Z.land_comm (Z.ones 8)), Z.land_assoc, Z.land_ones by lia.
    apply Z.mod_pos_bound. lia.
Qed.

Lemma within off n a : (off <=? a) && (a <? off + n) = true <-> off <= a < off + n.
Proof. rewrite andb_true_iff, Z.leb_le, Z.ltb_lt. done. Qed.

#[local] Instance cache_partition_laws : PartitionLaws cache_partition.
Proof.
  refine {| stored (e : @Env cache_idf) a := u8 (ce_flash e a) |}; cbn [esp_partition_read esp_partition_write
    esp_partition_erase_range cache_partition fst snd]; try done.
  - intros e a. apply u8_range.
  - intros p [= <-]. vm_compute. split; congruence.
  - intros p off bs e a Ha. cbn. destruct (_ && _) eqn:E; [|done]. by apply within in E.
  - intros p off bs e i _ Hi. cbn. rewrite (proj2 (within off (len bs) (off + i))) by lia.
    replace (off + i - off) with i by lia. apply u8_land.
  - intros p off n e a Ha. cbn. destruct (_ && _) eqn:E; [|done]. by apply within in E.
  - intros p off n e a _ Ha. cbn. by rewrite (proj2 (within off n a)).
Defined.

(** The server hands out at most 100 bytes at a time. *)
Definition ce_read (n : Z) (e : CacheEnv) : Z * list Z * CacheEnv :=
  let chunk := u8 <$> take (Z.to_nat (Z.min n 100)) (ce_body e) in
  (len chunk, chunk, mkCacheEnv (ce_flash e) (ce_time e + 1) (drop (length chunk) (ce_body e))
     (ce_received e ++ chunk) (ce_uart e) (ce_sent e) (ce_percent e)).

#[local] Instance cache_http : EspHttp cache_idf := {
  http_client := unit;
  ESP_ERR_HTTP_EAGAIN := 0x7007;
  esp_http_client_init c e := (Some tt, ce_tick e);
  esp_http_client_set_method c e := (ESP_OK, ce_tick e);
  esp_http_client_open c n e := (ESP_OK, ce_tick e);
  esp_http_client_fetch_headers c e := (len (ce_body e), ce_tick e);
  esp_http_client_get_status_code c e := (200, ce_tick e);
  esp_http_client_is_chunked_response c e := (false, ce_tick e);
  esp_http_client_read c n e := ce_read n e;
  esp_http_client_is_complete_data_received c e := (bool_decide (ce_body e = []), ce_tick e);
  esp_http_client_close c e := (ESP_OK, ce_tick e);
  esp_http_client_cleanup c e := (ESP_OK, ce_tick e)
}.

Lemma take_bytes n (body : list Z) : bytes_ok (u8 <$> take n body).
Proof. apply Forall_fmap, Forall_true. intros x. apply u8_range. Qed.

#[local] Instance cache_erase_count : EraseCount cache_partition.
Proof. by refine {| erase_errors (e : @Env cache_idf) := 0 |}. Defined.

#[local] Instance cache_http_laws : HttpLaws cache_partition_laws cache_clock cache_http.
Proof.
  refine {| HttpsTheorems.received (e : @Env cache_idf) := ce_received e; hl_erase_count := cache_erase_count |};
    cbn; try (intros; split; [done|lia]); try done;
    try (intros; split; [done|split; [split; [done|cbn; lia]|done]]).
  intros c n e r bs e' [= <- <- <-]. cbn [ce_time ce_flash ce_received].
  split; [done|]. split; [cbn; lia|]. split; [done|]. split; [apply take_bytes|]. split.
  - intros Hr. split; [|done]. rewrite length_fmap, length_take in *. lia.
  - intros Hr. destruct (u8 <$> _) as [|b l] eqn:E; [|cbn [length] in Hr; lia]. apply app_nil_r.
Defined.

(** ** A download *)

Definition cache_url : string := "https://server/artifact.bin".

Definition cache_config : HttpsDownloadConfig_t :=
  mkHttpsDownloadConfig (Some cache_url) None true 7 2 0x20000 8000 None.

Definition cache_buffer : list Z := replicate 1024 0.

Definition blank_cache : ArtifactCache_t :=
  mkArtifactCache None (mkArtifactCacheHeader 0 0 0 0 0 0 0 0 0).

Definition blank_result : HttpsDownloadResult_t := mkHttpsDownloadResult 0 0 0 0.

Definition serving (body : list Z) : CacheEnv := mkCacheEnv (fun _ => 0) 0 body [] [] [] 0.

(** 205 bytes arrive in three reads; the cache publishes them. *)
Example small_download :
  match HttpsDownload_ToCache 10 cache_buffer (Some cache_config) (Some blank_cache) (Some blank_result)
          (serving small_image) with
  | Some (status, Some cache, result, e) =>
      status = ESP_OK /\ result = Some (mkHttpsDownloadResult 200 205 205 small_crc) /\
      published e = Some (ac_header cache, small_image) /\
      ch_update_id (ac_header cache) = 7 /\ ch_target_version (ac_header cache) = 2
  | _ => False
  end.
Proof. vm_compute. split_and!; reflexivity. Qed.

(** A server that ends early is no success, and nothing is published. *)
Example short_download :
  match HttpsDownload_ToCache 10 cache_buffer
          (Some (mkHttpsDownloadConfig (Some cache_url) None true 7 2 0x20000 8000
            (Some (fun _ _ (e : @Env cache_idf) => mkCacheEnv (ce_flash e) (ce_time e) [] (ce_received e) [] [] 0))))
          (Some blank_cache) None (serving small_image) with
  | Some (status, cache, result, e) =>
      status = ESP_ERR_INVALID_RESPONSE /\ cache = Some blank_cache /\
      HeaderValid FindPartition (Some (header_of_bytes (region e 0 header_size))) = false
  | None => False
  end.
Proof. vm_compute. split_and!; reflexivity. Qed.

Lemma much_fuel n : 0 <= n -> exists fuel, Z.of_nat fuel = n.
Proof. intros. exists (Z.to_nat n). by apply Z2Nat.id. Qed.

Lemma HttpsDownload_ToCache_publishes_witness :
  exists fuel status cache' result' e',
    HttpsDownload_ToCache fuel cache_buffer (Some cache_config) (Some blank_cache) (Some blank_result)
      (serving small_image) = Some (status, cache', result', e') /\
    (status = ESP_OK -> exists image, ce_received e' = [] ++ image /\
       downloaded cache_config image (Some blank_result) cache' result' e') /\
    (status <> ESP_OK -> published e' = published (serving small_image) \/ published e' = None).
Proof.
  destruct (much_fuel (0x20000 * (8000000 + 1) + 8000001) ltac:(lia)) as [fuel Hfuel].
  destruct (HttpsDownload_ToCache_publishes cache_config) with (fuel := fuel) (buffer := cache_buffer)
    (c := blank_cache) (result := Some blank_result) (e := serving small_image)
    as (status & cache' & result' & e' & H & Hok & Hno).
  - intros progress [=].
  - by vm_compute.
  - by vm_compute.
  - by vm_compute.
  - reflexivity.
  - by apply Forall_replicate.
  - unfold body_fuel. rewrite Hfuel. reflexivity.
  - exists fuel, status, cache', result', e'. split; [exact H|].
    split; intros Hst; [apply (Hok Hst)|by apply (Hno Hst)].
Defined.

(** ** A command *)

#[local] Instance cache_mqtt : EspMqtt cache_idf := {
  mqtt_client := unit;
  esp_mqtt_client_enqueue c t p q r s e := ce_publish (mkMessage t p q r) e;
  esp_mqtt_client_publish c t p q r e := ce_publish (mkMessage t p q r) e;
  xEventGroupClearBits b e := (0, ce_tick e);
  xEventGroupWaitBits b c a t e := (0, ce_tick e);
  xTaskGetTickCount e := (ce_time e, ce_tick e);
  get_last_published e := (1, ce_tick e);
  set_last_published z e := ce_tick e;
  get_last_percent s e := ce_percent e;
  set_last_percent s z e := ce_set_percent z e
}.

#[local] Instance cache_mqtt_laws : MqttLaws cache_http_laws cache_mqtt.
Proof.
  refine {| pubacks (e : @Env cache_idf) := 0%nat; outbox := 0%nat |}; cbn; try done;
    try (intros; split; [split; [done|split; [split; [done|cbn; lia]|done]]|done]);
    try (intros; split; [done|split; [split; [done|cbn; lia]|done]]).
  intros b clear all ticks e bits e' [= <- <-]. split; [split; [done|split; [split; [done|cbn; lia]|done]]|].
  by intros H.
Defined.

#[local] Instance cache_mqtt_traffic : MqttTraffic cache_partition cache_http cache_mqtt.
Proof.
  refine {| sent (e : @Env cache_idf) := ce_sent e |}; try done.
  intros n t e. cbn. unfold ce_uart_read. by destruct (ce_uart e).
Defined.

Definition worker_locals : ManagerLocals :=
  mkManagerLocals script_locals cache_buffer blank_cache
    (mkUartOtaArtifact 0 0 0 0 0 0 0 None) no_hello.

Definition worker_mqtt : MqttPublisher := mkMqttPublisher (Some tt) true "base/node/status" "base/node/progress".

Definition worker_uart : UartOtaClient_t := mkUartOtaClient (mkUartOtaConfig 1 17 16 115200 1500 5) None.

Definition worker_config : GatewayConfig_t := mkGatewayConfig 8000 false.

Definition worker_command (version crc : Z) : MqttOtaCommand_t := mkMqttOtaCommand 1 7 version 205 crc cache_url.

(** The node answers the first query: version 0, IDLE. *)
Definition hello_answer : list Z :=
  default [] (SendPacket gateway_raw gateway_frame
    (OtaResponse_BuildHelloQuery (node_packet (InitPacket UART_OTA_CMD_QUERY 0 0 0)) hello_info zero_packet)).

Definition working : CacheEnv := mkCacheEnv (fun _ => 0) 0 small_image [] hello_answer [] 0.

(** A node that runs the target version already: nothing is downloaded. *)
Example already_current :
  match ProcessCommand worker_locals 200 (Some worker_config) (Some worker_mqtt) (Some worker_uart)
          (Some (worker_command (hi_application_version (hello_of hello_info)) small_crc)) None working with
  | Some (status, _, e) =>
      status = ESP_OK /\ ce_received e = [] /\
      ce_sent e = [mkMessage "base/node/status"
        (status_json "confirmed" 7 (hi_application_version (hello_of hello_info)) "already_current") 1 true]
  | None => False
  end.
Proof. vm_compute. split_and!; reflexivity. Qed.

(** A command with another CRC than the file: it is downloaded, and refused. *)
Example wrong_crc :
  match ProcessCommand worker_locals 200 (Some worker_config) (Some worker_mqtt) (Some worker_uart)
          (Some (worker_command 2 (small_crc + 1))) None working with
  | Some (status, _, e) =>
      status = ESP_ERR_INVALID_CRC /\ ce_received e = small_image /\
      msg_text <$> ce_sent e =
        [status_json "accepted" 7 2 "downloading"; progress_json "https" 7 100 205 48;
         progress_json "https" 7 200 205 97; progress_json "https" 7 205 205 100;
         status_json "failed" 7 2 "mqtt_crc_mismatch"]
  | None => False
  end.
Proof. vm_compute. split_and!; reflexivity. Qed.

Lemma ProcessCommand_confirms_witness :
  let command := worker_command 2 small_crc in
  exists fuel status uart' e' messages,
    ProcessCommand worker_locals fuel (Some worker_config) (Some worker_mqtt) (Some worker_uart)
      (Some command) None working = Some ((status, uart'), e') /\
    ce_sent e' = messages /\
    (Exists confirms messages ->
       (exists info e1, UartOta_Query script_locals fuel (Some worker_uart) true working = Some (inr info, e1) /\
          runs_target command info) \/
       (exists header image, fetched worker_config command None header image /\
          install_confirmed fuel worker_locals worker_uart command header image)).
Proof.
  intros command.
  destruct (much_fuel (0x20000 * (8000000 + 1) + 8000001) ltac:(lia)) as [fuel Hfuel].
  destruct (ProcessCommand_confirms fuel) with (locals := worker_locals) (mqtt := worker_mqtt)
    (uart := worker_uart) (config := worker_config) (command := worker_command 2 small_crc)
    (test_ca := @None string) (e := working) as (status & uart' & e' & messages & H & Hs & _ & Hc).
  - change (0 < fuel)%nat. lia.
  - exact script_locals_typed.
  - split; [reflexivity|by apply Forall_replicate].
  - by vm_compute.
  - by vm_compute.
  - split; [by vm_compute|]. rewrite Hfuel. by vm_compute.
  - split; [by vm_compute|]. rewrite Hfuel. by vm_compute.
  - unfold body_fuel. rewrite Hfuel. reflexivity.
  - exists fuel, status, uart', e', messages. split; [exact H|]. split; [exact Hs|exact Hc].
Defined.

(** ** Events *)

(** A parser that knows one text: every payload is the command below. *)
Inductive toy_json := ToyObject | ToyString (s : string) | ToyNumber (n : Z).

Definition toy_item (root : toy_json) (name : string) : option toy_json :=
  match root with
  | ToyObject =>
      if String.eqb name "cmd" then Some (ToyString "update")
      else if String.eqb name "url" then Some (ToyString cache_url)
      else if String.eqb name "schema" then Some (ToyNumber 1)
      else if String.eqb name "size" then Some (ToyNumber 205) else Some (ToyNumber 7)
  | _ => None
  end.

#[local] Instance toy_cjson : CJson := {
  cJSON := toy_json;
  cJSON_ParseWithLength payload := Some ToyObject;
  cJSON_IsObject root := match root with ToyObject => true | _ => false end;
  cJSON_GetObjectItemCaseSensitive := toy_item;
  cJSON_IsNumber item := match item with ToyNumber _ => true | _ => false end;
  cJSON_IsString item := match item with ToyString _ => true | _ => false end;
  valuedouble item := match item with ToyNumber n => double_of_Z n | _ => double_of_Z 0 end;
  valuestring item := match item with ToyString s => Some s | _ => None end
}.

Definition listening : MqttOrchestrator_t :=
  mkMqttOrchestrator 3 "base/node/command" (replicate 768 0) 0 0 false (-1).

(** Two pieces of a payload, and the command they make. *)
Definition two_pieces : list (list Z) := [[1; 2; 3]; [4; 5]].

Lemma MqttEventHandler_whole_messages_witness :
  In (xQueueSend (mkMqttOtaCommand 1 7 7 205 7 cache_url))
    (snd (HandleEvents listening (message_events "base/node/command" 5 0 two_pieces))) /\
  exists before run after data,
    fragments (message_events "base/node/command" 5 0 two_pieces) = before ++ run ++ after /\
    gathered "base/node/command" (len data) run data.
Proof.
  assert (H : In (xQueueSend (mkMqttOtaCommand 1 7 7 205 7 cache_url))
    (snd (HandleEvents listening (message_events "base/node/command" 5 0 two_pieces)))).
  { vm_compute. left. reflexivity. }
  split; [exact H|].
  destruct (MqttEventHandler_whole_messages "base/node/command" listening
    (message_events "base/node/command" 5 0 two_pieces) (mkMqttOtaCommand 1 7 7 205 7 cache_url))
    as ((before & run & after & data & H1 & H2 & _) & _).
  - split; reflexivity.
  - repeat constructor; vm_compute; congruence.
  - exact H.
  - exists before, run, after, data. split; [exact H1|exact H2].
Defined.

Lemma HandleData_reassembles_witness :
  snd (HandleEvents listening (message_events "base/node/command" (len (concat two_pieces)) 0 two_pieces)) =
    command_calls [1; 2; 3; 4; 5].
Proof.
  apply (HandleData_reassembles "base/node/command" listening two_pieces).
  - reflexivity.
  - reflexivity.
  - discriminate.
  - repeat constructor; discriminate.
  - vm_compute. discriminate.
Defined.

(** ** The cached artifact on the link *)

Definition small_writer : ArtifactCacheWriter_t :=
  mkArtifactCacheWriter None 7 2 205 205 0 false.

Definition small_flash (a : Z) : Z :=
  if a <? 36 then byte_at (header_bytes (NewHeader small_writer small_crc)) a
  else byte_at small_image (a - 4096).

Definition cache_room : option esp_partition_t := Some (mkEspPartition 0x21000).

Lemma cache_room_size p :
  cache_room = Some p -> ARTIFACT_CACHE_DATA_OFFSET <= pt_size p < 2 ^ 32.
Proof. intros [= <-]. by vm_compute. Qed.


#[local] Instance link_idf : EspIdf := LinkIdf good_link (cl_raw script_locals).

#[local] Instance link_partition : EspPartition link_idf :=
  LinkPartition good_link script_locals small_flash cache_room (fun _ => ESP_OK).

#[local] Instance link_partition_laws : PartitionLaws link_partition :=
  LinkPartitionLaws good_link script_locals small_flash cache_room (fun _ => ESP_OK) cache_room_size.

Definition small_header : ArtifactCacheHeader_t := NewHeader small_writer small_crc.

Lemma small_published : published (PART := link_partition) linked_env = Some (small_header, small_image).
Proof. vm_compute. reflexivity. Qed.

(** What the cache exports of it. *)
Definition small_export : option (esp_err_t * option UartOtaArtifact_t * @Env link_idf) :=
  ArtifactCache_AsUartArtifact (Some (mkArtifactCache FindPartition small_header)) (Some small_artifact) linked_env.

Lemma small_export_ok :
  match small_export with Some (ESP_OK, Some _, _) => true | _ => false end = true.
Proof. vm_compute. reflexivity. Qed.

Lemma ArtifactCache_AsUartArtifact_is_image_witness :
  exists artifact read, ua_read artifact = Some read /\
    artifact_is_image good_link script_locals 7 (crc_of small_image) small_image artifact read.
Proof.
  pose proof small_export_ok as Hok.
  destruct small_export as [[[[] [artifact|]] e']|] eqn:E; try discriminate Hok. exists artifact.
  exact (ArtifactCache_AsUartArtifact_is_image good_link script_locals small_flash cache_room (fun _ => ESP_OK)
    cache_room_size small_header small_image small_artifact linked_env artifact e' small_published E).
Defined.
